(* ===== verification/_CoqProject ===== *)
-Q . S2P
Prelude.v
GatewayAPI.v
Samples.v
Refs.v
Routes.v
Envoy.v
Listeners.v
Hosts.v
Model.v
API.v
Memory.v
DeepCopy.v
Tunnel.v
EnvoyAPI.v
XdsRoutes.v
Xds.v
Requests.v
Connections.v
Snapshot.v
Effects.v
Logic.v
Helpers.v
TunnelApi.v
Dns.v
PrivateRoutes.v
ValueFrom.v
TunnelCtl.v
TunnelWorld.v
TunnelLife.v
RecordCtl.v
DnsPath.v
Access.v
Address.v
GatewayLoad.v
GatewayStatus.v
EnvoyDeploy.v
Bootstrap.v
GatewayCtl.v
Path.v
XdsCtl.v
CloudflaredCtl.v
CloudflaredWorld.v
Client.v
RouteCtl.v
ClassCtl.v
SecretsCtl.v
IngressCtl.v
XdsServer.v
Flags.v
Startup.v
Watches.v
Freshness.v
FreshRoutes.v
FreshGateways.v
FreshClasses.v
