(* ===== verification/Prelude.v ===== *)
(** * cloudflare-operator: verification development

    The operator is a Kubernetes controller manager. It keeps Cloudflare tunnels,
    the cloudflared processes that run them, DNS records and private network
    routes as custom resources ask for them, and it implements the Gateway API: a
    Gateway of one of its classes gets an Envoy proxy, which it programs over xDS,
    and a tunnel in front of it. This development models its Go code (directories
    below are under src/) and proves what makes each part correct.

    ** The parts and how they interact

    The manager (cmd/main.go) finds what the cluster serves and sets up the
    controllers for it. Each controller reconciles one kind of object: it reads
    objects from the API server's cache, computes what they ask for, and writes
    objects, their status, or requests of the Cloudflare API. They share the pure
    core of internal/gateway, which reduces a Gateway and all it refers to into a
    model; internal/xds, which turns a model into Envoy's configuration; and
    internal/secrets, which keeps the caches TLS Secrets are read from. The
    GatewayClass controller accepts classes, the Gateway controller provisions an
    Envoy and a CloudflareTunnel, the xDS controller keeps the snapshot the Envoy
    is served, the route controller reports on routes, and the Secret access
    controllers follow which namespaces certificates come from; the tunnel
    controller creates the tunnel upstream, and converges Cloudflareds, DnsRecords
    and private routes for it, which the controllers of their own keep.

    ** Which file models what

    - Prelude: comparison functions and sorting as in cmp and slices, strings,
      lists and maps: what the components share.
    - GatewayAPI, EnvoyAPI, API: the data, as records and inductive types:
      Kubernetes and Gateway API objects, Envoy's messages, and api/v1alpha1.
      Samples: the small objects witnesses evaluate the definitions on.
    - The deep copies of api/v1alpha1 (zz_generated.deepcopy.go): DeepCopy, in the
      memory of Memory, where a value is a reference to a cell or a struct of
      values and each type of the API has its layout.
    - internal/gateway: Refs (refs.go), Routes (routes.go), Envoy (envoy.go),
      Listeners (listeners.go), Hosts and Model (model.go), Tunnel (tunnel.go),
      GatewayLoad (params.go, load.go, configuration.go).
    - internal/xds: XdsRoutes and Xds (translate.go, l4.go), XdsCtl (Snapshot and
      hash of translate.go), Bootstrap (bootstrap.go), Address (address.go),
      XdsServer (server.go, with the goroutine that stops it). Of
      what they produce: Requests (which routes take a request), Connections
      (which chain takes a connection), Snapshot (which endpoints and names).
    - internal/secrets: Access (access.go), a state machine of one transition per
      critical section; [Get] looks a cache up in one state and reads it in a later
      one, after the lock is released.
    - internal/client: Effects (errors.go), TunnelApi (map.go) and Client
      (client.go: the methods, and the loops that gather a list's pages).
    - internal/controller: TunnelCtl (cloudflaretunnel_controller.go), Dns (dns.go,
      cloudflaretunnel_dns.go), PrivateRoutes (cloudflaretunnel_routes.go),
      ValueFrom (valuefrom.go), RecordCtl (dnsrecord_controller.go), CloudflaredCtl
      (cloudflared_controller.go) and CloudflaredWorld (the cluster it runs in),
      GatewayStatus (gateway_status.go, gatewayreason.go), EnvoyDeploy
      (gateway_envoy.go), GatewayCtl (gateway_controller.go), XdsCtl
      (gateway_xds_controller.go), RouteCtl (route_controller.go), ClassCtl
      (gatewayclass_controller.go, gatewayclass_handler.go, gateway_watch.go),
      SecretsCtl (gateway_secrets_controller.go), IngressCtl
      (ingress_controller.go, with internal/ingress and internal/annotation).
    - cmd: Flags and Startup (main.go), and Watches, with the SetupWithManager
      methods of internal/controller and its watches (gateway_watch.go,
      gatewayclass_handler.go).
    - Effects, Logic and Helpers: what the controllers are written in, reasoned
      about and written with, below.
    - Parts together: Path, from a public hostname through the tunnel's ingress,
      Envoy's Service and Deployment to a route; DnsPath, from a hostname to its
      record, through two controllers; TunnelWorld and TunnelLife, a tunnel's
      life at Cloudflare and in the cluster; Freshness (with FreshRoutes,
      FreshGateways and FreshClasses), from a change in the cluster through the
      watches to what the Gateway controllers write.

    A definition has the name of the Go function it translates, or is a part of it
    that a closure or a loop body is; a method's receiver is an argument.

    ** Controllers as programs

    A controller is a value of [Effects.prog E A]: it ends with an [A], or makes a
    request of the family [E] and continues with the answer. Each file declares the
    requests its code makes, indexed by the type of the answer; an answer that can
    be an error is a sum or an option. [exec p tr a] says that [p] makes the
    requests of [tr], gets the answers of [tr] and returns [a]; the answers are
    arbitrary, so a theorem about [exec] holds whatever the two APIs do, however
    stale a cache is, and whatever other controllers do between two requests. A
    view of a trace ([omap] of a function of events) picks the requests a theorem
    is about, with the answers they got. [emits P p] says that every request [p]
    can make satisfies [P], and [stops ok good p] that an answer that is not ok
    ends it with a result that is not good. What a run should be is stated apart
    from the code's functions: as a relation between its requests and its result
    ([XdsCtl.Caches], [RouteCtl.Reported], [ClassCtl.Reconciled]), or of what it
    wrote ([GatewayCtl.Serves], [GatewayLoad.ServicesRead], [Dns.WantsRecord]). For
    convergence, [run handle p s] answers requests from a state: the zone of a
    record ([RecordCtl.DnsWorld]), a Cloudflared and its applications
    (CloudflaredWorld), the RoleBindings of a cluster with the chart's admission
    policy, where it is installed ([SecretsCtl.serve]), a
    tunnel and what depends on it ([TunnelLife.serve]); [Logic.total] is the
    logic of such runs. For what holds however requests fail and wherever a
    process is killed, [Logic.wp] has the world answer as a relation says and
    asks for an invariant after every request ([TunnelWorld.answers]). When every
    read is answered by one state, [Logic.outcome] is what a program computes from
    it; [supply] answers the reads only, and [same] says that what is left makes
    the same writes, whatever they are answered.

    ** What the theorems show

    - Gateways: which listeners are valid, with which certificates; which routes
      attach where, and what a model holds; what loading reads, and what it may.
    - Envoy: a translation is closed under its own references, gives each hostname
      the routes of the listener that owns it, fits the bootstrap and the Service
      in front of it, and is the one cached for the Gateway's node.
    - Requests: a request for a public hostname goes from the tunnel's ingress to
      the routes of the listener that owns it; Envoy is told of no endpoint that
      a permitted backendRef does not name, and its resources' names are distinct.
    - Tunnels: the ingress a Gateway gets is ordered and accepted; a tunnel is
      established by one reconciliation and gone by two, configured only when
      managed remotely, and never leaked once it is recorded, whatever fails and
      wherever the operator stops; DNS records and private routes converge, and a
      hostname's record points at its tunnel.
    - DnsRecords and Cloudflareds: they settle in a bounded number of rounds, and
      nothing is created twice, orphaned or deleted that is another's.
    - Status: what Gateways, classes and routes report is what was found, as of
      the generation seen, and other controllers' entries are left alone.
    - Secrets: the operator may read Secrets exactly in the namespaces Gateways may
      take certificates from, the caches in use are those of these namespaces in
      every interleaving, and a failed list never takes access away; a binding the
      admission policy protects stops a reconciliation with its refusal.
    - Watches: a change in the cluster that makes a controller of the Gateway API
      write anything else for an object enqueues that object; and what is not
      watched, the tunnel controller's Cloudflareds and a foreign Service.
    - The manager: it starts with exactly the controllers the cluster calls for,
      with what its command line does not turn on off; every replica serves Envoys,
      and only the leader writes; the xDS server ends when it is asked to.
    - The client: a list the controllers act on has the items of every page.
    - Deep copies: a copy of any type of the API reads as the original and shares no
      memory with it, as with the values that stand for objects in this model.
    - Texts and errors: addresses round trip, names are bounded, secrets checked.

    ** Fuel and bounds

    Loops over a list, a map or a string are structural recursion, and every
    program ends ([Effects.exec_total]). Loops that wait (Access, the servers) are
    transitions. The loop over a pager ([Client.gather]) takes fuel; more than the
    number of items is enough ([gather_yields]).
    Ports, weights and counters are integers the API's schema bounds, and
    conversions ([uint32], [uint16]) wrap or fail as Go's do.

    ** Parameters

    Code outside the repository is a parameter, a class with the operations the
    code calls, and with laws only where a theorem needs them: [Envoy.Validation],
    [Envoy.Sha256], [Listeners.X509], [Model.LabelSelectors],
    [TunnelApi.SelectorError], [Tunnel.Netip], [PrivateRoutes.NetipPrefix],
    [EnvoyAPI.Anypb], [EnvoyAPI.BootstrapCodec], [XdsCtl.SnapshotLib],
    [IngressCtl.Yaml], [Client.AutoPager], [Flags.PackageFlags];
    [DeepCopy.Externals], the types of Kubernetes, with [ExternalLaws];
    [Watches.Runtime], how controller-runtime delivers events, with [RuntimeLaws];
    [Helpers.ObjectHelpers] with [ConditionLaws], [OwnerLaws] and [FinalizerLaws], of
    which [sampleHelpers] is an instance; [Xds.MapOrder] and [SecretsCtl]'s
    [rangeOver], the order in which Go ranges over a map. Each is instantiated in
    the witnesses.

    The worlds the controllers run in are hypotheses of the theorems that name
    them: reads are current, one reconciliation of an object runs at a time, an
    object that is being deleted goes with its last finalizer, and Cloudflare
    does not reuse the identifier of a tunnel. In Freshness a change of the cluster
    is one event, and the reads after it see it.

    Approximations: [strings.ToLower], [TrimSpace] and %q are those of ASCII
    text; a number the Cloudflare client holds as [float64] stays the integer of
    the spec; log lines are left out, and so is the apiVersion of an owner.

    ** Not modelled

    internal/gatewayapi/crds.go runs the go command to find CRD files for tests.
    The mock client is generated, and groupversion_info.go registers the types.
    A slice has no capacity besides its elements. Logging, with the adapters and
    options of loggers, is left out; and
    so is what controller-runtime does with the options it is given. *)
From Stdlib Require Import Sorted.
From stdpp Require Export base gmap strings list sorting pretty.

#[global] Set Default Goal Selector "!".

Declare Scope operator_scope.
Delimit Scope operator_scope with op.
#[global] Open Scope operator_scope.
#[global] Open Scope string_scope.
#[global] Open Scope nat_scope.
#[global] Open Scope list_scope.

(** ** Comparison functions

    Go's [cmp.Compare] and the comparison functions handed to [slices.Sort*]
    return a negative, zero or positive number; [comparison] is that sign. *)

(** A comparison function that orders its domain totally: its value is the
    opposite under exchange, and "not greater" is transitive. *)
Definition cmp_le {A} (cmp : A → A → comparison) (x y : A) : Prop := cmp x y ≠ Gt.

Class TotalCmp {A} (cmp : A → A → comparison) : Prop := {
  cmp_antisym x y : cmp y x = CompOpp (cmp x y);
  cmp_le_trans x y z : cmp_le cmp x y → cmp_le cmp y z → cmp_le cmp x z;
}.
#[export] Hint Mode TotalCmp + + : typeclass_instances.
Arguments cmp_antisym {A} cmp {_} x y : rename.
Arguments cmp_le_trans {A} cmp {_} x y z : rename.

(** [cmp.Or]: the first comparison that is not zero. *)
Definition cmp_or (c1 c2 : comparison) : comparison :=
  match c1 with Eq => c2 | _ => c1 end.

(** Comparing through a key. *)
Definition cmp_on {A B} (f : A → B) (cmp : B → B → comparison) (x y : A) : comparison :=
  cmp (f x) (f y).

(** The reversed comparison, [cmp.Compare(b, a)]. *)
Definition cmp_rev {A} (cmp : A → A → comparison) (x y : A) : comparison := cmp y x.

Section total_cmp.
Context {A} (cmp : A → A → comparison) `{!TotalCmp cmp}.

Lemma cmp_refl x : cmp x x = Eq.
Proof. pose proof (cmp_antisym cmp x x). by destruct (cmp x x). Qed.

Lemma cmp_le_refl x : cmp_le cmp x x.
Proof. unfold cmp_le. by rewrite cmp_refl. Qed.

Lemma cmp_gt_lt x y : cmp x y = Gt ↔ cmp y x = Lt.
Proof. rewrite (cmp_antisym cmp x y). by destruct (cmp x y). Qed.

Lemma cmp_le_total x y : cmp_le cmp x y ∨ cmp_le cmp y x.
Proof. unfold cmp_le. rewrite (cmp_antisym cmp x y). destruct (cmp x y); simpl; auto. Qed.

Lemma cmp_le_antisym x y : cmp_le cmp x y → cmp_le cmp y x → cmp x y = Eq.
Proof. unfold cmp_le. rewrite (cmp_antisym cmp x y). by destruct (cmp x y). Qed.

Lemma cmp_lt_le_trans x y z : cmp x y = Lt → cmp_le cmp y z → cmp x z = Lt.
Proof.
  intros Hxy Hyz. destruct (cmp x z) eqn:E; [|done|].
  - exfalso. assert (cmp_le cmp z x) as Hzx.
    { unfold cmp_le. rewrite (cmp_antisym cmp x z), E. done. }
    assert (cmp_le cmp y x) as Hyx by eauto using cmp_le_trans.
    unfold cmp_le in Hyx. by rewrite (cmp_antisym cmp x y), Hxy in Hyx.
  - exfalso. assert (cmp_le cmp x z); [|done].
    apply (cmp_le_trans cmp x y z); [|done]. unfold cmp_le. by rewrite Hxy.
Qed.

Lemma cmp_eq_trans x y z : cmp x y = Eq → cmp y z = Eq → cmp x z = Eq.
Proof.
  intros Hxy Hyz. apply cmp_le_antisym; apply (cmp_le_trans cmp _ y); unfold cmp_le.
  - by rewrite Hxy.
  - by rewrite Hyz.
  - by rewrite (cmp_antisym cmp y z), Hyz.
  - by rewrite (cmp_antisym cmp x y), Hxy.
Qed.

Lemma cmp_le_lt_trans x y z : cmp_le cmp x y → cmp y z = Lt → cmp x z = Lt.
Proof.
  intros Hxy Hyz. destruct (cmp x y) eqn:E; [| |done].
  - destruct (cmp x z) eqn:F; [|done|].
    + assert (cmp y x = Eq) as Hyx by by rewrite (cmp_antisym cmp x y), E.
      by rewrite (cmp_eq_trans y x z) in Hyz.
    + exfalso. assert (cmp_le cmp x z); [|done].
      apply (cmp_le_trans cmp x y z); unfold cmp_le; [by rewrite E|by rewrite Hyz].
  - apply (cmp_lt_le_trans x y z); [done|]. unfold cmp_le. by rewrite Hyz.
Qed.

#[export] Instance cmp_le_preorder : PreOrder (cmp_le cmp).
Proof. split; [exact cmp_le_refl|exact (cmp_le_trans cmp)]. Qed.

#[export] Instance cmp_on_total {B} (f : B → A) : TotalCmp (cmp_on f cmp).
Proof.
  split; unfold cmp_on, cmp_le; intros.
  - apply (cmp_antisym cmp).
  - eapply (cmp_le_trans cmp); eassumption.
Qed.

#[export] Instance cmp_rev_total : TotalCmp (cmp_rev cmp).
Proof.
  split; unfold cmp_rev, cmp_le; intros.
  - apply (cmp_antisym cmp).
  - eapply (cmp_le_trans cmp); eassumption.
Qed.
End total_cmp.

#[export] Instance cmp_or_total {A} (c1 c2 : A → A → comparison) :
  TotalCmp c1 → TotalCmp c2 → TotalCmp (λ x y, cmp_or (c1 x y) (c2 x y)).
Proof.
  intros H1 H2. split.
  - intros x y. rewrite (cmp_antisym c1 x y), (cmp_antisym c2 x y).
    by destruct (c1 x y), (c2 x y).
  - intros x y z. unfold cmp_le, cmp_or. intros Hxy Hyz.
    destruct (c1 x y) eqn:E1; [| |done].
    + destruct (c1 y z) eqn:E2; [| |done].
      * rewrite (cmp_eq_trans c1 x y z) by done. by eapply (cmp_le_trans c2).
      * erewrite (cmp_le_lt_trans c1 x y z); [done| |done]. unfold cmp_le. by rewrite E1.
    + erewrite (cmp_lt_le_trans c1 x y z); [done|done|].
      unfold cmp_le. by destruct (c1 y z).
Qed.

#[global] Typeclasses Opaque cmp_or cmp_on cmp_rev.

#[export] Instance Z_compare_total : TotalCmp Z.compare.
Proof.
  split.
  - intros x y. apply Z.compare_antisym.
  - unfold cmp_le. intros x y z. rewrite !Z.compare_le_iff. lia.
Qed.

#[export] Instance nat_compare_total : TotalCmp Nat.compare.
Proof.
  split.
  - intros x y. apply Nat.compare_antisym.
  - unfold cmp_le. intros x y z. rewrite !Nat.compare_le_iff. lia.
Qed.

#[export] Instance ascii_compare_total : TotalCmp Ascii.compare.
Proof.
  split; unfold Ascii.compare.
  - intros x y. apply N.compare_antisym.
  - unfold cmp_le. intros x y z. rewrite !N.compare_le_iff. lia.
Qed.

Lemma ascii_compare_eq a b : Ascii.compare a b = Eq ↔ a = b.
Proof.
  unfold Ascii.compare. rewrite N.compare_eq_iff. split; [|by intros ->].
  intros H. rewrite <- (Ascii.ascii_N_embedding a), <- (Ascii.ascii_N_embedding b). by rewrite H.
Qed.

(** Go compares strings byte by byte, which is [String.compare]. *)
#[export] Instance string_compare_total : TotalCmp String.compare.
Proof.
  split.
  - intros x y. rewrite String.compare_antisym. by destruct (String.compare y x).
  - unfold cmp_le. intros x. induction x as [|a x IH]; intros y z.
    + destruct y; destruct z; simpl; auto.
    + destruct y as [|b y]; [done|]. destruct z as [|c z]; [done|]. simpl.
      destruct (Ascii.compare a b) eqn:Eab; [| |done];
        destruct (Ascii.compare b c) eqn:Ebc; try done.
      * rewrite (cmp_eq_trans Ascii.compare a b c) by done. apply IH.
      * rewrite (cmp_le_lt_trans Ascii.compare a b c); [done| |done]. unfold cmp_le. by rewrite Eab.
      * rewrite (cmp_lt_le_trans Ascii.compare a b c); [done|done|]. unfold cmp_le. by rewrite Ebc.
      * rewrite (cmp_lt_le_trans Ascii.compare a b c); [done|done|]. unfold cmp_le. by rewrite Ebc.
Qed.

Lemma string_compare_eq x y : String.compare x y = Eq ↔ x = y.
Proof. split; [apply String.compare_eq_iff|intros ->; apply (cmp_refl String.compare)]. Qed.

(** ** Stable sorting

    [slices.SortStableFunc] sorts in place and keeps equal elements in order.
    [slices.SortFunc] does not promise the latter; the code calls it only on
    elements no two of which compare equal, where [sort_by_unique] makes the
    result the same whichever algorithm sorts. *)
Section sort_by.
Context {A} (cmp : A → A → comparison).

Fixpoint insert_by (a : A) (l : list A) : list A :=
  match l with
  | [] => [a]
  | b :: l' =>
    match cmp a b with
    | Gt => b :: insert_by a l'
    | _ => a :: l
    end
  end.

Fixpoint sort_by (l : list A) : list A :=
  match l with
  | [] => []
  | a :: l' => insert_by a (sort_by l')
  end.

(** [slices.MinFunc]: the first of the least elements. It panics on an empty
    slice, which [None] stands for. *)
Definition min_by (l : list A) : option A :=
  match l with
  | [] => None
  | a :: l' => Some (foldl (λ m x, match cmp x m with Lt => x | _ => m end) a l')
  end.

Lemma insert_by_perm a l : insert_by a l ≡ₚ a :: l.
Proof.
  induction l as [|b l IH]; simpl; [done|].
  destruct (cmp a b); [done|done|]. rewrite IH. constructor.
Qed.

Lemma sort_by_perm l : sort_by l ≡ₚ l.
Proof. induction l as [|a l IH]; simpl; [done|]. by rewrite insert_by_perm, IH. Qed.

Lemma elem_of_sort_by x l : x ∈ sort_by l ↔ x ∈ l.
Proof. by rewrite sort_by_perm. Qed.

Lemma NoDup_sort_by l : NoDup (sort_by l) ↔ NoDup l.
Proof. by rewrite sort_by_perm. Qed.

Lemma length_sort_by l : length (sort_by l) = length l.
Proof. by rewrite sort_by_perm. Qed.

Context `{!TotalCmp cmp}.

Lemma insert_by_sorted a l :
  StronglySorted (cmp_le cmp) l → StronglySorted (cmp_le cmp) (insert_by a l).
Proof.
  induction 1 as [|b l Hl IH Hb]; simpl; [repeat constructor|].
  assert (cmp a b ≠ Gt → StronglySorted (cmp_le cmp) (a :: b :: l)) as Hcons.
  { intros Hab. constructor; [by constructor|]. constructor; [done|].
    eapply Forall_impl; [exact Hb|]. intros c. by apply (cmp_le_trans cmp). }
  destruct (cmp a b) eqn:E; [by apply Hcons|by apply Hcons|].
  constructor; [done|]. rewrite insert_by_perm. constructor; [|done].
  unfold cmp_le. by rewrite (cmp_antisym cmp a b), E.
Qed.

Lemma sort_by_sorted l : StronglySorted (cmp_le cmp) (sort_by l).
Proof. induction l; simpl; [constructor|by apply insert_by_sorted]. Qed.

(** Stability: the elements that compare equal to one another keep their
    order. *)
Lemma insert_by_filter_ne x a l :
  cmp x a ≠ Eq →
  filter (λ y, cmp x y = Eq) (insert_by a l) = filter (λ y, cmp x y = Eq) l.
Proof.
  intros Hne. induction l as [|b l IH]; simpl.
  - by rewrite filter_cons_False.
  - destruct (cmp a b); rewrite ?(filter_cons_False _ a) by done; [done|done|].
    rewrite !filter_cons. by case_decide; rewrite IH.
Qed.

Lemma insert_by_filter_eq x a l :
  cmp x a = Eq →
  filter (λ y, cmp x y = Eq) (insert_by a l) = a :: filter (λ y, cmp x y = Eq) l.
Proof.
  intros Hxa. induction l as [|b l IH]; simpl.
  - by rewrite filter_cons_True.
  - destruct (cmp a b) eqn:E; [by rewrite filter_cons_True|by rewrite filter_cons_True|].
    rewrite !filter_cons. case_decide as Hb; rewrite IH; [|done].
    exfalso. assert (cmp a x = Eq) as Hax by by rewrite (cmp_antisym cmp x a), Hxa.
    by rewrite (cmp_eq_trans cmp a x b) in E.
Qed.

Lemma sort_by_stable x l :
  filter (λ y, cmp x y = Eq) (sort_by l) = filter (λ y, cmp x y = Eq) l.
Proof.
  induction l as [|a l IH]; simpl; [done|]. destruct (decide (cmp x a = Eq)) as [H|H].
  - by rewrite insert_by_filter_eq, filter_cons_True, IH.
  - by rewrite insert_by_filter_ne, filter_cons_False, IH.
Qed.

Lemma sorted_by_unique s1 s2 :
  s1 ≡ₚ s2 →
  (∀ x y, x ∈ s1 → y ∈ s1 → cmp x y = Eq → x = y) →
  StronglySorted (cmp_le cmp) s1 → StronglySorted (cmp_le cmp) s2 → s1 = s2.
Proof.
  revert s2. induction s1 as [|a s1 IH]; intros s2 Hp Hu H1 H2.
  { by apply Permutation_nil_l in Hp. }
  destruct s2 as [|b s2]; [by symmetry in Hp; apply Permutation_nil_cons in Hp|].
  inversion H1 as [|?? H1' Ha]; inversion H2 as [|?? H2' Hb]; subst.
  assert (a = b) as ->.
  { assert (a ∈ b :: s2) as Hab by (rewrite <- Hp; left).
    assert (b ∈ a :: s1) as Hba by (rewrite Hp; left).
    apply Hu; [left|done|]. apply (cmp_le_antisym cmp).
    - apply elem_of_cons in Hba as [->|Hba]; [by apply (cmp_le_refl cmp)|].
      by eapply Forall_forall in Ha.
    - apply elem_of_cons in Hab as [->|Hab]; [by apply (cmp_le_refl cmp)|].
      by eapply Forall_forall in Hb. }
  f_equal. apply IH; [by apply Permutation_cons_inv in Hp| |done|done].
  intros x y Hx Hy. apply Hu; by right.
Qed.

(** Sorting elements no two of which compare equal has one result, whatever
    the order they come in. *)
Lemma sort_by_unique l1 l2 :
  l1 ≡ₚ l2 →
  (∀ x y, x ∈ l1 → y ∈ l1 → cmp x y = Eq → x = y) →
  sort_by l1 = sort_by l2.
Proof.
  intros Hperm Huniq. apply sorted_by_unique; [by rewrite !sort_by_perm| |apply sort_by_sorted..].
  intros x y. rewrite !elem_of_sort_by. apply Huniq.
Qed.

Lemma min_fold_spec a l :
  let m := foldl (λ m x, match cmp x m with Lt => x | _ => m end) a l in
  m ∈ a :: l ∧ Forall (cmp_le cmp m) (a :: l).
Proof.
  revert a. induction l as [|b l IH]; intros a; simpl.
  { split; [left|]. repeat constructor. by apply (cmp_le_refl cmp). }
  set (m0 := match cmp b a with Lt => b | _ => a end).
  assert (m0 ∈ [a; b] ∧ cmp_le cmp m0 a ∧ cmp_le cmp m0 b) as (Hin0 & Ha & Hb).
  { unfold m0, cmp_le. pose proof (cmp_antisym cmp b a) as E'.
    clear IH.
    destruct (cmp b a) eqn:E; rewrite ?E', ?E, ?(cmp_refl cmp); simpl;
      rewrite !elem_of_cons; auto. }
  destruct (IH m0) as [Hin Hle]. apply Forall_cons in Hle as [Hm Hle].
  split; [clear IH; clearbody m0; set_solver|].
  repeat constructor; [by apply (cmp_le_trans cmp _ m0)..|done].
Qed.

(** [min_by] returns an element of the slice that none is less than. *)
Lemma min_by_spec l m :
  min_by l = Some m → m ∈ l ∧ ∀ x, x ∈ l → cmp_le cmp m x.
Proof.
  destruct l as [|a l]; [done|]. intros [= <-]. rewrite <- Forall_forall.
  apply min_fold_spec.
Qed.

Lemma min_by_is_Some l : l ≠ [] → is_Some (min_by l).
Proof. destruct l; simpl; [done|by eauto]. Qed.

(** The least element does not depend on the order of the slice when no two
    elements compare equal. *)
Lemma min_by_perm l1 l2 :
  l1 ≡ₚ l2 →
  (∀ x y, x ∈ l1 → y ∈ l1 → cmp x y = Eq → x = y) →
  min_by l1 = min_by l2.
Proof.
  intros Hp Hu. destruct (min_by l1) as [m1|] eqn:E1.
  - destruct (min_by_is_Some l2) as [m2 E2].
    { intros ->. apply Permutation_nil_r in Hp. by subst. }
    apply min_by_spec in E1 as [Hin1 Hle1]. rewrite E2. apply min_by_spec in E2 as [Hin2 Hle2].
    rewrite <- Hp in Hin2. f_equal. apply Hu; [done|done|].
    apply (cmp_le_antisym cmp); [by apply Hle1|]. apply Hle2. by rewrite <- Hp.
  - destruct l1; [|done]. apply Permutation_nil_l in Hp. by subst.
Qed.
End sort_by.

(** ** Strings

    A Go string is a sequence of bytes, modelled as [string]. *)

#[local] Arguments String.append : simpl nomatch.

Lemma string_app_assoc (a b c : string) : (a +:+ b) +:+ c = a +:+ (b +:+ c).
Proof. induction a as [|x a IH]; simpl; [done|]. by rewrite IH. Qed.

Lemma string_app_nil_r (a : string) : a +:+ "" = a.
Proof. induction a as [|x a IH]; simpl; [done|]. by rewrite IH. Qed.

Lemma string_length_app (a b : string) : String.length (a +:+ b) = String.length a + String.length b.
Proof. induction a; simpl; auto. Qed.

#[export] Instance string_app_inj_r (a : string) : Inj (=) (=) (String.append a).
Proof. induction a as [|x a IH]; intros u v; simpl; [done|]. intros [= H]. by apply IH. Qed.

Lemma string_app_inj_l (u v s : string) : u +:+ s = v +:+ s → u = v.
Proof.
  revert v. induction u as [|x u IH]; intros [|y v]; simpl; intros H; [done|..].
  - exfalso. apply (f_equal String.length) in H. simpl in H.
    rewrite string_length_app in H. lia.
  - exfalso. apply (f_equal String.length) in H. simpl in H.
    rewrite string_length_app in H. lia.
  - injection H as -> H. f_equal. by apply IH.
Qed.

(** Two ways to split a string: one of the suffixes ends in the other. *)
Lemma string_app_split (u1 s1 u2 s2 : string) :
  u1 +:+ s1 = u2 +:+ s2 →
  (String.length s1 ≤ String.length s2)%nat → ∃ w, u1 = u2 +:+ w ∧ s2 = w +:+ s1.
Proof.
  revert u2. induction u1 as [|x u1 IH]; intros [|y u2]; simpl; intros H Hlen.
  - exists "". done.
  - exfalso. apply (f_equal String.length) in H. simpl in H.
    rewrite string_length_app in H. lia.
  - exists (String x u1). done.
  - injection H as -> H. destruct (IH u2 H Hlen) as (w & -> & ->). by exists w.
Qed.

(** [strings.CutPrefix] and [strings.CutSuffix]: the rest of the string, when
    the prefix or suffix is there. *)
Fixpoint cut_prefix (p s : string) : option string :=
  match p, s with
  | EmptyString, _ => Some s
  | String a p', String b s' => if Ascii.eqb a b then cut_prefix p' s' else None
  | String _ _, EmptyString => None
  end.

Fixpoint cut_suffix (suffix s : string) : option string :=
  if String.eqb s suffix then Some "" else
  match s with
  | EmptyString => None
  | String a s' => String a <$> cut_suffix suffix s'
  end.

Definition has_prefix (p s : string) : bool := bool_decide (is_Some (cut_prefix p s)).
Definition has_suffix (suffix s : string) : bool := bool_decide (is_Some (cut_suffix suffix s)).

(** [strings.TrimPrefix] and [strings.TrimSuffix]. *)
Definition trim_prefix (p s : string) : string := default s (cut_prefix p s).
Definition trim_suffix (suffix s : string) : string := default s (cut_suffix suffix s).

Lemma cut_prefix_spec p s u : cut_prefix p s = Some u ↔ s = p +:+ u.
Proof.
  revert s. induction p as [|a p IH]; intros s; simpl; [naive_solver|].
  destruct s as [|b s]; [done|]. destruct (Ascii.eqb_spec a b) as [->|Hne].
  - rewrite IH. split; [by intros ->|by intros [= ->]].
  - split; [done|]. intros [= ? ?]. congruence.
Qed.

Lemma cut_suffix_spec suffix s u : cut_suffix suffix s = Some u ↔ s = u +:+ suffix.
Proof.
  revert u. induction s as [|a s IH]; intros u; cbn [cut_suffix].
  - destruct (String.eqb_spec "" suffix) as [<-|Hne].
    + rewrite string_app_nil_r. split; [by intros [= <-]|by intros <-].
    + split; [done|]. destruct u; [done|]. by intros [=].
  - destruct (String.eqb_spec (String a s) suffix) as [<-|Hne].
    + split; [by intros [= <-]|]. intros H. f_equal.
      by apply (string_app_inj_l "" u (String a s)).
    + rewrite fmap_Some. split.
      * intros (v & Hv%IH & ->). by rewrite Hv.
      * destruct u as [|b u]; simpl; [by intros [=]|]. intros [= -> Hs%IH]. eauto.
Qed.

Lemma has_prefix_spec p s : has_prefix p s = true ↔ ∃ u, s = p +:+ u.
Proof.
  unfold has_prefix. rewrite bool_decide_eq_true. unfold is_Some.
  by setoid_rewrite cut_prefix_spec.
Qed.

Lemma has_suffix_spec suffix s : has_suffix suffix s = true ↔ ∃ u, s = u +:+ suffix.
Proof.
  unfold has_suffix. rewrite bool_decide_eq_true. unfold is_Some.
  by setoid_rewrite cut_suffix_spec.
Qed.

(** [strings.ToLower] on ASCII. *)
Definition ascii_lower (a : Ascii.ascii) : Ascii.ascii :=
  let n := Ascii.nat_of_ascii a in
  if (65 <=? n)%nat && (n <=? 90)%nat then Ascii.ascii_of_nat (n + 32) else a.

Fixpoint to_lower (s : string) : string :=
  match s with
  | EmptyString => ""
  | String a s' => String (ascii_lower a) (to_lower s')
  end.

(** [strings.Join]. *)
Definition join (sep : string) (l : list string) : string := String.concat sep l.

(** [fmt]'s %d on an integer and %v on a slice of strings. *)
Definition fmt_d (z : Z) : string := pretty z.
Definition fmt_strings (l : list string) : string := "[" +:+ join " " l +:+ "]".

Definition str_eqb (a b : string) : bool := bool_decide (a = b).

(** Decisions on strings reflect equality. *)
Lemma str_eqb_eq a b : str_eqb a b = true ↔ a = b.
Proof. apply bool_decide_eq_true. Qed.

Lemma str_eqb_neq a b : str_eqb a b = false ↔ a ≠ b.
Proof. apply bool_decide_eq_false. Qed.

Lemma str_eqb_refl a : str_eqb a a = true.
Proof. by apply str_eqb_eq. Qed.

(** Turns every boolean test on strings in the context into an equation. *)
Ltac str_simpl :=
  repeat match goal with
  | H : str_eqb _ _ = true |- _ => apply str_eqb_eq in H
  | H : str_eqb _ _ = false |- _ => apply str_eqb_neq in H
  | H : negb _ = true |- _ => apply negb_true_iff in H
  | H : negb _ = false |- _ => apply negb_false_iff in H
  | H : _ && _ = true |- _ => apply andb_true_iff in H as [? ?]
  | H : _ || _ = false |- _ => apply orb_false_iff in H as [? ?]
  end.

(** A string without a character: the parts of a name joined by it can be read
    back. *)
Fixpoint lacks (c : Ascii.ascii) (s : string) : bool :=
  match s with
  | EmptyString => true
  | String a s' => negb (Ascii.eqb a c) && lacks c s'
  end.

Lemma lacks_cut c a b a' b' :
  lacks c a = true → lacks c a' = true →
  a +:+ String c b = a' +:+ String c b' → a = a' ∧ b = b'.
Proof.
  revert a'. induction a as [|x a IH]; intros [|y a'] Ha Ha' Heq; simpl in *.
  - by injection Heq.
  - injection Heq as -> _. by rewrite Ascii.eqb_refl in Ha'.
  - injection Heq as <- _. by rewrite Ascii.eqb_refl in Ha.
  - apply andb_true_iff in Ha as [_ Ha]. apply andb_true_iff in Ha' as [_ Ha'].
    injection Heq as -> Heq. by destruct (IH a' Ha Ha' Heq) as [-> ->].
Qed.

Lemma lacks_app c a b : lacks c (a +:+ b) = lacks c a && lacks c b.
Proof. induction a as [|x a IH]; simpl; [done|]. by rewrite IH, andb_assoc. Qed.

(** Decimal numerals consist of digits and a sign. *)
Definition numeral_char (c : Ascii.ascii) : bool :=
  existsb (Ascii.eqb c) (String.list_ascii_of_string "-0123456789").

Definition digit_char (c : Ascii.ascii) : bool :=
  existsb (Ascii.eqb c) (String.list_ascii_of_string "0123456789").

Lemma lacks_cons c a s : lacks c (String a s) = true ↔ a ≠ c ∧ lacks c s = true.
Proof. cbn [lacks]. by rewrite andb_true_iff, negb_true_iff, Ascii.eqb_neq. Qed.

Lemma lacks_pretty_N_go c x s :
  digit_char c = false → lacks c s = true → lacks c (pretty_N_go x s) = true.
Proof.
  intros Hc. revert s. induction (N.lt_wf_0 x) as [x _ IH]; intros s Hs.
  destruct (decide (x = 0%N)) as [->|Hx]; [by rewrite pretty_N_go_0|].
  rewrite pretty_N_go_step by lia. apply IH; [apply N.div_lt; lia|].
  apply lacks_cons. split; [|done]. intros <-. revert Hc.
  unfold pretty_N_char. repeat case_match; discriminate.
Qed.

Lemma lacks_pretty c (x : N) : digit_char c = false → lacks c (pretty x) = true.
Proof.
  intros Hc. unfold pretty, pretty_N. case_decide; [|by apply lacks_pretty_N_go].
  apply lacks_cons. split; [|done]. by intros <-.
Qed.

Lemma lacks_fmt_d_nonneg c z : digit_char c = false → (0 ≤ z)%Z → lacks c (fmt_d z) = true.
Proof.
  intros Hc Hz. unfold fmt_d. destruct z as [|p|p]; [exact (lacks_pretty c 0%N Hc)|exact (lacks_pretty c (Npos p) Hc)|lia].
Qed.

Lemma lacks_fmt_d c z : numeral_char c = false → lacks c (fmt_d z) = true.
Proof.
  unfold numeral_char. cbn [String.list_ascii_of_string existsb]. rewrite orb_false_iff, Ascii.eqb_neq. intros [Hd Hc].
  destruct (decide (0 ≤ z)%Z); [by apply lacks_fmt_d_nonneg|]. unfold fmt_d. destruct z as [|p|p]; [lia|lia|].
  change (lacks c (String (Ascii.ascii_of_nat 45) (pretty (Npos p))) = true).
  apply lacks_cons. split; [by intros <-|by apply lacks_pretty].
Qed.

(** Signed 32-bit arithmetic wraps around. *)
Definition wrap32 (z : Z) : Z := ((z + 2 ^ 31) mod 2 ^ 32 - 2 ^ 31)%Z.

Lemma wrap32_id z : (- 2 ^ 31 ≤ z < 2 ^ 31)%Z → wrap32 z = z.
Proof. intros H. unfold wrap32. rewrite Z.mod_small; lia. Qed.

Lemma wrap32_add z n : wrap32 (wrap32 z + n) = wrap32 (z + n).
Proof.
  unfold wrap32. f_equal.
  replace ((z + 2 ^ 31) mod 2 ^ 32 - 2 ^ 31 + n + 2 ^ 31)%Z
    with ((z + 2 ^ 31) mod 2 ^ 32 + n)%Z by lia.
  rewrite Zplus_mod_idemp_l. f_equal. lia.
Qed.

(** ** Lists *)

(** A loop that inserts into a set, element by element. *)
Lemma elem_of_foldl_set {A} (f : gset string → A → gset string) (Q : A → string → Prop) l acc x :
  (∀ acc a, x ∈ f acc a ↔ x ∈ acc ∨ Q a x) →
  x ∈ foldl f acc l ↔ x ∈ acc ∨ ∃ a, a ∈ l ∧ Q a x.
Proof.
  intros Hf. revert acc. induction l as [|a l IH]; intros acc; simpl; [set_solver|].
  rewrite IH, Hf. setoid_rewrite elem_of_cons. naive_solver.
Qed.

Lemma existsb_spec {A} (f : A → bool) l : existsb f l = true ↔ ∃ x, x ∈ l ∧ f x = true.
Proof. rewrite existsb_exists. by setoid_rewrite list_elem_of_In. Qed.

Lemma omap_cons_eq {A B} (f : A → option B) x l :
  omap f (x :: l) = match f x with Some y => y :: omap f l | None => omap f l end.
Proof. done. Qed.

(** The loop that appends what it finds to a slice, skipping what a [seen] map
    says is there already. *)
Definition add_once {A} `{EqDecision A} (acc : list A) (x : A) : list A :=
  if bool_decide (x ∈ acc) then acc else acc ++ [x].

Definition collect_once {A B} `{EqDecision B} (f : A → option B) (l : list A) : list B :=
  foldl (λ acc a, match f a with Some x => add_once acc x | None => acc end) [] l.

Section collect_once.
Context {A B} `{EqDecision B} (f : A → option B).

Lemma elem_of_add_once (acc : list B) x y : y ∈ add_once acc x ↔ y ∈ acc ∨ y = x.
Proof. unfold add_once. case_bool_decide; set_solver. Qed.

Lemma NoDup_add_once (acc : list B) x : NoDup acc → NoDup (add_once acc x).
Proof.
  unfold add_once. case_bool_decide; [done|]. intros Hacc.
  apply NoDup_app. split_and!; [done|set_solver|apply NoDup_singleton].
Qed.

Lemma elem_of_collect_once l y : y ∈ collect_once f l ↔ ∃ a, a ∈ l ∧ f a = Some y.
Proof.
  unfold collect_once.
  assert (∀ acc, y ∈ foldl (λ acc a, match f a with Some x => add_once acc x | None => acc end) acc l
    ↔ y ∈ acc ∨ ∃ a, a ∈ l ∧ f a = Some y) as ->; [|set_solver].
  induction l as [|a l IH]; intros acc; simpl; [set_solver|].
  rewrite IH. setoid_rewrite elem_of_cons.
  destruct (f a) as [x|] eqn:E; rewrite ?elem_of_add_once; naive_solver.
Qed.

Lemma NoDup_collect_once l : NoDup (collect_once f l).
Proof.
  unfold collect_once.
  assert (∀ acc, NoDup acc →
    NoDup (foldl (λ acc a, match f a with Some x => add_once acc x | None => acc end) acc l)) as H.
  { induction l as [|a l IH]; intros acc Hacc; simpl; [done|].
    apply IH. destruct (f a); [by apply NoDup_add_once|done]. }
  apply H. constructor.
Qed.
End collect_once.

(** ** First come, first served *)

(** The elements of a list whose key no earlier element has: what a loop that
    skips the keys in its [seen] map keeps. *)
Section dedup_by.
Context {A K} `{EqDecision K} (key : A → K).

Definition dedup_add (acc : list A) (c : A) : list A :=
  if bool_decide (key c ∈ key <$> acc) then acc else acc ++ [c].

Definition dedup_by (cs : list A) : list A := foldl dedup_add [] cs.

Lemma dedup_fold_elem acc cs c :
  c ∈ foldl dedup_add acc cs ↔
  c ∈ acc ∨ (key c ∉ key <$> acc ∧
    ∃ pre post, cs = pre ++ c :: post ∧ key c ∉ key <$> pre).
Proof.
  revert acc. induction cs as [|d cs IH]; intros acc; simpl.
  { split; [by left|]. intros [?|(_ & pre & post & H & _)]; [done|by destruct pre]. }
  assert ((key c ∉ key <$> acc ∧ ∃ pre post, d :: cs = pre ++ c :: post ∧ key c ∉ key <$> pre)
    ↔ (key c ∉ key <$> acc ∧ (d = c ∨ (key c ≠ key d ∧
        ∃ pre post, cs = pre ++ c :: post ∧ key c ∉ key <$> pre)))) as Hsplit.
  { split.
    - intros (Hn & [|x pre] & post & [= <- ->] & Hp); [by auto|]. split; [done|]. right.
      rewrite fmap_cons, not_elem_of_cons in Hp. destruct Hp. split; [done|]. eauto.
    - intros (Hn & [->|(Hne & pre & post & -> & Hp)]); (split; [done|]).
      + exists [], cs. split; [done|]. apply not_elem_of_nil.
      + exists (d :: pre), post. split; [done|]. by rewrite fmap_cons, not_elem_of_cons. }
  rewrite Hsplit, IH. clear Hsplit IH. unfold dedup_add.
  case_bool_decide as Hd.
  - split.
    + intros [?|(Hn & Hex)]; [by auto|]. right. split; [done|]. right. split; [|done].
      intros He. by rewrite He in Hn.
    + intros [?|(Hn & [->|(_ & Hex)])]; [by auto|done|by auto].
  - rewrite fmap_app, elem_of_app, not_elem_of_app, list_elem_of_singleton. simpl.
    rewrite not_elem_of_cons. split.
    + intros [[?| ->]|((Hn & Hne & _) & Hex)]; auto.
    + intros [?|(Hn & [->|(Hne & Hex)])]; [by auto|by auto|].
      right. split; [|done]. split_and!; [done|done|apply not_elem_of_nil].
Qed.

Lemma elem_of_dedup_by cs c :
  c ∈ dedup_by cs ↔ ∃ pre post, cs = pre ++ c :: post ∧ key c ∉ key <$> pre.
Proof.
  unfold dedup_by. rewrite dedup_fold_elem. split.
  - intros [H|[_ ?]]; [by apply not_elem_of_nil in H|done].
  - intros H. right. split; [apply not_elem_of_nil|done].
Qed.

Lemma NoDup_dedup_by cs : NoDup (key <$> dedup_by cs).
Proof.
  unfold dedup_by.
  assert (∀ acc, NoDup (key <$> acc) → NoDup (key <$> foldl dedup_add acc cs)) as H;
    [|by apply H; constructor].
  induction cs as [|c cs IH]; intros acc Hacc; simpl; [done|]. apply IH.
  unfold dedup_add. case_bool_decide; [done|]. rewrite fmap_app. apply NoDup_app.
  split_and!; [done|set_solver|apply NoDup_singleton].
Qed.

Lemma dedup_by_keys cs c : c ∈ cs → ∃ d, d ∈ dedup_by cs ∧ key d = key c.
Proof.
  intros Hc. induction cs as [|d cs IH] using rev_ind; [by apply not_elem_of_nil in Hc|].
  unfold dedup_by. rewrite foldl_snoc. fold (dedup_by cs). unfold dedup_add.
  apply elem_of_app in Hc as [Hc|Hc%list_elem_of_singleton].
  - destruct (IH Hc) as (e & He & Heq). exists e. split; [|done].
    case_bool_decide; [done|]. apply elem_of_app. by left.
  - subst d. case_bool_decide as Hin.
    + apply list_elem_of_fmap_1 in Hin as (e & Heq & He). eauto.
    + exists c. split; [|done]. apply elem_of_app. right. by apply list_elem_of_singleton.
Qed.
Lemma dedup_fold_sublist acc cs :
  ∃ l, foldl dedup_add acc cs = acc ++ l ∧ sublist l cs.
Proof.
  revert acc. induction cs as [|c cs IH]; intros acc; simpl.
  { exists []. rewrite app_nil_r. split; [done|constructor]. }
  destruct (IH (dedup_add acc c)) as (l & -> & Hl). unfold dedup_add.
  case_bool_decide.
  - exists l. split; [done|by constructor].
  - exists (c :: l). rewrite <- app_assoc. split; [done|by constructor].
Qed.

Lemma dedup_by_sublist cs : sublist (dedup_by cs) cs.
Proof. by destruct (dedup_fold_sublist [] cs) as (l & ? & ?); simplify_eq/=. Qed.
End dedup_by.

Lemma sublist_StronglySorted {A} (R : A → A → Prop) l1 l2 :
  sublist l1 l2 → StronglySorted R l2 → StronglySorted R l1.
Proof.
  induction 1 as [|x l1 l2 Hl IH|x l1 l2 Hl IH]; inversion 1; subst; [constructor| |auto].
  constructor; [auto|]. rewrite Forall_forall in *. intros y Hy.
  match goal with H : ∀ _, _ |- _ => apply H end. by eapply elem_of_sublist.
Qed.

Lemma omap_sorted {A B} (f : A → option B) (R : A → A → Prop) (S : B → B → Prop) l :
  (∀ a a' b b', R a a' → f a = Some b → f a' = Some b' → S b b') →
  StronglySorted R l → StronglySorted S (omap f l).
Proof.
  intros HRS. induction 1 as [|a l Hl IH Ha]; [constructor|].
  rewrite omap_cons_eq. destruct (f a) as [b|] eqn:E; [|done]. constructor; [done|].
  apply Forall_forall. intros b' (a' & Ha' & Hb')%list_elem_of_omap.
  rewrite Forall_forall in Ha. eauto.
Qed.

Lemma StronglySorted_app_intro {A} (R : A → A → Prop) l1 l2 :
  StronglySorted R l1 → StronglySorted R l2 → (∀ x y, x ∈ l1 → y ∈ l2 → R x y) →
  StronglySorted R (l1 ++ l2).
Proof.
  intros H1 H2 H. induction H1 as [|a l1 Hl IH Ha]; simpl; [done|]. constructor.
  - apply IH. intros x y Hx. apply H. by right.
  - apply Forall_app. split; [done|]. apply Forall_forall. intros y Hy. apply H; [left|done].
Qed.

Lemma StronglySorted_split {A} (R : A → A → Prop) pre x post :
  StronglySorted R (pre ++ x :: post) → Forall (R x) post.
Proof.
  induction pre as [|y pre IH]; simpl; inversion 1; subst; auto.
Qed.

Lemma StronglySorted_lookup {A} (R : A → A → Prop) l i j x y :
  StronglySorted R l → l !! i = Some x → l !! j = Some y → i < j → R x y.
Proof.
  intros Hl. revert i j. induction Hl as [|a l Hl IH Ha]; intros i j Hi Hj Hij; [done|].
  destruct i as [|i], j as [|j]; [lia| |lia|]; simpl in *.
  - simplify_eq. rewrite Forall_forall in Ha. apply Ha. by eapply list_elem_of_lookup_2.
  - apply (IH i j); [done..|lia].
Qed.

(** The keys of a map, sorted: [slices.Sorted(maps.Keys(m))]. *)
Definition sortedKeys {A} (m : gmap string A) : list string :=
  sort_by String.compare (map_to_list m).*1.

Lemma elem_of_sortedKeys {A} (m : gmap string A) h : h ∈ sortedKeys m ↔ is_Some (m !! h).
Proof.
  unfold sortedKeys. rewrite elem_of_sort_by, list_elem_of_fmap. split.
  - intros ([h' a] & -> & Hin). apply elem_of_map_to_list in Hin. by eexists.
  - intros [a Ha]. exists (h, a). split; [done|]. by apply elem_of_map_to_list.
Qed.

Lemma NoDup_sortedKeys {A} (m : gmap string A) : NoDup (sortedKeys m).
Proof. apply NoDup_sort_by, NoDup_fst_map_to_list. Qed.
