(* ===== verification/GatewayAPI.v ===== *)
(** * Data shapes of the Kubernetes and Gateway API objects

    The operator reads and writes objects whose Go types are declared by
    Kubernetes and by Gateway API. Each record here keeps the fields the
    operator's code reads or writes, under the names the Go types give them. An
    optional (pointer) field is an [option]; a port or weight is a [Z] that the
    API server keeps within 32 bits; a time is a [Z] in nanoseconds. Nothing in
    this file is computed: it holds no code of the operator. *)
From S2P Require Import Prelude.

(** ** metav1 and types *)

Inductive ConditionStatus := ConditionTrue | ConditionFalse | ConditionUnknown.

Record Condition := {
  c_Type : string;
  c_Status : ConditionStatus;
  c_Reason : string;
  c_Message : string;
  c_ObservedGeneration : Z;
  c_LastTransitionTime : Z;
}.

(** A condition literal that sets only the first four fields. *)
Definition mkCondition (t : string) (s : ConditionStatus) (r m : string) : Condition :=
  {| c_Type := t; c_Status := s; c_Reason := r; c_Message := m;
     c_ObservedGeneration := 0; c_LastTransitionTime := 0 |}.

Record NamespacedName := { nn_Namespace : string; nn_Name : string }.

(** [types.NamespacedName.String]. *)
Definition nn_string (k : NamespacedName) : string := nn_Namespace k +:+ "/" +:+ nn_Name k.

#[export] Instance ConditionStatus_eq_dec : EqDecision ConditionStatus.
Proof. solve_decision. Defined.
#[export] Instance Condition_eq_dec : EqDecision Condition.
Proof. solve_decision. Defined.
#[export] Instance NamespacedName_eq_dec : EqDecision NamespacedName.
Proof. solve_decision. Defined.
#[export] Instance NamespacedName_countable : Countable NamespacedName.
Proof.
  refine (inj_countable' (λ k, (nn_Namespace k, nn_Name k))
    (λ p, {| nn_Namespace := p.1; nn_Name := p.2 |}) _).
  by intros [].
Defined.

(** The parts of [metav1.OwnerReference] and [metav1.ObjectMeta] in use. *)
Record OwnerReference := {
  or_Kind : string;
  or_Name : string;
  or_UID : string;
  or_Controller : bool;
}.

Record ObjectMeta := {
  om_Name : string;
  om_Namespace : string;
  om_UID : string;
  om_ResourceVersion : string;
  om_Generation : Z;
  om_CreationTimestamp : Z;
  om_DeletionTimestamp : option Z;
  om_Labels : gmap string string;
  om_Annotations : gmap string string;
  om_OwnerReferences : list OwnerReference;
  om_Finalizers : list string;
}.

(** [metav1.LabelSelector] and one of its requirements. *)
Record LabelSelectorRequirement := {
  lsr_Key : string;
  lsr_Operator : string;
  lsr_Values : list string;
}.

Record LabelSelector := {
  ls_MatchLabels : gmap string string;
  ls_MatchExpressions : list LabelSelectorRequirement;
}.

(** ** corev1 and discoveryv1 *)

Record ServicePort := {
  sp_Name : string;
  sp_Protocol : string;
  sp_Port : Z;
  sp_TargetPort : Z;
  sp_NodePort : Z;
  sp_AppProtocol : option string;
}.

Record LoadBalancerIngress := { lbi_IP : string; lbi_Hostname : string }.

Record Service := {
  svc_ObjectMeta : ObjectMeta;
  svc_Type : string;
  svc_ClusterIPs : list string;
  svc_Selector : gmap string string;
  svc_Ports : list ServicePort;
  svc_LoadBalancer : list LoadBalancerIngress;
}.

Record Secret := {
  sec_ObjectMeta : ObjectMeta;
  sec_Type : string;
  sec_Data : gmap string string;
}.

(** A key of a Secret or ConfigMap: [SecretKeySelector] and
    [ConfigMapKeySelector] have the same fields. *)
Record KeySelector := { ks_Name : string; ks_Key : string; ks_Optional : option bool }.

(** [corev1.Container] and [corev1.PodTemplateSpec], the parts in use. *)
Record ContainerPortSpec := { cp_Name : string; cp_ContainerPort : Z; cp_Protocol : string }.

Record EnvVar := { env_Name : string; env_Value : string }.

(** [corev1.ResourceRequirements], amounts by resource name. *)
Record ResourceRequirements := {
  res_Limits : gmap string string;
  res_Requests : gmap string string;
}.

(** A probe of a container with an HTTP request. *)
Record Probe := {
  pb_Path : string;
  pb_Port : Z;
  pb_Scheme : string;
  pb_InitialDelaySeconds : Z;
  pb_PeriodSeconds : Z;
  pb_FailureThreshold : Z;
}.

Record SecurityContext := {
  sc_RunAsNonRoot : option bool;
  sc_RunAsUser : option Z;
  sc_AllowPrivilegeEscalation : option bool;
  sc_ReadOnlyRootFilesystem : option bool;
  sc_CapabilitiesDrop : list string;
}.

Record PodSecurityContext := {
  psc_RunAsNonRoot : option bool;
  psc_RunAsUser : option Z;
  psc_SeccompProfile : option string;
  psc_Sysctls : list (string * string);
}.

Record VolumeMount := { vm_Name : string; vm_MountPath : string }.
Record KeyToPath := { kp_Key : string; kp_Path : string }.

(** Sources of a volume; one the operator does not make keeps its description. *)
Inductive VolumeSource :=
  | SecretVolumeSource (secretName : string) (items : list KeyToPath)
  | ConfigMapVolumeSource (name : string) (items : list KeyToPath)
  | OtherVolumeSource (description : string).

Record Volume := { vol_Name : string; vol_Source : VolumeSource }.

Record Container := {
  ct_Name : string;
  ct_Image : string;
  ct_Command : list string;
  ct_Args : list string;
  ct_Env : list EnvVar;
  ct_Ports : list ContainerPortSpec;
  ct_VolumeMounts : list VolumeMount;
  ct_LivenessProbe : option Probe;
  ct_ReadinessProbe : option Probe;
  ct_Resources : ResourceRequirements;
  ct_SecurityContext : option SecurityContext;
  ct_ImagePullPolicy : string;
}.

Record PodSpec := {
  ps_AutomountServiceAccountToken : option bool;
  ps_SecurityContext : option PodSecurityContext;
  ps_Volumes : list Volume;
  ps_Containers : list Container;
}.

Record PodTemplateSpec := {
  pt_Labels : gmap string string;
  pt_Annotations : gmap string string;
  pt_Spec : PodSpec;
}.

Definition noResources : ResourceRequirements := {| res_Limits := ∅; res_Requests := ∅ |}.

Definition emptyPodTemplate : PodTemplateSpec :=
  {| pt_Labels := ∅; pt_Annotations := ∅;
     pt_Spec := {| ps_AutomountServiceAccountToken := None; ps_SecurityContext := None;
                   ps_Volumes := []; ps_Containers := [] |} |}.

(** ** appsv1 *)

Record Deployment := {
  dep_ObjectMeta : ObjectMeta;
  dep_Replicas : option Z;
  dep_Selector : option LabelSelector;
  dep_Template : PodTemplateSpec;
  dep_AvailableReplicas : Z;
}.

Record DaemonSet := {
  dms_ObjectMeta : ObjectMeta;
  dms_Selector : option LabelSelector;
  dms_Template : PodTemplateSpec;
}.

Record EndpointPort := { ep_Name : option string; ep_Port : option Z }.
Record Endpoint := { e_Addresses : list string; e_Ready : option bool }.

Record EndpointSlice := {
  es_AddressType : string;
  es_Ports : list EndpointPort;
  es_Endpoints : list Endpoint;
}.

(** ** gatewayv1: Gateways *)

Definition GatewayGroupName := "gateway.networking.k8s.io".
Definition CoreGroupName := "".

Record RouteGroupKind := { rgk_Group : option string; rgk_Kind : string }.

Record SecretObjectReference := {
  sor_Group : option string;
  sor_Kind : option string;
  sor_Name : string;
  sor_Namespace : option string;
}.

Record ListenerTLSConfig := {
  tls_Mode : option string;
  tls_CertificateRefs : list SecretObjectReference;
}.

Record RouteNamespaces := {
  rn_From : option string;
  rn_Selector : option LabelSelector;
}.

Record AllowedRoutes := {
  ar_Namespaces : option RouteNamespaces;
  ar_Kinds : list RouteGroupKind;
}.

(** [gatewayv1.Listener]; the operator's own [Listener] embeds it. *)
Record ListenerSpec := {
  ls_Name : string;
  ls_Hostname : option string;
  ls_Port : Z;
  ls_Protocol : string;
  ls_TLS : option ListenerTLSConfig;
  ls_AllowedRoutes : option AllowedRoutes;
}.

Record ListenerStatus := {
  lst_Name : string;
  lst_SupportedKinds : list RouteGroupKind;
  lst_AttachedRoutes : Z;
  lst_Conditions : list Condition;
}.

Record GatewayAddress := { ga_Type : string; ga_Value : string }.

Record GatewayInfrastructure := {
  gi_Labels : gmap string string;
  gi_Annotations : gmap string string;
}.

Record Gateway := {
  gw_ObjectMeta : ObjectMeta;
  gw_GatewayClassName : string;
  gw_Listeners : list ListenerSpec;
  gw_Addresses : list GatewayAddress;
  gw_Infrastructure : option GatewayInfrastructure;
  gw_StatusAddresses : list GatewayAddress;
  gw_StatusConditions : list Condition;
  gw_StatusListeners : list ListenerStatus;
}.

Definition gw_Name (gw : Gateway) : string := om_Name (gw_ObjectMeta gw).
Definition gw_Namespace (gw : Gateway) : string := om_Namespace (gw_ObjectMeta gw).
Definition gw_key (gw : Gateway) : NamespacedName :=
  {| nn_Namespace := gw_Namespace gw; nn_Name := gw_Name gw |}.

(** [gatewayv1.GatewayClass], and the parameters reference in its spec. *)
Record ParametersReference := {
  pr_Group : string;
  pr_Kind : string;
  pr_Name : string;
  pr_Namespace : option string;
}.

Record GatewayClass := {
  gc_ObjectMeta : ObjectMeta;
  gc_ControllerName : string;
  gc_ParametersRef : option ParametersReference;
  gc_StatusConditions : list Condition;
}.

(** ** gatewayv1: routes *)

Record ParentReference := {
  pref_Group : option string;
  pref_Kind : option string;
  pref_Namespace : option string;
  pref_Name : string;
  pref_SectionName : option string;
  pref_Port : option Z;
}.

Record BackendRef := {
  br_Group : option string;
  br_Kind : option string;
  br_Name : string;
  br_Namespace : option string;
  br_Port : option Z;
  br_Weight : option Z;
}.

Record HTTPPathMatch := { pm_Type : option string; pm_Value : option string }.
Record HTTPHeaderMatch := { hm_Type : option string; hm_Name : string; hm_Value : string }.
Record HTTPQueryParamMatch := { qm_Type : option string; qm_Name : string; qm_Value : string }.

Record HTTPRouteMatch := {
  m_Path : option HTTPPathMatch;
  m_Headers : list HTTPHeaderMatch;
  m_QueryParams : list HTTPQueryParamMatch;
  m_Method : option string;
}.

(** The match that matches every request, [gatewayv1.HTTPRouteMatch{}]. *)
Definition emptyMatch : HTTPRouteMatch :=
  {| m_Path := None; m_Headers := []; m_QueryParams := []; m_Method := None |}.

Record HTTPHeader := { hh_Name : string; hh_Value : string }.
Record HTTPHeaderFilter := {
  hf_Set : list HTTPHeader;
  hf_Add : list HTTPHeader;
  hf_Remove : list string;
}.

Record HTTPPathModifier := {
  hpm_Type : string;
  hpm_ReplaceFullPath : option string;
  hpm_ReplacePrefixMatch : option string;
}.

Record HTTPRequestRedirectFilter := {
  rf_Scheme : option string;
  rf_Hostname : option string;
  rf_Path : option HTTPPathModifier;
  rf_Port : option Z;
  rf_StatusCode : option Z;
}.

Record HTTPURLRewriteFilter := {
  uf_Hostname : option string;
  uf_Path : option HTTPPathModifier;
}.

Record LocalObjectReference := { lor_Group : string; lor_Kind : string; lor_Name : string }.

Record HTTPRouteFilter := {
  f_Type : string;
  f_RequestHeaderModifier : option HTTPHeaderFilter;
  f_ResponseHeaderModifier : option HTTPHeaderFilter;
  f_RequestMirror : option BackendRef;
  f_RequestRedirect : option HTTPRequestRedirectFilter;
  f_URLRewrite : option HTTPURLRewriteFilter;
  f_ExtensionRef : option LocalObjectReference;
}.

(** A backend of an HTTP rule, which may carry filters of its own. *)
Record HTTPBackendRef := {
  hbr_BackendRef : BackendRef;
  hbr_Filters : list HTTPRouteFilter;
}.

Record HTTPRouteRule := {
  hr_Matches : list HTTPRouteMatch;
  hr_Filters : list HTTPRouteFilter;
  hr_BackendRefs : list HTTPBackendRef;
}.

Record HTTPRoute := {
  http_ObjectMeta : ObjectMeta;
  http_ParentRefs : list ParentReference;
  http_Hostnames : list string;
  http_Rules : list HTTPRouteRule;
}.

Record GRPCMethodMatch := {
  gm_Type : option string;
  gm_Service : option string;
  gm_Method : option string;
}.

Record GRPCHeaderMatch := { gh_Type : option string; gh_Name : string; gh_Value : string }.
Record GRPCRouteMatch := { grm_Method : option GRPCMethodMatch; grm_Headers : list GRPCHeaderMatch }.

Record GRPCRouteFilter := {
  gf_Type : string;
  gf_RequestHeaderModifier : option HTTPHeaderFilter;
  gf_ResponseHeaderModifier : option HTTPHeaderFilter;
  gf_RequestMirror : option BackendRef;
  gf_ExtensionRef : option LocalObjectReference;
}.

Record GRPCBackendRef := {
  gbr_BackendRef : BackendRef;
  gbr_Filters : list GRPCRouteFilter;
}.

Record GRPCRouteRule := {
  gr_Matches : list GRPCRouteMatch;
  gr_Filters : list GRPCRouteFilter;
  gr_BackendRefs : list GRPCBackendRef;
}.

Record GRPCRoute := {
  grpc_ObjectMeta : ObjectMeta;
  grpc_ParentRefs : list ParentReference;
  grpc_Hostnames : list string;
  grpc_Rules : list GRPCRouteRule;
}.

(** TLSRoute, TCPRoute and UDPRoute differ only in hostnames, which the last
    two lack; a rule of any of them is its backends. *)
Record TLSRoute := {
  tlsr_ObjectMeta : ObjectMeta;
  tlsr_ParentRefs : list ParentReference;
  tlsr_Hostnames : list string;
  tlsr_Rules : list (list BackendRef);
}.

Record TCPRoute := {
  tcpr_ObjectMeta : ObjectMeta;
  tcpr_ParentRefs : list ParentReference;
  tcpr_Rules : list (list BackendRef);
}.

Record UDPRoute := {
  udpr_ObjectMeta : ObjectMeta;
  udpr_ParentRefs : list ParentReference;
  udpr_Rules : list (list BackendRef);
}.

#[export] Instance RouteGroupKind_eq_dec : EqDecision RouteGroupKind.
Proof. solve_decision. Defined.
#[export] Instance ParentReference_eq_dec : EqDecision ParentReference.
Proof. solve_decision. Defined.

(** ** gatewayv1beta1: ReferenceGrants *)

Record ReferenceGrantFrom := { rgf_Group : string; rgf_Kind : string; rgf_Namespace : string }.
Record ReferenceGrantTo := { rgt_Group : string; rgt_Kind : string; rgt_Name : option string }.

Record ReferenceGrant := {
  rg_Namespace : string;
  rg_From : list ReferenceGrantFrom;
  rg_To : list ReferenceGrantTo;
}.
