(* ===== verification/Samples.v ===== *)
(** * Sample objects

    Small concrete objects the witnesses of the theorems evaluate the
    definitions on: a Gateway with named listeners, a Service with ports, routes
    and backends. *)
From S2P Require Import Prelude GatewayAPI.

Definition sampleMeta (ns name : string) : ObjectMeta :=
  {| om_Name := name; om_Namespace := ns; om_UID := "uid-" +:+ ns +:+ "-" +:+ name;
     om_ResourceVersion := "1"; om_Generation := 1; om_CreationTimestamp := 0;
     om_DeletionTimestamp := None; om_Labels := ∅; om_Annotations := ∅;
     om_OwnerReferences := []; om_Finalizers := [] |}.

Definition sampleListener (name protocol : string) (port : Z) (host : option string) : ListenerSpec :=
  {| ls_Name := name; ls_Hostname := host; ls_Port := port; ls_Protocol := protocol;
     ls_TLS := None; ls_AllowedRoutes := None |}.

Definition sampleTLSListener (name protocol : string) (port : Z) (secret : string) : ListenerSpec :=
  {| ls_Name := name; ls_Hostname := None; ls_Port := port; ls_Protocol := protocol;
     ls_TLS := Some {| tls_Mode := None;
       tls_CertificateRefs := [{| sor_Group := None; sor_Kind := None; sor_Name := secret;
                                  sor_Namespace := None |}] |};
     ls_AllowedRoutes := None |}.

Definition sampleGateway (ns name : string) (ls : list ListenerSpec) : Gateway :=
  {| gw_ObjectMeta := sampleMeta ns name; gw_GatewayClassName := "cloudflare"; gw_Listeners := ls;
     gw_Addresses := []; gw_Infrastructure := None; gw_StatusAddresses := [];
     gw_StatusConditions := []; gw_StatusListeners := [] |}.

Definition sampleParent (gateway : string) : ParentReference :=
  {| pref_Group := None; pref_Kind := None; pref_Namespace := None; pref_Name := gateway;
     pref_SectionName := None; pref_Port := None |}.

Definition sampleServicePort (name protocol : string) (port target : Z) : ServicePort :=
  {| sp_Name := name; sp_Protocol := protocol; sp_Port := port; sp_TargetPort := target;
     sp_NodePort := 0; sp_AppProtocol := None |}.

Definition sampleService (ns name : string) (ports : list ServicePort) : Service :=
  {| svc_ObjectMeta := sampleMeta ns name; svc_Type := "ClusterIP"; svc_ClusterIPs := ["10.0.0.1"];
     svc_Selector := ∅; svc_Ports := ports; svc_LoadBalancer := [] |}.

Definition sampleBackendRef (name : string) (port : Z) : BackendRef :=
  {| br_Group := None; br_Kind := None; br_Name := name; br_Namespace := None;
     br_Port := Some port; br_Weight := None |}.

Definition sampleTLSSecret (ns name : string) : Secret :=
  {| sec_ObjectMeta := sampleMeta ns name; sec_Type := "kubernetes.io/tls";
     sec_Data := <["tls.crt" := "certificate"]> (<["tls.key" := "key"]> ∅) |}.
