(* ===== verification/Refs.v ===== *)
(** * References between objects (internal/gateway/refs.go)

    The objects a Gateway's configuration depends on, the defaults the API
    gives the optional parts of a reference, and the policy that decides which
    references across namespaces a ReferenceGrant permits. *)
From S2P Require Import Prelude GatewayAPI.

(** A kind of object in a reference. *)
Record GroupKind := { gk_Group : string; gk_Kind : string }.

#[export] Instance GroupKind_eq_dec : EqDecision GroupKind.
Proof. solve_decision. Defined.

Definition KindHTTPRoute := "HTTPRoute".
Definition KindGRPCRoute := "GRPCRoute".
Definition KindTLSRoute := "TLSRoute".
Definition KindTCPRoute := "TCPRoute".
Definition KindUDPRoute := "UDPRoute".

Definition GatewayKind := {| gk_Group := GatewayGroupName; gk_Kind := "Gateway" |}.
Definition HTTPRouteKind := {| gk_Group := GatewayGroupName; gk_Kind := KindHTTPRoute |}.
Definition GRPCRouteKind := {| gk_Group := GatewayGroupName; gk_Kind := KindGRPCRoute |}.
Definition TLSRouteKind := {| gk_Group := GatewayGroupName; gk_Kind := KindTLSRoute |}.
Definition TCPRouteKind := {| gk_Group := GatewayGroupName; gk_Kind := KindTCPRoute |}.
Definition UDPRouteKind := {| gk_Group := GatewayGroupName; gk_Kind := KindUDPRoute |}.
Definition SecretKind := {| gk_Group := CoreGroupName; gk_Kind := "Secret" |}.
Definition ServiceKind := {| gk_Group := CoreGroupName; gk_Kind := "Service" |}.

(** The objects other than routes a Gateway's configuration depends on. *)
Record References := {
  Namespaces : gmap string (gmap string string);
  Grants : list ReferenceGrant;
  Services : gmap NamespacedName Service;
  Endpoints : gmap NamespacedName (list EndpointSlice);
  Secrets : gmap NamespacedName Secret;
  Unreadable : gmap NamespacedName string;
  WarpRouting : bool;
}.

(** [&References{}]. *)
Definition noReferences : References :=
  {| Namespaces := ∅; Grants := []; Services := ∅; Endpoints := ∅;
     Secrets := ∅; Unreadable := ∅; WarpRouting := false |}.

(** The optional parts of a reference. *)
Definition group (g : option string) (def : string) : string := default def g.
Definition kind (k : option string) (def : string) : string := default def k.
Definition namespace (ns : option string) (def : string) : string :=
  match ns with
  | Some n => if str_eqb n "" then def else n
  | None => def
  end.

(** One [From] and one [To] entry of a grant. *)
Definition fromMatches (from : GroupKind) (fromNamespace : string) (f : ReferenceGrantFrom) : bool :=
  str_eqb (rgf_Group f) (gk_Group from) && str_eqb (rgf_Kind f) (gk_Kind from)
  && str_eqb (rgf_Namespace f) fromNamespace.

Definition toMatches (to : GroupKind) (name : string) (t : ReferenceGrantTo) : bool :=
  if negb (str_eqb (rgt_Group t) (gk_Group to)) || negb (str_eqb (rgt_Kind t) (gk_Kind to))
  then false
  else match rgt_Name t with None => true | Some n => str_eqb n name end.

(** [References.Permitted], with its early returns as [existsb]: the loop over
    the grants returns true at the first that permits the reference. *)
Definition Permitted (r : References) (from : GroupKind) (fromNamespace : string)
    (to : GroupKind) (toNamespace name : string) : bool :=
  if str_eqb fromNamespace toNamespace then true
  else existsb (λ grant,
    if negb (str_eqb (rg_Namespace grant) toNamespace) then false
    else if negb (existsb (fromMatches from fromNamespace) (rg_From grant)) then false
    else existsb (toMatches to name) (rg_To grant)) (Grants r).

(** The Secret a certificateRef names, when its kind is Secret. *)
Definition refersToSecret (ref : SecretObjectReference) : bool :=
  str_eqb (group (sor_Group ref) CoreGroupName) (gk_Group SecretKind)
  && str_eqb (kind (sor_Kind ref) (gk_Kind SecretKind)) (gk_Kind SecretKind).

(** [CertificateNamespaces]. *)
Definition certificateRefNamespaces (gw : Gateway) (refs : References)
    (certRefs : list SecretObjectReference) (namespaces : gset string) : gset string :=
  foldl (λ namespaces ref,
    if negb (refersToSecret ref) then namespaces
    else
      let ns := namespace (sor_Namespace ref) (gw_Namespace gw) in
      if Permitted refs GatewayKind (gw_Namespace gw) SecretKind ns (sor_Name ref)
      then {[ns]} ∪ namespaces else namespaces) namespaces certRefs.

Definition CertificateNamespaces (gw : Gateway) (refs : References) : gset string :=
  foldl (λ namespaces l,
    match ls_TLS l with
    | None => namespaces
    | Some tls => certificateRefNamespaces gw refs (tls_CertificateRefs tls) namespaces
    end) ∅ (gw_Listeners gw).

(** [References.namespaceLabels]: a namespace that is not known has no labels. *)
Definition namespaceLabels (r : References) (name : string) : gmap string string :=
  default ∅ (Namespaces r !! name).

(** ** Properties *)

(** What Gateway API calls a permitted reference: one within a namespace, or
    one a grant in the target namespace lists both ends of. *)
Definition granted (grants : list ReferenceGrant) (from : GroupKind) (fromNamespace : string)
    (to : GroupKind) (toNamespace name : string) : Prop :=
  ∃ grant f t, grant ∈ grants ∧ rg_Namespace grant = toNamespace ∧
    f ∈ rg_From grant ∧ t ∈ rg_To grant ∧
    f = {| rgf_Group := gk_Group from; rgf_Kind := gk_Kind from; rgf_Namespace := fromNamespace |} ∧
    rgt_Group t = gk_Group to ∧ rgt_Kind t = gk_Kind to ∧
    (rgt_Name t = None ∨ rgt_Name t = Some name).

Lemma fromMatches_spec from ns f :
  fromMatches from ns f = true ↔
  f = {| rgf_Group := gk_Group from; rgf_Kind := gk_Kind from; rgf_Namespace := ns |}.
Proof.
  unfold fromMatches. rewrite !andb_true_iff, !str_eqb_eq. destruct f; simpl. naive_solver.
Qed.

Lemma toMatches_spec to name t :
  toMatches to name t = true ↔
  rgt_Group t = gk_Group to ∧ rgt_Kind t = gk_Kind to ∧
  (rgt_Name t = None ∨ rgt_Name t = Some name).
Proof.
  unfold toMatches. destruct (negb _ || negb _) eqn:E.
  - apply orb_true_iff in E. rewrite !negb_true_iff, !str_eqb_neq in E. naive_solver.
  - apply orb_false_iff in E as [E1 E2].
    apply negb_false_iff, str_eqb_eq in E1. apply negb_false_iff, str_eqb_eq in E2.
    destruct (rgt_Name t); rewrite ?str_eqb_eq; naive_solver.
Qed.

Lemma Permitted_iff r from fromNs to toNs name :
  Permitted r from fromNs to toNs name = true ↔
  fromNs = toNs ∨ granted (Grants r) from fromNs to toNs name.
Proof.
  unfold Permitted, granted. destruct (str_eqb fromNs toNs) eqn:E; str_simpl; [naive_solver|].
  rewrite existsb_spec. split.
  - intros (g & Hg & H). destruct (str_eqb (rg_Namespace g) toNs) eqn:Ens; simpl in H; [|done].
    destruct (existsb (fromMatches from fromNs) (rg_From g)) eqn:Ef; simpl in H; [|done].
    apply existsb_spec in Ef as (f & Hf & Hf'%fromMatches_spec).
    apply existsb_spec in H as (t & Ht & Ht'%toMatches_spec). str_simpl.
    right. exists g, f, t. naive_solver.
  - intros [?|(g & f & t & Hg & <- & Hf & Ht & Hf' & Ht')]; [done|].
    exists g. split; [done|]. rewrite str_eqb_refl. simpl.
    assert (existsb (fromMatches from fromNs) (rg_From g) = true) as ->.
    { apply existsb_spec. exists f. by rewrite fromMatches_spec. }
    simpl. apply existsb_spec. exists t. by rewrite toMatches_spec.
Qed.

(** A reference is permitted exactly when it stays within one namespace or
    some ReferenceGrant in the target namespace names the referring kind and
    namespace among its From entries and the target kind, and the target's name
    unless it leaves the name out, among its To entries. *)
Theorem Permitted_spec r from fromNs to toNs name :
  Permitted r from fromNs to toNs name = true ↔
  fromNs = toNs ∨ granted (Grants r) from fromNs to toNs name.
Proof. apply Permitted_iff. Qed.

(** What one certificateRef of a listener contributes. *)
Definition permittedSecretRef (gw : Gateway) (refs : References)
    (ref : SecretObjectReference) (ns : string) : Prop :=
  refersToSecret ref = true ∧ ns = namespace (sor_Namespace ref) (gw_Namespace gw) ∧
  Permitted refs GatewayKind (gw_Namespace gw) SecretKind ns (sor_Name ref) = true.

Lemma certificateRefNamespaces_spec gw refs certRefs acc ns :
  ns ∈ certificateRefNamespaces gw refs certRefs acc ↔
  ns ∈ acc ∨ ∃ ref, ref ∈ certRefs ∧ permittedSecretRef gw refs ref ns.
Proof.
  apply elem_of_foldl_set. intros acc' ref. unfold permittedSecretRef.
  destruct (refersToSecret ref); simpl; [|naive_solver].
  set (ns' := namespace (sor_Namespace ref) (gw_Namespace gw)).
  destruct (Permitted refs GatewayKind (gw_Namespace gw) SecretKind ns' (sor_Name ref)) eqn:P.
  - rewrite elem_of_union, elem_of_singleton. intuition congruence.
  - intuition congruence.
Qed.

(** The namespaces a Gateway may read certificates from are exactly those of
    the permitted Secret references of its listeners. *)
Lemma CertificateNamespaces_iff gw refs ns :
  ns ∈ CertificateNamespaces gw refs ↔
  ∃ l, l ∈ gw_Listeners gw ∧ ∃ tls, ls_TLS l = Some tls ∧
    ∃ ref, ref ∈ tls_CertificateRefs tls ∧ permittedSecretRef gw refs ref ns.
Proof.
  unfold CertificateNamespaces.
  rewrite (elem_of_foldl_set _ (λ l ns, ∃ tls, ls_TLS l = Some tls ∧
    ∃ ref, ref ∈ tls_CertificateRefs tls ∧ permittedSecretRef gw refs ref ns)); [set_solver|].
  intros acc l. simpl. destruct (ls_TLS l) as [tls|]; [|naive_solver].
  rewrite certificateRefNamespaces_spec. naive_solver.
Qed.
