(* ===== verification/Routes.v ===== *)
(** * Routes of every kind, reduced (internal/gateway/routes.go)

    A route of any kind becomes a [Route]: a GRPCRoute's matches and filters
    are rewritten as their HTTP equivalents, and a TLSRoute, TCPRoute or
    UDPRoute keeps only its backends. The mapping from a route to the Gateways
    it names, which internal/controller/gateway_watch.go enqueues from, is here
    too, so that it can be compared with the test the builder makes. *)
From S2P Require Import Prelude GatewayAPI Refs.

(** One rule of a route. *)
Record Rule := {
  ru_Matches : list HTTPRouteMatch;
  ru_Filters : list HTTPRouteFilter;
  ru_Backends : list BackendRef;
  ru_GRPC : bool;
}.

Record Route := {
  r_Kind : GroupKind;
  r_ObjectMeta : ObjectMeta;
  r_ParentRefs : list ParentReference;
  r_Hostnames : list string;
  r_Rules : list Rule;
}.

Definition r_Name (r : Route) : string := om_Name (r_ObjectMeta r).
Definition r_Namespace (r : Route) : string := om_Namespace (r_ObjectMeta r).
Definition r_CreationTimestamp (r : Route) : Z := om_CreationTimestamp (r_ObjectMeta r).

Definition PathMatchExact := "Exact".
Definition PathMatchPathPrefix := "PathPrefix".
Definition PathMatchRegularExpression := "RegularExpression".
Definition GRPCMethodMatchRegularExpression := "RegularExpression".
Definition GRPCHeaderMatchRegularExpression := "RegularExpression".
Definition HeaderMatchExact := "Exact".
Definition HeaderMatchRegularExpression := "RegularExpression".
Definition QueryParamMatchRegularExpression := "RegularExpression".

(** [regexp.QuoteMeta] puts a backslash before each of these characters. *)
Definition regexpMeta : list Ascii.ascii :=
  String.list_ascii_of_string "\.+*?()|[]{}^$".

Fixpoint QuoteMeta (s : string) : string :=
  match s with
  | EmptyString => ""
  | String a s' =>
    if existsb (Ascii.eqb a) regexpMeta
    then String (Ascii.ascii_of_nat 92) (String a (QuoteMeta s'))
    else String a (QuoteMeta s')
  end.

(** A rule without matches matches everything. *)
Definition orEmptyMatch (matches : list HTTPRouteMatch) : list HTTPRouteMatch :=
  match matches with [] => [emptyMatch] | _ => matches end.

(** [FromHTTPRoute]. *)
Definition fromHTTPRule (rule : HTTPRouteRule) : Rule :=
  {| ru_Matches := orEmptyMatch (hr_Matches rule);
     ru_Filters := hr_Filters rule;
     ru_Backends := hbr_BackendRef <$> hr_BackendRefs rule;
     ru_GRPC := false |}.

Definition FromHTTPRoute (r : HTTPRoute) : Route :=
  {| r_Kind := HTTPRouteKind;
     r_ObjectMeta := http_ObjectMeta r;
     r_ParentRefs := http_ParentRefs r;
     r_Hostnames := http_Hostnames r;
     r_Rules := fromHTTPRule <$> http_Rules r |}.

(** [grpcPath]: the path a gRPC call travels on, /<service>/<method>. *)
Definition segment := "[^/]+".

Definition grpcPath (m : GRPCMethodMatch) : option HTTPPathMatch :=
  let service := default "" (gm_Service m) in
  let method := default "" (gm_Method m) in
  if bool_decide (gm_Type m = Some GRPCMethodMatchRegularExpression) then
    let service := if str_eqb service "" then segment else service in
    let method := if str_eqb method "" then segment else method in
    Some {| pm_Type := Some PathMatchRegularExpression;
            pm_Value := Some ("/" +:+ service +:+ "/" +:+ method) |}
  else if negb (str_eqb service "") && negb (str_eqb method "") then
    Some {| pm_Type := Some PathMatchExact;
            pm_Value := Some ("/" +:+ service +:+ "/" +:+ method) |}
  else if negb (str_eqb service "") then
    Some {| pm_Type := Some PathMatchPathPrefix;
            pm_Value := Some ("/" +:+ service) |}
  else if negb (str_eqb method "") then
    Some {| pm_Type := Some PathMatchRegularExpression;
            pm_Value := Some ("/" +:+ segment +:+ "/" +:+ QuoteMeta method) |}
  else None.

(** [FromGRPCRoute]. *)
Definition fromGRPCHeader (h : GRPCHeaderMatch) : HTTPHeaderMatch :=
  let t := if bool_decide (gh_Type h = Some GRPCHeaderMatchRegularExpression)
           then HeaderMatchRegularExpression else HeaderMatchExact in
  {| hm_Type := Some t; hm_Name := gh_Name h; hm_Value := gh_Value h |}.

Definition fromGRPCMatch (m : GRPCRouteMatch) : HTTPRouteMatch :=
  {| m_Path := grm_Method m ≫= grpcPath;
     m_Headers := fromGRPCHeader <$> grm_Headers m;
     m_QueryParams := [];
     m_Method := None |}.

Definition fromGRPCFilter (f : GRPCRouteFilter) : HTTPRouteFilter :=
  {| f_Type := gf_Type f;
     f_RequestHeaderModifier := gf_RequestHeaderModifier f;
     f_ResponseHeaderModifier := gf_ResponseHeaderModifier f;
     f_RequestMirror := gf_RequestMirror f;
     f_RequestRedirect := None;
     f_URLRewrite := None;
     f_ExtensionRef := gf_ExtensionRef f |}.

Definition fromGRPCRule (rule : GRPCRouteRule) : Rule :=
  {| ru_Matches := orEmptyMatch (fromGRPCMatch <$> gr_Matches rule);
     ru_Filters := fromGRPCFilter <$> gr_Filters rule;
     ru_Backends := gbr_BackendRef <$> gr_BackendRefs rule;
     ru_GRPC := true |}.

Definition FromGRPCRoute (r : GRPCRoute) : Route :=
  {| r_Kind := GRPCRouteKind;
     r_ObjectMeta := grpc_ObjectMeta r;
     r_ParentRefs := grpc_ParentRefs r;
     r_Hostnames := grpc_Hostnames r;
     r_Rules := fromGRPCRule <$> grpc_Rules r |}.

(** [FromTLSRoute], [FromTCPRoute] and [FromUDPRoute]. *)
Definition backendsRule (backends : list BackendRef) : Rule :=
  {| ru_Matches := []; ru_Filters := []; ru_Backends := backends; ru_GRPC := false |}.

Definition FromTLSRoute (r : TLSRoute) : Route :=
  {| r_Kind := TLSRouteKind;
     r_ObjectMeta := tlsr_ObjectMeta r;
     r_ParentRefs := tlsr_ParentRefs r;
     r_Hostnames := tlsr_Hostnames r;
     r_Rules := backendsRule <$> tlsr_Rules r |}.

Definition FromTCPRoute (r : TCPRoute) : Route :=
  {| r_Kind := TCPRouteKind;
     r_ObjectMeta := tcpr_ObjectMeta r;
     r_ParentRefs := tcpr_ParentRefs r;
     r_Hostnames := [];
     r_Rules := backendsRule <$> tcpr_Rules r |}.

Definition FromUDPRoute (r : UDPRoute) : Route :=
  {| r_Kind := UDPRouteKind;
     r_ObjectMeta := udpr_ObjectMeta r;
     r_ParentRefs := udpr_ParentRefs r;
     r_Hostnames := [];
     r_Rules := backendsRule <$> udpr_Rules r |}.

(** [Route.Key]. *)
Definition Key (r : Route) : string :=
  gk_Kind (r_Kind r) +:+ "/" +:+ r_Namespace r +:+ "/" +:+ r_Name r.

(** [targets]: whether ref names gw. *)
Definition targets (ref : ParentReference) (routeNamespace : string) (gw : Gateway) : bool :=
  str_eqb (group (pref_Group ref) GatewayGroupName) (gk_Group GatewayKind)
  && str_eqb (kind (pref_Kind ref) (gk_Kind GatewayKind)) (gk_Kind GatewayKind)
  && str_eqb (namespace (pref_Namespace ref) routeNamespace) (gw_Namespace gw)
  && str_eqb (pref_Name ref) (gw_Name gw).

(** [Route.RefersTo]. *)
Definition RefersTo (r : Route) (gw : Gateway) : bool :=
  existsb (λ ref, targets ref (r_Namespace r) gw) (r_ParentRefs r).

(** [parentGateways] (internal/controller/gateway_watch.go). *)
Definition parentGateway (routeNamespace : string) (ref : ParentReference) : option NamespacedName :=
  if from_option (λ g, negb (str_eqb g GatewayGroupName)) false (pref_Group ref) then None
  else if from_option (λ k, negb (str_eqb k "Gateway")) false (pref_Kind ref) then None
  else
    let ns := match pref_Namespace ref with
              | Some n => if negb (str_eqb n "") then n else routeNamespace
              | None => routeNamespace
              end in
    Some {| nn_Namespace := ns; nn_Name := pref_Name ref |}.

Definition parentGateways (route : Route) : list NamespacedName :=
  collect_once (parentGateway (r_Namespace route)) (r_ParentRefs route).

(** ** Properties *)

Lemma parentGateway_targets ns ref gw :
  parentGateway ns ref = Some (gw_key gw) ↔ targets ref ns gw = true.
Proof.
  unfold parentGateway, targets, group, kind, namespace.
  rewrite !andb_true_iff, !str_eqb_eq. destruct ref as [g k n name sn p]; simpl.
  assert (∀ ns', Some {| nn_Namespace := ns'; nn_Name := name |} = Some (gw_key gw)
    ↔ ns' = gw_Namespace gw ∧ name = gw_Name gw) as Hkey by (unfold gw_key; naive_solver).
  destruct g as [g|]; simpl; [destruct (str_eqb g _) eqn:Hg|]; str_simpl; simpl;
    try (split; [done|naive_solver]);
    (destruct k as [k|]; simpl; [destruct (str_eqb k _) eqn:Hk|]); str_simpl; simpl;
    try (split; [done|naive_solver]);
    (destruct n as [n|]; [destruct (str_eqb n "")|]); simpl; rewrite Hkey; naive_solver.
Qed.

Lemma RefersTo_parentGateways route gw :
  gw_key gw ∈ parentGateways route ↔ RefersTo route gw = true.
Proof.
  unfold parentGateways, RefersTo. rewrite elem_of_collect_once. rewrite existsb_spec.
  by setoid_rewrite parentGateway_targets.
Qed.

(** The requests a route's event enqueues are, without repetition, exactly the
    Gateways the builder attaches the route to: a route change never misses a
    Gateway it names, and never wakes another. *)
Theorem parentGateways_spec route :
  NoDup (parentGateways route) ∧
  ∀ gw, gw_key gw ∈ parentGateways route ↔ RefersTo route gw = true.
Proof. split; [apply NoDup_collect_once|apply RefersTo_parentGateways]. Qed.
