(* ===== verification/Envoy.v ===== *)
(** * Names, labels and ports of the Envoy proxy (internal/gateway/envoy.go)

    The ports Envoy binds for a Gateway's listeners, and the names and labels
    of the objects provisioned for it. *)
From S2P Require Import Prelude GatewayAPI Samples.

(** The validators of [k8s.io/apimachinery/pkg/util/validation] the operator
    calls; true when the validator reports no problem. *)
Class Validation := {
  IsDNS1035Label : string → bool;
  IsValidLabelValue : string → bool;
  IsDNS1123Subdomain : string → bool;
  IsWildcardDNS1123Subdomain : string → bool;
}.

(** [crypto/sha256.Sum256]: the digest of a byte string, 32 bytes. *)
Class Sha256 := { Sum256 : string → string }.

Definition LabelName := "app.kubernetes.io/name".
Definition LabelManagedBy := "app.kubernetes.io/managed-by".
Definition LabelGateway := "cloudflare.unmango.dev/gateway-uid".
Definition LabelGatewayName := "gateway.networking.k8s.io/gateway-name".
Definition EnvoyName := "envoy".
Definition ManagedBy := "cloudflare-operator".

Definition EnvoyAdminPort : Z := 19000.
Definition EnvoyReadinessPort : Z := 19001.
Definition privilegedPortOffset : Z := 10000.

(** [ContainerPort]: the port Envoy binds for a listener port. *)
Definition ContainerPort (port : Z) : Z :=
  if (port <? 1024)%Z then port + privilegedPortOffset else port.

(** [hex.EncodeToString]. *)
Definition hexDigit (n : N) : Ascii.ascii :=
  Ascii.ascii_of_N (if (n <? 10)%N then 48 + n else 87 + n).

Fixpoint hexEncode (s : string) : string :=
  match s with
  | EmptyString => ""
  | String a s' =>
    String (hexDigit (N.div (Ascii.N_of_ascii a) 16))
      (String (hexDigit (N.modulo (Ascii.N_of_ascii a) 16)) (hexEncode s'))
  end.

(** [EnvoyObjectName]. *)
Definition EnvoyObjectName `{Validation, Sha256} (gw : Gateway) : string :=
  let name := gw_Name gw +:+ "-" +:+ EnvoyName in
  if IsDNS1035Label name then name
  else EnvoyName +:+ "-" +:+ String.substring 0 16 (hexEncode (Sum256 (gw_Name gw))).

(** [NodeID]. *)
Definition NodeID (namespace name : string) : string := namespace +:+ "/" +:+ name.

(** [SelectorLabels] and [Labels]. *)
Definition SelectorLabels (gw : Gateway) : gmap string string :=
  <[LabelName := EnvoyName]> (<[LabelManagedBy := ManagedBy]>
    (<[LabelGateway := om_UID (gw_ObjectMeta gw)]> ∅)).

Definition Labels `{Validation} (gw : Gateway) : gmap string string :=
  let labels := SelectorLabels gw in
  if IsValidLabelValue (gw_Name gw) then <[LabelGatewayName := gw_Name gw]> labels else labels.

(** ** Properties *)

(** Envoy's own ports aside, two ports bind to one container port only when
    they are equal or one is privileged and the other its image. *)
Lemma ContainerPort_eq p q :
  ContainerPort p = ContainerPort q →
  p = q ∨ ContainerPort p = q ∨ p = ContainerPort q.
Proof. unfold ContainerPort, privilegedPortOffset. repeat case_match; lia. Qed.

(** The port arithmetic stays within the 32 bits of the Go type. *)
Lemma ContainerPort_int32 p :
  (- 2 ^ 31 ≤ p < 2 ^ 31 → - 2 ^ 31 ≤ ContainerPort p < 2 ^ 31)%Z.
Proof. unfold ContainerPort, privilegedPortOffset. case_match; lia. Qed.

Lemma ContainerPort_unprivileged p : (0 < p)%Z → (1024 ≤ ContainerPort p)%Z.
Proof. unfold ContainerPort, privilegedPortOffset. case_match; lia. Qed.

(** The last character of a string. *)
Fixpoint last_char (s : string) : option Ascii.ascii :=
  match s with
  | EmptyString => None
  | String a EmptyString => Some a
  | String _ s' => last_char s'
  end.

Lemma last_char_app s t : t ≠ "" → last_char (s +:+ t) = last_char t.
Proof.
  intros Ht. induction s as [|a s IH]; [done|].
  change (String a s +:+ t) with (String a (s +:+ t)). rewrite <- IH.
  simpl. destruct s; [|done]. by destruct t.
Qed.

Lemma hexEncode_length s : String.length (hexEncode s) = 2 * String.length s.
Proof. induction s; simpl; lia. Qed.

(** Every character of an encoding is one of the sixteen digits. *)
Fixpoint string_forall (P : Ascii.ascii → bool) (s : string) : bool :=
  match s with EmptyString => true | String a s' => P a && string_forall P s' end.

Definition isHex (a : Ascii.ascii) : bool :=
  existsb (Ascii.eqb a) (String.list_ascii_of_string "0123456789abcdef").

Lemma hexDigit_isHex n : (n < 16)%N → isHex (hexDigit n) = true.
Proof.
  rewrite <- (N2Nat.id n). generalize (N.to_nat n) as k. intros k Hk.
  do 16 (destruct k as [|k]; [done|]). lia.
Qed.

Lemma hexEncode_isHex s : string_forall isHex (hexEncode s) = true.
Proof.
  induction s as [|a s IH]; simpl; [done|]. rewrite IH, !hexDigit_isHex; [done| |].
  - apply N.mod_lt. lia.
  - apply N.Div0.div_lt_upper_bound. pose proof (Ascii.N_ascii_bounded a). lia.
Qed.

Lemma string_forall_substring P n m s :
  string_forall P s = true → string_forall P (String.substring n m s) = true.
Proof.
  revert n m. induction s as [|a s IH]; intros n m; [by destruct n, m|].
  simpl. intros [Ha Hs]%andb_true_iff. destruct n; [|by apply IH].
  destruct m; simpl; [done|]. rewrite Ha. by apply IH.
Qed.

Lemma string_forall_last P s a : string_forall P s = true → last_char s = Some a → P a = true.
Proof.
  induction s as [|b s IH]; [done|]. simpl. intros [Hb Hs]%andb_true_iff.
  destruct s; [by intros [= <-]|by apply IH].
Qed.

Lemma substring_length n s : n ≤ String.length s → String.length (String.substring 0 n s) = n.
Proof.
  revert s. induction n as [|n IH]; intros [|a s] H; simpl in *; [done..|lia|].
  by rewrite IH by lia.
Qed.

Section names.
Context `{Validation, Sha256}.

(** The suffix of a hashed name. *)
Definition nameDigest (gw : Gateway) : string :=
  String.substring 0 16 (hexEncode (Sum256 (gw_Name gw))).

(** The name of an unhashed object ends in a letter no hash ends in. *)
Lemma hashed_ne_plain (g1 g2 : Gateway) :
  String.length (Sum256 (gw_Name g2)) = 32 →
  gw_Name g1 +:+ "-" +:+ EnvoyName ≠ EnvoyName +:+ "-" +:+ nameDigest g2.
Proof.
  intros Hlen Heq. apply (f_equal last_char) in Heq.
  assert (String.length (nameDigest g2) = 16) as Hd.
  { unfold nameDigest. apply substring_length. rewrite hexEncode_length. lia. }
  assert (nameDigest g2 ≠ "") as Hne by (intros Hn; by rewrite Hn in Hd).
  rewrite (last_char_app (gw_Name g1)) in Heq by done.
  rewrite (last_char_app EnvoyName), (last_char_app "-" (nameDigest g2)) in Heq by done.
  symmetry in Heq. apply (string_forall_last isHex) in Heq; [by vm_compute in Heq|].
  apply string_forall_substring, hexEncode_isHex.
Qed.

(** Two Gateways whose names differ get differently named Deployments and
    Services, unless both names were replaced by a digest and the digests
    collide: a plain name never meets a digest. *)
Theorem EnvoyObjectName_inj (g1 g2 : Gateway) :
  (∀ s, String.length (Sum256 s) = 32) →
  EnvoyObjectName g1 = EnvoyObjectName g2 →
  gw_Name g1 = gw_Name g2 ∨
  (IsDNS1035Label (gw_Name g1 +:+ "-" +:+ EnvoyName) = false ∧
   IsDNS1035Label (gw_Name g2 +:+ "-" +:+ EnvoyName) = false ∧
   nameDigest g1 = nameDigest g2).
Proof.
  intros Hlen. unfold EnvoyObjectName.
  destruct (IsDNS1035Label (gw_Name g1 +:+ _)) eqn:E1,
    (IsDNS1035Label (gw_Name g2 +:+ _)) eqn:E2; intros Heq.
  - left. by apply (string_app_inj_l _ _ ("-" +:+ EnvoyName)).
  - by apply hashed_ne_plain in Heq.
  - symmetry in Heq. by apply hashed_ne_plain in Heq.
  - right. split_and!; [done..|]. by do 2 apply string_app_inj_r in Heq.
Qed.
End names.

(** Validators and a digest to evaluate names with. *)
Definition sampleValidation : Validation :=
  {| IsDNS1035Label := λ s, String.length s <=? 63; IsValidLabelValue := λ s, String.length s <=? 63;
     IsDNS1123Subdomain := λ s, negb (has_prefix "*." s);
     IsWildcardDNS1123Subdomain := λ s, has_prefix "*." s |}.

Definition sampleSha256 : Sha256 := {| Sum256 := λ _, "0123456789abcdef0123456789abcdef" |}.

(** The theorem at two Gateways of one name in two namespaces. *)
Lemma EnvoyObjectName_inj_witness :
  let _ := sampleValidation in let _ := sampleSha256 in
  let g1 := sampleGateway "a" "web" [] in let g2 := sampleGateway "b" "web" [] in
  (∀ s, String.length (Sum256 s) = 32) ∧ EnvoyObjectName g1 = EnvoyObjectName g2 ∧
  gw_Name g1 = gw_Name g2.
Proof.
  intros v h g1 g2. split; [done|]. split; [reflexivity|].
  destruct (@EnvoyObjectName_inj v h g1 g2 (λ _, eq_refl) eq_refl) as [Hn|(Hf & _)];
    [exact Hn|by vm_compute in Hf].
Defined.
