(* ===== verification/Listeners.v ===== *)
(** * Validation of a Gateway's listeners (internal/gateway/listeners.go)

    Which listeners a Gateway may serve: the protocols and route kinds that
    reach it, the certificates it terminates TLS with, the conflicts between
    listeners on one port, and the ports Envoy cannot bind. *)
From S2P Require Import Prelude GatewayAPI Samples Refs Envoy.

Definition HTTPProtocolType := "HTTP".
Definition HTTPSProtocolType := "HTTPS".
Definition TLSProtocolType := "TLS".
Definition TCPProtocolType := "TCP".
Definition UDPProtocolType := "UDP".

Definition TLSModeTerminate := "Terminate".
Definition TLSModePassthrough := "Passthrough".

Definition ListenerConditionAccepted := "Accepted".
Definition ListenerConditionResolvedRefs := "ResolvedRefs".
Definition ListenerConditionConflicted := "Conflicted".

Definition SecretTypeTLS := "kubernetes.io/tls".
Definition TLSCertKey := "tls.crt".
Definition TLSPrivateKeyKey := "tls.key".

(** [tls.X509KeyPair]: the error it reports, or none for a usable pair. *)
Class X509 := { X509KeyPair : string → string → option string }.

(** The route kinds each protocol accepts, by what reaches the Gateway. *)
Definition tunnelKinds : gmap string (list string) :=
  <[HTTPProtocolType := [KindHTTPRoute]]>
  (<[TLSProtocolType := [KindTLSRoute]]>
  (<[TCPProtocolType := [KindTCPRoute]]> ∅)).

Definition warpKinds : gmap string (list string) :=
  <[HTTPProtocolType := [KindHTTPRoute; KindGRPCRoute]]>
  (<[HTTPSProtocolType := [KindHTTPRoute; KindGRPCRoute]]>
  (<[TLSProtocolType := [KindTLSRoute]]>
  (<[TCPProtocolType := [KindTCPRoute]]>
  (<[UDPProtocolType := [KindUDPRoute]]> ∅)))).

Definition unreachable :=
  "does not reach the Gateway through Cloudflare unless the class's tunnel template enables warpRouting".

(** A listener after validation. *)
Record Listener := {
  l_Spec : ListenerSpec;
  l_SupportedKinds : list RouteGroupKind;
  l_Conditions : list Condition;
  l_Certificates : list Secret;
  l_Valid : bool;
}.

Definition l_Name (l : Listener) : string := ls_Name (l_Spec l).
Definition l_Hostname (l : Listener) : option string := ls_Hostname (l_Spec l).
Definition l_Port (l : Listener) : Z := ls_Port (l_Spec l).
Definition l_Protocol (l : Listener) : string := ls_Protocol (l_Spec l).

Definition setConditions (l : Listener) (cs : list Condition) : Listener :=
  {| l_Spec := l_Spec l; l_SupportedKinds := l_SupportedKinds l; l_Conditions := cs;
     l_Certificates := l_Certificates l; l_Valid := l_Valid l |}.

Definition setValid (l : Listener) (v : bool) : Listener :=
  {| l_Spec := l_Spec l; l_SupportedKinds := l_SupportedKinds l; l_Conditions := l_Conditions l;
     l_Certificates := l_Certificates l; l_Valid := v |}.

(** ** Helpers *)

Definition tlsMode (config : ListenerTLSConfig) : string :=
  default TLSModeTerminate (tls_Mode config).

(** [Terminates]: whether Envoy terminates TLS for the listener. *)
Definition Terminates (l : ListenerSpec) : bool :=
  if str_eqb (ls_Protocol l) HTTPSProtocolType || str_eqb (ls_Protocol l) TLSProtocolType
  then match ls_TLS l with
       | Some tls => str_eqb (tlsMode tls) TLSModeTerminate
       | None => false
       end
  else false.

Definition transport (p : string) : string :=
  if str_eqb p UDPProtocolType then "UDP" else "TCP".

Definition hasHostnames (p : string) : bool :=
  negb (str_eqb p TCPProtocolType) && negb (str_eqb p UDPProtocolType).

Definition hostname (h : option string) : string := default "" h.

Definition routeGroupKind (kind : string) : RouteGroupKind :=
  {| rgk_Group := Some GatewayGroupName; rgk_Kind := kind |}.

Definition groupKindString (rgk : RouteGroupKind) : string :=
  match rgk_Group rgk with
  | None => GatewayGroupName +:+ "/" +:+ rgk_Kind rgk
  | Some g => if str_eqb g "" then "core/" +:+ rgk_Kind rgk
              else g +:+ "/" +:+ rgk_Kind rgk
  end.

(** [isTrue]: the status of the first condition of a type. *)
Fixpoint isTrue (conditions : list Condition) (t : string) : bool :=
  match conditions with
  | [] => false
  | c :: cs => if str_eqb (c_Type c) t then bool_decide (c_Status c = ConditionTrue)
               else isTrue cs t
  end.

(** ** Certificates *)

Definition failCertificate (reason message : string) : Condition :=
  mkCondition ListenerConditionResolvedRefs ConditionFalse reason message.

Section certificates.
Context `{X509}.

(** One certificateRef: the Secret, or the condition to report instead. *)
Definition resolveCertificate (gwNamespace : string) (refs : References)
    (ref : SecretObjectReference) : Secret + Condition :=
  let g := group (sor_Group ref) CoreGroupName in
  let k := kind (sor_Kind ref) (gk_Kind SecretKind) in
  let ns := namespace (sor_Namespace ref) gwNamespace in
  let key := {| nn_Namespace := ns; nn_Name := sor_Name ref |} in
  if negb (str_eqb g (gk_Group SecretKind)) || negb (str_eqb k (gk_Kind SecretKind)) then
    inr (failCertificate "InvalidCertificateRef"
      ("certificateRef " +:+ g +:+ "/" +:+ k +:+ " " +:+ nn_string key +:+ " is not a Secret"))
  else if negb (Permitted refs GatewayKind gwNamespace SecretKind ns (nn_Name key)) then
    inr (failCertificate "RefNotPermitted"
      ("No ReferenceGrant allows a Gateway in " +:+ gwNamespace +:+ " to use Secret " +:+ nn_string key))
  else match Unreadable refs !! key with
  | Some reason =>
    inr (failCertificate "InvalidCertificateRef"
      ("Secret " +:+ nn_string key +:+ " cannot be read: " +:+ reason))
  | None =>
    match Secrets refs !! key with
    | None =>
      inr (failCertificate "InvalidCertificateRef"
        ("Secret " +:+ nn_string key +:+ " does not exist"))
    | Some secret =>
      if negb (str_eqb (sec_Type secret) SecretTypeTLS) then
        inr (failCertificate "InvalidCertificateRef"
          ("Secret " +:+ nn_string key +:+ " is not of type " +:+ SecretTypeTLS))
      else match X509KeyPair (default "" (sec_Data secret !! TLSCertKey))
                             (default "" (sec_Data secret !! TLSPrivateKeyKey)) with
      | Some err =>
        inr (failCertificate "InvalidCertificateRef"
          ("Secret " +:+ nn_string key +:+ " does not hold a valid certificate: " +:+ err))
      | None => inl secret
      end
    end
  end.

Fixpoint resolveCertificateList (gwNamespace : string) (refs : References)
    (certRefs : list SecretObjectReference) : list Secret + Condition :=
  match certRefs with
  | [] => inl []
  | ref :: rest =>
    match resolveCertificate gwNamespace refs ref with
    | inr failed => inr failed
    | inl secret =>
      match resolveCertificateList gwNamespace refs rest with
      | inr failed => inr failed
      | inl certs => inl (secret :: certs)
      end
    end
  end.

Definition resolveCertificates (gwNamespace : string) (certRefs : list SecretObjectReference)
    (refs : References) : list Secret + Condition :=
  match certRefs with
  | [] => inr (failCertificate "InvalidCertificateRef"
            "A listener that terminates TLS needs at least one certificateRef")
  | _ => resolveCertificateList gwNamespace refs certRefs
  end.
End certificates.

(** ** Validation of one listener *)

(** [invalidKindsMessage]. *)
Definition invalidKindsMessage (protocol : string) (invalid : list string) : string :=
  let message := "Route kinds not supported on a " +:+ protocol +:+ " listener: "
                 +:+ fmt_strings invalid in
  match List.find (λ kind,
      bool_decide (groupKindString (routeGroupKind kind) ∈ invalid)
      && negb (bool_decide (kind ∈ default [] (tunnelKinds !! protocol))))
      (default [] (warpKinds !! protocol)) with
  | Some kind => message +:+ "; " +:+ kind +:+ " " +:+ unreachable
  | None => message
  end.

Definition acceptedFalse (reason message : string) : Condition :=
  mkCondition ListenerConditionAccepted ConditionFalse reason message.

(** The kinds a listener of a protocol accepts, nil when it is not supported. *)
Definition kindsOf (refs : References) (protocol : string) : option (list string) :=
  (if WarpRouting refs then warpKinds else tunnelKinds) !! protocol.

(** The Accepted condition [validate] appends first. *)
Definition acceptedCondition (l : ListenerSpec) (refs : References) : Condition :=
  if bool_decide (kindsOf refs (ls_Protocol l) = None) then
    acceptedFalse "UnsupportedProtocol"
      (if bool_decide (is_Some (warpKinds !! ls_Protocol l))
       then "Protocol " +:+ ls_Protocol l +:+ " " +:+ unreachable
       else "Protocol " +:+ ls_Protocol l +:+ " is not supported")
  else if str_eqb (ls_Protocol l) HTTPSProtocolType
       && match ls_TLS l with
          | None => true
          | Some tls => negb (str_eqb (tlsMode tls) TLSModeTerminate)
          end then
    acceptedFalse "UnsupportedValue" "An HTTPS listener must set tls.mode Terminate"
  else if str_eqb (ls_Protocol l) TLSProtocolType && bool_decide (ls_TLS l = None) then
    acceptedFalse "UnsupportedValue" "A TLS listener must set tls"
  else mkCondition ListenerConditionAccepted ConditionTrue "Accepted" "Listener accepted".

(** Whether a kind a listener allows is one its protocol supports. *)
Definition supportsKind (kinds : list string) (rgk : RouteGroupKind) : bool :=
  match rgk_Group rgk with
  | None => true
  | Some g => str_eqb g GatewayGroupName
  end && bool_decide (rgk_Kind rgk ∈ kinds).

(** The kinds the listener allows, and those among them it does not support. *)
Definition allowedKinds (l : ListenerSpec) : list RouteGroupKind :=
  match ls_AllowedRoutes l with Some ar => ar_Kinds ar | None => [] end.

Definition supportedKindsOf (l : ListenerSpec) (kinds : list string) : list RouteGroupKind :=
  match allowedKinds l with
  | [] => routeGroupKind <$> kinds
  | allowed => (λ rgk, routeGroupKind (rgk_Kind rgk)) <$> filter (λ rgk, supportsKind kinds rgk = true) allowed
  end.

Definition invalidKindsOf (l : ListenerSpec) (kinds : list string) : list string :=
  groupKindString <$> filter (λ rgk, supportsKind kinds rgk = false) (allowedKinds l).

Definition resolvedTrue : Condition :=
  mkCondition ListenerConditionResolvedRefs ConditionTrue "ResolvedRefs" "References resolved".

Section validate.
Context `{X509}.

(** The ResolvedRefs condition [validate] appends second, and the
    certificates, which it looks up only when the kinds resolved. *)
Definition resolveListener (gwNamespace : string) (l : ListenerSpec) (refs : References)
    (kinds : list string) : Condition * list Secret :=
  let resolved :=
    match invalidKindsOf l kinds with
    | [] => resolvedTrue
    | invalid => mkCondition ListenerConditionResolvedRefs ConditionFalse "InvalidRouteKinds"
             (invalidKindsMessage (ls_Protocol l) invalid)
    end in
  if Terminates l && bool_decide (c_Status resolved = ConditionTrue) then
    match ls_TLS l with
    | Some tls =>
      match resolveCertificates gwNamespace (tls_CertificateRefs tls) refs with
      | inr failed => (failed, [])
      | inl certs => (resolved, certs)
      end
    | None => (resolved, [])
    end
  else (resolved, []).

(** [validate]. *)
Definition validate (gwNamespace : string) (l : ListenerSpec) (refs : References) : Listener :=
  let kinds := default [] (kindsOf refs (ls_Protocol l)) in
  let resolved := resolveListener gwNamespace l refs kinds in
  {| l_Spec := l;
     l_SupportedKinds := supportedKindsOf l kinds;
     l_Conditions := [acceptedCondition l refs; resolved.1];
     l_Certificates := resolved.2;
     l_Valid := false |}.
End validate.

(** ** Conflicts and ports *)

Definition conflictTrue (reason message : string) : Condition :=
  mkCondition ListenerConditionConflicted ConditionTrue reason message.

Definition conflictFalse : Condition :=
  mkCondition ListenerConditionConflicted ConditionFalse "NoConflicts" "No conflicts".

(** The inner loop of [markConflicts]: listener [a] at index [i] against the
    listeners from index [j] on. A protocol conflict ends the loop. *)
Fixpoint conflictWith (i : nat) (a : Listener) (j : nat) (bs : list Listener)
    (conflict : Condition) : Condition :=
  match bs with
  | [] => conflict
  | b :: bs' =>
    if Nat.eqb i j || negb (l_Port a =? l_Port b)%Z
       || negb (str_eqb (transport (l_Protocol a)) (transport (l_Protocol b)))
    then conflictWith i a (S j) bs' conflict
    else if negb (str_eqb (l_Protocol a) (l_Protocol b)) then
      conflictTrue "ProtocolConflict"
        ("Listener " +:+ l_Name b +:+ " uses protocol " +:+ l_Protocol b
         +:+ " on port " +:+ fmt_d (l_Port b))
    else if negb (hasHostnames (l_Protocol a)) then
      conflictWith i a (S j) bs' (conflictTrue "HostnameConflict"
        ("Listener " +:+ l_Name b +:+ " also serves " +:+ l_Protocol b
         +:+ " on port " +:+ fmt_d (l_Port b)))
    else if str_eqb (hostname (l_Hostname a)) (hostname (l_Hostname b)) then
      conflictWith i a (S j) bs' (conflictTrue "HostnameConflict"
        ("Listener " +:+ l_Name b +:+ " uses the same hostname on port " +:+ fmt_d (l_Port b)))
    else conflictWith i a (S j) bs' conflict
  end.

(** [markConflicts]. It reads no conditions, so appending to one listener's
    does not affect the next. *)
Definition markConflicts (listeners : list Listener) : list Listener :=
  imap (λ i a, setConditions a (l_Conditions a ++ [conflictWith i a 0 listeners conflictFalse]))
    listeners.

(** [markUnavailablePorts]. *)
Definition portProblem (ports : list Z) (l : Listener) : option string :=
  let bound := ContainerPort (l_Port l) in
  if (bound =? EnvoyAdminPort)%Z || (bound =? EnvoyReadinessPort)%Z then
    Some ("Port " +:+ fmt_d bound +:+ " is reserved by Envoy")
  else if negb (bound =? l_Port l)%Z && bool_decide (bound ∈ ports) then
    Some ("Port " +:+ fmt_d bound +:+ " is bound for port " +:+ fmt_d (l_Port l)
          +:+ ", which another listener uses")
  else None.

Definition rejectPort (message : string) (c : Condition) : Condition :=
  if str_eqb (c_Type c) ListenerConditionAccepted
  then acceptedFalse "PortUnavailable" message else c.

Definition markUnavailablePorts (listeners : list Listener) : list Listener :=
  let ports := l_Port <$> listeners in
  (λ l, match portProblem ports l with
        | Some message => setConditions l (rejectPort message <$> l_Conditions l)
        | None => l
        end) <$> listeners.

(** Whether a listener can be programmed. *)
Definition computeValid (l : Listener) : bool :=
  isTrue (l_Conditions l) ListenerConditionAccepted
  && isTrue (l_Conditions l) ListenerConditionResolvedRefs
  && negb (isTrue (l_Conditions l) ListenerConditionConflicted).

(** [Listeners]; a nil [refs] is the empty one. *)
Definition Listeners `{X509} (gw : Gateway) (refs : option References) : list Listener :=
  let refs := default noReferences refs in
  let listeners := (λ l, validate (gw_Namespace gw) l refs) <$> gw_Listeners gw in
  (λ l, setValid l (computeValid l)) <$> markUnavailablePorts (markConflicts listeners).

(** ** Shape of the result *)

Lemma conflictWith_status i a j bs c :
  c_Type c = ListenerConditionConflicted → c_Status c ≠ ConditionUnknown →
  c_Type (conflictWith i a j bs c) = ListenerConditionConflicted ∧
  c_Status (conflictWith i a j bs c) ≠ ConditionUnknown.
Proof.
  revert j c. induction bs as [|b bs IH]; intros j c Ht Hs; simpl; [done|].
  repeat case_match; simpl; auto.
Qed.

(** Two listeners whose traffic nothing can tell apart, or that claim one port
    for different protocols. *)
Definition clashes (a b : Listener) : Prop :=
  l_Port a = l_Port b ∧ transport (l_Protocol a) = transport (l_Protocol b) ∧
  (l_Protocol a ≠ l_Protocol b ∨ hasHostnames (l_Protocol a) = false ∨
   hostname (l_Hostname a) = hostname (l_Hostname b)).

Lemma conflictWith_false i a j bs c :
  c_Status (conflictWith i a j bs c) = ConditionFalse ↔
  c_Status c = ConditionFalse ∧ ∀ k b, bs !! k = Some b → i ≠ j + k → ¬ clashes a b.
Proof.
  assert (∀ r m, c_Status (conflictTrue r m) ≠ ConditionFalse) as Hct by done.
  assert (∀ b bs' k j (P : nat → Listener → Prop),
    (∀ k' b', (b :: bs') !! k' = Some b' → k ≠ j + k' → P k' b') ↔
    (k ≠ j → P 0 b) ∧ ∀ k' b', bs' !! k' = Some b' → k ≠ S j + k' → P (S k') b') as Hcons.
  { intros b bs' k j' P. split.
    - intros H. split; [intros; by apply H; [|lia]|]. intros k' b' ??. apply (H (S k')); [done|lia].
    - intros [H0 HS] [|k'] b' ??; [simplify_eq/=; apply H0; lia|apply HS; [done|lia]]. }
  revert j c. induction bs as [|b bs IH]; intros j c; simpl; [naive_solver|].
  rewrite (Hcons b bs i j (λ _ b, ¬ clashes a b)).
  assert (∀ r m, c_Status (conflictWith i a (S j) bs (conflictTrue r m)) ≠ ConditionFalse) as Hct'.
  { intros r m. rewrite IH. by intros [? _]. }
  destruct (Nat.eqb_spec i j) as [->|Hij]; simpl; [rewrite IH; tauto|].
  destruct (Z.eqb_spec (l_Port a) (l_Port b)) as [Hp|Hp]; simpl.
  2:{ rewrite IH. assert (¬ clashes a b) by (intros [? _]; congruence). tauto. }
  destruct (str_eqb (transport _) _) eqn:Ht; str_simpl; simpl.
  2:{ rewrite IH. assert (¬ clashes a b) by (intros (_ & ? & _); congruence). tauto. }
  destruct (str_eqb (l_Protocol a) _) eqn:Hpr; str_simpl; simpl.
  2:{ assert (clashes a b) by (split_and!; auto). pose proof (Hct "ProtocolConflict"). naive_solver. }
  destruct (hasHostnames _) eqn:Hh; simpl.
  2:{ assert (clashes a b) by (split_and!; auto). split; [intros E; by apply Hct' in E|tauto]. }
  destruct (str_eqb (hostname _) _) eqn:Hhn; str_simpl.
  - assert (clashes a b) by (split_and!; auto). split; [intros E; by apply Hct' in E|tauto].
  - rewrite IH. assert (¬ clashes a b) by (intros (_ & _ & [?|[?|?]]); congruence). tauto.
Qed.

Section shape.
Context `{X509} (gw : Gateway) (orefs : option References).

Definition refsOf : References := default noReferences orefs.

(** The listeners after [validate], which later passes only add to. *)
Definition validated : list Listener :=
  (λ l, validate (gw_Namespace gw) l refsOf) <$> gw_Listeners gw.

(** The kinds a listener's protocol accepts, and what its references
    resolve to. *)
Definition resolutionOf (ls : ListenerSpec) : Condition * list Secret :=
  resolveListener (gw_Namespace gw) ls refsOf (default [] (kindsOf refsOf (ls_Protocol ls))).

Definition finalAccepted (ls : ListenerSpec) : Condition :=
  match portProblem (ls_Port <$> gw_Listeners gw) (validate (gw_Namespace gw) ls refsOf) with
  | Some message => acceptedFalse "PortUnavailable" message
  | None => acceptedCondition ls refsOf
  end.

Definition finalConflicted (i : nat) (ls : ListenerSpec) : Condition :=
  conflictWith i (validate (gw_Namespace gw) ls refsOf) 0 validated conflictFalse.

Lemma resolveCertificate_fail ns ref c :
  resolveCertificate ns refsOf ref = inr c →
  c_Type c = ListenerConditionResolvedRefs ∧ c_Status c = ConditionFalse.
Proof. unfold resolveCertificate. repeat case_match; by intros [= <-]. Qed.

Lemma resolveCertificateList_fail ns certRefs c :
  resolveCertificateList ns refsOf certRefs = inr c →
  c_Type c = ListenerConditionResolvedRefs ∧ c_Status c = ConditionFalse.
Proof.
  induction certRefs as [|ref certRefs IH]; simpl; [done|].
  destruct (resolveCertificate _ _ _) eqn:E; [|intros [= <-]; by eapply resolveCertificate_fail].
  destruct (resolveCertificateList _ _ _); [done|naive_solver].
Qed.

Lemma resolveCertificates_fail ns certRefs c :
  resolveCertificates ns certRefs refsOf = inr c →
  c_Type c = ListenerConditionResolvedRefs ∧ c_Status c = ConditionFalse.
Proof.
  unfold resolveCertificates. destruct certRefs; [by intros [= <-]|apply resolveCertificateList_fail].
Qed.

Lemma resolutionOf_type ls : c_Type (resolutionOf ls).1 = ListenerConditionResolvedRefs.
Proof.
  unfold resolutionOf, resolveListener. repeat case_match; simplify_eq/=; try done;
    by eapply resolveCertificates_fail.
Qed.

Lemma acceptedCondition_type ls : c_Type (acceptedCondition ls refsOf) = ListenerConditionAccepted.
Proof. unfold acceptedCondition. by repeat case_match. Qed.

Lemma finalConflicted_type i ls : c_Type (finalConflicted i ls) = ListenerConditionConflicted.
Proof. by apply conflictWith_status. Qed.

(** Every listener of the result, spelled out. *)
Lemma Listeners_lookup i l :
  Listeners gw orefs !! i = Some l ↔
  ∃ ls, gw_Listeners gw !! i = Some ls ∧
    let v := validate (gw_Namespace gw) ls refsOf in
    let l' := setConditions v [finalAccepted ls; (resolutionOf ls).1; finalConflicted i ls] in
    l = setValid l' (computeValid l').
Proof.
  unfold Listeners, markUnavailablePorts, markConflicts. fold refsOf. fold validated.
  rewrite !list_lookup_fmap, list_lookup_imap.
  assert (l_Port <$> imap (λ i a, setConditions a (l_Conditions a ++
      [conflictWith i a 0 validated conflictFalse])) validated
    = ls_Port <$> gw_Listeners gw) as ->.
  { rewrite fmap_imap. unfold validated. rewrite imap_fmap. unfold compose.
    by rewrite <- (imap_const ls_Port). }
  assert (validated !! i = (λ l, validate (gw_Namespace gw) l refsOf) <$> gw_Listeners gw !! i)
    as -> by apply list_lookup_fmap.
  destruct (gw_Listeners gw !! i) as [ls|]; simpl; [|naive_solver].
  assert (∀ m, rejectPort m <$> [acceptedCondition ls refsOf; (resolutionOf ls).1; finalConflicted i ls]
    = [acceptedFalse "PortUnavailable" m; (resolutionOf ls).1; finalConflicted i ls]) as Hrej.
  { intros m. simpl. unfold rejectPort.
    by rewrite acceptedCondition_type, resolutionOf_type, finalConflicted_type. }
  split.
  - intros [= <-]. exists ls. split; [done|]. unfold finalAccepted.
    unfold portProblem, l_Port. simpl. repeat case_match; try rewrite <- Hrej; done.
  - intros (ls' & [= <-] & ->). f_equal. unfold finalAccepted.
    unfold portProblem, l_Port. simpl. repeat case_match; try rewrite <- Hrej; done.
Qed.
End shape.

(** ** Which listeners are valid *)

Section valid.
Context `{X509} (gw : Gateway) (orefs : option References).

(** Nothing Envoy binds is in the way of a listener port. *)
Definition portAvailable (p : Z) : Prop :=
  ContainerPort p ≠ EnvoyAdminPort ∧ ContainerPort p ≠ EnvoyReadinessPort ∧
  (ContainerPort p = p ∨ ContainerPort p ∉ ls_Port <$> gw_Listeners gw).

(** The listener's protocol is one that reaches the Gateway, with the TLS
    settings the protocol needs. *)
Definition acceptable (ls : ListenerSpec) : Prop :=
  is_Some (kindsOf (refsOf orefs) (ls_Protocol ls)) ∧
  (ls_Protocol ls = HTTPSProtocolType → Terminates ls = true) ∧
  (ls_Protocol ls = TLSProtocolType → is_Some (ls_TLS ls)).

(** Every kind it allows is supported, and a listener that terminates TLS has
    certificates, each of which resolves. *)
Definition resolvable (ls : ListenerSpec) : Prop :=
  invalidKindsOf ls (default [] (kindsOf (refsOf orefs) (ls_Protocol ls))) = [] ∧
  (Terminates ls = true → ∃ tls certs, ls_TLS ls = Some tls ∧
    resolveCertificates (gw_Namespace gw) (tls_CertificateRefs tls) (refsOf orefs) = inl certs).

Lemma acceptedCondition_True ls :
  c_Status (acceptedCondition ls (refsOf orefs)) = ConditionTrue ↔ acceptable ls.
Proof.
  unfold acceptedCondition, acceptable, Terminates.
  case_bool_decide as Hk; simpl.
  { rewrite Hk. split; [done|]. by intros [[? ?] _]. }
  apply not_eq_None_Some in Hk. destruct (ls_TLS ls) as [tls|]; simpl.
  - rewrite !andb_false_r.
    destruct (str_eqb (ls_Protocol ls) HTTPSProtocolType) eqn:E1; str_simpl; simpl.
    + destruct (str_eqb (tlsMode tls) _); simpl; (split; [done|]).
      * done.
      * intros (_ & Hf & _). by specialize (Hf E1).
    + split; [intros _|done]. by split_and!; intros.
  - rewrite !andb_true_r.
    destruct (str_eqb (ls_Protocol ls) HTTPSProtocolType) eqn:E1; str_simpl; simpl.
    + split; [done|]. intros (_ & Hf & _). by specialize (Hf E1).
    + destruct (str_eqb (ls_Protocol ls) TLSProtocolType) eqn:E2; str_simpl; simpl.
      * split; [done|]. intros (_ & _ & Hs). by destruct (Hs E2).
      * split; [intros _|done]. by split_and!; intros.
Qed.

Lemma finalAccepted_True ls :
  c_Status (finalAccepted gw orefs ls) = ConditionTrue ↔ acceptable ls ∧ portAvailable (ls_Port ls).
Proof.
  unfold finalAccepted, portProblem, portAvailable, l_Port. simpl.
  destruct (Z.eqb_spec (ContainerPort (ls_Port ls)) EnvoyAdminPort); simpl; [naive_solver|].
  destruct (Z.eqb_spec (ContainerPort (ls_Port ls)) EnvoyReadinessPort); simpl; [naive_solver|].
  destruct (Z.eqb_spec (ContainerPort (ls_Port ls)) (ls_Port ls)); simpl;
    [rewrite acceptedCondition_True; naive_solver|].
  case_bool_decide; simpl; [naive_solver|]. rewrite acceptedCondition_True. naive_solver.
Qed.

Lemma resolutionOf_True ls :
  c_Status (resolutionOf gw orefs ls).1 = ConditionTrue ↔ resolvable ls.
Proof.
  unfold resolutionOf, resolveListener, resolvable.
  set (kinds := default [] _). destruct (invalidKindsOf ls kinds) as [|k ks] eqn:Ek; simpl.
  - rewrite andb_true_r. destruct (Terminates ls) eqn:Et; [|by split].
    unfold Terminates in Et. destruct (ls_TLS ls) as [tls|]; [|by destruct (_ || _)].
    destruct (resolveCertificates _ _ _) as [certs|failed] eqn:Er; simpl.
    + split; [|done]. intros _. split; [done|]. eauto.
    + pose proof Er as [_ ->]%resolveCertificates_fail. split; [done|].
      intros [_ Hc]. destruct Hc as (tls' & certs & [= <-] & Hc'); [done|]. congruence.
  - rewrite andb_false_r. split; [done|]. by intros [? _].
Qed.

Lemma finalConflicted_False i ls :
  c_Status (finalConflicted gw orefs i ls) ≠ ConditionTrue ↔
  ∀ j ls', gw_Listeners gw !! j = Some ls' → i ≠ j →
    ¬ clashes (validate (gw_Namespace gw) ls (refsOf orefs))
              (validate (gw_Namespace gw) ls' (refsOf orefs)).
Proof.
  destruct (conflictWith_status i (validate (gw_Namespace gw) ls (refsOf orefs)) 0
    (validated gw orefs) conflictFalse) as [_ Hu]; [done..|].
  fold (finalConflicted gw orefs i ls) in Hu.
  transitivity (c_Status (finalConflicted gw orefs i ls) = ConditionFalse);
    [destruct (c_Status _); naive_solver|].
  unfold finalConflicted. rewrite conflictWith_false. unfold validated.
  setoid_rewrite list_lookup_fmap_Some. simpl. naive_solver.
Qed.

Lemma valid_iff i ls l :
  gw_Listeners gw !! i = Some ls → Listeners gw orefs !! i = Some l →
  l_Spec l = ls ∧ l_Certificates l = (resolutionOf gw orefs ls).2 ∧
  l_Conditions l = [finalAccepted gw orefs ls; (resolutionOf gw orefs ls).1; finalConflicted gw orefs i ls] ∧
  (l_Valid l = true ↔ acceptable ls ∧ portAvailable (ls_Port ls) ∧ resolvable ls ∧
    c_Status (finalConflicted gw orefs i ls) ≠ ConditionTrue).
Proof.
  intros Hls (ls' & Hls' & ->)%Listeners_lookup. simplify_eq. simpl. split_and!; [done..|].
  unfold computeValid. simpl.
  assert (c_Type (finalAccepted gw orefs ls) = ListenerConditionAccepted) as Ha.
  { unfold finalAccepted. case_match; [done|]. apply acceptedCondition_type. }
  rewrite Ha, resolutionOf_type, finalConflicted_type. simpl.
  rewrite !andb_true_iff, negb_true_iff, !bool_decide_eq_true, bool_decide_eq_false.
  rewrite finalAccepted_True, resolutionOf_True. tauto.
Qed.
End valid.

(** ** Theorems *)

Section theorems.
Context `{X509} (gw : Gateway) (orefs : option References).

(** Two listeners of a Gateway that no traffic could be told apart for, or
    that claim one port for two protocols. *)
Definition specClashes (a b : ListenerSpec) : Prop :=
  ls_Port a = ls_Port b ∧ transport (ls_Protocol a) = transport (ls_Protocol b) ∧
  (ls_Protocol a ≠ ls_Protocol b ∨ hasHostnames (ls_Protocol a) = false ∨
   hostname (ls_Hostname a) = hostname (ls_Hostname b)).

Lemma listener_valid i l :
  Listeners gw orefs !! i = Some l →
  gw_Listeners gw !! i = Some (l_Spec l) ∧
  (l_Valid l = true ↔
    acceptable orefs (l_Spec l) ∧ portAvailable gw (l_Port l) ∧ resolvable gw orefs (l_Spec l) ∧
    ∀ j l', Listeners gw orefs !! j = Some l' → i ≠ j → ¬ specClashes (l_Spec l) (l_Spec l')).
Proof.
  intros Hl. pose proof Hl as (ls & Hls & _)%Listeners_lookup.
  destruct (valid_iff _ _ _ _ _ Hls Hl) as (Hspec & _ & _ & Hv).
  unfold l_Port. rewrite Hspec. split; [done|]. rewrite Hv, finalConflicted_False.
  assert ((∀ j ls', gw_Listeners gw !! j = Some ls' → i ≠ j →
      ¬ clashes (validate (gw_Namespace gw) ls (refsOf orefs))
                (validate (gw_Namespace gw) ls' (refsOf orefs))) ↔
    (∀ j l', Listeners gw orefs !! j = Some l' → i ≠ j → ¬ specClashes ls (l_Spec l'))) as ->;
    [|done].
  split.
  - intros Hc j l' (ls' & Hls' & ->)%Listeners_lookup Hij. simpl. by apply (Hc j ls').
  - intros Hc j ls' Hls' Hij Hcl.
    eapply (Hc j); [apply Listeners_lookup; exists ls'; by split|done|exact Hcl].
Qed.

(** C4. A listener is valid exactly when its protocol reaches the Gateway
    with the TLS settings the protocol needs, Envoy can bind its port, every
    route kind it allows is supported and its certificates resolve, and it
    clashes with no other listener of the Gateway, valid or not. *)
Theorem Listeners_valid_spec i l :
  Listeners gw orefs !! i = Some l →
  gw_Listeners gw !! i = Some (l_Spec l) ∧
  (l_Valid l = true ↔
    acceptable orefs (l_Spec l) ∧ portAvailable gw (l_Port l) ∧ resolvable gw orefs (l_Spec l) ∧
    ∀ j l', Listeners gw orefs !! j = Some l' → i ≠ j → ¬ specClashes (l_Spec l) (l_Spec l')).
Proof. apply listener_valid. Qed.

(** Valid listeners on one port and transport can be told apart: they share a
    protocol that carries hostnames, and their hostnames differ. *)
Lemma valid_separated i j a b :
  Listeners gw orefs !! i = Some a → Listeners gw orefs !! j = Some b → i ≠ j →
  l_Valid a = true → l_Port a = l_Port b →
  transport (l_Protocol a) = transport (l_Protocol b) →
  l_Protocol a = l_Protocol b ∧ hasHostnames (l_Protocol a) = true ∧
  hostname (l_Hostname a) ≠ hostname (l_Hostname b).
Proof.
  intros Ha Hb Hij Hv Hp Ht. apply listener_valid in Ha as [_ Ha].
  apply Ha in Hv as (_ & _ & _ & Hc). specialize (Hc j b Hb Hij).
  unfold specClashes in Hc. fold (l_Port a) (l_Port b) (l_Protocol a) (l_Protocol b)
    (l_Hostname a) (l_Hostname b) in Hc.
  destruct (decide (l_Protocol a = l_Protocol b)); [|tauto].
  destruct (hasHostnames (l_Protocol a)); [|tauto].
  destruct (decide (hostname (l_Hostname a) = hostname (l_Hostname b))); [tauto|done].
Qed.

Lemma ports_bindable i j a b :
  Listeners gw orefs !! i = Some a → Listeners gw orefs !! j = Some b →
  l_Valid a = true → l_Valid b = true →
  ContainerPort (l_Port a) ≠ EnvoyAdminPort ∧ ContainerPort (l_Port a) ≠ EnvoyReadinessPort ∧
  (ContainerPort (l_Port a) = ContainerPort (l_Port b) → l_Port a = l_Port b).
Proof.
  intros [La Ha]%listener_valid [Lb Hb]%listener_valid.
  intros (_ & (HA & HR & Hpa) & _)%Ha (_ & (_ & _ & Hpb) & _)%Hb. split_and!; [done..|].
  assert (l_Port a ∈ ls_Port <$> gw_Listeners gw).
  { apply list_elem_of_fmap. eauto using list_elem_of_lookup_2. }
  assert (l_Port b ∈ ls_Port <$> gw_Listeners gw).
  { apply list_elem_of_fmap. eauto using list_elem_of_lookup_2. }
  intros [?|[Heq|Heq]]%ContainerPort_eq; [done|..].
  - destruct Hpa as [Hpa|Hpa]; congruence.
  - destruct Hpb as [Hpb|Hpb]; congruence.
Qed.

(** Envoy can bind every valid listener's port at once: none is one of
    Envoy's own, and two valid listeners bind the same container port only
    when they share the listener port. *)
Theorem valid_ports_bindable i j a b :
  Listeners gw orefs !! i = Some a → Listeners gw orefs !! j = Some b →
  l_Valid a = true → l_Valid b = true →
  ContainerPort (l_Port a) ≠ EnvoyAdminPort ∧ ContainerPort (l_Port a) ≠ EnvoyReadinessPort ∧
  (ContainerPort (l_Port a) = ContainerPort (l_Port b) → l_Port a = l_Port b).
Proof. apply ports_bindable. Qed.

(** Without WARP routing, no listener that Cloudflare's public hostnames
    cannot reach is served: a valid listener is HTTP, TLS or TCP, and the only
    route kind it accepts is its protocol's. *)
Theorem public_listeners_only i l :
  WarpRouting (refsOf orefs) = false →
  Listeners gw orefs !! i = Some l → l_Valid l = true →
  ∃ k, (l_Protocol l, k) ∈ [(HTTPProtocolType, KindHTTPRoute); (TLSProtocolType, KindTLSRoute);
                            (TCPProtocolType, KindTCPRoute)] ∧
    ∀ rgk, rgk ∈ l_SupportedKinds l → rgk = routeGroupKind k.
Proof.
  intros Hw Hl Hv. pose proof Hl as (ls & Hls & Heq)%Listeners_lookup.
  apply listener_valid in Hl as [_ Hl]. apply Hl in Hv as ((Hk & _) & _).
  rewrite Heq in *. clear Hl Heq l. unfold l_Protocol. simpl in *. unfold kindsOf in *. rewrite Hw in *.
  assert (∃ k, (ls_Protocol ls, k) ∈ [(HTTPProtocolType, KindHTTPRoute);
      (TLSProtocolType, KindTLSRoute); (TCPProtocolType, KindTCPRoute)] ∧
    tunnelKinds !! ls_Protocol ls = Some [k]) as (k & Hin & Hks).
  { destruct Hk as [ks Hk]. unfold tunnelKinds in *.
    repeat (apply lookup_insert_Some in Hk as [[<- <-]|[? Hk]];
      [eexists; split; [|by simplify_map_eq]; set_solver|]). done. }
  exists k. split; [done|]. intros rgk. rewrite Hks. simpl. unfold supportedKindsOf, supportsKind.
  case_match; [set_solver|]. intros (x & -> & Hr)%list_elem_of_fmap.
  apply list_elem_of_filter in Hr as [Hr _]. f_equal.
  apply andb_true_iff in Hr as [_ Hr%bool_decide_eq_true]. set_solver.
Qed.

Lemma resolveCertificate_sound ns ref sec :
  resolveCertificate ns (refsOf orefs) ref = inl sec →
  let ns' := namespace (sor_Namespace ref) ns in
  refersToSecret ref = true ∧
  Permitted (refsOf orefs) GatewayKind ns SecretKind ns' (sor_Name ref) = true ∧
  Secrets (refsOf orefs) !! {| nn_Namespace := ns'; nn_Name := sor_Name ref |} = Some sec ∧
  sec_Type sec = SecretTypeTLS ∧
  X509KeyPair (default "" (sec_Data sec !! TLSCertKey))
    (default "" (sec_Data sec !! TLSPrivateKeyKey)) = None.
Proof.
  unfold resolveCertificate, refersToSecret. simpl. intros Hr.
  repeat case_match; simplify_eq; str_simpl; split_and!; try done.
  apply andb_true_iff. split; by apply str_eqb_eq.
Qed.

Lemma resolveCertificateList_sound ns certRefs certs :
  resolveCertificateList ns (refsOf orefs) certRefs = inl certs →
  Forall2 (λ ref sec, resolveCertificate ns (refsOf orefs) ref = inl sec) certRefs certs.
Proof.
  revert certs. induction certRefs as [|ref certRefs IH]; intros certs; simpl.
  { intros [= <-]. constructor. }
  destruct (resolveCertificate _ _ ref) eqn:E; [|done].
  destruct (resolveCertificateList _ _ certRefs); [|done]. intros [= <-]. constructor; auto.
Qed.

(** A Secret a Gateway may terminate TLS with: a usable kubernetes.io/tls
    Secret that one of the listener's references names, in a namespace the
    reference is permitted to. *)
Definition usableCertificate (tls : ListenerTLSConfig) (sec : Secret) : Prop :=
  ∃ ref ns, ref ∈ tls_CertificateRefs tls ∧
    permittedSecretRef gw (refsOf orefs) ref ns ∧
    Secrets (refsOf orefs) !! {| nn_Namespace := ns; nn_Name := sor_Name ref |} = Some sec ∧
    sec_Type sec = SecretTypeTLS ∧
    X509KeyPair (default "" (sec_Data sec !! TLSCertKey))
      (default "" (sec_Data sec !! TLSPrivateKeyKey)) = None ∧
    ns ∈ CertificateNamespaces gw (refsOf orefs).

Lemma resolutionOf_certificates ls :
  (resolutionOf gw orefs ls).2 = [] ∨
  ∃ tls, Terminates ls = true ∧ ls_TLS ls = Some tls ∧
    resolveCertificates (gw_Namespace gw) (tls_CertificateRefs tls) (refsOf orefs)
      = inl (resolutionOf gw orefs ls).2.
Proof.
  unfold resolutionOf, resolveListener. set (r := match invalidKindsOf _ _ with [] => _ | _ => _ end).
  destruct (Terminates ls && _) eqn:E; [|by left].
  apply andb_true_iff in E as [E _]. destruct (ls_TLS ls) as [tls|]; [|by left].
  destruct (resolveCertificates _ _ _) eqn:Er; simpl; [|by left]. right. by exists tls.
Qed.

(** C5. A listener's certificates are Secrets its own references name, each
    in the Gateway's namespace or one whose ReferenceGrant lets the Gateway
    use it, and each in a namespace the operator asks to read Secrets in; a
    valid listener that terminates TLS has at least one. *)
Theorem certificates_permitted i l :
  Listeners gw orefs !! i = Some l →
  (∀ sec, sec ∈ l_Certificates l →
    ∃ tls, ls_TLS (l_Spec l) = Some tls ∧ Terminates (l_Spec l) = true ∧ usableCertificate tls sec) ∧
  (l_Valid l = true → Terminates (l_Spec l) = true → l_Certificates l ≠ []).
Proof.
  intros Hl. pose proof Hl as (ls & Hls & _)%Listeners_lookup.
  destruct (valid_iff _ _ _ _ _ Hls Hl) as (-> & Hcerts & _ & Hv). rewrite Hcerts. split.
  - intros sec Hsec. destruct (resolutionOf_certificates ls) as [Hnil|(tls & Ht & Htls & Hr)].
    { rewrite Hnil in Hsec. by apply not_elem_of_nil in Hsec. }
    exists tls. split_and!; [done..|].
    assert (resolveCertificateList (gw_Namespace gw) (refsOf orefs) (tls_CertificateRefs tls)
      = inl (resolutionOf gw orefs ls).2) as Hlist.
    { unfold resolveCertificates in Hr. by destruct (tls_CertificateRefs tls). }
    apply resolveCertificateList_sound in Hlist.
    apply list_elem_of_lookup in Hsec as [k Hk].
    destruct (Forall2_lookup_r _ _ _ _ _ Hlist Hk) as (ref & Href & Hres).
    apply list_elem_of_lookup_2 in Href.
    apply resolveCertificate_sound in Hres as (? & ? & ? & ? & ?).
    assert (permittedSecretRef gw (refsOf orefs) ref (namespace (sor_Namespace ref) (gw_Namespace gw)))
      as Hperm by done.
    exists ref, (namespace (sor_Namespace ref) (gw_Namespace gw)). split_and!; [done..|].
    apply CertificateNamespaces_iff. exists ls. split; [by eapply list_elem_of_lookup_2|].
    exists tls. split; [done|]. by exists ref.
  - rewrite Hv. intros (_ & _ & [Hinv Hc] & _) Ht.
    destruct (Hc Ht) as (tls & certs & Htls & Hr).
    unfold resolutionOf, resolveListener. rewrite Hinv, Ht, Htls. simpl. rewrite Hr. simpl.
    intros ->. unfold resolveCertificates in Hr.
    destruct (tls_CertificateRefs tls) as [|ref rs]; [done|]. simpl in Hr. by repeat case_match.
Qed.
End theorems.

(** ** Witnesses *)

Definition sampleX509 : X509 := {| X509KeyPair := λ cert key, if str_eqb cert "" then Some "no certificate" else None |}.

(** A Gateway with a privileged and an unprivileged HTTP listener, a pair that
    clashes, and a listener that terminates TLS with a Secret of its own
    namespace. *)
Definition listenersGateway : Gateway :=
  sampleGateway "infra" "gw"
    [sampleListener "http" "HTTP" 80 (Some "*.example.com"); sampleListener "alt" "HTTP" 8080 None;
     sampleListener "tcp-a" "TCP" 5432 None; sampleListener "tcp-b" "TCP" 5432 None;
     sampleTLSListener "tls" "TLS" 8443 "cert"].

Definition listenersRefs : References :=
  {| Namespaces := ∅; Grants := []; Services := ∅; Endpoints := ∅;
     Secrets := <[{| nn_Namespace := "infra"; nn_Name := "cert" |} := sampleTLSSecret "infra" "cert"]> ∅;
     Unreadable := ∅; WarpRouting := false |}.

Definition sampleListeners : list Listener :=
  @Listeners sampleX509 listenersGateway (Some listenersRefs).

Definition listenerAt (i : nat) : Listener :=
  default (setValid {| l_Spec := sampleListener "" "" 0 None; l_SupportedKinds := [];
    l_Conditions := []; l_Certificates := []; l_Valid := false |} false) (sampleListeners !! i).

Lemma Listeners_valid_spec_witness :
  @Listeners sampleX509 listenersGateway (Some listenersRefs) !! 0 = Some (listenerAt 0) ∧
  l_Valid (listenerAt 0) = true ∧
  portAvailable listenersGateway (l_Port (listenerAt 0)).
Proof.
  assert (@Listeners sampleX509 listenersGateway (Some listenersRefs) !! 0 = Some (listenerAt 0)) as Hl
    by (vm_compute; reflexivity).
  assert (l_Valid (listenerAt 0) = true) as Hv by (vm_compute; reflexivity).
  split; [exact Hl|]. split; [exact Hv|].
  apply (@Listeners_valid_spec sampleX509 listenersGateway (Some listenersRefs) 0 _ Hl) in Hv.
  apply Hv.
Defined.

Lemma valid_ports_bindable_witness :
  l_Valid (listenerAt 0) = true ∧ l_Valid (listenerAt 1) = true ∧
  ContainerPort (l_Port (listenerAt 0)) ≠ EnvoyAdminPort ∧
  ContainerPort (l_Port (listenerAt 0)) ≠ EnvoyReadinessPort ∧
  (ContainerPort (l_Port (listenerAt 0)) = ContainerPort (l_Port (listenerAt 1)) →
   l_Port (listenerAt 0) = l_Port (listenerAt 1)).
Proof.
  assert (l_Valid (listenerAt 0) = true) as H0 by (vm_compute; reflexivity).
  assert (l_Valid (listenerAt 1) = true) as H1 by (vm_compute; reflexivity).
  split; [exact H0|]. split; [exact H1|].
  apply (@valid_ports_bindable sampleX509 listenersGateway (Some listenersRefs) 0 1);
    [vm_compute; reflexivity|vm_compute; reflexivity|exact H0|exact H1].
Defined.

Lemma public_listeners_only_witness :
  WarpRouting (refsOf (Some listenersRefs)) = false ∧ l_Valid (listenerAt 1) = true ∧
  ∃ k, (l_Protocol (listenerAt 1), k) ∈ [(HTTPProtocolType, KindHTTPRoute);
          (TLSProtocolType, KindTLSRoute); (TCPProtocolType, KindTCPRoute)] ∧
    ∀ rgk, rgk ∈ l_SupportedKinds (listenerAt 1) → rgk = routeGroupKind k.
Proof.
  assert (l_Valid (listenerAt 1) = true) as H1 by (vm_compute; reflexivity).
  split; [reflexivity|]. split; [exact H1|].
  apply (@public_listeners_only sampleX509 listenersGateway (Some listenersRefs) 1);
    [reflexivity|vm_compute; reflexivity|exact H1].
Defined.

Lemma certificates_permitted_witness :
  l_Valid (listenerAt 4) = true ∧ l_Certificates (listenerAt 4) = [sampleTLSSecret "infra" "cert"] ∧
  (∀ sec, sec ∈ l_Certificates (listenerAt 4) →
    ∃ tls, ls_TLS (l_Spec (listenerAt 4)) = Some tls ∧ Terminates (l_Spec (listenerAt 4)) = true ∧
      @usableCertificate sampleX509 listenersGateway (Some listenersRefs) tls sec).
Proof.
  split; [vm_compute; reflexivity|]. split; [vm_compute; reflexivity|].
  apply (@certificates_permitted sampleX509 listenersGateway (Some listenersRefs) 4).
  vm_compute. reflexivity.
Defined.

(** Listeners that clash are both refused. *)
Example clashing_listeners_invalid :
  l_Valid <$> sampleListeners = [true; true; false; false; true].
Proof. vm_compute. reflexivity. Qed.
