(* ===== verification/Hosts.v ===== *)
(** * Hostname patterns (internal/gateway/model.go, internal/xds/translate.go)

    Which hosts a listener's or a route's hostname covers, how the two are
    intersected, and how specific a hostname is. Patterns ordered by what they
    cover form a forest: two patterns that cover one host are comparable. That
    is what lets an intersection be a list of patterns, and a most specific
    listener be chosen by length. *)
From S2P Require Import Prelude GatewayAPI.

#[local] Arguments String.append : simpl nomatch.

(** [matchesHost]: whether pattern covers host. *)
Definition matchesHost (pattern host : string) : bool :=
  if str_eqb pattern host then true
  else match cut_prefix "*." pattern with
  | None => false
  | Some rest =>
    match cut_suffix ("." +:+ rest) host with
    | Some prefix => negb (str_eqb prefix "")
    | None => false
    end
  end.

(** [HostCovers]. *)
Definition HostCovers (pattern host : string) : bool :=
  str_eqb pattern "*" || matchesHost pattern host.

(** The hostname of a listener, any host when it has none. *)
Definition listenerHost (listener : option string) : string :=
  match listener with
  | Some h => if str_eqb h "" then "*" else h
  | None => "*"
  end.

(** [intersect]: what one hostname of a route serves on the listener. *)
Definition intersectHost (lh rh : string) : option string :=
  if str_eqb lh "*" then Some rh
  else if matchesHost lh rh then Some rh
  else if matchesHost rh lh then Some lh
  else None.

Definition intersect (listener : option string) (route : list string) : list string :=
  let lh := listenerHost listener in
  match route with
  | [] => [lh]
  | _ => collect_once (intersectHost lh) route
  end.

(** [exactChars] and [moreSpecific] (internal/xds/translate.go). *)
Definition exactChars (host : string) : nat := String.length (trim_prefix "*" host).

Definition moreSpecific (a b : string) : bool :=
  bool_decide (cmp_or (Nat.compare (exactChars a) (exactChars b))
                      (Nat.compare (String.length a) (String.length b)) = Gt).

(** ** The order of hostname patterns *)

Lemma matchesHost_spec p h :
  matchesHost p h = true ↔
  p = h ∨ ∃ rest u, p = "*." +:+ rest ∧ h = u +:+ "." +:+ rest ∧ u ≠ "".
Proof.
  unfold matchesHost. destruct (str_eqb p h) eqn:E; str_simpl; [naive_solver|].
  destruct (cut_prefix "*." p) as [rest|] eqn:Ep.
  - apply cut_prefix_spec in Ep as ->. destruct (cut_suffix ("." +:+ rest) h) as [u|] eqn:Eh.
    + apply cut_suffix_spec in Eh as ->. rewrite negb_true_iff, str_eqb_neq.
      split; [by right; exists rest, u|]. intros [?|(rest' & u' & Hr & Hh & Hu)]; [done|].
      apply string_app_inj_r in Hr as <-. by apply string_app_inj_l in Hh as <-.
    + split; [done|]. intros [?|(rest' & u' & Hr & Hh & Hu)]; [done|].
      apply string_app_inj_r in Hr as <-. apply cut_suffix_spec in Hh. congruence.
  - split; [done|]. intros [?|(rest & u & -> & _)]; [done|].
    assert (cut_prefix "*." ("*." +:+ rest) = Some rest) by by apply cut_prefix_spec.
    congruence.
Qed.

(** A pattern as a relation on hosts, for rewriting. *)
Definition covers (p h : string) : Prop := HostCovers p h = true.

Lemma covers_spec p h : covers p h ↔ p = "*" ∨ matchesHost p h = true.
Proof. unfold covers, HostCovers. by rewrite orb_true_iff, str_eqb_eq. Qed.

Lemma wildcard_length rest u : u ≠ "" → 2 ≤ String.length (u +:+ "." +:+ rest).
Proof.
  intros Hu. rewrite !string_length_app. destruct u; [done|]. simpl. lia.
Qed.

Lemma matchesHost_star p : matchesHost p "*" = true → p = "*".
Proof.
  rewrite matchesHost_spec. intros [?|(rest & u & _ & Hh & Hu)]; [done|].
  pose proof (wildcard_length rest u Hu) as Hl. rewrite <- Hh in Hl. simpl in Hl. lia.
Qed.

Lemma matchesHost_trans p q x :
  matchesHost p q = true → matchesHost q x = true → matchesHost p x = true.
Proof.
  rewrite !matchesHost_spec.
  intros [->|(r1 & u1 & -> & -> & Hu1)]; [done|].
  intros [<-|(r2 & u2 & Hq & -> & Hu2)]; [right; by exists r1, u1|].
  change ("*." +:+ r2) with ("*" +:+ ("." +:+ r2)) in Hq.
  apply string_app_split in Hq as (w & -> & Hs).
  - right. exists r1, (u2 +:+ w). rewrite Hs, string_app_assoc. split_and!; [done..|].
    by destruct u2.
  - apply (f_equal String.length) in Hq. rewrite !string_length_app in *.
    destruct u1; [done|]. simpl in *. lia.
Qed.

#[export] Instance covers_preorder : PreOrder covers.
Proof.
  split.
  - intros p. apply covers_spec. right. apply matchesHost_spec. by left.
  - intros p q x. rewrite !covers_spec. intros [->|Hpq]; [by left|].
    intros [->|Hqx]; [apply matchesHost_star in Hpq; by left|].
    right. by eapply matchesHost_trans.
Qed.

(** Two patterns that cover one host are comparable. *)
Lemma covers_comparable p q x : covers p x → covers q x → covers p q ∨ covers q p.
Proof.
  rewrite !covers_spec, !matchesHost_spec.
  intros [->|[->|(r1 & u1 & -> & -> & Hu1)]]; [by left; left|by auto|].
  intros [->|[->|(r2 & u2 & -> & Hx & Hu2)]]; [by right; left|by left; right; right; exists r1, u1|].
  assert (∀ r1 u1 r2 u2, u1 +:+ ("." +:+ r1) = u2 +:+ ("." +:+ r2) →
    String.length r1 ≤ String.length r2 →
    r1 = r2 ∨ ∃ w, "." +:+ r2 = w +:+ "." +:+ r1) as Hsplit.
  { clear. intros r1 u1 r2 u2 Heq Hlen.
    apply string_app_split in Heq as (w & _ & Hw); [by eauto|]. rewrite !string_length_app. lia. }
  assert (∀ r1 r2 w, "." +:+ r2 = w +:+ "." +:+ r1 →
    "*." +:+ r2 = ("*" +:+ w) +:+ "." +:+ r1) as Hstar.
  { intros r1' r2' w Hw. change ("*." +:+ r2') with ("*" +:+ ("." +:+ r2')).
    by rewrite Hw, string_app_assoc. }
  destruct (decide (String.length r1 ≤ String.length r2)) as [Hl|Hl].
  - destruct (Hsplit _ _ _ _ Hx Hl) as [->|[w Hw]]; [by left; right; left|].
    left. right. right. exists r1, ("*" +:+ w). by rewrite (Hstar r1 r2 w).
  - symmetry in Hx. destruct (Hsplit _ _ _ _ Hx) as [->|[w Hw]]; [lia|by left; right; left|].
    right. right. right. exists r2, ("*" +:+ w). by rewrite (Hstar r2 r1 w).
Qed.


(** ** Intersections *)

Lemma intersectHost_covers lh rh h :
  intersectHost lh rh = Some h → covers lh h ∧ covers rh h.
Proof.
  unfold intersectHost. intros Hi. repeat case_match; simplify_eq; str_simpl; subst;
    (split; [reflexivity|apply covers_spec; by auto]) ||
    (split; [apply covers_spec; by auto|reflexivity]).
Qed.

Lemma intersectHost_complete lh rh x :
  rh ≠ "*" → covers lh x → covers rh x →
  ∃ h, intersectHost lh rh = Some h ∧ covers h x.
Proof.
  intros Hrh Hl Hr. unfold intersectHost.
  destruct (str_eqb lh "*") eqn:E; str_simpl; [by eauto|].
  destruct (matchesHost lh rh) eqn:E1; [by eauto|].
  destruct (matchesHost rh lh) eqn:E2; [by eauto|].
  destruct (covers_comparable lh rh x Hl Hr) as [H|H]; apply covers_spec in H as [?|?]; congruence.
Qed.

Lemma elem_of_intersect listener route h :
  h ∈ intersect listener route ↔
  match route with
  | [] => h = listenerHost listener
  | _ => ∃ rh, rh ∈ route ∧ intersectHost (listenerHost listener) rh = Some h
  end.
Proof.
  unfold intersect. destruct route; [by rewrite list_elem_of_singleton|].
  by rewrite elem_of_collect_once.
Qed.

Lemma NoDup_intersect listener route : NoDup (intersect listener route).
Proof. unfold intersect. destruct route; [apply NoDup_singleton|apply NoDup_collect_once]. Qed.

(** What a listener and a route both name: the route's hostnames narrow the
    listener's, and a route without any keeps it. *)
Definition bothServe (listener : option string) (route : list string) (x : string) : Prop :=
  covers (listenerHost listener) x ∧ (route = [] ∨ ∃ rh, rh ∈ route ∧ covers rh x).

Lemma intersect_covers listener route h x :
  h ∈ intersect listener route → covers h x → bothServe listener route x.
Proof.
  rewrite elem_of_intersect. unfold bothServe. destruct route as [|r0 route].
  { intros ->. auto. }
  intros (rh & Hin & [Hl Hr]%intersectHost_covers) Hx. split; [by transitivity h|].
  right. exists rh. split; [done|]. by transitivity h.
Qed.

(** The intersection of a listener's hostname with a route's hostnames has
    no repetition and serves a host exactly when the listener and some hostname
    of the route both cover it, a listener without a hostname covering every
    host and a route without hostnames adding no restriction. A route hostname
    is never the bare "*", which the Gateway API schema refuses. *)
Theorem intersect_spec listener route :
  "*" ∉ route →
  NoDup (intersect listener route) ∧
  ∀ x, (∃ h, h ∈ intersect listener route ∧ HostCovers h x = true) ↔ bothServe listener route x.
Proof.
  intros Hstar. split; [apply NoDup_intersect|]. intros x. split.
  - intros (h & Hin & Hx). by eapply intersect_covers.
  - intros [Hl Hr]. setoid_rewrite elem_of_intersect. destruct route as [|r0 route]; [by eauto|].
    destruct Hr as [|(rh & Hin & Hr)]; [done|].
    destruct (intersectHost_complete (listenerHost listener) rh x) as (h & Hh & Hx);
      [by intros ->|done|done|].
    exists h. split; [|done]. by exists rh.
Qed.

(** The theorem at a wildcard listener and a route that narrows it. *)
Lemma intersect_spec_witness :
  "*" ∉ ["a.example.com"; "other.org"; "*.db.example.com"] ∧
  NoDup (intersect (Some "*.example.com") ["a.example.com"; "other.org"; "*.db.example.com"]) ∧
  ∀ x, (∃ h, h ∈ intersect (Some "*.example.com") ["a.example.com"; "other.org"; "*.db.example.com"]
              ∧ HostCovers h x = true)
    ↔ bothServe (Some "*.example.com") ["a.example.com"; "other.org"; "*.db.example.com"] x.
Proof.
  assert ("*" ∉ ["a.example.com"; "other.org"; "*.db.example.com"]) as H by set_solver.
  split; [exact H|]. exact (intersect_spec (Some "*.example.com") _ H).
Defined.

Example intersect_example :
  intersect (Some "*.example.com") ["a.example.com"; "other.org"; "*.db.example.com"]
  = ["a.example.com"; "*.db.example.com"].
Proof. reflexivity. Qed.

(** ** Specificity *)

Lemma exactChars_bounds h : exactChars h ≤ String.length h ≤ S (exactChars h).
Proof.
  unfold exactChars, trim_prefix. destruct (cut_prefix "*" h) as [u|] eqn:E; simpl.
  - apply cut_prefix_spec in E as ->. simpl. lia.
  - lia.
Qed.

(** A pattern that covers another, different one has fewer exact characters. *)
Lemma covers_exactChars p h :
  covers p h → p ≠ h → h ≠ "" → exactChars p < exactChars h.
Proof.
  rewrite covers_spec, matchesHost_spec. intros Hc Hne Hnil.
  pose proof (exactChars_bounds h) as [Hb1 Hb2].
  assert (∀ a, a ≠ Ascii.ascii_of_nat 42 → ∀ s, exactChars (String a s) = S (String.length s)) as Hplain.
  { intros a Ha s. unfold exactChars, trim_prefix.
    destruct (cut_prefix "*" (String a s)) as [w|] eqn:E; [|done].
    apply cut_prefix_spec in E. by injection E as ->. }
  destruct Hc as [->|[->|(r & u & -> & -> & Hu)]]; [|done|].
  - change (exactChars "*") with 0. destruct h as [|a h]; [done|].
    destruct (decide (a = Ascii.ascii_of_nat 42)) as [->|Ha]; [|rewrite Hplain by done; lia].
    destruct h as [|b h]; [done|]. simpl in Hb2. lia.
  - change (exactChars ("*." +:+ r)) with (S (String.length r)).
    rewrite !string_length_app in Hb2. simpl in Hb2.
    destruct u as [|a u]; [done|]. destruct u as [|b u]; [|simpl in *; lia].
    destruct (decide (a = Ascii.ascii_of_nat 42)) as [->|Ha]; [done|].
    change (String a "" +:+ "." +:+ r) with (String a ("." +:+ r)).
    rewrite Hplain by done. simpl. lia.
Qed.

(** Of two patterns that cover one host, the one with no more exact characters
    covers the other. *)
Lemma less_specific_covers p q x :
  covers p x → covers q x → q ≠ "" → exactChars q ≤ exactChars p → p ≠ "" → covers q p.
Proof.
  intros Hp Hq Hqn Hle Hpn. destruct (covers_comparable p q x Hp Hq) as [H|H]; [|done].
  destruct (decide (p = q)) as [->|Hne]; [reflexivity|].
  pose proof (covers_exactChars p q H Hne Hqn). lia.
Qed.

Lemma moreSpecific_exactChars a b : moreSpecific a b = true → exactChars b ≤ exactChars a.
Proof.
  unfold moreSpecific. rewrite bool_decide_eq_true.
  destruct (Nat.compare_spec (exactChars a) (exactChars b)); simpl; [lia|done|lia].
Qed.

Lemma not_moreSpecific_exactChars a b : moreSpecific a b = false → exactChars a ≤ exactChars b.
Proof.
  unfold moreSpecific. rewrite bool_decide_eq_false.
  destruct (Nat.compare_spec (exactChars a) (exactChars b)); simpl; [lia|lia|done].
Qed.
