(* ===== verification/Model.v ===== *)
(** * The model of a Gateway (internal/gateway/model.go)

    A Gateway with its listeners validated and its routes attached and
    resolved: everything its status, its tunnel and its Envoy configuration
    derive from. *)
From S2P Require Import Prelude GatewayAPI Samples Refs Routes Envoy Listeners Hosts.

Definition h2cAppProtocol := "kubernetes.io/h2c".

Definition RouteConditionAccepted := "Accepted".
Definition RouteConditionResolvedRefs := "ResolvedRefs".

(** [metav1.LabelSelectorAsSelector]: a selector as a predicate on labels, or
    nothing for one that is malformed. *)
Class LabelSelectors := {
  LabelSelectorAsSelector : LabelSelector → option (gmap string string → bool)
}.

(** A Service port Envoy sends traffic to. *)
Record Cluster := {
  cl_Name : string;
  cl_Service : NamespacedName;
  cl_Port : ServicePort;
  cl_H2 : bool;
}.

(** One backendRef of a rule; a weight is an int32. *)
Record Backend := { b_Weight : Z; b_Cluster : option Cluster }.

(** How one parentRef of a route resolved: a nil map of hostnames is empty. *)
Record ParentResult := {
  pa_Ref : ParentReference;
  pa_Accepted : Condition;
  pa_Hostnames : gmap nat (list string);
}.

Record AttachedRoute := {
  at_Route : Route;
  at_Parents : list ParentResult;
  at_Backends : list (list Backend);
  at_ResolvedRefs : Condition;
}.

Record Model := {
  md_Gateway : Gateway;
  md_Listeners : list Listener;
  md_Routes : list AttachedRoute;
  md_AttachedRoutes : list Z;
}.

(** ** Attaching a route *)

(** Whether a listener is one the parentRef names. *)
Definition candidate (ref : ParentReference) (l : Listener) : bool :=
  if from_option (λ n, negb (str_eqb n (l_Name l))) false (pref_SectionName ref) then false
  else if from_option (λ p, negb (p =? l_Port l)%Z) false (pref_Port ref) then false
  else true.

Section attach.
Context `{LabelSelectors}.

(** [allowsNamespace]. *)
Definition allowsNamespace (l : ListenerSpec) (gwNamespace routeNamespace : string)
    (refs : References) : bool :=
  let namespaces := ls_AllowedRoutes l ≫= ar_Namespaces in
  let from := default "Same" (namespaces ≫= rn_From) in
  let selector := namespaces ≫= rn_Selector in
  if str_eqb from "All" then true
  else if str_eqb from "Selector" then
    match selector with
    | None => false
    | Some selector =>
      match LabelSelectorAsSelector selector with
      | None => false
      | Some matches => matches (namespaceLabels refs routeNamespace)
      end
    end
  else str_eqb gwNamespace routeNamespace.

(** [allowsKind]. *)
Definition allowsKind (l : Listener) (k : GroupKind) : bool :=
  existsb (λ rgk, str_eqb (group (rgk_Group rgk) GatewayGroupName) (gk_Group k)
                  && str_eqb (rgk_Kind rgk) (gk_Kind k)) (l_SupportedKinds l).

(** The state of [attach]'s loop. *)
Record AttachState := {
  as_candidates : nat;
  as_allowed : nat;
  as_Hostnames : gmap nat (list string);
}.

Definition attachStep (gwNamespace : string) (route : Route) (ref : ParentReference)
    (refs : References) (i : nat) (l : Listener) (st : AttachState) : AttachState :=
  if negb (candidate ref l) then st
  else
    let candidates := S (as_candidates st) in
    if negb (allowsNamespace (l_Spec l) gwNamespace (r_Namespace route) refs)
       || negb (allowsKind l (r_Kind route))
    then {| as_candidates := candidates; as_allowed := as_allowed st;
            as_Hostnames := as_Hostnames st |}
    else
      let listenerHost := if hasHostnames (l_Protocol l) then l_Hostname l else None in
      let hosts := intersect listenerHost (r_Hostnames route) in
      {| as_candidates := candidates; as_allowed := S (as_allowed st);
         as_Hostnames := match hosts with
                         | [] => as_Hostnames st
                         | _ => <[i := hosts]> (as_Hostnames st)
                         end |}.

Fixpoint attachLoop (gwNamespace : string) (route : Route) (ref : ParentReference)
    (refs : References) (i : nat) (ls : list Listener) (st : AttachState) : AttachState :=
  match ls with
  | [] => st
  | l :: ls =>
    attachLoop gwNamespace route ref refs (S i) ls (attachStep gwNamespace route ref refs i l st)
  end.

Definition rejected (ref : ParentReference) (reason message : string) : ParentResult :=
  {| pa_Ref := ref;
     pa_Accepted := mkCondition RouteConditionAccepted ConditionFalse reason message;
     pa_Hostnames := ∅ |}.

(** [Model.attach], of a model with listeners [ls] in a Gateway's namespace. *)
Definition attach (gwNamespace : string) (ls : list Listener) (route : Route)
    (ref : ParentReference) (refs : References) : ParentResult :=
  let st := attachLoop gwNamespace route ref refs 0 ls
    {| as_candidates := 0; as_allowed := 0; as_Hostnames := ∅ |} in
  if as_candidates st =? 0 then
    rejected ref "NoMatchingParent" "No listener matches the parentRef"
  else if as_allowed st =? 0 then
    rejected ref "NotAllowedByListeners"
      ("No matching listener allows a " +:+ gk_Kind (r_Kind route)
       +:+ " from namespace " +:+ r_Namespace route)
  else if bool_decide (as_Hostnames st = ∅) then
    rejected ref "NoMatchingListenerHostname"
      "None of the route's hostnames matches a listener's hostname"
  else
    {| pa_Ref := ref;
       pa_Accepted := mkCondition RouteConditionAccepted ConditionTrue "Accepted" "Route accepted";
       pa_Hostnames := as_Hostnames st |}.
End attach.

(** ** Resolving backends *)

Definition failBackend (reason message : string) : Condition :=
  mkCondition RouteConditionResolvedRefs ConditionFalse reason message.

Definition clusterH2 (grpc : bool) (port : ServicePort) : bool :=
  grpc || bool_decide (sp_AppProtocol port = Some h2cAppProtocol).

Definition clusterName (key : NamespacedName) (port : Z) (h2 : bool) : string :=
  nn_Namespace key +:+ "/" +:+ nn_Name key +:+ "/" +:+ fmt_d port
  +:+ (if h2 then "/h2" else "").

(** [resolveBackend]: the cluster, or the condition that says why not. *)
Definition resolveBackend (route : Route) (rule : Rule) (ref : BackendRef) (refs : References)
    : Cluster + Condition :=
  let g := group (br_Group ref) CoreGroupName in
  let k := kind (br_Kind ref) (gk_Kind ServiceKind) in
  let key := {| nn_Namespace := namespace (br_Namespace ref) (r_Namespace route);
                nn_Name := br_Name ref |} in
  if negb (str_eqb g (gk_Group ServiceKind)) || negb (str_eqb k (gk_Kind ServiceKind)) then
    inr (failBackend "InvalidKind"
      ("backendRef " +:+ g +:+ "/" +:+ k +:+ " " +:+ nn_string key +:+ " is not a Service"))
  else if negb (Permitted refs (r_Kind route) (r_Namespace route) ServiceKind
                  (nn_Namespace key) (nn_Name key)) then
    inr (failBackend "RefNotPermitted"
      ("No ReferenceGrant allows a " +:+ gk_Kind (r_Kind route) +:+ " in " +:+ r_Namespace route
       +:+ " to use Service " +:+ nn_string key))
  else match Services refs !! key with
  | None => inr (failBackend "BackendNotFound" ("Service " +:+ nn_string key +:+ " does not exist"))
  | Some svc =>
    if str_eqb (svc_Type svc) "ExternalName" then
      inr (failBackend "UnsupportedProtocol" ("Service " +:+ nn_string key
        +:+ " is an ExternalName Service, which is not supported"))
    else match br_Port ref with
    | None => inr (failBackend "BackendNotFound"
                ("backendRef to Service " +:+ nn_string key +:+ " has no port"))
    | Some p =>
      match List.find (λ port, (sp_Port port =? p)%Z) (svc_Ports svc) with
      | Some port =>
        let h2 := clusterH2 (ru_GRPC rule) port in
        inl {| cl_Name := clusterName key (sp_Port port) h2; cl_Service := key;
               cl_Port := port; cl_H2 := h2 |}
      | None => inr (failBackend "BackendNotFound"
                  ("Service " +:+ nn_string key +:+ " has no port " +:+ fmt_d p))
      end
    end
  end.

Definition routeRefsResolved : Condition :=
  mkCondition RouteConditionResolvedRefs ConditionTrue "ResolvedRefs" "References resolved".

(** One iteration of [resolveBackends]' inner loop, and the two loops. *)
Definition resolveStep (route : Route) (rule : Rule) (refs : References)
    (st : list Backend * Condition) (ref : BackendRef) : list Backend * Condition :=
  let weight := default 1%Z (br_Weight ref) in
  match resolveBackend route rule ref refs with
  | inl cluster => (st.1 ++ [{| b_Weight := weight; b_Cluster := Some cluster |}], st.2)
  | inr failed =>
    (st.1 ++ [{| b_Weight := weight; b_Cluster := None |}],
     if bool_decide (c_Status st.2 = ConditionTrue) then failed else st.2)
  end.

Fixpoint resolveRules (route : Route) (refs : References) (rules : list Rule)
    (resolved : Condition) : list (list Backend) * Condition :=
  match rules with
  | [] => ([], resolved)
  | rule :: rules =>
    let '(bs, resolved) := foldl (resolveStep route rule refs) ([], resolved) (ru_Backends rule) in
    let '(out, resolved) := resolveRules route refs rules resolved in
    (bs :: out, resolved)
  end.

Definition resolveBackends (route : Route) (refs : References) : list (list Backend) * Condition :=
  resolveRules route refs (r_Rules route) routeRefsResolved.

(** ** Building the model *)

Section build.
Context `{X509, LabelSelectors}.

(** What [Build] makes of a route that names the Gateway. *)
Definition attachRoute (gw : Gateway) (ls : list Listener) (refs : References) (route : Route)
    : AttachedRoute :=
  let parents := (λ ref, attach (gw_Namespace gw) ls route ref refs) <$>
    filter (λ ref, targets ref (r_Namespace route) gw = true) (r_ParentRefs route) in
  let '(backends, resolved) := resolveBackends route refs in
  {| at_Route := route; at_Parents := parents; at_Backends := backends;
     at_ResolvedRefs := resolved |}.

(** The listeners some parent of the route attached it to. *)
Definition attachedListeners (parents : list ParentResult) : gset nat :=
  foldl (λ acc result, acc ∪ dom (pa_Hostnames result)) ∅ parents.

Definition buildStep (gw : Gateway) (refs : References) (m : Model) (route : Route) : Model :=
  if negb (RefersTo route gw) then m
  else
    let attached := attachRoute gw (md_Listeners m) refs route in
    let listeners := attachedListeners (at_Parents attached) in
    {| md_Gateway := md_Gateway m;
       md_Listeners := md_Listeners m;
       md_Routes := md_Routes m ++ [attached];
       md_AttachedRoutes :=
         imap (λ i n, if bool_decide (i ∈ listeners) then wrap32 (n + 1) else n)
           (md_AttachedRoutes m) |}.

(** [Build]; a nil [refs] is the empty one. *)
Definition Build (gw : Gateway) (routes : list Route) (refs : option References) : Model :=
  let refs := default noReferences refs in
  let ls := Listeners gw (Some refs) in
  foldl (buildStep gw refs)
    {| md_Gateway := gw; md_Listeners := ls; md_Routes := [];
       md_AttachedRoutes := replicate (length ls) 0%Z |} routes.
End build.

(** ** What attaches *)

Section attach_props.
Context `{LabelSelectors} (gwNs : string) (route : Route) (ref : ParentReference)
  (refs : References).

(** A listener the parentRef names and that allows the route. *)
Definition allows (l : Listener) : bool :=
  candidate ref l && allowsNamespace (l_Spec l) gwNs (r_Namespace route) refs
  && allowsKind l (r_Kind route).

(** The hostnames the route serves on a listener. *)
Definition servedHosts (l : Listener) : list string :=
  intersect (if hasHostnames (l_Protocol l) then l_Hostname l else None) (r_Hostnames route).

(** The listener attaches the route, which then serves [hosts] on it. *)
Definition attaches (l : Listener) (hosts : list string) : Prop :=
  allows l = true ∧ hosts = servedHosts l ∧ hosts ≠ [].

Lemma attachStep_eq i l st :
  attachStep gwNs route ref refs i l st =
  {| as_candidates := (if candidate ref l then 1 else 0) + as_candidates st;
     as_allowed := (if allows l then 1 else 0) + as_allowed st;
     as_Hostnames := if allows l && negb (bool_decide (servedHosts l = []))
                     then <[i := servedHosts l]> (as_Hostnames st) else as_Hostnames st |}.
Proof.
  unfold attachStep, allows. fold (servedHosts l). destruct st as [c a h]; simpl.
  destruct (candidate ref l); simpl; [|done].
  destruct (allowsNamespace _ _ _ _); simpl; [|done].
  destruct (allowsKind _ _); simpl; [|done].
  by destruct (servedHosts l) eqn:E; rewrite ?E.
Qed.

Lemma attachLoop_counts ls i st :
  as_candidates (attachLoop gwNs route ref refs i ls st)
    = length (filter (λ l, candidate ref l = true) ls) + as_candidates st ∧
  as_allowed (attachLoop gwNs route ref refs i ls st)
    = length (filter (λ l, allows l = true) ls) + as_allowed st.
Proof.
  revert i st. induction ls as [|l ls IH]; intros i st; cbn [attachLoop]; [done|].
  rewrite !filter_cons. destruct (IH (S i) (attachStep gwNs route ref refs i l st)) as [-> ->].
  rewrite attachStep_eq. simpl.
  destruct (candidate ref l) eqn:Ec, (allows l) eqn:Ea; simpl; repeat case_decide; simpl; lia || done.
Qed.

Lemma attachLoop_hosts ls i st k hosts :
  (∀ k', k' ∈ dom (as_Hostnames st) → k' < i) →
  as_Hostnames (attachLoop gwNs route ref refs i ls st) !! k = Some hosts ↔
  as_Hostnames st !! k = Some hosts ∨
  ∃ j l, k = i + j ∧ ls !! j = Some l ∧ attaches l hosts.
Proof.
  revert i st. induction ls as [|l ls IH]; intros i st Hdom; cbn [attachLoop].
  { set_solver. }
  assert (∀ k', k' ∈ dom (as_Hostnames (attachStep gwNs route ref refs i l st)) → k' < S i) as Hdom'.
  { intros k'. rewrite attachStep_eq. simpl. destruct (_ && _).
    - rewrite dom_insert, elem_of_union, elem_of_singleton. intros [->|?%Hdom]; lia.
    - intros ?%Hdom. lia. }
  rewrite (IH _ _ Hdom'). rewrite attachStep_eq. simpl.
  assert ((∃ j l0, k = i + j ∧ (l :: ls) !! j = Some l0 ∧ attaches l0 hosts) ↔
    (k = i ∧ attaches l hosts) ∨ ∃ j l0, k = S i + j ∧ ls !! j = Some l0 ∧ attaches l0 hosts) as Hex.
  { split.
    - intros ([|j] & l0 & -> & Hl & Ha); simpl in *; [simplify_eq; left; split; [lia|done]|].
      right. exists j, l0. split; [lia|done].
    - intros [[-> Ha]|(j & l0 & -> & Hl & Ha)]; [exists 0, l|exists (S j), l0]; split; (lia || done). }
  rewrite Hex. unfold attaches at 2.
  assert (i ∉ dom (as_Hostnames st)) as Hi by (intros Hi%Hdom; lia).
  apply not_elem_of_dom in Hi.
  destruct (allows l); simpl; [|naive_solver].
  case_bool_decide as Hs; simpl; [naive_solver|].
  rewrite lookup_insert_Some. split; [naive_solver|].
  intros [Hk|[(-> & _ & -> & _)|?]]; [|naive_solver..].
  left. right. split; [intros ->; congruence|done].
Qed.

Lemma attach_hostnames ls k hosts :
  pa_Hostnames (attach gwNs ls route ref refs) !! k = Some hosts ↔
  ∃ l, ls !! k = Some l ∧ attaches l hosts.
Proof.
  unfold attach. set (st0 := Build_AttachState 0 0 ∅).
  destruct (attachLoop_counts ls 0 st0) as [Hc Ha].
  pose proof (attachLoop_hosts ls 0 st0 k hosts) as Hh.
  set (st := attachLoop gwNs route ref refs 0 ls st0) in *. simpl in *.
  rewrite Nat.add_0_r in Hc, Ha.
  assert (as_Hostnames st !! k = Some hosts ↔ ∃ l, ls !! k = Some l ∧ attaches l hosts) as Hst.
  { rewrite Hh by set_solver. rewrite lookup_empty. naive_solver. }
  assert (as_allowed st = 0 → as_Hostnames st !! k ≠ Some hosts) as Hnone.
  { rewrite Hst. intros H0 (l & Hl & Hal & _). rewrite Ha in H0. apply length_zero_iff_nil in H0.
    assert (l ∈ filter (λ l, allows l = true) ls) as Hin.
    { apply list_elem_of_filter. split; [done|]. by eapply list_elem_of_lookup_2. }
    rewrite H0 in Hin. set_solver. }
  assert (as_allowed st ≤ as_candidates st) as Hle.
  { rewrite Hc, Ha. clear. induction ls as [|l ls IH]; [done|]. rewrite !filter_cons.
    assert (allows l = true → candidate ref l = true) by (unfold allows; rewrite !andb_true_iff; tauto).
    repeat case_decide; simpl; tauto || lia. }
  rewrite <- Hst. destruct (Nat.eqb_spec (as_candidates st) 0); simpl.
  { rewrite lookup_empty. split; [done|]. intros H0. exfalso. apply Hnone in H0; [done|lia]. }
  destruct (Nat.eqb_spec (as_allowed st) 0); simpl.
  { rewrite lookup_empty. split; [done|]. intros H0. exfalso. by apply Hnone. }
  case_bool_decide as He; simpl; [by rewrite He|done].
Qed.

(** The reason of the Accepted condition. *)
Lemma attach_reason ls :
  c_Reason (pa_Accepted (attach gwNs ls route ref refs)) =
  if forallb (λ l, negb (candidate ref l)) ls then "NoMatchingParent"
  else if forallb (λ l, negb (allows l)) ls then "NotAllowedByListeners"
  else if bool_decide (pa_Hostnames (attach gwNs ls route ref refs) = ∅)
  then "NoMatchingListenerHostname" else "Accepted".
Proof.
  unfold attach. set (st0 := Build_AttachState 0 0 ∅).
  destruct (attachLoop_counts ls 0 st0) as [Hc Ha]. simpl in *. rewrite Nat.add_0_r in Hc, Ha.
  assert (∀ f : Listener → bool, forallb (λ l, negb (f l)) ls
    = (length (filter (λ l, f l = true) ls) =? 0)) as Hf.
  { intros f. clear. induction ls as [|l ls IH]; [done|]. rewrite filter_cons. simpl.
    destruct (f l); simpl; [done|exact IH]. }
  rewrite !Hf, <- Hc, <- Ha. set (st := attachLoop _ _ _ _ _ _ _).
  destruct (as_candidates st =? 0); [done|]. destruct (as_allowed st =? 0); [done|].
  case_bool_decide as He; simpl; [done|]. by rewrite bool_decide_eq_false_2.
Qed.

Lemma attach_status ls :
  c_Status (pa_Accepted (attach gwNs ls route ref refs)) = ConditionTrue ↔
  pa_Hostnames (attach gwNs ls route ref refs) ≠ ∅.
Proof.
  unfold attach. repeat case_match; simpl; try done.
  by match goal with E : bool_decide _ = false |- _ => apply bool_decide_eq_false in E end.
Qed.
End attach_props.

(** ** What attaching means

    Stated on the objects alone, as Gateway API describes it. *)

(** The namespace an optional namespace of a reference stands for. *)
Definition InNamespace (o : option string) (own ns : string) : Prop :=
  match o with None | Some "" => ns = own | Some n => ns = n end.

(** The listeners a parentRef names: by section and by port, when it gives them. *)
Definition Names (ref : ParentReference) (l : Listener) : Prop :=
  (∀ n, pref_SectionName ref = Some n → ls_Name (l_Spec l) = n) ∧
  (∀ p, pref_Port ref = Some p → ls_Port (l_Spec l) = p).

(** Where a listener says its routes come from. *)
Definition RoutesFrom (l : Listener) (from : string) (selector : option LabelSelector) : Prop :=
  ∃ ar rn, ls_AllowedRoutes (l_Spec l) = Some ar ∧ ar_Namespaces ar = Some rn ∧
    rn_From rn = Some from ∧ selector = rn_Selector rn.

(** The namespaces a listener takes routes from: all, those whose labels a
    selector matches, or else the Gateway's own. *)
Inductive AllowsNamespace `{LabelSelectors} (gwNs : string) (refs : References) (l : Listener) (ns : string) : Prop :=
  | from_all selector : RoutesFrom l "All" selector → AllowsNamespace gwNs refs l ns
  | from_selected selector matches :
      RoutesFrom l "Selector" (Some selector) → LabelSelectorAsSelector selector = Some matches →
      matches (default ∅ (Namespaces refs !! ns)) = true → AllowsNamespace gwNs refs l ns
  | from_same :
      (∀ from selector, RoutesFrom l from selector → from ≠ "All" ∧ from ≠ "Selector") →
      gwNs = ns → AllowsNamespace gwNs refs l ns.

Definition AllowsKind (l : Listener) (k : GroupKind) : Prop :=
  ∃ rgk, rgk ∈ l_SupportedKinds l ∧
    default "gateway.networking.k8s.io" (rgk_Group rgk) = gk_Group k ∧ rgk_Kind rgk = gk_Kind k.

(** A listener that takes a route a parentRef attaches to it. *)
Definition Allows `{LabelSelectors} (gwNs : string) (route : Route) (ref : ParentReference) (refs : References)
    (l : Listener) : Prop :=
  Names ref l ∧ AllowsNamespace gwNs refs l (r_Namespace route) ∧ AllowsKind l (r_Kind route).

(** The hosts of a listener, as a pattern: any, when it has no hostname, or when
    its protocol has none. *)
Definition ListenerHosts (l : Listener) (lh : string) : Prop :=
  let p := ls_Protocol (l_Spec l) in
  match ls_Hostname (l_Spec l) with
  | None | Some "" => lh = "*"
  | Some h => (p ≠ "TCP" ∧ p ≠ "UDP" ∧ lh = h) ∨ ((p = "TCP" ∨ p = "UDP") ∧ lh = "*")
  end.

(** A hostname stands for itself, and one with a leading wildcard also for every
    name that ends as it does. *)
Definition Matches (p h : string) : Prop :=
  p = h ∨ ∃ rest u, p = "*." +:+ rest ∧ h = u +:+ "." +:+ rest ∧ u ≠ "".

(** The hosts a route serves on a listener: the narrower of the listener's
    pattern and each of the route's, or the listener's own. *)
Definition Serves (route : Route) (l : Listener) (h : string) : Prop :=
  ∃ lh, ListenerHosts l lh ∧
    ((r_Hostnames route = [] ∧ h = lh) ∨
     ∃ rh, rh ∈ r_Hostnames route ∧
       (((lh = "*" ∨ Matches lh rh) ∧ h = rh) ∨
        (lh ≠ "*" ∧ ¬ Matches lh rh ∧ Matches rh lh ∧ h = lh))).

(** What a parentRef of a route comes to. *)
Record Attached `{LabelSelectors} (gwNs : string) (ls : list Listener) (route : Route) (refs : References)
    (ref : ParentReference) (result : ParentResult) : Prop := {
  attached_ref : pa_Ref result = ref;
  attached_hosts i hosts : pa_Hostnames result !! i = Some hosts →
    hosts ≠ [] ∧ NoDup hosts ∧
    ∃ l, ls !! i = Some l ∧ Allows gwNs route ref refs l ∧ ∀ h, h ∈ hosts ↔ Serves route l h;
  attached_all i l h : ls !! i = Some l → Allows gwNs route ref refs l → Serves route l h →
    is_Some (pa_Hostnames result !! i);
  attached_type : c_Type (pa_Accepted result) = "Accepted";
  attached_status : c_Status (pa_Accepted result) =
    if bool_decide (pa_Hostnames result = ∅) then ConditionFalse else ConditionTrue;
  attached_accepted : pa_Hostnames result ≠ ∅ → c_Reason (pa_Accepted result) = "Accepted";
  attached_nobody : (∀ l, l ∈ ls → ¬ Names ref l) → c_Reason (pa_Accepted result) = "NoMatchingParent";
  attached_refused : (∃ l, l ∈ ls ∧ Names ref l) → (∀ l, l ∈ ls → ¬ Allows gwNs route ref refs l) →
    c_Reason (pa_Accepted result) = "NotAllowedByListeners";
  attached_elsewhere : (∃ l, l ∈ ls ∧ Allows gwNs route ref refs l) → pa_Hostnames result = ∅ →
    c_Reason (pa_Accepted result) = "NoMatchingListenerHostname";
}.

Lemma candidate_Names ref l : candidate ref l = true ↔ Names ref l.
Proof.
  unfold candidate, Names, l_Name, l_Port.
  destruct (pref_SectionName ref) as [n|], (pref_Port ref) as [p|]; simpl;
    repeat (case_match; str_simpl); rewrite ?negb_true_iff, ?negb_false_iff, ?Z.eqb_eq, ?Z.eqb_neq in *;
    str_simpl; naive_solver.
Qed.

Lemma allowsNamespace_iff `{LabelSelectors} gwNs refs l ns :
  allowsNamespace (l_Spec l) gwNs ns refs = true ↔ AllowsNamespace gwNs refs l ns.
Proof.
  unfold allowsNamespace, namespaceLabels.
  destruct (ls_AllowedRoutes (l_Spec l) ≫= ar_Namespaces) as [rn|] eqn:Ern; cbn [default mbind option_bind];
    change (str_eqb "Same" "All") with false; change (str_eqb "Same" "Selector") with false; cbn iota.
  - assert (∀ from selector, RoutesFrom l from selector ↔ rn_From rn = Some from ∧ selector = rn_Selector rn) as Hf.
    { intros from selector. unfold RoutesFrom. apply bind_Some in Ern as (ar & Ear & Ern). naive_solver. }
    destruct (rn_From rn) as [from|] eqn:Ef; cbn [default id from_option];
      change (str_eqb "Same" "All") with false; change (str_eqb "Same" "Selector") with false; cbn iota.
    + destruct (str_eqb from "All") eqn:Ea; str_simpl; [split; [|done]; intros _; subst; eapply from_all; by apply Hf|].
      destruct (str_eqb from "Selector") eqn:Es; str_simpl.
      * subst. split.
        -- intros Hm. repeat case_match; try done. eapply from_selected; [by apply Hf|done|done].
        -- intros [? [[= ] _]%Hf|s m [_ Hs]%Hf Hm Ht|Hn _]; [|by destruct (Hn _ _ (proj2 (Hf _ _) (conj eq_refl eq_refl)))].
           by rewrite <- Hs, Hm.
      * split; [intros ->%str_eqb_eq; apply from_same; [|done]; intros ? ? [[= <-] _]%Hf; done|].
        intros [? [[= ->] _]%Hf|? ? [[= ->] _]%Hf _ _|_ ->]; [done..|]. apply str_eqb_refl.
    + split; [intros ->%str_eqb_eq; apply from_same; [|done]; by intros ? ? [? _]%Hf|].
      intros [? [? _]%Hf|? ? [? _]%Hf _ _|_ ->]; [done..|]. apply str_eqb_refl.
  - assert (∀ from selector, ¬ RoutesFrom l from selector) as Hf.
    { intros from selector (ar & rn & Ear & Ern' & _). rewrite Ear in Ern. simpl in Ern. congruence. }
    rewrite str_eqb_eq. split; [intros ->; apply from_same; [|done]; by intros ? ? ?%Hf|].
    by intros [? ?%Hf|? ? ?%Hf _ _|_ ->].
Qed.

Lemma allowsKind_iff l k : allowsKind l k = true ↔ AllowsKind l k.
Proof.
  unfold allowsKind, AllowsKind, group. rewrite existsb_spec. split; intros (rgk & Hin & Hr); exists rgk.
  - apply andb_true_iff in Hr as [?%str_eqb_eq ?%str_eqb_eq]. by split_and!.
  - destruct Hr as [Hg Hk]. split; [done|]. apply andb_true_iff. by rewrite !str_eqb_eq.
Qed.

Lemma allows_iff `{LabelSelectors} gwNs route ref refs l :
  allows gwNs route ref refs l = true ↔ Allows gwNs route ref refs l.
Proof.
  unfold allows, Allows. rewrite !andb_true_iff, candidate_Names, allowsNamespace_iff, allowsKind_iff. tauto.
Qed.

Lemma ListenerHosts_iff l lh :
  ListenerHosts l lh ↔ lh = listenerHost (if hasHostnames (l_Protocol l) then l_Hostname l else None).
Proof.
  unfold ListenerHosts, listenerHost, hasHostnames, l_Protocol, l_Hostname, TCPProtocolType, UDPProtocolType.
  destruct (ls_Hostname (l_Spec l)) as [h|]; [|by destruct (_ && _)].
  destruct (str_eqb (ls_Protocol _) "TCP") eqn:Et, (str_eqb (ls_Protocol _) "UDP") eqn:Eu; simpl; str_simpl;
    (destruct h; simpl; [done|naive_solver]).
Qed.

Lemma servedHosts_iff route l h : h ∈ servedHosts route l ↔ Serves route l h.
Proof.
  unfold servedHosts, Serves. setoid_rewrite ListenerHosts_iff.
  set (lh := listenerHost _). rewrite elem_of_intersect. fold lh.
  assert (∀ rh, intersectHost lh rh = Some h ↔
    ((lh = "*" ∨ Matches lh rh) ∧ h = rh) ∨ (lh ≠ "*" ∧ ¬ Matches lh rh ∧ Matches rh lh ∧ h = lh)) as Hi.
  { intros rh. unfold intersectHost. unfold Matches. rewrite <- !matchesHost_spec.
    destruct (str_eqb lh "*") eqn:Es; str_simpl; [naive_solver|].
    destruct (matchesHost lh rh) eqn:E1; [naive_solver|]. destruct (matchesHost rh lh) eqn:E2; naive_solver. }
  destruct (r_Hostnames route) as [|rh0 rhs].
  - split; [intros ->; exists lh; split; [done|by left]|].
    intros (? & -> & [[_ ->]|(rh & Hin & _)]); [done|]. by apply not_elem_of_nil in Hin.
  - split.
    + intros (rh & Hin & Hh%Hi). exists lh. split; [done|]. right. by exists rh.
    + intros (? & -> & [[? _]|(rh & Hin & Hh)]); [done|]. exists rh. split; [done|]. by apply Hi.
Qed.

Lemma attach_Attached `{LabelSelectors} gwNs ls route ref refs :
  Attached gwNs ls route refs ref (attach gwNs ls route ref refs).
Proof.
  pose proof (attach_hostnames gwNs route ref refs ls) as Hh.
  pose proof (attach_reason gwNs route ref refs ls) as Hr.
  pose proof (attach_status gwNs route ref refs ls) as Hs.
  assert (∀ (f : Listener → bool), forallb (λ l, negb (f l)) ls = true ↔ ∀ l, l ∈ ls → f l ≠ true) as Hall.
  { intros f. rewrite forallb_forall. setoid_rewrite list_elem_of_In. setoid_rewrite negb_true_iff.
    by setoid_rewrite not_true_iff_false. }
  assert (pa_Ref (attach gwNs ls route ref refs) = ref ∧ c_Type (pa_Accepted (attach gwNs ls route ref refs)) = "Accepted" ∧
    c_Status (pa_Accepted (attach gwNs ls route ref refs)) ≠ ConditionUnknown) as (Href & Hty & Hun).
  { unfold attach. by repeat case_match. }
  set (result := attach gwNs ls route ref refs) in *. split; [done| | |done| | | | |].
  - intros i hosts (l & Hl & Ha & -> & Hne)%Hh. split_and!; [done|apply NoDup_intersect|].
    exists l. split_and!; [done|by apply allows_iff|]. intros h. apply servedHosts_iff.
  - intros i l h Hl Ha%allows_iff Hse%servedHosts_iff. exists (servedHosts route l). apply Hh.
    exists l. split; [done|]. unfold attaches. split_and!; [done..|]. intros Hn. rewrite Hn in Hse. by apply not_elem_of_nil in Hse.
  - case_bool_decide as He; [|by apply Hs]. destruct (c_Status _); [by destruct (proj1 Hs eq_refl)|done..].
  - intros Hne. rewrite Hr. apply map_choose in Hne as (i & hosts & (l & Hl & Ha & Hrest)%Hh).
    assert (l ∈ ls) by by eapply list_elem_of_lookup_2.
    destruct (forallb (λ l, negb (candidate ref l)) ls) eqn:E1.
    { rewrite Hall in E1. destruct (E1 l); [done|]. apply candidate_Names. by apply allows_iff in Ha as [? _]. }
    destruct (forallb (λ l, negb (allows gwNs route ref refs l)) ls) eqn:E2.
    { rewrite Hall in E2. by destruct (E2 l). }
    rewrite bool_decide_eq_false_2; [done|]. intros He. eapply (lookup_empty_Some (M := gmap nat)).
    rewrite <- He. by apply Hh; exists l.
  - intros Hn. rewrite Hr. rewrite (proj2 (Hall _)); [done|]. intros l Hin ?%candidate_Names. by apply (Hn l).
  - intros (l & Hin & Hl%candidate_Names) Hn. rewrite Hr.
    rewrite (not_true_is_false (forallb (λ l, negb (candidate ref l)) ls)); [|rewrite Hall; intros Hc; by apply (Hc l)].
    rewrite (proj2 (Hall _)); [done|]. intros l' Hin' ?%allows_iff. by apply (Hn l').
  - intros (l & Hin & Hl) He. rewrite Hr, He.
    rewrite (not_true_is_false (forallb (λ l, negb (candidate ref l)) ls));
      [|rewrite Hall; intros Hc; apply (Hc l); [done|by apply candidate_Names, Hl]].
    rewrite (not_true_is_false (forallb _ ls)); [|rewrite Hall; intros Hc; apply (Hc l); [done|by apply allows_iff]].
    by rewrite bool_decide_eq_true_2.
Qed.

(** C6. A parentRef attaches a route to exactly the listeners it names, by section
    and by port where it gives them, that take routes of the route's namespace
    (any, those a label selector matches, or by default the Gateway's own) and of
    its kind, and that share a host with it; and it serves there, each once, the
    narrower of the listener's hostname and each of the route's, or the
    listener's when the route has none. It is accepted when that is at least one
    listener; otherwise the reason tells whether it names no listener, none of
    those it names takes the route, or none of those shares a host with it. *)
Theorem attach_spec `{LabelSelectors} gwNs ls route ref refs :
  Attached gwNs ls route refs ref (attach gwNs ls route ref refs).
Proof. apply attach_Attached. Qed.

(** ** The model as a whole *)

Section build_props.
Context `{X509, LabelSelectors} (gw : Gateway) (refs : References).

Lemma elem_of_attachedListeners parents i :
  i ∈ attachedListeners parents ↔ ∃ result, result ∈ parents ∧ is_Some (pa_Hostnames result !! i).
Proof.
  unfold attachedListeners.
  assert (∀ acc, i ∈ foldl (λ acc result, acc ∪ dom (pa_Hostnames result)) acc parents ↔
    i ∈ acc ∨ ∃ result, result ∈ parents ∧ is_Some (pa_Hostnames result !! i)) as ->; [|set_solver].
  induction parents as [|p ps IH]; intros acc; simpl; [set_solver|].
  rewrite IH, elem_of_union, elem_of_dom. setoid_rewrite elem_of_cons. naive_solver.
Qed.

(** Whether a route is attached to listener [i] through some parent. *)
Definition attachedAt (ls : list Listener) (i : nat) (route : Route) : bool :=
  existsb (λ ref, targets ref (r_Namespace route) gw
                  && bool_decide (is_Some (pa_Hostnames (attach (gw_Namespace gw) ls route ref refs) !! i)))
    (r_ParentRefs route).

Lemma attachedAt_spec ls i route :
  attachedAt ls i route = bool_decide (i ∈ attachedListeners (at_Parents (attachRoute gw ls refs route))).
Proof.
  apply eq_true_iff_eq. rewrite bool_decide_eq_true, elem_of_attachedListeners.
  unfold attachedAt, attachRoute. rewrite existsb_spec.
  destruct (resolveBackends _ _). simpl. split.
  - intros (ref & Hin & [Ht Hs%bool_decide_eq_true]%andb_true_iff).
    exists (attach (gw_Namespace gw) ls route ref refs). split; [|exact Hs].
    apply (list_elem_of_fmap_2 (λ ref, attach (gw_Namespace gw) ls route ref refs)).
    by apply list_elem_of_filter.
  - intros (result & (ref & -> & [Ht Hin]%list_elem_of_filter)%list_elem_of_fmap_1 & Hs).
    exists ref. split; [done|]. by rewrite Ht, bool_decide_eq_true_2.
Qed.

Lemma attachedAt_refers ls i route : attachedAt ls i route = true → RefersTo route gw = true.
Proof.
  unfold attachedAt, RefersTo. rewrite !existsb_spec.
  intros (ref & Hin & [Ht _]%andb_true_iff). eauto.
Qed.

Definition buildFrom (ls : list Listener) (m : Model) (routes : list Route) : Model :=
  {| md_Gateway := gw; md_Listeners := ls;
     md_Routes := md_Routes m ++
       (attachRoute gw ls refs <$> filter (λ r, RefersTo r gw = true) routes);
     md_AttachedRoutes := imap (λ i n,
       wrap32 (n + Z.of_nat (length (filter (λ r, attachedAt ls i r = true) routes))))
       (md_AttachedRoutes m) |}.

Lemma buildFold_eq routes m :
  md_Gateway m = gw → (∀ i n, md_AttachedRoutes m !! i = Some n → wrap32 n = n) →
  foldl (buildStep gw refs) m routes = buildFrom (md_Listeners m) m routes.
Proof.
  revert m. induction routes as [|r routes IH]; intros m Hgw Hwrap; cbn [foldl].
  { unfold buildFrom. destruct m as [g ls rs ns]; simpl in *. subst g. f_equal; [by rewrite app_nil_r|].
    apply list_eq. intros i. rewrite list_lookup_imap.
    destruct (ns !! i) eqn:E; simpl; [|done]. rewrite Z.add_0_r. by rewrite (Hwrap i). }
  unfold buildStep at 2. destruct (RefersTo r gw) eqn:Er; simpl.
  - rewrite IH; simpl; [|done|].
    + unfold buildFrom. simpl. f_equal.
      * by rewrite filter_cons_True, fmap_cons, <- app_assoc.
      * apply list_eq. intros i. rewrite !list_lookup_imap.
        destruct (md_AttachedRoutes m !! i) as [n|]; simpl; [|done]. f_equal.
        rewrite filter_cons. pose proof (attachedAt_spec (md_Listeners m) i r) as Ha.
        destruct (bool_decide (i ∈ _)) eqn:E; simpl; rewrite <- Ha in *.
        -- rewrite decide_True by done. rewrite wrap32_add. simpl. f_equal. lia.
        -- rewrite decide_False by congruence. done.
    + intros i n. rewrite list_lookup_imap. intros (n' & Hn & ->)%fmap_Some_1.
      case_bool_decide; [|by eapply Hwrap]. pose proof (wrap32_add (n' + 1) 0) as Hw.
      by rewrite !Z.add_0_r in Hw.
  - rewrite (IH m Hgw Hwrap). unfold buildFrom. f_equal.
    + by rewrite filter_cons_False by congruence.
    + apply imap_ext. intros i n _. rewrite filter_cons_False; [done|].
      intros Ha%attachedAt_refers. congruence.
Qed.
End build_props.

Lemma Build_eq `{X509, LabelSelectors} gw routes refs :
  let r := default noReferences refs in
  let ls := Listeners gw (Some r) in
  Build gw routes refs =
  buildFrom gw r ls {| md_Gateway := gw; md_Listeners := ls; md_Routes := [];
                       md_AttachedRoutes := replicate (length ls) 0%Z |} routes.
Proof.
  intros r ls. unfold Build. fold r. fold ls. rewrite buildFold_eq; [done|done|].
  simpl. intros i n [-> _]%lookup_replicate. by rewrite wrap32_id.
Qed.

(** ** What the model holds *)

(** The parentRefs of a route in a namespace that name the Gateway. *)
Definition NamesGateway (gw : Gateway) (ns : string) (ref : ParentReference) : Prop :=
  default "gateway.networking.k8s.io" (pref_Group ref) = "gateway.networking.k8s.io" ∧
  default "Gateway" (pref_Kind ref) = "Gateway" ∧
  InNamespace (pref_Namespace ref) ns (om_Namespace (gw_ObjectMeta gw)) ∧
  pref_Name ref = om_Name (gw_ObjectMeta gw).

#[export] Instance InNamespace_dec o own ns : Decision (InNamespace o own ns).
Proof. unfold InNamespace. destruct o as [[]|]; apply _. Defined.

#[export] Instance NamesGateway_dec gw ns ref : Decision (NamesGateway gw ns ref).
Proof. unfold NamesGateway. apply _. Defined.

(** A backendRef to a Service, the one of this name in this namespace, which the
    route may refer to. *)
Definition RefersToService (ref : BackendRef) : Prop :=
  default "" (br_Group ref) = "" ∧ default "Service" (br_Kind ref) = "Service".

Definition RefersToKey (route : Route) (ref : BackendRef) (key : NamespacedName) : Prop :=
  RefersToService ref ∧ InNamespace (br_Namespace ref) (r_Namespace route) (nn_Namespace key) ∧ nn_Name key = br_Name ref.

Definition MayRefer (route : Route) (refs : References) (key : NamespacedName) : Prop :=
  r_Namespace route = nn_Namespace key ∨
  granted (Grants refs) (r_Kind route) (r_Namespace route) {| gk_Group := ""; gk_Kind := "Service" |}
    (nn_Namespace key) (nn_Name key).

(** The cluster a backendRef resolves to: the first port of that number of a
    Service that is not an ExternalName. *)
Record ResolvesTo (route : Route) (refs : References) (rule : Rule) (ref : BackendRef) (c : Cluster) : Prop := {
  resolves_key : RefersToKey route ref (cl_Service c);
  resolves_permitted : MayRefer route refs (cl_Service c);
  resolves_service : ∃ svc before after, Services refs !! cl_Service c = Some svc ∧ svc_Type svc ≠ "ExternalName" ∧
    svc_Ports svc = before ++ cl_Port c :: after ∧ br_Port ref = Some (sp_Port (cl_Port c)) ∧
    Forall (λ port, sp_Port port ≠ sp_Port (cl_Port c)) before;
  resolves_h2 : cl_H2 c = true ↔ ru_GRPC rule = true ∨ sp_AppProtocol (cl_Port c) = Some "kubernetes.io/h2c";
  resolves_name : cl_Name c = nn_Namespace (cl_Service c) +:+ "/" +:+ nn_Name (cl_Service c) +:+ "/"
    +:+ fmt_d (sp_Port (cl_Port c)) +:+ (if cl_H2 c then "/h2" else "");
}.

(** Why a backendRef resolves to nothing. *)
Inductive Unresolved (route : Route) (refs : References) (ref : BackendRef) : string → Prop :=
  | not_service : ¬ RefersToService ref → Unresolved route refs ref "InvalidKind"
  | not_permitted key : RefersToKey route ref key → ¬ MayRefer route refs key → Unresolved route refs ref "RefNotPermitted"
  | no_service key : RefersToKey route ref key → MayRefer route refs key → Services refs !! key = None →
      Unresolved route refs ref "BackendNotFound"
  | external_service key svc : RefersToKey route ref key → MayRefer route refs key → Services refs !! key = Some svc →
      svc_Type svc = "ExternalName" → Unresolved route refs ref "UnsupportedProtocol"
  | no_port key svc : RefersToKey route ref key → MayRefer route refs key → Services refs !! key = Some svc →
      svc_Type svc ≠ "ExternalName" → (∀ port, port ∈ svc_Ports svc → br_Port ref ≠ Some (sp_Port port)) →
      Unresolved route refs ref "BackendNotFound".

(** What the backendRefs of a route come to, in place. *)
Definition Resolved (route : Route) (refs : References) (rule : Rule) (ref : BackendRef) (b : Backend) : Prop :=
  b_Weight b = default 1%Z (br_Weight ref) ∧ ∀ c, b_Cluster b = Some c ↔ ResolvesTo route refs rule ref c.

Definition ruleRefs (rule : Rule) : list (Rule * BackendRef) := pair rule <$> ru_Backends rule.

(** The condition that tells whether they all resolve, or why the first that does
    not does not. *)
Definition RefsCondition (route : Route) (refs : References) (c : Condition) : Prop :=
  c_Type c = "ResolvedRefs" ∧
  ((c_Status c = ConditionTrue ∧
      ∀ rule ref, rule ∈ r_Rules route → ref ∈ ru_Backends rule → ∃ cl, ResolvesTo route refs rule ref cl) ∨
   (c_Status c = ConditionFalse ∧ ∃ before rule ref after,
      r_Rules route ≫= ruleRefs = before ++ (rule, ref) :: after ∧
      Forall (λ rr, ∃ cl, ResolvesTo route refs rr.1 rr.2 cl) before ∧ Unresolved route refs ref (c_Reason c))).

(** What the model holds of a route. *)
Record AttachedTo `{LabelSelectors} (gw : Gateway) (ls : list Listener) (refs : References) (a : AttachedRoute) : Prop := {
  at_parents : Forall2 (Attached (om_Namespace (gw_ObjectMeta gw)) ls (at_Route a) refs)
    (filter (NamesGateway gw (r_Namespace (at_Route a))) (r_ParentRefs (at_Route a))) (at_Parents a);
  at_backends : Forall2 (λ rule bs, Forall2 (Resolved (at_Route a) refs rule) (ru_Backends rule) bs)
    (r_Rules (at_Route a)) (at_Backends a);
  at_condition : RefsCondition (at_Route a) refs (at_ResolvedRefs a);
}.

(** ** Backends *)

(** The Service a backendRef names, when its kind is Service. *)
Definition backendKey (route : Route) (ref : BackendRef) : NamespacedName :=
  {| nn_Namespace := namespace (br_Namespace ref) (r_Namespace route); nn_Name := br_Name ref |}.

(** What makes a backendRef resolve to a cluster. *)
Definition resolvesTo (route : Route) (rule : Rule) (ref : BackendRef) (refs : References)
    (c : Cluster) : Prop :=
  group (br_Group ref) CoreGroupName = gk_Group ServiceKind ∧
  kind (br_Kind ref) (gk_Kind ServiceKind) = gk_Kind ServiceKind ∧
  Permitted refs (r_Kind route) (r_Namespace route) ServiceKind
    (nn_Namespace (backendKey route ref)) (br_Name ref) = true ∧
  ∃ svc p, Services refs !! backendKey route ref = Some svc ∧ svc_Type svc ≠ "ExternalName" ∧
    br_Port ref = Some p ∧
    List.find (λ port, (sp_Port port =? p)%Z) (svc_Ports svc) = Some (cl_Port c) ∧
    cl_Service c = backendKey route ref ∧
    cl_H2 c = clusterH2 (ru_GRPC rule) (cl_Port c) ∧
    cl_Name c = clusterName (cl_Service c) (sp_Port (cl_Port c)) (cl_H2 c).

Lemma resolveBackend_inl route rule ref refs c :
  resolveBackend route rule ref refs = inl c ↔ resolvesTo route rule ref refs c.
Proof.
  unfold resolveBackend, resolvesTo. fold (backendKey route ref). simpl.
  destruct (str_eqb (group _ _) _) eqn:Eg; str_simpl; simpl; [|split; [done|intros (? & _); congruence]].
  destruct (str_eqb (kind _ _) _) eqn:Ek; str_simpl; simpl; [|split; [done|intros (_ & ? & _); congruence]].
  destruct (Permitted _ _ _ _ _ _) eqn:Ep; simpl; [|split; [done|intros (_ & _ & ? & _); congruence]].
  destruct (Services refs !! _) as [svc|] eqn:Es; [|split; [done|naive_solver]].
  destruct (str_eqb (svc_Type svc) _) eqn:Et; str_simpl; [split; [done|naive_solver]|].
  destruct (br_Port ref) as [p|]; [|split; [done|naive_solver]].
  destruct (List.find _ _) as [port|] eqn:Ef.
  - split.
    + intros [= <-]. split_and!; [done..|]. exists svc, p. by split_and!.
    + intros (_ & _ & _ & svc' & p' & [= <-] & _ & [= <-] & Hp & Hs & Hh & Hn).
      destruct c as [n s cp h]; simpl in *. simplify_eq. by subst.
  - split; [done|]. intros (_ & _ & _ & svc' & p' & [= <-] & _ & [= <-] & Hp & _). congruence.
Qed.

Lemma resolveBackend_inr route rule ref refs c :
  resolveBackend route rule ref refs = inr c →
  c_Type c = RouteConditionResolvedRefs ∧ c_Status c = ConditionFalse.
Proof. unfold resolveBackend. intros. repeat case_match; by simplify_eq. Qed.

(** A backend as [resolveBackends] leaves it, and why it failed. *)
Definition backendOf (route : Route) (rule : Rule) (refs : References) (ref : BackendRef) : Backend :=
  {| b_Weight := default 1%Z (br_Weight ref);
     b_Cluster := match resolveBackend route rule ref refs with inl c => Some c | inr _ => None end |}.

Definition failureOf (route : Route) (refs : References) (rr : Rule * BackendRef) : option Condition :=
  match resolveBackend route rr.1 rr.2 refs with inl _ => None | inr c => Some c end.

(** The condition once some failures have been met. *)
Definition afterFailures (resolved : Condition) (failures : list Condition) : Condition :=
  if bool_decide (c_Status resolved = ConditionTrue) then default resolved (head failures) else resolved.

Lemma afterFailures_app resolved f1 f2 :
  Forall (λ c, c_Status c = ConditionFalse) f1 →
  afterFailures (afterFailures resolved f1) f2 = afterFailures resolved (f1 ++ f2).
Proof.
  intros Hf. unfold afterFailures. destruct (bool_decide (c_Status resolved = _)) eqn:Hr; [|by rewrite Hr].
  destruct f1 as [|c f1]; simpl; [by rewrite Hr|].
  apply Forall_cons in Hf as [Hc _]. by rewrite Hc.
Qed.

Lemma failures_False route refs l :
  Forall (λ c, c_Status c = ConditionFalse) (omap (failureOf route refs) l).
Proof.
  apply Forall_forall. intros c (rr & _ & Hf)%list_elem_of_omap.
  unfold failureOf in Hf. destruct (resolveBackend _ _ _ _) eqn:E; simplify_eq.
  by apply resolveBackend_inr in E as [_ ?].
Qed.

Lemma resolveStep_eq route rule refs bs resolved ref :
  resolveStep route rule refs (bs, resolved) ref =
  (bs ++ [backendOf route rule refs ref],
   afterFailures resolved (option_list (failureOf route refs (rule, ref)))).
Proof.
  unfold resolveStep, backendOf, failureOf, afterFailures. simpl.
  destruct (resolveBackend route rule ref refs); simpl; [by case_bool_decide|done].
Qed.

Lemma resolveStep_fold route rule refs l bs resolved :
  foldl (resolveStep route rule refs) (bs, resolved) l =
  (bs ++ (backendOf route rule refs <$> l),
   afterFailures resolved (omap (failureOf route refs) (pair rule <$> l))).
Proof.
  revert bs resolved. induction l as [|ref l IH]; intros bs resolved; cbn [foldl].
  { rewrite app_nil_r. unfold afterFailures. simpl. by case_bool_decide. }
  rewrite resolveStep_eq, IH, <- app_assoc, afterFailures_app.
  - rewrite fmap_cons. simpl. by destruct (failureOf route refs (rule, ref)).
  - pose proof (failures_False route refs [(rule, ref)]) as Hf. simpl in Hf.
    by destruct (failureOf route refs (rule, ref)).
Qed.

Lemma resolveRules_eq route refs rules resolved :
  resolveRules route refs rules resolved =
  ((λ rule, backendOf route rule refs <$> ru_Backends rule) <$> rules,
   afterFailures resolved (omap (failureOf route refs) (rules ≫= ruleRefs))).
Proof.
  revert resolved. induction rules as [|rule rules IH]; intros resolved; cbn [resolveRules].
  { unfold afterFailures. simpl. by case_bool_decide. }
  rewrite resolveStep_fold, IH. simpl. f_equal.
  rewrite omap_app, afterFailures_app by apply failures_False. done.
Qed.

Lemma resolveBackends_eq route refs :
  resolveBackends route refs =
  ((λ rule, backendOf route rule refs <$> ru_Backends rule) <$> r_Rules route,
   default routeRefsResolved (head (omap (failureOf route refs) (r_Rules route ≫= ruleRefs)))).
Proof. unfold resolveBackends. by rewrite resolveRules_eq. Qed.

(** Every backendRef of every rule is kept, in place, with its weight or 1;
    it has a cluster exactly when it names a Service port that exists, on a
    Service that is no ExternalName and that the route is permitted to refer to.
    The route's ResolvedRefs condition is true exactly when all of them have
    one, and otherwise is that of the first that has none. *)
Theorem resolveBackends_spec route refs :
  let result := resolveBackends route refs in
  result.1 = (λ rule, backendOf route rule refs <$> ru_Backends rule) <$> r_Rules route ∧
  (∀ rule ref c, b_Cluster (backendOf route rule refs ref) = Some c ↔ resolvesTo route rule ref refs c) ∧
  (c_Status result.2 = ConditionTrue ↔
     ∀ rule ref, rule ∈ r_Rules route → ref ∈ ru_Backends rule →
       is_Some (b_Cluster (backendOf route rule refs ref))) ∧
  (c_Status result.2 ≠ ConditionTrue →
     head (omap (failureOf route refs) (r_Rules route ≫= ruleRefs)) = Some result.2).
Proof.
  rewrite resolveBackends_eq. cbv zeta. cbn [fst snd].
  pose proof (failures_False route refs (r_Rules route ≫= ruleRefs)) as HF.
  assert (∀ rule ref c, b_Cluster (backendOf route rule refs ref) = Some c ↔
    resolvesTo route rule ref refs c) as Hc.
  { intros rule ref c. rewrite <- resolveBackend_inl. unfold backendOf. simpl.
    destruct (resolveBackend _ _ _ _); naive_solver. }
  split_and!; [done|done| |].
  - destruct (omap _ _) as [|c l] eqn:E; simpl.
    + split; [|done]. intros _ rule ref Hru Href. unfold backendOf. simpl.
      destruct (resolveBackend route rule ref refs) as [c|c] eqn:Er; [by eexists|].
      assert (c ∈ omap (failureOf route refs) (r_Rules route ≫= ruleRefs)) as Hin; [|by rewrite E in Hin; apply not_elem_of_nil in Hin].
      apply list_elem_of_omap. exists (rule, ref). unfold failureOf. simpl. rewrite Er.
      split; [|done]. apply list_elem_of_bind. exists rule. split; [|done].
      by apply (list_elem_of_fmap_2 (pair rule)).
    + apply Forall_cons in HF as [HF _]. rewrite HF. split; [done|]. intros Hall.
      assert (c ∈ omap (failureOf route refs) (r_Rules route ≫= ruleRefs)) as Hin by (rewrite E; left).
      apply list_elem_of_omap in Hin as ([rule ref] & Hin & Hf).
      apply list_elem_of_bind in Hin as (rule' & (ref' & [= -> ->] & Href)%list_elem_of_fmap_1 & Hru).
      destruct (Hall rule' ref' Hru Href) as [c' Hc']. unfold backendOf in Hc'. simpl in Hc'.
      unfold failureOf in Hf. simpl in Hf. by destruct (resolveBackend _ _ _ _).
  - destruct (head _) as [c|]; simpl; [done|]. by intros [].
Qed.

(** ** The model is what it should be *)

Lemma targets_NamesGateway gw ns ref : targets ref ns gw = true ↔ NamesGateway gw ns ref.
Proof.
  unfold targets, NamesGateway, group, kind, namespace, InNamespace, gw_Namespace, gw_Name.
  rewrite !andb_true_iff, !str_eqb_eq. simpl. destruct (pref_Namespace ref) as [[]|]; simpl; naive_solver.
Qed.

Lemma namespace_InNamespace o own ns : namespace o own = ns ↔ InNamespace o own ns.
Proof. unfold namespace, InNamespace. destruct o as [[]|]; simpl; naive_solver. Qed.

Lemma RefersToKey_iff route ref key :
  RefersToKey route ref key ↔ RefersToService ref ∧ key = backendKey route ref.
Proof.
  unfold RefersToKey, backendKey. rewrite <- namespace_InNamespace. destruct key as [ns n]; simpl. naive_solver.
Qed.

Lemma find_first {A} (f : A → bool) l x :
  List.find f l = Some x ↔ ∃ before after, l = before ++ x :: after ∧ f x = true ∧ Forall (λ y, f y = false) before.
Proof.
  induction l as [|y l IH]; simpl.
  { split; [done|]. by intros ([] & ? & ? & _). }
  destruct (f y) eqn:Ey.
  - split; [intros [= ->]; by exists [], l|].
    intros ([|z before] & after & [= -> ->] & Hx & Hb); [done|]. apply Forall_cons in Hb as [? _]. congruence.
  - rewrite IH. split.
    + intros (before & after & -> & Hx & Hb). exists (y :: before), after. split_and!; [done..|by constructor].
    + intros ([|z before] & after & [= -> ->] & Hx & Hb); [congruence|]. apply Forall_cons in Hb as [_ ?].
      by exists before, after.
Qed.

Lemma permitted_MayRefer route refs key :
  Permitted refs (r_Kind route) (r_Namespace route) ServiceKind (nn_Namespace key) (nn_Name key) = true ↔
  MayRefer route refs key.
Proof. unfold MayRefer. by rewrite Permitted_iff. Qed.

Lemma resolvesTo_ResolvesTo route rule ref refs c :
  resolvesTo route rule ref refs c ↔ ResolvesTo route refs rule ref c.
Proof.
  unfold resolvesTo. split.
  - intros (Hg & Hk & Hp & svc & p & Hs & Ht & Hbp & (before & after & Heq & Hsp%Z.eqb_eq & Hb)%find_first & Hkey & Hh & Hn).
    split.
    + by apply RefersToKey_iff.
    + rewrite Hkey. by apply permitted_MayRefer.
    + exists svc, before, after. rewrite Hkey, Hsp. split_and!; [done..|].
      eapply Forall_impl; [exact Hb|]. intros port. apply Z.eqb_neq.
    + rewrite Hh. unfold clusterH2. by rewrite orb_true_iff, bool_decide_eq_true.
    + done.
  - intros [[[Hg Hk] Hkey]%RefersToKey_iff Hp (svc & before & after & Hs & Ht & Heq & Hbp & Hb) Hh Hn].
    split_and!; [done..|rewrite Hkey in Hp; by apply permitted_MayRefer in Hp|].
    exists svc, (sp_Port (cl_Port c)). rewrite <- Hkey. split_and!; [done..| |done| |done].
    + apply find_first. exists before, after. split_and!; [done|apply Z.eqb_refl|].
      eapply Forall_impl; [exact Hb|]. intros port. apply Z.eqb_neq.
    + apply eq_true_iff_eq. rewrite Hh. unfold clusterH2. by rewrite orb_true_iff, bool_decide_eq_true.
Qed.

Lemma resolveBackend_Unresolved route rule ref refs c :
  resolveBackend route rule ref refs = inr c → Unresolved route refs ref (c_Reason c).
Proof.
  unfold resolveBackend. fold (backendKey route ref). cbv zeta.
  pose proof (RefersToKey_iff route ref (backendKey route ref)) as Hkey.
  pose proof (permitted_MayRefer route refs (backendKey route ref)) as Hp.
  destruct (negb _ || negb _) eqn:Ek.
  { intros [= <-]. simpl. apply not_service. unfold RefersToService.
    rewrite orb_true_iff, !negb_true_iff, !str_eqb_neq in Ek. unfold group, kind in Ek. simpl in Ek. tauto. }
  apply orb_false_iff in Ek as [Eg%negb_false_iff%str_eqb_eq Ek%negb_false_iff%str_eqb_eq].
  assert (RefersToKey route ref (backendKey route ref)) as HK by by apply Hkey.
  destruct (Permitted _ _ _ _ _ _) eqn:Ep; cbn [negb].
  2: { intros [= <-]. eapply not_permitted; [exact HK|]. intros ?%Hp. congruence. }
  assert (MayRefer route refs (backendKey route ref)) as HM by by apply Hp.
  destruct (Services refs !! _) as [svc|] eqn:Es; [|intros [= <-]; by eapply no_service].
  destruct (str_eqb (svc_Type svc) _) eqn:Et; str_simpl; [intros [= <-]; by eapply external_service|].
  destruct (br_Port ref) as [p|] eqn:Ebp; [|intros [= <-]; eapply no_port; try done; by intros ? _; rewrite Ebp].
  destruct (List.find _ _) as [port|] eqn:Ef; [done|]. intros [= <-]. eapply no_port; try done.
  intros port Hin. rewrite Ebp. intros [= ->]. eapply find_none in Ef; [|by apply list_elem_of_In].
  simpl in Ef. by rewrite Z.eqb_refl in Ef.
Qed.

Lemma head_omap {A B} (f : A → option B) l y :
  head (omap f l) = Some y → ∃ before x after, l = before ++ x :: after ∧ f x = Some y ∧ Forall (λ x, f x = None) before.
Proof.
  induction l as [|x l IH]; [done|]. rewrite omap_cons_eq. destruct (f x) as [z|] eqn:Ex.
  - intros [= ->]. by exists [], x, l.
  - intros (before & x' & after & -> & Hx' & Hb)%IH. exists (x :: before), x', after. split_and!; [done..|by constructor].
Qed.

Lemma Unresolved_not route refs rule ref c reason :
  Unresolved route refs ref reason → ¬ ResolvesTo route refs rule ref c.
Proof.
  intros Hu [[Hr Hkey]%RefersToKey_iff Hp (svc & before & after & Hs & Ht & Heq & Hbp & _) _ _].
  destruct Hu as [?|key [_ ->]%RefersToKey_iff|key [_ ->]%RefersToKey_iff|key svc' [_ ->]%RefersToKey_iff
    |key svc' [_ ->]%RefersToKey_iff _ Hs' _ Hn]; rewrite <- ?Hkey in *; try naive_solver.
  rewrite Hs in Hs'. simplify_eq. eapply Hn; [|exact Hbp]. rewrite Heq. set_solver.
Qed.

Lemma failureOf_None route refs rr :
  failureOf route refs rr = None → ∃ c, ResolvesTo route refs rr.1 rr.2 c.
Proof.
  unfold failureOf. destruct (resolveBackend _ _ _ _) as [c|] eqn:E; [|done]. intros _. exists c.
  by apply resolvesTo_ResolvesTo, resolveBackend_inl.
Qed.

Lemma resolveBackends_Resolved route refs :
  Forall2 (λ rule bs, Forall2 (Resolved route refs rule) (ru_Backends rule) bs) (r_Rules route) (resolveBackends route refs).1 ∧
  RefsCondition route refs (resolveBackends route refs).2.
Proof.
  rewrite resolveBackends_eq. cbn [fst snd]. split.
  - apply Forall2_fmap_r, Forall_Forall2_diag, Forall_forall. intros rule _.
    apply Forall2_fmap_r, Forall_Forall2_diag, Forall_forall. intros ref _. split; [done|]. intros c.
    rewrite <- resolvesTo_ResolvesTo, <- resolveBackend_inl. unfold backendOf. simpl.
    destruct (resolveBackend _ _ _ _); naive_solver.
  - unfold RefsCondition. destruct (head (omap _ _)) as [c|] eqn:Eh.
    + apply head_omap in Eh as (before & [rule ref] & after & Heq & Hf & Hb). simpl in *.
      unfold failureOf in Hf. simpl in Hf. destruct (resolveBackend _ _ _ _) as [|c'] eqn:E; simplify_eq.
      pose proof (resolveBackend_inr _ _ _ _ _ E) as [Hty Hst]. split; [done|]. right. split; [done|].
      exists before, rule, ref, after. split_and!; [done| |by eapply resolveBackend_Unresolved].
      eapply Forall_impl; [exact Hb|]. intros rr. apply failureOf_None.
    + split; [done|]. left. split; [done|]. intros rule ref Hru Href.
      apply (failureOf_None route refs (rule, ref)). destruct (failureOf route refs (rule, ref)) as [c|] eqn:Ef; [|done].
      assert (c ∈ omap (failureOf route refs) (r_Rules route ≫= ruleRefs)) as Hin.
      { apply list_elem_of_omap. exists (rule, ref). split; [|done]. apply list_elem_of_bind.
        exists rule. split; [|done]. by apply (list_elem_of_fmap_2 (pair rule)). }
      destruct (omap _ _); [by apply not_elem_of_nil in Hin|done].
Qed.

Section build_spec.
Context `{X509, LabelSelectors} (gw : Gateway) (ls : list Listener) (refs : References).

Lemma attachRoute_AttachedTo route : AttachedTo gw ls refs (attachRoute gw ls refs route).
Proof.
  pose proof (resolveBackends_Resolved route refs) as [Hb Hc]. unfold attachRoute.
  destruct (resolveBackends route refs) as [bs c]. split; simpl; [|done..].
  rewrite (list_filter_iff _ (λ ref, targets ref (r_Namespace route) gw = true)).
  - apply Forall2_fmap_r, Forall_Forall2_diag, Forall_forall. intros ref _. apply attach_Attached.
  - intros ref. symmetry. apply targets_NamesGateway.
Qed.

Lemma attachRoute_route route : at_Route (attachRoute gw ls refs route) = route.
Proof. unfold attachRoute. by destruct (resolveBackends route refs). Qed.

Lemma filter_refers (routes : list Route) :
  filter (λ r, RefersTo r gw = true) routes = filter (λ r, Exists (NamesGateway gw (r_Namespace r)) (r_ParentRefs r)) routes.
Proof.
  apply list_filter_iff. intros r. unfold RefersTo. rewrite existsb_spec, Exists_exists.
  by setoid_rewrite targets_NamesGateway.
Qed.

(** The count of the routes attached to a listener, on the model itself. *)
Lemma attachedAt_count i routes :
  length (filter (λ r, attachedAt gw refs ls i r = true) routes) =
  length (filter (λ a, Exists (λ result, i ∈ dom (pa_Hostnames result)) (at_Parents a))
    (attachRoute gw ls refs <$> filter (λ r, RefersTo r gw = true) routes)).
Proof.
  assert (∀ r, attachedAt gw refs ls i r = true ↔
    Exists (λ result, i ∈ dom (pa_Hostnames result)) (at_Parents (attachRoute gw ls refs r))) as Ha.
  { intros r. rewrite attachedAt_spec, bool_decide_eq_true, elem_of_attachedListeners, Exists_exists.
    by setoid_rewrite elem_of_dom. }
  induction routes as [|r routes IH]; [done|]. rewrite !filter_cons.
  destruct (decide (RefersTo r gw = true)) as [Hr|Hr]; simpl.
  - rewrite filter_cons. repeat case_decide; simpl; rewrite ?IH; try done; exfalso; naive_solver.
  - rewrite decide_False; [done|]. by intros ?%attachedAt_refers.
Qed.
End build_spec.

(** C7. The model keeps, in order, the routes with a parentRef that names the
    Gateway, each with what the parentRefs that name it came to, and with every
    backendRef of every rule, in place, with its weight or 1 and the cluster it
    resolves to, if any: the first port of that number of the Service it names,
    which exists, is no ExternalName, and is in the route's namespace or allowed
    by a ReferenceGrant. Its ResolvedRefs condition is true when all of them
    resolve, and otherwise gives the reason the first that does not resolve has.
    For every listener the model counts the routes that some parentRef attached
    there, each once however many of its parentRefs did, without overflow while
    the routes number fewer than 2^31. *)
Theorem Build_spec `{X509, LabelSelectors} gw routes refs
    (Hsmall : (Z.of_nat (length routes) < 2 ^ 31)%Z) :
  let r := default noReferences refs in
  let m := Build gw routes refs in
  md_Gateway m = gw ∧ md_Listeners m = Listeners gw (Some r) ∧
  at_Route <$> md_Routes m = filter (λ route, Exists (NamesGateway gw (r_Namespace route)) (r_ParentRefs route)) routes ∧
  Forall (AttachedTo gw (md_Listeners m) r) (md_Routes m) ∧
  length (md_AttachedRoutes m) = length (md_Listeners m) ∧
  ∀ i n, md_AttachedRoutes m !! i = Some n →
    n = Z.of_nat (length (filter (λ a, Exists (λ result, i ∈ dom (pa_Hostnames result)) (at_Parents a)) (md_Routes m))).
Proof.
  intros r m. unfold m. rewrite Build_eq. fold r. set (ls := Listeners gw (Some r)). simpl. split_and!; [done..| | | |].
  - rewrite <- filter_refers, <- list_fmap_compose. rewrite <- list_fmap_id. apply list_fmap_ext.
    intros _ route _. apply attachRoute_route.
  - apply Forall_fmap, Forall_forall. intros route _. apply attachRoute_AttachedTo.
  - by rewrite length_imap, length_replicate.
  - intros i n. rewrite list_lookup_imap.
    intros (n' & [-> _]%lookup_replicate & ->)%fmap_Some_1. rewrite <- attachedAt_count.
    rewrite Z.add_0_l. apply wrap32_id.
    pose proof (length_filter (λ route, attachedAt gw r ls i route = true) routes). lia.
Qed.

(** ** Cluster names *)

Definition slash : Ascii.ascii := Ascii.ascii_of_nat 47.

(** Kubernetes names hold no slash. *)
Definition plainKey (k : NamespacedName) : bool :=
  lacks slash (nn_Namespace k) && lacks slash (nn_Name k).

Lemma clusterName_inj k1 p1 h1 k2 p2 h2 :
  plainKey k1 = true → plainKey k2 = true →
  clusterName k1 p1 h1 = clusterName k2 p2 h2 → k1 = k2 ∧ p1 = p2 ∧ h1 = h2.
Proof.
  unfold plainKey, clusterName. rewrite !andb_true_iff.
  destruct k1 as [ns1 n1], k2 as [ns2 n2]; simpl. intros [Hns1 Hn1] [Hns2 Hn2] Heq.
  change (ns1 +:+ String slash (n1 +:+ String slash (fmt_d p1 +:+ (if h1 then "/h2" else "")))
    = ns2 +:+ String slash (n2 +:+ String slash (fmt_d p2 +:+ (if h2 then "/h2" else "")))) in Heq.
  apply lacks_cut in Heq as [-> Heq]; [|done..]. apply lacks_cut in Heq as [-> Heq]; [|done..].
  split; [done|].
  assert (∀ p, lacks slash (fmt_d p) = true) as Hp by (intros; by apply lacks_fmt_d).
  assert (∀ p1 p2, fmt_d p1 ≠ fmt_d p2 +:+ "/h2") as Hne.
  { intros p1' p2' Heq'. pose proof (Hp p1') as Hl. rewrite Heq', lacks_app, Hp in Hl. done. }
  destruct h1, h2; rewrite ?string_app_nil_r in Heq.
  - apply string_app_inj_l in Heq. split; [by apply (inj pretty)|done].
  - by destruct (Hne p2 p1).
  - by destruct (Hne p1 p2).
  - split; [by apply (inj pretty)|done].
Qed.

(** Within one set of references, a cluster's name determines the cluster:
    two backendRefs, of any rules of any routes, that resolve to clusters of one
    name resolve to the same Service, the same port of it and the same protocol,
    so that Envoy needs one cluster for both. *)
Theorem cluster_name_determines_cluster refs route1 rule1 ref1 c1 route2 rule2 ref2 c2 :
  (∀ k, is_Some (Services refs !! k) → plainKey k = true) →
  resolveBackend route1 rule1 ref1 refs = inl c1 →
  resolveBackend route2 rule2 ref2 refs = inl c2 →
  cl_Name c1 = cl_Name c2 → c1 = c2.
Proof.
  intros Hplain (_ & _ & _ & s1 & p1 & Hs1 & _ & _ & Hp1 & Hk1 & _ & Hn1)%resolveBackend_inl
    (_ & _ & _ & s2 & p2 & Hs2 & _ & _ & Hp2 & Hk2 & _ & Hn2)%resolveBackend_inl Hn.
  rewrite Hn1, Hn2 in Hn.
  apply clusterName_inj in Hn as (Hk & Hp & Hh); [|rewrite Hk1; eauto|rewrite Hk2; eauto].
  assert (∀ p s port, List.find (λ port, (sp_Port port =? p)%Z) s = Some port → p = sp_Port port) as Hport.
  { intros p s port [_ ?%Z.eqb_eq]%find_some. done. }
  pose proof (Hport _ _ _ Hp1). pose proof (Hport _ _ _ Hp2).
  destruct c1 as [cn1 k1 cp1 ch1], c2 as [cn2 k2 cp2 ch2]; simpl in *.
  subst k1 k2 ch1. assert (s1 = s2) as -> by congruence.
  assert (p1 = p2) as -> by congruence. rewrite Hp2 in Hp1. congruence.
Qed.

(** ** Witnesses *)

(** A selector as the set of labels it requires. *)
Definition sampleSelectors : LabelSelectors :=
  {| LabelSelectorAsSelector := λ s, match ls_MatchExpressions s with
       | [] => Some (λ labels, bool_decide (ls_MatchLabels s ⊆ labels))
       | _ => None
       end |}.

Definition sampleRule (backends : list BackendRef) : Rule :=
  {| ru_Matches := [emptyMatch]; ru_Filters := []; ru_Backends := backends; ru_GRPC := false |}.

Definition sampleRoute (ns name : string) (hosts : list string) (rules : list Rule) : Route :=
  {| r_Kind := HTTPRouteKind; r_ObjectMeta := sampleMeta ns name;
     r_ParentRefs := [sampleParent "gw"; sampleParent "gw"]; r_Hostnames := hosts; r_Rules := rules |}.

Definition modelRefs : References :=
  {| Namespaces := ∅; Grants := [];
     Services := <[{| nn_Namespace := "infra"; nn_Name := "web" |} :=
       sampleService "infra" "web" [sampleServicePort "http" "TCP" 80 8080;
                                    sampleServicePort "admin" "TCP" 81 8081]]> ∅;
     Endpoints := ∅; Secrets := ∅; Unreadable := ∅; WarpRouting := false |}.

Definition modelRoutes : list Route :=
  [sampleRoute "infra" "app" ["a.example.com"] [sampleRule [sampleBackendRef "web" 80; sampleBackendRef "gone" 80]];
   sampleRoute "infra" "other" ["other.org"] [sampleRule [sampleBackendRef "web" 80]];
   sampleRoute "tenant" "stray" [] [sampleRule []]].

Definition sampleModel : Model := @Build sampleX509 sampleSelectors listenersGateway modelRoutes (Some modelRefs).

(** Both parentRefs of the first two routes attach, and each counts once; the
    third names no Gateway of its namespace. *)
Lemma Build_spec_witness :
  (Z.of_nat (length modelRoutes) < 2 ^ 31)%Z ∧
  md_AttachedRoutes sampleModel = [1; 2; 0; 0; 0]%Z ∧
  length (md_AttachedRoutes sampleModel) = length (md_Listeners sampleModel).
Proof.
  assert (Z.of_nat (length modelRoutes) < 2 ^ 31)%Z as Hs by (vm_compute; reflexivity).
  split; [exact Hs|]. split; [vm_compute; reflexivity|].
  destruct (@Build_spec sampleX509 sampleSelectors listenersGateway modelRoutes (Some modelRefs) Hs)
    as (_ & _ & _ & _ & Hn & _).
  exact Hn.
Defined.

Definition webCluster : Cluster :=
  {| cl_Name := "infra/web/80"; cl_Service := {| nn_Namespace := "infra"; nn_Name := "web" |};
     cl_Port := sampleServicePort "http" "TCP" 80 8080; cl_H2 := false |}.

Lemma cluster_name_determines_cluster_witness :
  (∀ k, is_Some (Services modelRefs !! k) → plainKey k = true) ∧
  resolveBackend (sampleRoute "infra" "app" [] []) (sampleRule []) (sampleBackendRef "web" 80) modelRefs
    = inl webCluster ∧
  webCluster = webCluster.
Proof.
  assert (∀ k, is_Some (Services modelRefs !! k) → plainKey k = true) as Hk.
  { intros k [v Hv]. simpl in Hv. apply lookup_insert_Some in Hv as [[<- _]|[_ Hv]]; [reflexivity|done]. }
  assert (resolveBackend (sampleRoute "infra" "app" [] []) (sampleRule []) (sampleBackendRef "web" 80) modelRefs
    = inl webCluster) as Hr by (vm_compute; reflexivity).
  split; [exact Hk|]. split; [exact Hr|].
  exact (cluster_name_determines_cluster _ _ _ _ _ _ _ _ _ Hk Hr Hr eq_refl).
Defined.
