(* ===== verification/API.v ===== *)
(** * The operator's own API types (api/v1alpha1)

    CloudflareTunnel, Cloudflared, DnsRecord and CloudflareGatewayConfig, field
    by field. A string enumeration stays a string, whose values the constants
    name; a pointer is an [option]; a time is a [Z]. *)
From S2P Require Import Prelude GatewayAPI.

(** ** CloudflareTunnel (cloudflaretunnel_types.go) *)

Definition LocalCloudflareTunnelConfigSource := "local".
Definition CloudflareCloudflareTunnelConfigSource := "cloudflare".

Record CloudflareTunnelSecretReference := {
  tsr_ConfigMapKeyRef : option KeySelector;
  tsr_SecretKeyRef : option KeySelector;
}.

Record CloudflareTunnelSecret := {
  ts_Value : option string;
  ts_ValueFrom : option CloudflareTunnelSecretReference;
}.

Record CloudflareTunnelOriginRequestAccess := {
  oa_AudTag : list string;
  oa_TeamName : string;
  oa_Required : bool;
}.

Record CloudflareTunnelOriginRequest := {
  o_Access : CloudflareTunnelOriginRequestAccess;
  o_CaPool : string;
  o_ConnectTimeout : Z;
  o_DisableChunkedEncoding : bool;
  o_Http2Origin : bool;
  o_HttpHostHeader : string;
  o_KeepAliveConnections : Z;
  o_KeepAliveTimeout : Z;
  o_NoHappyEyeballs : bool;
  o_NoTlsVerify : bool;
  o_OriginServerName : string;
  o_ProxyType : string;
  o_TcpKeepAlive : Z;
  o_TlsTimeout : Z;
}.

(** The zero value of an origin request. *)
Definition emptyOriginRequest : CloudflareTunnelOriginRequest :=
  {| o_Access := {| oa_AudTag := []; oa_TeamName := ""; oa_Required := false |};
     o_CaPool := ""; o_ConnectTimeout := 0; o_DisableChunkedEncoding := false;
     o_Http2Origin := false; o_HttpHostHeader := ""; o_KeepAliveConnections := 0;
     o_KeepAliveTimeout := 0; o_NoHappyEyeballs := false; o_NoTlsVerify := false;
     o_OriginServerName := ""; o_ProxyType := ""; o_TcpKeepAlive := 0; o_TlsTimeout := 0 |}.

Record CloudflareTunnelDns := {
  td_ZoneId : string;
  td_Proxied : option bool;
  td_Ttl : option Z;
}.

Record CloudflareTunnelConfigIngress := {
  in_Dns : option CloudflareTunnelDns;
  in_Hostname : string;
  in_Service : string;
  in_OriginRequest : CloudflareTunnelOriginRequest;
  in_Path : string;
}.

Record CloudflareTunnelWarpRouting := { wr_Enable : bool }.

Record CloudflareTunnelConfig := {
  tc_Ingress : list CloudflareTunnelConfigIngress;
  tc_OriginRequest : CloudflareTunnelOriginRequest;
  tc_WarpRouting : option CloudflareTunnelWarpRouting;
}.

Record CloudflareTunnelRoute := {
  tr_Network : string;
  tr_Comment : string;
  tr_VirtualNetworkId : string;
}.

(** ** Cloudflared (cloudflared_types.go, shared_types.go) *)

Definition DaemonSetCloudflaredKind := "DaemonSet".
Definition DeploymentCloudflaredKind := "Deployment".

Record CloudflaredConfigReference := {
  dcr_ConfigMapKeyRef : option KeySelector;
  dcr_SecretKeyRef : option KeySelector;
}.

Record CloudflaredTunnelReference := { ctr_Name : string }.

Record CloudflaredConfigInline := {
  ci_TunnelId : option string;
  ci_AccountId : option string;
}.

Record CloudflaredConfig := {
  dc_Inline : CloudflaredConfigInline;
  dc_TunnelRef : option CloudflaredTunnelReference;
  dc_ValueFrom : option CloudflaredConfigReference;
}.

Record CloudflaredSpec := {
  cd_Config : option CloudflaredConfig;
  cd_Kind : string;
  cd_Replicas : option Z;
  cd_Template : option PodTemplateSpec;
  cd_Version : string;
}.

Record CloudflaredStatus := {
  cds_Kind : option string;
  cds_TunnelId : option string;
  cds_Conditions : list Condition;
}.

Record Cloudflared := {
  cfd_ObjectMeta : ObjectMeta;
  cfd_Spec : CloudflaredSpec;
  cfd_Status : CloudflaredStatus;
}.

Record CloudflaredTemplateSpec := {
  dt_ObjectMeta : ObjectMeta;
  dt_Spec : CloudflaredSpec;
}.

(** A tunnel's selection of Cloudflareds, and the tunnel itself. *)
Record CloudflareTunnelCloudflared := {
  tcd_Selector : option LabelSelector;
  tcd_Template : option CloudflaredTemplateSpec;
}.

Record CloudflareTunnelSpec := {
  t_AccountId : string;
  t_Cloudflared : option CloudflareTunnelCloudflared;
  t_Config : option CloudflareTunnelConfig;
  t_ConfigSource : string;
  t_Dns : option CloudflareTunnelDns;
  t_Name : string;
  t_Routes : list CloudflareTunnelRoute;
  t_TunnelSecret : option CloudflareTunnelSecret;
}.

Record CloudflareTunnelStatus := {
  tst_AccountTag : string;
  tst_Conditions : list Condition;
  tst_ConnectionsActiveAt : Z;
  tst_ConnectionsInactiveAt : Z;
  tst_CreatedAt : Z;
  tst_Id : option string;
  tst_DnsRecords : Z;
  tst_DnsRecordsReady : Z;
  tst_RoutesReady : Z;
  tst_Instances : Z;
  tst_Name : string;
  tst_RemoteConfig : bool;
  tst_Status : string;
  tst_Type : string;
}.

Record CloudflareTunnel := {
  tun_ObjectMeta : ObjectMeta;
  tun_Spec : CloudflareTunnelSpec;
  tun_Status : CloudflareTunnelStatus;
}.

Record CloudflareApiTokenReference := {
  atr_ConfigMapKeyRef : option KeySelector;
  atr_SecretKeyRef : option KeySelector;
}.

Record CloudflareApiToken := {
  at_Value : option string;
  at_ValueFrom : option CloudflareApiTokenReference;
}.

(** ** DnsRecord (dnsrecord_types.go) *)

Record RecordSettings := { rs_Ipv4Only : bool; rs_Ipv6Only : bool }.

Record CNAMERecordSettings := {
  cns_RecordSettings : RecordSettings;
  cns_FlattenCname : bool;
}.

Record ARecord := {
  a_Comment : string;
  a_Content : string;
  a_Name : string;
  a_Proxied : bool;
  a_Settings : RecordSettings;
  a_Tags : list string;
  a_Ttl : Z;
  a_Type : string;
}.

Record AAAARecord := {
  aaaa_Comment : string;
  aaaa_Content : string;
  aaaa_Name : string;
  aaaa_Proxied : bool;
  aaaa_Settings : RecordSettings;
  aaaa_Tags : list string;
  aaaa_Ttl : Z;
  aaaa_Type : string;
}.

Record CAARecordData := { cad_Flags : Z; cad_Tag : string; cad_Value : string }.

Record CAARecord := {
  caa_Comment : string;
  caa_Content : string;
  caa_Data : CAARecordData;
  caa_Name : string;
  caa_Proxied : bool;
  caa_Settings : RecordSettings;
  caa_Tags : list string;
  caa_Ttl : Z;
  caa_Type : string;
}.

Record DnsRecordTunnelReference := { dtr_Name : string }.

Record CNAMERecord := {
  cn_Comment : string;
  cn_Content : string;
  cn_TunnelRef : option DnsRecordTunnelReference;
  cn_Name : string;
  cn_Proxied : bool;
  cn_Settings : CNAMERecordSettings;
  cn_Tags : list string;
  cn_Ttl : Z;
  cn_Type : string;
}.

Record TXTRecord := {
  txt_Comment : string;
  txt_Content : string;
  txt_Name : string;
  txt_Proxied : bool;
  txt_Settings : RecordSettings;
  txt_Tags : list string;
  txt_Ttl : Z;
  txt_Type : string;
}.

(** [v1alpha1.Record]: admission keeps exactly one of the five. *)
Record DnsRecordData := {
  dr_ARecord : option ARecord;
  dr_AAAARecord : option AAAARecord;
  dr_CAARecord : option CAARecord;
  dr_CNAMERecord : option CNAMERecord;
  dr_TXTRecord : option TXTRecord;
}.

Record DnsRecordSpec := { ds_ZoneId : string; ds_Record : DnsRecordData }.

Record DnsRecordStatus := {
  dst_Id : option string;
  dst_Name : option string;
  dst_Comment : option string;
  dst_Content : option string;
  dst_Type : option string;
}.

Record DnsRecord := {
  dns_ObjectMeta : ObjectMeta;
  dns_Spec : DnsRecordSpec;
  dns_Status : DnsRecordStatus;
}.

(** ** CloudflareGatewayConfig (cloudflaregatewayconfig_types.go) *)

Record CloudflareGatewayEnvoy := {
  ge_Image : string;
  ge_Replicas : option Z;
  ge_ServiceType : string;
  ge_Resources : option ResourceRequirements;
}.

Record CloudflareGatewayTunnelReference := { gtr_Name : string; gtr_Namespace : string }.

Record CloudflareGatewayTunnelTemplateMeta := {
  gtm_Labels : gmap string string;
  gtm_Annotations : gmap string string;
}.

Record CloudflareGatewayTunnelTemplate := {
  gtt_ObjectMeta : CloudflareGatewayTunnelTemplateMeta;
  gtt_Spec : CloudflareTunnelSpec;
}.

Record CloudflareGatewayConfigSpec := {
  gcs_TunnelRef : option CloudflareGatewayTunnelReference;
  gcs_Template : option CloudflareGatewayTunnelTemplate;
  gcs_Envoy : option CloudflareGatewayEnvoy;
}.

Record CloudflareGatewayConfig := {
  gcf_ObjectMeta : ObjectMeta;
  gcf_Spec : CloudflareGatewayConfigSpec;
  gcf_StatusConditions : list Condition;
}.

#[export] Instance OriginRequestAccess_eq_dec : EqDecision CloudflareTunnelOriginRequestAccess.
Proof. solve_decision. Defined.
#[export] Instance OriginRequest_eq_dec : EqDecision CloudflareTunnelOriginRequest.
Proof. solve_decision. Defined.
#[export] Instance CloudflareTunnelDns_eq_dec : EqDecision CloudflareTunnelDns.
Proof. solve_decision. Defined.
#[export] Instance ConfigIngress_eq_dec : EqDecision CloudflareTunnelConfigIngress.
Proof. solve_decision. Defined.
#[export] Instance CloudflareTunnelRoute_eq_dec : EqDecision CloudflareTunnelRoute.
Proof. solve_decision. Defined.
