(* ===== verification/Memory.v ===== *)
(** * Memory and deep copies

    The memory the generated DeepCopy methods copy in: a heap of cells that
    pointers, slices and maps refer to, the Go types that say how a value is laid
    out, and the steps the methods are made of. [Deep] is what a deep copy is: it
    reads as the original does, from cells of its own. *)
From S2P Require Import Prelude.

Notation loc := positive (only parsing).

Inductive atom := AString (s : string) | AInt (z : Z) | ABool (b : bool).

(** A value: a reference is that of a pointer, of the elements of a slice or of a
    map; a struct has its fields in place, in the order of its type. *)
Inductive val := VAtom (a : atom) | VNil | VRef (l : loc) | VStruct (fs : list val).

Inductive cell := CVal (v : val) | CArray (vs : list val) | CMap (kvs : list (string * val)).

Notation heap := (gmap loc cell).

(** A type; a named type is that of its fields or of what it renames. The cell of a
    slice holds its elements, without what its capacity has besides. *)
Inductive ty := Atom | Ptr (τ : ty) | Slice (τ : ty) | Map (τ : ty) | Struct (fs : list (string * ty)).

(** What a value of a type reads as. *)
Inductive tree :=
  | TrAtom (a : atom) | TrNil | TrPtr (t : tree) | TrSlice (ts : list tree)
  | TrMap (kts : list (string * tree)) | TrStruct (ts : list tree).

Fixpoint holds (h : heap) (τ : ty) (v : val) (t : tree) {struct τ} : Prop :=
  match τ with
  | Atom => ∃ a, v = VAtom a ∧ t = TrAtom a
  | Ptr τ => (v = VNil ∧ t = TrNil) ∨ ∃ l w u, v = VRef l ∧ t = TrPtr u ∧ h !! l = Some (CVal w) ∧ holds h τ w u
  | Slice τ => (v = VNil ∧ t = TrNil) ∨
      ∃ l ws us, v = VRef l ∧ t = TrSlice us ∧ h !! l = Some (CArray ws) ∧ Forall2 (holds h τ) ws us
  | Map τ => (v = VNil ∧ t = TrNil) ∨
      ∃ l kws kus, v = VRef l ∧ t = TrMap kus ∧ h !! l = Some (CMap kws) ∧
        kws.*1 = kus.*1 ∧ Forall2 (holds h τ) kws.*2 kus.*2
  | Struct fs => ∃ vs ts, v = VStruct vs ∧ t = TrStruct ts ∧
      (fix go fs vs ts := match fs, vs, ts with
        | [], [], [] => True
        | (_, τ) :: fs, v :: vs, t :: ts => holds h τ v t ∧ go fs vs ts
        | _, _, _ => False
        end) fs vs ts
  end.

(** What a value reads as, computed. *)
Fixpoint read (h : heap) (τ : ty) (v : val) {struct τ} : option tree :=
  match τ, v with
  | Atom, VAtom a => Some (TrAtom a)
  | Ptr _, VNil | Slice _, VNil | Map _, VNil => Some TrNil
  | Ptr τ, VRef l => match h !! l with Some (CVal w) => TrPtr <$> read h τ w | _ => None end
  | Slice τ, VRef l => match h !! l with Some (CArray ws) => TrSlice <$> mapM (read h τ) ws | _ => None end
  | Map τ, VRef l =>
    match h !! l with Some (CMap kws) => (λ ts, TrMap (zip kws.*1 ts)) <$> mapM (read h τ) kws.*2 | _ => None end
  | Struct fs, VStruct vs =>
    TrStruct <$> (fix go fs vs := match fs, vs with
      | [], [] => Some []
      | (_, τ) :: fs, v :: vs => t ← read h τ v; ts ← go fs vs; Some (t :: ts)
      | _, _ => None
      end) fs vs
  | _, _ => None
  end.

(** A type without references. *)
Fixpoint flat (τ : ty) : bool :=
  match τ with
  | Atom => true
  | Struct fs => (fix go (fs : list (string * ty)) := match fs with [] => true | (_, τ) :: fs => flat τ && go fs end) fs
  | _ => false
  end.

(** ** The steps of a copy *)

(** What copies the value [in] points at, into [out]: the value of [out], and the
    heap afterwards. *)
Notation copier := (val → heap → val * heap).

(** [*out = *in], or the assignment of a field. *)
Definition assign : copier := λ v h, (v, h).

(** A new cell. *)
Definition alloc (c : cell) (h : heap) : loc * heap := let l := fresh (dom h) in (l, <[l := c]> h).

(** [if in != nil { *out = new(T); ... }]. *)
Definition pointer (c : copier) : copier := λ v h,
  match v with
  | VRef l =>
    match h !! l with
    | Some (CVal w) =>
      let '(l', h) := alloc (CVal VNil) h in
      let '(w', h) := c w h in (VRef l', <[l' := CVal w']> h)
    | _ => (v, h)
    end
  | _ => (v, h)
  end.

(** One element after the other. *)
Fixpoint each (c : copier) (vs : list val) (h : heap) : list val * heap :=
  match vs with
  | [] => ([], h)
  | v :: vs => let '(v', h) := c v h in let '(vs', h) := each c vs h in (v' :: vs', h)
  end.

(** [if in != nil { *out = make([]T, len( *in)); ... }]: [copy] is that of [assign]. *)
Definition slice (c : copier) : copier := λ v h,
  match v with
  | VRef l =>
    match h !! l with
    | Some (CArray ws) =>
      let '(l', h) := alloc (CArray ((λ _, VNil) <$> ws)) h in
      let '(ws', h) := each c ws h in (VRef l', <[l' := CArray ws']> h)
    | _ => (v, h)
    end
  | _ => (v, h)
  end.

(** [if in != nil { *out = make(map[string]T, len( *in)); for key, val := ... }]. *)
Definition mapping (c : copier) : copier := λ v h,
  match v with
  | VRef l =>
    match h !! l with
    | Some (CMap kws) =>
      let '(l', h) := alloc (CMap []) h in
      let '(ws', h) := each c kws.*2 h in (VRef l', <[l' := CMap (zip kws.*1 ws')]> h)
    | _ => (v, h)
    end
  | _ => (v, h)
  end.

(** The position of a field. *)
Fixpoint index (f : string) (fs : list (string * ty)) : option nat :=
  match fs with
  | [] => None
  | (g, _) :: fs => if str_eqb f g then Some 0 else S <$> index f fs
  end.

(** A statement of [DeepCopyInto]: a field of [in] is copied to that of [out]. *)
Definition copyField (fs : list (string * ty)) (vs : list val) (st : list val * heap) (stmt : string * copier)
    : list val * heap :=
  let '(out, h) := st in
  match index stmt.1 fs ≫= λ i, (i,.) <$> vs !! i with
  | Some (i, v) => let '(v', h) := stmt.2 v h in (<[i := v']> out, h)
  | None => st
  end.

(** [*out = *in], and the statements after it. *)
Definition into (τ : ty) (stmts : list (string * copier)) : copier := λ v h,
  match τ, v with
  | Struct fs, VStruct vs => let '(out, h) := foldl (copyField fs vs) (vs, h) stmts in (VStruct out, h)
  | _, _ => (v, h)
  end.

(** [DeepCopy] of a type: nil of nil, or a new value [DeepCopyInto] copies to. *)
Definition deepCopy (c : copier) : copier := pointer c.

(** [DeepCopyObject]: an interface that is nil, or holds the copy. *)
Definition deepCopyObject (c : copier) (v : val) (h : heap) : option val * heap :=
  let '(v', h) := c v h in (match v' with VNil => None | _ => Some v' end, h).

(** ** What a deep copy is *)

(** The copy reads as the original did, from cells that were not there before; no
    cell that was there has changed. *)
Definition Deep (τ : ty) (c : copier) : Prop := ∀ h v t v' h',
  holds h τ v t → c v h = (v', h') → h ⊆ h' ∧ holds (h' ∖ h) τ v' t.

(** ** Types *)

Section ty_ind.
Context (P : ty → Prop) (HA : P Atom) (HP : ∀ τ, P τ → P (Ptr τ)) (HS : ∀ τ, P τ → P (Slice τ)) (HM : ∀ τ, P τ → P (Map τ))
  (HT : ∀ fs, Forall (λ f, P f.2) fs → P (Struct fs)).

Fixpoint ty_ind' (τ : ty) : P τ :=
  match τ with
  | Atom => HA
  | Ptr τ => HP τ (ty_ind' τ)
  | Slice τ => HS τ (ty_ind' τ)
  | Map τ => HM τ (ty_ind' τ)
  | Struct fs => HT fs ((fix go (fs : list (string * ty)) : Forall (λ f, P f.2) fs :=
      match fs with [] => List.Forall_nil _ | (s, τ) :: fs => List.Forall_cons _ (s, τ) fs (ty_ind' τ) (go fs) end) fs)
  end.
End ty_ind.

Lemma holds_Struct h fs v t :
  holds h (Struct fs) v t ↔ ∃ vs ts, v = VStruct vs ∧ t = TrStruct ts ∧ Forall3 (λ f v t, holds h f.2 v t) fs vs ts.
Proof.
  simpl. split; intros (vs & ts & -> & -> & Hgo); exists vs, ts; (split_and!; [done|done|]).
  - revert vs ts Hgo. induction fs as [|[f τ] fs IH]; intros [|v vs] [|t ts]; try done; [constructor|].
    intros [Hv Hgo]. constructor; [done|by apply IH].
  - induction Hgo as [|[f τ]]; by repeat split.
Qed.

Lemma flat_Struct fs : flat (Struct fs) = true ↔ Forall (λ f, flat f.2 = true) fs.
Proof.
  simpl. induction fs as [|[f τ] fs IH]; [split; [constructor|done]|]. rewrite Forall_cons, <- IH. simpl. by rewrite andb_true_iff.
Qed.

Lemma read_holds h τ v t : read h τ v = Some t → holds h τ v t.
Proof.
  revert v t. induction τ as [|τ IH|τ IH|τ IH|fs IH] using ty_ind'; intros v t; destruct v as [a| |l|vs]; cbn [read]; try done.
  - intros [= <-]. by exists a.
  - intros [= <-]. by left.
  - destruct (h !! l) as [[w| |]|] eqn:Hl; try done. intros (u & Hu%IH & ->)%fmap_Some. right. by exists l, w, u.
  - intros [= <-]. by left.
  - destruct (h !! l) as [[|ws|]|] eqn:Hl; try done. intros (us & Hu%mapM_Some & ->)%fmap_Some. right. exists l, ws, us.
    split_and!; [done..|]. eapply Forall2_impl; [exact Hu|exact IH].
  - intros [= <-]. by left.
  - destruct (h !! l) as [[| |kws]|] eqn:Hl; try done. intros (us & Hu%mapM_Some & ->)%fmap_Some.
    pose proof (Forall2_length _ _ _ Hu) as Hlen. rewrite length_fmap in Hlen. right. exists l, kws, (zip kws.*1 us).
    rewrite fst_zip, snd_zip by (rewrite length_fmap; lia). split_and!; [done..|]. eapply Forall2_impl; [exact Hu|exact IH].
  - intros (ts & Hts & ->)%fmap_Some. apply holds_Struct. exists vs, ts. split_and!; [done..|]. revert vs ts Hts.
    induction IH as [|[f τ] fs IHτ _ IHfs]; intros [|v vs] ts; try done; [intros [= <-]; constructor|].
    intros (t & Ht & (ts' & Hts & [= <-])%bind_Some)%bind_Some. constructor; [by apply IHτ|by apply IHfs].
Qed.

(** What a value reads as does not change when cells are added, or when others
    change. *)
Lemma holds_weaken h h' τ v t : holds h τ v t → h ⊆ h' → holds h' τ v t.
Proof.
  intros Hh Hs. revert v t Hh. induction τ as [|τ IH|τ IH|τ IH|fs IH] using ty_ind'; intros v t; [done| | | |].
  - intros [?|(l & w & u & -> & -> & Hl & Hu)]; [by left|]. right. exists l, w, u. split_and!; [done|done|by eapply lookup_weaken|auto].
  - intros [?|(l & ws & us & -> & -> & Hl & Hu)]; [by left|]. right. exists l, ws, us.
    split_and!; [done|done|by eapply lookup_weaken|by eapply Forall2_impl].
  - intros [?|(l & ws & us & -> & -> & Hl & Hk & Hu)]; [by left|]. right. exists l, ws, us.
    split_and!; [done|done|by eapply lookup_weaken|done|by eapply Forall2_impl].
  - rewrite !holds_Struct. intros (vs & ts & -> & -> & Hf). exists vs, ts. split_and!; [done|done|].
    revert IH. induction Hf as [|f v t fs vs ts Hf _ IHf]; intros IH; [constructor|]. apply Forall_cons in IH as [IH1 IH2].
    constructor; [by apply IH1|auto].
Qed.

Lemma holds_flat h h' τ v t : flat τ = true → holds h τ v t → holds h' τ v t.
Proof.
  revert v t. induction τ as [| | | |fs IH] using ty_ind'; intros v t Hf; try done. apply flat_Struct in Hf.
  rewrite !holds_Struct. intros (vs & ts & -> & -> & Hh). exists vs, ts. split_and!; [done|done|].
  revert IH Hf. induction Hh as [|f v t fs vs ts Hv _ IHf]; intros IH Hf; [constructor|].
  apply Forall_cons in IH as [IH1 IH2], Hf as [Hf1 Hf2]. constructor; [by apply IH1|auto].
Qed.

(** ** The steps are deep *)

Lemma new_cells (h h1 h2 : heap) : h ⊆ h1 → h2 ∖ h1 ⊆ h2 ∖ h.
Proof.
  rewrite !map_subseteq_spec. intros Hs l c. rewrite !lookup_difference_Some. intros [Hl Hn]. split; [done|].
  destruct (h !! l) eqn:E; [|done]. apply Hs in E. by rewrite E in Hn.
Qed.

Lemma old_cells (h h1 h2 : heap) : h1 ⊆ h2 → h1 ∖ h ⊆ h2 ∖ h.
Proof. rewrite !map_subseteq_spec. intros Hs l c. rewrite !lookup_difference_Some. intros [Hl Hn]. auto. Qed.

Lemma Deep_assign τ : flat τ = true → Deep τ assign.
Proof. intros Hf h v t v' h' Hh [= <- <-]. split; [done|by eapply holds_flat]. Qed.

Lemma alloc_sub c h l h1 : alloc c h = (l, h1) → h ⊆ h1.
Proof. intros [= _ <-]. apply insert_subseteq, not_elem_of_dom, is_fresh. Qed.

(** What a step allocates, before it fills it, is a cell of the copy. *)
Lemma alloc_step c h l h1 h2 c' :
  alloc c h = (l, h1) → h1 ⊆ h2 →
  h ⊆ h1 ∧ h ⊆ <[l := c']> h2 ∧ h2 ∖ h1 ⊆ <[l := c']> h2 ∖ h ∧ (<[l := c']> h2 ∖ h) !! l = Some c'.
Proof.
  intros [= <- <-] Hs. assert (h !! fresh (dom h) = None) as Hf by apply not_elem_of_dom, is_fresh.
  assert (h ⊆ <[fresh (dom h) := c]> h) as H1 by by apply insert_subseteq.
  assert (h ⊆ <[fresh (dom h) := c']> h2) as H2.
  { rewrite map_subseteq_spec in *. intros l x Hl. destruct (decide (l = fresh (dom h))) as [->|]; [by rewrite Hf in Hl|].
    rewrite lookup_insert_ne by done. apply Hs. by rewrite lookup_insert_ne. }
  split_and!; [done|done| |apply lookup_difference_Some; by rewrite lookup_insert_eq].
  rewrite map_subseteq_spec. intros l x. rewrite !lookup_difference_Some. intros [Hl Hn].
  destruct (decide (fresh (dom h) = l)) as [<-|]; [by rewrite lookup_insert_eq in Hn|].
  by rewrite lookup_insert_ne in Hn |- *.
Qed.

Lemma Deep_pointer τ c : Deep τ c → Deep (Ptr τ) (pointer c).
Proof.
  intros HD h v t v' h' [[-> ->]|(l & w & u & -> & -> & Hl & Hu)] Hx; unfold pointer in Hx.
  { injection Hx as <- <-. split; [done|by left]. }
  rewrite Hl in Hx. destruct (alloc (CVal VNil) h) as [l' h1] eqn:Ha. destruct (c w h1) as [w' h2] eqn:Hc. injection Hx as <- <-.
  pose proof (alloc_sub _ _ _ _ Ha) as Hs.
  destruct (HD _ _ _ _ _ (holds_weaken _ _ _ _ _ Hu Hs) Hc) as [H12 Hw].
  destruct (alloc_step _ _ _ _ _ (CVal w') Ha H12) as (_ & H02 & Hn & Hl'). split; [done|].
  right. exists l', w', u. split_and!; [done|done|done|by eapply holds_weaken].
Qed.

Lemma Deep_each τ c h vs ts vs' h' :
  Deep τ c → Forall2 (holds h τ) vs ts → each c vs h = (vs', h') → h ⊆ h' ∧ Forall2 (holds (h' ∖ h) τ) vs' ts.
Proof.
  intros HD Hh. revert h vs' h' Hh. induction vs as [|v vs IH] in ts |- *; intros h vs' h' Hh Hx; simpl in Hx.
  { injection Hx as <- <-. apply Forall2_nil_inv_l in Hh as ->. by split. }
  apply Forall2_cons_inv_l in Hh as (t & ts' & Hv & Hvs & ->).
  destruct (c v h) as [v1 h1] eqn:Hc. destruct (each c vs h1) as [vs1 h2] eqn:He. injection Hx as <- <-.
  destruct (HD _ _ _ _ _ Hv Hc) as [H01 Hv1].
  assert (Forall2 (holds h1 τ) vs ts') as Hvs1 by (eapply Forall2_impl; [exact Hvs|intros; by eapply holds_weaken]).
  destruct (IH _ _ _ _ Hvs1 He) as [H12 Hvs2]. split; [by trans h1|]. constructor.
  - eapply holds_weaken; [exact Hv1|by apply old_cells].
  - eapply Forall2_impl; [exact Hvs2|]. intros. eapply holds_weaken; [done|by apply new_cells].
Qed.

Lemma Deep_slice τ c : Deep τ c → Deep (Slice τ) (slice c).
Proof.
  intros HD h v t v' h' [[-> ->]|(l & ws & us & -> & -> & Hl & Hu)] Hx; unfold slice in Hx.
  { injection Hx as <- <-. split; [done|by left]. }
  rewrite Hl in Hx. destruct (alloc _ h) as [l' h1] eqn:Ha. destruct (each c ws h1) as [ws' h2] eqn:Hc. injection Hx as <- <-.
  pose proof (alloc_sub _ _ _ _ Ha) as Hs.
  assert (Forall2 (holds h1 τ) ws us) as Hu1 by (eapply Forall2_impl; [exact Hu|intros; by eapply holds_weaken]).
  destruct (Deep_each _ _ _ _ _ _ _ HD Hu1 Hc) as [H12 Hw].
  destruct (alloc_step _ _ _ _ _ (CArray ws') Ha H12) as (_ & H02 & Hn & Hl'). split; [done|].
  right. exists l', ws', us. split_and!; [done|done|done|]. eapply Forall2_impl; [exact Hw|]. intros. by eapply holds_weaken.
Qed.

Lemma Deep_mapping τ c : Deep τ c → Deep (Map τ) (mapping c).
Proof.
  intros HD h v t v' h' [[-> ->]|(l & kws & kus & -> & -> & Hl & Hk & Hu)] Hx; unfold mapping in Hx.
  { injection Hx as <- <-. split; [done|by left]. }
  rewrite Hl in Hx. destruct (alloc _ h) as [l' h1] eqn:Ha. destruct (each c _ h1) as [ws' h2] eqn:Hc. injection Hx as <- <-.
  pose proof (alloc_sub _ _ _ _ Ha) as Hs.
  assert (Forall2 (holds h1 τ) kws.*2 kus.*2) as Hu1 by (eapply Forall2_impl; [exact Hu|intros; by eapply holds_weaken]).
  destruct (Deep_each _ _ _ _ _ _ _ HD Hu1 Hc) as [H12 Hw].
  destruct (alloc_step _ _ _ _ _ (CMap (zip kws.*1 ws')) Ha H12) as (_ & H02 & Hn & Hl'). split; [done|].
  assert (length kws.*1 = length ws') as Hlen.
  { rewrite (Forall2_length _ _ _ Hw), <- (Forall2_length _ _ _ Hu), !length_fmap. done. }
  right. exists l', (zip kws.*1 ws'), kus. split_and!; [done|done|done|by rewrite fst_zip by lia|].
  rewrite snd_zip by lia. eapply Forall2_impl; [exact Hw|]. intros. by eapply holds_weaken.
Qed.

(** ** Structs *)

(** The type of a field. *)
Fixpoint typeOf (f : string) (fs : list (string * ty)) : option ty :=
  match fs with
  | [] => None
  | (g, τ) :: fs => if str_eqb f g then Some τ else typeOf f fs
  end.

(** Each field is copied by a statement or, when it has no references, with the
    struct; and no two fields have a name. *)
Definition covered (names : list string) (fs : list (string * ty)) : bool :=
  bool_decide (NoDup fs.*1) && forallb (λ f, existsb (str_eqb f.1) names || flat f.2) fs.

Lemma index_lookup (P : string * ty → val → tree → Prop) f i fs vs ts :
  index f fs = Some i → Forall3 P fs vs ts →
  ∃ τ v t, typeOf f fs = Some τ ∧ vs !! i = Some v ∧ ts !! i = Some t ∧ P (f, τ) v t.
Proof.
  intros Hi HF. revert i Hi. induction HF as [|[g τ] v t fs vs ts HP _ IH]; intros i; [done|]. simpl.
  destruct (str_eqb f g) eqn:E; [apply str_eqb_eq in E as <-; intros [= <-]; by exists τ, v, t|].
  destruct (index f fs) as [j|]; [|done]. intros [= <-]. by apply IH.
Qed.

Lemma index_insert (P P' : string * ty → val → tree → Prop) f i fs out ts v' :
  index f fs = Some i → NoDup fs.*1 → Forall3 P fs out ts →
  (∀ τ t, typeOf f fs = Some τ → ts !! i = Some t → P' (f, τ) v' t) →
  (∀ g v t, g.1 ≠ f → P g v t → P' g v t) →
  Forall3 P' fs (<[i := v']> out) ts.
Proof.
  intros Hi Hnd HF. revert i Hi Hnd. induction HF as [|[g τ] v t fs out ts HP HF IH]; intros i; [done|]. cbn [index typeOf fmap list_fmap fst].
  rewrite NoDup_cons. intros Hi [Hg Hnd] Hf Hother. destruct (str_eqb f g) eqn:E.
  - apply str_eqb_eq in E as <-. injection Hi as <-. constructor; [by apply Hf|].
    clear IH Hf Hnd. induction HF as [|[k σ] w u fs out ts Hk _ IHF]; [constructor|]. simpl in Hg. apply not_elem_of_cons in Hg as [Hg1 Hg2].
    constructor; [apply Hother; [simpl; congruence|done]|auto].
  - apply str_eqb_neq in E. destruct (index f fs) as [j|]; [|done]. injection Hi as <-.
    constructor; [apply Hother; [simpl; congruence|done]|by apply IH].
Qed.

Section into.
Context (fs : list (string * ty)) (h0 : heap) (vs : list val) (ts : list tree).
Context (Hnd : NoDup fs.*1) (Hvs : Forall3 (λ f v t, holds h0 f.2 v t) fs vs ts).

(** The fields the statements so far have copied, and those with no references,
    are as they should be. *)
Definition copied (done : list string) (out : list val) (h : heap) : Prop :=
  h0 ⊆ h ∧ Forall3 (λ f v t, f.1 ∈ done ∨ flat f.2 = true → holds (h ∖ h0) f.2 v t) fs out ts.

Lemma copied_start : copied [] vs h0.
Proof.
  split; [done|]. eapply Forall3_impl; [exact Hvs|]. intros f v t Hh [Hin|Hf]; [by apply elem_of_nil in Hin|by apply (holds_flat h0)].
Qed.

Lemma copied_step stmt τ done out h out' h' :
  typeOf stmt.1 fs = Some τ → Deep τ stmt.2 → copied done out h → copyField fs vs (out, h) stmt = (out', h') →
  copied (stmt.1 :: done) out' h'.
Proof.
  intros Ht HD [Hs HF] Hx. unfold copyField in Hx.
  destruct (index stmt.1 fs) as [i|] eqn:Hi.
  2: { exfalso. revert Ht Hi. clear. induction fs as [|[g σ] l IH]; [done|]. simpl. destruct (str_eqb stmt.1 g); [done|].
       destruct (index stmt.1 l); [done|]. intros Ht _. by apply IH. }
  destruct (index_lookup _ _ _ _ _ _ Hi Hvs) as (σ & v & t & Ht' & Hv & Htr & Hh). rewrite Ht in Ht'. injection Ht' as <-.
  simpl in Hx. rewrite Hv in Hx. simpl in Hx. destruct (stmt.2 v h) as [v' h1] eqn:Hc. injection Hx as <- <-.
  destruct (HD _ _ _ _ _ (holds_weaken _ _ _ _ _ Hh Hs) Hc) as [H1 Hv']. split; [by trans h|].
  eapply index_insert; [exact Hi|exact Hnd|exact HF| |].
  - intros τ0 t0 Ht0 Htr0 _. rewrite Ht in Ht0. injection Ht0 as <-. rewrite Htr in Htr0. injection Htr0 as <-.
    eapply holds_weaken; [exact Hv'|by apply new_cells].
  - intros g w u Hg HP Hor. eapply holds_weaken; [apply HP|by apply old_cells].
    destruct Hor as [[Heq|Hin]%elem_of_cons|Hfl]; [by destruct Hg|by left|by right].
Qed.

Lemma copied_all stmts done out h out' h' :
  Forall (λ s, ∃ τ, typeOf s.1 fs = Some τ ∧ Deep τ s.2) stmts → copied done out h →
  foldl (copyField fs vs) (out, h) stmts = (out', h') → copied (reverse stmts.*1 ++ done) out' h'.
Proof.
  revert done out h. induction stmts as [|s stmts IH]; intros done out h; [by intros _ Hc [= <- <-]|].
  intros [(τ & Ht & HD) Hst]%Forall_cons Hc. cbn [foldl]. destruct (copyField fs vs (out, h) s) as [out1 h1] eqn:Hs. intros Hx.
  rewrite fmap_cons, reverse_cons, <- app_assoc. eapply IH; [done|by eapply copied_step|done].
Qed.
End into.

Lemma Deep_into fs stmts :
  covered stmts.*1 fs = true → Forall (λ s, ∃ τ, typeOf s.1 fs = Some τ ∧ Deep τ s.2) stmts → Deep (Struct fs) (into (Struct fs) stmts).
Proof.
  intros [Hnd%bool_decide_eq_true Hcov]%andb_prop Hst h v t v' h' Hh Hx. apply holds_Struct in Hh as (vs & ts & -> & -> & HF).
  cbn [into] in Hx. destruct (foldl (copyField fs vs) (vs, h) stmts) as [out h1] eqn:Hf. injection Hx as <- <-.
  destruct (copied_all fs h vs ts Hnd HF stmts [] vs h out h1 Hst (copied_start fs h vs ts HF) Hf) as [Hs Hc]. split; [done|].
  apply holds_Struct. exists out, ts. split_and!; [done|done|]. rewrite app_nil_r in Hc.
  clear -Hcov Hc. induction Hc as [|[f τ] w u fs out ts HP _ IH]; [constructor|].
  simpl in Hcov. apply andb_prop in Hcov as [Ho Hcov]. constructor; [|by apply IH]. apply HP. simpl.
  apply orb_prop in Ho as [Hin|Hfl]; [left|by right]. rewrite elem_of_reverse. apply existsb_exists in Hin as (g & Hg & ->%str_eqb_eq).
  by apply list_elem_of_In.
Qed.

(** A deep copy, and the original, are left alone by writes to the other's
    cells. *)
Lemma Deep_apart τ c h v t v' h' h2 :
  Deep τ c → holds h τ v t → c v h = (v', h') →
  (h ⊆ h2 → holds h2 τ v t) ∧ (h' ∖ h ⊆ h2 → holds h2 τ v' t).
Proof. intros HD Hh Hx. destruct (HD _ _ _ _ _ Hh Hx) as [_ Hv]. split; intros; by eapply holds_weaken. Qed.
