(* ===== verification/DeepCopy.v ===== *)
(** * The deep copies of the API types (api/v1alpha1/zz_generated.deepcopy.go)

    Every type of api/v1alpha1 as it is laid out in memory, and the methods that
    copy it. They are generated, but the controllers rely on them whenever they
    change an object they read from a cache, and on their being generated again
    whenever a type changes: each method copies every field of its type that has
    references. The types of Kubernetes and their methods are parameters. *)
From S2P Require Import Prelude Memory.

(** The types of other packages. *)
Inductive External :=
  | E_TypeMeta | E_ObjectMeta | E_ListMeta | E_Condition | E_Time | E_LabelSelector
  | E_ConfigMapKeySelector | E_SecretKeySelector | E_ResourceRequirements | E_PodTemplateSpec.

Class Externals := { ext : External → ty; ext_DeepCopyInto : External → copier }.

(** Their methods copy deeply; a TypeMeta has none, and is two strings. *)
Class ExternalLaws `{Externals} : Prop := {
  ext_deep e : Deep (ext e) (ext_DeepCopyInto e);
  ext_TypeMeta : flat (ext E_TypeMeta) = true;
}.

Section types.
Context `{Externals}.

(** *** CloudflaredConfigReference *)

Definition ty_CloudflaredConfigReference : ty := Struct [
  ("ConfigMapKeyRef", Ptr (ext E_ConfigMapKeySelector)); ("SecretKeyRef", Ptr (ext E_SecretKeySelector))].

Definition CloudflaredConfigReference_DeepCopyInto : copier := into ty_CloudflaredConfigReference [
  ("ConfigMapKeyRef", pointer (ext_DeepCopyInto E_ConfigMapKeySelector));
  ("SecretKeyRef", pointer (ext_DeepCopyInto E_SecretKeySelector))].

Definition CloudflaredConfigReference_DeepCopy : copier := deepCopy CloudflaredConfigReference_DeepCopyInto.

(** *** CloudflaredTunnelReference *)

Definition ty_CloudflaredTunnelReference : ty := Struct [
  ("Name", Atom)].

Definition CloudflaredTunnelReference_DeepCopyInto : copier := into ty_CloudflaredTunnelReference [].

Definition CloudflaredTunnelReference_DeepCopy : copier := deepCopy CloudflaredTunnelReference_DeepCopyInto.

(** *** CloudflaredConfigInline *)

Definition ty_CloudflaredConfigInline : ty := Struct [
  ("TunnelId", Ptr Atom); ("AccountId", Ptr Atom)].

Definition CloudflaredConfigInline_DeepCopyInto : copier := into ty_CloudflaredConfigInline [
  ("TunnelId", pointer assign); ("AccountId", pointer assign)].

Definition CloudflaredConfigInline_DeepCopy : copier := deepCopy CloudflaredConfigInline_DeepCopyInto.

(** *** CloudflaredConfig *)

Definition ty_CloudflaredConfig : ty := Struct [
  ("CloudflaredConfigInline", ty_CloudflaredConfigInline); ("TunnelRef", Ptr ty_CloudflaredTunnelReference);
  ("ValueFrom", Ptr ty_CloudflaredConfigReference)].

Definition CloudflaredConfig_DeepCopyInto : copier := into ty_CloudflaredConfig [
  ("CloudflaredConfigInline", CloudflaredConfigInline_DeepCopyInto); ("TunnelRef", pointer assign);
  ("ValueFrom", pointer CloudflaredConfigReference_DeepCopyInto)].

Definition CloudflaredConfig_DeepCopy : copier := deepCopy CloudflaredConfig_DeepCopyInto.

(** *** CloudflaredSpec *)

Definition ty_CloudflaredSpec : ty := Struct [
  ("Config", Ptr ty_CloudflaredConfig); ("Kind", Atom); ("Replicas", Ptr Atom);
  ("Template", Ptr (ext E_PodTemplateSpec)); ("Version", Atom)].

Definition CloudflaredSpec_DeepCopyInto : copier := into ty_CloudflaredSpec [
  ("Config", pointer CloudflaredConfig_DeepCopyInto); ("Replicas", pointer assign);
  ("Template", pointer (ext_DeepCopyInto E_PodTemplateSpec))].

Definition CloudflaredSpec_DeepCopy : copier := deepCopy CloudflaredSpec_DeepCopyInto.

(** *** CloudflaredStatus *)

Definition ty_CloudflaredStatus : ty := Struct [
  ("Kind", Ptr Atom); ("TunnelId", Ptr Atom); ("Conditions", Slice (ext E_Condition))].

Definition CloudflaredStatus_DeepCopyInto : copier := into ty_CloudflaredStatus [
  ("Kind", pointer assign); ("TunnelId", pointer assign); ("Conditions", slice (ext_DeepCopyInto E_Condition))].

Definition CloudflaredStatus_DeepCopy : copier := deepCopy CloudflaredStatus_DeepCopyInto.

(** *** Cloudflared *)

Definition ty_Cloudflared : ty := Struct [
  ("TypeMeta", ext E_TypeMeta); ("ObjectMeta", ext E_ObjectMeta); ("Spec", ty_CloudflaredSpec);
  ("Status", ty_CloudflaredStatus)].

Definition Cloudflared_DeepCopyInto : copier := into ty_Cloudflared [
  ("TypeMeta", assign); ("ObjectMeta", (ext_DeepCopyInto E_ObjectMeta)); ("Spec", CloudflaredSpec_DeepCopyInto);
  ("Status", CloudflaredStatus_DeepCopyInto)].

Definition Cloudflared_DeepCopy : copier := deepCopy Cloudflared_DeepCopyInto.

Definition Cloudflared_DeepCopyObject : val → heap → option val * heap := deepCopyObject Cloudflared_DeepCopy.

(** *** CloudflaredList *)

Definition ty_CloudflaredList : ty := Struct [
  ("TypeMeta", ext E_TypeMeta); ("ListMeta", ext E_ListMeta); ("Items", Slice ty_Cloudflared)].

Definition CloudflaredList_DeepCopyInto : copier := into ty_CloudflaredList [
  ("TypeMeta", assign); ("ListMeta", (ext_DeepCopyInto E_ListMeta)); ("Items", slice Cloudflared_DeepCopyInto)].

Definition CloudflaredList_DeepCopy : copier := deepCopy CloudflaredList_DeepCopyInto.

Definition CloudflaredList_DeepCopyObject : val → heap → option val * heap := deepCopyObject CloudflaredList_DeepCopy.

(** *** CloudflareGatewayTunnelReference *)

Definition ty_CloudflareGatewayTunnelReference : ty := Struct [
  ("Name", Atom); ("Namespace", Atom)].

Definition CloudflareGatewayTunnelReference_DeepCopyInto : copier := into ty_CloudflareGatewayTunnelReference [].

Definition CloudflareGatewayTunnelReference_DeepCopy : copier := deepCopy CloudflareGatewayTunnelReference_DeepCopyInto.

(** *** CloudflareGatewayTunnelTemplateMeta *)

Definition ty_CloudflareGatewayTunnelTemplateMeta : ty := Struct [
  ("Labels", Map Atom); ("Annotations", Map Atom)].

Definition CloudflareGatewayTunnelTemplateMeta_DeepCopyInto : copier := into ty_CloudflareGatewayTunnelTemplateMeta [
  ("Labels", mapping assign); ("Annotations", mapping assign)].

Definition CloudflareGatewayTunnelTemplateMeta_DeepCopy : copier := deepCopy CloudflareGatewayTunnelTemplateMeta_DeepCopyInto.

(** *** CloudflaredTemplateSpec *)

Definition ty_CloudflaredTemplateSpec : ty := Struct [
  ("ObjectMeta", ext E_ObjectMeta); ("Spec", ty_CloudflaredSpec)].

Definition CloudflaredTemplateSpec_DeepCopyInto : copier := into ty_CloudflaredTemplateSpec [
  ("ObjectMeta", (ext_DeepCopyInto E_ObjectMeta)); ("Spec", CloudflaredSpec_DeepCopyInto)].

Definition CloudflaredTemplateSpec_DeepCopy : copier := deepCopy CloudflaredTemplateSpec_DeepCopyInto.

(** *** CloudflareTunnelCloudflared *)

Definition ty_CloudflareTunnelCloudflared : ty := Struct [
  ("Selector", Ptr (ext E_LabelSelector)); ("Template", Ptr ty_CloudflaredTemplateSpec)].

Definition CloudflareTunnelCloudflared_DeepCopyInto : copier := into ty_CloudflareTunnelCloudflared [
  ("Selector", pointer (ext_DeepCopyInto E_LabelSelector)); ("Template", pointer CloudflaredTemplateSpec_DeepCopyInto)].

Definition CloudflareTunnelCloudflared_DeepCopy : copier := deepCopy CloudflareTunnelCloudflared_DeepCopyInto.

(** *** CloudflareTunnelDns *)

Definition ty_CloudflareTunnelDns : ty := Struct [
  ("ZoneId", Atom); ("Proxied", Ptr Atom); ("Ttl", Ptr Atom)].

Definition CloudflareTunnelDns_DeepCopyInto : copier := into ty_CloudflareTunnelDns [
  ("Proxied", pointer assign); ("Ttl", pointer assign)].

Definition CloudflareTunnelDns_DeepCopy : copier := deepCopy CloudflareTunnelDns_DeepCopyInto.

(** *** CloudflareTunnelOriginRequestAccess *)

Definition ty_CloudflareTunnelOriginRequestAccess : ty := Struct [
  ("AudTag", Slice Atom); ("TeamName", Atom); ("Required", Atom)].

Definition CloudflareTunnelOriginRequestAccess_DeepCopyInto : copier := into ty_CloudflareTunnelOriginRequestAccess [
  ("AudTag", slice assign)].

Definition CloudflareTunnelOriginRequestAccess_DeepCopy : copier := deepCopy CloudflareTunnelOriginRequestAccess_DeepCopyInto.

(** *** CloudflareTunnelOriginRequest *)

Definition ty_CloudflareTunnelOriginRequest : ty := Struct [
  ("Access", ty_CloudflareTunnelOriginRequestAccess); ("CaPool", Atom); ("ConnectTimeout", Atom);
  ("DisableChunkedEncoding", Atom); ("Http2Origin", Atom); ("HttpHostHeader", Atom); ("KeepAliveConnections", Atom);
  ("KeepAliveTimeout", Atom); ("NoHappyEyeballs", Atom); ("NoTlsVerify", Atom); ("OriginServerName", Atom);
  ("ProxyType", Atom); ("TcpKeepAlive", Atom); ("TlsTimeout", Atom)].

Definition CloudflareTunnelOriginRequest_DeepCopyInto : copier := into ty_CloudflareTunnelOriginRequest [
  ("Access", CloudflareTunnelOriginRequestAccess_DeepCopyInto)].

Definition CloudflareTunnelOriginRequest_DeepCopy : copier := deepCopy CloudflareTunnelOriginRequest_DeepCopyInto.

(** *** CloudflareTunnelConfigIngress *)

Definition ty_CloudflareTunnelConfigIngress : ty := Struct [
  ("Dns", Ptr ty_CloudflareTunnelDns); ("Hostname", Atom); ("Service", Atom);
  ("OriginRequest", ty_CloudflareTunnelOriginRequest); ("Path", Atom)].

Definition CloudflareTunnelConfigIngress_DeepCopyInto : copier := into ty_CloudflareTunnelConfigIngress [
  ("Dns", pointer CloudflareTunnelDns_DeepCopyInto); ("OriginRequest", CloudflareTunnelOriginRequest_DeepCopyInto)].

Definition CloudflareTunnelConfigIngress_DeepCopy : copier := deepCopy CloudflareTunnelConfigIngress_DeepCopyInto.

(** *** CloudflareTunnelWarpRouting *)

Definition ty_CloudflareTunnelWarpRouting : ty := Struct [
  ("Enable", Atom)].

Definition CloudflareTunnelWarpRouting_DeepCopyInto : copier := into ty_CloudflareTunnelWarpRouting [].

Definition CloudflareTunnelWarpRouting_DeepCopy : copier := deepCopy CloudflareTunnelWarpRouting_DeepCopyInto.

(** *** CloudflareTunnelConfig *)

Definition ty_CloudflareTunnelConfig : ty := Struct [
  ("Ingress", Slice ty_CloudflareTunnelConfigIngress); ("OriginRequest", ty_CloudflareTunnelOriginRequest);
  ("WarpRouting", Ptr ty_CloudflareTunnelWarpRouting)].

Definition CloudflareTunnelConfig_DeepCopyInto : copier := into ty_CloudflareTunnelConfig [
  ("Ingress", slice CloudflareTunnelConfigIngress_DeepCopyInto);
  ("OriginRequest", CloudflareTunnelOriginRequest_DeepCopyInto); ("WarpRouting", pointer assign)].

Definition CloudflareTunnelConfig_DeepCopy : copier := deepCopy CloudflareTunnelConfig_DeepCopyInto.

(** *** CloudflareTunnelRoute *)

Definition ty_CloudflareTunnelRoute : ty := Struct [
  ("Network", Atom); ("Comment", Atom); ("VirtualNetworkId", Atom)].

Definition CloudflareTunnelRoute_DeepCopyInto : copier := into ty_CloudflareTunnelRoute [].

Definition CloudflareTunnelRoute_DeepCopy : copier := deepCopy CloudflareTunnelRoute_DeepCopyInto.

(** *** CloudflareTunnelSecretReference *)

Definition ty_CloudflareTunnelSecretReference : ty := Struct [
  ("ConfigMapKeyRef", Ptr (ext E_ConfigMapKeySelector)); ("SecretKeyRef", Ptr (ext E_SecretKeySelector))].

Definition CloudflareTunnelSecretReference_DeepCopyInto : copier := into ty_CloudflareTunnelSecretReference [
  ("ConfigMapKeyRef", pointer (ext_DeepCopyInto E_ConfigMapKeySelector));
  ("SecretKeyRef", pointer (ext_DeepCopyInto E_SecretKeySelector))].

Definition CloudflareTunnelSecretReference_DeepCopy : copier := deepCopy CloudflareTunnelSecretReference_DeepCopyInto.

(** *** CloudflareTunnelSecret *)

Definition ty_CloudflareTunnelSecret : ty := Struct [
  ("Value", Ptr Atom); ("ValueFrom", Ptr ty_CloudflareTunnelSecretReference)].

Definition CloudflareTunnelSecret_DeepCopyInto : copier := into ty_CloudflareTunnelSecret [
  ("Value", pointer assign); ("ValueFrom", pointer CloudflareTunnelSecretReference_DeepCopyInto)].

Definition CloudflareTunnelSecret_DeepCopy : copier := deepCopy CloudflareTunnelSecret_DeepCopyInto.

(** *** CloudflareTunnelSpec *)

Definition ty_CloudflareTunnelSpec : ty := Struct [
  ("AccountId", Atom); ("Cloudflared", Ptr ty_CloudflareTunnelCloudflared); ("Config", Ptr ty_CloudflareTunnelConfig);
  ("ConfigSource", Atom); ("Dns", Ptr ty_CloudflareTunnelDns); ("Name", Atom);
  ("Routes", Slice ty_CloudflareTunnelRoute); ("TunnelSecret", Ptr ty_CloudflareTunnelSecret)].

Definition CloudflareTunnelSpec_DeepCopyInto : copier := into ty_CloudflareTunnelSpec [
  ("Cloudflared", pointer CloudflareTunnelCloudflared_DeepCopyInto);
  ("Config", pointer CloudflareTunnelConfig_DeepCopyInto); ("Dns", pointer CloudflareTunnelDns_DeepCopyInto);
  ("Routes", slice assign); ("TunnelSecret", pointer CloudflareTunnelSecret_DeepCopyInto)].

Definition CloudflareTunnelSpec_DeepCopy : copier := deepCopy CloudflareTunnelSpec_DeepCopyInto.

(** *** CloudflareGatewayTunnelTemplate *)

Definition ty_CloudflareGatewayTunnelTemplate : ty := Struct [
  ("ObjectMeta", ty_CloudflareGatewayTunnelTemplateMeta); ("Spec", ty_CloudflareTunnelSpec)].

Definition CloudflareGatewayTunnelTemplate_DeepCopyInto : copier := into ty_CloudflareGatewayTunnelTemplate [
  ("ObjectMeta", CloudflareGatewayTunnelTemplateMeta_DeepCopyInto); ("Spec", CloudflareTunnelSpec_DeepCopyInto)].

Definition CloudflareGatewayTunnelTemplate_DeepCopy : copier := deepCopy CloudflareGatewayTunnelTemplate_DeepCopyInto.

(** *** CloudflareGatewayEnvoy *)

Definition ty_CloudflareGatewayEnvoy : ty := Struct [
  ("Image", Atom); ("Replicas", Ptr Atom); ("ServiceType", Atom); ("Resources", Ptr (ext E_ResourceRequirements))].

Definition CloudflareGatewayEnvoy_DeepCopyInto : copier := into ty_CloudflareGatewayEnvoy [
  ("Replicas", pointer assign); ("Resources", pointer (ext_DeepCopyInto E_ResourceRequirements))].

Definition CloudflareGatewayEnvoy_DeepCopy : copier := deepCopy CloudflareGatewayEnvoy_DeepCopyInto.

(** *** CloudflareGatewayConfigSpec *)

Definition ty_CloudflareGatewayConfigSpec : ty := Struct [
  ("TunnelRef", Ptr ty_CloudflareGatewayTunnelReference); ("Template", Ptr ty_CloudflareGatewayTunnelTemplate);
  ("Envoy", Ptr ty_CloudflareGatewayEnvoy)].

Definition CloudflareGatewayConfigSpec_DeepCopyInto : copier := into ty_CloudflareGatewayConfigSpec [
  ("TunnelRef", pointer assign); ("Template", pointer CloudflareGatewayTunnelTemplate_DeepCopyInto);
  ("Envoy", pointer CloudflareGatewayEnvoy_DeepCopyInto)].

Definition CloudflareGatewayConfigSpec_DeepCopy : copier := deepCopy CloudflareGatewayConfigSpec_DeepCopyInto.

(** *** CloudflareGatewayConfigStatus *)

Definition ty_CloudflareGatewayConfigStatus : ty := Struct [
  ("Conditions", Slice (ext E_Condition))].

Definition CloudflareGatewayConfigStatus_DeepCopyInto : copier := into ty_CloudflareGatewayConfigStatus [
  ("Conditions", slice (ext_DeepCopyInto E_Condition))].

Definition CloudflareGatewayConfigStatus_DeepCopy : copier := deepCopy CloudflareGatewayConfigStatus_DeepCopyInto.

(** *** CloudflareGatewayConfig *)

Definition ty_CloudflareGatewayConfig : ty := Struct [
  ("TypeMeta", ext E_TypeMeta); ("ObjectMeta", ext E_ObjectMeta); ("Spec", ty_CloudflareGatewayConfigSpec);
  ("Status", ty_CloudflareGatewayConfigStatus)].

Definition CloudflareGatewayConfig_DeepCopyInto : copier := into ty_CloudflareGatewayConfig [
  ("TypeMeta", assign); ("ObjectMeta", (ext_DeepCopyInto E_ObjectMeta));
  ("Spec", CloudflareGatewayConfigSpec_DeepCopyInto); ("Status", CloudflareGatewayConfigStatus_DeepCopyInto)].

Definition CloudflareGatewayConfig_DeepCopy : copier := deepCopy CloudflareGatewayConfig_DeepCopyInto.

Definition CloudflareGatewayConfig_DeepCopyObject : val → heap → option val * heap := deepCopyObject CloudflareGatewayConfig_DeepCopy.

(** *** CloudflareGatewayConfigList *)

Definition ty_CloudflareGatewayConfigList : ty := Struct [
  ("TypeMeta", ext E_TypeMeta); ("ListMeta", ext E_ListMeta); ("Items", Slice ty_CloudflareGatewayConfig)].

Definition CloudflareGatewayConfigList_DeepCopyInto : copier := into ty_CloudflareGatewayConfigList [
  ("TypeMeta", assign); ("ListMeta", (ext_DeepCopyInto E_ListMeta));
  ("Items", slice CloudflareGatewayConfig_DeepCopyInto)].

Definition CloudflareGatewayConfigList_DeepCopy : copier := deepCopy CloudflareGatewayConfigList_DeepCopyInto.

Definition CloudflareGatewayConfigList_DeepCopyObject : val → heap → option val * heap := deepCopyObject CloudflareGatewayConfigList_DeepCopy.

(** *** CloudflareTunnelStatus *)

Definition ty_CloudflareTunnelStatus : ty := Struct [
  ("AccountTag", Atom); ("Conditions", Slice (ext E_Condition)); ("ConnectionsActiveAt", ext E_Time);
  ("ConnectionsInactiveAt", ext E_Time); ("CreatedAt", ext E_Time); ("Id", Ptr Atom); ("DnsRecords", Atom);
  ("DnsRecordsReady", Atom); ("RoutesReady", Atom); ("Instances", Atom); ("Name", Atom); ("RemoteConfig", Atom);
  ("Status", Atom); ("Type", Atom)].

Definition CloudflareTunnelStatus_DeepCopyInto : copier := into ty_CloudflareTunnelStatus [
  ("Conditions", slice (ext_DeepCopyInto E_Condition)); ("ConnectionsActiveAt", (ext_DeepCopyInto E_Time));
  ("ConnectionsInactiveAt", (ext_DeepCopyInto E_Time)); ("CreatedAt", (ext_DeepCopyInto E_Time));
  ("Id", pointer assign)].

Definition CloudflareTunnelStatus_DeepCopy : copier := deepCopy CloudflareTunnelStatus_DeepCopyInto.

(** *** CloudflareTunnel *)

Definition ty_CloudflareTunnel : ty := Struct [
  ("TypeMeta", ext E_TypeMeta); ("ObjectMeta", ext E_ObjectMeta); ("Spec", ty_CloudflareTunnelSpec);
  ("Status", ty_CloudflareTunnelStatus)].

Definition CloudflareTunnel_DeepCopyInto : copier := into ty_CloudflareTunnel [
  ("TypeMeta", assign); ("ObjectMeta", (ext_DeepCopyInto E_ObjectMeta)); ("Spec", CloudflareTunnelSpec_DeepCopyInto);
  ("Status", CloudflareTunnelStatus_DeepCopyInto)].

Definition CloudflareTunnel_DeepCopy : copier := deepCopy CloudflareTunnel_DeepCopyInto.

Definition CloudflareTunnel_DeepCopyObject : val → heap → option val * heap := deepCopyObject CloudflareTunnel_DeepCopy.

(** *** CloudflareTunnelList *)

Definition ty_CloudflareTunnelList : ty := Struct [
  ("TypeMeta", ext E_TypeMeta); ("ListMeta", ext E_ListMeta); ("Items", Slice ty_CloudflareTunnel)].

Definition CloudflareTunnelList_DeepCopyInto : copier := into ty_CloudflareTunnelList [
  ("TypeMeta", assign); ("ListMeta", (ext_DeepCopyInto E_ListMeta)); ("Items", slice CloudflareTunnel_DeepCopyInto)].

Definition CloudflareTunnelList_DeepCopy : copier := deepCopy CloudflareTunnelList_DeepCopyInto.

Definition CloudflareTunnelList_DeepCopyObject : val → heap → option val * heap := deepCopyObject CloudflareTunnelList_DeepCopy.

(** *** RecordSettings *)

Definition ty_RecordSettings : ty := Struct [
  ("Ipv4Only", Atom); ("Ipv6Only", Atom)].

Definition RecordSettings_DeepCopyInto : copier := into ty_RecordSettings [].

Definition RecordSettings_DeepCopy : copier := deepCopy RecordSettings_DeepCopyInto.

(** *** CNAMERecordSettings *)

Definition ty_CNAMERecordSettings : ty := Struct [
  ("RecordSettings", ty_RecordSettings); ("FlattenCname", Atom)].

Definition CNAMERecordSettings_DeepCopyInto : copier := into ty_CNAMERecordSettings [
  ("RecordSettings", assign)].

Definition CNAMERecordSettings_DeepCopy : copier := deepCopy CNAMERecordSettings_DeepCopyInto.

(** *** ARecord *)

Definition ty_ARecord : ty := Struct [
  ("Comment", Atom); ("Content", Atom); ("Name", Atom); ("Proxied", Atom); ("Settings", ty_RecordSettings);
  ("Tags", Slice Atom); ("Ttl", Atom); ("Type", Atom)].

Definition ARecord_DeepCopyInto : copier := into ty_ARecord [
  ("Settings", assign); ("Tags", slice assign)].

Definition ARecord_DeepCopy : copier := deepCopy ARecord_DeepCopyInto.

(** *** AAAARecord *)

Definition ty_AAAARecord : ty := Struct [
  ("Comment", Atom); ("Content", Atom); ("Name", Atom); ("Proxied", Atom); ("Settings", ty_RecordSettings);
  ("Tags", Slice Atom); ("Ttl", Atom); ("Type", Atom)].

Definition AAAARecord_DeepCopyInto : copier := into ty_AAAARecord [
  ("Settings", assign); ("Tags", slice assign)].

Definition AAAARecord_DeepCopy : copier := deepCopy AAAARecord_DeepCopyInto.

(** *** CAARecordData *)

Definition ty_CAARecordData : ty := Struct [
  ("Flags", Atom); ("Tag", Atom); ("Value", Atom)].

Definition CAARecordData_DeepCopyInto : copier := into ty_CAARecordData [].

Definition CAARecordData_DeepCopy : copier := deepCopy CAARecordData_DeepCopyInto.

(** *** CAARecord *)

Definition ty_CAARecord : ty := Struct [
  ("Comment", Atom); ("Content", Atom); ("Data", ty_CAARecordData); ("Name", Atom); ("Proxied", Atom);
  ("Settings", ty_RecordSettings); ("Tags", Slice Atom); ("Ttl", Atom); ("Type", Atom)].

Definition CAARecord_DeepCopyInto : copier := into ty_CAARecord [
  ("Data", assign); ("Settings", assign); ("Tags", slice assign)].

Definition CAARecord_DeepCopy : copier := deepCopy CAARecord_DeepCopyInto.

(** *** CERTRecordData *)

Definition ty_CERTRecordData : ty := Struct [
  ("Algorithm", Atom); ("Certificate", Atom); ("KeyTag", Atom); ("Type", Atom)].

Definition CERTRecordData_DeepCopyInto : copier := into ty_CERTRecordData [].

Definition CERTRecordData_DeepCopy : copier := deepCopy CERTRecordData_DeepCopyInto.

(** *** CERTRecord *)

Definition ty_CERTRecord : ty := Struct [
  ("Comment", Atom); ("Content", Atom); ("Data", ty_CERTRecordData); ("Name", Atom); ("Proxied", Atom);
  ("Settings", ty_RecordSettings); ("Tags", Slice Atom); ("Ttl", Atom); ("Type", Atom)].

Definition CERTRecord_DeepCopyInto : copier := into ty_CERTRecord [
  ("Data", assign); ("Settings", assign); ("Tags", slice assign)].

Definition CERTRecord_DeepCopy : copier := deepCopy CERTRecord_DeepCopyInto.

(** *** DnsRecordTunnelReference *)

Definition ty_DnsRecordTunnelReference : ty := Struct [
  ("Name", Atom)].

Definition DnsRecordTunnelReference_DeepCopyInto : copier := into ty_DnsRecordTunnelReference [].

Definition DnsRecordTunnelReference_DeepCopy : copier := deepCopy DnsRecordTunnelReference_DeepCopyInto.

(** *** CNAMERecord *)

Definition ty_CNAMERecord : ty := Struct [
  ("Comment", Atom); ("Content", Atom); ("TunnelRef", Ptr ty_DnsRecordTunnelReference); ("Name", Atom);
  ("Proxied", Atom); ("Settings", ty_CNAMERecordSettings); ("Tags", Slice Atom); ("Ttl", Atom); ("Type", Atom)].

Definition CNAMERecord_DeepCopyInto : copier := into ty_CNAMERecord [
  ("TunnelRef", pointer assign); ("Settings", assign); ("Tags", slice assign)].

Definition CNAMERecord_DeepCopy : copier := deepCopy CNAMERecord_DeepCopyInto.

(** *** TXTRecord *)

Definition ty_TXTRecord : ty := Struct [
  ("Comment", Atom); ("Content", Atom); ("Name", Atom); ("Proxied", Atom); ("Settings", ty_RecordSettings);
  ("Tags", Slice Atom); ("Ttl", Atom); ("Type", Atom)].

Definition TXTRecord_DeepCopyInto : copier := into ty_TXTRecord [
  ("Settings", assign); ("Tags", slice assign)].

Definition TXTRecord_DeepCopy : copier := deepCopy TXTRecord_DeepCopyInto.

(** *** Record *)

Definition ty_Record : ty := Struct [
  ("ARecord", Ptr ty_ARecord); ("AAAARecord", Ptr ty_AAAARecord); ("CAARecord", Ptr ty_CAARecord);
  ("CNAMERecord", Ptr ty_CNAMERecord); ("TXTRecord", Ptr ty_TXTRecord)].

Definition Record_DeepCopyInto : copier := into ty_Record [
  ("ARecord", pointer ARecord_DeepCopyInto); ("AAAARecord", pointer AAAARecord_DeepCopyInto);
  ("CAARecord", pointer CAARecord_DeepCopyInto); ("CNAMERecord", pointer CNAMERecord_DeepCopyInto);
  ("TXTRecord", pointer TXTRecord_DeepCopyInto)].

Definition Record_DeepCopy : copier := deepCopy Record_DeepCopyInto.

(** *** DnsRecordSpec *)

Definition ty_DnsRecordSpec : ty := Struct [
  ("ZoneId", Atom); ("Record", ty_Record)].

Definition DnsRecordSpec_DeepCopyInto : copier := into ty_DnsRecordSpec [
  ("Record", Record_DeepCopyInto)].

Definition DnsRecordSpec_DeepCopy : copier := deepCopy DnsRecordSpec_DeepCopyInto.

(** *** DnsRecordStatus *)

Definition ty_DnsRecordStatus : ty := Struct [
  ("Id", Ptr Atom); ("Name", Ptr Atom); ("Comment", Ptr Atom); ("Content", Ptr Atom); ("Type", Ptr Atom)].

Definition DnsRecordStatus_DeepCopyInto : copier := into ty_DnsRecordStatus [
  ("Id", pointer assign); ("Name", pointer assign); ("Comment", pointer assign); ("Content", pointer assign);
  ("Type", pointer assign)].

Definition DnsRecordStatus_DeepCopy : copier := deepCopy DnsRecordStatus_DeepCopyInto.

(** *** DnsRecord *)

Definition ty_DnsRecord : ty := Struct [
  ("TypeMeta", ext E_TypeMeta); ("ObjectMeta", ext E_ObjectMeta); ("Spec", ty_DnsRecordSpec);
  ("Status", ty_DnsRecordStatus)].

Definition DnsRecord_DeepCopyInto : copier := into ty_DnsRecord [
  ("TypeMeta", assign); ("ObjectMeta", (ext_DeepCopyInto E_ObjectMeta)); ("Spec", DnsRecordSpec_DeepCopyInto);
  ("Status", DnsRecordStatus_DeepCopyInto)].

Definition DnsRecord_DeepCopy : copier := deepCopy DnsRecord_DeepCopyInto.

Definition DnsRecord_DeepCopyObject : val → heap → option val * heap := deepCopyObject DnsRecord_DeepCopy.

(** *** DnsRecordList *)

Definition ty_DnsRecordList : ty := Struct [
  ("TypeMeta", ext E_TypeMeta); ("ListMeta", ext E_ListMeta); ("Items", Slice ty_DnsRecord)].

Definition DnsRecordList_DeepCopyInto : copier := into ty_DnsRecordList [
  ("TypeMeta", assign); ("ListMeta", (ext_DeepCopyInto E_ListMeta)); ("Items", slice DnsRecord_DeepCopyInto)].

Definition DnsRecordList_DeepCopy : copier := deepCopy DnsRecordList_DeepCopyInto.

Definition DnsRecordList_DeepCopyObject : val → heap → option val * heap := deepCopyObject DnsRecordList_DeepCopy.

(** *** CloudflareApiTokenReference *)

Definition ty_CloudflareApiTokenReference : ty := Struct [
  ("ConfigMapKeyRef", Ptr (ext E_ConfigMapKeySelector)); ("SecretKeyRef", Ptr (ext E_SecretKeySelector))].

Definition CloudflareApiTokenReference_DeepCopyInto : copier := into ty_CloudflareApiTokenReference [
  ("ConfigMapKeyRef", pointer (ext_DeepCopyInto E_ConfigMapKeySelector));
  ("SecretKeyRef", pointer (ext_DeepCopyInto E_SecretKeySelector))].

Definition CloudflareApiTokenReference_DeepCopy : copier := deepCopy CloudflareApiTokenReference_DeepCopyInto.

(** *** CloudflareApiToken *)

Definition ty_CloudflareApiToken : ty := Struct [
  ("Value", Ptr Atom); ("ValueFrom", Ptr ty_CloudflareApiTokenReference)].

Definition CloudflareApiToken_DeepCopyInto : copier := into ty_CloudflareApiToken [
  ("Value", pointer assign); ("ValueFrom", pointer CloudflareApiTokenReference_DeepCopyInto)].

Definition CloudflareApiToken_DeepCopy : copier := deepCopy CloudflareApiToken_DeepCopyInto.

(** Every type of the API, with its method. *)
Definition apiTypes : list (ty * copier) := [
  (ty_CloudflaredConfigReference, CloudflaredConfigReference_DeepCopy);
  (ty_CloudflaredTunnelReference, CloudflaredTunnelReference_DeepCopy);
  (ty_CloudflaredConfigInline, CloudflaredConfigInline_DeepCopy); (ty_CloudflaredConfig, CloudflaredConfig_DeepCopy);
  (ty_CloudflaredSpec, CloudflaredSpec_DeepCopy); (ty_CloudflaredStatus, CloudflaredStatus_DeepCopy);
  (ty_Cloudflared, Cloudflared_DeepCopy); (ty_CloudflaredList, CloudflaredList_DeepCopy);
  (ty_CloudflareGatewayTunnelReference, CloudflareGatewayTunnelReference_DeepCopy);
  (ty_CloudflareGatewayTunnelTemplateMeta, CloudflareGatewayTunnelTemplateMeta_DeepCopy);
  (ty_CloudflaredTemplateSpec, CloudflaredTemplateSpec_DeepCopy);
  (ty_CloudflareTunnelCloudflared, CloudflareTunnelCloudflared_DeepCopy);
  (ty_CloudflareTunnelDns, CloudflareTunnelDns_DeepCopy);
  (ty_CloudflareTunnelOriginRequestAccess, CloudflareTunnelOriginRequestAccess_DeepCopy);
  (ty_CloudflareTunnelOriginRequest, CloudflareTunnelOriginRequest_DeepCopy);
  (ty_CloudflareTunnelConfigIngress, CloudflareTunnelConfigIngress_DeepCopy);
  (ty_CloudflareTunnelWarpRouting, CloudflareTunnelWarpRouting_DeepCopy);
  (ty_CloudflareTunnelConfig, CloudflareTunnelConfig_DeepCopy);
  (ty_CloudflareTunnelRoute, CloudflareTunnelRoute_DeepCopy);
  (ty_CloudflareTunnelSecretReference, CloudflareTunnelSecretReference_DeepCopy);
  (ty_CloudflareTunnelSecret, CloudflareTunnelSecret_DeepCopy);
  (ty_CloudflareTunnelSpec, CloudflareTunnelSpec_DeepCopy);
  (ty_CloudflareGatewayTunnelTemplate, CloudflareGatewayTunnelTemplate_DeepCopy);
  (ty_CloudflareGatewayEnvoy, CloudflareGatewayEnvoy_DeepCopy);
  (ty_CloudflareGatewayConfigSpec, CloudflareGatewayConfigSpec_DeepCopy);
  (ty_CloudflareGatewayConfigStatus, CloudflareGatewayConfigStatus_DeepCopy);
  (ty_CloudflareGatewayConfig, CloudflareGatewayConfig_DeepCopy);
  (ty_CloudflareGatewayConfigList, CloudflareGatewayConfigList_DeepCopy);
  (ty_CloudflareTunnelStatus, CloudflareTunnelStatus_DeepCopy); (ty_CloudflareTunnel, CloudflareTunnel_DeepCopy);
  (ty_CloudflareTunnelList, CloudflareTunnelList_DeepCopy); (ty_RecordSettings, RecordSettings_DeepCopy);
  (ty_CNAMERecordSettings, CNAMERecordSettings_DeepCopy); (ty_ARecord, ARecord_DeepCopy);
  (ty_AAAARecord, AAAARecord_DeepCopy); (ty_CAARecordData, CAARecordData_DeepCopy);
  (ty_CAARecord, CAARecord_DeepCopy); (ty_CERTRecordData, CERTRecordData_DeepCopy);
  (ty_CERTRecord, CERTRecord_DeepCopy); (ty_DnsRecordTunnelReference, DnsRecordTunnelReference_DeepCopy);
  (ty_CNAMERecord, CNAMERecord_DeepCopy); (ty_TXTRecord, TXTRecord_DeepCopy); (ty_Record, Record_DeepCopy);
  (ty_DnsRecordSpec, DnsRecordSpec_DeepCopy); (ty_DnsRecordStatus, DnsRecordStatus_DeepCopy);
  (ty_DnsRecord, DnsRecord_DeepCopy); (ty_DnsRecordList, DnsRecordList_DeepCopy);
  (ty_CloudflareApiTokenReference, CloudflareApiTokenReference_DeepCopy);
  (ty_CloudflareApiToken, CloudflareApiToken_DeepCopy)].

(** The types that are objects of the API server. *)
Definition apiObjects : list (ty * (val → heap → option val * heap)) := [
  (ty_Cloudflared, Cloudflared_DeepCopyObject); (ty_CloudflaredList, CloudflaredList_DeepCopyObject);
  (ty_CloudflareGatewayConfig, CloudflareGatewayConfig_DeepCopyObject);
  (ty_CloudflareGatewayConfigList, CloudflareGatewayConfigList_DeepCopyObject);
  (ty_CloudflareTunnel, CloudflareTunnel_DeepCopyObject);
  (ty_CloudflareTunnelList, CloudflareTunnelList_DeepCopyObject); (ty_DnsRecord, DnsRecord_DeepCopyObject);
  (ty_DnsRecordList, DnsRecordList_DeepCopyObject)].
End types.

(** ** Properties *)

Create HintDb deep.
#[export] Hint Resolve Deep_pointer Deep_slice Deep_mapping ext_deep : deep.
#[export] Hint Extern 1 (Deep _ assign) => apply Deep_assign; first [exact ext_TypeMeta|reflexivity] : deep.

(** A method that copies every field with references, each deeply. *)
Ltac deep_struct :=
  apply Deep_into; [reflexivity|];
  repeat (apply Forall_cons; split; [eexists; split; [reflexivity|cbn [snd]; solve [eauto with deep nocore]]|]); by apply Forall_nil.

Section deep.
Context `{ExternalLaws}.

Lemma CloudflaredConfigReference_deep : Deep ty_CloudflaredConfigReference CloudflaredConfigReference_DeepCopyInto.
Proof. deep_struct. Qed.
#[local] Hint Resolve CloudflaredConfigReference_deep : deep.

Lemma CloudflaredTunnelReference_deep : Deep ty_CloudflaredTunnelReference CloudflaredTunnelReference_DeepCopyInto.
Proof. deep_struct. Qed.
#[local] Hint Resolve CloudflaredTunnelReference_deep : deep.

Lemma CloudflaredConfigInline_deep : Deep ty_CloudflaredConfigInline CloudflaredConfigInline_DeepCopyInto.
Proof. deep_struct. Qed.
#[local] Hint Resolve CloudflaredConfigInline_deep : deep.

Lemma CloudflaredConfig_deep : Deep ty_CloudflaredConfig CloudflaredConfig_DeepCopyInto.
Proof. deep_struct. Qed.
#[local] Hint Resolve CloudflaredConfig_deep : deep.

Lemma CloudflaredSpec_deep : Deep ty_CloudflaredSpec CloudflaredSpec_DeepCopyInto.
Proof. deep_struct. Qed.
#[local] Hint Resolve CloudflaredSpec_deep : deep.

Lemma CloudflaredStatus_deep : Deep ty_CloudflaredStatus CloudflaredStatus_DeepCopyInto.
Proof. deep_struct. Qed.
#[local] Hint Resolve CloudflaredStatus_deep : deep.

Lemma Cloudflared_deep : Deep ty_Cloudflared Cloudflared_DeepCopyInto.
Proof. deep_struct. Qed.
#[local] Hint Resolve Cloudflared_deep : deep.

Lemma CloudflaredList_deep : Deep ty_CloudflaredList CloudflaredList_DeepCopyInto.
Proof. deep_struct. Qed.
#[local] Hint Resolve CloudflaredList_deep : deep.

Lemma CloudflareGatewayTunnelReference_deep : Deep ty_CloudflareGatewayTunnelReference CloudflareGatewayTunnelReference_DeepCopyInto.
Proof. deep_struct. Qed.
#[local] Hint Resolve CloudflareGatewayTunnelReference_deep : deep.

Lemma CloudflareGatewayTunnelTemplateMeta_deep : Deep ty_CloudflareGatewayTunnelTemplateMeta CloudflareGatewayTunnelTemplateMeta_DeepCopyInto.
Proof. deep_struct. Qed.
#[local] Hint Resolve CloudflareGatewayTunnelTemplateMeta_deep : deep.

Lemma CloudflaredTemplateSpec_deep : Deep ty_CloudflaredTemplateSpec CloudflaredTemplateSpec_DeepCopyInto.
Proof. deep_struct. Qed.
#[local] Hint Resolve CloudflaredTemplateSpec_deep : deep.

Lemma CloudflareTunnelCloudflared_deep : Deep ty_CloudflareTunnelCloudflared CloudflareTunnelCloudflared_DeepCopyInto.
Proof. deep_struct. Qed.
#[local] Hint Resolve CloudflareTunnelCloudflared_deep : deep.

Lemma CloudflareTunnelDns_deep : Deep ty_CloudflareTunnelDns CloudflareTunnelDns_DeepCopyInto.
Proof. deep_struct. Qed.
#[local] Hint Resolve CloudflareTunnelDns_deep : deep.

Lemma CloudflareTunnelOriginRequestAccess_deep : Deep ty_CloudflareTunnelOriginRequestAccess CloudflareTunnelOriginRequestAccess_DeepCopyInto.
Proof. deep_struct. Qed.
#[local] Hint Resolve CloudflareTunnelOriginRequestAccess_deep : deep.

Lemma CloudflareTunnelOriginRequest_deep : Deep ty_CloudflareTunnelOriginRequest CloudflareTunnelOriginRequest_DeepCopyInto.
Proof. deep_struct. Qed.
#[local] Hint Resolve CloudflareTunnelOriginRequest_deep : deep.

Lemma CloudflareTunnelConfigIngress_deep : Deep ty_CloudflareTunnelConfigIngress CloudflareTunnelConfigIngress_DeepCopyInto.
Proof. deep_struct. Qed.
#[local] Hint Resolve CloudflareTunnelConfigIngress_deep : deep.

Lemma CloudflareTunnelWarpRouting_deep : Deep ty_CloudflareTunnelWarpRouting CloudflareTunnelWarpRouting_DeepCopyInto.
Proof. deep_struct. Qed.
#[local] Hint Resolve CloudflareTunnelWarpRouting_deep : deep.

Lemma CloudflareTunnelConfig_deep : Deep ty_CloudflareTunnelConfig CloudflareTunnelConfig_DeepCopyInto.
Proof. deep_struct. Qed.
#[local] Hint Resolve CloudflareTunnelConfig_deep : deep.

Lemma CloudflareTunnelRoute_deep : Deep ty_CloudflareTunnelRoute CloudflareTunnelRoute_DeepCopyInto.
Proof. deep_struct. Qed.
#[local] Hint Resolve CloudflareTunnelRoute_deep : deep.

Lemma CloudflareTunnelSecretReference_deep : Deep ty_CloudflareTunnelSecretReference CloudflareTunnelSecretReference_DeepCopyInto.
Proof. deep_struct. Qed.
#[local] Hint Resolve CloudflareTunnelSecretReference_deep : deep.

Lemma CloudflareTunnelSecret_deep : Deep ty_CloudflareTunnelSecret CloudflareTunnelSecret_DeepCopyInto.
Proof. deep_struct. Qed.
#[local] Hint Resolve CloudflareTunnelSecret_deep : deep.

Lemma CloudflareTunnelSpec_deep : Deep ty_CloudflareTunnelSpec CloudflareTunnelSpec_DeepCopyInto.
Proof. deep_struct. Qed.
#[local] Hint Resolve CloudflareTunnelSpec_deep : deep.

Lemma CloudflareGatewayTunnelTemplate_deep : Deep ty_CloudflareGatewayTunnelTemplate CloudflareGatewayTunnelTemplate_DeepCopyInto.
Proof. deep_struct. Qed.
#[local] Hint Resolve CloudflareGatewayTunnelTemplate_deep : deep.

Lemma CloudflareGatewayEnvoy_deep : Deep ty_CloudflareGatewayEnvoy CloudflareGatewayEnvoy_DeepCopyInto.
Proof. deep_struct. Qed.
#[local] Hint Resolve CloudflareGatewayEnvoy_deep : deep.

Lemma CloudflareGatewayConfigSpec_deep : Deep ty_CloudflareGatewayConfigSpec CloudflareGatewayConfigSpec_DeepCopyInto.
Proof. deep_struct. Qed.
#[local] Hint Resolve CloudflareGatewayConfigSpec_deep : deep.

Lemma CloudflareGatewayConfigStatus_deep : Deep ty_CloudflareGatewayConfigStatus CloudflareGatewayConfigStatus_DeepCopyInto.
Proof. deep_struct. Qed.
#[local] Hint Resolve CloudflareGatewayConfigStatus_deep : deep.

Lemma CloudflareGatewayConfig_deep : Deep ty_CloudflareGatewayConfig CloudflareGatewayConfig_DeepCopyInto.
Proof. deep_struct. Qed.
#[local] Hint Resolve CloudflareGatewayConfig_deep : deep.

Lemma CloudflareGatewayConfigList_deep : Deep ty_CloudflareGatewayConfigList CloudflareGatewayConfigList_DeepCopyInto.
Proof. deep_struct. Qed.
#[local] Hint Resolve CloudflareGatewayConfigList_deep : deep.

Lemma CloudflareTunnelStatus_deep : Deep ty_CloudflareTunnelStatus CloudflareTunnelStatus_DeepCopyInto.
Proof. deep_struct. Qed.
#[local] Hint Resolve CloudflareTunnelStatus_deep : deep.

Lemma CloudflareTunnel_deep : Deep ty_CloudflareTunnel CloudflareTunnel_DeepCopyInto.
Proof. deep_struct. Qed.
#[local] Hint Resolve CloudflareTunnel_deep : deep.

Lemma CloudflareTunnelList_deep : Deep ty_CloudflareTunnelList CloudflareTunnelList_DeepCopyInto.
Proof. deep_struct. Qed.
#[local] Hint Resolve CloudflareTunnelList_deep : deep.

Lemma RecordSettings_deep : Deep ty_RecordSettings RecordSettings_DeepCopyInto.
Proof. deep_struct. Qed.
#[local] Hint Resolve RecordSettings_deep : deep.

Lemma CNAMERecordSettings_deep : Deep ty_CNAMERecordSettings CNAMERecordSettings_DeepCopyInto.
Proof. deep_struct. Qed.
#[local] Hint Resolve CNAMERecordSettings_deep : deep.

Lemma ARecord_deep : Deep ty_ARecord ARecord_DeepCopyInto.
Proof. deep_struct. Qed.
#[local] Hint Resolve ARecord_deep : deep.

Lemma AAAARecord_deep : Deep ty_AAAARecord AAAARecord_DeepCopyInto.
Proof. deep_struct. Qed.
#[local] Hint Resolve AAAARecord_deep : deep.

Lemma CAARecordData_deep : Deep ty_CAARecordData CAARecordData_DeepCopyInto.
Proof. deep_struct. Qed.
#[local] Hint Resolve CAARecordData_deep : deep.

Lemma CAARecord_deep : Deep ty_CAARecord CAARecord_DeepCopyInto.
Proof. deep_struct. Qed.
#[local] Hint Resolve CAARecord_deep : deep.

Lemma CERTRecordData_deep : Deep ty_CERTRecordData CERTRecordData_DeepCopyInto.
Proof. deep_struct. Qed.
#[local] Hint Resolve CERTRecordData_deep : deep.

Lemma CERTRecord_deep : Deep ty_CERTRecord CERTRecord_DeepCopyInto.
Proof. deep_struct. Qed.
#[local] Hint Resolve CERTRecord_deep : deep.

Lemma DnsRecordTunnelReference_deep : Deep ty_DnsRecordTunnelReference DnsRecordTunnelReference_DeepCopyInto.
Proof. deep_struct. Qed.
#[local] Hint Resolve DnsRecordTunnelReference_deep : deep.

Lemma CNAMERecord_deep : Deep ty_CNAMERecord CNAMERecord_DeepCopyInto.
Proof. deep_struct. Qed.
#[local] Hint Resolve CNAMERecord_deep : deep.

Lemma TXTRecord_deep : Deep ty_TXTRecord TXTRecord_DeepCopyInto.
Proof. deep_struct. Qed.
#[local] Hint Resolve TXTRecord_deep : deep.

Lemma Record_deep : Deep ty_Record Record_DeepCopyInto.
Proof. deep_struct. Qed.
#[local] Hint Resolve Record_deep : deep.

Lemma DnsRecordSpec_deep : Deep ty_DnsRecordSpec DnsRecordSpec_DeepCopyInto.
Proof. deep_struct. Qed.
#[local] Hint Resolve DnsRecordSpec_deep : deep.

Lemma DnsRecordStatus_deep : Deep ty_DnsRecordStatus DnsRecordStatus_DeepCopyInto.
Proof. deep_struct. Qed.
#[local] Hint Resolve DnsRecordStatus_deep : deep.

Lemma DnsRecord_deep : Deep ty_DnsRecord DnsRecord_DeepCopyInto.
Proof. deep_struct. Qed.
#[local] Hint Resolve DnsRecord_deep : deep.

Lemma DnsRecordList_deep : Deep ty_DnsRecordList DnsRecordList_DeepCopyInto.
Proof. deep_struct. Qed.
#[local] Hint Resolve DnsRecordList_deep : deep.

Lemma CloudflareApiTokenReference_deep : Deep ty_CloudflareApiTokenReference CloudflareApiTokenReference_DeepCopyInto.
Proof. deep_struct. Qed.
#[local] Hint Resolve CloudflareApiTokenReference_deep : deep.

Lemma CloudflareApiToken_deep : Deep ty_CloudflareApiToken CloudflareApiToken_DeepCopyInto.
Proof. deep_struct. Qed.
#[local] Hint Resolve CloudflareApiToken_deep : deep.

Lemma api_deep τ c : (τ, c) ∈ apiTypes → Deep (Ptr τ) c.
Proof.
  intros Hin. unfold apiTypes in Hin.
  repeat (apply elem_of_cons in Hin as [[= -> ->]|Hin]; [apply Deep_pointer; eauto with deep nocore|]). by apply elem_of_nil in Hin.
Qed.

Lemma objects_deep τ c : (τ, c) ∈ apiObjects → ∃ c', Deep (Ptr τ) c' ∧ c = deepCopyObject c'.
Proof.
  intros Hin. unfold apiObjects in Hin.
  repeat (apply elem_of_cons in Hin as [[= -> ->]|Hin];
    [eexists; split; [|reflexivity]; apply Deep_pointer; eauto with deep nocore|]); by apply elem_of_nil in Hin.
Qed.

(** C32. A copy of a value of any type of the API is a deep one. It reads exactly as
    the original, through every pointer, slice and map, from cells that the copy
    made; and it changes no cell that was there. So an object read from a cache, or
    the original a patch is computed from, stays what it was whatever is then
    written through the copy, and the other way round. *)
Theorem deep_copies τ c h v t v' h' :
  (τ, c) ∈ apiTypes → holds h (Ptr τ) v t → c v h = (v', h') →
  h ⊆ h' ∧ holds (h' ∖ h) (Ptr τ) v' t ∧
  (∀ h2, h ⊆ h2 → holds h2 (Ptr τ) v t) ∧ (∀ h2, h' ∖ h ⊆ h2 → holds h2 (Ptr τ) v' t).
Proof.
  intros Hin%api_deep Hh Hx. destruct (Hin _ _ _ _ _ Hh Hx) as [Hs Hv]. split_and!; [done|done|..].
  - intros h2 H2. exact (proj1 (Deep_apart _ _ _ _ _ _ _ h2 Hin Hh Hx) H2).
  - intros h2 H2. exact (proj2 (Deep_apart _ _ _ _ _ _ _ h2 Hin Hh Hx) H2).
Qed.

(** The copy of an object is the deep copy, as an interface that is nil exactly when
    there is no object. *)
Theorem object_copies τ c h v t o h' :
  (τ, c) ∈ apiObjects → holds h (Ptr τ) v t → c v h = (o, h') →
  h ⊆ h' ∧ match o with None => v = VNil | Some v' => v ≠ VNil ∧ holds (h' ∖ h) (Ptr τ) v' t end.
Proof.
  intros (c' & Hin & ->)%objects_deep Hh Hx. unfold deepCopyObject in Hx. destruct (c' v h) as [v' h1] eqn:Hc.
  destruct (Hin _ _ _ _ _ Hh Hc) as [Hs Hv].
  destruct Hv as [[-> ->]|(l & w & u & -> & -> & Hl & Hu)]; injection Hx as <- <-; (split; [done|]).
  - destruct Hh as [[-> _]|(? & ? & ? & _ & [=] & _)]. done.
  - destruct Hh as [[_ [=]]|(l0 & w0 & u0 & -> & [= <-] & _)]. split; [done|]. right. by exists l, w, u.
Qed.
End deep.

(** ** A sample *)

(** Labels are all there is to the metadata; a time, and the others, are atoms. *)
Definition sampleExternals : Externals := {|
  ext e := match e with
    | E_TypeMeta => Struct [("Kind", Atom); ("APIVersion", Atom)]
    | E_ObjectMeta => Struct [("Name", Atom); ("Labels", Map Atom)]
    | _ => Atom
    end;
  ext_DeepCopyInto e := match e with
    | E_ObjectMeta => into (Struct [("Name", Atom); ("Labels", Map Atom)]) [("Labels", mapping assign)]
    | _ => assign
    end;
|}.

Lemma sample_external_laws : ExternalLaws (H := sampleExternals).
Proof.
  split; [|done]. intros []; try by apply Deep_assign.
  apply Deep_into; [done|]. repeat constructor. exists (Map Atom). split; [done|]. by apply Deep_mapping, Deep_assign.
Qed.

(** A template of Cloudflareds with a label and a number of replicas. *)
Definition sampleTemplate : val :=
  VStruct [VStruct [VAtom (AString "cfd"); VRef 2]; VStruct [VNil; VAtom (AString "DaemonSet"); VRef 3; VNil; VAtom (AString "")]].

Definition sampleHeap : heap :=
  {[ 1%positive := CVal sampleTemplate; 2%positive := CMap [("app", VAtom (AString "web"))]; 3%positive := CVal (VAtom (AInt 2)) ]}.

Definition sampleTree : tree :=
  TrPtr (TrStruct [TrStruct [TrAtom (AString "cfd"); TrMap [("app", TrAtom (AString "web"))]];
    TrStruct [TrNil; TrAtom (AString "DaemonSet"); TrPtr (TrAtom (AInt 2)); TrNil; TrAtom (AString "")]]).

Lemma sample_template : read sampleHeap (Ptr (ty_CloudflaredTemplateSpec (H := sampleExternals))) (VRef 1) = Some sampleTree.
Proof. reflexivity. Qed.

Lemma deep_copies_witness :
  let '(v', h') := CloudflaredTemplateSpec_DeepCopy (H := sampleExternals) (VRef 1) sampleHeap in
  v' ≠ VRef 1 ∧ holds (h' ∖ sampleHeap) (Ptr (ty_CloudflaredTemplateSpec (H := sampleExternals))) v' sampleTree.
Proof.
  destruct (CloudflaredTemplateSpec_DeepCopy (VRef 1) sampleHeap) as [v' h'] eqn:Hx.
  destruct (deep_copies (H := sampleExternals) (H0 := sample_external_laws) (ty_CloudflaredTemplateSpec (H := sampleExternals))
    (CloudflaredTemplateSpec_DeepCopy (H := sampleExternals)) sampleHeap (VRef 1) sampleTree v' h') as (_ & Hv & _);
    [unfold apiTypes; repeat (first [by left|right])|apply read_holds, sample_template|exact Hx|].
  split; [|exact Hv]. vm_compute in Hx. by injection Hx as <- <-.
Defined.
