(* ===== verification/Tunnel.v ===== *)
(** * A Gateway's tunnel (internal/gateway/tunnel.go)

    The ingress rules and private network routes of a tunnel provisioned for a
    Gateway, and the order the tunnel controller
    (internal/controller/cloudflaretunnel_controller.go, [validateIngress])
    requires of any tunnel's rules before it sends them to Cloudflare. *)
From Stdlib Require Import Sorted.
From S2P Require Import Prelude GatewayAPI Samples Refs Routes Envoy Listeners Hosts API.

Definition notFoundService := "http_status:404".
Definition TunnelHostnamePrefix := "tcp.tunnel.cloudflare.unmango.dev/".

(** ** The public hostnames of TCP listeners *)

Section hostnames.
Context `{Validation}.

(** One annotation, as the listener it names and the hostname it gives. *)
Definition tunnelHostname (key value : string) : option (string * string) :=
  match cut_prefix TunnelHostnamePrefix key with
  | None => None
  | Some name =>
    if str_eqb name "" then None
    else if negb (IsDNS1123Subdomain value) && negb (IsWildcardDNS1123Subdomain value) then None
    else Some (name, value)
  end.

(** [TunnelHostnames]. The loop ranges over the annotations in no fixed
    order; no two of them write the same listener. *)
Definition TunnelHostnames (gw : Gateway) : gmap string string :=
  map_fold (λ key value hostnames,
    match tunnelHostname key value with
    | Some (name, host) => <[name := host]> hostnames
    | None => hostnames
    end) ∅ (om_Annotations (gw_ObjectMeta gw)).

Lemma tunnelHostname_Some key value name host :
  tunnelHostname key value = Some (name, host) ↔
  key = TunnelHostnamePrefix +:+ name ∧ value = host ∧ name ≠ "" ∧
  (IsDNS1123Subdomain host = true ∨ IsWildcardDNS1123Subdomain host = true).
Proof.
  unfold tunnelHostname. destruct (cut_prefix _ key) as [n|] eqn:E.
  - apply cut_prefix_spec in E as ->.
    destruct (str_eqb n "") eqn:En; str_simpl.
    { subst. split; [done|]. intros (Heq & _ & Hn & _). by apply string_app_inj_r in Heq as <-. }
    destruct (IsDNS1123Subdomain value) eqn:E1, (IsWildcardDNS1123Subdomain value) eqn:E2; simpl;
      (split; [intros [= <- <-]; auto|]); try done;
      intros (Heq & -> & _ & Hv); apply string_app_inj_r in Heq as <-; [done..|].
    destruct Hv; congruence.
  - split; [done|]. intros (-> & _).
    assert (cut_prefix TunnelHostnamePrefix (TunnelHostnamePrefix +:+ name) = Some name) by by apply cut_prefix_spec.
    congruence.
Qed.

Lemma TunnelHostnames_lookup gw name host :
  TunnelHostnames gw !! name = Some host ↔
  om_Annotations (gw_ObjectMeta gw) !! (TunnelHostnamePrefix +:+ name) = Some host ∧ name ≠ "" ∧
  (IsDNS1123Subdomain host = true ∨ IsWildcardDNS1123Subdomain host = true).
Proof.
  unfold TunnelHostnames.
  apply (map_fold_weak_ind (λ r m, r !! name = Some host ↔
    m !! (TunnelHostnamePrefix +:+ name) = Some host ∧ name ≠ "" ∧
    (IsDNS1123Subdomain host = true ∨ IsWildcardDNS1123Subdomain host = true))).
  { rewrite !lookup_empty. naive_solver. }
  intros key value m r Hfresh IH. rewrite lookup_insert_Some.
  destruct (tunnelHostname key value) as [[n h]|] eqn:E.
  - apply tunnelHostname_Some in E as (-> & -> & Hn & Hv). rewrite lookup_insert_Some, IH.
    destruct (decide (n = name)) as [->|Hne].
    + split; [intros [[_ ->]|[? _]]; [by auto|done]|].
      intros ([[_ ->]|[? _]] & _); [by auto|done].
    + assert (TunnelHostnamePrefix +:+ n ≠ TunnelHostnamePrefix +:+ name).
      { intros Heq. by apply string_app_inj_r in Heq. }
      split; [intros [[? _]|[_ ?]]; [done|by tauto]|]. intros ([[? _]|[_ ?]] & ?); [done|by tauto].
  - rewrite IH. split; [|].
    + intros (Hm & Hrest). split; [|done]. right. split; [|done].
      intros ->. congruence.
    + intros ([[-> ->]|[_ ?]] & Hn & Hv); [|done].
      assert (tunnelHostname (TunnelHostnamePrefix +:+ name) host = Some (name, host)) as Hs
        by by apply tunnelHostname_Some.
      congruence.
Qed.
End hostnames.

(** ** Ingress rules *)

Definition ingressRule (host service : string) : CloudflareTunnelConfigIngress :=
  {| in_Dns := None; in_Hostname := host; in_Service := service;
     in_OriginRequest := emptyOriginRequest; in_Path := "" |}.

Definition isCatchAll (rule : CloudflareTunnelConfigIngress) : bool :=
  str_eqb (in_Hostname rule) "" && str_eqb (in_Path rule) "".

(** The variables the closure [route] and the loops assign. *)
Record IngressState := {
  is_exact : list CloudflareTunnelConfigIngress;
  is_wildcard : list CloudflareTunnelConfigIngress;
  is_seen : gset string;
  is_catchAll : string;
}.

Definition routeHost (host service : string) (st : IngressState) : IngressState :=
  if bool_decide (host ∈ is_seen st) then st
  else
    let rule := ingressRule host service in
    let wild := has_prefix "*." host in
    {| is_exact := if wild then is_exact st else is_exact st ++ [rule];
       is_wildcard := if wild then is_wildcard st ++ [rule] else is_wildcard st;
       is_seen := {[host]} ∪ is_seen st;
       is_catchAll := is_catchAll st |}.

Definition setCatchAll (service : string) (st : IngressState) : IngressState :=
  {| is_exact := is_exact st; is_wildcard := is_wildcard st; is_seen := is_seen st;
     is_catchAll := service |}.

(** [fmt.Sprintf("http://%s:%d", envoyHost, l.Port)], and its tcp form. *)
Definition envoyURL (scheme envoyHost : string) (port : Z) : string :=
  scheme +:+ "://" +:+ envoyHost +:+ ":" +:+ fmt_d port.

Definition httpStep (envoyHost : string) (st : IngressState) (l : Listener) : IngressState :=
  if negb (str_eqb (l_Protocol l) HTTPProtocolType) then st
  else
    let service := envoyURL "http" envoyHost (l_Port l) in
    match l_Hostname l with
    | None => if str_eqb (is_catchAll st) notFoundService then setCatchAll service st else st
    | Some h => routeHost h service st
    end.

Definition tcpHost (tcpHostnames : gmap string string) (l : Listener) : string :=
  if str_eqb (l_Protocol l) TLSProtocolType then default "" (l_Hostname l)
  else if str_eqb (l_Protocol l) TCPProtocolType then default "" (tcpHostnames !! l_Name l)
  else "".

Definition tcpStep (tcpHostnames : gmap string string) (envoyHost : string)
    (st : IngressState) (l : Listener) : IngressState :=
  let host := tcpHost tcpHostnames l in
  if str_eqb host "" then st
  else routeHost host (envoyURL "tcp" envoyHost (l_Port l)) st.

(** Longer hostnames first; a Go string's length is its bytes. *)
Definition compareWildcards : CloudflareTunnelConfigIngress → CloudflareTunnelConfigIngress → comparison :=
  cmp_rev (cmp_on (λ r, String.length (in_Hostname r)) Nat.compare).

(** The valid listeners in port order; the subtraction of two 32-bit ports does
    not overflow Go's int. *)
Definition validByPort (listeners : list Listener) : list Listener :=
  sort_by (cmp_on l_Port Z.compare) (filter (λ l, l_Valid l = true) listeners).

Definition keptHandwritten (handwritten : list CloudflareTunnelConfigIngress)
    : list CloudflareTunnelConfigIngress :=
  filter (λ rule, isCatchAll rule = false) handwritten.

Definition ingressLoops (listeners : list Listener) (tcpHostnames : gmap string string)
    (envoyHost : string) : IngressState :=
  let valid := validByPort listeners in
  foldl (tcpStep tcpHostnames envoyHost)
    (foldl (httpStep envoyHost)
      {| is_exact := []; is_wildcard := []; is_seen := ∅; is_catchAll := notFoundService |} valid)
    valid.

(** [TunnelIngress]. *)
Definition TunnelIngress (handwritten : list CloudflareTunnelConfigIngress)
    (listeners : list Listener) (tcpHostnames : gmap string string) (envoyHost : string)
    : list CloudflareTunnelConfigIngress :=
  let st := ingressLoops listeners tcpHostnames envoyHost in
  keptHandwritten handwritten ++ is_exact st ++ sort_by compareWildcards (is_wildcard st)
    ++ [ingressRule "" (is_catchAll st)].

(** ** Private network routes *)

(** [netip.ParseAddr(ip)] followed by the text of the prefix of the address's
    full length, or nothing for what is no address. *)
Class Netip := { hostPrefix : string → option string }.

Definition TunnelRoutes `{Netip} (handwritten : list CloudflareTunnelRoute)
    (clusterIPs : list string) (comment : string) : list CloudflareTunnelRoute :=
  foldl (λ routes ip,
    match hostPrefix ip with
    | None => routes
    | Some network =>
      if existsb (λ r, str_eqb (tr_Network r) network) routes then routes
      else routes ++ [{| tr_Network := network; tr_Comment := comment; tr_VirtualNetworkId := "" |}]
    end) handwritten clusterIPs.

(** ** Ordering of any tunnel's rules *)

(** [validateIngress]: the empty string for well ordered rules. *)
Definition validateIngress (rules : list CloudflareTunnelConfigIngress) : string :=
  match last rules with
  | None => ""
  | Some r =>
    if negb (isCatchAll r) then
      "the last rule in spec.config.ingress must omit both hostname and path so that it matches all requests"
    else if existsb isCatchAll (take (length rules - 1) rules) then
      "only the last rule in spec.config.ingress may omit both hostname and path"
    else ""
  end.

(** ** The rules of the listeners *)

(** A claim of a listener to a hostname: over http, or over tcp. *)
Record Claim := { cm_http : bool; cm_host : string; cm_listener : Listener }.

Definition claimRule (envoyHost : string) (c : Claim) : CloudflareTunnelConfigIngress :=
  ingressRule (cm_host c) (envoyURL (if cm_http c then "http" else "tcp") envoyHost (l_Port (cm_listener c))).

Definition httpClaim (l : Listener) : option Claim :=
  if str_eqb (l_Protocol l) HTTPProtocolType
  then (λ h, {| cm_http := true; cm_host := h; cm_listener := l |}) <$> l_Hostname l else None.

Definition tcpClaim (tcpHostnames : gmap string string) (l : Listener) : option Claim :=
  let host := tcpHost tcpHostnames l in
  if str_eqb host "" then None else Some {| cm_http := false; cm_host := host; cm_listener := l |}.

Definition claimsOf (tcpHostnames : gmap string string) (ls : list Listener) : list Claim :=
  omap httpClaim ls ++ omap (tcpClaim tcpHostnames) ls.

(** A listener may claim a hostname for http or tcp. *)
Definition mayClaim (tcpHostnames : gmap string string) (c : Claim) : Prop :=
  httpClaim (cm_listener c) = Some c ∨ tcpClaim tcpHostnames (cm_listener c) = Some c.

(** A claim no later than another: http before tcp, then the lower port. *)
Definition claim_le (c d : Claim) : Prop :=
  (cm_http c = true ∧ cm_http d = false) ∨
  (cm_http c = cm_http d ∧ (l_Port (cm_listener c) ≤ l_Port (cm_listener d))%Z).

Definition isWild (c : Claim) : bool := has_prefix "*." (cm_host c).

(** The state after some claims have been met. *)
Definition stateOf (envoyHost : string) (seen : list Claim) (catchAll : string) (st : IngressState) : Prop :=
  is_exact st = claimRule envoyHost <$> filter (λ c, isWild c = false) seen ∧
  is_wildcard st = claimRule envoyHost <$> filter (λ c, isWild c = true) seen ∧
  (∀ h, h ∈ is_seen st ↔ h ∈ cm_host <$> seen) ∧
  is_catchAll st = catchAll.

Lemma routeHost_state envoyHost seen catchAll st c :
  stateOf envoyHost seen catchAll st →
  stateOf envoyHost (dedup_add cm_host seen c) catchAll
    (routeHost (cm_host c) (in_Service (claimRule envoyHost c)) st).
Proof.
  intros (He & Hw & Hs & Hc). unfold routeHost, dedup_add.
  rewrite (bool_decide_ext _ _ (Hs (cm_host c))). case_bool_decide as Hin; [done|].
  split_and!; simpl.
  - rewrite filter_app, fmap_app, <- He, filter_cons. fold (isWild c).
    destruct (isWild c); simpl; [by rewrite app_nil_r|done].
  - rewrite filter_app, fmap_app, <- Hw, filter_cons. fold (isWild c).
    destruct (isWild c); simpl; [done|by rewrite app_nil_r].
  - intros h. rewrite elem_of_union, elem_of_singleton, Hs, fmap_app, elem_of_app. simpl.
    rewrite list_elem_of_singleton. tauto.
  - done.
Qed.

Definition catchAllOf (envoyHost : string) (ls : list Listener) (catchAll : string) : string :=
  foldl (λ catchAll l,
    if str_eqb (l_Protocol l) HTTPProtocolType && bool_decide (l_Hostname l = None)
       && str_eqb catchAll notFoundService
    then envoyURL "http" envoyHost (l_Port l) else catchAll) catchAll ls.

Lemma httpLoop_state envoyHost ls seen catchAll st :
  stateOf envoyHost seen catchAll st →
  stateOf envoyHost (foldl (dedup_add cm_host) seen (omap httpClaim ls))
    (catchAllOf envoyHost ls catchAll) (foldl (httpStep envoyHost) st ls).
Proof.
  revert seen catchAll st. induction ls as [|l ls IH]; intros seen catchAll st Hst; [done|].
  cbn [foldl catchAllOf]. rewrite omap_cons_eq.
  unfold httpStep at 2, httpClaim. destruct (str_eqb (l_Protocol l) HTTPProtocolType); simpl; [|by apply IH].
  destruct (l_Hostname l) as [h|] eqn:Eh; simpl.
  - apply IH. exact (routeHost_state _ _ _ _ {| cm_http := true; cm_host := h; cm_listener := l |} Hst).
  - destruct Hst as (He & Hw & Hs & Hc). rewrite Hc.
    destruct (str_eqb catchAll notFoundService); apply IH; by split_and!.
Qed.

Lemma tcpLoop_state tcpHostnames envoyHost ls seen catchAll st :
  stateOf envoyHost seen catchAll st →
  stateOf envoyHost (foldl (dedup_add cm_host) seen (omap (tcpClaim tcpHostnames) ls))
    catchAll (foldl (tcpStep tcpHostnames envoyHost) st ls).
Proof.
  revert seen st. induction ls as [|l ls IH]; intros seen st Hst; [done|].
  cbn [foldl]. rewrite omap_cons_eq. unfold tcpStep at 2, tcpClaim.
  destruct (str_eqb (tcpHost tcpHostnames l) ""); simpl; [by apply IH|]. apply IH.
  exact (routeHost_state _ _ _ _
    {| cm_http := false; cm_host := tcpHost tcpHostnames l; cm_listener := l |} Hst).
Qed.

(** The claims that get a rule. *)
Definition wonClaims (tcpHostnames : gmap string string) (listeners : list Listener) : list Claim :=
  dedup_by cm_host (claimsOf tcpHostnames (validByPort listeners)).

Definition tunnelCatchAll (listeners : list Listener) (envoyHost : string) : string :=
  catchAllOf envoyHost (validByPort listeners) notFoundService.

Lemma ingressLoops_state listeners tcpHostnames envoyHost :
  stateOf envoyHost (wonClaims tcpHostnames listeners) (tunnelCatchAll listeners envoyHost)
    (ingressLoops listeners tcpHostnames envoyHost).
Proof.
  unfold wonClaims, dedup_by, claimsOf, ingressLoops. rewrite foldl_app.
  apply tcpLoop_state, httpLoop_state. split_and!; [done..| |done].
  intros h. simpl. set_solver.
Qed.

(** The rules generated for the listeners, in their order. *)
Definition generated (listeners : list Listener) (tcpHostnames : gmap string string)
    (envoyHost : string) : list CloudflareTunnelConfigIngress :=
  (claimRule envoyHost <$> filter (λ c, isWild c = false) (wonClaims tcpHostnames listeners)) ++
  sort_by compareWildcards
    (claimRule envoyHost <$> filter (λ c, isWild c = true) (wonClaims tcpHostnames listeners)).

Lemma TunnelIngress_eq handwritten listeners tcpHostnames envoyHost :
  TunnelIngress handwritten listeners tcpHostnames envoyHost =
  keptHandwritten handwritten ++ generated listeners tcpHostnames envoyHost
    ++ [ingressRule "" (tunnelCatchAll listeners envoyHost)].
Proof.
  unfold TunnelIngress, generated.
  destruct (ingressLoops_state listeners tcpHostnames envoyHost) as (-> & -> & _ & ->).
  by rewrite <- app_assoc.
Qed.

Lemma elem_of_generated listeners tcpHostnames envoyHost rule :
  rule ∈ generated listeners tcpHostnames envoyHost ↔
  ∃ c, c ∈ wonClaims tcpHostnames listeners ∧ rule = claimRule envoyHost c.
Proof.
  unfold generated. rewrite elem_of_app, elem_of_sort_by, !list_elem_of_fmap.
  setoid_rewrite list_elem_of_filter. split; [naive_solver|].
  intros (c & Hc & ->). destruct (isWild c) eqn:E; [right|left]; by exists c.
Qed.

Lemma generated_perm listeners tcpHostnames envoyHost :
  generated listeners tcpHostnames envoyHost ≡ₚ claimRule envoyHost <$> wonClaims tcpHostnames listeners.
Proof.
  unfold generated. rewrite sort_by_perm, <- fmap_app. apply fmap_Permutation.
  induction (wonClaims tcpHostnames listeners) as [|c cs IH]; [done|]. rewrite !filter_cons.
  destruct (isWild c); simpl; [|by rewrite IH].
  rewrite <- Permutation_middle. by rewrite IH.
Qed.

(** ** Which claim wins *)

Lemma httpClaim_Some l c :
  httpClaim l = Some c ↔
  cm_http c = true ∧ cm_listener c = l ∧ l_Protocol l = HTTPProtocolType ∧ l_Hostname l = Some (cm_host c).
Proof.
  unfold httpClaim. destruct c as [ch h cl]; simpl.
  destruct (str_eqb (l_Protocol l) HTTPProtocolType) eqn:E; str_simpl.
  - destruct (l_Hostname l) as [h'|]; simpl; [|naive_solver]. naive_solver.
  - naive_solver.
Qed.

Lemma tcpClaim_Some tcpHostnames l c :
  tcpClaim tcpHostnames l = Some c ↔
  cm_http c = false ∧ cm_listener c = l ∧ cm_host c = tcpHost tcpHostnames l ∧ cm_host c ≠ "".
Proof.
  unfold tcpClaim. destruct c as [ch h cl]; simpl.
  destruct (str_eqb (tcpHost tcpHostnames l) "") eqn:E; str_simpl; naive_solver.
Qed.

Section winners.
Context (tcpHostnames : gmap string string) (listeners : list Listener).

Lemma elem_of_claimsOf c :
  c ∈ claimsOf tcpHostnames (validByPort listeners) ↔
  cm_listener c ∈ listeners ∧ l_Valid (cm_listener c) = true ∧ mayClaim tcpHostnames c.
Proof.
  unfold claimsOf, mayClaim. rewrite elem_of_app, !list_elem_of_omap.
  unfold validByPort. setoid_rewrite elem_of_sort_by. setoid_rewrite list_elem_of_filter.
  setoid_rewrite httpClaim_Some. setoid_rewrite tcpClaim_Some. split.
  - intros [(l & [Hv Hl] & ? & <- & ? & ?)|(l & [Hv Hl] & ? & <- & ? & ?)];
      (split; [done|split; [done|]]); [left|right]; by split_and!.
  - intros (Hl & Hv & [(? & _ & ?)|(? & _ & ?)]); [left|right]; exists (cm_listener c); auto.
Qed.

Lemma claimsOf_sorted : StronglySorted claim_le (claimsOf tcpHostnames (validByPort listeners)).
Proof.
  pose proof (sort_by_sorted (cmp_on l_Port Z.compare) (filter (λ l, l_Valid l = true) listeners)) as Hs.
  fold (validByPort listeners) in Hs. unfold claimsOf. apply StronglySorted_app_intro.
  - eapply omap_sorted; [|exact Hs]. intros a a' c c' Hle Hc Hc'.
    apply httpClaim_Some in Hc as (Hk & <- & _). apply httpClaim_Some in Hc' as (Hk' & <- & _).
    right. split; [congruence|]. apply Z.compare_le_iff. exact Hle.
  - eapply omap_sorted; [|exact Hs]. intros a a' c c' Hle Hc Hc'.
    apply tcpClaim_Some in Hc as (Hk & <- & _). apply tcpClaim_Some in Hc' as (Hk' & <- & _).
    right. split; [congruence|]. apply Z.compare_le_iff. exact Hle.
  - intros x y (l & _ & Hx%httpClaim_Some)%list_elem_of_omap (l' & _ & Hy%tcpClaim_Some)%list_elem_of_omap.
    left. naive_solver.
Qed.

Lemma elem_of_wonClaims c :
  c ∈ wonClaims tcpHostnames listeners →
  cm_listener c ∈ listeners ∧ l_Valid (cm_listener c) = true ∧ mayClaim tcpHostnames c ∧
  ∀ d, cm_listener d ∈ listeners → l_Valid (cm_listener d) = true → mayClaim tcpHostnames d →
    cm_host d = cm_host c → claim_le c d.
Proof.
  intros (pre & post & Heq & Hpre)%elem_of_dedup_by.
  pose proof claimsOf_sorted as Hsorted. rewrite Heq in Hsorted.
  apply StronglySorted_split in Hsorted.
  assert (c ∈ claimsOf tcpHostnames (validByPort listeners)) as Hc.
  { rewrite Heq. apply elem_of_app. right. left. }
  apply elem_of_claimsOf in Hc as (Hl & Hv & Hm). split_and!; [done..|].
  intros d Hdl Hdv Hdm Hh.
  assert (d ∈ claimsOf tcpHostnames (validByPort listeners)) as Hd by by apply elem_of_claimsOf.
  rewrite Heq in Hd. apply elem_of_app in Hd as [Hd|Hd].
  - destruct Hpre. rewrite <- Hh. by apply list_elem_of_fmap_2.
  - apply elem_of_cons in Hd as [->|Hd]; [by right|].
    rewrite Forall_forall in Hsorted. by apply Hsorted.
Qed.

Lemma wonClaims_hosts c :
  cm_listener c ∈ listeners → l_Valid (cm_listener c) = true → mayClaim tcpHostnames c →
  ∃ d, d ∈ wonClaims tcpHostnames listeners ∧ cm_host d = cm_host c.
Proof. intros. by apply dedup_by_keys, elem_of_claimsOf. Qed.

Lemma NoDup_wonClaims : NoDup (cm_host <$> wonClaims tcpHostnames listeners).
Proof. apply NoDup_dedup_by. Qed.
End winners.

(** The rules generated for a Gateway give each public hostname one rule,
    and every hostname a valid listener claims gets one. It goes to a listener
    that claims it: over http to an HTTP listener when one does, otherwise over
    tcp to a TLS listener or to a TCP listener an annotation names, and among
    equals to the lowest port. *)
Theorem TunnelIngress_owner handwritten listeners tcpHostnames envoyHost :
  ∃ rules catchAll,
    TunnelIngress handwritten listeners tcpHostnames envoyHost
      = filter (λ rule, isCatchAll rule = false) handwritten ++ rules ++ [ingressRule "" catchAll] ∧
    NoDup (in_Hostname <$> rules) ∧
    (∀ rule, rule ∈ rules → ∃ c, rule = claimRule envoyHost c ∧
       cm_listener c ∈ listeners ∧ l_Valid (cm_listener c) = true ∧ mayClaim tcpHostnames c ∧
       ∀ d, cm_listener d ∈ listeners → l_Valid (cm_listener d) = true → mayClaim tcpHostnames d →
         cm_host d = cm_host c → claim_le c d) ∧
    (∀ c, cm_listener c ∈ listeners → l_Valid (cm_listener c) = true → mayClaim tcpHostnames c →
       cm_host c ∈ in_Hostname <$> rules).
Proof.
  exists (generated listeners tcpHostnames envoyHost), (tunnelCatchAll listeners envoyHost).
  split_and!.
  - apply TunnelIngress_eq.
  - rewrite generated_perm, <- list_fmap_compose. apply NoDup_wonClaims.
  - intros rule (c & Hc & ->)%elem_of_generated. exists c. split; [done|].
    by apply elem_of_wonClaims.
  - intros c Hl Hv Hm. destruct (wonClaims_hosts _ _ _ Hl Hv Hm) as (d & Hd & <-).
    apply list_elem_of_fmap. exists (claimRule envoyHost d). split; [done|].
    apply elem_of_generated. eauto.
Qed.

(** ** No rule shadows a later one *)

Lemma matchesHost_longer p h :
  matchesHost p h = true → p ≠ h → has_prefix "*." p = true ∧
  (has_prefix "*." h = true → String.length p < String.length h).
Proof.
  intros [?|(rest & u & -> & -> & Hu)]%matchesHost_spec Hne; [done|]. split.
  { apply has_prefix_spec. by exists rest. }
  intros (v & Hv)%has_prefix_spec. destruct u as [|a u]; [done|].
  change (String a (u +:+ "." +:+ rest) = String (Ascii.ascii_of_nat 42) ("." +:+ v)) in Hv.
  injection Hv as -> Hv. destruct u as [|b u]; [done|].
  rewrite !string_length_app. simpl. lia.
Qed.

Lemma exact_covers_nothing p h : has_prefix "*." p = false → matchesHost p h = true → p = h.
Proof.
  intros Hp [?|(rest & u & -> & _)]%matchesHost_spec; [done|].
  apply not_true_iff_false in Hp. destruct Hp. apply has_prefix_spec. by exists rest.
Qed.

(** Among the rules generated for a Gateway, cloudflared's first match is
    the most specific: no rule covers the hostname of one after it, so every
    rule is reachable, a wildcard over another included. *)
Theorem TunnelIngress_no_shadowing listeners tcpHostnames envoyHost i j ri rj :
  let rules := generated listeners tcpHostnames envoyHost in
  (∃ catchAll, TunnelIngress [] listeners tcpHostnames envoyHost = rules ++ [ingressRule "" catchAll]) ∧
  (rules !! i = Some ri → rules !! j = Some rj → i < j →
   matchesHost (in_Hostname ri) (in_Hostname rj) = false).
Proof.
  intros rules. split.
  { exists (tunnelCatchAll listeners envoyHost). apply TunnelIngress_eq. }
  intros Hi Hj Hij. apply not_true_iff_false. intros Hm.
  assert (in_Hostname ri ≠ in_Hostname rj) as Hne.
  { intros Heq. assert (NoDup (in_Hostname <$> rules)) as Hnd.
    { unfold rules. rewrite generated_perm, <- list_fmap_compose. apply NoDup_wonClaims. }
    assert (i = j); [|lia].
    eapply NoDup_lookup; [exact Hnd| |]; rewrite list_lookup_fmap, ?Hi, ?Hj; simpl; [done|by rewrite Heq]. }
  destruct (matchesHost_longer _ _ Hm Hne) as [Hwild Hlen].
  unfold rules, generated in Hi, Hj.
  set (exact := claimRule envoyHost <$> filter (λ c, isWild c = false) _) in *.
  set (wild := sort_by compareWildcards _) in *.
  assert (∀ k r, exact !! k = Some r → has_prefix "*." (in_Hostname r) = false) as Hexact.
  { intros k r (c & -> & Hc)%list_lookup_fmap_Some. apply list_elem_of_lookup_2 in Hc.
    by apply list_elem_of_filter in Hc as [Hc _]. }
  assert (∀ k r, wild !! k = Some r → has_prefix "*." (in_Hostname r) = true) as Hwilds.
  { intros k r Hk%list_elem_of_lookup_2. unfold wild in Hk. rewrite elem_of_sort_by in Hk.
    apply list_elem_of_fmap in Hk as (c & -> & Hc). by apply list_elem_of_filter in Hc as [Hc _]. }
  apply lookup_app_Some in Hi as [Hi|[Hli Hi]]; [apply Hexact in Hi; congruence|].
  apply lookup_app_Some in Hj as [Hj|[Hlj Hj]]; [apply lookup_lt_Some in Hj; lia|].
  assert (cmp_le compareWildcards ri rj) as Hle.
  { eapply StronglySorted_lookup; [apply (sort_by_sorted compareWildcards)|exact Hi|exact Hj|lia]. }
  specialize (Hlen (Hwilds _ _ Hj)).
  unfold cmp_le, compareWildcards, cmp_rev, cmp_on in Hle. rewrite Nat.compare_le_iff in Hle. lia.
Qed.

(** ** The rules are well ordered *)

Lemma validateIngress_ok rules :
  validateIngress rules = "" ↔
  rules = [] ∨ ∃ front r, rules = front ++ [r] ∧ isCatchAll r = true ∧
    ∀ x, x ∈ front → isCatchAll x = false.
Proof.
  unfold validateIngress. destruct rules as [|r front _] using rev_ind.
  { split; [by left|done]. }
  rewrite last_snoc, length_app. simpl. rewrite Nat.add_sub, take_app_length.
  assert ((front ++ [r] = [] ∨ ∃ front' r', front ++ [r] = front' ++ [r'] ∧ isCatchAll r' = true ∧
    ∀ x, x ∈ front' → isCatchAll x = false) ↔
    isCatchAll r = true ∧ ∀ x, x ∈ front → isCatchAll x = false) as ->.
  { split.
    - intros [H|(front' & r' & [-> [= ->]]%app_inj_2 & ?)]; [by destruct front|done|done].
    - intros. right. eauto. }
  destruct (isCatchAll r); simpl; [|by split; [|intros [? _]]].
  destruct (existsb isCatchAll front) eqn:E.
  - apply existsb_spec in E as (x & Hx & Hc). split; [done|]. intros [_ H]. apply H in Hx. congruence.
  - split; [|done]. intros _. split; [done|]. intros x Hx. apply not_true_iff_false. intros Hc.
    assert (existsb isCatchAll front = true); [|congruence]. apply existsb_spec. eauto.
Qed.

Lemma mayClaim_host tcpHostnames c :
  l_Hostname (cm_listener c) ≠ Some "" → mayClaim tcpHostnames c → cm_host c ≠ "".
Proof.
  intros Hne [(_ & _ & _ & Hh)%httpClaim_Some|(_ & _ & _ & ?)%tcpClaim_Some]; [|done].
  intros He. by rewrite He in Hh.
Qed.

(** Whatever rules are written by hand, the ingress assembled for a Gateway
    passes the check the tunnel controller makes before it pushes an ingress to
    Cloudflare: its last rule, and only that, matches every request. A listener's
    hostname is not the empty string, which the Gateway API schema refuses. *)
Theorem TunnelIngress_validates handwritten listeners tcpHostnames envoyHost :
  (∀ l, l ∈ listeners → l_Hostname l ≠ Some "") →
  validateIngress (TunnelIngress handwritten listeners tcpHostnames envoyHost) = "".
Proof.
  intros Hne. apply validateIngress_ok. right. rewrite TunnelIngress_eq, app_assoc.
  eexists _, _. split; [done|]. split; [done|]. intros x [Hx|Hx]%elem_of_app.
  - by apply list_elem_of_filter in Hx as [? _].
  - apply elem_of_generated in Hx as (c & Hc & ->).
    apply elem_of_wonClaims in Hc as (Hl & _ & Hm & _).
    unfold isCatchAll. simpl. apply andb_false_iff. left. apply str_eqb_neq.
    eapply mayClaim_host; eauto.
Qed.

(** The ingress assembled for a Gateway keeps the hand-written rules in front,
    then gives each public hostname one rule, and every hostname a valid listener
    claims gets one. The rule goes to a listener that claims the hostname: over
    http to an HTTP listener when one does, otherwise over tcp to a TLS listener
    or to a TCP listener an annotation names, and among equals to the lowest port.
    No rule generated covers the hostname of one after it, so cloudflared's first
    match is the most specific; and the whole passes the check the tunnel
    controller makes before it pushes an ingress to Cloudflare. A listener's
    hostname is not the empty string, which the Gateway API schema refuses. *)
Theorem TunnelIngress_spec handwritten listeners tcpHostnames envoyHost :
  (∀ l, l ∈ listeners → l_Hostname l ≠ Some "") →
  ∃ rules catchAll,
    TunnelIngress handwritten listeners tcpHostnames envoyHost
      = filter (λ rule, isCatchAll rule = false) handwritten ++ rules ++ [ingressRule "" catchAll] ∧
    NoDup (in_Hostname <$> rules) ∧
    (∀ rule, rule ∈ rules → ∃ c, rule = claimRule envoyHost c ∧
       cm_listener c ∈ listeners ∧ l_Valid (cm_listener c) = true ∧ mayClaim tcpHostnames c ∧
       ∀ d, cm_listener d ∈ listeners → l_Valid (cm_listener d) = true → mayClaim tcpHostnames d →
         cm_host d = cm_host c → claim_le c d) ∧
    (∀ c, cm_listener c ∈ listeners → l_Valid (cm_listener c) = true → mayClaim tcpHostnames c →
       cm_host c ∈ in_Hostname <$> rules) ∧
    (∀ i j ri rj, rules !! i = Some ri → rules !! j = Some rj → i < j →
       matchesHost (in_Hostname ri) (in_Hostname rj) = false) ∧
    validateIngress (TunnelIngress handwritten listeners tcpHostnames envoyHost) = "".
Proof.
  intros Hne. destruct (TunnelIngress_owner handwritten listeners tcpHostnames envoyHost) as (rules & catchAll & Heq & Hnd & Ho & Hc).
  exists rules, catchAll. split; [exact Heq|]. split; [exact Hnd|]. split; [exact Ho|]. split; [exact Hc|].
  split; [|by apply TunnelIngress_validates]. rewrite TunnelIngress_eq in Heq. apply app_inv_head, app_inj_tail in Heq as [<- _].
  intros i j ri rj. apply TunnelIngress_no_shadowing.
Qed.

(** ** Private network routes *)

Section routes.
Context `{Netip}.

Definition routeStep (comment : string) (routes : list CloudflareTunnelRoute) (ip : string)
    : list CloudflareTunnelRoute :=
  match hostPrefix ip with
  | None => routes
  | Some network =>
    if existsb (λ r, str_eqb (tr_Network r) network) routes then routes
    else routes ++ [{| tr_Network := network; tr_Comment := comment; tr_VirtualNetworkId := "" |}]
  end.

Lemma TunnelRoutes_fold handwritten ips comment :
  TunnelRoutes handwritten ips comment = foldl (routeStep comment) handwritten ips.
Proof. done. Qed.

Lemma has_network routes network :
  existsb (λ r, str_eqb (tr_Network r) network) routes = true ↔ network ∈ tr_Network <$> routes.
Proof.
  rewrite existsb_spec, list_elem_of_fmap. setoid_rewrite str_eqb_eq. naive_solver.
Qed.

Lemma routes_covered routes ips comment :
  (∀ ip network, ip ∈ ips → hostPrefix ip = Some network → network ∈ tr_Network <$> routes) →
  TunnelRoutes routes ips comment = routes.
Proof.
  rewrite TunnelRoutes_fold. induction ips as [|ip ips IH]; simpl; intros Hc; [done|].
  assert (routeStep comment routes ip = routes) as ->.
  { unfold routeStep. destruct (hostPrefix ip) as [network|] eqn:E; [|done].
    specialize (Hc ip network). rewrite (proj2 (has_network routes network)); [done|].
    apply Hc; [left|done]. }
  apply IH. intros ip' network Hin. apply Hc. by right.
Qed.

(** What the loop appends. *)
Lemma TunnelRoutes_added routes ips comment :
  ∃ added, TunnelRoutes routes ips comment = routes ++ added ∧
    NoDup (tr_Network <$> added) ∧
    ∀ r, r ∈ added ↔ tr_Comment r = comment ∧ tr_VirtualNetworkId r = "" ∧
      tr_Network r ∉ tr_Network <$> routes ∧ ∃ ip, ip ∈ ips ∧ hostPrefix ip = Some (tr_Network r).
Proof.
  rewrite TunnelRoutes_fold. induction ips as [|ip ips IH] using rev_ind.
  { exists []. rewrite app_nil_r. split_and!; [done|constructor|]. intros r. simpl. set_solver. }
  destruct IH as (added & Heq & Hnd & Hin). rewrite foldl_snoc, Heq.
  assert (∀ r, (∃ ip', ip' ∈ ips ++ [ip] ∧ hostPrefix ip' = Some (tr_Network r)) ↔
    (∃ ip', ip' ∈ ips ∧ hostPrefix ip' = Some (tr_Network r)) ∨ hostPrefix ip = Some (tr_Network r)) as Hex.
  { intros r. setoid_rewrite elem_of_app. setoid_rewrite list_elem_of_singleton. naive_solver. }
  setoid_rewrite Hex. unfold routeStep. destruct (hostPrefix ip) as [network|] eqn:E.
  2:{ exists added. split_and!; [done..|]. intros r. rewrite Hin. naive_solver. }
  destruct (existsb _ _) eqn:Ex.
  - exists added. split_and!; [done..|]. intros r. rewrite Hin. split; [tauto|].
    intros (? & ? & Hr & [?|[= ->]]); [done|]. split_and!; [done..|].
    apply has_network in Ex. rewrite fmap_app, elem_of_app in Ex. destruct Ex as [?|Ha]; [done|].
    apply list_elem_of_fmap in Ha as (r' & Hr' & (_ & _ & _ & Hip)%Hin). by rewrite Hr'.
  - apply not_true_iff_false in Ex. rewrite has_network, fmap_app, not_elem_of_app in Ex.
    destruct Ex as [Hn1 Hn2]. rewrite <- app_assoc. eexists. split; [done|]. split.
    + rewrite fmap_app. apply NoDup_app. split_and!; [done|set_solver|apply NoDup_singleton].
    + intros r. rewrite elem_of_app, list_elem_of_singleton, Hin. split.
      * intros [?| ->]; [tauto|]. simpl. tauto.
      * intros (? & ? & ? & [?|[= Hr]]); [tauto|]. right. destruct r; simpl in *. by subst.
Qed.
End routes.

(** The routes of a tunnel keep every hand-written route and append, once
    each, the host route of every cluster IP that parses and that no hand-written
    route has the network of; assembling them again from the result adds
    nothing. *)
Theorem TunnelRoutes_spec `{Netip} handwritten clusterIPs comment :
  (∃ added, TunnelRoutes handwritten clusterIPs comment = handwritten ++ added ∧
     NoDup (tr_Network <$> added) ∧
     ∀ r, r ∈ added ↔ tr_Comment r = comment ∧ tr_VirtualNetworkId r = "" ∧
       tr_Network r ∉ tr_Network <$> handwritten ∧
       ∃ ip, ip ∈ clusterIPs ∧ hostPrefix ip = Some (tr_Network r)) ∧
  TunnelRoutes (TunnelRoutes handwritten clusterIPs comment) clusterIPs comment
    = TunnelRoutes handwritten clusterIPs comment.
Proof.
  split; [apply TunnelRoutes_added|]. apply routes_covered. intros ip network Hin Hip.
  destruct (TunnelRoutes_added handwritten clusterIPs comment) as (added & -> & _ & Ha).
  rewrite fmap_app, elem_of_app. destruct (decide (network ∈ tr_Network <$> handwritten)); [by left|].
  right. apply list_elem_of_fmap.
  exists {| tr_Network := network; tr_Comment := comment; tr_VirtualNetworkId := "" |}.
  split; [done|]. apply Ha. split_and!; [done..|]. by exists ip.
Qed.

(** The public hostnames read from a Gateway's annotations are, by listener
    name, exactly the values of the annotations under the prefix that are a
    hostname or a wildcard one: a bare "*" or a malformed value, over which
    cloudflared refuses the whole configuration, is never among them when the
    validators refuse it. *)
Theorem TunnelHostnames_spec `{Validation} gw name host :
  TunnelHostnames gw !! name = Some host ↔
  om_Annotations (gw_ObjectMeta gw) !! (TunnelHostnamePrefix +:+ name) = Some host ∧ name ≠ "" ∧
  (IsDNS1123Subdomain host = true ∨ IsWildcardDNS1123Subdomain host = true).
Proof. apply TunnelHostnames_lookup. Qed.

(** ** Witnesses *)

Definition tunnelListeners : list Listener :=
  (λ ls, {| l_Spec := ls; l_SupportedKinds := []; l_Conditions := []; l_Certificates := []; l_Valid := true |}) <$>
  [sampleListener "wide" "HTTP" 8081 (Some "*.example.com"); sampleListener "http" "HTTP" 80 None;
   sampleListener "narrow" "HTTP" 8082 (Some "*.db.example.com"); sampleListener "db" "TCP" 5432 None;
   sampleListener "app" "HTTP" 8080 (Some "app.example.com")].

Definition tunnelHandwritten : list CloudflareTunnelConfigIngress :=
  [ingressRule "legacy.example.com" "http://legacy:80"; ingressRule "" "http://everything:80"].

Lemma TunnelIngress_validates_witness :
  (∀ l, l ∈ tunnelListeners → l_Hostname l ≠ Some "") ∧
  validateIngress (TunnelIngress tunnelHandwritten tunnelListeners (<["db" := "pg.example.com"]> ∅) "envoy") = "".
Proof.
  assert (∀ l, l ∈ tunnelListeners → l_Hostname l ≠ Some "") as Hne.
  { apply Forall_forall. repeat constructor; discriminate. }
  split; [exact Hne|].
  exact (TunnelIngress_validates tunnelHandwritten tunnelListeners (<["db" := "pg.example.com"]> ∅) "envoy" Hne).
Defined.

Lemma TunnelIngress_no_shadowing_witness :
  let rules := generated tunnelListeners (<["db" := "pg.example.com"]> ∅) "envoy" in
  in_Hostname <$> rules = ["app.example.com"; "pg.example.com"; "*.db.example.com"; "*.example.com"] ∧
  matchesHost "*.db.example.com" "*.example.com" = false.
Proof.
  split; [vm_compute; reflexivity|].
  apply (proj2 (TunnelIngress_no_shadowing tunnelListeners (<["db" := "pg.example.com"]> ∅) "envoy" 2 3
    (ingressRule "*.db.example.com" "http://envoy:8082") (ingressRule "*.example.com" "http://envoy:8081")));
    [vm_compute; reflexivity|vm_compute; reflexivity|lia].
Defined.

Lemma TunnelIngress_spec_witness :
  ∃ rules catchAll,
    TunnelIngress tunnelHandwritten tunnelListeners (<["db" := "pg.example.com"]> ∅) "envoy" =
      [ingressRule "legacy.example.com" "http://legacy:80"] ++ rules ++ [ingressRule "" catchAll] ∧
    "*.db.example.com" ∈ in_Hostname <$> rules.
Proof.
  destruct (TunnelIngress_spec tunnelHandwritten tunnelListeners (<["db" := "pg.example.com"]> ∅) "envoy")
    as (rules & catchAll & Heq & _ & _ & Hc & _).
  { apply Forall_forall. repeat constructor; discriminate. }
  exists rules, catchAll. split; [exact Heq|].
  set (l := {| l_Spec := sampleListener "narrow" "HTTP" 8082 (Some "*.db.example.com"); l_SupportedKinds := [];
               l_Conditions := []; l_Certificates := []; l_Valid := true |}).
  destruct (httpClaim l) as [c|] eqn:E; [|by vm_compute in E].
  assert (cm_host c = "*.db.example.com" ∧ cm_listener c = l) as [Hh Hl] by (vm_compute in E; by injection E as <-).
  rewrite <- Hh. apply Hc; rewrite ?Hl; [right; right; by left|done|left; by rewrite Hl].
Defined.
