(* ===== verification/EnvoyAPI.v ===== *)
(** * Data shapes of Envoy's API

    The protobuf messages the operator fills in, which
    github.com/envoyproxy/go-control-plane declares, with the fields the code
    sets. A oneof is an inductive type; a message packed into an [Any] is a
    [Message]. Nothing in this file is computed: it holds no code of the
    operator. *)
From S2P Require Import Prelude GatewayAPI.

Inductive Protocol := SocketAddress_TCP | SocketAddress_UDP.

Record SocketAddress := { sa_Protocol : Protocol; sa_Address : string; sa_Port : Z }.

(** A ConfigSource that names the aggregated discovery service. *)
Inductive ConfigSource := Ads (apiVersion : string).

Inductive StringMatcher := MatchExact (s : string) | MatchSafeRegex (regex : string).
Record HeaderMatcher := { hma_Name : string; hma_Match : StringMatcher }.
Record QueryParameterMatcher := { qma_Name : string; qma_Match : StringMatcher }.

Inductive PathSpecifier :=
  | RouteMatch_Path (path : string)
  | RouteMatch_SafeRegex (regex : string)
  | RouteMatch_Prefix (prefix : string)
  | RouteMatch_PathSeparatedPrefix (prefix : string).

Record RouteMatch := {
  rm_PathSpecifier : PathSpecifier;
  rm_Headers : list HeaderMatcher;
  rm_QueryParameters : list QueryParameterMatcher;
}.

Inductive AppendAction := OVERWRITE_IF_EXISTS_OR_ADD | APPEND_IF_EXISTS_OR_ADD.
Record HeaderValueOption := { hvo_Key : string; hvo_Value : string; hvo_AppendAction : AppendAction }.

Record RegexMatchAndSubstitute := { rms_Regex : string; rms_Substitution : string }.

(** A cluster and its share of the traffic, of an HTTP route or a TCP proxy. *)
Record ClusterWeight := { cw_Name : string; cw_Weight : Z }.

Inductive ClusterSpecifier :=
  | SpecCluster (name : string)
  | SpecWeightedClusters (clusters : list ClusterWeight).

Record RouteAction := {
  ra_ClusterSpecifier : ClusterSpecifier;
  ra_ClusterNotFoundResponseCode : Z;
  ra_HostRewriteLiteral : option string;
  ra_RegexRewrite : option RegexMatchAndSubstitute;
}.

Inductive PathRewriteSpecifier :=
  | PathRedirect (path : string)
  | RegexRewrite (r : RegexMatchAndSubstitute).

Record RedirectAction := {
  rd_ResponseCode : Z;
  rd_SchemeRedirect : option string;
  rd_HostRedirect : string;
  rd_PortRedirect : Z;
  rd_PathRewriteSpecifier : option PathRewriteSpecifier;
}.

Inductive RouteActionSpecifier :=
  | Route_Route (a : RouteAction)
  | Route_Redirect (r : RedirectAction)
  | Route_DirectResponse (status : Z).

Record EnvoyRoute := {
  er_Name : string;
  er_Match : RouteMatch;
  er_RequestHeadersToAdd : list HeaderValueOption;
  er_RequestHeadersToRemove : list string;
  er_ResponseHeadersToAdd : list HeaderValueOption;
  er_ResponseHeadersToRemove : list string;
  er_Action : option RouteActionSpecifier;
}.

Record VirtualHost := { vh_Name : string; vh_Domains : list string; vh_Routes : list EnvoyRoute }.

Record RouteConfiguration := {
  rc_Name : string;
  rc_IgnorePortInHostMatching : bool;
  rc_VirtualHosts : list VirtualHost;
}.

Record TlsCertificate := { cert_CertificateChain : string; cert_PrivateKey : string }.

(** The messages packed into an Any, by their Go type. *)
Inductive Message :=
  | Router
  | HttpConnectionManager_Rds (statPrefix : string) (routeConfigName : string)
      (configSource : ConfigSource) (httpFilters : list (string * Message))
  | HttpConnectionManager_RouteConfig (statPrefix : string) (routeConfig : RouteConfiguration)
      (httpFilters : list (string * Message))
  | TlsInspector
  | TcpProxy (statPrefix : string) (specifier : ClusterSpecifier)
  | UdpRoute (cluster : string)
  | UdpProxyConfig (statPrefix : string) (onNoMatch : string * Message)
  | DownstreamTlsContext (certificates : list TlsCertificate) (alpn : list string)
  | HttpProtocolOptions_Http2.

Record Filter := { fi_Name : string; fi_TypedConfig : Message }.

Record FilterChain := {
  fc_Name : string;
  fc_ServerNames : option (list string);
  fc_Filters : list Filter;
  fc_TransportSocket : option Filter;
}.

Record EnvoyListener := {
  el_Name : string;
  el_Address : SocketAddress;
  el_ListenerFilters : list Filter;
  el_FilterChains : list FilterChain;
}.

(** An EDS cluster. *)
Record EnvoyCluster := {
  ec_Name : string;
  ec_ConnectTimeout : Z;
  ec_EdsConfig : ConfigSource;
  ec_LocalityWeighted : bool;
  ec_ProtocolOptions : option Message;
}.

Record LocalityLbEndpoints := {
  lle_SubZone : option string;
  lle_LoadBalancingWeight : option Z;
  lle_LbEndpoints : list SocketAddress;
}.

Record ClusterLoadAssignment := {
  cla_ClusterName : string;
  cla_Endpoints : list LocalityLbEndpoints;
}.

(** The bootstrap: a cluster with its endpoints in it, and the whole of it. *)
Inductive DiscoveryType := STRICT_DNS | STATIC.

Record StaticCluster := {
  stc_Name : string;
  stc_ConnectTimeout : Z;
  stc_Type : DiscoveryType;
  stc_LoadAssignment : ClusterLoadAssignment;
  stc_ProtocolOptions : option Message;
}.

Record BootstrapConfig := {
  bs_NodeId : string;
  bs_NodeCluster : string;
  bs_AdminAddress : SocketAddress;
  bs_AdsCluster : string;
  bs_LdsConfig : ConfigSource;
  bs_CdsConfig : ConfigSource;
  bs_Listeners : list EnvoyListener;
  bs_Clusters : list StaticCluster;
}.

(** [ValidateAll] of a bootstrap, and [protojson.Marshal] of it. *)
Class BootstrapCodec := {
  ValidateAll : BootstrapConfig → option string;
  MarshalBootstrap : BootstrapConfig → string + string;
}.

(** [anypb.New]: the error of packing a message, or none. *)
Class Anypb := { marshalError : Message → option string }.

(** A result or an error. *)
Definition result (A : Type) : Type := A + string.

Definition rbind {A B} (m : result A) (k : A → result B) : result B :=
  match m with inl a => k a | inr e => inr e end.

Notation "'let?' x ':=' m 'in' k" := (rbind m (λ x, k))
  (at level 200, x pattern, m at level 100, k at level 200) : operator_scope.

Definition anypb_New `{Anypb} (m : Message) : result Message :=
  match marshalError m with Some e => inr e | None => inl m end.

#[export] Instance StringMatcher_eq_dec : EqDecision StringMatcher.
Proof. solve_decision. Defined.
#[export] Instance SocketAddress_Protocol_eq_dec : EqDecision Protocol.
Proof. solve_decision. Defined.
