(* ===== verification/XdsRoutes.v ===== *)
(** * Envoy routes of a Gateway's HTTP listeners (internal/xds/translate.go)

    A route configuration per HTTP port or HTTPS listener: which listener owns
    a hostname, which rules serve it and in which order, and what each becomes. *)
From Stdlib Require Import Sorted.
From S2P Require Import Prelude GatewayAPI Samples Refs Routes Envoy Listeners Hosts Model EnvoyAPI.

Definition invalidCluster := "invalid-backend".

(** Unsigned 32-bit conversion. *)
Definition uint32 (z : Z) : Z := (z mod 2 ^ 32)%Z.

Definition fmt_n (n : nat) : string := fmt_d (Z.of_nat n).

(** ** Matches *)

Definition FilterRequestHeaderModifier := "RequestHeaderModifier".
Definition FilterResponseHeaderModifier := "ResponseHeaderModifier".
Definition FilterRequestRedirect := "RequestRedirect".
Definition FilterURLRewrite := "URLRewrite".

Definition FullPathHTTPPathModifier := "ReplaceFullPath".
Definition PrefixMatchHTTPPathModifier := "ReplacePrefixMatch".

(** [pathOf]: the type and value of a match's path, with their defaults. *)
Definition pathOf (m : HTTPRouteMatch) : string * string :=
  match m_Path m with
  | None => (PathMatchPathPrefix, "/")
  | Some p => (default PathMatchPathPrefix (pm_Type p), default "/" (pm_Value p))
  end.

Definition stringMatch (regex : bool) (value : string) : StringMatcher :=
  if regex then MatchSafeRegex value else MatchExact value.

Definition headerMatch (h : HTTPHeaderMatch) : HeaderMatcher :=
  {| hma_Name := hm_Name h;
     hma_Match := stringMatch (bool_decide (hm_Type h = Some HeaderMatchRegularExpression)) (hm_Value h) |}.

Definition queryMatch (q : HTTPQueryParamMatch) : QueryParameterMatcher :=
  {| qma_Name := qm_Name q;
     qma_Match := stringMatch (bool_decide (qm_Type q = Some QueryParamMatchRegularExpression)) (qm_Value q) |}.

(** [routeMatch]. *)
Definition pathSpecifier (m : HTTPRouteMatch) : PathSpecifier :=
  let '(t, v) := pathOf m in
  if str_eqb t PathMatchExact then RouteMatch_Path v
  else if str_eqb t PathMatchRegularExpression then RouteMatch_SafeRegex v
  else
    let prefix := trim_suffix "/" v in
    if str_eqb prefix "" then RouteMatch_Prefix "/" else RouteMatch_PathSeparatedPrefix prefix.

Definition routeMatch (m : HTTPRouteMatch) : RouteMatch :=
  {| rm_PathSpecifier := pathSpecifier m;
     rm_Headers := (headerMatch <$> m_Headers m) ++
       match m_Method m with
       | Some method => [{| hma_Name := ":method"; hma_Match := stringMatch false method |}]
       | None => []
       end;
     rm_QueryParameters := queryMatch <$> m_QueryParams m |}.

(** ** Filters *)

(** [headerModifier]. *)
Definition headerModifier (f : option HTTPHeaderFilter) : list HeaderValueOption * list string :=
  match f with
  | None => ([], [])
  | Some f =>
    (((λ h, {| hvo_Key := hh_Name h; hvo_Value := hh_Value h;
               hvo_AppendAction := OVERWRITE_IF_EXISTS_OR_ADD |}) <$> hf_Set f) ++
     ((λ h, {| hvo_Key := hh_Name h; hvo_Value := hh_Value h;
               hvo_AppendAction := APPEND_IF_EXISTS_OR_ADD |}) <$> hf_Add f),
     hf_Remove f)
  end.

(** A reference to the first group of a regular expression. *)
Definition group1 : string := String (Ascii.ascii_of_nat 92) "1".

(** [prefixRewrite]. *)
Definition prefixRewrite (m : HTTPRouteMatch) (replacement : string) : RegexMatchAndSubstitute :=
  let prefix := trim_suffix "/" (pathOf m).2 in
  let replacement := trim_suffix "/" replacement in
  if str_eqb replacement "" then
    {| rms_Regex := "^" +:+ QuoteMeta prefix +:+ "/*(.*)$"; rms_Substitution := "/" +:+ group1 |}
  else
    {| rms_Regex := "^" +:+ QuoteMeta prefix +:+ "(/.*)?$"; rms_Substitution := replacement +:+ group1 |}.

(** [applyRewrite]. *)
Definition applyRewrite (action : RouteAction) (f : HTTPURLRewriteFilter) (m : HTTPRouteMatch)
    : RouteAction :=
  let host := match uf_Hostname f with Some h => Some h | None => ra_HostRewriteLiteral action end in
  let regex :=
    match uf_Path f with
    | None => ra_RegexRewrite action
    | Some p =>
      if str_eqb (hpm_Type p) FullPathHTTPPathModifier then
        match hpm_ReplaceFullPath p with
        | Some full => Some {| rms_Regex := "^.*$"; rms_Substitution := full |}
        | None => ra_RegexRewrite action
        end
      else if str_eqb (hpm_Type p) PrefixMatchHTTPPathModifier then
        match hpm_ReplacePrefixMatch p with
        | Some replacement => Some (prefixRewrite m replacement)
        | None => ra_RegexRewrite action
        end
      else ra_RegexRewrite action
    end in
  {| ra_ClusterSpecifier := ra_ClusterSpecifier action;
     ra_ClusterNotFoundResponseCode := ra_ClusterNotFoundResponseCode action;
     ra_HostRewriteLiteral := host; ra_RegexRewrite := regex |}.

(** [redirectAction]. *)
Definition redirectCode (status : option Z) : Z :=
  match status with
  | Some 301%Z => 301 | Some 303%Z => 303 | Some 307%Z => 307 | Some 308%Z => 308
  | _ => 302
  end.

Definition redirectPath (p : HTTPPathModifier) (m : HTTPRouteMatch) : option PathRewriteSpecifier :=
  if str_eqb (hpm_Type p) FullPathHTTPPathModifier then PathRedirect <$> hpm_ReplaceFullPath p
  else if str_eqb (hpm_Type p) PrefixMatchHTTPPathModifier then
    (λ r, RegexRewrite (prefixRewrite m r)) <$> hpm_ReplacePrefixMatch p
  else None.

Definition redirectAction (f : HTTPRequestRedirectFilter) (m : HTTPRouteMatch) : RedirectAction :=
  {| rd_ResponseCode := redirectCode (rf_StatusCode f);
     rd_SchemeRedirect := rf_Scheme f;
     rd_HostRedirect := default "" (rf_Hostname f);
     rd_PortRedirect := from_option uint32 0%Z (rf_Port f);
     rd_PathRewriteSpecifier := rf_Path f ≫= λ p, redirectPath p m |}.

(** ** Backends *)

(** The clusters the translation has met, by name. *)
Notation Clusters := (gmap string Cluster).

(** One iteration over a rule's backends, which [routeAction] and
    [tcpProxyFilter] share: a backend without weight is skipped, one that does
    not resolve keeps its share. *)
Definition weighBackend (st : list ClusterWeight * Clusters) (b : Backend)
    : list ClusterWeight * Clusters :=
  if (b_Weight b <=? 0)%Z then st
  else match b_Cluster b with
  | Some c => (st.1 ++ [{| cw_Name := cl_Name c; cw_Weight := uint32 (b_Weight b) |}],
               <[cl_Name c := c]> st.2)
  | None => (st.1 ++ [{| cw_Name := invalidCluster; cw_Weight := uint32 (b_Weight b) |}], st.2)
  end.

Definition weighBackends (backends : list Backend) (clusters : Clusters)
    : list ClusterWeight * Clusters :=
  foldl weighBackend ([], clusters) backends.

(** [routeAction]: nothing when there is no backend to send anything to. *)
Definition actionOf (specifier : ClusterSpecifier) : RouteAction :=
  {| ra_ClusterSpecifier := specifier; ra_ClusterNotFoundResponseCode := 500;
     ra_HostRewriteLiteral := None; ra_RegexRewrite := None |}.

Definition routeAction (backends : list Backend) (clusters : Clusters) : option RouteAction * Clusters :=
  let '(weighted, clusters) := weighBackends backends clusters in
  (match weighted with
   | [] => None
   | [w] => if str_eqb (cw_Name w) invalidCluster then None
            else Some (actionOf (SpecCluster (cw_Name w)))
   | _ => Some (actionOf (SpecWeightedClusters weighted))
   end, clusters).

(** ** Entries *)

(** One match of one rule of an attached route, served on one host of one
    listener. *)
Record entry := {
  en_route : AttachedRoute;
  en_listener : nat;
  en_host : string;
  en_rule : nat;
  en_match : nat;
}.

Definition en_Route (e : entry) : Route := at_Route (en_route e).

(** The rule and the match an entry is of: its indexes are always in range. *)
Definition emptyRule : Rule :=
  {| ru_Matches := []; ru_Filters := []; ru_Backends := []; ru_GRPC := false |}.

Definition en_ruleOf (e : entry) : Rule := default emptyRule (r_Rules (en_Route e) !! en_rule e).
Definition en_matchOf (e : entry) : HTTPRouteMatch :=
  default emptyMatch (ru_Matches (en_ruleOf e) !! en_match e).

(** The variables of [envoyRoute]'s loop over the filters. *)
Record FilterState := {
  fs_Route : EnvoyRoute;
  fs_redirect : option HTTPRequestRedirectFilter;
  fs_rewrite : option HTTPURLRewriteFilter;
}.

Definition setAction (r : EnvoyRoute) (a : RouteActionSpecifier) : EnvoyRoute :=
  {| er_Name := er_Name r; er_Match := er_Match r;
     er_RequestHeadersToAdd := er_RequestHeadersToAdd r;
     er_RequestHeadersToRemove := er_RequestHeadersToRemove r;
     er_ResponseHeadersToAdd := er_ResponseHeadersToAdd r;
     er_ResponseHeadersToRemove := er_ResponseHeadersToRemove r; er_Action := Some a |}.

(** One filter: the new state, or nothing for a filter that is not
    implemented. *)
Definition filterStep (st : FilterState) (f : HTTPRouteFilter) : option FilterState :=
  let r := fs_Route st in
  if str_eqb (f_Type f) FilterRequestHeaderModifier then
    let '(add, remove) := headerModifier (f_RequestHeaderModifier f) in
    Some {| fs_Route := {| er_Name := er_Name r; er_Match := er_Match r;
              er_RequestHeadersToAdd := er_RequestHeadersToAdd r ++ add;
              er_RequestHeadersToRemove := er_RequestHeadersToRemove r ++ remove;
              er_ResponseHeadersToAdd := er_ResponseHeadersToAdd r;
              er_ResponseHeadersToRemove := er_ResponseHeadersToRemove r; er_Action := er_Action r |};
            fs_redirect := fs_redirect st; fs_rewrite := fs_rewrite st |}
  else if str_eqb (f_Type f) FilterResponseHeaderModifier then
    let '(add, remove) := headerModifier (f_ResponseHeaderModifier f) in
    Some {| fs_Route := {| er_Name := er_Name r; er_Match := er_Match r;
              er_RequestHeadersToAdd := er_RequestHeadersToAdd r;
              er_RequestHeadersToRemove := er_RequestHeadersToRemove r;
              er_ResponseHeadersToAdd := er_ResponseHeadersToAdd r ++ add;
              er_ResponseHeadersToRemove := er_ResponseHeadersToRemove r ++ remove; er_Action := er_Action r |};
            fs_redirect := fs_redirect st; fs_rewrite := fs_rewrite st |}
  else if str_eqb (f_Type f) FilterRequestRedirect then
    Some {| fs_Route := r; fs_redirect := f_RequestRedirect f; fs_rewrite := fs_rewrite st |}
  else if str_eqb (f_Type f) FilterURLRewrite then
    Some {| fs_Route := r; fs_redirect := fs_redirect st; fs_rewrite := f_URLRewrite f |}
  else None.

Fixpoint filterLoop (st : FilterState) (filters : list HTTPRouteFilter) : FilterState * bool :=
  match filters with
  | [] => (st, true)
  | f :: filters =>
    match filterStep st f with
    | Some st' => filterLoop st' filters
    | None => (st, false)
    end
  end.

Definition routeName (e : entry) : string :=
  Key (en_Route e) +:+ "/" +:+ fmt_n (en_rule e) +:+ "/" +:+ fmt_n (en_match e).

(** [envoyRoute]. *)
Definition envoyRoute (e : entry) (clusters : Clusters) : EnvoyRoute * Clusters :=
  let rule := en_ruleOf e in
  let m := en_matchOf e in
  let route := {| er_Name := routeName e; er_Match := routeMatch m;
    er_RequestHeadersToAdd := []; er_RequestHeadersToRemove := [];
    er_ResponseHeadersToAdd := []; er_ResponseHeadersToRemove := [];
    er_Action := None |} in
  let '(st, implemented) :=
    filterLoop {| fs_Route := route; fs_redirect := None; fs_rewrite := None |} (ru_Filters rule) in
  let route := fs_Route st in
  if negb implemented then (setAction route (Route_DirectResponse 500), clusters)
  else match fs_redirect st with
  | Some redirect => (setAction route (Route_Redirect (redirectAction redirect m)), clusters)
  | None =>
    match routeAction (default [] (at_Backends (en_route e) !! en_rule e)) clusters with
    | (None, clusters) => (setAction route (Route_DirectResponse 500), clusters)
    | (Some action, clusters) =>
      let action := match fs_rewrite st with
                    | Some rewrite => applyRewrite action rewrite m
                    | None => action
                    end in
      (setAction route (Route_Route action), clusters)
    end
  end.

(** ** Precedence *)

(** The rank of a path match, and minus the length that counts. *)
Definition pathRank (m : HTTPRouteMatch) : Z * Z :=
  let '(t, v) := pathOf m in
  if str_eqb t PathMatchExact then (0, - Z.of_nat (String.length v))%Z
  else if str_eqb t PathMatchRegularExpression then (1, - Z.of_nat (String.length v))%Z
  else (2, - Z.of_nat (String.length (trim_suffix "/" v)))%Z.

Definition methodRank (m : HTTPRouteMatch) : Z :=
  match m_Method m with Some _ => 0%Z | None => 1%Z end.

Definition routeRank (e : entry) : string := r_Namespace (en_Route e) +:+ "/" +:+ r_Name (en_Route e).

(** [compareEntries]. *)
Definition compareEntries (a b : entry) : comparison :=
  cmp_or (cmp_rev (cmp_on (λ e, exactChars (en_host e)) Nat.compare) a b)
  (cmp_or (cmp_rev (cmp_on (λ e, String.length (en_host e)) Nat.compare) a b)
  (cmp_or (cmp_on (λ e, (pathRank (en_matchOf e)).1) Z.compare a b)
  (cmp_or (cmp_on (λ e, (pathRank (en_matchOf e)).2) Z.compare a b)
  (cmp_or (cmp_on (λ e, methodRank (en_matchOf e)) Z.compare a b)
  (cmp_or (cmp_rev (cmp_on (λ e, length (m_Headers (en_matchOf e))) Nat.compare) a b)
  (cmp_or (cmp_rev (cmp_on (λ e, length (m_QueryParams (en_matchOf e))) Nat.compare) a b)
  (cmp_or (cmp_on (λ e, r_CreationTimestamp (en_Route e)) Z.compare a b)
  (cmp_or (cmp_on routeRank String.compare a b)
  (cmp_or (cmp_on en_rule Nat.compare a b)
          (cmp_on en_match Nat.compare a b)))))))))).

#[export] Instance compareEntries_total : TotalCmp compareEntries.
Proof. unfold compareEntries. repeat apply cmp_or_total; apply _. Qed.

(** ** Route configurations *)

(** [owningListener]: the index -1 is [None]. *)
Definition owningStep (m : Model) (host : string) (st : option nat * string) (i : nat)
    : option nat * string :=
  let h := listenerHost (md_Listeners m !! i ≫= l_Hostname) in
  if negb (HostCovers h host) then st
  else if bool_decide (st.1 = None) || moreSpecific h st.2 then (Some i, h) else st.

Definition owningListener (m : Model) (listeners : list nat) (host : string) : option nat :=
  (foldl (owningStep m host) (None, "") listeners).1.

(** The entries in the order the loops of [routeConfiguration] meet them. *)
Definition matchesOf (route : AttachedRoute) (i : nat) (host : string) : list entry :=
  concat (imap (λ rule ru, imap (λ mt _,
    {| en_route := route; en_listener := i; en_host := host; en_rule := rule; en_match := mt |})
    (ru_Matches ru)) (r_Rules (at_Route route))).

Definition entriesOf (m : Model) (listeners : list nat) : list entry :=
  route ← md_Routes m; parent ← at_Parents route; i ← listeners;
  host ← default [] (pa_Hostnames parent !! i); matchesOf route i host.

(** The key an entry is met once by: "%d|%s|%s|%d|%d". *)
Definition entryKey (e : entry) : string :=
  fmt_n (en_listener e) +:+ "|" +:+ en_host e +:+ "|" +:+ Key (en_Route e) +:+ "|"
  +:+ fmt_n (en_rule e) +:+ "|" +:+ fmt_n (en_match e).

Definition collectEntry (st : gmap string (list entry) * gset string) (e : entry)
    : gmap string (list entry) * gset string :=
  let '(byHost, seen) := st in
  if bool_decide (entryKey e ∈ seen) then st
  else (<[en_host e := default [] (byHost !! en_host e) ++ [e]]> byHost, {[entryKey e]} ∪ seen).

Definition byHostOf (m : Model) (listeners : list nat) : gmap string (list entry) :=
  (foldl collectEntry (∅, ∅) (entriesOf m listeners)).1.

(** The entries a virtual host is built from, sorted. *)
Definition hostEntries (byHost : gmap string (list entry)) (owner : option nat)
    (hosts : list string) (host : string) : list entry :=
  sort_by compareEntries
    (other ← hosts;
     if negb (HostCovers other host) then []
     else filter (λ e, Some (en_listener e) = owner) (default [] (byHost !! other))).

(** The key a rule's match is added to a virtual host once by: "%s|%d|%d". *)
Definition addedKey (e : entry) : string :=
  Key (en_Route e) +:+ "|" +:+ fmt_n (en_rule e) +:+ "|" +:+ fmt_n (en_match e).

Definition addRoute (st : list EnvoyRoute * gset string * Clusters) (e : entry)
    : list EnvoyRoute * gset string * Clusters :=
  let '(routes, added, clusters) := st in
  if bool_decide (addedKey e ∈ added) then st
  else
    let '(r, clusters) := envoyRoute e clusters in
    (routes ++ [r], {[addedKey e]} ∪ added, clusters).

Definition addVirtualHost (m : Model) (listeners : list nat) (byHost : gmap string (list entry))
    (hosts : list string) (st : list VirtualHost * Clusters) (host : string)
    : list VirtualHost * Clusters :=
  let '(vhs, clusters) := st in
  let owner := owningListener m listeners host in
  let '(routes, _, clusters) :=
    foldl addRoute ([], ∅, clusters) (hostEntries byHost owner hosts host) in
  (vhs ++ [{| vh_Name := host; vh_Domains := [host]; vh_Routes := routes |}], clusters).

(** [routeConfiguration]. *)
Definition routeConfiguration (name : string) (m : Model) (listeners : list nat)
    (clusters : Clusters) : RouteConfiguration * Clusters :=
  let byHost := byHostOf m listeners in
  let hosts := sortedKeys byHost in
  let '(vhs, clusters) := foldl (addVirtualHost m listeners byHost hosts) ([], clusters) hosts in
  ({| rc_Name := name; rc_IgnorePortInHostMatching := true; rc_VirtualHosts := vhs |}, clusters).

(** ** The listener that owns a host *)

(** The hostname pattern of listener [i], any host when it has none. *)
Definition patternOf (m : Model) (i : nat) : string := listenerHost (md_Listeners m !! i ≫= l_Hostname).

Lemma listenerHost_ne o : listenerHost o ≠ "".
Proof. unfold listenerHost. repeat case_match; str_simpl; done. Qed.

Lemma owningFold_spec m host ids st :
  let best st := match st with
    | (Some i, h) => h = patternOf m i ∧ covers h host
    | (None, _) => True end in
  best st →
  let st' := foldl (owningStep m host) st ids in
  best st' ∧
  (∀ i, st'.1 = Some i → i ∈ ids ∨ st.1 = Some i) ∧
  (∀ j, j ∈ ids → covers (patternOf m j) host →
     is_Some st'.1 ∧ exactChars (patternOf m j) ≤ exactChars st'.2) ∧
  (is_Some st.1 → is_Some st'.1 ∧ exactChars st.2 ≤ exactChars st'.2).
Proof.
  intros best. revert st. induction ids as [|k ids IH]; intros st Hst; cbn [foldl].
  { split_and!; [done|auto| |auto]. intros j Hj. by apply not_elem_of_nil in Hj. }
  assert (∃ st1, owningStep m host st k = st1 ∧ best st1 ∧ (st1.1 = Some k ∨ st1 = st) ∧
    (covers (patternOf m k) host → is_Some st1.1 ∧ exactChars (patternOf m k) ≤ exactChars st1.2) ∧
    (is_Some st.1 → is_Some st1.1 ∧ exactChars st.2 ≤ exactChars st1.2)) as (st1 & Heq & Hb & Hk & Hck & Hs).
  { eexists. split; [reflexivity|]. unfold owningStep. fold (patternOf m k).
    unfold covers in *. destruct (HostCovers (patternOf m k) host) eqn:E; simpl.
    2:{ split_and!; [done|by right|done|by split]. }
    destruct st as [[i|] h]; simpl in *.
    - destruct (moreSpecific (patternOf m k) h) eqn:Em.
      + apply moreSpecific_exactChars in Em. split_and!; [by split|by left|by split|by split].
      + apply not_moreSpecific_exactChars in Em. split_and!; [done|by right|by split|by split].
    - refine (conj _ (conj _ (conj _ _))); [by split|by left|by split|by intros []]. }
  rewrite Heq. destruct (IH st1 Hb) as (Hb' & Hin & Hcov & Hmono).
  refine (conj Hb' (conj _ (conj _ _))).
  - intros i Hi. destruct (Hin i Hi) as [?|Hi1]; [left; by right|].
    destruct Hk as [Hk|Hk]; [|right; congruence]. left. rewrite Hi1 in Hk. injection Hk as ->. left.
  - intros j [->|Hj]%elem_of_cons Hc; [|by apply Hcov].
    destruct (Hck Hc) as [H1 H2]. destruct (Hmono H1) as [H3 H4]. split; [done|lia].
  - intros H0. destruct (Hs H0) as [H1 H2]. destruct (Hmono H1) as [H3 H4]. split; [done|lia].
Qed.

Lemma owningListener_Some m ids host i :
  owningListener m ids host = Some i →
  i ∈ ids ∧ covers (patternOf m i) host ∧
  ∀ j, j ∈ ids → covers (patternOf m j) host → covers (patternOf m j) (patternOf m i).
Proof.
  unfold owningListener. intros Ho.
  destruct (owningFold_spec m host ids (None, "") I) as (Hb & Hin & Hcov & _).
  destruct (foldl (owningStep m host) (None, "") ids) as [[k|] h]; simpl in *; [|done].
  injection Ho as ->. destruct Hb as [-> Hc].
  split_and!; [by destruct (Hin i eq_refl)|done|]. intros j Hj Hcj.
  eapply less_specific_covers; [exact Hc|done|apply listenerHost_ne|by apply Hcov|apply listenerHost_ne].
Qed.

Lemma owningListener_None m ids host :
  owningListener m ids host = None ↔ ∀ j, j ∈ ids → ¬ covers (patternOf m j) host.
Proof.
  unfold owningListener.
  destruct (owningFold_spec m host ids (None, "") I) as (Hb & Hin & Hcov & _). split.
  - intros Hn j Hj Hc. destruct (Hcov j Hj Hc) as [[k Hk] _]. congruence.
  - intros Hnone. destruct (foldl _ _ _) as [[k|] h]; simpl in *; [|done].
    destruct Hb as [-> Hc]. destruct (Hin k eq_refl) as [Hk|]; [|done]. by destruct (Hnone k Hk).
Qed.

(** Among listeners on one port, the one that owns a host is the most
    specific whose hostname covers it: every other that covers the host covers
    the owner's whole hostname too. There is no owner exactly when none covers
    the host. *)
Theorem owningListener_spec m listeners host :
  match owningListener m listeners host with
  | Some i =>
    i ∈ listeners ∧ HostCovers (patternOf m i) host = true ∧
    ∀ j, j ∈ listeners → HostCovers (patternOf m j) host = true →
      HostCovers (patternOf m j) (patternOf m i) = true
  | None => ∀ j, j ∈ listeners → HostCovers (patternOf m j) host = false
  end.
Proof.
  destruct (owningListener m listeners host) as [i|] eqn:E.
  - by apply owningListener_Some.
  - intros j Hj. apply not_true_iff_false. by apply owningListener_None with (j := j) in E.
Qed.

(** ** The clusters a rule uses *)

Definition addClusters (cs : list Cluster) (clusters : Clusters) : Clusters :=
  foldl (λ m c, <[cl_Name c := c]> m) clusters cs.

Lemma addClusters_app cs1 cs2 clusters :
  addClusters (cs1 ++ cs2) clusters = addClusters cs2 (addClusters cs1 clusters).
Proof. unfold addClusters. by rewrite foldl_app. Qed.

(** The backends that get a share of the traffic, and the share of each. *)
Definition live (backends : list Backend) : list Backend :=
  filter (λ b, (0 < b_Weight b)%Z) backends.

Definition shareName (b : Backend) : string := from_option cl_Name invalidCluster (b_Cluster b).

Definition share (b : Backend) : ClusterWeight :=
  {| cw_Name := shareName b; cw_Weight := uint32 (b_Weight b) |}.

Definition liveClusters (backends : list Backend) : list Cluster := omap b_Cluster (live backends).

Lemma weighFold_eq backends ws clusters :
  foldl weighBackend (ws, clusters) backends =
  (ws ++ (share <$> live backends), addClusters (liveClusters backends) clusters).
Proof.
  revert ws clusters. induction backends as [|[w [c|]] bs IH]; intros ws clusters; cbn [foldl];
    [by rewrite app_nil_r| |].
  all: unfold weighBackend at 2; unfold liveClusters, live in *; rewrite filter_cons; simpl.
  all: destruct (Z.leb_spec w 0);
    [rewrite decide_False by lia; by rewrite IH|rewrite decide_True by lia; by rewrite IH, <- app_assoc].
Qed.

Lemma weighBackends_eq backends clusters :
  weighBackends backends clusters =
  (share <$> live backends, addClusters (liveClusters backends) clusters).
Proof. unfold weighBackends. by rewrite weighFold_eq. Qed.

(** The action of a rule's backends, which does not depend on the clusters met
    before. *)
Definition backendsAction (backends : list Backend) : option RouteAction :=
  match share <$> live backends with
  | [] => None
  | [w] => if str_eqb (cw_Name w) invalidCluster then None
           else Some (actionOf (SpecCluster (cw_Name w)))
  | ws => Some (actionOf (SpecWeightedClusters ws))
  end.

Lemma routeAction_eq backends clusters :
  routeAction backends clusters =
  (backendsAction backends, addClusters (liveClusters backends) clusters).
Proof.
  unfold routeAction, backendsAction. rewrite weighBackends_eq.
  by destruct (share <$> live backends) as [|w [|w' ws]].
Qed.

Definition en_backends (e : entry) : list Backend := default [] (at_Backends (en_route e) !! en_rule e).

Definition startState (e : entry) : FilterState :=
  {| fs_Route := {| er_Name := routeName e; er_Match := routeMatch (en_matchOf e);
       er_RequestHeadersToAdd := []; er_RequestHeadersToRemove := [];
       er_ResponseHeadersToAdd := []; er_ResponseHeadersToRemove := []; er_Action := None |};
     fs_redirect := None; fs_rewrite := None |}.

Definition filtered (e : entry) : FilterState * bool := filterLoop (startState e) (ru_Filters (en_ruleOf e)).

(** Whether an entry's traffic goes to its rule's backends. *)
Definition forwards (e : entry) : bool :=
  (filtered e).2 && bool_decide (fs_redirect (filtered e).1 = None).

Definition usedClusters (e : entry) : list Cluster :=
  if forwards e then liveClusters (en_backends e) else [].

(** The route of an entry alone. *)
Definition envoyRouteOf (e : entry) : EnvoyRoute := (envoyRoute e ∅).1.

Lemma envoyRoute_eq e clusters :
  envoyRoute e clusters = (envoyRouteOf e, addClusters (usedClusters e) clusters).
Proof.
  unfold envoyRouteOf, usedClusters, forwards, envoyRoute. fold (startState e).
  fold (filtered e). destruct (filtered e) as [st b]. simpl. fold (en_backends e).
  destruct b; simpl; [|done]. destruct (fs_redirect st); simpl; [done|].
  rewrite !routeAction_eq. by destruct (backendsAction (en_backends e)).
Qed.

(** ** Virtual hosts, without the state *)

Definition metEntries (m : Model) (listeners : list nat) : list entry :=
  dedup_by entryKey (entriesOf m listeners).

Lemma collectFold_spec es acc byHost seen :
  (∀ k, k ∈ seen ↔ k ∈ entryKey <$> acc) →
  (∀ h, byHost !! h = match filter (λ e, en_host e = h) acc with [] => None | l => Some l end) →
  let st := foldl collectEntry (byHost, seen) es in
  ∀ h, st.1 !! h = match filter (λ e, en_host e = h) (foldl (dedup_add entryKey) acc es) with
                   | [] => None | l => Some l end.
Proof.
  revert acc byHost seen. induction es as [|e es IH]; intros acc byHost seen Hseen Hby; [done|].
  cbn [foldl]. unfold collectEntry at 2, dedup_add at 2.
  rewrite (bool_decide_ext _ _ (Hseen (entryKey e))). case_bool_decide; [by apply IH|].
  apply IH.
  - intros k. rewrite elem_of_union, elem_of_singleton, Hseen, fmap_app, elem_of_app. simpl.
    rewrite list_elem_of_singleton. tauto.
  - intros h. rewrite filter_app, filter_cons, filter_nil. case_decide as Hh.
    + subst h. rewrite lookup_insert_eq, Hby. by destruct (filter _ acc).
    + rewrite lookup_insert_ne by done. by rewrite app_nil_r.
Qed.

Lemma byHostOf_lookup m listeners h :
  byHostOf m listeners !! h =
  match filter (λ e, en_host e = h) (metEntries m listeners) with [] => None | l => Some l end.
Proof.
  unfold byHostOf, metEntries, dedup_by.
  apply (collectFold_spec _ [] ∅ ∅); [intros k; simpl; set_solver|].
  intros h'. by rewrite lookup_empty.
Qed.

Lemma byHostOf_default m listeners h :
  default [] (byHostOf m listeners !! h) = filter (λ e, en_host e = h) (metEntries m listeners).
Proof. rewrite byHostOf_lookup. by destruct (filter _ _). Qed.

Definition hostsOf (m : Model) (listeners : list nat) : list string := sortedKeys (byHostOf m listeners).

Lemma elem_of_keys {A} (m : gmap string A) k : k ∈ (map_to_list m).*1 ↔ is_Some (m !! k).
Proof.
  rewrite list_elem_of_fmap. split.
  - intros ([k' v] & -> & Hin%elem_of_map_to_list). by exists v.
  - intros [v Hv]. exists (k, v). split; [done|]. by apply elem_of_map_to_list.
Qed.

Lemma elem_of_hostsOf m listeners h :
  h ∈ hostsOf m listeners ↔ ∃ e, e ∈ metEntries m listeners ∧ en_host e = h.
Proof.
  unfold hostsOf. rewrite elem_of_sortedKeys, byHostOf_lookup. split.
  - destruct (filter _ _) as [|e l] eqn:E; [by intros []|]. intros _. exists e.
    assert (e ∈ filter (λ e, en_host e = h) (metEntries m listeners)) as Hin by (rewrite E; left).
    apply list_elem_of_filter in Hin. tauto.
  - intros (e & He & Hh). destruct (filter _ _) as [|e' l] eqn:E; [|by eexists].
    assert (e ∈ filter (λ e, en_host e = h) (metEntries m listeners)) as Hin
      by by apply list_elem_of_filter.
    rewrite E in Hin. by apply not_elem_of_nil in Hin.
Qed.

(** The entries of one virtual host, before repetitions are dropped and after. *)
Definition sortedEntries (m : Model) (listeners : list nat) (host : string) : list entry :=
  hostEntries (byHostOf m listeners) (owningListener m listeners host) (hostsOf m listeners) host.

Definition servedEntries (m : Model) (listeners : list nat) (host : string) : list entry :=
  dedup_by addedKey (sortedEntries m listeners host).

Lemma addRouteFold_eq es acc added clusters :
  (∀ k, k ∈ added ↔ k ∈ addedKey <$> acc) →
  ∃ added', foldl addRoute (envoyRouteOf <$> acc, added, addClusters (acc ≫= usedClusters) clusters) es =
  (envoyRouteOf <$> foldl (dedup_add addedKey) acc es, added',
   addClusters (foldl (dedup_add addedKey) acc es ≫= usedClusters) clusters).
Proof.
  revert acc added. induction es as [|e es IH]; intros acc added Hadded; [by eexists|].
  cbn [foldl]. unfold addRoute at 2, dedup_add at 2 4.
  rewrite (bool_decide_ext _ _ (Hadded (addedKey e))). case_bool_decide; [by apply IH|].
  rewrite envoyRoute_eq, <- addClusters_app.
  assert ((acc ≫= usedClusters) ++ usedClusters e = (acc ++ [e]) ≫= usedClusters) as Hb.
  { rewrite bind_app. simpl. by rewrite app_nil_r. }
  assert ((envoyRouteOf <$> acc) ++ [envoyRouteOf e] = envoyRouteOf <$> (acc ++ [e])) as ->
    by by rewrite fmap_app.
  rewrite Hb. destruct (IH (acc ++ [e]) ({[addedKey e]} ∪ added)) as [added' Heq].
  { intros k. rewrite elem_of_union, elem_of_singleton, Hadded, fmap_app, elem_of_app. simpl.
    rewrite list_elem_of_singleton. tauto. }
  rewrite Heq. by eexists.
Qed.

Definition virtualHostOf (m : Model) (listeners : list nat) (host : string) : VirtualHost :=
  {| vh_Name := host; vh_Domains := [host];
     vh_Routes := envoyRouteOf <$> servedEntries m listeners host |}.

Lemma addVirtualHost_eq m listeners vhs clusters host :
  addVirtualHost m listeners (byHostOf m listeners) (hostsOf m listeners) (vhs, clusters) host =
  (vhs ++ [virtualHostOf m listeners host],
   addClusters (servedEntries m listeners host ≫= usedClusters) clusters).
Proof.
  unfold addVirtualHost. fold (sortedEntries m listeners host).
  destruct (addRouteFold_eq (sortedEntries m listeners host) [] ∅ clusters) as [added' Heq];
    [intros k; simpl; set_solver|].
  change (foldl addRoute ([], ∅, clusters) (sortedEntries m listeners host)) with
    (foldl addRoute (envoyRouteOf <$> [], ∅, addClusters ([] ≫= usedClusters) clusters)
      (sortedEntries m listeners host)).
  rewrite Heq. done.
Qed.

Lemma routeConfiguration_eq name m listeners clusters :
  routeConfiguration name m listeners clusters =
  ({| rc_Name := name; rc_IgnorePortInHostMatching := true;
      rc_VirtualHosts := virtualHostOf m listeners <$> hostsOf m listeners |},
   addClusters (hostsOf m listeners ≫= λ h, servedEntries m listeners h ≫= usedClusters) clusters).
Proof.
  unfold routeConfiguration. fold (hostsOf m listeners).
  assert (∀ hosts vhs cl,
    foldl (addVirtualHost m listeners (byHostOf m listeners) (hostsOf m listeners)) (vhs, cl) hosts =
    (vhs ++ (virtualHostOf m listeners <$> hosts),
     addClusters (hosts ≫= λ h, servedEntries m listeners h ≫= usedClusters) cl)) as ->; [|done].
  induction hosts as [|h hosts IH]; intros vhs cl; cbn [foldl].
  { by rewrite app_nil_r. }
  rewrite addVirtualHost_eq, IH, <- app_assoc. simpl. by rewrite addClusters_app.
Qed.

(** ** What a route configuration serves *)

Definition bar : Ascii.ascii := Ascii.ascii_of_nat 124.

(** Hostnames and the names of routes hold no vertical bar, so that the keys of
    the loops' sets tell entries apart. *)
Definition plainEntry (e : entry) : bool := lacks bar (en_host e) && lacks bar (Key (en_Route e)).

Lemma lacks_bar_fmt_n n : lacks bar (fmt_n n) = true.
Proof. by apply lacks_fmt_d. Qed.

Lemma fmt_n_inj n1 n2 : fmt_n n1 = fmt_n n2 → n1 = n2.
Proof. unfold fmt_n, fmt_d. intros H%(inj pretty). lia. Qed.

Lemma addedKey_inj e1 e2 :
  plainEntry e1 = true → plainEntry e2 = true → addedKey e1 = addedKey e2 →
  Key (en_Route e1) = Key (en_Route e2) ∧ en_rule e1 = en_rule e2 ∧ en_match e1 = en_match e2.
Proof.
  unfold plainEntry. rewrite !andb_true_iff. intros [_ H1] [_ H2] Heq.
  change (Key (en_Route e1) +:+ String bar (fmt_n (en_rule e1) +:+ String bar (fmt_n (en_match e1)))
    = Key (en_Route e2) +:+ String bar (fmt_n (en_rule e2) +:+ String bar (fmt_n (en_match e2)))) in Heq.
  apply lacks_cut in Heq as [-> Heq]; [|done..].
  apply lacks_cut in Heq as [Hr%fmt_n_inj Hm%fmt_n_inj]; [done|apply lacks_bar_fmt_n..].
Qed.

Lemma entryKey_inj e1 e2 :
  plainEntry e1 = true → plainEntry e2 = true → entryKey e1 = entryKey e2 →
  en_listener e1 = en_listener e2 ∧ en_host e1 = en_host e2 ∧ addedKey e1 = addedKey e2.
Proof.
  intros Hp1 Hp2 Heq. pose proof Hp1 as [Hh1 Hk1]%andb_true_iff. pose proof Hp2 as [Hh2 Hk2]%andb_true_iff.
  change (fmt_n (en_listener e1) +:+ String bar (en_host e1 +:+ String bar (addedKey e1))
    = fmt_n (en_listener e2) +:+ String bar (en_host e2 +:+ String bar (addedKey e2))) in Heq.
  apply lacks_cut in Heq as [Hl%fmt_n_inj Heq]; [|apply lacks_bar_fmt_n..].
  by apply lacks_cut in Heq as [-> Heq].
Qed.

(** An entry that serves requests for a host: it is attached to the listener
    that owns the host, and its own hostname covers it. *)
Definition serves (m : Model) (listeners : list nat) (host : string) (e : entry) : Prop :=
  e ∈ entriesOf m listeners ∧ HostCovers (en_host e) host = true ∧
  owningListener m listeners host = Some (en_listener e).

Lemma elem_of_sortedEntries m listeners host e :
  e ∈ sortedEntries m listeners host ↔
  e ∈ metEntries m listeners ∧ HostCovers (en_host e) host = true ∧
  owningListener m listeners host = Some (en_listener e).
Proof.
  unfold sortedEntries, hostEntries. rewrite elem_of_sort_by, list_elem_of_bind. split.
  - intros (other & Hin & Hother). destruct (HostCovers other host) eqn:E; simpl in Hin;
      [|by apply not_elem_of_nil in Hin].
    rewrite byHostOf_default in Hin.
    apply list_elem_of_filter in Hin as [Ho [Hh Hm]%list_elem_of_filter]. by subst other.
  - intros (Hm & Hc & Ho). exists (en_host e). rewrite Hc, byHostOf_default. simpl. split.
    + apply list_elem_of_filter. split; [done|]. by apply list_elem_of_filter.
    + apply elem_of_hostsOf. by exists e.
Qed.

Lemma metEntries_elem m listeners e : e ∈ metEntries m listeners → e ∈ entriesOf m listeners.
Proof. intros. eapply elem_of_sublist; [done|apply dedup_by_sublist]. Qed.

Lemma virtualHost_names m listeners :
  vh_Name <$> (virtualHostOf m listeners <$> hostsOf m listeners) = hostsOf m listeners.
Proof.
  rewrite <- list_fmap_compose. rewrite <- (list_fmap_id (hostsOf m listeners)) at 2.
  by apply list_fmap_ext.
Qed.

(** An entry is met under a hostname of its own key. *)
Lemma metEntries_key m listeners e :
  (∀ e, e ∈ entriesOf m listeners → plainEntry e = true) → e ∈ entriesOf m listeners →
  ∃ d, d ∈ metEntries m listeners ∧ en_listener d = en_listener e ∧ en_host d = en_host e ∧ addedKey d = addedKey e.
Proof.
  intros Hplain He. destruct (dedup_by_keys entryKey (entriesOf m listeners) e He) as (d & Hd & Hk).
  exists d. split; [done|]. apply entryKey_inj; [|by apply Hplain|done].
  by apply Hplain, metEntries_elem.
Qed.

Lemma entry_hostsOf m listeners e :
  (∀ e, e ∈ entriesOf m listeners → plainEntry e = true) → e ∈ entriesOf m listeners → en_host e ∈ hostsOf m listeners.
Proof.
  intros Hplain He. destruct (metEntries_key m listeners e Hplain He) as (d & Hd & _ & Hh & _).
  apply elem_of_hostsOf. by exists d.
Qed.

(** What the virtual host of a hostname is built from. *)
Lemma servedEntries_spec m listeners h :
  (∀ e, e ∈ entriesOf m listeners → plainEntry e = true) →
  let es := servedEntries m listeners h in
  StronglySorted (cmp_le compareEntries) es ∧ NoDup (addedKey <$> es) ∧
  (∀ e, e ∈ es → serves m listeners h e) ∧
  (∀ e, serves m listeners h e → ∃ e', e' ∈ es ∧ addedKey e' = addedKey e).
Proof.
  intros Hplain es. unfold es. split_and!.
  - eapply sublist_StronglySorted; [apply dedup_by_sublist|]. apply (sort_by_sorted compareEntries).
  - apply NoDup_dedup_by.
  - intros e He. assert (e ∈ sortedEntries m listeners h) as Hs
      by (eapply elem_of_sublist; [exact He|apply dedup_by_sublist]).
    apply elem_of_sortedEntries in Hs as (Hm & Hc & Ho).
    by split_and!; [apply metEntries_elem| |].
  - intros e (He & Hc & Ho). destruct (metEntries_key m listeners e Hplain He) as (d & Hd & Hl & Hhd & Hk).
    destruct (dedup_by_keys addedKey (sortedEntries m listeners h) d) as (e' & He' & Hk').
    { apply elem_of_sortedEntries. by rewrite Hhd, Hl. }
    exists e'. split; [done|congruence].
Qed.

(** C10. A route configuration has one virtual host for each hostname some
    attached route serves. Its routes are those of the rules that serve the
    hostname: attached to the listener that owns it, under this hostname or one
    that covers it. None is missing and none appears twice, and they come in
    Gateway API precedence, so that the first that matches a request is the one
    that must take it. *)
Theorem routeConfiguration_spec name m listeners clusters :
  (∀ e, e ∈ entriesOf m listeners → plainEntry e = true) →
  let rc := (routeConfiguration name m listeners clusters).1 in
  NoDup (vh_Name <$> rc_VirtualHosts rc) ∧
  (∀ e, e ∈ entriesOf m listeners → en_host e ∈ vh_Name <$> rc_VirtualHosts rc) ∧
  ∀ vh, vh ∈ rc_VirtualHosts rc →
    vh_Domains vh = [vh_Name vh] ∧
    ∃ es, vh_Routes vh = envoyRouteOf <$> es ∧
      StronglySorted (cmp_le compareEntries) es ∧ NoDup (addedKey <$> es) ∧
      (∀ e, e ∈ es → serves m listeners (vh_Name vh) e) ∧
      (∀ e, serves m listeners (vh_Name vh) e → ∃ e', e' ∈ es ∧ addedKey e' = addedKey e).
Proof.
  intros Hplain rc. unfold rc. rewrite routeConfiguration_eq. simpl. rewrite virtualHost_names. split_and!.
  - apply NoDup_sortedKeys.
  - intros e He. by apply entry_hostsOf.
  - intros vh (h & -> & Hh)%list_elem_of_fmap. split; [done|]. simpl.
    exists (servedEntries m listeners h). split; [done|]. by apply servedEntries_spec.
Qed.

(** ** What a rule does with a request *)

Definition implemented (f : HTTPRouteFilter) : bool :=
  bool_decide (f_Type f ∈ [FilterRequestHeaderModifier; FilterResponseHeaderModifier;
                           FilterRequestRedirect; FilterURLRewrite]).

(** The redirect and the rewrite in force: the last filter of the type sets
    it. *)
Definition redirectOf (filters : list HTTPRouteFilter) : option HTTPRequestRedirectFilter :=
  foldl (λ acc f, if str_eqb (f_Type f) FilterRequestRedirect then f_RequestRedirect f else acc)
    None filters.

Definition rewriteOf (filters : list HTTPRouteFilter) : option HTTPURLRewriteFilter :=
  foldl (λ acc f, if str_eqb (f_Type f) FilterURLRewrite then f_URLRewrite f else acc) None filters.

(** What the rule's header filters add to requests, in order. *)
Definition requestHeaders (filters : list HTTPRouteFilter) : list HeaderValueOption :=
  f ← filters;
  if str_eqb (f_Type f) FilterRequestHeaderModifier then (headerModifier (f_RequestHeaderModifier f)).1
  else [].

Lemma filterStep_Some st f :
  is_Some (filterStep st f) ↔ implemented f = true.
Proof.
  unfold filterStep, implemented. rewrite bool_decide_eq_true.
  destruct (str_eqb (f_Type f) FilterRequestHeaderModifier) eqn:E1; str_simpl.
  { destruct (headerModifier _). rewrite E1. split; [intros _; set_solver|by eexists]. }
  destruct (str_eqb (f_Type f) FilterResponseHeaderModifier) eqn:E2; str_simpl.
  { destruct (headerModifier _). rewrite E2. split; [intros _; set_solver|by eexists]. }
  destruct (str_eqb (f_Type f) FilterRequestRedirect) eqn:E3; str_simpl.
  { rewrite E3. split; [intros _; set_solver|by eexists]. }
  destruct (str_eqb (f_Type f) FilterURLRewrite) eqn:E4; str_simpl.
  { rewrite E4. split; [intros _; set_solver|by eexists]. }
  split; [by intros []|]. rewrite !elem_of_cons, elem_of_nil. tauto.
Qed.

Lemma filterStep_eq st f st' :
  filterStep st f = Some st' →
  fs_redirect st' = (if str_eqb (f_Type f) FilterRequestRedirect then f_RequestRedirect f else fs_redirect st) ∧
  fs_rewrite st' = (if str_eqb (f_Type f) FilterURLRewrite then f_URLRewrite f else fs_rewrite st) ∧
  er_RequestHeadersToAdd (fs_Route st') = er_RequestHeadersToAdd (fs_Route st) ++ requestHeaders [f].
Proof.
  unfold filterStep, requestHeaders. simpl. rewrite app_nil_r.
  destruct (str_eqb (f_Type f) FilterRequestHeaderModifier) eqn:E1; str_simpl.
  { destruct (headerModifier _). rewrite E1. by intros [= <-]. }
  rewrite app_nil_r. destruct (str_eqb (f_Type f) FilterResponseHeaderModifier) eqn:E2; str_simpl.
  { destruct (headerModifier _). rewrite E2. by intros [= <-]. }
  destruct (str_eqb (f_Type f) FilterRequestRedirect) eqn:E3; str_simpl.
  { rewrite E3. by intros [= <-]. }
  destruct (str_eqb (f_Type f) FilterURLRewrite) eqn:E4; by intros [= <-].
Qed.

Lemma filterLoop_eq st filters :
  (filterLoop st filters).2 = forallb implemented filters ∧
  (forallb implemented filters = true →
    fs_redirect (filterLoop st filters).1 =
      foldl (λ acc f, if str_eqb (f_Type f) FilterRequestRedirect then f_RequestRedirect f else acc)
        (fs_redirect st) filters ∧
    fs_rewrite (filterLoop st filters).1 =
      foldl (λ acc f, if str_eqb (f_Type f) FilterURLRewrite then f_URLRewrite f else acc)
        (fs_rewrite st) filters ∧
    er_RequestHeadersToAdd (fs_Route (filterLoop st filters).1) =
      er_RequestHeadersToAdd (fs_Route st) ++ requestHeaders filters).
Proof.
  revert st. induction filters as [|f filters IH]; intros st; cbn [filterLoop forallb foldl].
  { split; [done|]. intros _. by rewrite app_nil_r. }
  destruct (filterStep st f) as [st'|] eqn:E.
  - assert (implemented f = true) as -> by (apply (filterStep_Some st); by rewrite E).
    apply filterStep_eq in E as (Hr & Hw & Hh). destruct (IH st') as [-> IH2]. split; [done|].
    intros Hall. destruct (IH2 Hall) as (-> & -> & ->). rewrite Hr, Hw, Hh. split_and!; [done..|].
    unfold requestHeaders. rewrite <- app_assoc. simpl. by rewrite app_nil_r.
  - assert (implemented f = false) as ->; [|done]. apply not_true_iff_false.
    intros Hi%(filterStep_Some st). rewrite E in Hi. by destruct Hi.
Qed.

(** A rule with a filter that is not implemented answers every request
    with a 500. Otherwise one that redirects sends the redirect. Otherwise
    requests go to the backends with a weight, in proportion, where a backend
    that does not resolve keeps its share under the name of a cluster that never
    exists, which is answered with a 500; and a rule left with no backend, or
    with a single one that does not resolve, answers 500 itself. Header filters
    apply in order. *)
Theorem envoyRoute_action e clusters :
  (∀ b c, b ∈ en_backends e → b_Cluster b = Some c → cl_Name c ≠ invalidCluster) →
  let filters := ru_Filters (en_ruleOf e) in
  let rewritten action := match rewriteOf filters with
                          | Some f => applyRewrite action f (en_matchOf e)
                          | None => action end in
  let r := (envoyRoute e clusters).1 in
  er_Action r = Some (
    if negb (forallb implemented filters) then Route_DirectResponse 500
    else match redirectOf filters with
    | Some redirect => Route_Redirect (redirectAction redirect (en_matchOf e))
    | None =>
      match live (en_backends e) with
      | [] => Route_DirectResponse 500
      | [b] => match b_Cluster b with
               | None => Route_DirectResponse 500
               | Some c => Route_Route (rewritten (actionOf (SpecCluster (cl_Name c))))
               end
      | bs => Route_Route (rewritten (actionOf (SpecWeightedClusters (share <$> bs))))
      end
    end) ∧
  (forallb implemented filters = true → er_RequestHeadersToAdd r = requestHeaders filters).
Proof.
  intros Hnames filters rewritten r.
  assert (r = envoyRouteOf e) as -> by (unfold r; by rewrite envoyRoute_eq).
  unfold envoyRouteOf, envoyRoute. fold (startState e) (filtered e) (en_backends e) filters.
  destruct (filterLoop_eq (startState e) filters) as [Himpl Hloop].
  change (filterLoop (startState e) filters) with (filtered e) in *.
  destruct (filtered e) as [st b]. cbn [fst snd] in *. subst b.
  destruct (forallb implemented filters); simpl; [|done].
  destruct (Hloop eq_refl) as (Hr & Hw & Hh).
  cbn [startState fs_Route er_RequestHeadersToAdd app] in Hh.
  change (fs_redirect st = redirectOf filters) in Hr. change (fs_rewrite st = rewriteOf filters) in Hw.
  rewrite Hr. destruct (redirectOf filters); simpl; [by split|].
  rewrite routeAction_eq. unfold backendsAction.
  destruct (live (en_backends e)) as [|b [|b' bs]] eqn:El; simpl; [by split| |].
  - unfold shareName. destruct (b_Cluster b) as [c|] eqn:Eb; simpl; [|by split].
    rewrite (proj2 (str_eqb_neq (cl_Name c) invalidCluster)); simpl.
    + by rewrite Hw.
    + apply (Hnames b); [|done]. assert (b ∈ live (en_backends e)) as Hin by (rewrite El; left).
      by apply list_elem_of_filter in Hin as [_ ?].
  - by rewrite Hw.
Qed.

(** ** Witnesses *)

Definition sampleEntry : entry :=
  {| en_route := default {| at_Route := sampleRoute "" "" [] []; at_Parents := []; at_Backends := [];
                            at_ResolvedRefs := routeRefsResolved |} (md_Routes sampleModel !! 0);
     en_listener := 0; en_host := "a.example.com"; en_rule := 0; en_match := 0 |}.

(** The rule's backend that does not resolve keeps half of the traffic. *)
Lemma envoyRoute_action_witness :
  (∀ b c, b ∈ en_backends sampleEntry → b_Cluster b = Some c → cl_Name c ≠ invalidCluster) ∧
  er_Action (envoyRoute sampleEntry ∅).1 = Some (Route_Route (actionOf (SpecWeightedClusters
    [{| cw_Name := "infra/web/80"; cw_Weight := 1 |}; {| cw_Name := invalidCluster; cw_Weight := 1 |}]))).
Proof.
  assert (∀ b c, b ∈ en_backends sampleEntry → b_Cluster b = Some c → cl_Name c ≠ invalidCluster) as Hn.
  { assert (en_backends sampleEntry = [{| b_Weight := 1; b_Cluster := Some webCluster |};
      {| b_Weight := 1; b_Cluster := None |}]) as -> by (vm_compute; reflexivity).
    intros b c [->|[->|Hb]%elem_of_cons]%elem_of_cons Hc; simpl in Hc;
      [injection Hc as <-; discriminate|discriminate|by apply not_elem_of_nil in Hb]. }
  split; [exact Hn|]. rewrite (proj1 (envoyRoute_action sampleEntry ∅ Hn)). vm_compute. reflexivity.
Defined.

Lemma routeConfiguration_spec_witness :
  (∀ e, e ∈ entriesOf sampleModel [0; 1] → plainEntry e = true) ∧
  vh_Name <$> rc_VirtualHosts (routeConfiguration "http" sampleModel [0; 1] ∅).1
    = ["a.example.com"; "other.org"] ∧
  NoDup (vh_Name <$> rc_VirtualHosts (routeConfiguration "http" sampleModel [0; 1] ∅).1).
Proof.
  assert (∀ e, e ∈ entriesOf sampleModel [0; 1] → plainEntry e = true) as Hp.
  { intros e He. apply (proj1 (forallb_forall plainEntry (entriesOf sampleModel [0; 1])));
      [vm_compute; reflexivity|by apply list_elem_of_In]. }
  split; [exact Hp|]. split; [vm_compute; reflexivity|].
  exact (proj1 (routeConfiguration_spec "http" sampleModel [0; 1] ∅ Hp)).
Defined.
