(* ===== verification/Xds.v ===== *)
(** * A Gateway's Envoy configuration (internal/xds/translate.go, l4.go)

    The listeners, route configurations, clusters and endpoints a Gateway's
    Envoy is served, with the layer 4 listeners and the endpoints of clusters.
    Go ranges over a map in no fixed order: where the code does so without
    sorting, the order is a parameter ([MapOrder]). *)
From Stdlib Require Import Sorted.
From S2P Require Import Prelude GatewayAPI Samples Refs Routes Envoy Listeners Hosts Model EnvoyAPI XdsRoutes.

(** An order in which a map keyed by route is ranged over. *)
Class MapOrder := {
  rangeOver : gmap nat (list string) → list (nat * list string);
  rangeOver_perm m : rangeOver m ≡ₚ map_to_list m;
}.

Definition connectTimeout : Z := 5000000000.
Definition httpConnectionManagerFilter := "envoy.filters.network.http_connection_manager".

(** ** Endpoints *)

(** The port of a slice that is named after the Service's. *)
Definition slicePort (name : string) (ports : list EndpointPort) : option Z :=
  List.find (λ p, bool_decide (is_Some (ep_Port p)) && str_eqb (default "" (ep_Name p)) name) ports
  ≫= ep_Port.

Definition sliceAddresses (c : Cluster) (slice : EndpointSlice) : list (string * Z) :=
  if negb (str_eqb (es_AddressType slice) "IPv4") && negb (str_eqb (es_AddressType slice) "IPv6") then []
  else match slicePort (sp_Name (cl_Port c)) (es_Ports slice) with
  | None => []
  | Some port =>
    ep ← es_Endpoints slice;
    if bool_decide (e_Ready ep = Some false) then [] else (λ ip, (ip, port)) <$> e_Addresses ep
  end.

Definition compareAddresses (a b : string * Z) : comparison :=
  cmp_or (cmp_on fst String.compare a b) (cmp_on snd Z.compare a b).

#[export] Instance compareAddresses_total : TotalCmp compareAddresses.
Proof. unfold compareAddresses. apply cmp_or_total; apply _. Qed.

Definition socketAddress (address : string) (port : Z) : SocketAddress :=
  {| sa_Protocol := SocketAddress_TCP; sa_Address := address; sa_Port := port |}.

(** The addresses of [clusterEndpoints], each once, sorted. *)
Definition clusterAddresses (c : Cluster) (refs : option References) : list (string * Z) :=
  sort_by compareAddresses
    (match refs with
     | None => []
     | Some refs => dedup_by id (default [] (Endpoints refs !! cl_Service c) ≫= sliceAddresses c)
     end).

(** [clusterEndpoints]. *)
Definition clusterEndpoints (c : Cluster) (refs : option References) : ClusterLoadAssignment :=
  {| cla_ClusterName := cl_Name c;
     cla_Endpoints := [{| lle_SubZone := None; lle_LoadBalancingWeight := None;
       lle_LbEndpoints := (λ a, socketAddress a.1 (uint32 a.2)) <$> clusterAddresses c refs |}] |}.

(** ** Clusters *)

Definition adsConfigSource : ConfigSource := Ads "V3".

(** [cluster]. *)
Definition cluster `{Anypb} (c : Cluster) : result EnvoyCluster :=
  let out options := {| ec_Name := cl_Name c; ec_ConnectTimeout := connectTimeout;
                        ec_EdsConfig := adsConfigSource; ec_LocalityWeighted := false;
                        ec_ProtocolOptions := options |} in
  if cl_H2 c then
    let? http2 := anypb_New HttpProtocolOptions_Http2 in inl (out (Some http2))
  else inl (out None).

(** A cluster made of the endpoints of several backends. *)
Record weightedCluster := { wc_name : string; wc_backends : list Backend }.

(** [weightedClusterResources]. *)
Definition backendLocality (refs : option References) (i : nat) (b : Backend) : LocalityLbEndpoints :=
  {| lle_SubZone := Some ("backend-" +:+ fmt_n i);
     lle_LoadBalancingWeight := Some (uint32 (b_Weight b));
     lle_LbEndpoints := match b_Cluster b with
                        | Some c => cla_Endpoints (clusterEndpoints c refs) ≫= lle_LbEndpoints
                        | None => []
                        end |}.

Definition weightedClusterResources (w : weightedCluster) (refs : option References)
    : EnvoyCluster * ClusterLoadAssignment :=
  ({| ec_Name := wc_name w; ec_ConnectTimeout := connectTimeout; ec_EdsConfig := adsConfigSource;
      ec_LocalityWeighted := true; ec_ProtocolOptions := None |},
   {| cla_ClusterName := wc_name w; cla_Endpoints := imap (backendLocality refs) (wc_backends w) |}).

(** ** Listeners of HTTP *)

Definition listenerAddress (port : Z) : SocketAddress := socketAddress "0.0.0.0" (uint32 (ContainerPort port)).

Section http.
Context `{Anypb}.

Definition httpConnectionManager (name : string) : result Message :=
  let? router := anypb_New Router in
  anypb_New (HttpConnectionManager_Rds name name adsConfigSource
    [("envoy.filters.http.router", router)]).

Definition httpListener (name : string) (port : Z) : result EnvoyListener :=
  let? manager := httpConnectionManager name in
  inl {| el_Name := name; el_Address := listenerAddress port; el_ListenerFilters := [];
         el_FilterChains := [{| fc_Name := ""; fc_ServerNames := None;
           fc_Filters := [{| fi_Name := httpConnectionManagerFilter; fi_TypedConfig := manager |}];
           fc_TransportSocket := None |}] |}.

(** A listener whose filter chains are chosen by SNI. *)
Definition sniListener (name : string) (port : Z) (chains : list FilterChain) : result EnvoyListener :=
  let? inspector := anypb_New TlsInspector in
  inl {| el_Name := name; el_Address := listenerAddress port;
         el_ListenerFilters := [{| fi_Name := "envoy.filters.listener.tls_inspector";
                                   fi_TypedConfig := inspector |}];
         el_FilterChains := chains |}.

Definition httpsListener (name : string) (port : Z) (chains : list FilterChain) : result EnvoyListener :=
  sniListener name port chains.

(** [downstreamTLS]. *)
Definition tlsCertificate (secret : Secret) : TlsCertificate :=
  {| cert_CertificateChain := default "" (sec_Data secret !! TLSCertKey);
     cert_PrivateKey := default "" (sec_Data secret !! TLSPrivateKeyKey) |}.

Definition downstreamTLS (secrets : list Secret) (alpn : list string) : result Filter :=
  let? config := anypb_New (DownstreamTlsContext (tlsCertificate <$> secrets) alpn) in
  inl {| fi_Name := "envoy.transport_sockets.tls"; fi_TypedConfig := config |}.

(** [httpsFilterChain]. *)
Definition httpsFilterChain (routeName : string) (l : Listener) : result FilterChain :=
  let? manager := httpConnectionManager routeName in
  let? socket := downstreamTLS (l_Certificates l) ["h2"; "http/1.1"] in
  inl {| fc_Name := l_Name l;
         fc_ServerNames := match l_Hostname l with
                           | Some h => if str_eqb h "" then None else Some [h]
                           | None => None
                           end;
         fc_Filters := [{| fi_Name := httpConnectionManagerFilter; fi_TypedConfig := manager |}];
         fc_TransportSocket := Some socket |}.
End http.

(** ** Layer 4 listeners (l4.go) *)

(** [oldest]; [slices.MinFunc] panics on an empty slice, which the callers
    rule out. *)
Definition compareAge (a b : AttachedRoute) : comparison :=
  cmp_or (cmp_on (λ r, r_CreationTimestamp (at_Route r)) Z.compare a b)
  (cmp_or (cmp_on (λ r, r_Namespace (at_Route r)) String.compare a b)
          (cmp_on (λ r, r_Name (at_Route r)) String.compare a b)).

#[export] Instance compareAge_total : TotalCmp compareAge.
Proof. unfold compareAge. repeat apply cmp_or_total; apply _. Qed.

Definition oldest (routes : list AttachedRoute) : option AttachedRoute := min_by compareAge routes.

(** [attachedTo]: routes by their index in the model. *)
Definition attachHost (r : nat) (out : gmap nat (list string)) (host : string) : gmap nat (list string) :=
  let hosts := default [] (out !! r) in
  if bool_decide (host ∈ hosts) then out else <[r := hosts ++ [host]]> out.

Definition hostsAt (i : nat) (route : AttachedRoute) : list string :=
  parent ← at_Parents route; default [] (pa_Hostnames parent !! i).

Definition attachedTo (m : Model) (i : nat) : gmap nat (list string) :=
  foldl (λ out rr, foldl (attachHost rr.1) out (hostsAt i rr.2)) ∅ (imap pair (md_Routes m)).

(** [backendsOf]. *)
Definition backendsOf (route : AttachedRoute) : list Backend := default [] (head (at_Backends route)).

Section l4.
Context `{Anypb, MapOrder}.

(** [tcpProxyFilter]. *)
Definition tcpProxyFilter (statPrefix : string) (backends : list Backend) (clusters : Clusters)
    : result (Filter * Clusters) :=
  let '(weighted, clusters) := weighBackends backends clusters in
  let specifier := match weighted with
                   | [] => SpecCluster invalidCluster
                   | [w] => SpecCluster (cw_Name w)
                   | _ => SpecWeightedClusters weighted
                   end in
  let? config := anypb_New (TcpProxy statPrefix specifier) in
  inl ({| fi_Name := "envoy.filters.network.tcp_proxy"; fi_TypedConfig := config |}, clusters).

(** [tlsListener]'s candidates by host: a route, by index, and a listener. *)
Definition addCandidate (i : nat) (byHost : gmap string (list (nat * nat))) (rh : nat * list string)
    : gmap string (list (nat * nat)) :=
  foldl (λ byHost host, <[host := default [] (byHost !! host) ++ [(rh.1, i)]]> byHost) byHost rh.2.

Definition candidatesByHost (m : Model) (listeners : list nat) : gmap string (list (nat * nat)) :=
  foldl (λ byHost i, foldl (addCandidate i) byHost (rangeOver (attachedTo m i))) ∅ listeners.

(** The routes of the candidates attached to the owner. *)
Definition ownedRoutes (m : Model) (owner : option nat) (cs : list (nat * nat)) : list AttachedRoute :=
  omap (λ c, md_Routes m !! c.1) (filter (λ c, Some c.2 = owner) cs).

Definition tlsChain (name : string) (m : Model) (owner : option nat) (host : string)
    (route : AttachedRoute) (clusters : Clusters) : result (FilterChain * Clusters) :=
  let? (proxy, clusters) := tcpProxyFilter (name +:+ "-" +:+ host) (backendsOf route) clusters in
  let chain socket := {| fc_Name := host;
    fc_ServerNames := if str_eqb host "*" then None else Some [host];
    fc_Filters := [proxy]; fc_TransportSocket := socket |} in
  match owner ≫= λ i, md_Listeners m !! i with
  | Some l =>
    if Terminates (l_Spec l) then
      let? socket := downstreamTLS (l_Certificates l) [] in
      inl (chain (Some socket), clusters)
    else inl (chain None, clusters)
  | None => inl (chain None, clusters)
  end.

Fixpoint tlsChains (name : string) (m : Model) (listeners : list nat)
    (byHost : gmap string (list (nat * nat))) (hosts : list string) (clusters : Clusters)
    : result (list FilterChain * Clusters) :=
  match hosts with
  | [] => inl ([], clusters)
  | host :: hosts =>
    let owner := owningListener m listeners host in
    match oldest (ownedRoutes m owner (default [] (byHost !! host))) with
    | None => tlsChains name m listeners byHost hosts clusters
    | Some route =>
      let? (chain, clusters) := tlsChain name m owner host route clusters in
      let? (chains, clusters) := tlsChains name m listeners byHost hosts clusters in
      inl (chain :: chains, clusters)
    end
  end.

(** [tlsListener]; a nil listener is [None]. *)
Definition tlsListener (name : string) (port : Z) (m : Model) (listeners : list nat)
    (clusters : Clusters) : result (option EnvoyListener * Clusters) :=
  let byHost := candidatesByHost m listeners in
  let? (chains, clusters) := tlsChains name m listeners byHost (sortedKeys byHost) clusters in
  match chains with
  | [] => inl (None, clusters)
  | _ => let? listener := sniListener name port chains in inl (Some listener, clusters)
  end.

(** The routes attached to a listener, in the order the map is ranged over. *)
Definition routesAt (m : Model) (i : nat) : list AttachedRoute :=
  omap (λ r, md_Routes m !! r) (rangeOver (attachedTo m i)).*1.

(** [tcpListener]. *)
Definition tcpListener (name : string) (port : Z) (m : Model) (i : nat) (clusters : Clusters)
    : result (option EnvoyListener * Clusters) :=
  match oldest (routesAt m i) with
  | None => inl (None, clusters)
  | Some route =>
    let? (proxy, clusters) := tcpProxyFilter name (backendsOf route) clusters in
    inl (Some {| el_Name := name; el_Address := listenerAddress port; el_ListenerFilters := [];
                 el_FilterChains := [{| fc_Name := ""; fc_ServerNames := None; fc_Filters := [proxy];
                                        fc_TransportSocket := None |}] |}, clusters)
  end.

(** Where a UDP route's datagrams go. *)
Definition udpTarget (route : AttachedRoute) (clusters : Clusters) (weighted : gmap string weightedCluster)
    : string * Clusters * gmap string weightedCluster :=
  match live (backendsOf route) with
  | [] => (invalidCluster, clusters, weighted)
  | [b] => match b_Cluster b with
           | Some c => (cl_Name c, <[cl_Name c := c]> clusters, weighted)
           | None => (invalidCluster, clusters, weighted)
           end
  | backends =>
    let target := "udp/" +:+ r_Namespace (at_Route route) +:+ "/" +:+ r_Name (at_Route route) in
    (target, clusters, <[target := {| wc_name := target; wc_backends := backends |}]> weighted)
  end.

(** [udpListener]. *)
Definition udpListener (name : string) (port : Z) (m : Model) (i : nat) (clusters : Clusters)
    (weighted : gmap string weightedCluster)
    : result (option EnvoyListener * Clusters * gmap string weightedCluster) :=
  match oldest (routesAt m i) with
  | None => inl (None, clusters, weighted)
  | Some route =>
    let '(target, clusters, weighted) := udpTarget route clusters weighted in
    let? action := anypb_New (UdpRoute target) in
    let? proxy := anypb_New (UdpProxyConfig name ("route", action)) in
    let address := listenerAddress port in
    inl (Some {| el_Name := name;
           el_Address := {| sa_Protocol := SocketAddress_UDP; sa_Address := sa_Address address;
                            sa_Port := sa_Port address |};
           el_ListenerFilters := [{| fi_Name := "envoy.filters.udp_listener.udp_proxy";
                                     fi_TypedConfig := proxy |}];
           el_FilterChains := [] |}, clusters, weighted)
  end.
End l4.

(** ** The translation *)

Record portKey := { pk_port : Z; pk_transport : Protocol }.

#[export] Instance Protocol_countable : Countable Protocol.
Proof.
  refine (inj_countable' (λ p, match p with SocketAddress_TCP => false | SocketAddress_UDP => true end)
    (λ b, if b : bool then SocketAddress_UDP else SocketAddress_TCP) _).
  by intros [].
Defined.

#[export] Instance portKey_eq_dec : EqDecision portKey.
Proof. solve_decision. Defined.
#[export] Instance portKey_countable : Countable portKey.
Proof.
  refine (inj_countable' (λ k, (pk_port k, pk_transport k))
    (λ p, {| pk_port := p.1; pk_transport := p.2 |}) _).
  by intros [].
Defined.

Definition keyOf (l : Listener) : portKey :=
  if str_eqb (l_Protocol l) UDPProtocolType
  then {| pk_port := l_Port l; pk_transport := SocketAddress_UDP |}
  else {| pk_port := l_Port l; pk_transport := SocketAddress_TCP |}.

(** The number Envoy's API gives a protocol. *)
Definition protocolNumber (p : Protocol) : Z :=
  match p with SocketAddress_TCP => 0 | SocketAddress_UDP => 1 end.

Definition compareKeys (a b : portKey) : comparison :=
  cmp_or (cmp_on pk_port Z.compare a b) (cmp_on (λ k, protocolNumber (pk_transport k)) Z.compare a b).

#[export] Instance compareKeys_total : TotalCmp compareKeys.
Proof. unfold compareKeys. apply cmp_or_total; apply _. Qed.

(** The valid listeners of each port, by index. *)
Definition groupListener (byPort : gmap portKey (list nat)) (il : nat * Listener) : gmap portKey (list nat) :=
  let '(i, l) := il in
  if l_Valid l then <[keyOf l := default [] (byPort !! keyOf l) ++ [i]]> byPort else byPort.

Definition byPortOf (m : Model) : gmap portKey (list nat) :=
  foldl groupListener ∅ (imap pair (md_Listeners m)).

Definition portsOf (m : Model) : list portKey := sort_by compareKeys (map_to_list (byPortOf m)).*1.

(** The resources of a snapshot, by type. *)
Record Resources := {
  rs_Listeners : list EnvoyListener;
  rs_Routes : list RouteConfiguration;
  rs_Clusters : list EnvoyCluster;
  rs_Endpoints : list ClusterLoadAssignment;
}.

(** What the loop over the ports has assigned. *)
Record TranslateState := {
  xs_Listeners : list EnvoyListener;
  xs_Routes : list RouteConfiguration;
  xs_clusters : Clusters;
  xs_weighted : gmap string weightedCluster;
}.

Definition emit (st : TranslateState) (listener : option EnvoyListener) (routes : list RouteConfiguration)
    (clusters : Clusters) (weighted : gmap string weightedCluster) : TranslateState :=
  {| xs_Listeners := xs_Listeners st ++ option_list listener; xs_Routes := xs_Routes st ++ routes;
     xs_clusters := clusters; xs_weighted := weighted |}.

Section translate.
Context `{Anypb, MapOrder}.

(** The filter chains and route configurations of an HTTPS port. *)
Fixpoint httpsChains (name : string) (m : Model) (indexes : list nat) (clusters : Clusters)
    : result (list FilterChain * list RouteConfiguration * Clusters) :=
  match indexes with
  | [] => inl ([], [], clusters)
  | i :: indexes =>
    match md_Listeners m !! i with
    | None => httpsChains name m indexes clusters
    | Some l =>
      let routeName := name +:+ "-" +:+ l_Name l in
      let '(config, clusters) := routeConfiguration routeName m [i] clusters in
      let? chain := httpsFilterChain routeName l in
      let? (chains, configs, clusters) := httpsChains name m indexes clusters in
      inl (chain :: chains, config :: configs, clusters)
    end
  end.

(** One iteration of [translate]'s loop over the ports. *)
Definition translatePort (m : Model) (st : TranslateState) (key : portKey) : result TranslateState :=
  let indexes := default [] (byPortOf m !! key) in
  let port := pk_port key in
  let clusters := xs_clusters st in
  let weighted := xs_weighted st in
  match indexes with
  | [] => inl st
  | first :: _ =>
    let protocol := from_option l_Protocol "" (md_Listeners m !! first) in
    if str_eqb protocol HTTPProtocolType then
      let name := "http-" +:+ fmt_d port in
      let '(config, clusters) := routeConfiguration name m indexes clusters in
      let? listener := httpListener name port in
      inl (emit st (Some listener) [config] clusters weighted)
    else if str_eqb protocol HTTPSProtocolType then
      let name := "https-" +:+ fmt_d port in
      let? (chains, configs, clusters) := httpsChains name m indexes clusters in
      let? listener := httpsListener name port chains in
      inl (emit st (Some listener) configs clusters weighted)
    else if str_eqb protocol TLSProtocolType then
      let? (listener, clusters) := tlsListener ("tls-" +:+ fmt_d port) port m indexes clusters in
      inl (emit st listener [] clusters weighted)
    else if str_eqb protocol TCPProtocolType then
      let? (listener, clusters) := tcpListener ("tcp-" +:+ fmt_d port) port m first clusters in
      inl (emit st listener [] clusters weighted)
    else if str_eqb protocol UDPProtocolType then
      let? (listener, clusters, weighted) :=
        udpListener ("udp-" +:+ fmt_d port) port m first clusters weighted in
      inl (emit st listener [] clusters weighted)
    else inl st
  end.

Fixpoint translatePorts (m : Model) (st : TranslateState) (ports : list portKey) : result TranslateState :=
  match ports with
  | [] => inl st
  | key :: ports => let? st := translatePort m st key in translatePorts m st ports
  end.

(** The clusters of the names met, with their endpoints. *)
Fixpoint emitClusters (clusters : Clusters) (refs : option References) (names : list string)
    : result (list EnvoyCluster * list ClusterLoadAssignment) :=
  match names with
  | [] => inl ([], [])
  | name :: names =>
    match clusters !! name with
    | None => emitClusters clusters refs names
    | Some c =>
      let? out := cluster c in
      let? (outs, endpoints) := emitClusters clusters refs names in
      inl (out :: outs, clusterEndpoints c refs :: endpoints)
    end
  end.

Definition emitWeighted (weighted : gmap string weightedCluster) (refs : option References)
    : list (EnvoyCluster * ClusterLoadAssignment) :=
  omap (λ name, (λ w, weightedClusterResources w refs) <$> weighted !! name) (sortedKeys weighted).

(** [translate]. *)
Definition translate (m : Model) (refs : option References) : result Resources :=
  let? st := translatePorts m {| xs_Listeners := []; xs_Routes := []; xs_clusters := ∅; xs_weighted := ∅ |}
    (portsOf m) in
  let w := emitWeighted (xs_weighted st) refs in
  let? (cs, endpoints) := emitClusters (xs_clusters st) refs (sortedKeys (xs_clusters st)) in
  inl {| rs_Listeners := xs_Listeners st; rs_Routes := xs_Routes st;
         rs_Clusters := w.*1 ++ cs; rs_Endpoints := w.*2 ++ endpoints |}.
End translate.

(** ** Endpoints: what they are *)

(** The endpoints of a cluster are the addresses of the ready endpoints of
    the Service's IP slices, at the port the slice names after the Service's:
    each once, in order of address and port, whatever order the slices are in. *)
Theorem clusterEndpoints_spec c refs :
  let addresses := clusterAddresses c (Some refs) in
  (clusterEndpoints c (Some refs) = {| cla_ClusterName := cl_Name c;
     cla_Endpoints := [{| lle_SubZone := None; lle_LoadBalancingWeight := None;
       lle_LbEndpoints := (λ a, socketAddress a.1 (uint32 a.2)) <$> addresses |}] |}) ∧
  NoDup addresses ∧ StronglySorted (cmp_le compareAddresses) addresses ∧
  (∀ ip port, (ip, port) ∈ addresses ↔
     ∃ slice ep, slice ∈ default [] (Endpoints refs !! cl_Service c) ∧
       (es_AddressType slice = "IPv4" ∨ es_AddressType slice = "IPv6") ∧
       slicePort (sp_Name (cl_Port c)) (es_Ports slice) = Some port ∧
       ep ∈ es_Endpoints slice ∧ e_Ready ep ≠ Some false ∧ ip ∈ e_Addresses ep).
Proof.
  intros addresses. unfold addresses, clusterAddresses. split_and!.
  - done.
  - apply NoDup_sort_by. pose proof (NoDup_dedup_by id
      (default [] (Endpoints refs !! cl_Service c) ≫= sliceAddresses c)) as Hnd.
    by rewrite list_fmap_id in Hnd.
  - apply (sort_by_sorted compareAddresses).
  - intros ip port. rewrite elem_of_sort_by.
    assert (∀ l : list (string * Z), ∀ a, a ∈ dedup_by id l ↔ a ∈ l) as ->.
    { intros l a. split.
      - intros Ha. eapply elem_of_sublist; [exact Ha|apply dedup_by_sublist].
      - intros Ha. destruct (dedup_by_keys id l a Ha) as (d & Hd & Heq).
      unfold id in Heq. by subst d. }
    rewrite list_elem_of_bind. unfold sliceAddresses. split.
    + intros (slice & Hin & Hs). exists slice. destruct (negb _ && negb _) eqn:Et;
        [by apply not_elem_of_nil in Hin|].
      destruct (slicePort _ _) as [p|] eqn:Ep; [|by apply not_elem_of_nil in Hin].
      apply list_elem_of_bind in Hin as (ep & Hin & Hep). exists ep.
      case_bool_decide; [by apply not_elem_of_nil in Hin|].
      apply list_elem_of_fmap in Hin as (ip' & [= -> ->] & Hip). split_and!; [done| |done..].
      apply andb_false_iff in Et. rewrite !negb_false_iff, !str_eqb_eq in Et. done.
    + intros (slice & ep & Hs & Ht & Hp & Hep & Hr & Hip). exists slice. split; [|done].
      assert (negb (str_eqb (es_AddressType slice) "IPv4") && negb (str_eqb (es_AddressType slice) "IPv6")
        = false) as ->.
      { apply andb_false_iff. by rewrite !negb_false_iff, !str_eqb_eq. }
      rewrite Hp. apply list_elem_of_bind. exists ep. split; [|done].
      rewrite bool_decide_eq_false_2 by done. by apply (list_elem_of_fmap_2 (λ ip, (ip, port))).
Qed.

(** ** Clusters that are referred to *)

Definition specClusters (s : ClusterSpecifier) : list string :=
  match s with SpecCluster n => [n] | SpecWeightedClusters ws => cw_Name <$> ws end.

Definition routeClusters (r : EnvoyRoute) : list string :=
  match er_Action r with
  | Some (Route_Route a) => specClusters (ra_ClusterSpecifier a)
  | _ => []
  end.

Definition configClusters (rc : RouteConfiguration) : list string :=
  vh ← rc_VirtualHosts rc; r ← vh_Routes vh; routeClusters r.

Definition messageClusters (msg : Message) : list string :=
  match msg with
  | TcpProxy _ s => specClusters s
  | UdpProxyConfig _ (_, UdpRoute c) => [c]
  | _ => []
  end.

Definition messageRds (msg : Message) : list string :=
  match msg with HttpConnectionManager_Rds _ n _ _ => [n] | _ => [] end.

Definition listenerMessages (l : EnvoyListener) : list Message :=
  fi_TypedConfig <$> (el_ListenerFilters l ++ (el_FilterChains l ≫= fc_Filters)).

Definition listenerClusters (l : EnvoyListener) : list string := listenerMessages l ≫= messageClusters.
Definition listenerRds (l : EnvoyListener) : list string := listenerMessages l ≫= messageRds.

Lemma addClusters_lookup cs clusters n :
  is_Some (addClusters cs clusters !! n) ↔ is_Some (clusters !! n) ∨ n ∈ cl_Name <$> cs.
Proof.
  unfold addClusters. revert clusters. induction cs as [|c cs IH]; intros clusters; cbn [foldl].
  { simpl. split; [by left|]. intros [?|H]; [done|by apply not_elem_of_nil in H]. }
  rewrite IH, fmap_cons, elem_of_cons, lookup_insert_is_Some. destruct (decide (cl_Name c = n)); naive_solver.
Qed.

Definition named (clusters : Clusters) : Prop := ∀ k c, clusters !! k = Some c → cl_Name c = k.

Lemma addClusters_named cs clusters : named clusters → named (addClusters cs clusters).
Proof.
  unfold addClusters. revert clusters. induction cs as [|c cs IH]; intros clusters Hn; cbn [foldl]; [done|].
  apply IH. intros k c'. rewrite lookup_insert_Some. intros [[<- <-]|[_ ?]]; [done|by apply Hn].
Qed.

(** The clusters grew by those of some names, which include the ones used. *)
Definition grows (clusters clusters' : Clusters) (used : list string) : Prop :=
  ∃ cs, clusters' = addClusters cs clusters ∧ ∀ n, n ∈ used → n = invalidCluster ∨ n ∈ cl_Name <$> cs.

Lemma grows_refl clusters : grows clusters clusters [].
Proof. exists []. split; [done|]. intros n Hn. by apply not_elem_of_nil in Hn. Qed.

Lemma grows_trans c1 c2 c3 n1 n2 : grows c1 c2 n1 → grows c2 c3 n2 → grows c1 c3 (n1 ++ n2).
Proof.
  intros (cs1 & -> & H1) (cs2 & -> & H2). exists (cs1 ++ cs2). split; [by rewrite addClusters_app|].
  intros n. rewrite elem_of_app, fmap_app, elem_of_app. naive_solver.
Qed.

Lemma grows_sub c1 c2 n1 n2 : grows c1 c2 n1 → (∀ n, n ∈ n2 → n ∈ n1) → grows c1 c2 n2.
Proof. intros (cs & -> & H) Hs. exists cs. split; [done|]. auto. Qed.

Lemma elem_of_shares backends n :
  n ∈ cw_Name <$> (share <$> live backends) → n = invalidCluster ∨ n ∈ cl_Name <$> liveClusters backends.
Proof.
  intros (w & -> & Hw)%list_elem_of_fmap. apply list_elem_of_fmap in Hw as (b & -> & Hb). simpl.
  unfold shareName. destruct (b_Cluster b) as [c|] eqn:E; simpl; [|by left]. right.
  apply list_elem_of_fmap_2. unfold liveClusters. apply list_elem_of_omap. eauto.
Qed.

Lemma backendsAction_clusters backends a n :
  backendsAction backends = Some a → n ∈ specClusters (ra_ClusterSpecifier a) →
  n = invalidCluster ∨ n ∈ cl_Name <$> liveClusters backends.
Proof.
  unfold backendsAction. pose proof (elem_of_shares backends n) as Hs.
  destruct (share <$> live backends) as [|w [|w' ws]]; [done| |].
  - case_match; [done|]. intros [= <-]. exact Hs.
  - intros [= <-]. exact Hs.
Qed.

Lemma envoyRouteOf_clusters e n :
  n ∈ routeClusters (envoyRouteOf e) → n = invalidCluster ∨ n ∈ cl_Name <$> usedClusters e.
Proof.
  unfold usedClusters, forwards, envoyRouteOf, envoyRoute. fold (startState e) (filtered e).
  destruct (filtered e) as [st b]. cbn [fst snd]. fold (en_backends e).
  destruct b; simpl; [|intros H; by apply not_elem_of_nil in H].
  destruct (fs_redirect st); simpl; [intros H; by apply not_elem_of_nil in H|].
  rewrite routeAction_eq. destruct (backendsAction (en_backends e)) as [a|] eqn:E;
    [|intros H; by apply not_elem_of_nil in H].
  intros Hn. eapply backendsAction_clusters; [exact E|].
  unfold routeClusters in Hn. simpl in Hn. by destruct (fs_rewrite st).
Qed.

Lemma routeConfiguration_grows name m listeners clusters config clusters' :
  routeConfiguration name m listeners clusters = (config, clusters') →
  rc_Name config = name ∧ grows clusters clusters' (configClusters config).
Proof.
  rewrite routeConfiguration_eq. intros [= <- <-]. split; [done|]. eexists. split; [done|].
  intros n Hn. unfold configClusters in Hn.
  apply list_elem_of_bind in Hn as (vh & Hn & Hvh). simpl in Hvh.
  apply list_elem_of_fmap in Hvh as (h & -> & Hh).
  apply list_elem_of_bind in Hn as (r & Hn & Hr). simpl in Hr.
  apply list_elem_of_fmap in Hr as (e & -> & He).
  apply envoyRouteOf_clusters in Hn as [?|(c & -> & Hc)%list_elem_of_fmap]; [by left|]. right.
  apply list_elem_of_fmap_2. apply list_elem_of_bind. exists h. split; [|done].
  apply list_elem_of_bind. by exists e.
Qed.

Section growth.
Context `{Anypb, MapOrder}.

Lemma anypb_New_inl msg msg' : anypb_New msg = inl msg' → msg' = msg.
Proof. unfold anypb_New. destruct (marshalError msg); [done|by intros [= <-]]. Qed.

Lemma rbind_inl {A B} (x : result A) (k : A → result B) b :
  rbind x k = inl b → ∃ a, x = inl a ∧ k a = inl b.
Proof. destruct x; simpl; [by eauto|done]. Qed.

Lemma tcpProxyFilter_grows prefix backends clusters f clusters' :
  tcpProxyFilter prefix backends clusters = inl (f, clusters') →
  grows clusters clusters' (messageClusters (fi_TypedConfig f)) ∧ messageRds (fi_TypedConfig f) = [].
Proof.
  unfold tcpProxyFilter. rewrite weighBackends_eq.
  intros (msg & ->%anypb_New_inl & [= <- <-])%rbind_inl. split; [|done].
  eexists. split; [done|]. intros n Hn. simpl in Hn.
  pose proof (elem_of_shares backends n) as Hs.
  destruct (share <$> live backends) as [|w [|w' ws]]; [|by apply Hs|by apply Hs].
  left. by apply list_elem_of_singleton in Hn.
Qed.

(** The messages of a filter chain's filters. *)
Definition chainMessages (chain : FilterChain) : list Message := fi_TypedConfig <$> fc_Filters chain.

Lemma tlsChain_grows name m owner host route clusters chain clusters' :
  tlsChain name m owner host route clusters = inl (chain, clusters') →
  grows clusters clusters' (chainMessages chain ≫= messageClusters) ∧ chainMessages chain ≫= messageRds = [].
Proof.
  unfold tlsChain. intros ([f cl] & Hf & Hk)%rbind_inl.
  apply tcpProxyFilter_grows in Hf as [Hg Hr].
  assert (fc_Filters chain = [f] ∧ clusters' = cl) as [Hfc ->].
  { destruct (owner ≫= _) as [l|]; [|by injection Hk as <- <-].
    destruct (Terminates _); [|by injection Hk as <- <-].
    apply rbind_inl in Hk as (s & _ & [= <- <-]). done. }
  unfold chainMessages. rewrite Hfc. simpl. by rewrite Hr, app_nil_r.
Qed.

Lemma tlsChains_grows name m listeners byHost hosts clusters chains clusters' :
  tlsChains name m listeners byHost hosts clusters = inl (chains, clusters') →
  grows clusters clusters' ((chains ≫= chainMessages) ≫= messageClusters) ∧
  (chains ≫= chainMessages) ≫= messageRds = [].
Proof.
  revert clusters chains clusters'. induction hosts as [|host hosts IH]; intros clusters chains clusters'; cbn [tlsChains].
  { intros [= <- <-]. split; [apply grows_refl|done]. }
  destruct (oldest _) as [route|]; [|apply IH].
  intros ([chain cl1] & [Hg1 Hr1]%tlsChain_grows & Hk)%rbind_inl.
  apply rbind_inl in Hk as ([chains' cl2] & [Hg2 Hr2]%IH & [= <- <-]).
  rewrite bind_cons, !bind_app, Hr1, Hr2. split; [by eapply grows_trans|done].
Qed.

Lemma listenerMessages_sni name port chains l :
  sniListener name port chains = inl l → listenerMessages l = TlsInspector :: (chains ≫= chainMessages).
Proof.
  unfold sniListener. intros (msg & ->%anypb_New_inl & [= <-])%rbind_inl.
  unfold listenerMessages. cbn [el_ListenerFilters el_FilterChains app]. rewrite fmap_cons.
  apply (f_equal (cons TlsInspector)). clear.
  induction chains as [|c chains IH]; [done|]. by rewrite !bind_cons, fmap_app, IH.
Qed.

Lemma httpConnectionManager_inl name msg :
  httpConnectionManager name = inl msg → messageRds msg = [name] ∧ messageClusters msg = [].
Proof.
  unfold httpConnectionManager. by intros (router & _ & ->%anypb_New_inl)%rbind_inl.
Qed.

Lemma httpListener_inl name port l :
  httpListener name port = inl l → listenerRds l = [name] ∧ listenerClusters l = [].
Proof.
  unfold httpListener. intros (msg & [Hr Hc]%httpConnectionManager_inl & [= <-])%rbind_inl.
  unfold listenerRds, listenerClusters, listenerMessages. simpl. by rewrite !app_nil_r, Hr, Hc.
Qed.

Lemma httpsFilterChain_inl name l chain :
  httpsFilterChain name l = inl chain →
  chainMessages chain ≫= messageRds = [name] ∧ chainMessages chain ≫= messageClusters = [].
Proof.
  unfold httpsFilterChain. intros (msg & [Hr Hc]%httpConnectionManager_inl & Hk)%rbind_inl.
  apply rbind_inl in Hk as (s & _ & [= <-]). unfold chainMessages. simpl. by rewrite !app_nil_r, Hr, Hc.
Qed.

Lemma httpsChains_grows name m indexes clusters chains configs clusters' :
  httpsChains name m indexes clusters = inl (chains, configs, clusters') →
  grows clusters clusters' (configs ≫= configClusters) ∧
  (chains ≫= chainMessages) ≫= messageRds = rc_Name <$> configs ∧
  (chains ≫= chainMessages) ≫= messageClusters = [].
Proof.
  revert clusters chains configs clusters'.
  induction indexes as [|i indexes IH]; intros clusters chains configs clusters'; cbn [httpsChains].
  { intros [= <- <- <-]. split; [apply grows_refl|done]. }
  destruct (md_Listeners m !! i) as [l|]; [|apply IH].
  destruct (routeConfiguration _ _ _ _) as [config cl1] eqn:E.
  apply routeConfiguration_grows in E as [Hn Hg1].
  intros (chain & [Hr Hc]%httpsFilterChain_inl & Hk)%rbind_inl.
  apply rbind_inl in Hk as ([[chains' configs'] cl2] & (Hg2 & Hr2 & Hc2)%IH & [= <- <- <-]).
  rewrite !bind_cons, !bind_app, Hr, Hc, Hr2, Hc2, fmap_cons, Hn. split; [by eapply grows_trans|done].
Qed.

Lemma tlsListener_grows name port m listeners clusters l clusters' :
  tlsListener name port m listeners clusters = inl (l, clusters') →
  grows clusters clusters' (option_list l ≫= listenerClusters) ∧ option_list l ≫= listenerRds = [].
Proof.
  unfold tlsListener. intros ([chains cl] & [Hg Hr]%tlsChains_grows & Hk)%rbind_inl.
  destruct chains as [|chain chains]; [by injection Hk as <- <-|].
  apply rbind_inl in Hk as (l' & Hl%listenerMessages_sni & [= <- <-]).
  simpl. unfold listenerClusters, listenerRds. rewrite !app_nil_r, Hl. done.
Qed.

Lemma tcpListener_grows name port m i clusters l clusters' :
  tcpListener name port m i clusters = inl (l, clusters') →
  grows clusters clusters' (option_list l ≫= listenerClusters) ∧ option_list l ≫= listenerRds = [].
Proof.
  unfold tcpListener. destruct (oldest _) as [route|].
  2:{ intros [= <- <-]. split; [apply grows_refl|done]. }
  intros ([f cl] & [Hg Hr]%tcpProxyFilter_grows & [= <- <-])%rbind_inl.
  simpl. unfold listenerClusters, listenerRds, listenerMessages. simpl. by rewrite !app_nil_r, Hr.
Qed.
End growth.

(** ** The snapshot is closed *)

Definition namedWeighted (weighted : gmap string weightedCluster) : Prop :=
  ∀ k w, weighted !! k = Some w → wc_name w = k.

(** The names a snapshot's routes and listeners send traffic to. *)
Definition referenced (routes : list RouteConfiguration) (listeners : list EnvoyListener) : list string :=
  (routes ≫= configClusters) ++ (listeners ≫= listenerClusters).

(** What holds of the loop over the ports: every name used so far is met. *)
Definition closed (st : TranslateState) : Prop :=
  named (xs_clusters st) ∧ namedWeighted (xs_weighted st) ∧
  (∀ n, n ∈ referenced (xs_Routes st) (xs_Listeners st) →
    n = invalidCluster ∨ is_Some (xs_clusters st !! n) ∨ is_Some (xs_weighted st !! n)) ∧
  xs_Listeners st ≫= listenerRds = rc_Name <$> xs_Routes st.

Lemma emit_closed st listener configs clusters' weighted' :
  closed st → grows (xs_clusters st) clusters'
    ((configs ≫= configClusters) ++
     filter (λ n, weighted' !! n = None) (option_list listener ≫= listenerClusters)) →
  namedWeighted weighted' →
  (∀ n, is_Some (xs_weighted st !! n) → is_Some (weighted' !! n)) →
  option_list listener ≫= listenerRds = rc_Name <$> configs →
  closed (emit st listener configs clusters' weighted').
Proof.
  intros (Hn & Hw & Hr & Hrds) (cs & -> & Hcs) Hw' Hmono Hl. split_and!; simpl.
  - by apply addClusters_named.
  - done.
  - intros n. unfold referenced. rewrite !bind_app, !elem_of_app. intros Hin.
    assert (n = invalidCluster ∨ is_Some (xs_clusters st !! n) ∨ is_Some (xs_weighted st !! n) ∨
      is_Some (weighted' !! n) ∨ n ∈ cl_Name <$> cs) as Hcase.
    { destruct Hin as [[Hin|Hin]|[Hin|Hin]].
      - destruct (Hr n) as [?|[?|?]]; [by apply elem_of_app; left|tauto..].
      - destruct (Hcs n) as [?|?]; [by apply elem_of_app; left|tauto..].
      - destruct (Hr n) as [?|[?|?]]; [by apply elem_of_app; right|tauto..].
      - destruct (weighted' !! n) eqn:E; [right; right; right; left; by eexists|].
        destruct (Hcs n) as [?|?]; [|tauto..].
        apply elem_of_app. right. by apply list_elem_of_filter. }
    rewrite addClusters_lookup. pose proof (Hmono n). tauto.
  - by rewrite bind_app, fmap_app, Hrds, Hl.
Qed.

Lemma filter_sub (P : string → Prop) `{∀ x, Decision (P x)} (l : list string) : ∀ n, n ∈ filter P l → n ∈ l.
Proof. by intros n [_ ?]%list_elem_of_filter. Qed.

Lemma grows_listener c1 c2 l (weighted : gmap string weightedCluster) :
  grows c1 c2 l → grows c1 c2 ((([] : list RouteConfiguration) ≫= configClusters) ++ filter (λ n, weighted !! n = None) l).
Proof. intros. eapply grows_sub; [done|]. apply filter_sub. Qed.

Section closure.
Context `{Anypb, MapOrder}.

Lemma udpListener_grows name port m i clusters weighted l clusters' weighted' :
  namedWeighted weighted →
  udpListener name port m i clusters weighted = inl (l, clusters', weighted') →
  grows clusters clusters' (filter (λ n, weighted' !! n = None) (option_list l ≫= listenerClusters)) ∧
  option_list l ≫= listenerRds = [] ∧ namedWeighted weighted' ∧
  (∀ n, is_Some (weighted !! n) → is_Some (weighted' !! n)).
Proof.
  intros Hw. unfold udpListener. destruct (oldest _) as [route|].
  2:{ intros [= <- <- <-]. split_and!; [apply grows_refl|done..]. }
  destruct (udpTarget route clusters weighted) as [[target cl] wt] eqn:Et.
  intros (action & ->%anypb_New_inl & Hk)%rbind_inl.
  apply rbind_inl in Hk as (proxy & ->%anypb_New_inl & [= <- <- <-]).
  change (grows clusters cl (filter (λ n, wt !! n = None) [target]) ∧ ([] : list string) = [] ∧
    namedWeighted wt ∧ ∀ n, is_Some (weighted !! n) → is_Some (wt !! n)).
  unfold udpTarget in Et. destruct (live (backendsOf route)) as [|b [|b' bs]].
  - injection Et as <- <- <-. split_and!; [|done..].
    exists []. split; [done|]. intros n Hn%filter_sub. left. by apply list_elem_of_singleton in Hn.
  - destruct (b_Cluster b) as [c|]; injection Et as <- <- <-; (split_and!; [|done..]).
    + exists [c]. split; [done|]. intros n Hn%filter_sub. right. done.
    + exists []. split; [done|]. intros n Hn%filter_sub. left. by apply list_elem_of_singleton in Hn.
  - injection Et as <- <- <-. split_and!; [|done| |].
    + exists []. split; [done|]. intros n [Hn Hin%list_elem_of_singleton]%list_elem_of_filter.
      subst n. by rewrite lookup_insert_eq in Hn.
    + intros k w. rewrite lookup_insert_Some. intros [[<- <-]|[_ ?]]; [done|by apply Hw].
    + intros n Hn. rewrite lookup_insert_is_Some.
      destruct (decide ("udp/" +:+ r_Namespace (at_Route route) +:+ "/" +:+ r_Name (at_Route route) = n)); auto.
Qed.

Lemma translatePort_closed m st key st' :
  closed st → translatePort m st key = inl st' → closed st'.
Proof.
  intros Hst. pose proof Hst as (_ & Hw & _). unfold translatePort.
  destruct (default [] _) as [|first rest]; [by intros [= <-]|].
  destruct (str_eqb _ HTTPProtocolType).
  { destruct (routeConfiguration _ _ _ _) as [config cl] eqn:E. apply routeConfiguration_grows in E as [Hn Hg].
    intros (l & [Hr Hc]%httpListener_inl & [= <-])%rbind_inl. apply emit_closed; [done| |done|done|].
    - change (option_list (Some l)) with [l]. rewrite !bind_singleton, Hc. simpl. by rewrite app_nil_r.
    - change (option_list (Some l)) with [l]. by rewrite bind_singleton, Hr, <- Hn. }
  destruct (str_eqb _ HTTPSProtocolType).
  { intros ([[chains configs] cl] & (Hg & Hr & Hc)%httpsChains_grows & Hk)%rbind_inl.
    apply rbind_inl in Hk as (l & Hl%listenerMessages_sni & [= <-]). apply emit_closed; [done| |done|done|].
    - change (option_list (Some l)) with [l]. rewrite bind_singleton. unfold listenerClusters.
      rewrite Hl, bind_cons, Hc. simpl. by rewrite app_nil_r.
    - change (option_list (Some l)) with [l]. rewrite bind_singleton. unfold listenerRds. by rewrite Hl, bind_cons, Hr. }
  destruct (str_eqb _ TLSProtocolType).
  { intros ([l cl] & [Hg Hr]%tlsListener_grows & [= <-])%rbind_inl.
    apply emit_closed; [done|by apply grows_listener|done|done|done]. }
  destruct (str_eqb _ TCPProtocolType).
  { intros ([l cl] & [Hg Hr]%tcpListener_grows & [= <-])%rbind_inl.
    apply emit_closed; [done|by apply grows_listener|done|done|done]. }
  destruct (str_eqb _ UDPProtocolType); [|by intros [= <-]].
  intros ([[l cl] wt] & (Hg & Hr & Hw' & Hm)%(udpListener_grows _ _ _ _ _ _ _ _ _ Hw) & [= <-])%rbind_inl.
  by apply emit_closed.
Qed.

Lemma translatePorts_closed m st ports st' :
  closed st → translatePorts m st ports = inl st' → closed st'.
Proof.
  revert st. induction ports as [|key ports IH]; intros st Hst; cbn [translatePorts].
  { by intros [= <-]. }
  intros (st1 & Hst1 & Hk)%rbind_inl. eapply IH; [|exact Hk]. by eapply translatePort_closed.
Qed.

Lemma cluster_name c out : cluster c = inl out → ec_Name out = cl_Name c.
Proof.
  unfold cluster. destruct (cl_H2 c); [|by intros [= <-]]. by intros (msg & _ & [= <-])%rbind_inl.
Qed.

Lemma emitClusters_names clusters refs names cs endpoints :
  named clusters → (∀ n, n ∈ names → is_Some (clusters !! n)) →
  emitClusters clusters refs names = inl (cs, endpoints) →
  ec_Name <$> cs = names ∧ cla_ClusterName <$> endpoints = names.
Proof.
  intros Hn. revert cs endpoints. induction names as [|n names IH]; intros cs endpoints Hin; cbn [emitClusters].
  { by intros [= <- <-]. }
  destruct (Hin n) as [c Hc]; [left|]. rewrite Hc.
  intros (out & Ho%cluster_name & Hk)%rbind_inl.
  apply rbind_inl in Hk as ([outs eps] & Hr & [= <- <-]).
  apply IH in Hr as [H1 H2]; [|intros n' Hn'; apply Hin; by right].
  pose proof (Hn _ _ Hc) as Hcn. rewrite !fmap_cons, H1, H2, Ho. simpl. by rewrite Hcn.
Qed.

Lemma emitWeighted_names weighted refs :
  namedWeighted weighted →
  (ec_Name <$> (emitWeighted weighted refs).*1) = sortedKeys weighted ∧
  (cla_ClusterName <$> (emitWeighted weighted refs).*2) = sortedKeys weighted.
Proof.
  intros Hw. unfold emitWeighted.
  assert (∀ n, n ∈ sortedKeys weighted → is_Some (weighted !! n)) as Hin by (intros n; apply elem_of_sortedKeys).
  induction (sortedKeys weighted) as [|n names IH]; [done|].
  destruct (Hin n) as [w Hwn]; [left|]. rewrite omap_cons_eq, Hwn. simpl.
  destruct IH as [H1 H2]; [intros n' Hn'; apply Hin; by right|].
  pose proof (Hw _ _ Hwn) as Hnm. split; (f_equal; [done|]); [exact H1|exact H2].
Qed.
End closure.

(** C8. A translation that succeeds is closed: every cluster its routes and
    listeners send traffic to is one it defines, or the one that stands for a
    backend that does not resolve; every cluster it defines has its endpoints,
    in the same order; and its HTTP listeners ask for exactly the route
    configurations it has, in the same order. *)
Theorem translate_closed `{Anypb, MapOrder} m refs resources :
  translate m refs = inl resources →
  (∀ n, n ∈ referenced (rs_Routes resources) (rs_Listeners resources) →
     n = invalidCluster ∨ n ∈ ec_Name <$> rs_Clusters resources) ∧
  cla_ClusterName <$> rs_Endpoints resources = ec_Name <$> rs_Clusters resources ∧
  rs_Listeners resources ≫= listenerRds = rc_Name <$> rs_Routes resources.
Proof.
  unfold translate. intros (st & Hst & Hk)%rbind_inl.
  apply translatePorts_closed in Hst as (Hn & Hw & Hr & Hrds).
  2:{ split_and!; [intros k c; simpl; by rewrite lookup_empty|intros k c; simpl; by rewrite lookup_empty| |done].
      intros n Hn. by apply not_elem_of_nil in Hn. }
  apply rbind_inl in Hk as ([cs eps] & He & [= <-]). cbn [rs_Routes rs_Listeners rs_Clusters rs_Endpoints].
  apply emitClusters_names in He as [H1 H2]; [|done|intros n; apply elem_of_sortedKeys].
  destruct (emitWeighted_names (xs_weighted st) refs Hw) as [H3 H4].
  rewrite !fmap_app, H1, H2, H3, H4. split_and!; [|done|done].
  intros n [?|[?|?]]%Hr; [by left|right; apply elem_of_app..].
  - right. by apply elem_of_sortedKeys.
  - left. by apply elem_of_sortedKeys.
Qed.

(** ** What Envoy binds *)

(** The address of a port's listener. *)
Definition addressOf (key : portKey) : SocketAddress :=
  {| sa_Protocol := pk_transport key; sa_Address := "0.0.0.0";
     sa_Port := uint32 (ContainerPort (pk_port key)) |}.

Lemma groupFold_elem ils byPort key i :
  i ∈ default [] (foldl groupListener byPort ils !! key) ↔
  i ∈ default [] (byPort !! key) ∨ ∃ l, (i, l) ∈ ils ∧ l_Valid l = true ∧ keyOf l = key.
Proof.
  revert byPort. induction ils as [|[j l] ils IH]; intros byPort; cbn [foldl].
  { setoid_rewrite elem_of_nil. naive_solver. }
  rewrite IH. setoid_rewrite elem_of_cons.
  assert (i ∈ default [] (groupListener byPort (j, l) !! key) ↔
    i ∈ default [] (byPort !! key) ∨ (i = j ∧ l_Valid l = true ∧ keyOf l = key)) as ->; [|naive_solver].
  unfold groupListener. destruct (l_Valid l); [|naive_solver].
  destruct (decide (keyOf l = key)) as [<-|Hne].
  - rewrite lookup_insert_eq. simpl. rewrite elem_of_app, list_elem_of_singleton. naive_solver.
  - rewrite lookup_insert_ne by done. naive_solver.
Qed.

Lemma groupFold_nonempty ils byPort :
  (∀ key, byPort !! key ≠ Some []) → ∀ key, foldl groupListener byPort ils !! key ≠ Some [].
Proof.
  revert byPort. induction ils as [|[j l] ils IH]; intros byPort Hne; cbn [foldl]; [done|].
  apply IH. intros key. unfold groupListener. destruct (l_Valid l); [|done].
  rewrite lookup_insert_Some. intros [[_ Hk]|[_ Hk]]; [|by apply Hne in Hk].
  by destruct (default [] (byPort !! keyOf l)).
Qed.

(** The valid listeners of a port, by index. *)
Lemma elem_of_byPort m key i :
  i ∈ default [] (byPortOf m !! key) ↔
  ∃ l, md_Listeners m !! i = Some l ∧ l_Valid l = true ∧ keyOf l = key.
Proof.
  unfold byPortOf. rewrite groupFold_elem, lookup_empty. simpl. rewrite elem_of_nil.
  assert (∀ l, (i, l) ∈ imap pair (md_Listeners m) ↔ md_Listeners m !! i = Some l) as Hp; [|naive_solver].
  intros l. rewrite elem_of_lookup_imap. naive_solver.
Qed.

Lemma byPortOf_spec m key ids :
  byPortOf m !! key = Some ids →
  ids ≠ [] ∧ ∀ i, i ∈ ids → ∃ l, md_Listeners m !! i = Some l ∧ l_Valid l = true ∧ keyOf l = key.
Proof.
  intros Hk. split.
  - intros ->. by apply (groupFold_nonempty (imap pair (md_Listeners m)) ∅) in Hk.
  - intros i Hi. apply elem_of_byPort. by rewrite Hk.
Qed.

Section addresses.
Context `{Anypb, MapOrder}.

Lemma httpListener_address name port l : httpListener name port = inl l → el_Address l = listenerAddress port.
Proof. unfold httpListener. by intros (msg & _ & [= <-])%rbind_inl. Qed.

Lemma sniListener_address name port chains l :
  sniListener name port chains = inl l → el_Address l = listenerAddress port.
Proof. unfold sniListener. by intros (msg & _ & [= <-])%rbind_inl. Qed.

Lemma tlsListener_address name port m ids cl l cl' :
  tlsListener name port m ids cl = inl (Some l, cl') → el_Address l = listenerAddress port.
Proof.
  unfold tlsListener. intros ([chains cl1] & _ & Hk)%rbind_inl.
  destruct chains; [done|]. by apply rbind_inl in Hk as (l' & Hl%sniListener_address & [= <- _]).
Qed.

Lemma tcpListener_address name port m i cl l cl' :
  tcpListener name port m i cl = inl (Some l, cl') → el_Address l = listenerAddress port.
Proof.
  unfold tcpListener. destruct (oldest _); [|done]. by intros ([f cl1] & _ & [= <- _])%rbind_inl.
Qed.

Lemma udpListener_address name port m i cl wt l cl' wt' :
  udpListener name port m i cl wt = inl (Some l, cl', wt') →
  el_Address l = {| sa_Protocol := SocketAddress_UDP; sa_Address := "0.0.0.0";
                    sa_Port := uint32 (ContainerPort port) |}.
Proof.
  unfold udpListener. destruct (oldest _); [|done]. destruct (udpTarget _ _ _) as [[t cl1] wt1].
  intros (action & _ & Hk)%rbind_inl. by apply rbind_inl in Hk as (p & _ & [= <- _ _]).
Qed.

(** A port gets at most one listener, at its own address. *)
Lemma translatePort_address m st key st' :
  translatePort m st key = inl st' →
  ∃ ol, xs_Listeners st' = xs_Listeners st ++ option_list ol ∧
    ∀ l, ol = Some l → el_Address l = addressOf key ∧ is_Some (byPortOf m !! key).
Proof.
  unfold translatePort. destruct (byPortOf m !! key) as [ids|] eqn:Ek; simpl.
  2:{ intros [= <-]. exists None. by rewrite app_nil_r. }
  destruct (byPortOf_spec m key ids Ek) as [Hne Hids].
  destruct ids as [|first rest]; [done|].
  destruct (Hids first) as (l0 & Hl0 & _ & Hkey); [left|]. rewrite Hl0. simpl.
  assert (str_eqb (l_Protocol l0) UDPProtocolType = false → addressOf key = listenerAddress (pk_port key)) as Htcp.
  { intros Hf. subst key. unfold addressOf, keyOf. by rewrite Hf. }
  assert (∀ P, str_eqb (l_Protocol l0) P = true → P ≠ UDPProtocolType →
    addressOf key = listenerAddress (pk_port key)) as Hother.
  { intros P HP Hn. apply Htcp. str_simpl. apply str_eqb_neq. congruence. }
  destruct (str_eqb (l_Protocol l0) HTTPProtocolType) eqn:E1.
  { destruct (routeConfiguration _ _ _ _). intros (l & Hl%httpListener_address & [= <-])%rbind_inl.
    exists (Some l). split; [done|]. intros ? [= <-]. split; [|by eexists].
    by rewrite Hl, (Hother _ E1). }
  destruct (str_eqb (l_Protocol l0) HTTPSProtocolType) eqn:E2.
  { intros ([[chains configs] cl] & _ & Hk)%rbind_inl.
    apply rbind_inl in Hk as (l & Hl%sniListener_address & [= <-]).
    exists (Some l). split; [done|]. intros ? [= <-]. split; [|by eexists].
    by rewrite Hl, (Hother _ E2). }
  destruct (str_eqb (l_Protocol l0) TLSProtocolType) eqn:E3.
  { intros ([ol cl] & Hl & [= <-])%rbind_inl. exists ol. split; [done|]. intros l ->.
    apply tlsListener_address in Hl. split; [|by eexists]. by rewrite Hl, (Hother _ E3). }
  destruct (str_eqb (l_Protocol l0) TCPProtocolType) eqn:E4.
  { intros ([ol cl] & Hl & [= <-])%rbind_inl. exists ol. split; [done|]. intros l ->.
    apply tcpListener_address in Hl. split; [|by eexists]. by rewrite Hl, (Hother _ E4). }
  destruct (str_eqb (l_Protocol l0) UDPProtocolType) eqn:E5.
  { intros ([[ol cl] wt] & Hl & [= <-])%rbind_inl. exists ol. split; [done|]. intros l ->.
    apply udpListener_address in Hl. split; [|by eexists]. rewrite Hl. subst key.
    unfold addressOf, keyOf. by rewrite E5. }
  intros [= <-]. exists None. by rewrite app_nil_r.
Qed.

Lemma translatePorts_addresses m st ports st' :
  translatePorts m st ports = inl st' →
  ∃ keys, sublist keys ports ∧ (∀ k, k ∈ keys → is_Some (byPortOf m !! k)) ∧
    el_Address <$> xs_Listeners st' = (el_Address <$> xs_Listeners st) ++ (addressOf <$> keys).
Proof.
  revert st. induction ports as [|key ports IH]; intros st; cbn [translatePorts].
  { intros [= <-]. exists []. rewrite app_nil_r. split_and!; [constructor| |done].
    intros k Hk. by apply not_elem_of_nil in Hk. }
  intros (st1 & (ol & Hl & Ha)%translatePort_address & Hk)%rbind_inl.
  apply IH in Hk as (keys & Hs & Hin & ->). rewrite Hl, fmap_app. destruct ol as [l|].
  - destruct (Ha l eq_refl) as [Hla Hkey]. exists (key :: keys). split_and!; [by constructor| |].
    + intros k [->|Hk]%elem_of_cons; [done|by apply Hin].
    + simpl. by rewrite <- app_assoc, Hla.
  - exists keys. split_and!; [by constructor|done|]. simpl. by rewrite app_nil_r.
Qed.
(** What a port adds stays. *)
Lemma translatePort_extends m st key st' :
  translatePort m st key = inl st' →
  (∃ ls, xs_Listeners st' = xs_Listeners st ++ ls) ∧ ∃ rs, xs_Routes st' = xs_Routes st ++ rs.
Proof.
  intros Ht. pose proof (translatePort_address _ _ _ _ Ht) as (ol & Hl & _). split; [by eexists|].
  revert Ht. unfold translatePort. assert (∃ rs, xs_Routes st = xs_Routes st ++ rs) as Hnil by (exists []; by rewrite app_nil_r).
  destruct (default [] _); [by intros [= <-]|].
  repeat (case_match; [repeat case_match; intros Hk; repeat (apply rbind_inl in Hk as ([[]|] & ? & Hk) || apply rbind_inl in Hk as ([] & ? & Hk) || apply rbind_inl in Hk as (? & ? & Hk));
    repeat case_match; try apply rbind_inl in Hk as (? & ? & Hk); injection Hk as <-; by eexists|]).
  by intros [= <-].
Qed.

Lemma translatePorts_extends m st ports st' :
  translatePorts m st ports = inl st' →
  (∃ ls, xs_Listeners st' = xs_Listeners st ++ ls) ∧ ∃ rs, xs_Routes st' = xs_Routes st ++ rs.
Proof.
  revert st. induction ports as [|key ports IH]; intros st; cbn [translatePorts].
  { intros [= <-]. split; exists []; by rewrite app_nil_r. }
  intros (st1 & [[ls1 Hl1] [rs1 Hr1]]%translatePort_extends & [[ls2 ->] [rs2 ->]]%IH)%rbind_inl.
  rewrite Hl1, Hr1, <- !app_assoc. split; by eexists.
Qed.

(** Each port is translated, and what it gives is served. *)
Lemma translate_at m refs resources key :
  translate m refs = inl resources → is_Some (byPortOf m !! key) →
  ∃ st st', translatePort m st key = inl st' ∧
    (∀ l, l ∈ xs_Listeners st' → l ∈ rs_Listeners resources) ∧
    (∀ rc, rc ∈ xs_Routes st' → rc ∈ rs_Routes resources).
Proof.
  unfold translate. intros (st & Hst & Hk)%rbind_inl Hkey. apply rbind_inl in Hk as ([cs eps] & _ & [= <-]). simpl.
  assert (key ∈ portsOf m) as Hin.
  { unfold portsOf. rewrite elem_of_sort_by. destruct Hkey as [ids Hids]. apply list_elem_of_fmap.
    exists (key, ids). split; [done|]. by apply elem_of_map_to_list. }
  revert Hst. generalize {| xs_Listeners := []; xs_Routes := []; xs_clusters := ∅; xs_weighted := ∅ |}.
  induction (portsOf m) as [|k ports IH]; [by apply not_elem_of_nil in Hin|]. intros st0. cbn [translatePorts].
  intros (st1 & H1 & H2)%rbind_inl. apply elem_of_cons in Hin as [->|Hin]; [|by eapply IH].
  exists st0, st1. split; [done|]. apply translatePorts_extends in H2 as [[ls ->] [rs ->]].
  split; intros ? ?; apply elem_of_app; by left.
Qed.

(** An HTTP port has a listener that takes its routes from a configuration of
    the port's listeners. *)
Lemma translatePort_http m st key st' first rest l :
  translatePort m st key = inl st' → byPortOf m !! key = Some (first :: rest) →
  md_Listeners m !! first = Some l → l_Protocol l = HTTPProtocolType →
  ∃ clusters listener, let name := "http-" +:+ fmt_d (pk_port key) in
    (routeConfiguration name m (first :: rest) clusters).1 ∈ xs_Routes st' ∧ listener ∈ xs_Listeners st' ∧
    el_Address listener = addressOf key ∧ listenerRds listener = [name].
Proof.
  intros Ht Hk Hl Hp. pose proof (translatePort_address _ _ _ _ Ht) as (ol & Hol & Ha).
  revert Ht. unfold translatePort. rewrite Hk. simpl. rewrite Hl. simpl. rewrite Hp. simpl.
  destruct (routeConfiguration _ _ _ _) as [config cl] eqn:E. intros (listener & Hli & [= <-])%rbind_inl.
  exists (xs_clusters st), listener. rewrite E. simpl in *. split_and!.
  - apply elem_of_app. right. by left.
  - apply elem_of_app. right. by left.
  - apply app_inv_head in Hol. destruct ol as [l'|]; [|done]. injection Hol as <-. by apply Ha.
  - by apply httpListener_inl in Hli as [? _].
Qed.
End addresses.

Lemma uint32_id z : (0 ≤ z < 2 ^ 32)%Z → uint32 z = z.
Proof. intros. unfold uint32. by apply Z.mod_small. Qed.

Lemma valid_port_bound `{X509} gw refs i l :
  (∀ ls, ls ∈ gw_Listeners gw → (1 ≤ ls_Port ls ≤ 65535)%Z) →
  Listeners gw refs !! i = Some l → uint32 (ContainerPort (l_Port l)) = ContainerPort (l_Port l).
Proof.
  intros Hports [Hl _]%listener_valid. apply list_elem_of_lookup_2 in Hl. apply Hports in Hl.
  apply uint32_id. unfold l_Port, ContainerPort, privilegedPortOffset. case_match; lia.
Qed.

(** What a Gateway's Envoy binds. *)
Lemma translate_binds `{X509, LabelSelectors, Anypb, MapOrder} gw routes refs resources :
  (∀ ls, ls ∈ gw_Listeners gw → (1 ≤ ls_Port ls ≤ 65535)%Z) →
  translate (Build gw routes refs) refs = inl resources →
  NoDup (el_Address <$> rs_Listeners resources) ∧
  ∀ l, l ∈ rs_Listeners resources →
    sa_Port (el_Address l) ≠ EnvoyAdminPort ∧ sa_Port (el_Address l) ≠ EnvoyReadinessPort.
Proof.
  intros Hports. set (m := Build gw routes refs). unfold translate.
  intros (st & Hst & Hk)%rbind_inl. apply rbind_inl in Hk as ([cs eps] & _ & [= <-]). simpl.
  apply translatePorts_addresses in Hst as (keys & Hsub & Hin & Heq). simpl in Heq.
  assert (md_Listeners m = Listeners gw (Some (default noReferences refs))) as Hm
    by (unfold m; by rewrite Build_eq).
  assert (∀ k, k ∈ keys → ∃ i l, md_Listeners m !! i = Some l ∧ l_Valid l = true ∧ keyOf l = k) as Hkeys.
  { intros k [ids Hids]%Hin. destruct (byPortOf_spec m k ids Hids) as [Hne Hall].
    destruct ids as [|i ids]; [done|]. exists i. apply Hall. left. }
  assert (∀ l, pk_port (keyOf l) = l_Port l) as Hpk by (intros l; unfold keyOf; by case_match).
  split.
  - rewrite Heq. apply NoDup_fmap_2_strong.
    + intros k1 k2 Hk1 Hk2 Ha. injection Ha as Ht Hp.
      destruct (Hkeys k1 Hk1) as (i1 & l1 & Hl1 & Hv1 & <-), (Hkeys k2 Hk2) as (i2 & l2 & Hl2 & Hv2 & <-).
      rewrite Hm in Hl1, Hl2. rewrite !Hpk in Hp.
      rewrite (valid_port_bound _ _ _ _ Hports Hl1), (valid_port_bound _ _ _ _ Hports Hl2) in Hp.
      destruct (ports_bindable _ _ _ _ _ _ Hl1 Hl2 Hv1 Hv2) as (_ & _ & Heqp).
      pose proof (Hpk l1). pose proof (Hpk l2).
      destruct (keyOf l1), (keyOf l2); simpl in *. f_equal; [|done]. rewrite <- H3, <- H4 in *. auto with congruence.
    + eapply sublist_NoDup; [|exact Hsub]. apply NoDup_sort_by, NoDup_fst_map_to_list.
  - intros l Hl. assert (el_Address l ∈ addressOf <$> keys) as Ha
      by (rewrite <- Heq; by apply list_elem_of_fmap_2).
    apply list_elem_of_fmap in Ha as (k & -> & Hk).
    destruct (Hkeys k Hk) as (i & l' & Hl' & Hv & <-). rewrite Hm in Hl'. simpl. rewrite Hpk.
    rewrite (valid_port_bound _ _ _ _ Hports Hl').
    by destruct (ports_bindable _ _ _ _ _ _ Hl' Hl' Hv Hv) as (? & ? & _).
Qed.

(** No two listeners of a Gateway's Envoy bind one port of one transport,
    and none binds a port Envoy keeps for its admin interface or its readiness
    check, whatever ports the Gateway's listeners ask for. Ports are between 1
    and 65535, as the Gateway API schema has them. *)
Theorem translate_addresses `{X509, LabelSelectors, Anypb, MapOrder} gw routes refs resources :
  (∀ ls, ls ∈ gw_Listeners gw → (1 ≤ ls_Port ls ≤ 65535)%Z) →
  translate (Build gw routes refs) refs = inl resources →
  NoDup (el_Address <$> rs_Listeners resources) ∧
  ∀ l, l ∈ rs_Listeners resources →
    sa_Port (el_Address l) ≠ EnvoyAdminPort ∧ sa_Port (el_Address l) ≠ EnvoyReadinessPort.
Proof. apply translate_binds. Qed.

(** ** The order maps are ranged over does not matter *)

(** The candidates for a host among the routes attached to listener [i]. *)
Definition candidatesAt (h : string) (i : nat) (rhs : list (nat * list string)) : list (nat * nat) :=
  rh ← rhs; (λ _, (rh.1, i)) <$> filter (λ x, x = h) rh.2.

Definition entryOf {A} (l : list A) : option (list A) := match l with [] => None | _ => Some l end.

Lemma entryOf_default {A} (l : list A) : default [] (entryOf l) = l.
Proof. by destruct l. Qed.

Lemma entryOf_Some {A} (l : list A) : is_Some (entryOf l) ↔ l ≠ [].
Proof. destruct l; simpl; split; (done || by intros []). Qed.

Lemma addCandidate_lookup i byHost rh h l :
  byHost !! h = entryOf l →
  addCandidate i byHost rh !! h = entryOf (l ++ candidatesAt h i [rh]).
Proof.
  destruct rh as [r hs]. unfold addCandidate, candidatesAt. rewrite bind_singleton. simpl.
  revert byHost l. induction hs as [|h' hs IH]; intros byHost l Hl; cbn [foldl].
  { by rewrite filter_nil, app_nil_r. }
  rewrite filter_cons. case_decide as Hh.
  - subst h'. rewrite (IH _ (l ++ [(r, i)])); [by rewrite <- app_assoc|].
    rewrite lookup_insert_eq, Hl, entryOf_default. by destruct l.
  - apply IH. by rewrite lookup_insert_ne.
Qed.

Lemma addCandidates_lookup i rhs byHost h l :
  byHost !! h = entryOf l →
  foldl (addCandidate i) byHost rhs !! h = entryOf (l ++ candidatesAt h i rhs).
Proof.
  revert byHost l. induction rhs as [|rh rhs IH]; intros byHost l Hl; cbn [foldl].
  { by rewrite app_nil_r. }
  rewrite (IH _ (l ++ candidatesAt h i [rh])) by by apply addCandidate_lookup.
  unfold candidatesAt. by rewrite bind_singleton, bind_cons, app_assoc.
Qed.

Lemma candidatesByHost_lookup `{MapOrder} m listeners h :
  candidatesByHost m listeners !! h =
  entryOf (listeners ≫= λ i, candidatesAt h i (rangeOver (attachedTo m i))).
Proof.
  unfold candidatesByHost.
  assert (∀ byHost l, byHost !! h = entryOf l →
    foldl (λ byHost i, foldl (addCandidate i) byHost (rangeOver (attachedTo m i))) byHost listeners !! h =
    entryOf (l ++ (listeners ≫= λ i, candidatesAt h i (rangeOver (attachedTo m i))))) as Hfold.
  { induction listeners as [|i listeners IH]; intros byHost l Hl; cbn [foldl].
    { by rewrite app_nil_r. }
    rewrite (IH _ (l ++ candidatesAt h i (rangeOver (attachedTo m i)))) by by apply addCandidates_lookup.
    by rewrite bind_cons, app_assoc. }
  by apply (Hfold ∅ []).
Qed.

Lemma attachHosts_lookup r out hs r' :
  is_Some (foldl (attachHost r) out hs !! r') → is_Some (out !! r') ∨ (r' = r ∧ hs ≠ []).
Proof.
  revert out. induction hs as [|h hs IH]; intros out; cbn [foldl]; [by left|].
  intros [Hs|[-> _]]%IH; [|by right]. unfold attachHost in Hs. case_bool_decide; [by left|].
  rewrite lookup_insert_is_Some in Hs. destruct Hs as [<-|[_ ?]]; [by right|by left].
Qed.

(** A route in the map of those attached to a listener serves some host
    there. *)
Lemma attachedTo_lookup m i r :
  is_Some (attachedTo m i !! r) → ∃ route, md_Routes m !! r = Some route ∧ hostsAt i route ≠ [].
Proof.
  unfold attachedTo.
  assert (∀ rrs out, is_Some (foldl (λ out rr, foldl (attachHost rr.1) out (hostsAt i rr.2)) out rrs !! r) →
    is_Some (out !! r) ∨ ∃ rr, rr ∈ rrs ∧ r = rr.1 ∧ hostsAt i rr.2 ≠ []) as Hfold.
  { induction rrs as [|rr rrs IH]; intros out; cbn [foldl]; [by left|].
    intros [[?|[-> ?]]%attachHosts_lookup|(rr' & ? & ?)]%IH; [by left| |]; right.
    - exists rr. split; [left|done].
    - exists rr'. split; [by right|done]. }
  intros [Hs|(rr & Hrr & -> & Hne)]%Hfold; [rewrite lookup_empty in Hs; by destruct Hs|].
  apply elem_of_lookup_imap in Hrr as (k & route & -> & Hr). by exists route.
Qed.

Definition attachedAtListener (m : Model) (i : nat) (route : AttachedRoute) : Prop :=
  route ∈ md_Routes m ∧ hostsAt i route ≠ [].

(** A translation in two orders of ranging over maps. *)
Section two_orders.
Context `{Anypb} (o1 o2 : MapOrder) (m : Model).

(** Routes attached to one listener are of one kind, and no two of a kind share
    a namespace and name. *)
Hypothesis distinct : ∀ i a b, attachedAtListener m i a → attachedAtListener m i b →
  compareAge a b = Eq → a = b.

Lemma oldest_perm i rs1 rs2 :
  rs1 ≡ₚ rs2 → (∀ r, r ∈ rs1 → attachedAtListener m i r) → oldest rs1 = oldest rs2.
Proof.
  intros Hp Hin. unfold oldest. apply (min_by_perm compareAge); [done|].
  intros x y Hx Hy. apply (distinct i); auto.
Qed.

Lemma attached_index i r route :
  is_Some (attachedTo m i !! r) → md_Routes m !! r = Some route → attachedAtListener m i route.
Proof.
  intros (route' & Hr & Hne)%attachedTo_lookup Hroute. simplify_eq.
  split; [by eapply list_elem_of_lookup_2|done].
Qed.

Lemma rangeOver_keys (o : MapOrder) mm r : r ∈ (@rangeOver o mm).*1 → is_Some (mm !! r).
Proof.
  rewrite rangeOver_perm. intros ([r' hs] & -> & Hin%elem_of_map_to_list)%list_elem_of_fmap. by exists hs.
Qed.

Lemma routesAt_attached (o : MapOrder) i route : route ∈ @routesAt o m i → attachedAtListener m i route.
Proof.
  intros (r & Hr%rangeOver_keys & Hroute)%list_elem_of_omap. by eapply attached_index.
Qed.

Lemma ownedRoutes_attached (o : MapOrder) listeners owner h route :
  route ∈ ownedRoutes m owner (default [] (@candidatesByHost o m listeners !! h)) →
  ∃ i, owner = Some i ∧ attachedAtListener m i route.
Proof.
  unfold ownedRoutes. rewrite candidatesByHost_lookup, entryOf_default.
  intros ([r i] & [Ho Hc]%list_elem_of_filter & Hroute)%list_elem_of_omap. exists i. split; [done|].
  apply list_elem_of_bind in Hc as (i' & Hc & _). unfold candidatesAt in Hc.
  apply list_elem_of_bind in Hc as (rh & Hc & Hrh).
  apply list_elem_of_fmap in Hc as (h' & [= -> ->] & _).
  simpl in Hroute. eapply attached_index; [|exact Hroute]. apply (rangeOver_keys o). by apply (list_elem_of_fmap_2 fst).
Qed.

Lemma rangeOver_two mm : @rangeOver o1 mm ≡ₚ @rangeOver o2 mm.
Proof. by rewrite !rangeOver_perm. Qed.

Lemma oldest_routesAt i : oldest (@routesAt o1 m i) = oldest (@routesAt o2 m i).
Proof.
  apply (oldest_perm i); [|intros r; apply routesAt_attached].
  unfold routesAt. by rewrite (rangeOver_two (attachedTo m i)).
Qed.

Lemma candidates_perm listeners h :
  default [] (@candidatesByHost o1 m listeners !! h) ≡ₚ default [] (@candidatesByHost o2 m listeners !! h).
Proof.
  rewrite !candidatesByHost_lookup, !entryOf_default. induction listeners as [|i ids IH]; [done|].
  rewrite !bind_cons, IH. apply Permutation_app_tail. unfold candidatesAt.
  by rewrite (rangeOver_two (attachedTo m i)).
Qed.

Lemma candidates_keys listeners :
  sortedKeys (@candidatesByHost o1 m listeners) = sortedKeys (@candidatesByHost o2 m listeners).
Proof.
  unfold sortedKeys. apply (sort_by_unique String.compare).
  - apply NoDup_Permutation; [apply NoDup_fst_map_to_list..|]. intros h.
    rewrite !elem_of_keys. pose proof (candidates_perm listeners h) as Hp.
    rewrite !candidatesByHost_lookup in *. rewrite !entryOf_default in Hp.
    rewrite !entryOf_Some. split; intros Hne Hnil; apply Hne; rewrite Hnil in Hp.
    + by apply Permutation_nil_r in Hp.
    + by apply Permutation_nil_l in Hp.
  - intros x y _ _. apply string_compare_eq.
Qed.

Lemma ownedRoutes_perm owner cs1 cs2 : cs1 ≡ₚ cs2 → ownedRoutes m owner cs1 ≡ₚ ownedRoutes m owner cs2.
Proof. intros Hp. unfold ownedRoutes. by rewrite Hp. Qed.

Lemma tlsListener_order name port listeners clusters :
  @tlsListener _ o1 name port m listeners clusters = @tlsListener _ o2 name port m listeners clusters.
Proof.
  unfold tlsListener. rewrite candidates_keys. f_equal.
  generalize (sortedKeys (@candidatesByHost o2 m listeners)) as hosts. intros hosts. revert clusters.
  induction hosts as [|host hosts IH]; intros clusters; cbn [tlsChains]; [done|].
  set (owner := owningListener m listeners host).
  assert (oldest (ownedRoutes m owner (default [] (@candidatesByHost o1 m listeners !! host)))
    = oldest (ownedRoutes m owner (default [] (@candidatesByHost o2 m listeners !! host)))) as ->.
  { apply (oldest_perm (default 0 owner)); [apply ownedRoutes_perm, candidates_perm|].
    intros r (i & -> & Hr)%ownedRoutes_attached. exact Hr. }
  destruct (oldest _); [|done]. destruct (tlsChain _ _ _ _ _ _) as [[chain cl]|e]; simpl; [|done].
  by rewrite IH.
Qed.

Lemma translatePort_order st key :
  @translatePort _ o1 m st key = @translatePort _ o2 m st key.
Proof.
  unfold translatePort. destruct (default [] _) as [|first rest]; [done|].
  repeat case_match; try done.
  - by rewrite tlsListener_order.
  - unfold tcpListener. by rewrite oldest_routesAt.
  - unfold udpListener. by rewrite oldest_routesAt.
Qed.

(** The translation does not depend on the order Go ranges over its maps
    in: with any two orders it gives the same resources or the same error, so
    an unchanged Gateway always gets the snapshot it has. No two routes attached
    to one listener share creation time, namespace and name. *)
Theorem translate_deterministic refs : @translate _ o1 m refs = @translate _ o2 m refs.
Proof.
  unfold translate. f_equal. generalize (portsOf m) as ports. intros ports.
  generalize {| xs_Listeners := []; xs_Routes := []; xs_clusters := ∅; xs_weighted := ∅ |} as st.
  induction ports as [|key ports IH]; intros st; cbn [translatePorts]; [done|].
  rewrite translatePort_order. destruct (translatePort m st key); simpl; [apply IH|done].
Qed.
End two_orders.

(** ** Witnesses *)

Definition sampleAnypb : Anypb := {| marshalError := λ _, None |}.

Definition sampleOrder : MapOrder := {| rangeOver := map_to_list; rangeOver_perm := λ m, reflexivity _ |}.

Program Definition reversedOrder : MapOrder := {| rangeOver := λ m, reverse (map_to_list m) |}.
Next Obligation. intros m. apply reverse_Permutation. Qed.

Definition sampleTCPRoute (name : string) : Route :=
  {| r_Kind := TCPRouteKind; r_ObjectMeta := sampleMeta "infra" name; r_ParentRefs := [sampleParent "gw"];
     r_Hostnames := []; r_Rules := [backendsRule [sampleBackendRef "web" 81]] |}.

Definition xdsGateway : Gateway :=
  sampleGateway "infra" "gw" [sampleListener "http" "HTTP" 80 None; sampleListener "db" "TCP" 5432 None].

Definition xdsModel : Model :=
  @Build sampleX509 sampleSelectors xdsGateway
    (modelRoutes ++ [sampleTCPRoute "db-b"; sampleTCPRoute "db-a"]) (Some modelRefs).

Definition xdsResources : Resources :=
  match @translate sampleAnypb sampleOrder xdsModel (Some modelRefs) with
  | inl r => r
  | inr _ => {| rs_Listeners := []; rs_Routes := []; rs_Clusters := []; rs_Endpoints := [] |}
  end.

Lemma translate_closed_witness :
  @translate sampleAnypb sampleOrder xdsModel (Some modelRefs) = inl xdsResources ∧
  ec_Name <$> rs_Clusters xdsResources = ["infra/web/80"; "infra/web/81"] ∧
  cla_ClusterName <$> rs_Endpoints xdsResources = ec_Name <$> rs_Clusters xdsResources.
Proof.
  assert (@translate sampleAnypb sampleOrder xdsModel (Some modelRefs) = inl xdsResources) as Ht
    by (vm_compute; reflexivity).
  split; [exact Ht|]. split; [vm_compute; reflexivity|].
  exact (proj1 (proj2 (@translate_closed sampleAnypb sampleOrder xdsModel (Some modelRefs) xdsResources Ht))).
Defined.

Lemma translate_addresses_witness :
  (∀ ls, ls ∈ gw_Listeners xdsGateway → (1 ≤ ls_Port ls ≤ 65535)%Z) ∧
  sa_Port <$> (el_Address <$> rs_Listeners xdsResources) = [10080; 5432]%Z ∧
  NoDup (el_Address <$> rs_Listeners xdsResources).
Proof.
  assert (∀ ls, ls ∈ gw_Listeners xdsGateway → (1 ≤ ls_Port ls ≤ 65535)%Z) as Hp.
  { apply Forall_forall. repeat constructor; discriminate. }
  split; [exact Hp|]. split; [vm_compute; reflexivity|].
  apply (@translate_addresses sampleX509 sampleSelectors sampleAnypb sampleOrder xdsGateway
    (modelRoutes ++ [sampleTCPRoute "db-b"; sampleTCPRoute "db-a"]) (Some modelRefs) xdsResources Hp).
  vm_compute. reflexivity.
Defined.

Lemma compareAge_name a b : compareAge a b = Eq → r_Name (at_Route a) = r_Name (at_Route b).
Proof.
  unfold compareAge, cmp_or, cmp_on. repeat case_match; try done. by intros ?%string_compare_eq.
Qed.

Lemma xdsModel_distinct i a b :
  attachedAtListener xdsModel i a → attachedAtListener xdsModel i b → compareAge a b = Eq → a = b.
Proof.
  intros [Ha _] [Hb _] Hn%compareAge_name.
  assert (NoDup ((λ r, r_Name (at_Route r)) <$> md_Routes xdsModel)) as Hnd
    by (apply (bool_decide_unpack _); vm_compute; exact I).
  apply list_elem_of_lookup in Ha as [j Hj]. apply list_elem_of_lookup in Hb as [k Hk].
  assert (j = k) as ->; [|congruence].
  eapply NoDup_lookup; [exact Hnd| |]; rewrite list_lookup_fmap, ?Hj, ?Hk; simpl; [done|by rewrite Hn].
Qed.

(** The oldest of the two TCP routes, then the first by name, is served in
    either order. *)
Lemma translate_deterministic_witness :
  (∀ i a b, attachedAtListener xdsModel i a → attachedAtListener xdsModel i b →
    compareAge a b = Eq → a = b) ∧
  @translate sampleAnypb sampleOrder xdsModel (Some modelRefs)
    = @translate sampleAnypb reversedOrder xdsModel (Some modelRefs).
Proof.
  split; [exact xdsModel_distinct|].
  exact (@translate_deterministic sampleAnypb sampleOrder reversedOrder xdsModel xdsModel_distinct (Some modelRefs)).
Defined.
