(* ===== verification/Requests.v ===== *)
(** * Which rules take a request (internal/xds/translate.go)

    Envoy picks the virtual host with the most specific domain that covers a
    request's host. For any host of a request, what the virtual host it picks
    holds is compared with what the Gateway API asks for: the rules of the
    routes attached to the most specific listener that covers the host. *)
From Stdlib Require Import Sorted.
From S2P Require Import Prelude GatewayAPI Samples Refs Routes Envoy Listeners Hosts Model EnvoyAPI XdsRoutes.

(** ** The most specific of some patterns *)

(** A pattern among some that covers a host, and that all the others that do
    cover. *)
Definition mostSpecific (patterns : list string) (host p : string) : Prop :=
  p ∈ patterns ∧ covers p host ∧ ∀ q, q ∈ patterns → covers q host → covers q p.

Lemma mostSpecific_exists patterns host p :
  p ∈ patterns → covers p host → ∃ q, mostSpecific patterns host q.
Proof.
  induction patterns as [|r patterns IH] in p |- *; [by intros ?%not_elem_of_nil|]. intros Hp Hc.
  assert ((∃ q, mostSpecific patterns host q) ∨ ∀ q, q ∈ patterns → ¬ covers q host) as Hrest.
  { destruct (decide (Exists (λ q, HostCovers q host = true) patterns)) as [(q & Hq & Hqc)%Exists_exists|Hn].
    - left. by apply (IH q).
    - right. intros q Hq Hqc. apply Hn, Exists_exists. by exists q. }
  destruct (decide (HostCovers r host = true)) as [Hr|Hr].
  - destruct Hrest as [(q & Hq & Hqc & Hmin)|Hnone].
    + destruct (covers_comparable r q host Hr Hqc) as [Hrq|Hqr].
      * exists q. split_and!; [by right|done|]. intros q' [->|Hq']%elem_of_cons Hc'; [done|by apply Hmin].
      * exists r. split_and!; [by left|done|]. intros q' [->|Hq']%elem_of_cons Hc'; [reflexivity|].
        transitivity q; [by apply Hmin|done].
    + exists r. split_and!; [by left|done|]. intros q' [->|Hq']%elem_of_cons Hc'; [reflexivity|].
      by destruct (Hnone q' Hq').
  - destruct Hrest as [(q & Hq & Hqc & Hmin)|Hnone].
    + exists q. split_and!; [by right|done|]. intros q' [->|Hq']%elem_of_cons Hc'; [done|by apply Hmin].
    + apply elem_of_cons in Hp as [->|Hp]; [done|]. by destruct (Hnone p Hp).
Qed.

Lemma covers_antisymm p q : p ≠ "" → q ≠ "" → covers p q → covers q p → p = q.
Proof.
  intros Hp Hq Hpq Hqp. destruct (decide (p = q)) as [|Hne]; [done|].
  pose proof (covers_exactChars p q Hpq Hne Hq).
  pose proof (covers_exactChars q p Hqp (not_eq_sym Hne) Hp). lia.
Qed.

(** ** The listener a request belongs to *)

Section requests.
Context (m : Model) (ids : list nat).

(** The listeners can be told apart by their hostnames. *)
Hypothesis apart : ∀ i j, i ∈ ids → j ∈ ids → patternOf m i = patternOf m j → i = j.

(** A hostname between a host and one of its owner's has the same owner. *)
Lemma owner_between host i h d :
  owningListener m ids host = Some i → covers (patternOf m i) h → covers h d → covers d host →
  owningListener m ids d = Some i.
Proof.
  intros Ho Hih Hhd Hdc. destruct (owningListener_Some _ _ _ _ Ho) as (Hi & _ & Hmost).
  assert (covers (patternOf m i) d) as Hid by by transitivity h.
  destruct (owningListener m ids d) as [o|] eqn:E.
  2:{ by destruct (proj1 (owningListener_None m ids d) E i Hi). }
  destruct (owningListener_Some _ _ _ _ E) as (Hio & Hoc & Hmosto). f_equal.
  apply apart; [done|done|]. apply covers_antisymm; [apply listenerHost_ne..| |by apply Hmosto].
  apply Hmost; [done|]. by transitivity d.
Qed.

(** What routes serve on a listener lies within the listener's own hostname. *)
Hypothesis within : ∀ e, e ∈ entriesOf m ids → covers (patternOf m (en_listener e)) (en_host e).

(** An entry that the owner of a request's host takes it with. *)
Definition takes (host : string) (e : entry) : Prop :=
  e ∈ entriesOf m ids ∧ owningListener m ids host = Some (en_listener e) ∧ covers (en_host e) host.

(** The most specific of the hostnames served that cover a host is owned by
    the listener that owns the host, when that listener has an entry for it. *)
Lemma selected_owner host e d :
  takes host e → en_host e ∈ hostsOf m ids → mostSpecific (hostsOf m ids) host d →
  owningListener m ids d = Some (en_listener e) ∧ covers (en_host e) d.
Proof.
  intros (He & Ho & Hc) Hin (Hd & Hdc & Hmin).
  assert (covers (en_host e) d) as Hed by by apply Hmin.
  split; [|done]. by eapply owner_between; [|by apply within| |].
Qed.

Lemma takes_serves host e d :
  takes host e → en_host e ∈ hostsOf m ids → mostSpecific (hostsOf m ids) host d → serves m ids d e.
Proof. intros Ht Hin Hd. pose proof Ht as (He & _). by destruct (selected_owner _ _ _ Ht Hin Hd). Qed.

Lemma serves_takes host e0 e d :
  takes host e0 → en_host e0 ∈ hostsOf m ids → mostSpecific (hostsOf m ids) host d →
  serves m ids d e → takes host e ∧ en_listener e = en_listener e0.
Proof.
  intros Ht Hin Hd (He & Hc & Ho). destruct (selected_owner _ _ _ Ht Hin Hd) as [Ho' _].
  destruct Ht as (_ & Hown & _). destruct Hd as (_ & Hdc & _).
  assert (en_listener e = en_listener e0) as Heq by congruence.
  split; [|done]. split_and!; [done|congruence|by transitivity d].
Qed.
End requests.

(** ** A Gateway's model *)

Lemma elem_of_matchesOf route i host e :
  e ∈ matchesOf route i host →
  en_route e = route ∧ en_listener e = i ∧ en_host e = host ∧
  is_Some (r_Rules (at_Route route) !! en_rule e ≫= λ ru, ru_Matches ru !! en_match e).
Proof.
  unfold matchesOf. rewrite list_elem_of_In, in_concat. setoid_rewrite <- list_elem_of_In. intros (es & Hes & He). apply elem_of_lookup_imap in Hes as (k & ru & -> & Hru).
  apply elem_of_lookup_imap in He as (j & mt & -> & Hmt). simpl. rewrite Hru. simpl. rewrite Hmt. by split_and!.
Qed.

Lemma elem_of_entriesOf m ids e :
  e ∈ entriesOf m ids → en_route e ∈ md_Routes m ∧ en_listener e ∈ ids ∧
  ∃ parent hosts, parent ∈ at_Parents (en_route e) ∧ pa_Hostnames parent !! en_listener e = Some hosts ∧ en_host e ∈ hosts.
Proof.
  intros (route & (parent & (i & (host & He & Hh)%list_elem_of_bind & Hi)%list_elem_of_bind & Hp)%list_elem_of_bind & Hr)%list_elem_of_bind.
  apply elem_of_matchesOf in He as (-> & -> & -> & _). split_and!; [done..|].
  exists parent. destruct (pa_Hostnames parent !! i) as [hosts|] eqn:E; [|by apply not_elem_of_nil in Hh].
  by exists hosts.
Qed.

Section model.
Context `{X509, LabelSelectors} (gw : Gateway) (routes : list Route) (refs : option References).

Let m := Build gw routes refs.

(** The hostnames a route serves on a listener that carries hostnames lie
    within the listener's own. *)
Lemma servedHosts_within route l h :
  hasHostnames (l_Protocol l) = true → h ∈ servedHosts route l → covers (listenerHost (l_Hostname l)) h.
Proof.
  unfold servedHosts. intros ->. rewrite elem_of_intersect.
  destruct (r_Hostnames route); [by intros ->|].
  intros (rh & _ & Hh). by destruct (intersectHost_covers _ _ _ Hh).
Qed.

Lemma Build_parent route parent i hosts :
  route ∈ md_Routes m → parent ∈ at_Parents route → pa_Hostnames parent !! i = Some hosts →
  ∃ l, md_Listeners m !! i = Some l ∧ hosts = servedHosts (at_Route route) l ∧ hosts ≠ [].
Proof.
  unfold m. rewrite Build_eq. simpl. intros (r & -> & _)%list_elem_of_fmap. unfold attachRoute.
  destruct (resolveBackends r _) as [bs c]. simpl. intros (ref & -> & _)%list_elem_of_fmap.
  intros (l & Hl & _ & Hs & Hne)%attach_hostnames. by exists l.
Qed.

Lemma Build_within ids e :
  (∀ i l, i ∈ ids → md_Listeners m !! i = Some l → hasHostnames (l_Protocol l) = true) →
  e ∈ entriesOf m ids → covers (patternOf m (en_listener e)) (en_host e).
Proof.
  intros Hhost (Hr & Hi & parent & hosts & Hp & Hh & Hin)%elem_of_entriesOf.
  destruct (Build_parent _ _ _ _ Hr Hp Hh) as (l & Hl & -> & _).
  unfold patternOf. rewrite Hl. simpl. by eapply servedHosts_within; [apply (Hhost _ _ Hi Hl)|].
Qed.

(** No hostname holds the vertical bar the keys of entries are joined by, when
    none of the Gateway's listeners' and routes' does. *)
Lemma Build_plain ids e :
  (∀ ls, ls ∈ gw_Listeners gw → lacks bar (default "" (ls_Hostname ls)) = true) →
  (∀ r, r ∈ routes → lacks bar (Key r) = true ∧ ∀ h, h ∈ r_Hostnames r → lacks bar h = true) →
  e ∈ entriesOf m ids → plainEntry e = true.
Proof.
  intros Hls Hrs (Hr & _ & parent & hosts & Hp & Hh & Hin)%elem_of_entriesOf.
  destruct (Build_parent _ _ _ _ Hr Hp Hh) as (l & Hl & -> & _).
  assert (at_Route (en_route e) ∈ routes) as Hroute.
  { revert Hr. unfold m. rewrite Build_eq. simpl. intros (r & -> & [_ ?]%list_elem_of_filter)%list_elem_of_fmap.
    unfold attachRoute. by destruct (resolveBackends r _). }
  destruct (Hrs _ Hroute) as [Hkey Hhosts]. unfold plainEntry, en_Route. rewrite Hkey, andb_true_r.
  assert (lacks bar (listenerHost (l_Hostname l)) = true) as Hlh.
  { revert Hl. unfold m. rewrite Build_eq. simpl. intros [Hl _]%listener_valid.
    unfold listenerHost. destruct (l_Hostname l) as [h|] eqn:E; [|done]. case_match; [done|].
    pose proof (Hls _ (list_elem_of_lookup_2 _ _ _ Hl)) as Hlack. unfold l_Hostname in E. by rewrite E in Hlack. }
  unfold servedHosts in Hin. apply elem_of_intersect in Hin.
  assert (lacks bar (listenerHost (if hasHostnames (l_Protocol l) then l_Hostname l else None)) = true) as Hlh'
    by by destruct (hasHostnames _).
  destruct (r_Hostnames (at_Route (en_route e))) as [|h0 hs] eqn:E; [by rewrite Hin|].
  destruct Hin as (rh & Hrh & Hi). apply Hhosts in Hrh.
  revert Hi Hlh'. generalize (listenerHost (if hasHostnames (l_Protocol l) then l_Hostname l else None)) as lh.
  intros lh. unfold intersectHost. repeat case_match; intros [= <-]; done.
Qed.

(** What Envoy does with a request, of the route configuration of a port: the
    virtual host it picks holds the rules that the Gateway API gives the
    request to. *)
Lemma request_routed name ids clusters host e0 :
  (∀ e, e ∈ entriesOf m ids → plainEntry e = true) →
  (∀ i l, i ∈ ids → md_Listeners m !! i = Some l → hasHostnames (l_Protocol l) = true) →
  (∀ i j, i ∈ ids → j ∈ ids → patternOf m i = patternOf m j → i = j) →
  takes m ids host e0 →
  let rc := (routeConfiguration name m ids clusters).1 in
  (∃ vh, vh ∈ rc_VirtualHosts rc ∧ mostSpecific (vh_Name <$> rc_VirtualHosts rc) host (vh_Name vh)) ∧
  ∀ vh, vh ∈ rc_VirtualHosts rc → mostSpecific (vh_Name <$> rc_VirtualHosts rc) host (vh_Name vh) →
    ∃ es, vh_Routes vh = envoyRouteOf <$> es ∧ StronglySorted (cmp_le compareEntries) es ∧
      NoDup (addedKey <$> es) ∧ (∀ e, e ∈ es → takes m ids host e) ∧
      (∀ e, takes m ids host e → ∃ e', e' ∈ es ∧ addedKey e' = addedKey e).
Proof.
  intros Hplain Hhost Hapart Ht rc. unfold rc. rewrite routeConfiguration_eq. simpl. rewrite virtualHost_names.
  assert (∀ e, takes m ids host e → en_host e ∈ hostsOf m ids) as Hin
    by (intros e (He & _); by apply entry_hostsOf).
  assert (∀ e, e ∈ entriesOf m ids → covers (patternOf m (en_listener e)) (en_host e)) as Hwithin
    by (intros; by eapply Build_within).
  split.
  - destruct (mostSpecific_exists (hostsOf m ids) host (en_host e0)) as [d Hd]; [by apply Hin|by destruct Ht as (_ & _ & ?)|].
    exists (virtualHostOf m ids d). split; [|done]. apply list_elem_of_fmap_2. by destruct Hd.
  - intros vh (d & -> & _)%list_elem_of_fmap Hd. simpl in *. exists (servedEntries m ids d). split; [done|].
    destruct (servedEntries_spec m ids d Hplain) as (Hs & Hnd & Hsound & Hall). split_and!; [done..| |].
    + intros e He%Hsound. by eapply (serves_takes m ids Hapart Hwithin host e0); [|apply Hin| |].
    + intros e He. apply Hall. by eapply takes_serves; [..|apply Hin|].
Qed.
End model.

(** ** A listener without routes *)

(** Two listeners of one port; the route is attached to the wildcard one. *)
Definition bareGateway : Gateway :=
  sampleGateway "infra" "gw"
    [sampleListener "wide" "HTTP" 80 (Some "*.example.com"); sampleListener "app" "HTTP" 80 (Some "app.example.com")].

Definition bareRoute : Route :=
  {| r_Kind := HTTPRouteKind; r_ObjectMeta := sampleMeta "infra" "all";
     r_ParentRefs := [{| pref_Group := None; pref_Kind := None; pref_Namespace := None; pref_Name := "gw";
                         pref_SectionName := Some "wide"; pref_Port := None |}];
     r_Hostnames := []; r_Rules := [sampleRule [sampleBackendRef "web" 80]] |}.

Definition bareModel : Model := @Build sampleX509 sampleSelectors bareGateway [bareRoute] (Some modelRefs).

Definition bareConfiguration : RouteConfiguration := (routeConfiguration "http-80" bareModel [0; 1] ∅).1.

(** A request for a listener that no route is attached to is not answered with
    a 404: it is taken by the routes of a less specific listener of the port. *)
Lemma bare_listener_leaks :
  owningListener bareModel [0; 1] "app.example.com" = Some 1 ∧
  (∀ route, route ∈ md_Routes bareModel → ∀ parent, parent ∈ at_Parents route → pa_Hostnames parent !! 1 = None) ∧
  mostSpecific (vh_Name <$> rc_VirtualHosts bareConfiguration) "app.example.com" "*.example.com" ∧
  (length ∘ vh_Routes) <$> rc_VirtualHosts bareConfiguration = [1].
Proof.
  split_and!.
  - by vm_compute.
  - apply (proj1 (Forall_forall (λ route, ∀ parent, parent ∈ at_Parents route → pa_Hostnames parent !! 1 = None) _)).
    constructor; [|constructor]. apply (proj1 (Forall_forall (λ parent, pa_Hostnames parent !! 1 = None) _)).
    constructor; [by vm_compute|constructor].
  - assert (vh_Name <$> rc_VirtualHosts bareConfiguration = ["*.example.com"]) as -> by by vm_compute.
    split_and!; [by left|by vm_compute|]. by intros q [->|?%not_elem_of_nil]%elem_of_cons.
  - by vm_compute.
Qed.
