(* ===== verification/Connections.v ===== *)
(** * Which route takes a connection (internal/xds/l4.go)

    A TLS connection is given to the filter chain of the most specific server
    name, a TCP connection to the one route of its listener. What the chains are
    made of is compared with what the Gateway API asks for. *)
From Stdlib Require Import Sorted.
From S2P Require Import Prelude GatewayAPI Samples Refs Routes Envoy Listeners Hosts Model EnvoyAPI XdsRoutes Xds Requests.

(** ** The routes attached to a listener *)

Lemma attachHosts_elem r out hs r' h :
  h ∈ default [] (foldl (attachHost r) out hs !! r') ↔ h ∈ default [] (out !! r') ∨ (r' = r ∧ h ∈ hs).
Proof.
  revert out. induction hs as [|h0 hs IH]; intros out; cbn [foldl].
  { rewrite elem_of_nil. tauto. }
  rewrite IH, elem_of_cons. unfold attachHost. case_bool_decide as Hin.
  - split; [naive_solver|]. intros [?|[-> [->|?]]]; [by left|by left|by right].
  - destruct (decide (r' = r)) as [->|Hne].
    + rewrite lookup_insert_eq. simpl. rewrite elem_of_app, list_elem_of_singleton. naive_solver.
    + rewrite lookup_insert_ne by done. naive_solver.
Qed.

(** The hostnames a route serves on a listener, as the loop collects them. *)
Lemma elem_of_attachedTo m i r h :
  h ∈ default [] (attachedTo m i !! r) ↔ ∃ route, md_Routes m !! r = Some route ∧ h ∈ hostsAt i route.
Proof.
  unfold attachedTo.
  assert (∀ rrs out, h ∈ default [] (foldl (λ out rr, foldl (attachHost rr.1) out (hostsAt i rr.2)) out rrs !! r) ↔
    h ∈ default [] (out !! r) ∨ ∃ route, (r, route) ∈ rrs ∧ h ∈ hostsAt i route) as ->.
  { induction rrs as [|[r' route] rrs IH]; intros out; cbn [foldl].
    { setoid_rewrite elem_of_nil. naive_solver. }
    rewrite IH, attachHosts_elem. setoid_rewrite elem_of_cons. naive_solver. }
  rewrite lookup_empty. simpl. rewrite elem_of_nil. setoid_rewrite elem_of_lookup_imap. naive_solver.
Qed.

Lemma attachHosts_nonempty r out hs :
  (∀ k, out !! k ≠ Some []) → ∀ k, foldl (attachHost r) out hs !! k ≠ Some [].
Proof.
  revert out. induction hs as [|h hs IH]; intros out Hne; cbn [foldl]; [done|]. apply IH. intros k.
  unfold attachHost. case_bool_decide; [done|]. rewrite lookup_insert_Some.
  intros [[_ Hk]|[_ Hk]]; [by destruct (default [] _)|by apply Hne in Hk].
Qed.

Lemma attachedTo_nonempty m i r : attachedTo m i !! r ≠ Some [].
Proof.
  unfold attachedTo.
  assert (∀ rrs (out : gmap nat (list string)), (∀ k, out !! k ≠ Some []) →
    ∀ k, foldl (λ out rr, foldl (attachHost rr.1) out (hostsAt i rr.2)) out rrs !! k ≠ Some []) as Hfold.
  { induction rrs as [|rr rrs IH]; intros out Hne; cbn [foldl]; [done|]. by apply IH, attachHosts_nonempty. }
  by apply Hfold.
Qed.

Lemma elem_of_rangeOver `{MapOrder} mm r hs : (r, hs) ∈ rangeOver mm ↔ mm !! r = Some hs.
Proof. by rewrite rangeOver_perm, elem_of_map_to_list. Qed.

(** A route of the model that serves a hostname on a listener. *)
Definition servesAt (m : Model) (i : nat) (h : string) (route : AttachedRoute) : Prop :=
  route ∈ md_Routes m ∧ h ∈ hostsAt i route.

Lemma elem_of_routesAt `{MapOrder} m i route :
  route ∈ routesAt m i → attachedAtListener m i route.
Proof. apply routesAt_attached. Qed.

Lemma routesAt_complete `{MapOrder} m i h route : servesAt m i h route → route ∈ routesAt m i.
Proof.
  intros [(r & Hr)%list_elem_of_lookup Hh]. unfold routesAt. apply list_elem_of_omap. exists r. split; [|done].
  assert (h ∈ default [] (attachedTo m i !! r)) as Hin by by apply elem_of_attachedTo; exists route.
  destruct (attachedTo m i !! r) as [hs|] eqn:E; [|by apply not_elem_of_nil in Hin].
  apply list_elem_of_fmap. exists (r, hs). split; [done|]. by apply elem_of_rangeOver.
Qed.

(** The candidates for a hostname that are attached to its owner. *)
Lemma elem_of_ownedRoutes `{MapOrder} m ids i h route :
  route ∈ ownedRoutes m (Some i) (default [] (candidatesByHost m ids !! h)) ↔ i ∈ ids ∧ servesAt m i h route.
Proof.
  unfold ownedRoutes. rewrite candidatesByHost_lookup, entryOf_default, list_elem_of_omap. split.
  - intros ([r k] & [[= ->] Hc]%list_elem_of_filter & Hr). simpl in *.
    apply list_elem_of_bind in Hc as (j & Hc & Hj). apply list_elem_of_bind in Hc as ([r' hs] & Hc & Hrh).
    apply list_elem_of_fmap in Hc as (h' & [= -> ->] & [-> Hh]%list_elem_of_filter). split; [done|].
    apply elem_of_rangeOver in Hrh. split; [by eapply list_elem_of_lookup_2|].
    destruct (proj1 (elem_of_attachedTo m j r' h)) as (route' & Hr' & ?); [by rewrite Hrh|]. congruence.
  - intros (Hi & (r & Hr)%list_elem_of_lookup & Hh). exists (r, i). split; [|done].
    apply list_elem_of_filter. split; [done|]. apply list_elem_of_bind. exists i. split; [|done].
    assert (h ∈ default [] (attachedTo m i !! r)) as Hin by by apply elem_of_attachedTo; exists route.
    destruct (attachedTo m i !! r) as [hs|] eqn:E; [|by apply not_elem_of_nil in Hin].
    apply list_elem_of_bind. exists (r, hs). split; [|by apply elem_of_rangeOver].
    apply (list_elem_of_fmap_2 (λ _, (r, i)) _ h). by apply list_elem_of_filter.
Qed.

Lemma elem_of_candidateHosts `{MapOrder} m ids h :
  h ∈ sortedKeys (candidatesByHost m ids) ↔ ∃ i route, i ∈ ids ∧ servesAt m i h route.
Proof.
  rewrite elem_of_sortedKeys, candidatesByHost_lookup, entryOf_Some. split.
  - destruct (ids ≫= _) as [|[r k] cs] eqn:E; [done|]. intros _.
    assert ((r, k) ∈ ids ≫= λ i, candidatesAt h i (rangeOver (attachedTo m i))) as Hin by (rewrite E; by left).
    apply list_elem_of_bind in Hin as (i & Hc & Hi). apply list_elem_of_bind in Hc as ([r' hs] & Hc & Hrh).
    apply list_elem_of_fmap in Hc as (h' & [= -> ->] & [-> Hh]%list_elem_of_filter).
    apply elem_of_rangeOver in Hrh. destruct (proj1 (elem_of_attachedTo m i r' h)) as (route & Hr & Hat); [by rewrite Hrh|].
    exists i, route. split; [done|]. split; [by eapply list_elem_of_lookup_2|done].
  - intros (i & route & Hi & Hs) Hnil.
    assert (route ∈ ownedRoutes m (Some i) (default [] (candidatesByHost m ids !! h))) as Hin by by apply elem_of_ownedRoutes.
    rewrite candidatesByHost_lookup, Hnil in Hin. simpl in Hin. by apply not_elem_of_nil in Hin.
Qed.

(** The oldest of some routes. *)
Lemma oldest_Some routes route :
  oldest routes = Some route → route ∈ routes ∧ ∀ r, r ∈ routes → cmp_le compareAge route r.
Proof. apply (min_by_spec compareAge). Qed.

Lemma oldest_exists routes route : route ∈ routes → is_Some (oldest routes).
Proof. intros Hin. apply min_by_is_Some. intros ->. by apply not_elem_of_nil in Hin. Qed.

(** ** Filter chains *)

Section chains.
Context `{Anypb, MapOrder}.

(** Where a connection given to some backends goes. *)
Definition streamTo (backends : list Backend) : ClusterSpecifier :=
  match share <$> live backends with
  | [] => SpecCluster invalidCluster
  | [w] => SpecCluster (cw_Name w)
  | ws => SpecWeightedClusters ws
  end.

Lemma tcpProxyFilter_inl prefix backends clusters f clusters' :
  tcpProxyFilter prefix backends clusters = inl (f, clusters') →
  fi_TypedConfig f = TcpProxy prefix (streamTo backends).
Proof.
  unfold tcpProxyFilter, streamTo. rewrite weighBackends_eq. intros (msg & ->%anypb_New_inl & [= <- <-])%rbind_inl.
  by destruct (share <$> live backends) as [|? []].
Qed.

(** A chain for a hostname, whose connections go to the backends of a route,
    decrypted when the listener terminates TLS. *)
Definition chainFor (name : string) (m : Model) (owner : nat) (host : string) (route : AttachedRoute)
    (chain : FilterChain) : Prop :=
  fc_Name chain = host ∧
  fc_ServerNames chain = (if str_eqb host "*" then None else Some [host]) ∧
  chainMessages chain = [TcpProxy (name +:+ "-" +:+ host) (streamTo (backendsOf route))] ∧
  ∀ l, md_Listeners m !! owner = Some l → (is_Some (fc_TransportSocket chain) ↔ Terminates (l_Spec l) = true).

Lemma tlsChain_inl name m i host route clusters chain clusters' :
  tlsChain name m (Some i) host route clusters = inl (chain, clusters') → chainFor name m i host route chain.
Proof.
  unfold tlsChain, chainFor, chainMessages. intros ([f cl] & Hf%tcpProxyFilter_inl & Hk)%rbind_inl. simpl in Hk.
  destruct (md_Listeners m !! i) as [l|].
  2:{ injection Hk as <- <-. simpl. rewrite Hf. by split_and!. }
  destruct (Terminates (l_Spec l)) eqn:Et.
  - apply rbind_inl in Hk as (s & _ & [= <- <-]). simpl. rewrite Hf. split_and!; [done..|]. intros ? [= <-].
    rewrite Et. split; [done|by eexists].
  - injection Hk as <- <-. simpl. rewrite Hf. split_and!; [done..|]. intros ? [= <-].
    rewrite Et. split; [by intros []|done].
Qed.

(** The chains are those of the hostnames whose owner has a route for them. *)
Lemma tlsChains_spec name m ids hosts clusters chains clusters' :
  tlsChains name m ids (candidatesByHost m ids) hosts clusters = inl (chains, clusters') →
  (∀ chain, chain ∈ chains → ∃ host i route, host ∈ hosts ∧ owningListener m ids host = Some i ∧
     servesAt m i host route ∧ (∀ r, servesAt m i host r → cmp_le compareAge route r) ∧
     chainFor name m i host route chain) ∧
  (∀ host i route, host ∈ hosts → owningListener m ids host = Some i → servesAt m i host route →
     host ∈ fc_Name <$> chains).
Proof.
  revert clusters chains clusters'. induction hosts as [|host hosts IH]; intros clusters chains clusters'; cbn [tlsChains].
  { intros [= <- <-]. split; intros ? *; by intros ?%not_elem_of_nil. }
  destruct (oldest _) as [route|] eqn:Eo.
  - intros ([chain cl] & Hc & Hk)%rbind_inl. apply rbind_inl in Hk as ([chains0 cl0] & [Hs Hall]%IH & [= <- <-]).
    apply oldest_Some in Eo as [Hin Hle].
    destruct (owningListener m ids host) as [i|] eqn:Ei.
    2:{ exfalso. unfold ownedRoutes in Hin. apply list_elem_of_omap in Hin as (c & [Hn _]%list_elem_of_filter & _). done. }
    apply elem_of_ownedRoutes in Hin as [Hi Hserves]. apply tlsChain_inl in Hc. split.
    + intros chain' [->|(h & j & r & Hh & Hrest)%Hs]%elem_of_cons.
      * exists host, i, route. split_and!; [by left|done|done| |done]. intros r Hr. by apply Hle, elem_of_ownedRoutes.
      * exists h, j, r. split; [by right|done].
    + intros h j r [->|Hh]%elem_of_cons Ho Hr; rewrite fmap_cons, elem_of_cons; [left; by destruct Hc as [-> _]|right].
      by eapply Hall.
  - intros [Hs Hall]%IH. split.
    + intros chain (h & j & r & Hh & Hrest)%Hs. exists h, j, r. split; [by right|done].
    + intros h j r [->|Hh]%elem_of_cons Ho Hr; [|by eapply Hall].
      rewrite Ho in Eo. destruct (oldest_exists (ownedRoutes m (Some j) (default [] (candidatesByHost m ids !! host))) r) as [? ?]; [|congruence].
      apply elem_of_ownedRoutes. split; [|done]. by destruct (owningListener_Some _ _ _ _ Ho).
Qed.

Lemma sniListener_chains name port chains l : sniListener name port chains = inl l → el_FilterChains l = chains.
Proof. unfold sniListener. by intros (msg & _ & [= <-])%rbind_inl. Qed.

(** A TLS port. *)
Lemma tlsListener_spec name port m ids clusters ol clusters' :
  tlsListener name port m ids clusters = inl (ol, clusters') →
  let chains := from_option el_FilterChains [] ol in
  (∀ chain, chain ∈ chains → ∃ host i route, owningListener m ids host = Some i ∧
     servesAt m i host route ∧ (∀ r, servesAt m i host r → cmp_le compareAge route r) ∧
     chainFor name m i host route chain) ∧
  (∀ host i route, owningListener m ids host = Some i → servesAt m i host route → host ∈ fc_Name <$> chains).
Proof.
  unfold tlsListener. intros ([chains cl] & [Hs Hall]%tlsChains_spec & Hk)%rbind_inl.
  assert (from_option el_FilterChains [] ol = chains) as ->.
  { destruct chains; [by injection Hk as <- <-|].
    apply rbind_inl in Hk as (l & Hl%sniListener_chains & [= <- <-]). done. }
  split.
  - intros chain (h & i & r & _ & Hrest)%Hs. by exists h, i, r.
  - intros h i r Ho Hr. eapply Hall; [|done|done]. apply elem_of_candidateHosts. exists i, r.
    split; [|done]. by destruct (owningListener_Some _ _ _ _ Ho).
Qed.

(** ** The chain of a connection *)

Section selected.
Context (m : Model) (ids : list nat).
Hypothesis apart : ∀ i j, i ∈ ids → j ∈ ids → patternOf m i = patternOf m j → i = j.
Hypothesis within : ∀ i h route, i ∈ ids → servesAt m i h route → covers (patternOf m i) h.

(** What takes a connection: a route of the listener that owns its server name,
    under the most specific of the hostnames served there that cover it, the
    oldest with that hostname. *)
Definition takesConnection (i : nat) (host h : string) (route : AttachedRoute) : Prop :=
  owningListener m ids host = Some i ∧ servesAt m i h route ∧ covers h host ∧
  (∀ h' r, servesAt m i h' r → covers h' host → covers h' h) ∧
  (∀ r, servesAt m i h r → cmp_le compareAge route r).

Lemma connection_routed name port clusters ol clusters' i host h0 r0 :
  tlsListener name port m ids clusters = inl (ol, clusters') →
  owningListener m ids host = Some i → servesAt m i h0 r0 → covers h0 host →
  let chains := from_option el_FilterChains [] ol in
  (∃ chain, chain ∈ chains ∧ mostSpecific (fc_Name <$> chains) host (fc_Name chain)) ∧
  ∀ chain, chain ∈ chains → mostSpecific (fc_Name <$> chains) host (fc_Name chain) →
    ∃ route, takesConnection i host (fc_Name chain) route ∧ chainFor name m i (fc_Name chain) route chain.
Proof.
  intros [Hs Hall]%tlsListener_spec Ho Hr Hc chains. fold chains in Hs, Hall.
  destruct (owningListener_Some _ _ _ _ Ho) as (Hi & _).
  assert (∀ h r, servesAt m i h r → covers h host → h ∈ fc_Name <$> chains) as Hin.
  { intros h r Hr' Hc'. apply (Hall h i r); [|done]. eapply (owner_between m ids apart host i h h); [done|by eapply within|done|done]. }
  split.
  - destruct (mostSpecific_exists (fc_Name <$> chains) host h0) as [d Hd]; [by eapply Hin|done|].
    destruct Hd as (Hd & Hrest). pose proof Hd as (chain & -> & Hchain)%list_elem_of_fmap. by exists chain.
  - intros chain Hchain (_ & Hdc & Hmin). destruct (Hs chain Hchain) as (d & j & route & Hod & Hsd & Hold & Hchn).
    assert (fc_Name chain = d) as Hname by by destruct Hchn. rewrite Hname in *.
    assert (owningListener m ids d = Some i) as Hod'.
    { eapply (owner_between m ids apart host i h0 d); [done|by eapply within| |done]. apply Hmin; [by eapply Hin|done]. }
    assert (j = i) as -> by congruence. exists route. split; [|done]. split_and!; [done..| |done].
    intros h' r Hr' Hc'. apply Hmin; [by eapply Hin|done].
Qed.
End selected.

(** ** Ports *)

Lemma translatePort_tls m st key st' first rest l :
  translatePort m st key = inl st' → byPortOf m !! key = Some (first :: rest) →
  md_Listeners m !! first = Some l → l_Protocol l = TLSProtocolType →
  ∃ clusters ol clusters', tlsListener ("tls-" +:+ fmt_d (pk_port key)) (pk_port key) m (first :: rest) clusters = inl (ol, clusters') ∧
    ∀ el, ol = Some el → el ∈ xs_Listeners st' ∧ el_Address el = addressOf key.
Proof.
  intros Ht Hk Hl Hp. pose proof (translatePort_address _ _ _ _ Ht) as (ol' & Hol & Ha).
  revert Ht. unfold translatePort. rewrite Hk. simpl. rewrite Hl. simpl. rewrite Hp. simpl.
  intros ([ol cl] & Htls & [= <-])%rbind_inl. exists (xs_clusters st), ol, cl. split; [done|].
  simpl in Hol. apply app_inv_head in Hol. intros el ->. destruct ol' as [el'|]; [|done]. injection Hol as <-.
  split; [simpl; apply elem_of_app; right; by left|by apply Ha].
Qed.

(** A TCP port has one listener, whose route is the oldest attached. *)
Lemma translatePort_tcp m st key st' first rest l :
  translatePort m st key = inl st' → byPortOf m !! key = Some (first :: rest) →
  md_Listeners m !! first = Some l → l_Protocol l = TCPProtocolType →
  (∃ h r, servesAt m first h r) →
  ∃ el chain route, el ∈ xs_Listeners st' ∧ el_Address el = addressOf key ∧ el_FilterChains el = [chain] ∧
    fc_ServerNames chain = None ∧
    chainMessages chain = [TcpProxy ("tcp-" +:+ fmt_d (pk_port key)) (streamTo (backendsOf route))] ∧
    attachedAtListener m first route ∧ (∀ r, attachedAtListener m first r → cmp_le compareAge route r).
Proof.
  intros Ht Hk Hl Hp (h & r & Hr). pose proof (translatePort_address _ _ _ _ Ht) as (ol' & Hol & Ha).
  revert Ht. unfold translatePort. rewrite Hk. simpl. rewrite Hl. simpl. rewrite Hp. simpl.
  unfold tcpListener. destruct (oldest_exists (routesAt m first) r) as [route Eo]; [by eapply routesAt_complete|].
  rewrite Eo. intros ([ol cl] & Htcp & [= <-])%rbind_inl.
  apply rbind_inl in Htcp as ([f cl'] & Hf%tcpProxyFilter_inl & [= <- <-]).
  simpl in Hol. apply app_inv_head in Hol. destruct ol' as [el'|]; [|done]. injection Hol as Hel.
  apply oldest_Some in Eo as [Hin Hle].
  eexists _, _, route. split; [simpl; apply elem_of_app; right; by left|]. split; [apply Ha; by rewrite Hel|].
  split; [done|]. split; [done|]. split; [unfold chainMessages; simpl; by rewrite Hf|].
  split; [by apply elem_of_routesAt|]. intros r' [Hr' Hne]. apply Hle.
  destruct (hostsAt first r') as [|h' hs] eqn:E; [done|]. apply (routesAt_complete m first h'). split; [done|].
  rewrite E. by left.
Qed.
End chains.
