(* ===== verification/Snapshot.v ===== *)
(** * What a snapshot holds

    Where the clusters and endpoints Envoy is served come from, from the routes
    of the cluster on, and that their names tell resources apart, as Envoy and
    the cache, which keep one resource of a type by name, need. *)
From S2P Require Import Prelude GatewayAPI Samples Refs Routes Envoy Listeners Hosts Model EnvoyAPI XdsRoutes Xds Requests Connections.

(** ** Where clusters come from *)

(** The backends of a rule of a route that is attached to a valid listener. *)
Definition attachedBackends (m : Model) (route : AttachedRoute) (bs : list Backend) : Prop :=
  bs ∈ at_Backends route ∧
  ∃ i l, md_Listeners m !! i = Some l ∧ l_Valid l = true ∧ attachedAtListener m i route.

(** A cluster such a rule gives traffic to. *)
Definition served (m : Model) (c : Cluster) : Prop :=
  ∃ route bs, attachedBackends m route bs ∧ c ∈ liveClusters bs.

Definition validAt (m : Model) (ids : list nat) : Prop :=
  ∀ i, i ∈ ids → ∃ l, md_Listeners m !! i = Some l ∧ l_Valid l = true.

(** What holds of the clusters met so far. *)
Definition allServed (m : Model) (clusters : Clusters) : Prop := ∀ k c, clusters !! k = Some c → served m c.

Lemma allServed_add m cs clusters :
  allServed m clusters → (∀ c, c ∈ cs → served m c) → allServed m (addClusters cs clusters).
Proof.
  unfold addClusters. revert clusters. induction cs as [|c cs IH]; intros clusters Hall Hcs; cbn [foldl]; [done|].
  apply IH; [|intros c' Hc'; apply Hcs; by right].
  intros k c'. rewrite lookup_insert_Some. intros [[_ <-]|[_ ?]]; [apply Hcs; by left|by eapply Hall].
Qed.

(** The weighted clusters met so far are made of the backends of UDP routes,
    and named after the route. *)
Definition udpName (route : AttachedRoute) : string :=
  "udp/" +:+ r_Namespace (at_Route route) +:+ "/" +:+ r_Name (at_Route route).

Definition allWeighted (m : Model) (weighted : gmap string weightedCluster) : Prop :=
  ∀ k w, weighted !! k = Some w →
    ∃ route bs, attachedBackends m route bs ∧ k = udpName route ∧ wc_name w = k ∧ wc_backends w = live bs.

Section provenance.
Context `{Anypb, MapOrder} (m : Model).

Lemma attached_backendsOf ids route i :
  validAt m ids → i ∈ ids → attachedAtListener m i route →
  backendsOf route = [] ∨ attachedBackends m route (backendsOf route).
Proof.
  intros Hids Hi Ha. unfold backendsOf. destruct (at_Backends route) as [|bs rest] eqn:E; [by left|]. right. simpl.
  destruct (Hids i Hi) as (l & Hl & Hv). split; [rewrite E; by left|by exists i, l].
Qed.

Lemma liveClusters_backendsOf ids route i c :
  validAt m ids → i ∈ ids → attachedAtListener m i route → c ∈ liveClusters (backendsOf route) → served m c.
Proof.
  intros Hids Hi Ha Hc. destruct (attached_backendsOf ids route i Hids Hi Ha) as [Hn|Hb]; [|by exists route, (backendsOf route)].
  rewrite Hn in Hc. by apply elem_of_nil in Hc.
Qed.

Lemma tcpProxyFilter_served ids route i prefix clusters f clusters' :
  validAt m ids → i ∈ ids → attachedAtListener m i route → allServed m clusters →
  tcpProxyFilter prefix (backendsOf route) clusters = inl (f, clusters') → allServed m clusters'.
Proof.
  intros Hids Hi Ha Hall. unfold tcpProxyFilter. rewrite weighBackends_eq.
  intros (msg & _ & [= _ <-])%rbind_inl. apply allServed_add; [done|].
  intros c. by apply (liveClusters_backendsOf ids route i).
Qed.

Lemma usedClusters_served ids host e c :
  validAt m ids → e ∈ servedEntries m ids host → c ∈ usedClusters e → served m c.
Proof.
  intros Hids He Hc.
  assert (e ∈ entriesOf m ids) as (Hr & Hi & parent & hosts & Hp & Hh & Hin)%elem_of_entriesOf.
  { apply metEntries_elem. apply (elem_of_sortedEntries m ids host). eapply elem_of_sublist; [exact He|apply dedup_by_sublist]. }
  unfold usedClusters in Hc. destruct (forwards e); [|by apply elem_of_nil in Hc]. unfold en_backends in Hc.
  destruct (at_Backends (en_route e) !! en_rule e) as [bs|] eqn:Eb; [|by apply elem_of_nil in Hc].
  exists (en_route e), bs. split; [|done]. split; [by eapply list_elem_of_lookup_2|].
  destruct (Hids _ Hi) as (l & Hl & Hv). exists (en_listener e), l. split_and!; [done|done|split; [done|]].
  assert (en_host e ∈ hostsAt (en_listener e) (en_route e)) as Hhost.
  { unfold hostsAt. apply list_elem_of_bind. exists parent. by rewrite Hh. }
  intros Hn. rewrite Hn in Hhost. by apply elem_of_nil in Hhost.
Qed.

Lemma routeConfiguration_served name ids clusters :
  validAt m ids → allServed m clusters → allServed m (routeConfiguration name m ids clusters).2.
Proof.
  intros Hids Hall. rewrite routeConfiguration_eq. apply allServed_add; [done|].
  intros c (h & (e & Hc & He)%list_elem_of_bind & _)%list_elem_of_bind. by eapply usedClusters_served.
Qed.

Lemma httpsChains_served name ids clusters chains configs clusters' :
  validAt m ids → allServed m clusters → httpsChains name m ids clusters = inl (chains, configs, clusters') →
  allServed m clusters'.
Proof.
  intros Hids. revert clusters chains configs clusters'.
  induction ids as [|i ids IH]; intros clusters chains configs clusters' Hall; cbn [httpsChains]; [by intros [= _ _ <-]|].
  assert (validAt m ids) as Hids' by (intros j Hj; apply Hids; by right).
  destruct (md_Listeners m !! i) as [l|]; [|by apply IH].
  destruct (routeConfiguration _ _ _ _) as [config cl] eqn:E. intros (chain & _ & Hk)%rbind_inl.
  apply rbind_inl in Hk as ([[chains' configs'] cl'] & Hr & [= _ _ <-]).
  eapply (IH Hids'); [|exact Hr]. assert (cl = (routeConfiguration (name +:+ "-" +:+ l_Name l) m [i] clusters).2) as -> by by rewrite E.
  apply routeConfiguration_served; [|done]. intros j ->%list_elem_of_singleton. apply Hids. by left.
Qed.

Lemma tlsChains_served name ids hosts clusters chains clusters' :
  validAt m ids → allServed m clusters →
  tlsChains name m ids (candidatesByHost m ids) hosts clusters = inl (chains, clusters') → allServed m clusters'.
Proof.
  intros Hids. revert clusters chains clusters'.
  induction hosts as [|host hosts IH]; intros clusters chains clusters' Hall; cbn [tlsChains]; [by intros [= _ <-]|].
  destruct (oldest _) as [route|] eqn:Eo; [|by apply IH].
  intros ([chain cl] & Hc & Hk)%rbind_inl. apply rbind_inl in Hk as ([chains' cl'] & Hr & [= _ <-]).
  eapply IH; [|exact Hr]. apply (min_by_spec compareAge) in Eo as [Hin _].
  apply ownedRoutes_attached in Hin as (i & Ho & Ha).
  assert (i ∈ ids) as Hi by (pose proof (owningListener_spec m ids host) as Hs; rewrite Ho in Hs; apply Hs).
  unfold tlsChain in Hc. apply rbind_inl in Hc as ([f cl0] & Hf & Hc).
  assert (cl = cl0) as ->.
  { destruct (_ ≫= _) as [l|]; [|by injection Hc as _ <-]. destruct (Terminates _); [|by injection Hc as _ <-].
    by apply rbind_inl in Hc as (s & _ & [= _ <-]). }
  by eapply (tcpProxyFilter_served ids route i).
Qed.

Lemma tlsListener_served name port ids clusters l clusters' :
  validAt m ids → allServed m clusters → tlsListener name port m ids clusters = inl (l, clusters') → allServed m clusters'.
Proof.
  intros Hids Hall. unfold tlsListener. intros ([chains cl] & Hc & Hk)%rbind_inl.
  assert (clusters' = cl) as -> by (destruct chains; [by injection Hk|by apply rbind_inl in Hk as (? & _ & [= _ <-])]).
  by eapply tlsChains_served.
Qed.

Lemma oldest_attached i route : oldest (routesAt m i) = Some route → attachedAtListener m i route.
Proof. intros [Hin _]%(min_by_spec compareAge). by apply routesAt_attached in Hin. Qed.

Lemma tcpListener_served name port ids i clusters l clusters' :
  validAt m ids → i ∈ ids → allServed m clusters →
  tcpListener name port m i clusters = inl (l, clusters') → allServed m clusters'.
Proof.
  intros Hids Hi Hall. unfold tcpListener. destruct (oldest _) as [route|] eqn:Eo; [|by intros [= _ <-]].
  intros ([f cl] & Hf & [= _ <-])%rbind_inl. apply oldest_attached in Eo. by eapply (tcpProxyFilter_served ids route i).
Qed.

Lemma udpListener_served name port ids i clusters weighted l clusters' weighted' :
  validAt m ids → i ∈ ids → allServed m clusters → allWeighted m weighted →
  udpListener name port m i clusters weighted = inl (l, clusters', weighted') →
  allServed m clusters' ∧ allWeighted m weighted'.
Proof.
  intros Hids Hi Hall Hw. unfold udpListener. destruct (oldest _) as [route|] eqn:Eo; [|by intros [= _ <- <-]].
  apply oldest_attached in Eo. destruct (udpTarget _ _ _) as [[target cl] wt] eqn:Et.
  intros (action & _ & Hk)%rbind_inl. apply rbind_inl in Hk as (proxy & _ & [= _ <- <-]).
  unfold udpTarget in Et. fold (udpName route) in Et.
  destruct (live (backendsOf route)) as [|b [|b' bs]] eqn:El; [by injection Et as _ <- <-| |].
  - destruct (b_Cluster b) as [c|] eqn:Ec; injection Et as _ <- <-; [|done]. split; [|done].
    apply (allServed_add m [c]); [done|]. intros c' ->%list_elem_of_singleton.
    apply (liveClusters_backendsOf ids route i c); [done..|]. unfold liveClusters. rewrite El. simpl. rewrite Ec. by left.
  - injection Et as _ <- <-. split; [done|]. intros k w. rewrite lookup_insert_Some.
    intros [[<- <-]|[_ Hk]]; [|by apply Hw]. exists route, (backendsOf route).
    split_and!; [|done|done|by rewrite El].
    destruct (attached_backendsOf ids route i Hids Hi Eo) as [Hn|]; [|done]. by rewrite Hn in El.
Qed.

Lemma translatePort_served st key st' :
  allServed m (xs_clusters st) → allWeighted m (xs_weighted st) → translatePort m st key = inl st' →
  allServed m (xs_clusters st') ∧ allWeighted m (xs_weighted st').
Proof.
  intros Hall Hw. unfold translatePort.
  assert (validAt m (default [] (byPortOf m !! key))) as Hids by (intros i (l & ? & ? & _)%elem_of_byPort; by exists l).
  destruct (default [] _) as [|first rest]; [by intros [= <-]|].
  destruct (str_eqb _ HTTPProtocolType).
  { destruct (routeConfiguration _ _ _ _) as [config cl] eqn:E. intros (l & _ & [= <-])%rbind_inl. split; [|done]. simpl.
    assert (cl = (routeConfiguration ("http-" +:+ fmt_d (pk_port key)) m (first :: rest) (xs_clusters st)).2) as -> by by rewrite E.
    by apply routeConfiguration_served. }
  destruct (str_eqb _ HTTPSProtocolType).
  { intros ([[chains configs] cl] & Hc & Hk)%rbind_inl. apply rbind_inl in Hk as (l & _ & [= <-]).
    split; [|done]. simpl. by eapply httpsChains_served. }
  destruct (str_eqb _ TLSProtocolType).
  { intros ([l cl] & Hl & [= <-])%rbind_inl. split; [|done]. simpl. by eapply tlsListener_served. }
  destruct (str_eqb _ TCPProtocolType).
  { intros ([l cl] & Hl & [= <-])%rbind_inl. split; [|done]. simpl. eapply (tcpListener_served _ _ (first :: rest)); [done|by left|done|done]. }
  destruct (str_eqb _ UDPProtocolType); [|by intros [= <-]].
  intros ([[l cl] wt] & Hl & [= <-])%rbind_inl. simpl. eapply (udpListener_served _ _ (first :: rest)); [done|by left|done|done|done].
Qed.

Lemma translatePorts_served st ports st' :
  allServed m (xs_clusters st) → allWeighted m (xs_weighted st) → translatePorts m st ports = inl st' →
  allServed m (xs_clusters st') ∧ allWeighted m (xs_weighted st').
Proof.
  revert st. induction ports as [|key ports IH]; intros st Hall Hw; cbn [translatePorts]; [by intros [= <-]|].
  intros (st1 & [Hall1 Hw1]%translatePort_served & Hk)%rbind_inl; [|done|done]. by eapply IH.
Qed.
End provenance.

(** ** What Envoy may reach *)

(** A route that is entitled to a cluster: it is attached to a valid listener
    of the Gateway, and a backendRef of it that takes traffic resolves to the
    cluster. *)
Definition entitled `{X509, LabelSelectors} (gw : Gateway) (routes : list Route) (refs : References)
    (route : Route) (c : Cluster) : Prop :=
  ∃ rule ref i l, route ∈ routes ∧ Listeners gw (Some refs) !! i = Some l ∧ l_Valid l = true ∧
    attachedAt gw refs (Listeners gw (Some refs)) i route = true ∧
    rule ∈ r_Rules route ∧ ref ∈ ru_Backends rule ∧ (0 < default 1 (br_Weight ref))%Z ∧
    resolvesTo route rule ref refs c.

Lemma served_entitled `{X509, LabelSelectors} gw routes refs c :
  served (Build gw routes (Some refs)) c → ∃ route, entitled gw routes refs route c.
Proof.
  rewrite Build_eq. unfold served, attachedBackends. simpl.
  intros (at_ & bs & (Hbs & i & l & Hl & Hv & Hr & Hh) & (b & [Hw Hb]%list_elem_of_filter & Hc)%list_elem_of_omap).
  simpl in Hr. apply list_elem_of_fmap in Hr as (route & -> & [_ Hin]%list_elem_of_filter).
  pose proof (attachedAt_spec gw refs (Listeners gw (Some refs)) i route) as Hat.
  unfold attachRoute in *. rewrite resolveBackends_eq in *. simpl in *.
  apply list_elem_of_fmap in Hbs as (rule & -> & Hrule).
  apply list_elem_of_fmap in Hb as (ref & -> & Href). simpl in *.
  destruct (resolveBackend route rule ref refs) as [c'|] eqn:E; [|done]. injection Hc as ->.
  exists route, rule, ref, i, l. split_and!; [done..| |done|done|done|by apply resolveBackend_inl].
  rewrite Hat. apply bool_decide_eq_true, elem_of_attachedListeners.
  unfold hostsAt in Hh. simpl in Hh. destruct (_ ≫= _) as [|h hs] eqn:Eh; [done|].
  assert (h ∈ h :: hs) as Hin' by by left. rewrite <- Eh in Hin'.
  apply list_elem_of_bind in Hin' as (parent & Hp & Hpin). exists parent. split; [done|].
  destruct (pa_Hostnames parent !! i) eqn:Ep; [by eexists|by apply elem_of_nil in Hp].
Qed.

Definition addressesOf (cla : ClusterLoadAssignment) : list SocketAddress := cla_Endpoints cla ≫= lle_LbEndpoints.

(** The addresses of a cluster's ready endpoints. *)
Definition clusterSockets (c : Cluster) (refs : option References) : list SocketAddress :=
  (λ a, socketAddress a.1 (uint32 a.2)) <$> clusterAddresses c refs.

Lemma addressesOf_cluster c refs : addressesOf (clusterEndpoints c refs) = clusterSockets c refs.
Proof. unfold addressesOf. simpl. by rewrite app_nil_r. Qed.

Section endpoints.
Context `{Anypb, MapOrder} (m : Model) (refs : option References).

Lemma emitClusters_endpoints clusters names cs endpoints cla :
  emitClusters clusters refs names = inl (cs, endpoints) → cla ∈ endpoints →
  ∃ k c, clusters !! k = Some c ∧ cla = clusterEndpoints c refs.
Proof.
  revert cs endpoints. induction names as [|n names IH]; intros cs endpoints; cbn [emitClusters].
  { intros [= _ <-] Hin. by apply elem_of_nil in Hin. }
  destruct (clusters !! n) as [c|] eqn:E; [|by apply IH].
  intros (out & _ & Hk)%rbind_inl. apply rbind_inl in Hk as ([outs eps] & Hr & [= _ <-]).
  intros [->|Hin]%elem_of_cons; [by exists n, c|by eapply IH].
Qed.

Lemma emitWeighted_endpoints weighted cla a :
  allWeighted m weighted → cla ∈ (emitWeighted weighted refs).*2 → a ∈ addressesOf cla →
  ∃ c, served m c ∧ a ∈ clusterSockets c refs.
Proof.
  intros Hw ((ec & cla') & -> & (n & _ & Hn)%list_elem_of_omap)%list_elem_of_fmap Ha. simpl in Ha.
  apply fmap_Some in Hn as (w & Hn & [= _ ->]). apply Hw in Hn as (route & bs & Hb & _ & _ & Hbs).
  apply list_elem_of_bind in Ha as (lle & Ha & Hin). simpl in Hin.
  apply elem_of_lookup_imap in Hin as (i & b & -> & Hib). simpl in Ha.
  destruct (b_Cluster b) as [c|] eqn:Ec; [|by apply elem_of_nil in Ha]. exists c. split.
  - exists route, bs. split; [done|]. apply list_elem_of_omap. exists b. split; [|done].
    rewrite <- Hbs. by eapply list_elem_of_lookup_2.
  - rewrite <- addressesOf_cluster. exact Ha.
Qed.

(** Every address a snapshot has is one of a cluster that is served. *)
Lemma translate_endpoints resources cla a :
  translate m refs = inl resources → cla ∈ rs_Endpoints resources → a ∈ addressesOf cla →
  ∃ c, served m c ∧ a ∈ clusterSockets c refs.
Proof.
  unfold translate. intros (st & Hst & Hk)%rbind_inl.
  apply translatePorts_served in Hst as [Hall Hw]; [|intros k c; simpl; by rewrite lookup_empty..].
  apply rbind_inl in Hk as ([cs eps] & He & [= <-]). simpl. intros [Hin|Hin]%elem_of_app Ha.
  - by eapply emitWeighted_endpoints.
  - destruct (emitClusters_endpoints _ _ _ _ _ He Hin) as (k & c & Hc & ->). exists c.
    split; [by eapply Hall|]. by rewrite <- addressesOf_cluster.
Qed.
End endpoints.

(** C3. Envoy is told of no address but those its routes are entitled to: an
    address among the endpoints it is served is, at the right port, that of a
    ready endpoint of a Service that a backendRef names, of a route that is
    attached to a valid listener of the Gateway; and the Service is in the
    route's own namespace, or a ReferenceGrant of its namespace lets routes of
    that kind, of that namespace, refer to it. *)
Theorem endpoints_permitted `{X509, LabelSelectors, Anypb, MapOrder} gw routes refs resources cla a :
  translate (Build gw routes (Some refs)) (Some refs) = inl resources →
  cla ∈ rs_Endpoints resources → a ∈ addressesOf cla →
  ∃ route c, entitled gw routes refs route c ∧
    (∃ ip port slice ep, a = socketAddress ip (uint32 port) ∧ slice ∈ default [] (Endpoints refs !! cl_Service c) ∧
       slicePort (sp_Name (cl_Port c)) (es_Ports slice) = Some port ∧
       ep ∈ es_Endpoints slice ∧ e_Ready ep ≠ Some false ∧ ip ∈ e_Addresses ep) ∧
    (r_Namespace route = nn_Namespace (cl_Service c) ∨
     granted (Grants refs) (r_Kind route) (r_Namespace route) ServiceKind
       (nn_Namespace (cl_Service c)) (nn_Name (cl_Service c))).
Proof.
  intros Ht Hcla Ha. destruct (translate_endpoints _ _ _ _ _ Ht Hcla Ha) as (c & Hs & Hc).
  apply served_entitled in Hs as [route Hs]. exists route, c. split; [done|]. split.
  - apply list_elem_of_fmap in Hc as ([ip port] & -> & Hin).
    apply (clusterEndpoints_spec c refs) in Hin as (slice & ep & Hsl & _ & Hp & Hep & Hr & Hip).
    by exists ip, port, slice, ep.
  - destruct Hs as (rule & ref & i & l & _ & _ & _ & _ & _ & _ & _ & (_ & _ & Hperm & svc & p & _ & _ & _ & _ & Hk & _)).
    rewrite Hk. by apply Permitted_iff.
Qed.

(** ** Names *)

Definition dash : Ascii.ascii := Ascii.ascii_of_nat 45.

(** The prefixes of the names, by transport. *)
Definition prefixes : list (string * Protocol) :=
  [("http", SocketAddress_TCP); ("https", SocketAddress_TCP); ("tls", SocketAddress_TCP);
   ("tcp", SocketAddress_TCP); ("udp", SocketAddress_UDP)].

(** The names a port's listener, and its route configurations, may have. *)
Definition listenerNameOf (key : portKey) (n : string) : Prop :=
  ∃ p, (p, pk_transport key) ∈ prefixes ∧ n = p +:+ String dash (fmt_d (pk_port key)).

Definition routeNameOf (key : portKey) (n : string) : Prop :=
  pk_transport key = SocketAddress_TCP ∧
  (n = "http" +:+ String dash (fmt_d (pk_port key)) ∨
   ∃ l, n = "https" +:+ String dash (fmt_d (pk_port key) +:+ String dash l)).

Lemma prefixes_plain p t : (p, t) ∈ prefixes → lacks dash p = true.
Proof.
  assert (Forall (λ pt, lacks dash pt.1 = true) prefixes) as Hall by (repeat constructor).
  by intros Hp%(proj1 (Forall_forall _ _) Hall).
Qed.

Lemma prefixes_transport p t t' : (p, t) ∈ prefixes → (p, t') ∈ prefixes → t = t'.
Proof.
  assert (Forall (λ a, Forall (λ b, a.1 = b.1 → a.2 = b.2) prefixes) prefixes) as Hall
    by (repeat constructor; discriminate).
  intros Ha Hb. pose proof (proj1 (Forall_forall _ _) Hall _ Ha) as Hall'.
  by apply (proj1 (Forall_forall _ _) Hall' _ Hb).
Qed.

(** A name is that of one port. *)
Lemma listenerNameOf_inj k k' n : listenerNameOf k n → listenerNameOf k' n → k = k'.
Proof.
  intros (p & Hp & ->) (p' & Hp' & Heq).
  apply lacks_cut in Heq as [<- Heq]; [|by eapply prefixes_plain..].
  assert (pk_port k = pk_port k') by by apply (inj pretty).
  pose proof (prefixes_transport _ _ _ Hp Hp'). destruct k, k'; simpl in *. congruence.
Qed.

Lemma routeNameOf_inj k k' n :
  (0 ≤ pk_port k)%Z → (0 ≤ pk_port k')%Z → routeNameOf k n → routeNameOf k' n → k = k'.
Proof.
  intros Hk Hk' [Ht Hn] [Ht' Hn'].
  assert (pk_port k = pk_port k') as Hp; [|destruct k, k'; simpl in *; congruence].
  destruct Hn as [->|(l & ->)], Hn' as [Heq|(l' & Heq)]; apply lacks_cut in Heq as [Hpre Heq]; try done.
  - by apply (inj pretty).
  - apply lacks_cut in Heq as [Hd _]; [by apply (inj pretty)|by apply lacks_fmt_d_nonneg..].
Qed.

Lemma groupFold_ids ils byPort key :
  default [] (foldl groupListener byPort ils !! key) =
  default [] (byPort !! key) ++ (filter (λ il, l_Valid il.2 = true ∧ keyOf il.2 = key) ils).*1.
Proof.
  revert byPort. induction ils as [|[i l] ils IH]; intros byPort; cbn [foldl]; [by rewrite app_nil_r|].
  rewrite IH, filter_cons. unfold groupListener.
  destruct (decide _) as [[Hv Hk]|Hne]; simpl in *.
  - rewrite Hv, <- Hk, lookup_insert_eq. simpl. by rewrite <- app_assoc.
  - destruct (l_Valid l) eqn:Hv; [|done]. rewrite lookup_insert_ne; [done|]. intros Hk. by apply Hne.
Qed.

Lemma NoDup_byPort m key : NoDup (default [] (byPortOf m !! key)).
Proof.
  unfold byPortOf. rewrite groupFold_ids, lookup_empty. simpl.
  eapply sublist_NoDup; [|apply fmap_sublist, sublist_filter].
  apply NoDup_alt. intros i j x. rewrite !list_lookup_fmap, !list_lookup_imap.
  by intros (p & (l & _ & ->)%fmap_Some_1 & ->)%fmap_Some_1 (q & (l' & _ & ->)%fmap_Some_1 & ?)%fmap_Some_1.
Qed.

(** What a port adds, by name. *)
Definition adds (key : portKey) (st st' : TranslateState) : Prop :=
  ∃ ol configs, xs_Listeners st' = xs_Listeners st ++ option_list ol ∧ xs_Routes st' = xs_Routes st ++ configs ∧
    (∀ l, ol = Some l → listenerNameOf key (el_Name l)) ∧
    NoDup (rc_Name <$> configs) ∧ (∀ n, n ∈ rc_Name <$> configs → routeNameOf key n).

Lemma adds_emit p key st ol configs cl wt :
  (p, pk_transport key) ∈ prefixes → (∀ l, ol = Some l → el_Name l = p +:+ "-" +:+ fmt_d (pk_port key)) →
  NoDup (rc_Name <$> configs) → (∀ n, n ∈ rc_Name <$> configs → routeNameOf key n) →
  adds key st (emit st ol configs cl wt).
Proof.
  intros Hp Hl Hnd Hr. exists ol, configs. split_and!; [done|done| |done|done]. intros l ->. exists p. split; [done|by apply Hl].
Qed.

Lemma adds_layer4 p key st ol cl wt :
  (p, pk_transport key) ∈ prefixes → (∀ l, ol = Some l → el_Name l = p +:+ "-" +:+ fmt_d (pk_port key)) →
  adds key st (emit st ol [] cl wt).
Proof. intros Hp Hl. apply (adds_emit p); [done|done|constructor|set_solver]. Qed.

Lemma adds_nothing key st : adds key st st.
Proof. exists None, []. rewrite !app_nil_r. split_and!; [done|done|done|constructor|set_solver]. Qed.

(** What is there by name, of some ports. *)
Record apart (keys : list portKey) (st : TranslateState) : Prop := {
  apart_listeners : NoDup (el_Name <$> xs_Listeners st);
  apart_listener l : l ∈ xs_Listeners st → ∃ k, k ∈ keys ∧ listenerNameOf k (el_Name l);
  apart_routes : NoDup (rc_Name <$> xs_Routes st);
  apart_route n : n ∈ rc_Name <$> xs_Routes st → ∃ k, k ∈ keys ∧ routeNameOf k n;
}.

Lemma apart_nothing keys : apart keys {| xs_Listeners := []; xs_Routes := []; xs_clusters := ∅; xs_weighted := ∅ |}.
Proof. split; simpl; [constructor|set_solver|constructor|set_solver]. Qed.

Lemma apart_adds keys key st st' :
  apart keys st → adds key st st' → key ∉ keys → (∀ k, k ∈ key :: keys → (0 ≤ pk_port k)%Z) → apart (key :: keys) st'.
Proof.
  intros [Hnl Hl Hnr Hr] (ol & configs & Hls & Hrs & Hol & Hnd & Hc) Hkey Hpos.
  assert (∀ l, l ∈ option_list ol → ol = Some l) as Hopt by (destruct ol; simpl; [intros l ->%list_elem_of_singleton|intros l Hin%elem_of_nil]; done).
  split; rewrite ?Hls, ?Hrs, ?fmap_app.
  - apply NoDup_app. split_and!; [done| |by destruct ol; [apply NoDup_singleton|constructor]].
    intros n (l & -> & Hin)%list_elem_of_fmap (l' & Heq & Hin'%Hopt%Hol)%list_elem_of_fmap.
    destruct (Hl l Hin) as (k & Hk & Hn). rewrite Heq in Hn. by rewrite (listenerNameOf_inj _ _ _ Hn Hin') in Hk.
  - intros l [(k & Hk & Hn)%Hl|Hin%Hopt%Hol]%elem_of_app; [exists k; split; [by right|done]|].
    exists key. split; [by left|done].
  - apply NoDup_app. split_and!; [done| |done].
    intros n (k & Hk & Hn)%Hr Hn'%Hc. rewrite (routeNameOf_inj k key n) in Hk; [done|apply Hpos; by right|apply Hpos; by left|done|done].
  - intros n [(k & Hk & Hn)%Hr|Hn%Hc]%elem_of_app; [exists k; split; [by right|done]|]. exists key. split; [by left|done].
Qed.

Section names.
Context `{Anypb, MapOrder} (m : Model).
Hypothesis distinct : NoDup (l_Name <$> md_Listeners m).

Lemma sniListener_name name port chains l : sniListener name port chains = inl l → el_Name l = name.
Proof. unfold sniListener. by intros (msg & _ & [= <-])%rbind_inl. Qed.

Lemma httpListener_name name port l : httpListener name port = inl l → el_Name l = name.
Proof. unfold httpListener. by intros (msg & _ & [= <-])%rbind_inl. Qed.

Lemma tlsListener_name name port ids cl l cl' : tlsListener name port m ids cl = inl (Some l, cl') → el_Name l = name.
Proof.
  unfold tlsListener. intros ([chains cl1] & _ & Hk)%rbind_inl.
  destruct chains; [done|]. by apply rbind_inl in Hk as (l' & Hl%sniListener_name & [= <- _]).
Qed.

Lemma tcpListener_name name port i cl l cl' : tcpListener name port m i cl = inl (Some l, cl') → el_Name l = name.
Proof. unfold tcpListener. destruct (oldest _); [|done]. by intros ([f cl1] & _ & [= <- _])%rbind_inl. Qed.

Lemma udpListener_name name port i cl wt l cl' wt' :
  udpListener name port m i cl wt = inl (Some l, cl', wt') → el_Name l = name.
Proof.
  unfold udpListener. destruct (oldest _); [|done]. destruct (udpTarget _ _ _) as [[t cl1] wt1].
  intros (action & _ & Hk)%rbind_inl. by apply rbind_inl in Hk as (p & _ & [= <- _ _]).
Qed.

Lemma httpsChains_names name ids clusters chains configs clusters' :
  httpsChains name m ids clusters = inl (chains, configs, clusters') →
  rc_Name <$> configs = (λ l, name +:+ "-" +:+ l_Name l) <$> omap (λ i, md_Listeners m !! i) ids.
Proof.
  revert clusters chains configs clusters'.
  induction ids as [|i ids IH]; intros clusters chains configs clusters'; cbn [httpsChains omap list_omap]; [by intros [= _ <- _]|].
  destruct (md_Listeners m !! i) as [l|]; [|by apply IH].
  destruct (routeConfiguration _ _ _ _) as [config cl] eqn:E. apply routeConfiguration_grows in E as [Hn _].
  intros (chain & _ & Hk)%rbind_inl. apply rbind_inl in Hk as ([[chains' configs'] cl'] & Hr%IH & [= _ <- _]).
  rewrite !fmap_cons, Hn. by rewrite Hr.
Qed.

(** The names of the listeners of some indexes. *)
Lemma NoDup_names ids : NoDup ids → NoDup (l_Name <$> omap (λ i, md_Listeners m !! i) ids).
Proof.
  induction 1 as [|i ids Hi Hnd IH]; [constructor|]. cbn [omap list_omap].
  destruct (md_Listeners m !! i) as [l|] eqn:El; [|done]. rewrite fmap_cons. constructor; [|done].
  intros (l' & Heq & (j & Hj & Hl')%list_elem_of_omap)%list_elem_of_fmap.
  assert (i = j) as ->; [|done].
  eapply NoDup_lookup; [exact distinct| |]; rewrite list_lookup_fmap, ?El, ?Hl'; simpl; [done|by rewrite Heq].
Qed.

Lemma translatePort_names st key st' : translatePort m st key = inl st' → adds key st st'.
Proof.
  unfold translatePort. pose proof (NoDup_byPort m key) as Hnd. pose proof (elem_of_byPort m key) as Hids.
  destruct (default [] _) as [|first rest]; [intros [= <-]; apply adds_nothing|].
  destruct (proj1 (Hids first)) as (l0 & Hl0 & _ & Hkey); [by left|]. rewrite Hl0. cbn [from_option].
  assert (∀ P, str_eqb (l_Protocol l0) P = true → P ≠ UDPProtocolType → pk_transport key = SocketAddress_TCP) as Htcp.
  { intros P HP%str_eqb_eq Hne. rewrite <- Hkey. unfold keyOf. by rewrite (proj2 (str_eqb_neq (l_Protocol l0) _)) by congruence. }
  destruct (str_eqb (l_Protocol l0) HTTPProtocolType) eqn:E1.
  { destruct (routeConfiguration _ _ _ _) as [config cl] eqn:E. apply routeConfiguration_grows in E as [Hn _].
    apply Htcp in E1; [|done]. intros (l & Hl%httpListener_name & [= <-])%rbind_inl.
    apply (adds_emit "http"); [rewrite E1; set_solver|by intros ? [= <-]|apply NoDup_singleton|].
    intros n ->%list_elem_of_singleton. split; [done|]. left. by rewrite Hn. }
  destruct (str_eqb (l_Protocol l0) HTTPSProtocolType) eqn:E2.
  { apply Htcp in E2; [|done]. intros ([[chains configs] cl] & Hc%httpsChains_names & Hk)%rbind_inl.
    apply rbind_inl in Hk as (l & Hl%sniListener_name & [= <-]).
    apply (adds_emit "https"); [rewrite E2; set_solver|by intros ? [= <-]| |]; rewrite Hc.
    - change (NoDup ((λ n, ("https-" +:+ fmt_d (pk_port key)) +:+ "-" +:+ n) ∘ l_Name <$> omap (λ i, md_Listeners m !! i) (first :: rest))).
      rewrite list_fmap_compose. apply NoDup_fmap_2; [|by apply NoDup_names].
      intros n1 n2 Heq. apply (inj _) in Heq. by injection Heq.
    - intros n (l' & -> & _)%list_elem_of_fmap. split; [done|]. right. by exists (l_Name l'). }
  destruct (str_eqb (l_Protocol l0) TLSProtocolType) eqn:E3.
  { apply Htcp in E3; [|done]. intros ([l cl] & Hl & [= <-])%rbind_inl.
    apply (adds_layer4 "tls"); [rewrite E3; set_solver|]. intros l' ->. by eapply tlsListener_name. }
  destruct (str_eqb (l_Protocol l0) TCPProtocolType) eqn:E4.
  { apply Htcp in E4; [|done]. intros ([l cl] & Hl & [= <-])%rbind_inl.
    apply (adds_layer4 "tcp"); [rewrite E4; set_solver|]. intros l' ->. by eapply tcpListener_name. }
  destruct (str_eqb (l_Protocol l0) UDPProtocolType) eqn:E5; [|intros [= <-]; apply adds_nothing].
  intros ([[l cl] wt] & Hl & [= <-])%rbind_inl.
  apply (adds_layer4 "udp"); [rewrite <- Hkey; unfold keyOf; rewrite E5; set_solver|]. intros l' ->. by eapply udpListener_name.
Qed.

Lemma translatePorts_names done_ st ports' st' :
  apart done_ st → NoDup (done_ ++ ports') → (∀ k, k ∈ done_ ++ ports' → (0 ≤ pk_port k)%Z) →
  translatePorts m st ports' = inl st' → ∃ keys, apart keys st'.
Proof.
  revert done_ st. induction ports' as [|key ports' IH]; intros done_ st Hst Hnd Hpos; cbn [translatePorts].
  { intros [= <-]. by exists done_. }
  assert (done_ ++ key :: ports' ≡ₚ (key :: done_) ++ ports') as Hp by (simpl; by rewrite Permutation_middle).
  intros (st1 & Hadd%translatePort_names & Hk)%rbind_inl. apply (IH (key :: done_) st1); [|by rewrite <- Hp| |done].
  - apply (apart_adds done_ key st); [done|done| |].
    + intros Hin. apply NoDup_app in Hnd as (_ & Hn & _). apply (Hn key Hin). by left.
    + intros k Hk'. apply Hpos. rewrite Hp. apply elem_of_app. by left.
  - intros k Hk'. apply Hpos. by rewrite Hp.
Qed.
End names.

Lemma NoDup_portsOf m : NoDup (portsOf m).
Proof. apply NoDup_sort_by, NoDup_fst_map_to_list. Qed.

Lemma portsOf_nonneg m : (∀ l, l ∈ md_Listeners m → (0 ≤ l_Port l)%Z) → ∀ k, k ∈ portsOf m → (0 ≤ pk_port k)%Z.
Proof.
  intros Hports k Hk. unfold portsOf in Hk. rewrite elem_of_sort_by in Hk.
  apply list_elem_of_fmap in Hk as ([k' ids] & -> & Hids%elem_of_map_to_list). simpl.
  destruct (byPortOf_spec _ _ _ Hids) as [Hne Hin]. destruct ids as [|i ids]; [done|].
  destruct (Hin i) as (l & Hl & _ & <-); [by left|].
  unfold keyOf. case_match; simpl; by eapply Hports, list_elem_of_lookup_2.
Qed.

Lemma translate_resource_names `{Anypb, MapOrder} m refs resources :
  NoDup (l_Name <$> md_Listeners m) → (∀ l, l ∈ md_Listeners m → (0 ≤ l_Port l)%Z) →
  (∀ route c, served m c → cl_Name c ≠ udpName route) →
  translate m refs = inl resources →
  NoDup (el_Name <$> rs_Listeners resources) ∧ NoDup (rc_Name <$> rs_Routes resources) ∧
  NoDup (ec_Name <$> rs_Clusters resources) ∧ NoDup (cla_ClusterName <$> rs_Endpoints resources).
Proof.
  intros Hdist Hports Hudp. unfold translate. intros (st & Hst & Hk)%rbind_inl.
  apply rbind_inl in Hk as ([cs eps] & He & [= <-]). cbn [rs_Listeners rs_Routes rs_Clusters rs_Endpoints].
  pose proof Hst as [Hall Hw]%translatePorts_served; [|intros k c; simpl; by rewrite lookup_empty..].
  pose proof Hst as (Hn & Hnw & _)%translatePorts_closed; [|split_and!; [intros k c; simpl; by rewrite lookup_empty..|set_solver|done]].
  destruct (translatePorts_names m Hdist [] _ _ _ (apart_nothing []) (NoDup_portsOf m) (portsOf_nonneg m Hports) Hst)
    as (keys & [Hl _ Hr _]).
  apply emitClusters_names in He as [H1 H2]; [|done|intros n; apply elem_of_sortedKeys].
  destruct (emitWeighted_names (xs_weighted st) refs Hnw) as [H3 H4].
  rewrite !fmap_app, H1, H2, H3, H4. split; [done|]. split; [done|].
  assert (NoDup (sortedKeys (xs_weighted st) ++ sortedKeys (xs_clusters st))) as Hnd; [|done].
  apply NoDup_app. split_and!; [apply NoDup_sortedKeys| |apply NoDup_sortedKeys].
  intros n [w Hwn]%elem_of_sortedKeys [c Hcn]%elem_of_sortedKeys.
  destruct (Hw _ _ Hwn) as (route & bs & _ & Hname & _).
  apply (Hudp route c); [by eapply Hall|]. by rewrite (Hn _ _ Hcn).
Qed.

(** A Service's cluster is not named as a UDP route's, unless its namespace is
    called [udp]. *)
Lemma cluster_not_udp route rule ref refs c r :
  resolvesTo route rule ref refs c → plainKey (cl_Service c) = true → nn_Namespace (cl_Service c) ≠ "udp" →
  cl_Name c ≠ udpName r.
Proof.
  intros (_ & _ & _ & svc & p & _ & _ & _ & _ & _ & _ & Hn) [Hp _]%andb_true_iff Hne Heq. rewrite Hn in Heq.
  change (nn_Namespace (cl_Service c) +:+ String slash (nn_Name (cl_Service c) +:+ "/" +:+ fmt_d (sp_Port (cl_Port c))
      +:+ (if cl_H2 c then "/h2" else "")) =
    "udp" +:+ String slash (r_Namespace (at_Route r) +:+ "/" +:+ r_Name (at_Route r))) in Heq.
  by apply lacks_cut in Heq as [Hns _].
Qed.

(** C9. Within its type, a resource a Gateway's Envoy is served has a name no
    other has, so that the cache, which keeps one resource per name, and Envoy
    drop none: listeners are named by protocol and port, route configurations
    by port, or by port and listener where each has its own, and clusters by
    the Service's port and protocol or by the UDP route that spreads over them.
    The Gateway API makes the names of a Gateway's listeners distinct and has
    ports between 1 and 65535; and no Service is in a namespace called [udp]. *)
Theorem snapshot_names `{X509, LabelSelectors, Anypb, MapOrder} gw routes refs resources :
  NoDup (ls_Name <$> gw_Listeners gw) → (∀ ls, ls ∈ gw_Listeners gw → (1 ≤ ls_Port ls ≤ 65535)%Z) →
  (∀ k, is_Some (Services refs !! k) → plainKey k = true ∧ nn_Namespace k ≠ "udp") →
  translate (Build gw routes (Some refs)) (Some refs) = inl resources →
  NoDup (el_Name <$> rs_Listeners resources) ∧ NoDup (rc_Name <$> rs_Routes resources) ∧
  NoDup (ec_Name <$> rs_Clusters resources) ∧ NoDup (cla_ClusterName <$> rs_Endpoints resources).
Proof.
  intros Hdist Hports Hsvc. assert (md_Listeners (Build gw routes (Some refs)) = Listeners gw (Some refs)) as Hm by by rewrite Build_eq.
  apply translate_resource_names; rewrite ?Hm.
  - apply NoDup_alt. intros i j x. rewrite !list_lookup_fmap.
    intros (l & Hl%listener_valid & ->)%fmap_Some_1 (l' & Hl'%listener_valid & Heq)%fmap_Some_1.
    eapply NoDup_lookup; [exact Hdist| |]; rewrite list_lookup_fmap.
    + by rewrite (proj1 Hl).
    + rewrite (proj1 Hl'). exact (f_equal Some (eq_sym Heq)).
  - intros l [i [Hl _]%listener_valid]%list_elem_of_lookup. unfold l_Port. pose proof (Hports _ (list_elem_of_lookup_2 _ _ _ Hl)). lia.
  - intros r c (route & rule & ref & i & l & _ & _ & _ & _ & _ & _ & _ & Hres)%served_entitled.
    assert (is_Some (Services refs !! cl_Service c)) as Hs.
    { destruct Hres as (_ & _ & _ & svc & p & Hs & _ & _ & _ & Hk & _). rewrite Hk. by exists svc. }
    apply Hsvc in Hs as [Hp Hne]. by eapply cluster_not_udp.
Qed.

(** ** Examples *)

(** Two Services with endpoints, and a grant for routes of the Gateway's
    namespace to use those of another. *)
Definition snapshotSlice (address : string) : EndpointSlice :=
  {| es_AddressType := "IPv4"; es_Ports := [{| ep_Name := Some "http"; ep_Port := Some 8080%Z |}];
     es_Endpoints := [{| e_Addresses := [address]; e_Ready := Some true |}] |}.

Definition snapshotGrant (ns kind : string) : ReferenceGrant :=
  {| rg_Namespace := ns;
     rg_From := [{| rgf_Group := GatewayGroupName; rgf_Kind := kind; rgf_Namespace := "infra" |}];
     rg_To := [{| rgt_Group := ""; rgt_Kind := "Service"; rgt_Name := None |}] |}.

Definition snapshotRefs (ns : string) : References :=
  {| Namespaces := ∅; Grants := [snapshotGrant ns "HTTPRoute"];
     Services := <[{| nn_Namespace := "infra"; nn_Name := "web" |} :=
         sampleService "infra" "web" [sampleServicePort "http" "TCP" 80 8080; sampleServicePort "admin" "TCP" 81 8081]]>
       (<[{| nn_Namespace := ns; nn_Name := "infra" |} :=
         sampleService ns "infra" [sampleServicePort "http" "TCP" 80 8080]]> ∅);
     Endpoints := <[{| nn_Namespace := "infra"; nn_Name := "web" |} := [snapshotSlice "10.0.0.1"]]>
       (<[{| nn_Namespace := ns; nn_Name := "infra" |} := [snapshotSlice "10.0.0.2"]]> ∅);
     Secrets := ∅; Unreadable := ∅; WarpRouting := true |}.

Definition snapshotGateway : Gateway :=
  sampleGateway "infra" "gw" [sampleListener "http" "HTTP" 80 None; sampleListener "dns" "UDP" 53 None].

(** An HTTPRoute to the granted Service, and a UDPRoute that spreads over two
    backends of its own namespace. *)
Definition snapshotRoutes (ns : string) : list Route :=
  [sampleRoute "infra" "app" ["a.example.com"]
     [sampleRule [{| br_Group := None; br_Kind := None; br_Name := "infra"; br_Namespace := Some ns;
                     br_Port := Some 80%Z; br_Weight := None |}]];
   {| r_Kind := UDPRouteKind; r_ObjectMeta := sampleMeta "infra" "80"; r_ParentRefs := [sampleParent "gw"];
      r_Hostnames := []; r_Rules := [backendsRule [sampleBackendRef "web" 80; sampleBackendRef "web" 81]] |}].

Definition noResources : Resources := {| rs_Listeners := []; rs_Routes := []; rs_Clusters := []; rs_Endpoints := [] |}.

Definition snapshotOf (ns : string) : Resources :=
  match @translate sampleAnypb sampleOrder
    (@Build sampleX509 sampleSelectors snapshotGateway (snapshotRoutes ns) (Some (snapshotRefs ns))) (Some (snapshotRefs ns)) with
  | inl r => r
  | inr _ => noResources
  end.

Lemma snapshotOf_translated ns (Hns : ns ∈ ["shop"; "udp"]) :
  @translate sampleAnypb sampleOrder
    (@Build sampleX509 sampleSelectors snapshotGateway (snapshotRoutes ns) (Some (snapshotRefs ns)))
    (Some (snapshotRefs ns)) = inl (snapshotOf ns).
Proof. apply elem_of_cons in Hns as [->|Hns]; [by vm_compute|]. apply list_elem_of_singleton in Hns as ->. by vm_compute. Qed.

Example snapshot_clusters : ec_Name <$> rs_Clusters (snapshotOf "shop") = ["udp/infra/80"; "shop/infra/80"].
Proof. by vm_compute. Qed.

(** The cluster of a Service of a namespace called [udp] may have the name of a
    UDP route's: one of the two is dropped. *)
Example udp_cluster_shadowed :
  ec_Name <$> rs_Clusters (snapshotOf "udp") = ["udp/infra/80"; "udp/infra/80"] ∧
  (addressesOf <$> rs_Endpoints (snapshotOf "udp")) =
    [[socketAddress "10.0.0.1" 8080]; [socketAddress "10.0.0.2" 8080]].
Proof. by vm_compute. Qed.

Lemma endpoints_permitted_witness :
  ∃ cla a, cla ∈ rs_Endpoints (snapshotOf "shop") ∧ a ∈ addressesOf cla ∧ sa_Address a = "10.0.0.2" ∧
    ∃ route c, @entitled sampleX509 sampleSelectors snapshotGateway (snapshotRoutes "shop") (snapshotRefs "shop") route c.
Proof.
  assert (∃ cla a, cla ∈ rs_Endpoints (snapshotOf "shop") ∧ a ∈ addressesOf cla ∧ sa_Address a = "10.0.0.2")
    as (cla & a & Hcla & Ha & Haddr).
  { exists (default {| cla_ClusterName := ""; cla_Endpoints := [] |} (rs_Endpoints (snapshotOf "shop") !! 1)), (socketAddress "10.0.0.2" 8080).
    split; [apply (list_elem_of_lookup_2 _ 1); by vm_compute|]. split; [|reflexivity].
    apply (list_elem_of_lookup_2 _ 0). by vm_compute. }
  exists cla, a. split; [exact Hcla|]. split; [exact Ha|]. split; [exact Haddr|].
  destruct (@endpoints_permitted sampleX509 sampleSelectors sampleAnypb sampleOrder snapshotGateway (snapshotRoutes "shop")
    (snapshotRefs "shop") (snapshotOf "shop") cla a (snapshotOf_translated "shop" ltac:(by left)) Hcla Ha) as (route & c & He & _).
  exists route, c. exact He.
Defined.

Lemma snapshot_names_witness :
  NoDup (el_Name <$> rs_Listeners (snapshotOf "shop")) ∧ (el_Name <$> rs_Listeners (snapshotOf "shop")) = ["udp-53"; "http-80"] ∧
  NoDup (ec_Name <$> rs_Clusters (snapshotOf "shop")).
Proof.
  destruct (@snapshot_names sampleX509 sampleSelectors sampleAnypb sampleOrder snapshotGateway (snapshotRoutes "shop")
    (snapshotRefs "shop") (snapshotOf "shop")) as (Hl & _ & Hc & _).
  - apply (bool_decide_eq_true_1 (NoDup (ls_Name <$> gw_Listeners snapshotGateway))). by vm_compute.
  - apply (proj1 (Forall_forall (λ ls, (1 ≤ ls_Port ls ≤ 65535)%Z) _)). repeat constructor; discriminate.
  - intros k [s Hs]. unfold snapshotRefs in Hs. simpl in Hs.
    rewrite lookup_insert_Some in Hs. destruct Hs as [[<- _]|[_ Hs]]; [by vm_compute|].
    rewrite lookup_insert_Some in Hs. destruct Hs as [[<- _]|[_ Hs]]; [by vm_compute|].
    by rewrite lookup_empty in Hs.
  - exact (snapshotOf_translated "shop" ltac:(by left)).
  - split; [exact Hl|]. split; [by vm_compute|exact Hc].
Defined.
