(* ===== verification/Effects.v ===== *)
(** * Errors and effectful programs (internal/client/errors.go)

    The errors the Cloudflare and Kubernetes clients report, the predicates the
    controllers classify them with, and the programs the controllers are
    modelled as: a controller issues requests to the two APIs one after another
    and continues with the answer, which is arbitrary. A property of a controller
    is one of every sequence of answers. *)
From S2P Require Import Prelude.

(** An error: its text; the status code of the Cloudflare API error in its
    chain, if there is one; and the reason of the Kubernetes API error in its
    chain, if there is one. [fmt.Errorf] with %w and [errors.Join] keep both.
    [K8sNoMatch] is the error of a kind the API server does not serve. *)
Inductive K8sReason := K8sNotFound | K8sAlreadyExists | K8sConflict | K8sForbidden | K8sNoMatch | K8sOther.

Record Err := { err_message : string; err_status : option Z; err_k8s : option K8sReason }.

#[export] Instance K8sReason_eq_dec : EqDecision K8sReason.
Proof. solve_decision. Defined.
#[export] Instance Err_eq_dec : EqDecision Err.
Proof. solve_decision. Defined.

Definition plainErr (message : string) : Err :=
  {| err_message := message; err_status := None; err_k8s := None |}.

(** [fmt.Errorf("...: %w", err)]. *)
Definition wrapErr (prefix : string) (e : Err) : Err :=
  {| err_message := prefix +:+ ": " +:+ err_message e; err_status := err_status e; err_k8s := err_k8s e |}.

(** [errors.Join] of two errors, a nil one left out; the first status in the
    tree is the one found. *)
Definition joinErr (e : Err) (o : option Err) : Err :=
  match o with
  | None => e
  | Some e' =>
    {| err_message := err_message e +:+ String (Ascii.ascii_of_nat 10) (err_message e');
       err_status := match err_status e with Some s => Some s | None => err_status e' end;
       err_k8s := match err_k8s e with Some s => Some s | None => err_k8s e' end |}
  end.

(** ** internal/client/errors.go, on a non-nil error *)

Definition IsStatusCode (e : Err) (code : Z) : bool := bool_decide (err_status e = Some code).
Definition IsConflict (e : Err) : bool := IsStatusCode e 409.
Definition IsForbidden (e : Err) : bool := IsStatusCode e 403.
Definition IsNotFound (e : Err) : bool := IsStatusCode e 404.

Definition IsClientError (e : Err) : bool :=
  match err_status e with
  | Some s => if ((s =? 408) || (s =? 429))%Z then false else ((400 <=? s) && (s <? 500))%Z
  | None => false
  end.

(** [ignoreErr], whose nil error is [None]. *)
Definition ignoreErr (pred : Err → bool) (e : option Err) : option Err :=
  match e with
  | Some e => if pred e then None else Some e
  | None => None
  end.

Definition cf_IgnoreNotFound : option Err → option Err := ignoreErr IsNotFound.
Definition IgnoreConflict : option Err → option Err := ignoreErr IsConflict.
Definition IgnoreStatusCode (e : option Err) (code : Z) : option Err := ignoreErr (λ e, IsStatusCode e code) e.

(** [apierrors.IsNotFound], [IsForbidden] and controller-runtime's
    [client.IgnoreNotFound]. *)
Definition k8s_IsNotFound (e : Err) : bool := bool_decide (err_k8s e = Some K8sNotFound).
Definition k8s_IsForbidden (e : Err) : bool := bool_decide (err_k8s e = Some K8sForbidden).
Definition k8s_IgnoreNotFound : option Err → option Err := ignoreErr k8s_IsNotFound.

(** [meta.IsNoMatchError]. *)
Definition IsNoMatchError (e : Err) : bool := bool_decide (err_k8s e = Some K8sNoMatch).

(** [fmt]'s %q, on ASCII text: a quoted string with Go's escapes. A byte above
    ASCII is kept, as the bytes of a printable character are. *)
Definition escapeChar (a : Ascii.ascii) : string :=
  let n := Ascii.nat_of_ascii a in
  let bs c := String (Ascii.ascii_of_nat 92) (String (Ascii.ascii_of_nat c) "") in
  if Nat.eqb n 34 then bs 34 else if Nat.eqb n 92 then bs 92
  else if Nat.eqb n 7 then bs 97 else if Nat.eqb n 8 then bs 98 else if Nat.eqb n 12 then bs 102
  else if Nat.eqb n 10 then bs 110 else if Nat.eqb n 13 then bs 114
  else if Nat.eqb n 9 then bs 116 else if Nat.eqb n 11 then bs 118
  else if Nat.ltb n 32 || Nat.eqb n 127 then
    let hex d := Ascii.ascii_of_nat (if Nat.ltb d 10 then 48 + d else 87 + d) in
    bs 120 +:+ String (hex (Nat.div n 16)) (String (hex (Nat.modulo n 16)) "")
  else String a "".

Fixpoint escape (s : string) : string :=
  match s with EmptyString => "" | String a s => escapeChar a +:+ escape s end.

Definition fmt_q (s : string) : string :=
  let q := String (Ascii.ascii_of_nat 34) "" in q +:+ escape s +:+ q.

(** A request to delete something that left it deleted, or found it gone. *)
Definition gone (answer : option Err) : Prop := match answer with None => True | Some e => err_status e = Some 404%Z end.

Lemma cf_gone answer : cf_IgnoreNotFound answer = None ↔ gone answer.
Proof.
  unfold cf_IgnoreNotFound, ignoreErr, IsNotFound, IsStatusCode. destruct answer as [e|]; simpl; [|done].
  case_bool_decide; done.
Qed.

(** ** Results of a reconciliation *)

(** Seconds, as a [time.Duration]. *)
Definition seconds (n : Z) : Z := (n * 10 ^ 9)%Z.

(** [ctrl.Result] and the error: when to reconcile again, zero for not at all. *)
Record Result := { requeueAfter : Z; result_err : option Err }.
Definition done_ : Result := {| requeueAfter := 0; result_err := None |}.
Definition failed (e : Err) : Result := {| requeueAfter := 0; result_err := Some e |}.
Definition requeue (after : Z) : Result := {| requeueAfter := after; result_err := None |}.

(** ** Programs *)

(** A program that makes the requests of [E]. *)
Inductive prog (E : Type → Type) (A : Type) : Type :=
  | Ret (a : A)
  | Vis (R : Type) (e : E R) (k : R → prog E A).
Arguments Ret {E A} a.
Arguments Vis {E A R} e k.

Definition call {E R} (e : E R) : prog E R := Vis e Ret.

Fixpoint bind {E A B} (p : prog E A) (f : A → prog E B) : prog E B :=
  match p with
  | Ret a => f a
  | Vis e k => Vis e (λ r, bind (k r) f)
  end.

Notation "'do' x '<-' p ';' q" := (bind p (λ x, q))
  (at level 200, x pattern, p at level 100, q at level 200) : operator_scope.

(** A step that may fail: an error ends the program, and is returned. *)
Notation "'do?' x '<-' p ';' q" :=
  (bind p (λ r, match r with inl x => q | inr err => Ret (inr err) end))
  (at level 200, x pattern, p at level 100, q at level 200) : operator_scope.

(** A request and the answer it got. *)
Inductive event (E : Type → Type) : Type := Ev (R : Type) (e : E R) (r : R).
Arguments Ev {E R} e r.

(** The program makes these requests, gets these answers and returns. *)
Inductive exec {E A} : prog E A → list (event E) → A → Prop :=
  | exec_Ret a : exec (Ret a) [] a
  | exec_Vis R (e : E R) k r tr a : exec (k r) tr a → exec (Vis e k) (Ev e r :: tr) a.

(** A program that makes its requests as those of a larger kind. *)
Fixpoint lift {E F : Type → Type} {A} (f : ∀ R, E R → F R) (p : prog E A) : prog F A :=
  match p with
  | Ret a => Ret a
  | Vis e k => Vis (f _ e) (λ r, lift f (k r))
  end.

Definition liftEvent {E F : Type → Type} (f : ∀ R, E R → F R) (ev : event E) : event F :=
  let 'Ev e r := ev in Ev (f _ e) r.

Section exec.
Context {E : Type → Type}.

Lemma exec_Ret_inv {A} (a b : A) tr : exec (E:=E) (Ret a) tr b → tr = [] ∧ a = b.
Proof. by inversion 1. Qed.

Lemma exec_Vis_inv {A R} (e : E R) (k : R → prog E A) tr a :
  exec (Vis e k) tr a → ∃ r tr', tr = Ev e r :: tr' ∧ exec (k r) tr' a.
Proof.
  remember (Vis e k) as p eqn:Hp. intros Hx. destruct Hx as [|R' e' k' r tr' a Hx]; [done|].
  refine (match Hp in _ = q return
    match q with
    | Ret _ => True
    | @Vis _ _ R0 e0 k0 => ∃ r0 tr0, Ev e' r :: tr' = Ev e0 r0 :: tr0 ∧ exec (k0 r0) tr0 a
    end with eq_refl => _ end).
  by exists r, tr'.
Qed.

Lemma exec_bind {A B} (p : prog E A) (f : A → prog E B) tr b :
  exec (bind p f) tr b ↔ ∃ tr1 tr2 a, tr = tr1 ++ tr2 ∧ exec p tr1 a ∧ exec (f a) tr2 b.
Proof.
  revert tr. induction p as [a|R e k IH]; intros tr; simpl.
  - split; [intros Hx; exists [], tr, a; split_and!; [done|constructor|done]|].
    intros (tr1 & tr2 & a' & -> & Hx & Hf). by apply exec_Ret_inv in Hx as [-> ->].
  - split.
    + intros (r & tr' & -> & Hx)%exec_Vis_inv. apply IH in Hx as (tr1 & tr2 & a & -> & Hk & Hf).
      exists (Ev e r :: tr1), tr2, a. split_and!; [done|by constructor|done].
    + intros (tr1 & tr2 & a & -> & Hx & Hf). apply exec_Vis_inv in Hx as (r & tr' & -> & Hx).
      simpl. constructor. apply IH. by exists tr', tr2, a.
Qed.

Lemma exec_call {R} (e : E R) tr r : exec (call e) tr r ↔ tr = [Ev e r].
Proof.
  unfold call. split.
  - intros (r' & tr' & -> & Hx)%exec_Vis_inv. by apply exec_Ret_inv in Hx as [-> ->].
  - intros ->. repeat constructor.
Qed.

(** Every program ends, whatever it is answered, when answers exist at all. *)
Lemma exec_total {A} (p : prog E A) (answer : ∀ R, E R → R) : ∃ tr a, exec p tr a.
Proof.
  induction p as [a|R e k IH]; [exists [], a; constructor|].
  destruct (IH (answer R e)) as (tr & a & Hx). exists (Ev e (answer R e) :: tr), a. by constructor.
Qed.

(** The run of a program against given answers; nothing where one is missing. *)
Fixpoint runTrace {A} (answer : ∀ R, E R → option R) (p : prog E A) : option (list (event E) * A) :=
  match p with
  | Ret a => Some ([], a)
  | Vis e k =>
    r ← answer _ e;
    '(tr, a) ← runTrace answer (k r);
    Some (Ev e r :: tr, a)
  end.

Lemma runTrace_exec {A} answer (p : prog E A) tr a :
  runTrace answer p = Some (tr, a) → exec p tr a.
Proof.
  revert tr. induction p as [a'|R e k IH]; simpl; intros tr; [intros [= <- <-]; constructor|].
  destruct (answer R e) as [r|]; [|done]. simpl.
  destruct (runTrace answer (k r)) as [[tr' a']|] eqn:Er; [|done]. intros [= <- <-].
  constructor. by apply IH.
Qed.

(** The answers of a run are those it was given. *)
Lemma runTrace_answers {A} answer (p : prog E A) tr a R (e : E R) r :
  runTrace answer p = Some (tr, a) → Ev e r ∈ tr → answer R e = Some r.
Proof.
  induction p as [a'|R' e' k IH] in tr |- *; simpl; [intros [= <- _] Hin; by apply elem_of_nil in Hin|].
  destruct (answer R' e') as [r'|] eqn:Ea; [|done]. simpl.
  destruct (runTrace answer (k r')) as [[tr' a']|] eqn:Er; [|done]. intros [= <- ->] [Heq|Hin]%elem_of_cons; [|by eapply IH].
  refine (match eq_sym Heq in _ = q return match q with Ev e0 r0 => answer _ e0 = Some r0 end with eq_refl => Ea end).
Qed.

Lemma runTrace_test {A} answer (p : prog E A) (test : list (event E) → A → bool) :
  match runTrace answer p with Some (tr, a) => test tr a | None => false end = true →
  ∃ tr a, runTrace answer p = Some (tr, a) ∧ test tr a = true.
Proof. destruct (runTrace answer p) as [[tr a]|]; [|done]. intros Ht. by exists tr, a. Qed.

(** A run that passes a test is an execution that does. *)
Lemma runTrace_such {A} answer (p : prog E A) (test : list (event E) → A → bool) :
  match runTrace answer p with Some (tr, a) => test tr a | None => false end = true →
  ∃ tr a, exec p tr a ∧ test tr a = true.
Proof. intros (tr & a & Hr & Ht)%runTrace_test. exists tr, a. split; [by eapply runTrace_exec|done]. Qed.

(** Running a program against a state that answers its requests; nothing once a
    request has no answer. *)
Fixpoint run {S A} (handle : ∀ R, E R → S → option (R * S)) (p : prog E A) (s : S) : option (A * S) :=
  match p with
  | Ret a => Some (a, s)
  | Vis e k =>
    match handle _ e s with
    | Some (r, s') => run handle (k r) s'
    | None => None
    end
  end.

Lemma run_bind {S A B} (handle : ∀ R, E R → S → option (R * S)) (p : prog E A) (f : A → prog E B) s :
  run handle (bind p f) s =
  match run handle p s with Some (a, s') => run handle (f a) s' | None => None end.
Proof.
  revert s. induction p as [a|R e k IH]; intros s; simpl; [done|].
  destruct (handle R e s) as [[r s']|]; [apply IH|done].
Qed.

Lemma run_exec {S A} (handle : ∀ R, E R → S → option (R * S)) (p : prog E A) s a s' :
  run handle p s = Some (a, s') → ∃ tr, exec p tr a.
Proof.
  revert s. induction p as [b|R e k IH]; intros s; simpl; [intros [= -> ->]; exists []; constructor|].
  destruct (handle R e s) as [[r s1]|]; [|done]. intros Hr. destruct (IH r s1 Hr) as (tr & Hx).
  exists (Ev e r :: tr). by constructor.
Qed.

(** The programs whose requests all satisfy a predicate, whatever they are
    answered. *)
Fixpoint emits {A} (P : ∀ R, E R → Prop) (p : prog E A) : Prop :=
  match p with
  | Ret _ => True
  | Vis e k => P _ e ∧ ∀ r, emits P (k r)
  end.

Lemma emits_bind {A B} (P : ∀ R, E R → Prop) (p : prog E A) (f : A → prog E B) :
  emits P p → (∀ a, emits P (f a)) → emits P (bind p f).
Proof. intros Hp Hf. induction p as [a|R e k IH]; simpl; [done|]. destruct Hp. split; [done|]. intros r. by apply IH. Qed.

Lemma emits_call {R} (P : ∀ R, E R → Prop) (e : E R) : P _ e → emits P (call e).
Proof. by split. Qed.

(** The same, of what follows only the values the first program returns. *)
Lemma emits_bind_post {A B} (P : ∀ R, E R → Prop) (p : prog E A) (f : A → prog E B) :
  emits P p → (∀ tr a, exec p tr a → emits P (f a)) → emits P (bind p f).
Proof.
  intros Hp. induction p as [a|R e k IH]; intros Hf; simpl; [by apply (Hf []); constructor|].
  destruct Hp. split; [done|]. intros r. apply IH; [done|]. intros tr a Hx.
  apply (Hf (Ev e r :: tr)). by constructor.
Qed.

(** A bad answer ends the program there and then, with a bad result. *)
Fixpoint stops {A} (ok : ∀ R, E R → R → bool) (good : A → bool) (p : prog E A) : Prop :=
  match p with
  | Ret _ => True
  | Vis e k => ∀ r, if ok _ e r then stops ok good (k r) else ∃ a, k r = Ret a ∧ good a = false
  end.

Definition answeredWell (ok : ∀ R, E R → R → bool) (ev : event E) : Prop := let 'Ev e r := ev in ok _ e r = true.

Lemma stops_call {R} (ok : ∀ R, E R → R → bool) (good : R → bool) (e : E R) :
  (∀ r, good r = true → ok _ e r = true) → stops ok good (call e).
Proof.
  intros Hg r. destruct (ok R e r) eqn:Eo; [exact I|]. exists r. split; [done|].
  apply not_true_is_false. intros ?%Hg. congruence.
Qed.

Lemma stops_bind {A B} ok (g : A → bool) (h : B → bool) (p : prog E A) (f : A → prog E B) :
  stops ok g p → (∀ a, g a = true → stops ok h (f a)) → (∀ a, g a = false → ∃ b, f a = Ret b ∧ h b = false) →
  stops ok h (bind p f).
Proof.
  intros Hp Hf Hb. induction p as [a|R e k IH]; simpl.
  - destruct (g a) eqn:Eg; [by apply Hf|]. by destruct (Hb a Eg) as (b & -> & _).
  - intros r. specialize (Hp r). destruct (ok R e r); [by apply IH|]. destruct Hp as (a & -> & Ha). by apply Hb.
Qed.

(** Every answer of a run was good, or the last was bad and so is the result. *)
Lemma stops_exec {A} ok (good : A → bool) (p : prog E A) tr a :
  stops ok good p → exec p tr a →
  Forall (answeredWell ok) tr ∨
  ∃ tr' ev, tr = tr' ++ [ev] ∧ Forall (answeredWell ok) tr' ∧ ¬ answeredWell ok ev ∧ good a = false.
Proof.
  intros Hp Hx. induction Hx as [a|R e k r tr a Hx IH]; [by left|]. specialize (Hp r).
  destruct (ok R e r) eqn:Eo.
  - destruct (IH Hp) as [Hall|(tr' & ev & -> & Hall & Hev & Ha)]; [left; by constructor|right].
    exists (Ev e r :: tr'), ev. split_and!; [done|by constructor|done|done].
  - destruct Hp as (b & Hk & Hb). rewrite Hk in Hx. apply exec_Ret_inv in Hx as [-> <-]. right.
    exists [], (Ev e r). split_and!; [done|constructor|simpl; congruence|done].
Qed.

Lemma stops_good {A} ok (good : A → bool) (p : prog E A) tr a :
  stops ok good p → exec p tr a → good a = true → Forall (answeredWell ok) tr.
Proof. intros Hp Hx Hg. by destruct (stops_exec _ _ _ _ _ Hp Hx) as [?|(? & ? & _ & _ & _ & ?)]; [|congruence]. Qed.

(** No request follows one that was answered badly. *)
Lemma stops_bad {A} ok (good : A → bool) (p : prog E A) tr1 ev tr2 a :
  stops ok good p → exec p (tr1 ++ ev :: tr2) a → ¬ answeredWell ok ev → tr2 = [] ∧ good a = false.
Proof.
  intros Hp Hx Hev. destruct (stops_exec _ _ _ _ _ Hp Hx) as [Hall|(tr' & ev' & Heq & Hall & _ & Ha)].
  { apply Forall_app in Hall as [_ [? _]%Forall_cons]. done. }
  split; [|done]. destruct tr2 as [|ev2 tr2 _] using rev_ind; [done|].
  rewrite app_comm_cons, app_assoc in Heq. apply app_inj_2 in Heq as [<- _]; [|done].
  apply Forall_app in Hall as [_ [? _]%Forall_cons]. done.
Qed.

(** A kind of event that no request of a program is, is not in its traces. *)
Lemma emits_omap {A B} (P : ∀ R, E R → Prop) (view : event E → option B) (p : prog E A) tr a :
  (∀ R (e : E R) r, P _ e → view (Ev e r) = None) → emits P p → exec p tr a → omap view tr = [].
Proof.
  intros Hv Hp Hx. induction Hx as [a|R e k r tr a Hx IH]; [done|]. destruct Hp as [He Hk].
  rewrite omap_cons_eq, (Hv _ _ _ He). by apply IH.
Qed.
End exec.

Lemma exec_lift {E F A} (f : ∀ R, E R → F R) (p : prog E A) tr a :
  exec (lift f p) tr a → ∃ tr', tr = liftEvent f <$> tr' ∧ exec p tr' a.
Proof.
  revert tr. induction p as [b|R e k IH]; intros tr; simpl.
  - intros [-> ->]%exec_Ret_inv. exists []. split; [done|constructor].
  - intros (r & tr' & -> & Hx)%exec_Vis_inv. destruct (IH r tr' Hx) as (tr0 & -> & Hx0).
    exists (Ev e r :: tr0). split; [done|by constructor].
Qed.

Lemma lift_exec {E F A} (f : ∀ R, E R → F R) (p : prog E A) tr a :
  exec p tr a → exec (lift f p) (liftEvent f <$> tr) a.
Proof. induction 1 as [a|R e k r tr a Hx IH]; [constructor|]. by constructor. Qed.

Lemma emits_lift {E F A} (f : ∀ R, E R → F R) (P : ∀ R, F R → Prop) (p : prog E A) :
  (∀ R e, P R (f R e)) → emits P (lift f p).
Proof. intros Hf. induction p as [a|R e k IH]; simpl; [done|]. split; [done|]. intros r. apply IH. Qed.

(** A view of a larger kind of events, on the events of a lifted program. *)
Lemma omap_lift {E F B} (f : ∀ R, E R → F R) (view : event F → option B) (view' : event E → option B) (tr : list (event E)) :
  (∀ ev, view (liftEvent f ev) = view' ev) → omap view (liftEvent f <$> tr) = omap view' tr.
Proof.
  intros Hv. induction tr as [|ev tr IH]; [done|]. rewrite fmap_cons, !omap_cons_eq, Hv. by rewrite IH.
Qed.

(** Takes the execution of a program apart into those of its steps. *)
Ltac exec_inv :=
  repeat match goal with
  | Hx : exec (bind _ _) _ _ |- _ => apply exec_bind in Hx as (? & ? & ? & -> & ? & ?)
  | Hx : exec (Vis _ _) _ _ |- _ => apply exec_Vis_inv in Hx as (? & ? & -> & ?)
  | Hx : exec (call _) _ _ |- _ => apply exec_call in Hx as ->
  | Hx : exec (Ret _) _ _ |- _ => apply exec_Ret_inv in Hx as [? ?]; simplify_eq/=
  end.

(** Shows what requests a program without loops makes. *)
Ltac emits_step :=
  match goal with
  | |- emits _ (bind _ _) => apply emits_bind; [|intros ?]
  | |- emits _ (call _) => apply emits_call
  | |- emits _ (Ret _) => exact I
  | |- emits _ (match ?x with _ => _ end) => destruct x
  end.

(** ** Properties *)

(** The predicates the controllers act on tell the API's answers apart: a
    rejection that repeating the request cannot fix is a 4xx status other than a
    timeout (408) and a rate limit (429), which a later attempt may not meet;
    conflict, forbidden and not-found are such rejections; and an error that is
    no API answer is none of them. Wrapping an error keeps its class. *)
Theorem IsClientError_spec e prefix :
  (IsClientError e = true ↔
     ∃ s, err_status e = Some s ∧ (400 ≤ s < 500)%Z ∧ s ≠ 408%Z ∧ s ≠ 429%Z) ∧
  (IsConflict e = true ∨ IsForbidden e = true ∨ IsNotFound e = true → IsClientError e = true) ∧
  (err_status e = None → IsClientError e = false ∧ cf_IgnoreNotFound (Some e) = Some e) ∧
  IsClientError (wrapErr prefix e) = IsClientError e ∧
  IsForbidden (wrapErr prefix e) = IsForbidden e.
Proof.
  unfold IsClientError, IsConflict, IsForbidden, IsNotFound, IsStatusCode, cf_IgnoreNotFound, ignoreErr. simpl.
  split_and!; [| | |done|done].
  - destruct (err_status e) as [s|]; [|split; [done|by intros (s & ? & _)]]. split.
    + intros Hs. exists s. split; [done|]. destruct (_ || _)%Z eqn:Eo; [done|].
      apply orb_false_iff in Eo as [?%Z.eqb_neq ?%Z.eqb_neq].
      apply andb_true_iff in Hs as [?%Z.leb_le ?%Z.ltb_lt]. lia.
    + intros (s' & [= <-] & Hr & H1 & H2).
      rewrite (proj2 (Z.eqb_neq s 408) H1), (proj2 (Z.eqb_neq s 429) H2). simpl.
      apply andb_true_iff. rewrite Z.leb_le, Z.ltb_lt. lia.
  - rewrite !bool_decide_eq_true. by intros [->|[->| ->]].
  - intros He. rewrite He. split; [done|]. unfold IsNotFound, IsStatusCode. by rewrite He.
Qed.
