(* ===== verification/Logic.v ===== *)
(** * Programs interrupted

    A logic for programs whose requests are answered by a world that may answer
    them in several ways, and which may be stopped after any of them, as when a
    request fails half done, or the process is killed. [wp I p Q w] says that
    every world the program passes through satisfies [I], and that it returns
    only what [Q] allows. *)
From S2P Require Import Prelude Effects.

Section logic.
Context {E : Type → Type} {W : Type} (answers : ∀ R, E R → W → R → W → Prop).

(** The worlds a program may leave, having been stopped at some point. *)
Inductive leaves {A} : prog E A → W → W → Prop :=
  | leaves_stop p w : leaves p w w
  | leaves_step R (e : E R) k w r w' w'' : answers R e w r w' → leaves (k r) w' w'' → leaves (Vis e k) w w''.

Fixpoint wp {A} (I : W → Prop) (p : prog E A) (Q : A → W → Prop) (w : W) : Prop :=
  I w ∧ match p with
        | Ret a => Q a w
        | Vis e k => ∀ r w', answers _ e w r w' → wp I (k r) Q w'
        end.

Context (I : W → Prop).

Lemma wp_leaves {A} (p : prog E A) Q w w' : wp I p Q w → leaves p w w' → I w'.
Proof.
  intros Hw Hl. induction Hl as [p w|R e k w r w' w'' Ha _ IH]; [by destruct p; destruct Hw|].
  destruct Hw as [_ Hw]. by apply IH, Hw.
Qed.

Lemma wp_ret {A} (a : A) (Q : A → W → Prop) w : I w → Q a w → wp I (Ret a) Q w.
Proof. by split. Qed.

Lemma wp_call {R} (e : E R) (Q : R → W → Prop) w :
  I w → (∀ r w', answers R e w r w' → I w' ∧ Q r w') → wp I (call e) Q w.
Proof. intros Hi Hq. split; [done|]. intros r w' Ha. destruct (Hq r w' Ha). by apply wp_ret. Qed.

Lemma wp_bind {A B} (p : prog E A) (f : A → prog E B) (Q : B → W → Prop) w :
  wp I p (λ a, wp I (f a) Q) w → wp I (bind p f) Q w.
Proof.
  induction p as [a|R e k IH] in w |- *; simpl; intros [Hi Hw]; [done|].
  split; [done|]. intros r w' Ha. by apply IH, Hw.
Qed.

(** A request, then the rest. *)
Lemma wp_request {R B} (e : E R) (f : R → prog E B) (Q : B → W → Prop) w :
  I w → (∀ r w', answers R e w r w' → wp I (f r) Q w') → wp I (bind (call e) f) Q w.
Proof. by split. Qed.

(** A program whose requests leave the world alone. *)
Lemma wp_still {A} (p : prog E A) (Q : A → W → Prop) w :
  emits (λ R e, ∀ w r w', answers R e w r w' → w' = w) p → I w → (∀ a, Q a w) → wp I p Q w.
Proof.
  intros Hp Hi Hq. induction p as [a|R e k IH]; (split; [done|]); [apply Hq|].
  destruct Hp as [He Hk]. intros r w' ->%He. by apply IH.
Qed.
End logic.

(** ** Runs *)

Section runs.
Context {E : Type → Type} {W St : Type} (answers : ∀ R, E R → W → R → W → Prop).
Context (handle : ∀ R, E R → St → option (R * St)) (view : St → W).

(** What a run leaves when it is stopped after some requests. *)
Fixpoint runFor {A} (n : nat) (p : prog E A) (s : St) : St :=
  match n, p with
  | O, _ | _, Ret _ => s
  | S n, Vis e k => match handle _ e s with Some (r, s') => runFor n (k r) s' | None => s end
  end.

(** A handler that answers as the world may. *)
Hypothesis sound : ∀ R (e : E R) s r s', handle R e s = Some (r, s') → answers R e (view s) r (view s').

Lemma runFor_leaves {A} n (p : prog E A) s : leaves answers p (view s) (view (runFor n p s)).
Proof.
  induction n as [|n IH] in p, s |- *; [by constructor|]. destruct p as [a|R e k]; [by constructor|]. simpl.
  destruct (handle R e s) as [[r s']|] eqn:Eh; [|by constructor]. econstructor; [by apply sound|apply IH].
Qed.

Lemma run_leaves {A} (p : prog E A) s a s' : run handle p s = Some (a, s') → leaves answers p (view s) (view s').
Proof.
  induction p as [b|R e k IH] in s |- *; simpl; [intros [= _ <-]; constructor|].
  destruct (handle R e s) as [[r s1]|] eqn:Eh; [|done]. intros Hr. econstructor; [by apply sound|by apply IH].
Qed.
End runs.

(** ** Runs that end *)

Section total.
Context {E : Type → Type} {W : Type} (handle : ∀ R, E R → W → option (R * W)).

(** The program returns, in a world and with a value that satisfy [Q]. *)
Definition total {A} (p : prog E A) (Q : A → W → Prop) (w : W) : Prop :=
  ∃ a w', run handle p w = Some (a, w') ∧ Q a w'.

Lemma total_ret {A} (a : A) (Q : A → W → Prop) w : Q a w → total (Ret a) Q w.
Proof. intros HQ. by exists a, w. Qed.

Lemma total_bind {A B} (p : prog E A) (f : A → prog E B) (Q : B → W → Prop) w :
  total p (λ a, total (f a) Q) w → total (bind p f) Q w.
Proof. intros (a & w1 & Hp & b & w2 & Hf & HQ). exists b, w2. by rewrite run_bind, Hp. Qed.

Lemma total_call {R} (e : E R) (Q : R → W → Prop) w r w' : handle R e w = Some (r, w') → Q r w' → total (call e) Q w.
Proof. intros Hh HQ. exists r, w'. unfold call. simpl. by rewrite Hh. Qed.

(** A request, then the rest. *)
Lemma total_request {A R} (e : E R) (k : R → prog E A) (Q : A → W → Prop) w r w' :
  handle R e w = Some (r, w') → total (k r) Q w' → total (Vis e k) Q w.
Proof. intros Hh (a & w2 & Hr & HQ). exists a, w2. simpl. by rewrite Hh. Qed.
End total.

(** ** Runs against fixed answers *)

(** What a program returns, and the requests of a kind it makes, when each request
    has one answer. *)
Section answered.
Context {E : Type → Type} (answer : ∀ R, E R → R).

Fixpoint outcome {A} (p : prog E A) : A :=
  match p with Ret a => a | Vis e k => outcome (k (answer _ e)) end.

Fixpoint made {A B} (view : ∀ R, E R → option B) (p : prog E A) : list B :=
  match p with Ret _ => [] | Vis e k => option_list (view _ e) ++ made view (k (answer _ e)) end.

(** Every request it makes is one of [P]. *)
Fixpoint asks {A} (P : ∀ R, E R → Prop) (p : prog E A) : Prop :=
  match p with Ret _ => True | Vis e k => P _ e ∧ asks P (k (answer _ e)) end.

Lemma outcome_bind {A B} (p : prog E A) (f : A → prog E B) : outcome (bind p f) = outcome (f (outcome p)).
Proof. induction p as [|R e k IH]; [done|]. apply IH. Qed.

Lemma made_bind {A B C} view (p : prog E A) (f : A → prog E B) :
  made (B := C) view (bind p f) = made view p ++ made view (f (outcome p)).
Proof. induction p as [|R e k IH]; [done|]. simpl. by rewrite IH, app_assoc. Qed.

Lemma asks_bind {A B} (P : ∀ R, E R → Prop) (p : prog E A) (f : A → prog E B) :
  asks P (bind p f) ↔ asks P p ∧ asks P (f (outcome p)).
Proof. induction p as [|R e k IH]; simpl; [tauto|]. rewrite IH. tauto. Qed.

Lemma emits_asks {A} (P : ∀ R, E R → Prop) (p : prog E A) : emits P p → asks P p.
Proof. induction p as [|R e k IH]; [done|]. intros [He Hk]. split; [done|]. by apply IH. Qed.

(** It is an execution. *)
Lemma outcome_exec {A B} (view : ∀ R, E R → option B) (p : prog E A) :
  ∃ tr, exec p tr (outcome p) ∧ omap (λ '(Ev e _), view _ e) tr = made view p.
Proof.
  induction p as [a|R e k IH]; [exists []; split; [constructor|done]|].
  destruct (IH (answer R e)) as (tr & Hx & Hm). exists (Ev e (answer R e) :: tr). split; [by constructor|].
  simpl. rewrite <- Hm. unfold omap, list_omap at 1. by destruct (view R e).
Qed.
End answered.

(** Answers that agree on what a program asks. *)
Lemma answered_ext {E A B} (ans ans' : ∀ R, E R → R) (P : ∀ R, E R → Prop) (view : ∀ R, E R → option B) (p : prog E A) :
  asks ans P p → (∀ R e, P R e → ans R e = ans' R e) → outcome ans p = outcome ans' p ∧ made ans view p = made ans' view p.
Proof.
  intros Hp Hans. induction p as [a|R e k IH]; [done|]. destruct Hp as [He Hk]. simpl in *. rewrite <- (Hans R e He).
  destruct (IH _ Hk) as [-> ->]. done.
Qed.

Section answered_lift.
Context {E F : Type → Type} (f : ∀ R, E R → F R) (answer : ∀ R, F R → R).

Lemma outcome_lift {A} (p : prog E A) : outcome answer (lift f p) = outcome (λ R e, answer R (f R e)) p.
Proof. induction p as [|R e k IH]; [done|]. apply IH. Qed.

Lemma made_lift {A B} (view : ∀ R, F R → option B) (p : prog E A) :
  made answer view (lift f p) = made (λ R e, answer R (f R e)) (λ R e, view R (f R e)) p.
Proof. induction p as [|R e k IH]; [done|]. simpl. by rewrite IH. Qed.

Lemma asks_lift {A} (P : ∀ R, F R → Prop) (p : prog E A) :
  asks answer P (lift f p) ↔ asks (λ R e, answer R (f R e)) (λ R e, P R (f R e)) p.
Proof. induction p as [|R e k IH]; [done|]. simpl. by rewrite IH. Qed.
End answered_lift.

Lemma made_silent {E A B} (answer : ∀ R, E R → R) (view : ∀ R, E R → option B) (p : prog E A) :
  emits (λ R e, view R e = None) p → made answer view p = [].
Proof. induction p as [|R e k IH]; [done|]. intros [He Hk]. simpl. by rewrite He, IH. Qed.

Lemma made_none {E A B} (answer : ∀ R, E R → R) (view : ∀ R, E R → option B) (p : prog E A) :
  (∀ R e, view R e = None) → made answer view p = [].
Proof. intros Hv. apply made_silent. induction p as [|R e k IH]; [done|]. by split. Qed.

(** ** Programs that do the same *)

(** The same executions: the same requests, and the same after every answer. *)
Definition same {E A} (p q : prog E A) : Prop := ∀ tr a, exec p tr a ↔ exec q tr a.

#[export] Instance same_equivalence {E A} : Equivalence (@same E A).
Proof.
  split; [by intros p tr a|by intros p q Hs tr a; rewrite (Hs tr a)|].
  intros p q r H1 H2 tr a. by rewrite (H1 tr a), (H2 tr a).
Qed.

#[export] Instance bind_same {E A B} : Proper (same ==> pointwise_relation A same ==> same) (@bind E A B).
Proof.
  intros p q Hp f g Hf tr b. rewrite !exec_bind.
  split; intros (t1 & t2 & a & -> & H1 & H2); exists t1, t2, a; (split_and!; [done|by apply Hp|by apply Hf]).
Qed.

(** A program with the requests that have an answer given answered. *)
Section supply.
Context {E : Type → Type}.

Fixpoint supply {A} (answer : ∀ R, E R → option R) (p : prog E A) : prog E A :=
  match p with
  | Ret a => Ret a
  | Vis e k => match answer _ e with Some r => supply answer (k r) | None => Vis e (λ r, supply answer (k r)) end
  end.

(** The requests that are answered, whatever the others are answered, are of [P]. *)
Fixpoint supplied {A} (answer : ∀ R, E R → option R) (P : ∀ R, E R → Prop) (p : prog E A) : Prop :=
  match p with
  | Ret _ => True
  | Vis e k => match answer _ e with Some r => P _ e ∧ supplied answer P (k r) | None => ∀ r, supplied answer P (k r) end
  end.

Lemma supply_bind {A B} answer (p : prog E A) (f : A → prog E B) :
  same (supply answer (bind p f)) (bind (supply answer p) (λ a, supply answer (f a))).
Proof.
  induction p as [a|R e k IH]; [done|]. simpl. destruct (answer R e) as [r|]; [apply IH|].
  intros tr b. split; intros (r & tr' & -> & Hx)%exec_Vis_inv; (constructor; by apply IH).
Qed.

Lemma supplied_bind {A B} answer P (p : prog E A) (f : A → prog E B) :
  supplied answer P p → (∀ tr a, exec (supply answer p) tr a → supplied answer P (f a)) → supplied answer P (bind p f).
Proof.
  induction p as [a|R e k IH]; simpl; [intros _ Hf; apply (Hf []); constructor|].
  destruct (answer R e) as [r|].
  - intros [He Hk] Hf. split; [done|]. by apply IH.
  - intros Hk Hf r. apply IH; [done|]. intros tr a Hx. apply (Hf (Ev e r :: tr)). by constructor.
Qed.

Lemma emits_supplied {A} answer (P : ∀ R, E R → Prop) (p : prog E A) :
  emits (λ R e, is_Some (answer R e) → P R e) p → supplied answer P p.
Proof.
  induction p as [a|R e k IH]; [done|]. intros [He Hk]. simpl.
  destruct (answer R e) as [r|]; [split; [by apply He|by apply IH]|]. intros r. by apply IH.
Qed.

(** Answers that agree on what is asked of them. *)
Lemma supply_ext {A} answer answer' (P : ∀ R, E R → Prop) (p : prog E A) :
  supplied answer P p → (∀ R e, answer R e = None ∨ P R e → answer' R e = answer R e) →
  same (supply answer p) (supply answer' p).
Proof.
  intros Hp Hans. induction p as [a|R e k IH]; [done|]. simpl in *. destruct (answer R e) as [r|] eqn:Ea.
  - destruct Hp as [He Hk]. rewrite (Hans R e) by (by right). rewrite Ea. by apply IH.
  - rewrite (Hans R e) by (by left). rewrite Ea. intros tr b.
    split; intros (r & tr' & -> & Hx)%exec_Vis_inv; (constructor; by apply IH).
Qed.
End supply.

Section supply_lift.
Context {E F : Type → Type} (f : ∀ R, E R → F R) (answer : ∀ R, F R → option R) (given : ∀ R, E R → R).
Hypothesis Hgiven : ∀ R e, answer R (f R e) = Some (given R e).

Lemma supply_lift {A} (p : prog E A) : supply answer (lift f p) = Ret (outcome given p).
Proof. induction p as [a|R e k IH]; [done|]. simpl. by rewrite Hgiven, IH. Qed.

Lemma supplied_lift {A} P (p : prog E A) : supplied answer P (lift f p) ↔ asks given (λ R e, P R (f R e)) p.
Proof. induction p as [a|R e k IH]; [done|]. simpl. by rewrite Hgiven, IH. Qed.
End supply_lift.

(** The execution whose answers are given is the run against them. *)
Lemma exec_runTrace {E A} (answer : ∀ R, E R → option R) (p : prog E A) tr a :
  exec p tr a → Forall (λ '(Ev e r), answer _ e = Some r) tr → runTrace answer p = Some (tr, a).
Proof. induction 1 as [|R e k r tr a Hx IH]; [done|]. intros [He Htr]%Forall_cons. simpl. rewrite He. simpl. by rewrite IH. Qed.

Lemma same_runTrace {E A} (answer : ∀ R, E R → option R) (p q : prog E A) :
  same p q → is_Some (runTrace answer p) → runTrace answer p = runTrace answer q.
Proof.
  intros Hs [[tr a] Hp]. rewrite Hp. symmetry. apply exec_runTrace; [by apply Hs; eapply runTrace_exec|].
  apply Forall_forall. intros [R e r] Hin. by eapply runTrace_answers.
Qed.
