(* ===== verification/Helpers.v ===== *)
(** * Helpers of the Kubernetes libraries

    What apimachinery and controller-runtime do to conditions, owner references
    and finalizers, as the class [ObjectHelpers] with the laws [ConditionLaws] the
    controllers rely on, and an implementation to evaluate the controllers with. *)
From S2P Require Import Prelude GatewayAPI Effects.

(** ** Helpers of apimachinery and controller-runtime *)

(** [meta.SetStatusCondition] and [RemoveStatusCondition] on a list of
    conditions; [metav1.IsControlledBy obj owner];
    [controllerutil.SetControllerReference owner obj], which returns the object's
    metadata with the reference, or the error of an object another controller
    owns; [controllerutil.HasOwnerReference refs owner]; and the finalizer
    helpers, on a list of finalizers. *)
Class ObjectHelpers := {
  SetStatusCondition : list Condition → Condition → list Condition;
  RemoveStatusCondition : list Condition → string → list Condition;
  IsControlledBy : ObjectMeta → ObjectMeta → bool;
  SetControllerReference : ObjectMeta → ObjectMeta → ObjectMeta + Err;
  HasOwnerReference : list OwnerReference → ObjectMeta → bool + Err;
  ContainsFinalizer : list string → string → bool;
  AddFinalizer : list string → string → list string;
  RemoveFinalizer : list string → string → list string;
}.

(** Why [controllerutil.CreateOrUpdate] failed: the update function returned
    [errNotControlled], or anything else. *)
Inductive ApplyErr := NotControlled | ApplyFailed (e : Err).

(** Metadata of an object to be created. *)
Definition newObjectMeta (ns name : string) : ObjectMeta :=
  {| om_Name := name; om_Namespace := ns; om_UID := ""; om_ResourceVersion := "";
     om_Generation := 0; om_CreationTimestamp := 0; om_DeletionTimestamp := None;
     om_Labels := ∅; om_Annotations := ∅; om_OwnerReferences := []; om_Finalizers := [] |}.

(** The condition of a type. *)
Definition conditionOf (cs : list Condition) (t : string) : option Condition :=
  head (filter (λ c, c_Type c = t) cs).

(** [meta.IsStatusConditionTrue]. *)
Definition IsStatusConditionTrue (cs : list Condition) (t : string) : bool :=
  match conditionOf cs t with Some c => bool_decide (c_Status c = ConditionTrue) | None => false end.

(** What the controllers rely on of the condition helpers: setting a condition
    sets it, and neither setting nor removing one touches the others. *)
Class ConditionLaws `{ObjectHelpers} : Prop := {
  set_condition_same cs c : ∃ c', conditionOf (SetStatusCondition cs c) (c_Type c) = Some c' ∧
    c_Status c' = c_Status c ∧ c_Reason c' = c_Reason c ∧ c_Message c' = c_Message c;
  set_condition_observed cs c c' : conditionOf (SetStatusCondition cs c) (c_Type c) = Some c' →
    c_ObservedGeneration c' = c_ObservedGeneration c;
  set_condition_time cs c c' old : conditionOf (SetStatusCondition cs c) (c_Type c) = Some c' →
    conditionOf cs (c_Type c) = Some old → c_Status old = c_Status c →
    c_LastTransitionTime c' = c_LastTransitionTime old;
  set_condition_types cs c : NoDup (c_Type <$> cs) → NoDup (c_Type <$> SetStatusCondition cs c);
  set_condition_other cs c t : t ≠ c_Type c → conditionOf (SetStatusCondition cs c) t = conditionOf cs t;
  remove_condition_same cs t : conditionOf (RemoveStatusCondition cs t) t = None;
  remove_condition_types cs t : NoDup (c_Type <$> cs) → NoDup (c_Type <$> RemoveStatusCondition cs t);
  remove_condition_other cs t t' : t ≠ t' → conditionOf (RemoveStatusCondition cs t') t = conditionOf cs t;
}.

(** Metadata with other owner references. *)
Definition withOwners (m : ObjectMeta) (refs : list OwnerReference) : ObjectMeta :=
  {| om_Name := om_Name m; om_Namespace := om_Namespace m; om_UID := om_UID m;
     om_ResourceVersion := om_ResourceVersion m; om_Generation := om_Generation m;
     om_CreationTimestamp := om_CreationTimestamp m; om_DeletionTimestamp := om_DeletionTimestamp m;
     om_Labels := om_Labels m; om_Annotations := om_Annotations m;
     om_OwnerReferences := refs; om_Finalizers := om_Finalizers m |}.

(** What the controllers rely on of the owner helpers: an object given a
    controller reference is controlled by the owner, differs in its owner
    references only, and is left as it is when given it again; and an object of
    the owner's namespace that nothing owns can be given one. *)
Class OwnerLaws `{ObjectHelpers} : Prop := {
  set_controller_controls owner obj m : SetControllerReference owner obj = inl m → IsControlledBy m owner = true;
  set_controller_refs owner obj m : SetControllerReference owner obj = inl m → ∃ refs, m = withOwners obj refs;
  set_controller_again owner obj m : SetControllerReference owner obj = inl m → SetControllerReference owner m = inl m;
  set_controller_new owner obj : om_OwnerReferences obj = [] → om_Namespace obj = om_Namespace owner →
    ∃ m, SetControllerReference owner obj = inl m;
}.

(** What the controllers rely on of the finalizer helpers: a list of finalizers
    is searched, grows by one and loses one. *)
Class FinalizerLaws `{ObjectHelpers} : Prop := {
  contains_finalizer fs f : ContainsFinalizer fs f = true ↔ f ∈ fs;
  add_finalizer fs f g : g ∈ AddFinalizer fs f ↔ g ∈ fs ∨ g = f;
  remove_finalizer fs f g : g ∈ RemoveFinalizer fs f ↔ g ∈ fs ∧ g ≠ f;
}.

(** The object an update function that gives a controller reference leaves. *)
Section controlled.
Context `{ObjectHelpers, !OwnerLaws} {O : Type} (meta : O → ObjectMeta) (setMeta : O → ObjectMeta → O).

(** The update function of a kind of objects: an existing object that the owner
    does not control is left as it is. *)
Definition controlled (owner : ObjectMeta) (mutate : O → O) (obj : O) : O + ApplyErr :=
  if negb (str_eqb (om_ResourceVersion (meta obj)) "") && negb (IsControlledBy (meta obj) owner)
  then inr NotControlled
  else
    let obj := mutate obj in
    match SetControllerReference owner (meta obj) with
    | inl m => inl (setMeta obj m)
    | inr err => inr (ApplyFailed err)
    end.

(** An update function that is careful: it touches no existing object the owner
    does not control, and what it makes is the owner's and is not changed by
    being made again. *)
Definition Careful (owner : ObjectMeta) (mutate : O → O + ApplyErr) : Prop :=
  ∀ o, (om_ResourceVersion (meta o) ≠ "" → IsControlledBy (meta o) owner = false → mutate o = inr NotControlled) ∧
    ∀ o', mutate o = inl o' → IsControlledBy (meta o') owner = true ∧ mutate o' = inl o'.

Lemma controlled_careful owner mutate :
  (∀ o m, meta (setMeta o m) = m) → (∀ o m, setMeta (setMeta o m) m = setMeta o m) →
  (∀ o refs, let o' := setMeta (mutate o) (withOwners (meta (mutate o)) refs) in mutate o' = o') →
  Careful owner (controlled owner mutate).
Proof.
  intros Hm Hs Hmut o. unfold controlled. split.
  { intros Hv Hc. by rewrite Hc, (proj2 (str_eqb_neq _ _)). }
  intros o'. destruct (negb _ && negb _); [done|].
  destruct (SetControllerReference owner (meta (mutate o))) as [m|] eqn:E; [|done]. intros [= <-].
  pose proof (set_controller_controls _ _ _ E) as Hc. pose proof (set_controller_again _ _ _ E) as Ha.
  destruct (set_controller_refs _ _ _ E) as [refs ->]. rewrite Hmut, !Hm, Hc, andb_false_r, Ha.
  split; [done|]. by rewrite Hs.
Qed.
End controlled.

(** ** Sample helpers *)

(** A condition whose status does not change keeps the time of its transition. *)
Definition transitioned (conditions : list Condition) (c : Condition) : Condition :=
  match conditionOf conditions (c_Type c) with
  | Some old =>
    if bool_decide (c_Status old = c_Status c) then
      {| c_Type := c_Type c; c_Status := c_Status c; c_Reason := c_Reason c; c_Message := c_Message c;
         c_ObservedGeneration := c_ObservedGeneration c; c_LastTransitionTime := c_LastTransitionTime old |}
    else c
  | None => c
  end.

Definition setSampleCondition (conditions : list Condition) (c : Condition) : list Condition :=
  filter (λ c', c_Type c' ≠ c_Type c) conditions ++ [transitioned conditions c].

Definition controlledBy (obj owner : ObjectMeta) : bool :=
  existsb (λ r, or_Controller r && str_eqb (or_UID r) (om_UID owner)) (om_OwnerReferences obj).

Definition addController (owner obj : ObjectMeta) : ObjectMeta + Err :=
  if existsb (λ r, or_Controller r && negb (str_eqb (or_UID r) (om_UID owner))) (om_OwnerReferences obj)
  then inr (plainErr "already owned")
  else inl {| om_Name := om_Name obj; om_Namespace := om_Namespace obj; om_UID := om_UID obj;
              om_ResourceVersion := om_ResourceVersion obj; om_Generation := om_Generation obj;
              om_CreationTimestamp := om_CreationTimestamp obj;
              om_DeletionTimestamp := om_DeletionTimestamp obj;
              om_Labels := om_Labels obj; om_Annotations := om_Annotations obj;
              om_OwnerReferences := [{| or_Kind := "Owner"; or_Name := om_Name owner;
                                        or_UID := om_UID owner; or_Controller := true |}];
              om_Finalizers := om_Finalizers obj |}.

Definition sampleHelpers : ObjectHelpers :=
  {| SetStatusCondition := setSampleCondition;
     RemoveStatusCondition cs t := filter (λ c, c_Type c ≠ t) cs;
     IsControlledBy := controlledBy;
     SetControllerReference := addController;
     HasOwnerReference refs owner := inl (existsb (λ r, str_eqb (or_UID r) (om_UID owner)) refs);
     ContainsFinalizer fs f := bool_decide (f ∈ fs);
     AddFinalizer fs f := fs ++ [f];
     RemoveFinalizer fs f := filter (λ f', f' ≠ f) fs |}.

Lemma filter_type_other (cs : list Condition) t t' :
  t ≠ t' → filter (λ c, c_Type c = t) (filter (λ c, c_Type c ≠ t') cs) = filter (λ c, c_Type c = t) cs.
Proof.
  intros Hne. rewrite list_filter_filter. apply list_filter_iff. intros c. split; [by intros [? _]|].
  intros Hc. split; [done|]. congruence.
Qed.

Lemma transitioned_type cs c : c_Type (transitioned cs c) = c_Type c.
Proof. unfold transitioned. destruct (conditionOf _ _); [by case_bool_decide|done]. Qed.

Lemma filter_type_self t cs : filter (λ c, c_Type c = t) (filter (λ c, c_Type c ≠ t) cs) = [].
Proof. rewrite list_filter_filter. induction cs as [|c cs IH]; [done|]. rewrite filter_cons_False; [done|tauto]. Qed.

Lemma conditionOf_set cs c : conditionOf (setSampleCondition cs c) (c_Type c) = Some (transitioned cs c).
Proof.
  unfold conditionOf, setSampleCondition. rewrite filter_app, filter_type_self.
  by rewrite filter_cons_True by apply transitioned_type.
Qed.

Lemma NoDup_filter_types t cs : NoDup (c_Type <$> cs) → NoDup (c_Type <$> filter (λ c, c_Type c ≠ t) cs).
Proof. intros Hn. eapply sublist_NoDup; [exact Hn|]. apply fmap_sublist, sublist_filter. Qed.

Lemma sample_laws : @ConditionLaws sampleHelpers.
Proof.
  split; simpl.
  - intros cs c. exists (transitioned cs c). split; [apply conditionOf_set|].
    unfold transitioned. destruct (conditionOf _ _); [by case_bool_decide|done].
  - intros cs c c'. rewrite conditionOf_set. intros [= <-].
    unfold transitioned. destruct (conditionOf _ _); [by case_bool_decide|done].
  - intros cs c c' old. rewrite conditionOf_set. intros [= <-] Ho Hs. unfold transitioned.
    by rewrite Ho, bool_decide_eq_true_2.
  - intros cs c Hn. unfold setSampleCondition. rewrite fmap_app. apply NoDup_app.
    split_and!; [by apply NoDup_filter_types| |apply NoDup_singleton].
    intros t (c' & -> & Hc')%list_elem_of_fmap Ht. apply list_elem_of_filter in Hc' as [Hne _].
    simpl in Ht. rewrite transitioned_type in Ht. by apply list_elem_of_singleton in Ht.
  - intros cs c t Hne. unfold conditionOf, setSampleCondition. rewrite filter_app, filter_type_other by done.
    rewrite filter_cons_False, filter_nil, app_nil_r; [done|]. by rewrite transitioned_type.
  - intros cs t. unfold conditionOf. by rewrite filter_type_self.
  - intros cs t. apply NoDup_filter_types.
  - intros cs t t' Hne. unfold conditionOf. by rewrite filter_type_other.
Qed.

Lemma sample_owner_laws : @OwnerLaws sampleHelpers.
Proof.
  split; simpl; unfold addController; intros owner obj.
  4:{ intros -> _. by eexists. }
  all: intros m; destruct (existsb _ _) eqn:E; intros [= <-]; try done.
  - unfold controlledBy. simpl. by rewrite str_eqb_refl.
  - by eexists.
  - simpl. by rewrite str_eqb_refl.
Qed.

Lemma sample_finalizer_laws : @FinalizerLaws sampleHelpers.
Proof.
  split; simpl; intros fs f.
  - apply bool_decide_eq_true.
  - intros g. by rewrite elem_of_app, list_elem_of_singleton.
  - intros g. rewrite list_elem_of_filter. tauto.
Qed.
