(* ===== verification/TunnelApi.v ===== *)
(** * The requests of the tunnel controller

    What CloudflareTunnelReconciler asks of the Kubernetes API server and of the
    Cloudflare API, with the answer to each; the parameters it sends
    (internal/client/map.go); and the helpers of the Kubernetes libraries its
    code calls, as the classes [ObjectHelpers] and [SelectorError]. *)
From S2P Require Import Prelude GatewayAPI Samples API Effects Helpers Model.

(** What [metav1.LabelSelectorAsSelector] says of a malformed selector. *)
Class SelectorError := { selectorError : LabelSelector → string }.

(** ** Answers of the Cloudflare API *)

(** [shared.CloudflareTunnel]. *)
Record RemoteTunnel := {
  rt_ID : string;
  rt_Name : string;
  rt_AccountTag : string;
  rt_ConfigSrc : string;
  rt_Status : string;
  rt_CreatedAt : Z;
  rt_ConnsActiveAt : Z;
  rt_ConnsInactiveAt : Z;
  rt_TunType : string;
}.

(** [zero_trust.Teamnet]: a private network route. *)
Record Teamnet := { tn_ID : string; tn_Network : string; tn_VirtualNetworkID : string }.

(** ** Parameters; a field left unset is [None] *)

(** [zero_trust.TunnelCloudflaredNewParams]; a null secret is [None]. *)
Record TunnelNewParams := {
  np_AccountID : string;
  np_Name : string;
  np_ConfigSrc : string;
  np_TunnelSecret : option string;
}.

(** [zero_trust.NetworkRouteNewParams]. *)
Record RouteNewParams := {
  rp_AccountID : string;
  rp_Network : string;
  rp_TunnelID : string;
  rp_Comment : option string;
  rp_VirtualNetworkID : option string;
}.

Record AccessParams := { ap_AUDTag : list string; ap_TeamName : string; ap_Required : bool }.

Record OriginRequestParams := {
  op_Access : AccessParams;
  op_CAPool : string;
  op_ConnectTimeout : Z;
  op_DisableChunkedEncoding : bool;
  op_HTTP2Origin : bool;
  op_HTTPHostHeader : string;
  op_KeepAliveConnections : Z;
  op_KeepAliveTimeout : Z;
  op_NoHappyEyeballs : bool;
  op_NoTLSVerify : bool;
  op_OriginServerName : string;
  op_ProxyType : string;
  op_TCPKeepAlive : Z;
  op_TLSTimeout : Z;
}.

Record IngressParams := {
  ip_Hostname : option string;
  ip_Path : option string;
  ip_Service : string;
  ip_OriginRequest : OriginRequestParams;
}.

(** [TunnelCloudflaredConfigurationUpdateParamsConfig], as far as it is set. *)
Record ConfigParams := {
  cp_Ingress : list IngressParams;
  cp_OriginRequest : OriginRequestParams;
}.

(** *** internal/client/map.go *)

Definition access_update (c : CloudflareTunnelOriginRequestAccess) : AccessParams :=
  {| ap_AUDTag := oa_AudTag c; ap_TeamName := oa_TeamName c; ap_Required := oa_Required c |}.

Definition originRequest_update (c : CloudflareTunnelOriginRequest) : OriginRequestParams :=
  {| op_Access := access_update (o_Access c);
     op_CAPool := o_CaPool c;
     op_ConnectTimeout := o_ConnectTimeout c;
     op_DisableChunkedEncoding := o_DisableChunkedEncoding c;
     op_HTTP2Origin := o_Http2Origin c;
     op_HTTPHostHeader := o_HttpHostHeader c;
     op_KeepAliveConnections := o_KeepAliveConnections c;
     op_KeepAliveTimeout := o_KeepAliveTimeout c;
     op_NoHappyEyeballs := o_NoHappyEyeballs c;
     op_NoTLSVerify := o_NoTlsVerify c;
     op_OriginServerName := o_OriginServerName c;
     op_ProxyType := o_ProxyType c;
     op_TCPKeepAlive := o_TcpKeepAlive c;
     op_TLSTimeout := o_TlsTimeout c |}.

Definition nonempty (s : string) : option string := if str_eqb s "" then None else Some s.

Definition ingress_update (c : CloudflareTunnelConfigIngress) : IngressParams :=
  {| ip_Hostname := nonempty (in_Hostname c);
     ip_Path := nonempty (in_Path c);
     ip_Service := in_Service c;
     ip_OriginRequest := originRequest_update (in_OriginRequest c) |}.

Definition ingressUpdate (c : CloudflareTunnelConfig) : list IngressParams :=
  ingress_update <$> tc_Ingress c.

Definition UpdateParams (c : CloudflareTunnelConfig) : ConfigParams :=
  {| cp_Ingress := ingressUpdate c; cp_OriginRequest := originRequest_update (tc_OriginRequest c) |}.

(** ** Requests *)

(** A write that succeeds or fails is answered by [option Err]. A patch is
    answered by the object the server holds afterwards, which the code goes on
    with. [ApplyDnsRecord] is [controllerutil.CreateOrUpdate], answered by the
    object as applied; its function is run on the object the server holds or,
    when it holds none, on the one given. [Panic] has no answer. *)
Inductive TunnelE : Type → Type :=
  | GetCloudflareTunnel (key : NamespacedName) : TunnelE (CloudflareTunnel + Err)
  | PatchTunnel (original updated : CloudflareTunnel) : TunnelE (CloudflareTunnel + Err)
  | PatchTunnelStatus (original updated : CloudflareTunnel) : TunnelE (CloudflareTunnel + Err)
  | GetSecretSource (key : NamespacedName) : TunnelE (gmap string string + Err)
  | GetConfigMapSource (key : NamespacedName) : TunnelE (gmap string string + Err)
  | ListCloudflareds (ns : string) (selector : gmap string string → bool) : TunnelE (list Cloudflared + Err)
  | UpdateCloudflared (c : Cloudflared) : TunnelE (option Err)
  | CreateCloudflared (c : Cloudflared) : TunnelE (option Err)
  | DeleteCloudflared (c : Cloudflared) : TunnelE (option Err)
  | ListDnsRecords (ns : string) : TunnelE (list DnsRecord + Err)
  | ApplyDnsRecord (obj : DnsRecord) (mutate : DnsRecord → DnsRecord + ApplyErr) : TunnelE (DnsRecord + ApplyErr)
  | DeleteDnsRecord (r : DnsRecord) : TunnelE (option Err)
  | GetZone (zoneId : string) : TunnelE (string + Err)
  | ListRoutes (account tunnelId : string) : TunnelE (list Teamnet + Err)
  | DeleteRoute (account id : string) : TunnelE (option Err)
  | CreateRoute (params : RouteNewParams) : TunnelE (option Err)
  | ListDefaultVirtualNetworks (account : string) : TunnelE (list string + Err)
  | CreateTunnel (params : TunnelNewParams) : TunnelE (RemoteTunnel + Err)
  | ListTunnels (account name : string) : TunnelE (list RemoteTunnel + Err)
  | GetTunnel (id account : string) : TunnelE (RemoteTunnel + Err)
  | EditTunnel (id account name : string) : TunnelE (option RemoteTunnel + Err)
  | UpdateConfiguration (id account : string) (config : ConfigParams) : TunnelE (option Err)
  | DeleteTunnel (id account : string) : TunnelE (option Err)
  | Panic (message : string) : TunnelE Empty_set.

(** The kinds of requests, and the programs that make requests of some kinds
    only. *)
Inductive Kind :=
  | KGetCloudflareTunnel
  | KPatchTunnel
  | KPatchTunnelStatus
  | KGetSecretSource
  | KGetConfigMapSource
  | KListCloudflareds
  | KUpdateCloudflared
  | KCreateCloudflared
  | KDeleteCloudflared
  | KListDnsRecords
  | KApplyDnsRecord
  | KDeleteDnsRecord
  | KGetZone
  | KListRoutes
  | KDeleteRoute
  | KCreateRoute
  | KListDefaultVirtualNetworks
  | KCreateTunnel
  | KListTunnels
  | KGetTunnel
  | KEditTunnel
  | KUpdateConfiguration
  | KDeleteTunnel
  | KPanic.

#[export] Instance Kind_eq_dec : EqDecision Kind.
Proof. solve_decision. Defined.

Definition kindOf {R} (e : TunnelE R) : Kind :=
  match e with
  | GetCloudflareTunnel _ => KGetCloudflareTunnel
  | PatchTunnel _ _ => KPatchTunnel
  | PatchTunnelStatus _ _ => KPatchTunnelStatus
  | GetSecretSource _ => KGetSecretSource
  | GetConfigMapSource _ => KGetConfigMapSource
  | ListCloudflareds _ _ => KListCloudflareds
  | UpdateCloudflared _ => KUpdateCloudflared
  | CreateCloudflared _ => KCreateCloudflared
  | DeleteCloudflared _ => KDeleteCloudflared
  | ListDnsRecords _ => KListDnsRecords
  | ApplyDnsRecord _ _ => KApplyDnsRecord
  | DeleteDnsRecord _ => KDeleteDnsRecord
  | GetZone _ => KGetZone
  | ListRoutes _ _ => KListRoutes
  | DeleteRoute _ _ => KDeleteRoute
  | CreateRoute _ => KCreateRoute
  | ListDefaultVirtualNetworks _ => KListDefaultVirtualNetworks
  | CreateTunnel _ => KCreateTunnel
  | ListTunnels _ _ => KListTunnels
  | GetTunnel _ _ => KGetTunnel
  | EditTunnel _ _ _ => KEditTunnel
  | UpdateConfiguration _ _ _ => KUpdateConfiguration
  | DeleteTunnel _ _ => KDeleteTunnel
  | Panic _ => KPanic
  end.

Definition eventKind (ev : event TunnelE) : Kind := let 'Ev e _ := ev in kindOf e.

Fixpoint only {A} (ks : list Kind) (p : prog TunnelE A) : Prop :=
  match p with
  | Ret _ => True
  | Vis e k => kindOf e ∈ ks ∧ ∀ r, only ks (k r)
  end.

(** Requests of one kind in a trace, with their answers: [omap zoneRead tr] is the
    zones a run read, in order. *)
Definition zoneRead (ev : event TunnelE) : option (string * (string + Err)) :=
  let 'Ev e a := ev in
  match e in TunnelE R return R → option (string * (string + Err)) with
  | GetZone z => λ a, Some (z, a)
  | _ => λ _, None
  end a.

Definition recordsListed (ev : event TunnelE) : option (string * (list DnsRecord + Err)) :=
  let 'Ev e a := ev in
  match e in TunnelE R return R → option _ with
  | ListDnsRecords ns => λ a, Some (ns, a)
  | _ => λ _, None
  end a.

Definition recordApplied (ev : event TunnelE)
    : option (DnsRecord * (DnsRecord → DnsRecord + ApplyErr) * (DnsRecord + ApplyErr)) :=
  let 'Ev e a := ev in
  match e in TunnelE R return R → option _ with
  | ApplyDnsRecord obj mutate => λ a, Some (obj, mutate, a)
  | _ => λ _, None
  end a.

Definition recordDeleted (ev : event TunnelE) : option DnsRecord :=
  let 'Ev e _ := ev in
  match e with DeleteDnsRecord r => Some r | _ => None end.

Definition routesListed (ev : event TunnelE) : option (string * string * (list Teamnet + Err)) :=
  let 'Ev e a := ev in
  match e in TunnelE R return R → option _ with
  | ListRoutes account tunnelId => λ a, Some (account, tunnelId, a)
  | _ => λ _, None
  end a.

Definition routeDeleted (ev : event TunnelE) : option (string * string) :=
  let 'Ev e _ := ev in
  match e with DeleteRoute account id => Some (account, id) | _ => None end.

Definition routeCreated (ev : event TunnelE) : option (RouteNewParams * option Err) :=
  let 'Ev e a := ev in
  match e in TunnelE R return R → option _ with
  | CreateRoute params => λ a, Some (params, a)
  | _ => λ _, None
  end a.

Definition networksListed (ev : event TunnelE) : option (string * (list string + Err)) :=
  let 'Ev e a := ev in
  match e in TunnelE R return R → option _ with
  | ListDefaultVirtualNetworks account => λ a, Some (account, a)
  | _ => λ _, None
  end a.

(** [patch] and [patchSubResource] of clientutil.go. *)
Definition patch (t : CloudflareTunnel) (update : CloudflareTunnel → CloudflareTunnel)
    : prog TunnelE (CloudflareTunnel + Err) :=
  call (PatchTunnel t (update t)).

Definition patchSubResource (t : CloudflareTunnel) (update : CloudflareTunnel → CloudflareTunnel)
    : prog TunnelE (CloudflareTunnel + Err) :=
  call (PatchTunnelStatus t (update t)).

(** ** Properties *)

Lemma nonempty_Some s x : nonempty s = Some x ↔ s = x ∧ x ≠ "".
Proof. unfold nonempty. destruct (str_eqb s "") eqn:E; str_simpl; naive_solver. Qed.

Lemma nonempty_default s : default "" (nonempty s) = s.
Proof. unfold nonempty. destruct (str_eqb s "") eqn:E; str_simpl; by subst. Qed.

Lemma only_bind {A B} ks (p : prog TunnelE A) (f : A → prog TunnelE B) :
  only ks p → (∀ a, only ks (f a)) → only ks (bind p f).
Proof. intros Hp Hf. induction p as [a|R e k IH]; simpl; [done|]. destruct Hp. split; [done|]. intros r. by apply IH. Qed.

Lemma only_call {R} ks (e : TunnelE R) : kindOf e ∈ ks → only ks (call e).
Proof. intros He. by split. Qed.

Lemma only_exec {A} ks (p : prog TunnelE A) tr a :
  only ks p → exec p tr a → Forall (λ ev, eventKind ev ∈ ks) tr.
Proof.
  intros Hp Hx. induction Hx as [a|R e k r tr a Hx IH]; [constructor|].
  destruct Hp as [He Hk]. constructor; [done|]. by apply IH.
Qed.

(** Requests that a program does not make are not in its traces. *)
Lemma only_omap {A B} ks (p : prog TunnelE A) (view : event TunnelE → option B) tr a :
  only ks p → (∀ ev, eventKind ev ∈ ks → view ev = None) → exec p tr a → omap view tr = [].
Proof.
  intros Hp Hv Hx. apply (only_exec ks) in Hx; [|done].
  induction Hx as [|ev tr He _ IH]; [done|]. by rewrite omap_cons_eq, (Hv _ He).
Qed.

(** Shows what kinds of requests a program without loops makes. *)
Ltac only_step :=
  match goal with
  | |- only _ (bind _ _) => apply only_bind; [|intros ?]
  | |- only _ (call _) => apply only_call; simpl; set_solver
  | |- only _ (Ret _) => exact I
  | |- only _ (match ?x with _ => _ end) => destruct x
  end.

(** ** Sample helpers, objects and answers *)

Definition sampleIngress (host : string) (zone : option string) : CloudflareTunnelConfigIngress :=
  {| in_Dns := (λ z, {| td_ZoneId := z; td_Proxied := None; td_Ttl := None |}) <$> zone;
     in_Hostname := host; in_Service := "http://svc"; in_OriginRequest := emptyOriginRequest;
     in_Path := "" |}.

Definition sampleTunnelSpec (ingress : list CloudflareTunnelConfigIngress)
    (routes : list CloudflareTunnelRoute) : CloudflareTunnelSpec :=
  {| t_AccountId := "account"; t_Cloudflared := None;
     t_Config := Some {| tc_Ingress := ingress; tc_OriginRequest := emptyOriginRequest; tc_WarpRouting := None |};
     t_ConfigSource := CloudflareCloudflareTunnelConfigSource; t_Dns := None; t_Name := "";
     t_Routes := routes; t_TunnelSecret := None |}.

Definition sampleTunnelStatus (id : option string) : CloudflareTunnelStatus :=
  {| tst_AccountTag := "account"; tst_Conditions := []; tst_ConnectionsActiveAt := 0;
     tst_ConnectionsInactiveAt := 0; tst_CreatedAt := 0; tst_Id := id; tst_DnsRecords := 0;
     tst_DnsRecordsReady := 0; tst_RoutesReady := 0; tst_Instances := 0; tst_Name := "";
     tst_RemoteConfig := true; tst_Status := ""; tst_Type := "" |}.

Definition sampleTunnel (id : option string) (ingress : list CloudflareTunnelConfigIngress)
    (routes : list CloudflareTunnelRoute) : CloudflareTunnel :=
  {| tun_ObjectMeta := sampleMeta "default" "tunnel"; tun_Spec := sampleTunnelSpec ingress routes;
     tun_Status := sampleTunnelStatus id |}.
