(* ===== verification/Dns.v ===== *)
(** * DNS records of a tunnel (internal/controller/dns.go, cloudflaretunnel_dns.go)

    The DNS settings of each hostname a tunnel routes, and the reconciliation
    that converges the DnsRecord objects the tunnel owns on one record for each
    of them. *)
From S2P Require Import Prelude GatewayAPI API Effects Helpers Model Envoy TunnelApi.

(** ** dns.go *)

Definition dnsTtlAutomatic : Z := 1.
Definition dnsProxiedDefault : bool := true.

Record resolvedDns := { rd_ZoneId : string; rd_Proxied : bool; rd_Ttl : Z }.

#[export] Instance resolvedDns_eq_dec : EqDecision resolvedDns.
Proof. solve_decision. Defined.

(** One level of the loop of [resolveDns]. *)
Definition resolveLevel (resolved : resolvedDns) (level : option CloudflareTunnelDns) : resolvedDns :=
  match level with
  | None => resolved
  | Some level =>
    {| rd_ZoneId := if negb (str_eqb (td_ZoneId level) "") then td_ZoneId level else rd_ZoneId resolved;
       rd_Proxied := default (rd_Proxied resolved) (td_Proxied level);
       rd_Ttl := default (rd_Ttl resolved) (td_Ttl level) |}
  end.

Definition resolveDns (tunnel entry : option CloudflareTunnelDns) : resolvedDns * bool :=
  let resolved := foldl resolveLevel
    {| rd_ZoneId := ""; rd_Proxied := dnsProxiedDefault; rd_Ttl := dnsTtlAutomatic |}
    [tunnel; entry] in
  (resolved, negb (str_eqb (rd_ZoneId resolved) "")).

Definition tunnelTarget (id : string) : string := id +:+ ".cfargotunnel.com".

(** ** Desired records *)

Definition typeDnsReadyCloudflareTunnel := "DnsReady".
Definition reasonDnsRecordsReady := "RecordsReady".
Definition reasonDnsRecordsPending := "RecordsPending".

Record tunnelDns := { d_desired : Z; d_ready : Z; d_problems : list string }.

Definition setDns (st : CloudflareTunnelStatus) (conditions : list Condition)
    (desired ready : Z) : CloudflareTunnelStatus :=
  {| tst_AccountTag := tst_AccountTag st; tst_Conditions := conditions;
     tst_ConnectionsActiveAt := tst_ConnectionsActiveAt st;
     tst_ConnectionsInactiveAt := tst_ConnectionsInactiveAt st;
     tst_CreatedAt := tst_CreatedAt st; tst_Id := tst_Id st; tst_DnsRecords := desired;
     tst_DnsRecordsReady := ready; tst_RoutesReady := tst_RoutesReady st;
     tst_Instances := tst_Instances st; tst_Name := tst_Name st;
     tst_RemoteConfig := tst_RemoteConfig st; tst_Status := tst_Status st; tst_Type := tst_Type st |}.

(** [tunnelDns.apply]. *)
Definition dns_apply `{ObjectHelpers} (d : tunnelDns) (st : CloudflareTunnelStatus) : CloudflareTunnelStatus :=
  let conditions :=
    if (d_desired d =? 0)%Z then RemoveStatusCondition (tst_Conditions st) typeDnsReadyCloudflareTunnel
    else
      let message := fmt_d (d_ready d) +:+ " of " +:+ fmt_d (d_desired d) +:+ " DNS records point at the tunnel" in
      SetStatusCondition (tst_Conditions st)
        (if (d_ready d <? d_desired d)%Z
         then mkCondition typeDnsReadyCloudflareTunnel ConditionFalse reasonDnsRecordsPending message
         else mkCondition typeDnsReadyCloudflareTunnel ConditionTrue reasonDnsRecordsReady message) in
  setDns st conditions (d_desired d) (d_ready d).

(** [tunnelDns.problem]. *)
Definition dns_problem (d : tunnelDns) : string := join "; " (d_problems d).

Definition conflictProblem (host : string) : string :=
  "the entries for hostname " +:+ host +:+ " resolve to different DNS settings".

(** The first loop of [desiredDnsRecords]: the hostnames in the order they first
    appear, and the settings of each one's entries. *)
Definition collectSettings (tunnelLevel : option CloudflareTunnelDns)
    (ingress : list CloudflareTunnelConfigIngress) : gmap string (list resolvedDns) * list string :=
  foldl (λ '(settings, order) entry,
    if str_eqb (in_Hostname entry) "" then (settings, order)
    else
      let host := to_lower (in_Hostname entry) in
      let seen := settings !! host in
      let order' := match seen with Some _ => order | None => order ++ [host] end in
      let resolved := (resolveDns tunnelLevel (in_Dns entry)).1 in
      (<[host := default [] seen ++ [resolved]]> settings, order')) (∅, []) ingress.

(** The second loop. Every hostname of the order has settings. *)
Definition settleHost (settings : gmap string (list resolvedDns))
    (acc : gmap string resolvedDns * list string) (host : string) : gmap string resolvedDns * list string :=
  let '(desired, problems) := acc in
  match settings !! host with
  | Some (first :: rest) =>
    if existsb (λ r, negb (bool_decide (r = first))) rest then
      (desired, problems ++ [conflictProblem host])
    else if negb (str_eqb (rd_ZoneId first) "") then (<[host := first]> desired, problems)
    else (desired, problems)
  | _ => (desired, problems)
  end.

Definition desiredDnsRecords (tunnel : CloudflareTunnel) : gmap string resolvedDns * list string :=
  match t_Config (tun_Spec tunnel) with
  | None => (∅, [])
  | Some config =>
    let '(settings, order) := collectSettings (t_Dns (tun_Spec tunnel)) (tc_Ingress config) in
    foldl (settleHost settings) (∅, []) order
  end.

Definition inZone (host zone : string) : bool :=
  let zone := to_lower zone in
  str_eqb host zone || has_suffix ("." +:+ zone) host.

(** [strings.TrimRight]: without the longest suffix of bytes of the cutset. *)
Fixpoint trimRight (s cutset : string) : string :=
  match s with
  | EmptyString => ""
  | String a s' =>
    match trimRight s' cutset with
    | EmptyString => if existsb (Ascii.eqb a) (String.list_ascii_of_string cutset) then "" else String a ""
    | t => String a t
    end
  end.

Definition dnsRecordName `{Sha256} (tunnel : CloudflareTunnel) (host : string) : string :=
  let digest := Sum256 host in
  let suffix := "-" +:+ hexEncode (String.substring 0 10 digest) in
  let prefix := om_Name (tun_ObjectMeta tunnel) in
  let limit := 253 - String.length suffix in
  let prefix := if Nat.ltb limit (String.length prefix)
                then trimRight (String.substring 0 limit prefix) ".-" else prefix in
  prefix +:+ suffix.

Definition zoneIds (desired : gmap string resolvedDns) : gset string :=
  list_to_set (rd_ZoneId <$> (map_to_list desired).*2).

(** ** Reconciliation *)

Section reconcile.
Context `{ObjectHelpers, Sha256}.

(** The loop that reads the zones: their names, empty for one that does not
    exist, and none for one the token may not read. *)
Fixpoint readZones (ids : list string) (zoneNames : gmap string string)
    : prog TunnelE (gmap string string + Err) :=
  match ids with
  | [] => Ret (inl zoneNames)
  | zoneId :: ids =>
    do zone <- call (GetZone zoneId);
    match zone with
    | inr err =>
      if IsForbidden err then readZones ids zoneNames
      else if IsNotFound err then readZones ids (<[zoneId := ""]> zoneNames)
      else Ret (inr (wrapErr ("reading zone " +:+ zoneId) err))
    | inl name => readZones ids (<[zoneId := name]> zoneNames)
    end
  end.

Definition missingZoneProblem (host zoneId : string) : string :=
  "hostname " +:+ host +:+ " names zone " +:+ zoneId +:+ ", which does not exist".
Definition outsideZoneProblem (host name zoneId : string) : string :=
  "hostname " +:+ host +:+ " is not in zone " +:+ name +:+ " (" +:+ zoneId +:+ ")".
Definition notOwnedProblem (name host : string) : string :=
  "DnsRecord " +:+ name +:+ " for hostname " +:+ host +:+ " exists and is not owned by the tunnel".

(** What the second loop of [reconcileDns] has found. *)
Record zoneCheck := {
  zc_desired : gmap string resolvedDns;
  zc_problems : list string;
  zc_keep : gset string;
}.

(** One iteration of it; [host] is a key of the map it started from. *)
Definition checkHost (tunnel : CloudflareTunnel) (zoneNames : gmap string string)
    (all : gmap string resolvedDns) (st : zoneCheck) (host : string) : zoneCheck :=
  match all !! host with
  | None => st
  | Some settings =>
    let zoneId := rd_ZoneId settings in
    match zoneNames !! zoneId with
    | None => st
    | Some name =>
      if str_eqb name "" then
        {| zc_desired := delete host (zc_desired st);
           zc_problems := zc_problems st ++ [missingZoneProblem host zoneId];
           zc_keep := {[ dnsRecordName tunnel host ]} ∪ zc_keep st |}
      else if negb (inZone host name) then
        {| zc_desired := delete host (zc_desired st);
           zc_problems := zc_problems st ++ [outsideZoneProblem host name zoneId];
           zc_keep := zc_keep st |}
      else st
    end
  end.

Definition checkZones (tunnel : CloudflareTunnel) (zoneNames : gmap string string)
    (desired : gmap string resolvedDns) (problems : list string) : zoneCheck :=
  foldl (checkHost tunnel zoneNames desired)
    {| zc_desired := desired; zc_problems := problems; zc_keep := ∅ |} (sortedKeys desired).

(** The object [reconcileDns] hands to [CreateOrUpdate], and the function. *)
Definition emptyRecordData : DnsRecordData :=
  {| dr_ARecord := None; dr_AAAARecord := None; dr_CAARecord := None; dr_CNAMERecord := None;
     dr_TXTRecord := None |}.

Definition emptyDnsRecord (ns name : string) : DnsRecord :=
  {| dns_ObjectMeta :=
       {| om_Name := name; om_Namespace := ns; om_UID := ""; om_ResourceVersion := "";
          om_Generation := 0; om_CreationTimestamp := 0; om_DeletionTimestamp := None;
          om_Labels := ∅; om_Annotations := ∅; om_OwnerReferences := []; om_Finalizers := [] |};
     dns_Spec := {| ds_ZoneId := ""; ds_Record := emptyRecordData |};
     dns_Status := {| dst_Id := None; dst_Name := None; dst_Comment := None;
                      dst_Content := None; dst_Type := None |} |}.

Definition cnameSpec (tunnel : CloudflareTunnel) (host : string) (settings : resolvedDns) : DnsRecordSpec :=
  {| ds_ZoneId := rd_ZoneId settings;
     ds_Record :=
       {| dr_ARecord := None; dr_AAAARecord := None; dr_CAARecord := None;
          dr_CNAMERecord := Some
            {| cn_Comment := ""; cn_Content := "";
               cn_TunnelRef := Some {| dtr_Name := om_Name (tun_ObjectMeta tunnel) |};
               cn_Name := host; cn_Proxied := rd_Proxied settings;
               cn_Settings := {| cns_RecordSettings := {| rs_Ipv4Only := false; rs_Ipv6Only := false |};
                                 cns_FlattenCname := false |};
               cn_Tags := []; cn_Ttl := rd_Ttl settings; cn_Type := "CNAME" |};
          dr_TXTRecord := None |} |}.

Definition mutateRecord (tunnel : CloudflareTunnel) (host : string) (settings : resolvedDns)
    (record : DnsRecord) : DnsRecord + ApplyErr :=
  if negb (str_eqb (om_ResourceVersion (dns_ObjectMeta record)) "")
     && negb (IsControlledBy (dns_ObjectMeta record) (tun_ObjectMeta tunnel))
  then inr NotControlled
  else
    match SetControllerReference (tun_ObjectMeta tunnel) (dns_ObjectMeta record) with
    | inl om => inl {| dns_ObjectMeta := om; dns_Spec := cnameSpec tunnel host settings;
                       dns_Status := dns_Status record |}
    | inr e => inr (ApplyFailed e)
    end.

Definition dnsRecordReady (record : DnsRecord) (tunnelId : string) : bool :=
  match dst_Id (dns_Status record), dst_Content (dns_Status record) with
  | Some _, Some content => str_eqb content (tunnelTarget tunnelId)
  | _, _ => false
  end.

(** [ownedDnsRecords]. *)
Definition ownedDnsRecords (tunnel : CloudflareTunnel) : prog TunnelE (list DnsRecord + Err) :=
  do records <- call (ListDnsRecords (om_Namespace (tun_ObjectMeta tunnel)));
  match records with
  | inr err => Ret (inr (wrapErr "listing DnsRecords" err))
  | inl items => Ret (inl (filter (λ r, IsControlledBy (dns_ObjectMeta r) (tun_ObjectMeta tunnel) = true) items))
  end.

(** The loop that applies the records. *)
Fixpoint applyRecords (tunnel : CloudflareTunnel) (tunnelId : string)
    (desired : gmap string resolvedDns) (hosts : list string) (keep : gset string) (result : tunnelDns)
    : prog TunnelE ((gset string * tunnelDns) + Err) :=
  match hosts with
  | [] => Ret (inl (keep, result))
  | host :: hosts =>
    match desired !! host with
    | None => applyRecords tunnel tunnelId desired hosts keep result
    | Some settings =>
      let name := dnsRecordName tunnel host in
      do applied <- call (ApplyDnsRecord (emptyDnsRecord (om_Namespace (tun_ObjectMeta tunnel)) name)
                            (mutateRecord tunnel host settings));
      match applied with
      | inr NotControlled =>
        applyRecords tunnel tunnelId desired hosts keep
          {| d_desired := d_desired result; d_ready := d_ready result;
             d_problems := d_problems result ++ [notOwnedProblem name host] |}
      | inr (ApplyFailed err) => Ret (inr (wrapErr ("applying DnsRecord " +:+ name) err))
      | inl record =>
        applyRecords tunnel tunnelId desired hosts ({[ om_Name (dns_ObjectMeta record) ]} ∪ keep)
          {| d_desired := wrap32 (d_desired result + 1);
             d_ready := if dnsRecordReady record tunnelId then wrap32 (d_ready result + 1) else d_ready result;
             d_problems := d_problems result |}
      end
    end
  end.

(** The loop that deletes the others. *)
Fixpoint deleteRecords (owned : list DnsRecord) (keep : gset string) : prog TunnelE (() + Err) :=
  match owned with
  | [] => Ret (inl ())
  | record :: owned =>
    let name := om_Name (dns_ObjectMeta record) in
    if bool_decide (name ∈ keep) then deleteRecords owned keep
    else
      do err <- call (DeleteDnsRecord record);
      match k8s_IgnoreNotFound err with
      | Some err => Ret (inr (wrapErr ("deleting DnsRecord " +:+ name) err))
      | None => deleteRecords owned keep
      end
  end.

Definition reconcileDns (tunnel : CloudflareTunnel) (tunnelId : string) : prog TunnelE (tunnelDns + Err) :=
  let '(desired, problems) := desiredDnsRecords tunnel in
  do? zoneNames <- readZones (sort_by String.compare (elements (zoneIds desired))) ∅;
  let checked := checkZones tunnel zoneNames desired problems in
  do? owned <- ownedDnsRecords tunnel;
  do? applied <- applyRecords tunnel tunnelId (zc_desired checked) (sortedKeys (zc_desired checked))
                   (zc_keep checked)
                   {| d_desired := 0; d_ready := 0; d_problems := zc_problems checked |};
  do? _ <- deleteRecords owned applied.1;
  Ret (inl applied.2).
End reconcile.

(** ** Settings of a hostname *)

(** The first of two optional values that is set. *)
Definition firstSet {A} (a b : option A) : option A := match a with Some _ => a | None => b end.

(** Each DNS setting of a hostname is the ingress entry's where the entry sets
    it, else the tunnel's where the tunnel sets it, else the default (no zone,
    proxied, automatic TTL): a false or a zero counts as set. A zone resolves
    exactly when one level names one. *)
Theorem resolveDns_spec tunnel entry :
  let '(r, ok) := resolveDns tunnel entry in
  let zone (l : option CloudflareTunnelDns) := l ≫= λ d, nonempty (td_ZoneId d) in
  rd_ZoneId r = default "" (firstSet (zone entry) (zone tunnel)) ∧
  rd_Proxied r = default true (firstSet (entry ≫= td_Proxied) (tunnel ≫= td_Proxied)) ∧
  rd_Ttl r = default 1%Z (firstSet (entry ≫= td_Ttl) (tunnel ≫= td_Ttl)) ∧
  (ok = true ↔ is_Some (zone entry) ∨ is_Some (zone tunnel)).
Proof.
  assert (∀ a b, (if negb (str_eqb a "") then a else b) = default b (nonempty a)) as Hd.
  { intros a b. unfold nonempty. by destruct (str_eqb a ""). }
  assert (∀ a b : option string, default (default "" b) a = default "" (firstSet a b)) as Hf by by intros [].
  assert (∀ A (c : A) a b, default (default c b) a = default c (firstSet a b)) as Hf' by by intros ?? [].
  assert (∀ A (a : option A), firstSet a None = a) as Hr by by intros ? [].
  assert (∀ z, is_Some z ∧ z ≠ Some "" ↔ default "" z ≠ "") as Hs.
  { intros [z|]; simpl; [|split; [by intros [[] _]|done]].
    split; [intros [_ Hz] ->; by apply Hz|]. intros Hz. split; [eauto|congruence]. }
  assert (∀ s, nonempty s ≠ Some "") as Hn.
  { intros s [_ Hn]%nonempty_Some. done. }
  assert (∀ a b : option string, a ≠ Some "" → b ≠ Some "" →
    (negb (str_eqb (default "" (firstSet a b)) "") = true ↔ is_Some a ∨ is_Some b)) as Hok.
  { intros a b Ha Hb. rewrite negb_true_iff, str_eqb_neq, <- Hs. destruct a as [a|]; simpl.
    - split; [by intros [? _]; left|]. intros _. split; [eauto|done].
    - split; [by intros [? _]; right|]. intros [[]|?]; done. }
  destruct tunnel as [t|], entry as [e|]; cbn -[str_eqb nonempty]; rewrite ?Hd;
    rewrite ?Hf', ?Hr; (split_and!; [done..|]).
  - by apply (Hok (nonempty _) (nonempty _)).
  - by apply (Hok None (nonempty (td_ZoneId t))).
  - pose proof (Hok (nonempty (td_ZoneId e)) None) as Hk. rewrite Hr in Hk. by apply Hk.
  - by apply (Hok None None).
Qed.

(** The settings of the entries of a hostname, in order. *)
Definition ingressEntries (level : option CloudflareTunnelDns) (ingress : list CloudflareTunnelConfigIngress)
    (host : string) : list resolvedDns :=
  omap (λ e, if negb (str_eqb (in_Hostname e) "") && str_eqb (to_lower (in_Hostname e)) host
             then Some (resolveDns level (in_Dns e)).1 else None) ingress.

Definition hostSettings (tunnel : CloudflareTunnel) : string → list resolvedDns :=
  ingressEntries (t_Dns (tun_Spec tunnel)) (from_option tc_Ingress [] (t_Config (tun_Spec tunnel))).

Lemma elem_of_ingressEntries level ingress host r :
  r ∈ ingressEntries level ingress host ↔
  ∃ e, e ∈ ingress ∧ in_Hostname e ≠ "" ∧ to_lower (in_Hostname e) = host ∧
       r = (resolveDns level (in_Dns e)).1.
Proof.
  unfold ingressEntries. rewrite list_elem_of_omap. split.
  - intros (e & He & Hr). destruct (_ && _) eqn:E; [|done]. str_simpl. injection Hr as <-. by exists e.
  - intros (e & He & Hh & <- & ->). exists e. apply str_eqb_neq in Hh. by rewrite Hh, str_eqb_refl.
Qed.

Lemma ingressEntries_snoc level ingress e host :
  ingressEntries level (ingress ++ [e]) host = ingressEntries level ingress host ++
    (if negb (str_eqb (in_Hostname e) "") && str_eqb (to_lower (in_Hostname e)) host
     then [(resolveDns level (in_Dns e)).1] else []).
Proof.
  unfold ingressEntries. rewrite omap_app. f_equal. cbn [omap list_omap]. by destruct (_ && _).
Qed.

Lemma collectSettings_spec level ingress :
  let '(settings, order) := collectSettings level ingress in
  NoDup order ∧
  ∀ h, default [] (settings !! h) = ingressEntries level ingress h ∧
    (settings !! h = None ↔ ingressEntries level ingress h = []) ∧
    (h ∈ order ↔ ingressEntries level ingress h ≠ []).
Proof.
  unfold collectSettings. induction ingress as [|e ingress IH] using rev_ind.
  { simpl. split; [constructor|]. intros h. split_and!; [done..|]. set_solver. }
  rewrite foldl_snoc. destruct (foldl _ _ _) as [settings order]. destruct IH as [Hnd IH].
  destruct (str_eqb (in_Hostname e) "") eqn:E.
  - split; [done|]. intros h. rewrite ingressEntries_snoc, E, app_nil_r. apply IH.
  - set (host := to_lower (in_Hostname e)). split.
    + destruct (settings !! host) eqn:Es; [done|]. apply NoDup_app. split_and!; [done| |apply NoDup_singleton].
      intros h Hin ->%list_elem_of_singleton. destruct (IH host) as (_ & Hs & Ho). apply Ho in Hin.
      by apply Hin, Hs.
    + intros h. rewrite ingressEntries_snoc, E. destruct (IH h) as (Hd & Hs & Ho).
      destruct (decide (h = host)) as [->|Hne].
      * rewrite (str_eqb_refl host : str_eqb (to_lower _) host = true), lookup_insert_eq.
        cbn [negb andb default]. rewrite <- Hd. split_and!; [done| |].
        -- split; [done|]. by intros [? ?]%app_nil.
        -- split; [by intros _ [? ?]%app_nil|]. intros _. destruct (settings !! host) as [s|] eqn:Es.
           ++ apply Ho. intros Hn. apply Hs in Hn. congruence.
           ++ apply elem_of_app. right. by left.
      * rewrite lookup_insert_ne by done.
        rewrite (proj2 (str_eqb_neq (to_lower (in_Hostname e)) h)) by done. simpl. rewrite app_nil_r.
        split_and!; [done..|]. rewrite <- Ho.
        destruct (settings !! host); [done|]. rewrite elem_of_app, list_elem_of_singleton. tauto.
Qed.

(** Two entries of the hostname resolve to different settings. *)
Definition conflicting (rs : list resolvedDns) : bool :=
  match rs with
  | [] => false
  | first :: rest => existsb (λ r, negb (bool_decide (r = first))) rest
  end.

Lemma conflicting_spec rs : conflicting rs = true ↔ ∃ r1 r2, r1 ∈ rs ∧ r2 ∈ rs ∧ r1 ≠ r2.
Proof.
  destruct rs as [|first rest]; simpl; [split; [done|intros (? & ? & ?%not_elem_of_nil & _); done]|].
  rewrite existsb_spec. setoid_rewrite negb_true_iff. setoid_rewrite bool_decide_eq_false. split.
  - intros (r & Hr & Hne). exists r, first. split_and!; [by right|by left|done].
  - intros (r1 & r2 & H1 & H2 & Hne). destruct (decide (r1 = first)) as [->|H1'].
    + exists r2. apply elem_of_cons in H2 as [->|H2]; [done|]. by split.
    + exists r1. apply elem_of_cons in H1 as [->|H1]; [done|]. by split.
Qed.

Lemma not_conflicting_spec rs r :
  conflicting rs = false → r ∈ rs → ∀ r', r' ∈ rs → r' = r.
Proof.
  intros Hc Hr r' Hr'. destruct (decide (r' = r)); [done|].
  apply not_true_iff_false in Hc as []. apply conflicting_spec. by exists r', r.
Qed.

Lemma settle_fold settings order :
  NoDup order → (∀ h, h ∈ order → settings !! h ≠ None ∧ settings !! h ≠ Some []) →
  let '(desired, problems) := foldl (settleHost settings) (∅, []) order in
  let entries h := default [] (settings !! h) in
  (∀ h r, desired !! h = Some r ↔
     h ∈ order ∧ rd_ZoneId r ≠ "" ∧ conflicting (entries h) = false ∧ r ∈ entries h) ∧
  problems = conflictProblem <$> filter (λ h, conflicting (entries h) = true) order.
Proof.
  induction order as [|h order IH] using rev_ind; intros Hnd Hne.
  { simpl. split; [|done]. intros h r. rewrite lookup_empty. set_solver. }
  apply NoDup_app in Hnd as (Hnd & Hnin & _). rewrite foldl_snoc.
  assert (h ∉ order) as Hh by (intros Hin; eapply Hnin; [done|by left]).
  specialize (IH Hnd). destruct (foldl _ _ _) as [desired problems].
  destruct IH as [IHd IHp]; [intros h' Hin; apply Hne; set_solver|].
  destruct (Hne h) as [H1 H2]; [set_solver|]. cbv zeta in *.
  set (entries h := default [] (settings !! h)) in *.
  assert (settleHost settings (desired, problems) h =
    if conflicting (entries h) then (desired, problems ++ [conflictProblem h])
    else match entries h with
         | r :: _ => if negb (str_eqb (rd_ZoneId r) "") then (<[h := r]> desired, problems) else (desired, problems)
         | [] => (desired, problems)
         end) as ->.
  { unfold settleHost, entries. by destruct (settings !! h) as [[|first rest]|]. }
  assert (desired !! h = None) as Hfresh.
  { apply eq_None_not_Some. intros [r [? _]%IHd]. done. }
  assert (∀ h' r, h' ∈ order ++ [h] ∧ rd_ZoneId r ≠ "" ∧ conflicting (entries h') = false ∧ r ∈ entries h' ↔
    desired !! h' = Some r ∨ h' = h ∧ rd_ZoneId r ≠ "" ∧ conflicting (entries h) = false ∧ r ∈ entries h) as Hiff.
  { intros h' r. rewrite IHd, elem_of_app, list_elem_of_singleton. split; [|intuition congruence].
    intros ([?| ->] & ?); [by left|by right]. }
  rewrite filter_app. destruct (conflicting (entries h)) eqn:Ec.
  { split; [intros h' r; rewrite Hiff; naive_solver|].
    rewrite filter_cons_True, filter_nil by done. by rewrite fmap_app, IHp. }
  rewrite (filter_cons_False _ h) by congruence. rewrite filter_nil, app_nil_r.
  assert (∃ r0, entries h = r0 :: tail (entries h)) as [r0 Er].
  { unfold entries in *. destruct (settings !! h) as [[|? ?]|]; [done|by eexists|done]. }
  assert (∀ r, r ∈ entries h ↔ r = r0) as Hin.
  { intros r. split; [|intros ->; rewrite Er; by left]. intros Hr.
    apply (not_conflicting_spec (entries h)); [done| |done]. rewrite Er. by left. }
  rewrite Er. destruct (str_eqb (rd_ZoneId r0) "") eqn:Ez; str_simpl; (split; [|done]); intros h' r; rewrite Hiff, Hin.
  - split; [by left|]. intros [?|(_ & Hz & _ & ->)]; done.
  - rewrite lookup_insert_Some. split.
    + intros [[<- <-]|[_ ?]]; [right|left]; done.
    + intros [Hd|(-> & _ & _ & ->)]; [|by left]. right. split; [|done]. intros <-. congruence.
Qed.

(** The records a tunnel wants: a hostname (compared in lower case) is wanted,
    with certain settings, exactly when the tunnel has entries for it, all of
    them resolve to those settings, and the settings name a zone. A hostname
    whose entries disagree is reported, once, and never wanted; whether it is
    does not depend on the order of the entries. *)
Theorem desiredDnsRecords_spec tunnel :
  let '(desired, problems) := desiredDnsRecords tunnel in
  (∀ host r, desired !! host = Some r ↔
     rd_ZoneId r ≠ "" ∧ r ∈ hostSettings tunnel host ∧ ∀ r', r' ∈ hostSettings tunnel host → r' = r) ∧
  ∃ conflicts, problems = conflictProblem <$> conflicts ∧ NoDup conflicts ∧
    ∀ host, host ∈ conflicts ↔
      ∃ r1 r2, r1 ∈ hostSettings tunnel host ∧ r2 ∈ hostSettings tunnel host ∧ r1 ≠ r2.
Proof.
  unfold desiredDnsRecords, hostSettings. destruct (t_Config (tun_Spec tunnel)) as [config|]; simpl.
  2:{ split; [intros host r; rewrite lookup_empty; set_solver|]. exists []. split_and!; [done|constructor|set_solver]. }
  pose proof (collectSettings_spec (t_Dns (tun_Spec tunnel)) (tc_Ingress config)) as Hc.
  destruct (collectSettings _ _) as [settings order]. destruct Hc as [Hnd Hc].
  pose proof (settle_fold settings order Hnd) as Hf. destruct (foldl _ _ _) as [desired problems].
  destruct Hf as [Hd ->].
  { intros h Hh. destruct (Hc h) as (He & Hs & Ho). apply Ho in Hh. split; [by intros ?%Hs|].
    intros E. rewrite E in He. simpl in He. congruence. }
  split.
  - intros host r. rewrite Hd. destruct (Hc host) as (He & _ & Ho). rewrite He. split.
    + intros (_ & Hz & Hcf & Hr). split_and!; [done..|]. by apply not_conflicting_spec.
    + intros (Hz & Hr & Hall). split_and!; [|done| |done].
      * apply Ho. by intros Hn; rewrite Hn in Hr; apply not_elem_of_nil in Hr.
      * apply not_true_iff_false. intros (r1 & r2 & ?%Hall & ?%Hall & Hne)%conflicting_spec. congruence.
  - eexists. split; [done|]. split; [by apply NoDup_filter|]. intros host.
    rewrite list_elem_of_filter, <- conflicting_spec. destruct (Hc host) as (-> & _ & ->).
    split; [by intros [? _]|]. intros Hcf. split; [done|]. intros Hn. by rewrite Hn in Hcf.
Qed.

(** ** What a reconciliation did *)

Section reconciled.
Context `{ObjectHelpers, Sha256}.

(** A trace without requests about DNS records, of one kind or another. *)
Definition noRecordEvents (tr : list (event TunnelE)) : Prop :=
  omap recordsListed tr = [] ∧ omap recordApplied tr = [] ∧ omap recordDeleted tr = [].

(** The name an answer gives a zone: its name, the empty one when the API says
    there is no such zone, and none when the token may not read it. *)
Definition answerName (a : string + Err) : option string :=
  match a with
  | inl n => Some n
  | inr e => if IsForbidden e then None else if IsNotFound e then Some "" else None
  end.

Definition zoneSays (reads : list (string * (string + Err))) (zoneId name : string) : Prop :=
  ∃ a, (zoneId, a) ∈ reads ∧ answerName a = Some name.

Definition recordZone (m : gmap string string) (read : string * (string + Err)) : gmap string string :=
  match answerName read.2 with Some n => <[read.1 := n]> m | None => m end.

Lemma recordZone_lookup reads z n :
  NoDup reads.*1 → foldl recordZone ∅ reads !! z = Some n ↔ zoneSays reads z n.
Proof.
  induction reads as [|[z' a] reads IH] using rev_ind; intros Hnd.
  { simpl. rewrite lookup_empty. split; [done|]. intros (a & ?%not_elem_of_nil & _). done. }
  rewrite fmap_app in Hnd. apply NoDup_app in Hnd as (Hnd & Hd & _). rewrite foldl_snoc.
  specialize (IH Hnd).
  assert (∀ n', ¬ zoneSays reads z' n') as Hfresh.
  { intros n' (a' & Hin & _). apply (Hd z'); [|by left]. apply list_elem_of_fmap. by exists (z', a'). }
  assert (zoneSays (reads ++ [(z', a)]) z n ↔
    zoneSays reads z n ∨ z = z' ∧ answerName a = Some n) as ->.
  { unfold zoneSays. setoid_rewrite elem_of_app. setoid_rewrite list_elem_of_singleton. split.
    - intros (a' & [?|[= -> ->]] & ?); [left; by exists a'|by right].
    - intros [(a' & ? & ?)|[-> ?]]; [exists a'; by split; [left|]|exists a; by split; [right|]]. }
  unfold recordZone at 1. simpl. destruct (answerName a) as [n'|].
  - rewrite lookup_insert_Some, IH. split; [intuition congruence|].
    intros [Hs|[-> [= ->]]]; [|by left]. right. split; [|done]. intros <-. by eapply Hfresh.
  - rewrite IH. intuition congruence.
Qed.

(** A zone that was read, or that the token may not read, or that does not exist. *)
Definition settledRead (read : string * (string + Err)) : Prop :=
  match read.2 with inl _ => True | inr e => err_status e = Some 403%Z ∨ err_status e = Some 404%Z end.

Lemma readZones_exec ids m tr res :
  exec (readZones ids m) tr res →
  noRecordEvents tr ∧
  ∀ m', res = inl m' → Forall settledRead (omap zoneRead tr) ∧
    (omap zoneRead tr).*1 = ids ∧ m' = foldl recordZone m (omap zoneRead tr).
Proof.
  revert m tr. induction ids as [|zoneId ids IH]; intros m tr Hx; simpl in Hx.
  { exec_inv. split; [by split_and!|]. intros m' [= <-]. by split; [constructor|]. }
  apply exec_Vis_inv in Hx as (a & tr' & -> & Hx).
  assert (∀ m1, exec (readZones ids m1) tr' res → settledRead (zoneId, a) → recordZone m (zoneId, a) = m1 →
    noRecordEvents (Ev (GetZone zoneId) a :: tr') ∧
    ∀ m', res = inl m' → Forall settledRead (omap zoneRead (Ev (GetZone zoneId) a :: tr')) ∧
      (omap zoneRead (Ev (GetZone zoneId) a :: tr')).*1 = zoneId :: ids ∧
      m' = foldl recordZone m (omap zoneRead (Ev (GetZone zoneId) a :: tr'))) as Hstep.
  { intros m1 (Hno & Hr)%IH Hset Hm. split; [by destruct Hno|]. intros m' (Hs & <- & ->)%Hr. simpl. rewrite Hm.
    by split; [constructor|]. }
  unfold recordZone at 1 in Hstep. destruct a as [n|e]; [by eapply Hstep|].
  destruct (IsForbidden e) eqn:Ef.
  { eapply Hstep; [done| |by simpl; rewrite Ef]. left. by apply bool_decide_eq_true in Ef. }
  destruct (IsNotFound e) eqn:En.
  { eapply Hstep; [done| |by simpl; rewrite Ef, En]. right. by apply bool_decide_eq_true in En. }
  exec_inv. by split_and!.
Qed.

(** ** The zone check *)

(** What the check says of a hostname, when it skips it: the problem, and
    whether the record it has is kept. *)
Definition zoneVerdict (zoneNames : gmap string string) (host : string) (settings : resolvedDns)
    : option (string * bool) :=
  name ← zoneNames !! rd_ZoneId settings;
  if str_eqb name "" then Some (missingZoneProblem host (rd_ZoneId settings), true)
  else if negb (inZone host name) then Some (outsideZoneProblem host name (rd_ZoneId settings), false)
  else None.

Definition skippedHost (zoneNames : gmap string string) (all : gmap string resolvedDns) (host : string)
    : option (string * bool) := all !! host ≫= zoneVerdict zoneNames host.

Lemma checkHost_eq tunnel zoneNames all st host :
  checkHost tunnel zoneNames all st host =
  match skippedHost zoneNames all host with
  | None => st
  | Some (problem, kept) =>
    {| zc_desired := delete host (zc_desired st);
       zc_problems := zc_problems st ++ [problem];
       zc_keep := if kept then {[ dnsRecordName tunnel host ]} ∪ zc_keep st else zc_keep st |}
  end.
Proof.
  unfold checkHost, skippedHost, zoneVerdict. destruct (all !! host) as [settings|]; simpl; [|done].
  destruct (zoneNames !! rd_ZoneId settings) as [name|]; simpl; [|done].
  destruct (str_eqb name ""); [done|]. by destruct (negb _).
Qed.

Lemma checkHosts_fold tunnel zoneNames all st hosts :
  let st' := foldl (checkHost tunnel zoneNames all) st hosts in
  (∀ h r, zc_desired st' !! h = Some r ↔
     zc_desired st !! h = Some r ∧ (h ∈ hosts → skippedHost zoneNames all h = None)) ∧
  zc_problems st' = zc_problems st ++ (omap (skippedHost zoneNames all) hosts).*1 ∧
  (∀ x, x ∈ zc_keep st' ↔ x ∈ zc_keep st ∨
     ∃ h problem, h ∈ hosts ∧ skippedHost zoneNames all h = Some (problem, true) ∧ x = dnsRecordName tunnel h).
Proof.
  revert st. induction hosts as [|h hosts IH]; intros st; simpl.
  { rewrite app_nil_r. split_and!; [set_solver|done|set_solver]. }
  rewrite checkHost_eq. destruct (skippedHost zoneNames all h) as [[problem kept]|] eqn:E; simpl.
  - destruct (IH {| zc_desired := delete h (zc_desired st);
       zc_problems := zc_problems st ++ [problem];
       zc_keep := if kept then {[ dnsRecordName tunnel h ]} ∪ zc_keep st else zc_keep st |}) as (Hd & Hp & Hk).
    split_and!; [|by rewrite Hp; simpl; rewrite <- app_assoc|].
    + intros h' r. rewrite Hd. simpl. rewrite lookup_delete_Some, elem_of_cons. split.
      * intros ((? & ?) & Hs). split; [done|]. intros [->|?]; [done|by apply Hs].
      * intros (? & Hs). split_and!; [|done|by intros ?; apply Hs; right].
        intros <-. rewrite Hs in E by by left. done.
    + intros x. rewrite Hk. simpl. setoid_rewrite elem_of_cons. split.
      * intros [Hx|(h' & p & ? & ? & ?)]; [|right; exists h', p; tauto].
        destruct kept; [|by left]. apply elem_of_union in Hx as [->%elem_of_singleton|?]; [|by left].
        right. exists h, problem. tauto.
      * intros [?|(h' & p & [->|?] & Hs & ->)]; [left; destruct kept; set_solver| |right; by exists h', p].
        left. rewrite Hs in E. injection E as <- <-. set_solver.
  - destruct (IH st) as (Hd & Hp & Hk). split_and!; [|done|].
    + intros h' r. rewrite Hd, elem_of_cons. split; intros [? Hs]; (split; [done|]); [|tauto].
      intros [->|?]; [done|by apply Hs].
    + intros x. rewrite Hk. setoid_rewrite elem_of_cons. split.
      * intros [?|(h' & p & ? & ? & ?)]; [by left|right; exists h', p; tauto].
      * intros [?|(h' & p & [->|?] & Hs & ->)]; [by left|congruence|right; by exists h', p].
Qed.

(** ** Applying and deleting *)

Definition Applied : Type := DnsRecord * (DnsRecord → DnsRecord + ApplyErr) * (DnsRecord + ApplyErr).

(** What is asked of the API server for a hostname. *)
Definition applyRequest (tunnel : CloudflareTunnel) (host : string) (settings : resolvedDns)
    : DnsRecord * (DnsRecord → DnsRecord + ApplyErr) :=
  (emptyDnsRecord (om_Namespace (tun_ObjectMeta tunnel)) (dnsRecordName tunnel host),
   mutateRecord tunnel host settings).

(** The records that were applied. *)
Definition appliedRecords (applied : list Applied) : list DnsRecord :=
  omap (λ a, match a.2 with inl r => Some r | inr _ => None end) applied.

Definition recordName (r : DnsRecord) : string := om_Name (dns_ObjectMeta r).

(** The counts and problems that applying the records adds to a result. *)
Definition countOne (tunnel : CloudflareTunnel) (tunnelId : string) (d : tunnelDns)
    (applied : string * Applied) : tunnelDns :=
  match applied.2.2 with
  | inl r =>
    {| d_desired := wrap32 (d_desired d + 1);
       d_ready := if dnsRecordReady r tunnelId then wrap32 (d_ready d + 1) else d_ready d;
       d_problems := d_problems d |}
  | inr _ =>
    {| d_desired := d_desired d; d_ready := d_ready d;
       d_problems := d_problems d ++ [notOwnedProblem (dnsRecordName tunnel applied.1) applied.1] |}
  end.

Definition countApplied (tunnel : CloudflareTunnel) (tunnelId : string) (hosts : list string)
    (applied : list Applied) (d : tunnelDns) : tunnelDns :=
  foldl (countOne tunnel tunnelId) d (zip hosts applied).

Lemma applyRecords_exec tunnel tunnelId desired hosts keep d tr res :
  (∀ h, h ∈ hosts → is_Some (desired !! h)) →
  exec (applyRecords tunnel tunnelId desired hosts keep d) tr res →
  omap zoneRead tr = [] ∧ omap recordsListed tr = [] ∧ omap recordDeleted tr = [] ∧
  (∀ a, a ∈ omap recordApplied tr →
     ∃ host settings, host ∈ hosts ∧ desired !! host = Some settings ∧ a.1 = applyRequest tunnel host settings) ∧
  ∀ keep' d', res = inl (keep', d') →
    (omap recordApplied tr).*1 = omap (λ h, applyRequest tunnel h <$> desired !! h) hosts ∧
    Forall (λ a : Applied, ∀ e, a.2 ≠ inr (ApplyFailed e)) (omap recordApplied tr) ∧
    (∀ x, x ∈ keep' ↔ x ∈ keep ∨ x ∈ recordName <$> appliedRecords (omap recordApplied tr)) ∧
    d' = countApplied tunnel tunnelId hosts (omap recordApplied tr) d.
Proof.
  revert keep d tr. induction hosts as [|host hosts IH]; intros keep d tr Hh Hx; simpl in Hx.
  { exec_inv. split_and!; [done..|intros ? ?%not_elem_of_nil; done|]. intros keep' d' [= <- <-].
    split_and!; [done|constructor| |done]. intros x. set_solver. }
  destruct (Hh host) as [settings E]; [by left|]. rewrite E in Hx.
  apply exec_Vis_inv in Hx as (a & tr' & -> & Hx). simpl. rewrite E. simpl.
  assert (∀ keep1 d1, exec (applyRecords tunnel tunnelId desired hosts keep1 d1) tr' res →
    _) as IH' by (intros keep1 d1; apply IH; intros h Hin; apply Hh; by right). clear IH.
  change (emptyDnsRecord _ _, mutateRecord _ _ _) with (applyRequest tunnel host settings).
  assert (∀ keep1 d1, exec (applyRecords tunnel tunnelId desired hosts keep1 d1) tr' res →
    omap zoneRead tr' = [] ∧ omap recordsListed tr' = [] ∧ omap recordDeleted tr' = [] ∧
    (∀ a', a' ∈ (applyRequest tunnel host settings, a) :: omap recordApplied tr' →
     ∃ host' settings, host' ∈ host :: hosts ∧ desired !! host' = Some settings ∧
       a'.1 = applyRequest tunnel host' settings)) as Hreq.
  { intros keep1 d1 Hx1. destruct (IH' _ _ Hx1) as (? & ? & ? & Hr & _). split_and!; [done..|].
    intros a' [->|Ha]%elem_of_cons; [exists host, settings; by split_and!; [left|..]|].
    destruct (Hr a' Ha) as (h & st & ? & ? & ?). exists h, st. by split_and!; [right|..]. }
  destruct a as [record|[|err]].
  - destruct (Hreq _ _ Hx) as (? & ? & ? & Hr). split_and!; [done..|]. intros keep' d' Hres.
    destruct (IH' _ _ Hx) as (_ & _ & _ & _ & Hk). destruct (Hk keep' d' Hres) as (Hq & Hf & Hm & Hc).
    split_and!; [by f_equal|by constructor| |done]. intros x. rewrite Hm. simpl. set_solver.
  - destruct (Hreq _ _ Hx) as (? & ? & ? & Hr). split_and!; [done..|]. intros keep' d' Hres.
    destruct (IH' _ _ Hx) as (_ & _ & _ & _ & Hk). destruct (Hk keep' d' Hres) as (Hq & Hf & Hm & Hc).
    split_and!; [by f_equal|by constructor|done|done].
  - exec_inv. split_and!; [done..| |done]. intros a' ->%list_elem_of_singleton.
    exists host, settings. by split_and!; [left|..].
Qed.

Lemma deleteRecords_exec owned keep tr res :
  exec (deleteRecords owned keep) tr res →
  omap zoneRead tr = [] ∧ omap recordsListed tr = [] ∧ omap recordApplied tr = [] ∧
  (∀ r, r ∈ omap recordDeleted tr → r ∈ owned ∧ recordName r ∉ keep) ∧
  (res = inl () → omap recordDeleted tr = filter (λ r, recordName r ∉ keep) owned).
Proof.
  revert tr. induction owned as [|r owned IH]; intros tr Hx; simpl in Hx.
  { exec_inv. split_and!; try done. intros ? ?%not_elem_of_nil. done. }
  case_bool_decide as Hk.
  - destruct (IH _ Hx) as (? & ? & ? & Hd & Hr). split_and!; [done..| |].
    + intros r' [? ?]%Hd. split; [by right|done].
    + intros Hres. rewrite filter_cons_False; [by apply Hr|]. intros Hn. by apply Hn.
  - apply exec_Vis_inv in Hx as (err & tr' & -> & Hx). simpl.
    destruct (k8s_IgnoreNotFound err) as [err'|]; simpl in Hx.
    + exec_inv. split_and!; try done. intros ? ->%list_elem_of_singleton. split; [by left|done].
    + destruct (IH _ Hx) as (? & ? & ? & Hd & Hr). split_and!; [done..| |].
      * intros r' [->|[? ?]%Hd]%elem_of_cons; (split; [|done]); [by left|by right].
      * intros Hres. rewrite filter_cons_True by done. by f_equal; apply Hr.
Qed.

Lemma reconcileDns_exec tunnel tunnelId tr res :
  exec (reconcileDns tunnel tunnelId) tr res →
  let '(desired, problems) := desiredDnsRecords tunnel in
  let applied := omap recordApplied tr in
  let checked := checkZones tunnel (foldl recordZone ∅ (omap zoneRead tr)) desired problems in
  ((∃ e, res = inr e) ∧ omap recordDeleted tr = [] ∧ applied = []) ∨
  ((omap zoneRead tr).*1 = sort_by String.compare (elements (zoneIds desired)) ∧
   Forall settledRead (omap zoneRead tr) ∧
   (∀ a, a ∈ applied → ∃ host settings,
      zc_desired checked !! host = Some settings ∧ a.1 = applyRequest tunnel host settings) ∧
   (((∃ e, res = inr e) ∧ omap recordDeleted tr = []) ∨
    ∃ items (keep : gset string) d,
      omap recordsListed tr = [(om_Namespace (tun_ObjectMeta tunnel), inl items)] ∧
      applied.*1 = omap (λ h, applyRequest tunnel h <$> zc_desired checked !! h) (sortedKeys (zc_desired checked)) ∧
      Forall (λ a : Applied, ∀ e, a.2 ≠ inr (ApplyFailed e)) applied ∧
      (∀ x, x ∈ keep ↔ x ∈ zc_keep checked ∨ x ∈ recordName <$> appliedRecords applied) ∧
      d = countApplied tunnel tunnelId (sortedKeys (zc_desired checked)) applied
            {| d_desired := 0; d_ready := 0; d_problems := zc_problems checked |} ∧
      let owned := filter (λ r, IsControlledBy (dns_ObjectMeta r) (tun_ObjectMeta tunnel) = true) items in
      (∀ r, r ∈ omap recordDeleted tr → r ∈ owned ∧ recordName r ∉ keep) ∧
      ((∃ e, res = inr e) ∨
       res = inl d ∧ omap recordDeleted tr = filter (λ r, recordName r ∉ keep) owned))).
Proof.
  unfold reconcileDns. destruct (desiredDnsRecords tunnel) as [desired problems]. cbv zeta. intros Hx.
  apply exec_bind in Hx as (tr1 & tr2 & zs & -> & Hz & Hx).
  apply readZones_exec in Hz as [(Z1 & Z2 & Z3) Hz].
  destruct zs as [zoneNames|err].
  2:{ exec_inv. left. rewrite app_nil_r, Z2, Z3. by split_and!; [eexists|..]. }
  destruct (Hz _ eq_refl) as (Hset & Hids & ->). clear Hz.
  apply exec_bind in Hx as (tr3 & tr4 & owned & -> & Hl & Hx). unfold ownedDnsRecords in Hl. simpl in Hl.
  apply exec_Vis_inv in Hl as (listed & tr0 & -> & Hl).
  destruct listed as [items|err]; [|exec_inv; left; rewrite !omap_app, Z2, Z3; by split_and!; [eexists|..]].
  apply exec_Ret_inv in Hl as [-> <-]. rewrite !omap_app in *. simpl. rewrite Z1, Z2, Z3. simpl.
  apply exec_bind in Hx as (tr5 & tr6 & app & -> & Ha & Hx).
  set (checked := checkZones _ _ _ _) in Ha. set (hosts := sortedKeys (zc_desired checked)) in Ha.
  assert (omap zoneRead tr6 = [] ∧ omap recordsListed tr6 = [] ∧ omap recordApplied tr6 = []) as (T1 & T2 & T3).
  { destruct app as [[keep d]|err]; [|by exec_inv].
    apply exec_bind in Hx as (tr7 & tr8 & del & -> & Hd & Hx).
    apply deleteRecords_exec in Hd as (? & ? & ? & _).
    assert (tr8 = []) as -> by (destruct del; by exec_inv). by rewrite app_nil_r. }
  apply applyRecords_exec in Ha as (A1 & A2 & A3 & A4 & A5).
  2:{ intros h Hin. unfold hosts, sortedKeys in Hin. apply elem_of_sort_by, list_elem_of_fmap in Hin as ([h' r] & -> & Hin).
      apply elem_of_map_to_list in Hin. by eexists. }
  rewrite !omap_app, A1, A2, A3, T1, T2, T3. simpl. rewrite !app_nil_r. right. split; [done|].
  split; [done|]. fold checked. split.
  { intros a (h & st & _ & ? & ?)%A4. by exists h, st. }
  destruct app as [[keep d]|err]; [|exec_inv; left; by split; [eexists|]].
  destruct (A5 _ _ eq_refl) as (B1 & B2 & B3 & B4). right. exists items, keep, d.
  apply exec_bind in Hx as (tr7 & tr8 & del & -> & Hd & Hx).
  apply deleteRecords_exec in Hd as (_ & _ & _ & D1 & D2).
  assert (tr8 = [] ∧ res = match del with inl _ => inl d | inr e => inr e end) as [-> ->]
    by (destruct del; by apply exec_Ret_inv in Hx as [-> <-]).
  rewrite app_nil_r. split_and!; [done..|].
  destruct del as [[]|err]; [right; split; [done|]; by apply D2|left; by eexists].
Qed.

(** The zones allow a hostname its record: the zone was named and the hostname is
    in it, or nothing could be said of the zone. *)
Definition zoneAllows (reads : list (string * (string + Err))) (host zoneId : string) : Prop :=
  ∀ name, zoneSays reads zoneId name → name ≠ "" ∧ inZone host name = true.

Section checked.
Context (tunnel : CloudflareTunnel) (desired : gmap string resolvedDns) (problems : list string)
  (reads : list (string * (string + Err))) (Hnd : NoDup reads.*1).

Definition checkedZones : zoneCheck :=
  checkZones tunnel (foldl recordZone ∅ reads) desired problems.

Lemma skippedHost_None h r :
  desired !! h = Some r →
  skippedHost (foldl recordZone ∅ reads) desired h = None ↔ zoneAllows reads h (rd_ZoneId r).
Proof.
  intros Hr. unfold skippedHost, zoneVerdict, zoneAllows. rewrite Hr. simpl.
  setoid_rewrite <- recordZone_lookup; [|done].
  destruct (foldl recordZone ∅ reads !! rd_ZoneId r) as [name|]; simpl; [|split; [by intros _ ? [=]|done]].
  destruct (str_eqb name "") eqn:En; str_simpl.
  { split; [done|]. intros Ha. by destruct (Ha name eq_refl). }
  destruct (inZone h name) eqn:Ei; simpl.
  - split; [|done]. by intros _ n' [= <-].
  - split; [done|]. intros Ha. destruct (Ha name eq_refl). congruence.
Qed.

Lemma checkedZones_desired h r :
  zc_desired checkedZones !! h = Some r ↔ desired !! h = Some r ∧ zoneAllows reads h (rd_ZoneId r).
Proof.
  unfold checkedZones, checkZones.
  destruct (checkHosts_fold tunnel (foldl recordZone ∅ reads) desired
    {| zc_desired := desired; zc_problems := problems; zc_keep := ∅ |} (sortedKeys desired)) as [-> _].
  simpl. split; intros [Hr Hs]; (split; [done|]).
  - apply skippedHost_None; [done|]. apply Hs, elem_of_sortedKeys. by eexists.
  - intros _. by apply (skippedHost_None h r).
Qed.

Lemma checkedZones_keep x :
  x ∈ zc_keep checkedZones ↔
  ∃ h r, desired !! h = Some r ∧ zoneSays reads (rd_ZoneId r) "" ∧ x = dnsRecordName tunnel h.
Proof.
  unfold checkedZones, checkZones.
  destruct (checkHosts_fold tunnel (foldl recordZone ∅ reads) desired
    {| zc_desired := desired; zc_problems := problems; zc_keep := ∅ |} (sortedKeys desired)) as (_ & _ & ->).
  simpl. setoid_rewrite elem_of_sortedKeys. setoid_rewrite <- recordZone_lookup; [|done].
  unfold skippedHost, zoneVerdict. split.
  - intros [?%not_elem_of_empty|(h & p & [r Hr] & Hs & ->)]; [done|]. exists h, r. rewrite Hr in Hs. simpl in Hs.
    split_and!; [done| |done].
    destruct (foldl recordZone ∅ reads !! rd_ZoneId r) as [name|]; simpl in Hs; [|done].
    destruct (str_eqb name "") eqn:En; str_simpl; [by rewrite En|]. by destruct (negb _).
  - intros (h & r & Hr & Hz & ->). right. eexists h, _. split_and!; [by eexists| |done].
    rewrite Hr. simpl. rewrite Hz. simpl. done.
Qed.

End checked.

Lemma zones_NoDup (desired : gmap string resolvedDns) reads :
  reads.*1 = sort_by String.compare (elements (zoneIds desired)) → NoDup (reads : list (string * (string + Err))).*1.
Proof. intros ->. apply NoDup_sort_by, NoDup_elements. Qed.

Lemma mutateRecord_spec tunnel host settings :
  (∀ r, om_ResourceVersion (dns_ObjectMeta r) ≠ "" →
     IsControlledBy (dns_ObjectMeta r) (tun_ObjectMeta tunnel) = false →
     mutateRecord tunnel host settings r = inr NotControlled) ∧
  (∀ r r', mutateRecord tunnel host settings r = inl r' →
     dns_Spec r' = cnameSpec tunnel host settings ∧ dns_Status r' = dns_Status r ∧
     SetControllerReference (tun_ObjectMeta tunnel) (dns_ObjectMeta r) = inl (dns_ObjectMeta r')).
Proof.
  unfold mutateRecord. split.
  - intros r Hv Hc. apply str_eqb_neq in Hv. by rewrite Hv, Hc.
  - intros r r'. destruct (_ && _); [done|]. destruct (SetControllerReference _ _) as [om|e] eqn:Es; [|done].
    by intros [= <-].
Qed.

(** A hostname whose zone does not allow the record, yet names no missing zone. *)
Lemma not_allowed_outside tunnel desired reads h r :
  NoDup reads.*1 → desired !! h = Some r →
  skippedHost (foldl recordZone ∅ reads) desired h ≠ None →
  dnsRecordName tunnel h ∉ zc_keep (checkedZones tunnel desired [] reads) →
  ∃ name, zoneSays reads (rd_ZoneId r) name ∧ name ≠ "" ∧ inZone h name = false.
Proof.
  intros Hnd Hr Hs Hk. unfold skippedHost, zoneVerdict in Hs. rewrite Hr in Hs. simpl in Hs.
  destruct (foldl recordZone ∅ reads !! rd_ZoneId r) as [name|] eqn:En; simpl in Hs; [|done].
  apply recordZone_lookup in En; [|done]. destruct (str_eqb name "") eqn:Ee; str_simpl.
  - subst. destruct Hk. apply checkedZones_keep; [done|]. by exists h, r.
  - destruct (inZone h name) eqn:Ei; [done|]. by exists name.
Qed.

(** The answer to the request made for a hostname that is allowed its record. *)
Lemma request_made tunnel desired (applied : list Applied) h r :
  applied.*1 = omap (λ h, applyRequest tunnel h <$> desired !! h) (sortedKeys desired) →
  desired !! h = Some r → ∃ ans, (applyRequest tunnel h r, ans) ∈ applied.
Proof.
  intros Heq Hr. assert (applyRequest tunnel h r ∈ applied.*1) as Hin.
  { rewrite Heq, list_elem_of_omap. exists h. split; [apply elem_of_sortedKeys; by eexists|by rewrite Hr]. }
  apply list_elem_of_fmap in Hin as ([q ans] & Hq & Hin). simpl in Hq. subst q. by exists ans.
Qed.

Lemma countApplied_spec tunnel tunnelId hosts applied d k m :
  length hosts = length applied → d_desired d = wrap32 k → d_ready d = wrap32 m →
  let d' := countApplied tunnel tunnelId hosts applied d in
  let oks := appliedRecords applied in
  d_desired d' = wrap32 (k + Z.of_nat (length oks)) ∧
  d_ready d' = wrap32 (m + Z.of_nat (length (filter (λ r, dnsRecordReady r tunnelId = true) oks))) ∧
  (d_problems d' = [] → d_problems d = [] ∧ ∀ a, a ∈ applied → is_Some (match a.2 with inl r => Some r | inr _ => None end)).
Proof.
  unfold countApplied. revert applied d k m.
  induction hosts as [|h hosts IH]; intros [|a applied] d k m Hlen Hk Hm; try done.
  { simpl. rewrite !Z.add_0_r. split_and!; [done..|]. intros ?. split; [done|]. by intros ? ?%not_elem_of_nil. }
  injection Hlen as Hlen. destruct a as [q [r|e]].
  - destruct (IH applied (countOne tunnel tunnelId d (h, (q, inl r))) (k + 1)%Z
      (if dnsRecordReady r tunnelId then m + 1 else m)%Z Hlen) as (Hd & Hr & Hp).
    { simpl. by rewrite Hk, wrap32_add. }
    { simpl. destruct (dnsRecordReady r tunnelId); [by rewrite Hm, wrap32_add|done]. }
    split_and!; [etrans; [exact Hd|simpl; f_equal; lia]|etrans; [exact Hr|]|].
    + simpl. rewrite filter_cons. destruct (dnsRecordReady r tunnelId); simpl; f_equal; lia.
    + intros [? Ha]%Hp. split; [done|]. intros a [->|?]%elem_of_cons; [by eexists|by apply Ha].
  - destruct (IH applied (countOne tunnel tunnelId d (h, (q, inr e))) k m Hlen Hk Hm) as (Hd & Hr & Hp).
    split_and!; [exact Hd|exact Hr|]. intros [Hn _]%Hp. simpl in Hn. by apply app_nil in Hn as [_ ?].
Qed.
End reconciled.

(** An applied record carries the name it was applied under. *)
Definition namesKept `{ObjectHelpers, Sha256} (applied : list Applied) : Prop :=
  ∀ obj mutate r, (obj, mutate, inl r) ∈ applied → recordName r = recordName obj.

(** *** What is wanted, in terms of the tunnel alone *)

(** The settings an ingress entry gives its hostname: each is the entry's where
    it sets it, else the tunnel's, else the default. *)
Definition settingsOf (tunnel entry : option CloudflareTunnelDns) : resolvedDns :=
  let zone (l : option CloudflareTunnelDns) := d ← l; if decide (td_ZoneId d = "") then None else Some (td_ZoneId d) in
  {| rd_ZoneId := default "" (firstSet (zone entry) (zone tunnel));
     rd_Proxied := default true (firstSet (entry ≫= td_Proxied) (tunnel ≫= td_Proxied));
     rd_Ttl := default 1%Z (firstSet (entry ≫= td_Ttl) (tunnel ≫= td_Ttl)) |}.

Definition EntryFor (tunnel : CloudflareTunnel) (host : string) (r : resolvedDns) : Prop :=
  ∃ config entry, t_Config (tun_Spec tunnel) = Some config ∧ entry ∈ tc_Ingress config ∧
    in_Hostname entry ≠ "" ∧ host = to_lower (in_Hostname entry) ∧ r = settingsOf (t_Dns (tun_Spec tunnel)) (in_Dns entry).

(** A hostname, in lower case, whose entries agree on settings that name a zone. *)
Definition WantsRecord (tunnel : CloudflareTunnel) (host : string) (r : resolvedDns) : Prop :=
  rd_ZoneId r ≠ "" ∧ EntryFor tunnel host r ∧ ∀ r', EntryFor tunnel host r' → r' = r.

Definition InZone (host zone : string) : Prop :=
  host = to_lower zone ∨ ∃ u, host = u +:+ "." +:+ to_lower zone.

(** A CNAME for the hostname that refers to the tunnel. *)
Definition AsksCname (tunnel : CloudflareTunnel) (host : string) (r : resolvedDns) (spec : DnsRecordSpec) : Prop :=
  ds_ZoneId spec = rd_ZoneId r ∧
  ∃ cn, ds_Record spec = {| dr_ARecord := None; dr_AAAARecord := None; dr_CAARecord := None;
                            dr_CNAMERecord := Some cn; dr_TXTRecord := None |} ∧
    cn_Type cn = "CNAME" ∧ cn_Name cn = host ∧ cn_Content cn = "" ∧
    cn_TunnelRef cn = Some {| dtr_Name := om_Name (tun_ObjectMeta tunnel) |} ∧
    cn_Proxied cn = rd_Proxied r ∧ cn_Ttl cn = rd_Ttl r.

(** The answers a reconciliation does not go on after. *)
Inductive DnsFailed : event TunnelE → Prop :=
  | zone_failed z e : err_status e ≠ Some 403%Z → err_status e ≠ Some 404%Z → DnsFailed (Ev (GetZone z) (inr e))
  | list_failed ns e : DnsFailed (Ev (ListDnsRecords ns) (inr e))
  | apply_failed obj mutate e : DnsFailed (Ev (ApplyDnsRecord obj mutate) (inr (ApplyFailed e)))
  | delete_failed rec e : err_k8s e ≠ Some K8sNotFound → DnsFailed (Ev (DeleteDnsRecord rec) (Some e)).

Lemma resolveDns_settingsOf tunnel entry : (resolveDns tunnel entry).1 = settingsOf tunnel entry.
Proof.
  assert (∀ s, (if decide (s = "") then None else Some s) = nonempty s) as Hz.
  { intros s. unfold nonempty. destruct (str_eqb s "") eqn:E; str_simpl; by case_decide. }
  pose proof (resolveDns_spec tunnel entry) as Hr. destruct (resolveDns tunnel entry) as [[z p t] ok]. simpl in *.
  destruct Hr as (-> & -> & -> & _). unfold settingsOf. f_equal. destruct tunnel, entry; simpl; by rewrite ?Hz.
Qed.

Lemma hostSettings_EntryFor tunnel host r : r ∈ hostSettings tunnel host ↔ EntryFor tunnel host r.
Proof.
  unfold hostSettings, EntryFor. rewrite elem_of_ingressEntries. setoid_rewrite resolveDns_settingsOf.
  destruct (t_Config (tun_Spec tunnel)) as [config|]; simpl; [naive_solver|].
  split; [by intros (? & ?%not_elem_of_nil & _)|naive_solver].
Qed.

Lemma desired_WantsRecord tunnel host r : (desiredDnsRecords tunnel).1 !! host = Some r ↔ WantsRecord tunnel host r.
Proof.
  pose proof (desiredDnsRecords_spec tunnel) as Hd. destruct (desiredDnsRecords tunnel) as [desired problems]. simpl.
  destruct Hd as [-> _]. unfold WantsRecord. by setoid_rewrite hostSettings_EntryFor.
Qed.

Lemma inZone_InZone host zone : inZone host zone = true ↔ InZone host zone.
Proof.
  unfold inZone, InZone. rewrite orb_true_iff, str_eqb_eq. unfold has_suffix.
  destruct (cut_suffix _ host) as [u|] eqn:E; simpl.
  - apply cut_suffix_spec in E. split; [intros _; right; by exists u|by right].
  - split; [intros [?|?]; [by left|done]|]. intros [?|[u ->]]; [by left|].
    assert (cut_suffix ("." +:+ to_lower zone) (u +:+ "." +:+ to_lower zone) = Some u) by by apply cut_suffix_spec.
    congruence.
Qed.

Lemma cnameSpec_AsksCname tunnel host r : AsksCname tunnel host r (cnameSpec tunnel host r).
Proof. split; [done|]. by eexists. Qed.

Definition dnsOk (R : Type) (e : TunnelE R) : R → bool :=
  match e in TunnelE R return R → bool with
  | GetZone _ => λ a, match a with inl _ => true | inr e => IsForbidden e || IsNotFound e end
  | ListDnsRecords _ => λ a, match a with inl _ => true | inr _ => false end
  | ApplyDnsRecord _ _ => λ a, match a with inr (ApplyFailed _) => false | _ => true end
  | DeleteDnsRecord _ => λ a, match a with None => true | Some e => k8s_IsNotFound e end
  | _ => λ _, true
  end.

Definition isOk {A} (r : A + Err) : bool := match r with inl _ => true | inr _ => false end.

Lemma DnsFailed_ok ev : DnsFailed ev → ¬ answeredWell dnsOk ev.
Proof.
  intros [z e H1 H2|ns e|obj mutate e|rec e H1]; [|by simpl..|]; simpl;
    unfold IsForbidden, IsNotFound, IsStatusCode, k8s_IsNotFound; intros Ht.
  - rewrite orb_true_iff, !bool_decide_eq_true in Ht. by destruct Ht.
  - by apply bool_decide_eq_true in Ht.
Qed.

Lemma reconcileDns_stops `{ObjectHelpers, Sha256} tunnel tunnelId : stops dnsOk isOk (reconcileDns tunnel tunnelId).
Proof.
  assert (∀ r : () + Err, isOk r = false → ∃ e, r = inr e) as Hbad by (intros [|e]; [done|by exists e]).
  unfold reconcileDns, ownedDnsRecords. destruct (desiredDnsRecords tunnel) as [desired problems].
  apply (stops_bind _ isOk); [| |intros [?|e]; [done|by eexists]].
  { generalize (∅ : gmap string string).
    induction (sort_by String.compare _) as [|z ids IH]; intros m; simpl; [done|].
    intros [n|e]; simpl; [apply IH|]. destruct (IsForbidden e); simpl; [apply IH|].
    destruct (IsNotFound e); [apply IH|by eexists]. }
  intros [zoneNames|?] _; [|done]. intros [items|e]; simpl; [|by eexists].
  apply (stops_bind _ isOk); [| |intros [?|e]; [done|by eexists]].
  { generalize (zc_keep (checkZones tunnel zoneNames desired problems)).
    generalize {| d_desired := 0; d_ready := 0; d_problems := zc_problems (checkZones tunnel zoneNames desired problems) |}.
    induction (sortedKeys _) as [|h hosts IH]; intros d keep; simpl; [done|]. destruct (_ !! h); [|apply IH].
    intros [rec|[|e]]; simpl; [apply IH..|by eexists]. }
  intros [applied|?] _; [|done]. apply (stops_bind _ isOk); [|by intros [?|?]|intros [?|e]; [done|by eexists]].
  induction (filter _ items) as [|rec owned IH]; simpl; [done|]. case_bool_decide; [apply IH|].
  intros [e|]; simpl; [|apply IH]. unfold k8s_IgnoreNotFound, ignoreErr. destruct (k8s_IsNotFound e); [apply IH|by eexists].
Qed.

Lemma zoneAllows_read reads desired h r :
  reads.*1 = sort_by String.compare (elements (zoneIds desired)) → Forall settledRead reads →
  desired !! h = Some r → zoneAllows reads h (rd_ZoneId r) →
  (∃ name, (rd_ZoneId r, inl name) ∈ reads ∧ name ≠ "" ∧ InZone h name) ∨
  (∃ e, (rd_ZoneId r, inr e) ∈ reads ∧ err_status e = Some 403%Z).
Proof.
  intros Hids Hset Hr Ha.
  assert (rd_ZoneId r ∈ reads.*1) as ([z a] & Hz & Hin)%list_elem_of_fmap.
  { rewrite Hids. apply elem_of_sort_by, elem_of_elements. unfold zoneIds. apply elem_of_list_to_set.
    apply list_elem_of_fmap. exists r. split; [done|]. apply list_elem_of_fmap. exists (h, r). split; [done|].
    by apply elem_of_map_to_list. }
  simpl in Hz. subst z. rewrite Forall_forall in Hset. specialize (Hset _ Hin). simpl in Hset. destruct a as [n|e].
  - left. exists n. destruct (Ha n) as [? ?%inZone_InZone]; [by exists (inl n)|done].
  - right. exists e. split; [done|]. destruct Hset as [?|Hn]; [done|]. exfalso.
    destruct (Ha "") as [? _]; [|done]. exists (inr e). split; [done|]. simpl.
    unfold IsForbidden, IsNotFound, IsStatusCode. by rewrite Hn.
Qed.

(** C15. Whatever the two APIs answer, reconciling a tunnel's DNS writes a record
    only for a hostname the tunnel wants: one whose ingress entries agree on its
    settings, and whose zone was read and holds it, or may not be read. The
    record has the tunnel's namespace and the hostname's name; the write refuses
    an existing object the tunnel does not control, and otherwise asks for the
    CNAME of the hostname that refers to the tunnel. A record is deleted only
    when it was listed in the tunnel's namespace and the tunnel controls it, and,
    provided the API server applies a record under the name it is asked to, one
    that carries the name of a wanted hostname only when the hostname's zone was
    read and does not hold it, or when the API found the object under another
    owner: never because a zone reads as missing. A request that fails (one the
    token is forbidden, or a zone or a record to delete that is not found, does
    not count) is the last, and the reconciliation returns an error. *)
Theorem reconcileDns_safe `{ObjectHelpers, Sha256} tunnel tunnelId tr res :
  exec (reconcileDns tunnel tunnelId) tr res →
  let reads := omap zoneRead tr in
  let applied := omap recordApplied tr in
  (∀ obj mutate ans, (obj, mutate, ans) ∈ applied → ∃ host r,
     WantsRecord tunnel host r ∧
     ((∃ name, (rd_ZoneId r, inl name) ∈ reads ∧ name ≠ "" ∧ InZone host name) ∨
      (∃ e, (rd_ZoneId r, inr e) ∈ reads ∧ err_status e = Some 403%Z)) ∧
     om_Namespace (dns_ObjectMeta obj) = om_Namespace (tun_ObjectMeta tunnel) ∧
     recordName obj = dnsRecordName tunnel host ∧
     (∀ o, om_ResourceVersion (dns_ObjectMeta o) ≠ "" →
        IsControlledBy (dns_ObjectMeta o) (tun_ObjectMeta tunnel) = false → mutate o = inr NotControlled) ∧
     (∀ o o', mutate o = inl o' → AsksCname tunnel host r (dns_Spec o'))) ∧
  (namesKept applied → ∀ rec, rec ∈ omap recordDeleted tr →
     IsControlledBy (dns_ObjectMeta rec) (tun_ObjectMeta tunnel) = true ∧
     (∃ items, omap recordsListed tr = [(om_Namespace (tun_ObjectMeta tunnel), inl items)] ∧ rec ∈ items) ∧
     ∀ host r, WantsRecord tunnel host r → recordName rec = dnsRecordName tunnel host →
       (∃ name, (rd_ZoneId r, inl name) ∈ reads ∧ name ≠ "" ∧ ¬ InZone host name) ∨
       (∃ obj mutate, (obj, mutate, inr NotControlled) ∈ applied ∧ recordName obj = dnsRecordName tunnel host)) ∧
  (∀ tr1 ev tr2, tr = tr1 ++ ev :: tr2 → DnsFailed ev → tr2 = [] ∧ ∃ e, res = inr e).
Proof.
  intros Hx0. pose proof (reconcileDns_exec _ _ _ _ Hx0) as Hx.
  assert (∀ host r, WantsRecord tunnel host r ↔ (desiredDnsRecords tunnel).1 !! host = Some r) as Hwants
    by (intros; symmetry; apply desired_WantsRecord).
  cbv zeta. setoid_rewrite Hwants. rewrite (assoc (∧)). split.
  2:{ intros tr1 ev tr2 -> Hev%DnsFailed_ok.
      destruct (stops_bad _ _ _ _ _ _ _ (reconcileDns_stops tunnel tunnelId) Hx0 Hev) as [-> Hr].
      split; [done|]. destruct res as [|e]; [done|by exists e]. }
  clear Hwants. destruct (desiredDnsRecords tunnel) as [desired problems].
  cbv zeta in *. simpl. destruct Hx as [(_ & Hd & Ha)|(Hids & Hset & Hreq & Hx)].
  { rewrite Ha, Hd. split; [by intros ??? ?%not_elem_of_nil|by intros _ ? ?%not_elem_of_nil]. }
  pose proof (zones_NoDup _ _ Hids) as Hnd. fold (checkedZones tunnel desired problems (omap zoneRead tr)) in *. split.
  - intros obj mutate ans (host & r & Hh & [= -> ->])%Hreq.
    apply checkedZones_desired in Hh as [Hh Ha]; [|done]. destruct (mutateRecord_spec tunnel host r) as [Hm1 Hm2].
    exists host, r. split_and!; [done|by eapply zoneAllows_read|done..|].
    intros o o' (-> & _)%Hm2. apply cnameSpec_AsksCname.
  - intros Hnames rec Hrec. destruct Hx as [[_ Hd]|(items & keep & d & Hl & Hreqs & Hf & Hk & _ & Hdel & _)].
    { by rewrite Hd in Hrec; apply not_elem_of_nil in Hrec. }
    apply Hdel in Hrec as [[Hc Hin]%list_elem_of_filter Hnk]. split_and!; [done|by exists items|].
    intros host r Hr Hname. rewrite Hk, Hname in Hnk. apply Decidable.not_or in Hnk as [Hk1 Hk2].
    destruct (skippedHost (foldl recordZone ∅ (omap zoneRead tr)) desired host) eqn:Es.
    { left. destruct (not_allowed_outside tunnel desired (omap zoneRead tr) host r) as (name & (a & Hin' & Hn) & Hne & Hz);
        [done..|by rewrite Es|rewrite checkedZones_keep in *; done|].
      exists name. rewrite <- inZone_InZone, Hz. destruct a as [n|e]; simpl in Hn; [by simplify_eq|].
      destruct (IsForbidden e); [done|]. destruct (IsNotFound e); by simplify_eq. }
    right. apply (skippedHost_None desired _ Hnd host r Hr) in Es.
    destruct (request_made tunnel _ _ host r Hreqs) as [[r'|[|e]] Hin'];
      [by apply checkedZones_desired| |by eexists _, _|rewrite Forall_forall in Hf; by eapply Hf in Hin'].
    destruct Hk2. apply list_elem_of_fmap. exists r'. split; [by eapply Hnames in Hin'; rewrite Hin'|].
    apply list_elem_of_omap. by eexists.
Qed.

Lemma reconcileDns_outcome `{ObjectHelpers, Sha256} tunnel tunnelId tr d :
  exec (reconcileDns tunnel tunnelId) tr (inl d) →
  let '(desired, problems) := desiredDnsRecords tunnel in
  let reads := omap zoneRead tr in
  let applied := omap recordApplied tr in
  let oks := appliedRecords applied in
  (∃ hosts, NoDup hosts ∧
     (∀ h, h ∈ hosts ↔ ∃ r, desired !! h = Some r ∧ zoneAllows reads h (rd_ZoneId r)) ∧
     applied.*1 = omap (λ h, applyRequest tunnel h <$> desired !! h) hosts) ∧
  d_desired d = wrap32 (Z.of_nat (length oks)) ∧
  d_ready d = wrap32 (Z.of_nat (length (filter (λ r, dnsRecordReady r tunnelId = true) oks))) ∧
  (∃ items, omap recordsListed tr = [(om_Namespace (tun_ObjectMeta tunnel), inl items)] ∧ ∀ rec, rec ∈ omap recordDeleted tr ↔
     rec ∈ items ∧ IsControlledBy (dns_ObjectMeta rec) (tun_ObjectMeta tunnel) = true ∧
     recordName rec ∉ recordName <$> oks ∧
     ¬ ∃ h r, desired !! h = Some r ∧ zoneSays reads (rd_ZoneId r) "" ∧ recordName rec = dnsRecordName tunnel h) ∧
  (d_problems d = [] → problems = [] ∧
     ∀ h r, desired !! h = Some r → ∃ rec, (applyRequest tunnel h r, inl rec) ∈ applied).
Proof.
  intros Hx. apply reconcileDns_exec in Hx. destruct (desiredDnsRecords tunnel) as [desired problems].
  cbv zeta in *. destruct Hx as [[[? ?] _]|(Hids & _ & _ & [[[? ?] _]|Hx])]; [done..|].
  destruct Hx as (items & keep & d' & Hl & Hreqs & Hf & Hk & -> & _ & [[? ?]|[[= ->] Hdel]]); [done|].
  apply zones_NoDup in Hids. fold (checkedZones tunnel desired problems (omap zoneRead tr)) in *.
  set (checked := checkedZones _ _ _ _) in *. set (hosts := sortedKeys (zc_desired checked)) in *.
  assert (∀ h, h ∈ hosts ↔ ∃ r, desired !! h = Some r ∧ zoneAllows (omap zoneRead tr) h (rd_ZoneId r)) as Hhosts.
  { intros h. unfold hosts. rewrite elem_of_sortedKeys. split; intros [r Hr]; exists r;
      [by apply checkedZones_desired in Hr|by apply checkedZones_desired]. }
  assert (∀ h, h ∈ hosts → zc_desired checked !! h = desired !! h) as Hsame.
  { intros h (r & Hr & Ha)%Hhosts. rewrite Hr. by apply checkedZones_desired. }
  assert (length hosts = length (omap recordApplied tr)) as Hlen.
  { rewrite <- (length_fmap fst (omap recordApplied tr)), Hreqs. symmetry.
    assert (∀ h, h ∈ hosts → is_Some (zc_desired checked !! h)) as Hs by by intros h ?%elem_of_sortedKeys.
    clearbody hosts. clear -Hs. induction hosts as [|h hosts IH]; [done|]. simpl.
    destruct (Hs h) as [r ->]; [by left|]. simpl. f_equal. apply IH. intros h' ?. apply Hs. by right. }
  edestruct (countApplied_spec tunnel tunnelId hosts (omap recordApplied tr)
    {| d_desired := 0; d_ready := 0; d_problems := zc_problems checked |} 0 0 Hlen) as (-> & -> & Hp); [done..|].
  split_and!; [|done..| |].
  - exists hosts. split_and!; [apply NoDup_sortedKeys|done|]. rewrite Hreqs. clear -Hsame. clearbody hosts.
    induction hosts as [|h hosts IH]; [done|]. rewrite !omap_cons_eq, Hsame by by left.
    rewrite IH; [done|]. intros h' ?. apply Hsame. by right.
  - exists items. split; [done|]. intros rec. rewrite Hdel, !list_elem_of_filter, Hk.
    unfold checked. rewrite checkedZones_keep by done.
    split; [intros (Hn & ? & ?); split_and!; [done..| |]; intros ?; apply Hn; tauto|].
    intros (? & ? & Hn1 & Hn2). split; [|done]. by intros [?|?].
  - intros [Hzp Hall]%Hp. simpl in Hzp. unfold checked, checkedZones, checkZones in Hzp.
    destruct (checkHosts_fold tunnel (foldl recordZone ∅ (omap zoneRead tr)) desired
      {| zc_desired := desired; zc_problems := problems; zc_keep := ∅ |} (sortedKeys desired)) as (_ & Hpr & _).
    rewrite Hpr in Hzp. apply app_nil in Hzp as [Hp0 Hskip]. split; [done|]. intros h r Hr.
    assert (skippedHost (foldl recordZone ∅ (omap zoneRead tr)) desired h = None) as Hs.
    { destruct (skippedHost _ _ _) as [pk|] eqn:E; [|done]. apply fmap_nil_inv in Hskip.
      assert (pk ∈ omap (skippedHost (foldl recordZone ∅ (omap zoneRead tr)) desired) (sortedKeys desired)) as Hin.
      { apply list_elem_of_omap. exists h. split; [apply elem_of_sortedKeys; by eexists|done]. }
      by rewrite Hskip in Hin; apply not_elem_of_nil in Hin. }
    apply (skippedHost_None desired _ Hids h r Hr) in Hs.
    destruct (request_made tunnel _ _ h r Hreqs) as [[rec|e] Hin]; [by apply checkedZones_desired|by exists rec|].
    by apply Hall in Hin as [? ?].
Qed.

(** C16. A reconciliation of a tunnel's DNS that succeeds converges: it applied one
    record for each wanted hostname its zone allows, reports how many of those
    writes were accepted and how many of the records hold the tunnel's target,
    and deleted exactly the records it controls and neither applied nor keeps
    for a zone that reads as missing. When it reports no problem, every wanted
    hostname has its record. *)
Theorem reconcileDns_converges `{ObjectHelpers, Sha256} tunnel tunnelId tr d :
  exec (reconcileDns tunnel tunnelId) tr (inl d) →
  let '(desired, problems) := desiredDnsRecords tunnel in
  let reads := omap zoneRead tr in
  let applied := omap recordApplied tr in
  let oks := appliedRecords applied in
  (∃ hosts, NoDup hosts ∧
     (∀ h, h ∈ hosts ↔ ∃ r, desired !! h = Some r ∧ zoneAllows reads h (rd_ZoneId r)) ∧
     applied.*1 = omap (λ h, applyRequest tunnel h <$> desired !! h) hosts) ∧
  d_desired d = wrap32 (Z.of_nat (length oks)) ∧
  d_ready d = wrap32 (Z.of_nat (length (filter (λ r, dnsRecordReady r tunnelId = true) oks))) ∧
  (∃ items, omap recordsListed tr = [(om_Namespace (tun_ObjectMeta tunnel), inl items)] ∧ ∀ rec, rec ∈ omap recordDeleted tr ↔
     rec ∈ items ∧ IsControlledBy (dns_ObjectMeta rec) (tun_ObjectMeta tunnel) = true ∧
     recordName rec ∉ recordName <$> oks ∧
     ¬ ∃ h r, desired !! h = Some r ∧ zoneSays reads (rd_ZoneId r) "" ∧ recordName rec = dnsRecordName tunnel h) ∧
  (d_problems d = [] → problems = [] ∧
     ∀ h r, desired !! h = Some r → ∃ rec, (applyRequest tunnel h r, inl rec) ∈ applied).
Proof. apply reconcileDns_outcome. Qed.

(** ** Names of records *)

Lemma hexDigit_inj n m : (n < 16)%N → (m < 16)%N → hexDigit n = hexDigit m → n = m.
Proof.
  unfold hexDigit. intros Hn Hm Heq. apply (f_equal Ascii.N_of_ascii) in Heq.
  rewrite !Ascii.N_ascii_embedding in Heq by (repeat case_match; lia).
  destruct (n <? 10)%N eqn:En, (m <? 10)%N eqn:Em;
    rewrite ?N.ltb_lt, ?N.ltb_ge in *; lia.
Qed.

Lemma hexEncode_inj s t : hexEncode s = hexEncode t → s = t.
Proof.
  revert t. induction s as [|a s IH]; intros [|b t]; simpl; try done. intros [= Hh Hl Hst].
  f_equal; [|by apply IH]. pose proof (Ascii.N_ascii_bounded a). pose proof (Ascii.N_ascii_bounded b).
  apply hexDigit_inj in Hh; [|apply N.Div0.div_lt_upper_bound; lia..].
  apply hexDigit_inj in Hl; [|apply N.mod_lt; lia..].
  rewrite <- (Ascii.ascii_N_embedding a), <- (Ascii.ascii_N_embedding b). f_equal.
  rewrite (N.div_mod (Ascii.N_of_ascii a) 16), (N.div_mod (Ascii.N_of_ascii b) 16) by done.
  by rewrite Hh, Hl.
Qed.

Lemma trimRight_length s cutset : String.length (trimRight s cutset) ≤ String.length s.
Proof.
  induction s as [|a s IH]; simpl; [done|]. destruct (trimRight s cutset); [|simpl in *; lia].
  destruct (existsb _ _); simpl; lia.
Qed.

Lemma trimRight_last s cutset a :
  last_char (trimRight s cutset) = Some a → existsb (Ascii.eqb a) (String.list_ascii_of_string cutset) = false.
Proof.
  induction s as [|b s IH]; simpl; [done|]. destruct (trimRight s cutset) as [|c t] eqn:E.
  - destruct (existsb (Ascii.eqb b) _) eqn:Eb; simpl; [done|]. by intros [= <-].
  - intros Hl. by apply IH.
Qed.

(** C40. The name of a tunnel's DnsRecord for a hostname is at most 253 characters,
    as the API server demands, however long the tunnel's own name; and two
    hostnames of a tunnel share a name only when the first eighty bits of their
    digests agree. A tunnel name that is cut short is not left ending in a dot
    or a dash. *)
Theorem dnsRecordName_spec `{Sha256} tunnel :
  (∀ s, String.length (Sum256 s) = 32) →
  (∀ h, String.length (dnsRecordName tunnel h) ≤ 253) ∧
  (∀ h1 h2, dnsRecordName tunnel h1 = dnsRecordName tunnel h2 ↔
     String.substring 0 10 (Sum256 h1) = String.substring 0 10 (Sum256 h2)) ∧
  (∀ h, ∃ prefix, dnsRecordName tunnel h = prefix +:+ "-" +:+ hexEncode (String.substring 0 10 (Sum256 h)) ∧
     (prefix = om_Name (tun_ObjectMeta tunnel) ∨
      ∀ a, last_char prefix = Some a → existsb (Ascii.eqb a) (String.list_ascii_of_string ".-") = false)).
Proof.
  intros Hlen.
  set (suffix h := "-" +:+ hexEncode (String.substring 0 10 (Sum256 h))).
  assert (∀ h, String.length (suffix h) = 21) as Hs.
  { intros h. unfold suffix. rewrite string_length_app, hexEncode_length, substring_length; [done|].
    rewrite Hlen. lia. }
  set (name := om_Name (tun_ObjectMeta tunnel)).
  set (prefix := if Nat.ltb 232 (String.length name) then trimRight (String.substring 0 232 name) ".-" else name).
  assert (∀ h, dnsRecordName tunnel h = prefix +:+ suffix h) as Hn.
  { intros h. unfold dnsRecordName. fold (suffix h). rewrite Hs. done. }
  assert (String.length prefix ≤ 232) as Hp.
  { unfold prefix. destruct (Nat.ltb_spec 232 (String.length name)); [|lia].
    etrans; [apply trimRight_length|]. rewrite substring_length; lia. }
  split_and!.
  - intros h. rewrite Hn, string_length_app, Hs. lia.
  - intros h1 h2. rewrite !Hn. split; [|by unfold suffix; intros ->].
    intros Heq. apply string_app_inj_r in Heq. unfold suffix in Heq.
    by apply string_app_inj_r, hexEncode_inj in Heq.
  - intros h. exists prefix. split; [apply Hn|]. unfold prefix. destruct (Nat.ltb _ _); [right|by left].
    intros a. apply trimRight_last.
Qed.

(** ** Witnesses *)

(** A digest that tells short names apart. *)
Definition dnsSha256 : Sha256 :=
  {| Sum256 := λ s, String.substring 0 32 (s +:+ "................................") |}.

Lemma dnsSha256_length : ∀ s, String.length (@Sum256 dnsSha256 s) = 32.
Proof. intros s. apply substring_length. rewrite string_length_app. simpl. lia. Qed.

Lemma dnsRecordName_spec_witness :
  let tunnel := sampleTunnel None [] [] in
  (∀ s, String.length (@Sum256 dnsSha256 s) = 32) ∧
  String.length (@dnsRecordName dnsSha256 tunnel "a.example.com") ≤ 253.
Proof.
  intros tunnel. split; [exact dnsSha256_length|].
  exact (proj1 (@dnsRecordName_spec dnsSha256 tunnel dnsSha256_length) "a.example.com").
Defined.

(** A tunnel with a hostname in its zone, one outside it, one in a zone that
    reads as missing and a record for a hostname it no longer has. *)
Definition dnsTunnel : CloudflareTunnel :=
  sampleTunnel (Some "id")
    [sampleIngress "a.example.com" (Some "z1"); sampleIngress "b.other.com" (Some "z1");
     sampleIngress "c.gone.com" (Some "z2"); sampleIngress "" None] [].

Definition ownedRecord (host : string) : DnsRecord :=
  match @mutateRecord sampleHelpers dnsTunnel host {| rd_ZoneId := "z1"; rd_Proxied := true; rd_Ttl := 1 |}
          (emptyDnsRecord "default" (@dnsRecordName dnsSha256 dnsTunnel host)) with
  | inl r => r
  | inr _ => emptyDnsRecord "" ""
  end.

Definition dnsAnswers (R : Type) (e : TunnelE R) : option R :=
  match e in TunnelE R return option R with
  | GetZone z => Some (if str_eqb z "z1" then inl "example.com"
                       else inr {| err_message := "no zone"; err_status := Some 404; err_k8s := None |})%Z
  | ListDnsRecords _ => Some (inl [ownedRecord "old.example.com"; ownedRecord "c.gone.com"])
  | ApplyDnsRecord obj mutate => Some (mutate obj)
  | DeleteDnsRecord _ => Some None
  | _ => None
  end.

Lemma reconcileDns_converges_witness :
  ∃ tr d, exec (@reconcileDns sampleHelpers dnsSha256 dnsTunnel "id") tr (inl d) ∧
    length (omap recordDeleted tr) = 1 ∧
    d_desired d = wrap32 (Z.of_nat (length (appliedRecords (omap recordApplied tr)))).
Proof.
  destruct (runTrace_such dnsAnswers (@reconcileDns sampleHelpers dnsSha256 dnsTunnel "id")
    (λ tr r, isOk r && Nat.eqb (length (omap recordDeleted tr)) 1)) as (tr & [d|e] & Hx & Ht);
    [vm_compute; reflexivity| |discriminate Ht].
  exists tr, d. split; [exact Hx|]. split; [apply Nat.eqb_eq; exact Ht|].
  pose proof (@reconcileDns_converges sampleHelpers dnsSha256 dnsTunnel "id" tr d Hx) as Hc.
  destruct (desiredDnsRecords dnsTunnel). exact (proj1 (proj2 Hc)).
Defined.

(** Every write asked for was for the sample tunnel's one record. *)
Lemma reconcileDns_safe_witness :
  ∃ tr res rec, exec (@reconcileDns sampleHelpers dnsSha256 dnsTunnel "id") tr res ∧
    rec ∈ omap recordDeleted tr ∧
    IsControlledBy (ObjectHelpers := sampleHelpers) (dns_ObjectMeta rec) (tun_ObjectMeta dnsTunnel) = true.
Proof.
  destruct (runTrace_such dnsAnswers (@reconcileDns sampleHelpers dnsSha256 dnsTunnel "id")
    (λ tr r, forallb (λ a : Applied, match a.2 with inl r => str_eqb (recordName r) (recordName a.1.1) | inr _ => true end)
               (omap recordApplied tr)
             && negb (Nat.eqb (length (omap recordDeleted tr)) 0))) as (tr & res & Hx & Ht); [vm_compute; reflexivity|].
  apply andb_true_iff in Ht as [Hn Hd].
  destruct (omap recordDeleted tr) as [|rec recs] eqn:E; [discriminate Hd|].
  exists tr, res, rec. split; [exact Hx|]. split; [rewrite E; by left|].
  destruct (@reconcileDns_safe sampleHelpers dnsSha256 dnsTunnel "id" tr res Hx) as (_ & Hs & _).
  apply Hs; [|rewrite E; by left].
  intros obj mutate r Hin. rewrite forallb_forall in Hn. apply str_eqb_eq.
  apply (Hn ((obj, mutate, inl r) : Applied)). by apply list_elem_of_In.
Defined.
