(* ===== verification/PrivateRoutes.v ===== *)
(** * Private network routes of a tunnel (internal/controller/cloudflaretunnel_routes.go)

    The reconciliation that converges the routes Cloudflare holds for a tunnel
    on spec.routes, and the one that deletes them with the tunnel. *)
From S2P Require Import Prelude GatewayAPI Samples API Effects Helpers Model TunnelApi.

(** [netip.ParsePrefix(s)] followed by [Masked().String()], or nothing for what is
    no CIDR. *)
Class NetipPrefix := { maskedPrefix : string → option string }.

Record tunnelRoutes := { r_ready : Z; r_problems : list string }.

(** [tunnelRoutes.problem]. *)
Definition routes_problem (t : tunnelRoutes) : string := join "; " (r_problems t).

Definition addProblem (t : tunnelRoutes) (problem : string) : tunnelRoutes :=
  {| r_ready := r_ready t; r_problems := r_problems t ++ [problem] |}.

Definition addReady (t : tunnelRoutes) : tunnelRoutes :=
  {| r_ready := wrap32 (r_ready t + 1); r_problems := r_problems t |}.

Definition routeAccount (tunnel : CloudflareTunnel) : string :=
  if negb (str_eqb (tst_AccountTag (tun_Status tunnel)) "") then tst_AccountTag (tun_Status tunnel)
  else t_AccountId (tun_Spec tunnel).

Definition listRoutes (tunnel : CloudflareTunnel) (tunnelId : string) : prog TunnelE (list Teamnet + Err) :=
  call (ListRoutes (routeAccount tunnel) tunnelId).

Definition setVirtualNetwork (id : string) (route : CloudflareTunnelRoute) : CloudflareTunnelRoute :=
  {| tr_Network := tr_Network route; tr_Comment := tr_Comment route; tr_VirtualNetworkId := id |}.

Definition resolveVirtualNetworks (tunnel : CloudflareTunnel) (desired : list CloudflareTunnelRoute)
    (existing : list Teamnet) : prog TunnelE (list CloudflareTunnelRoute + Err) :=
  if Nat.eqb (length existing) 0 || negb (existsb (λ d, str_eqb (tr_VirtualNetworkId d) "") desired)
  then Ret (inl desired)
  else
    do networks <- call (ListDefaultVirtualNetworks (routeAccount tunnel));
    match networks with
    | inr err => Ret (inr (wrapErr "finding the default virtual network" err))
    | inl [] => Ret (inl desired)
    | inl (id :: _) =>
      Ret (inl ((λ d, if str_eqb (tr_VirtualNetworkId d) "" then setVirtualNetwork id d else d) <$> desired))
    end.

Section routes.
Context `{NetipPrefix}.

Definition notCidrProblem (network : string) : string :=
  "spec.routes network " +:+ fmt_q network +:+ " is not a CIDR".
Definition duplicateProblem (network : string) : string :=
  "spec.routes lists network " +:+ network +:+ " more than once in one virtual network".
Definition refusedProblem (network : string) (err : Err) : string :=
  "route " +:+ network +:+ " was refused: " +:+ err_message err.
Definition noAccessProblem : string := "the API token cannot manage private network routes".

(** The first loop: the routes in canonical form, those that are no CIDR
    reported. *)
Definition canonicalRoutes (routes : list CloudflareTunnelRoute)
    : tunnelRoutes * list CloudflareTunnelRoute :=
  foldl (λ '(result, desired) route,
    match maskedPrefix (tr_Network route) with
    | None => (addProblem result (notCidrProblem (tr_Network route)), desired)
    | Some network =>
      (result, desired ++ [{| tr_Network := network; tr_Comment := tr_Comment route;
                              tr_VirtualNetworkId := tr_VirtualNetworkId route |}])
    end) ({| r_ready := 0; r_problems := [] |}, []) routes.

(** What identifies a route: its network, in its virtual network. *)
Definition routeKey (route : CloudflareTunnelRoute) : string * string :=
  (tr_Network route, tr_VirtualNetworkId route).

(** The loop that drops the routes listed twice; [seen] is the keys of the kept
    ones. *)
Definition uniqueRoutes (result : tunnelRoutes) (desired : list CloudflareTunnelRoute)
    : tunnelRoutes * list CloudflareTunnelRoute :=
  foldl (λ '(result, unique) route,
    if bool_decide (routeKey route ∈ routeKey <$> unique)
    then (addProblem result (duplicateProblem (tr_Network route)), unique)
    else (result, unique ++ [route])) (result, []) desired.

(** [matchRoute], whose -1 is [None]. *)
Definition canonicalNetwork (network : string) : string := default network (maskedPrefix network).

Definition matchRoute (desired : list CloudflareTunnelRoute) (matched : list bool) (route : Teamnet) : option nat :=
  fst <$> list_find (λ dm : CloudflareTunnelRoute * bool,
    dm.2 = false ∧ routeKey dm.1 = (canonicalNetwork (tn_Network route), tn_VirtualNetworkID route))
    (zip desired matched).

(** The loop over the existing routes. *)
Fixpoint pruneRoutes (tunnel : CloudflareTunnel) (desired : list CloudflareTunnelRoute)
    (existing : list Teamnet) (matched : list bool) (result : tunnelRoutes)
    : prog TunnelE ((list bool * tunnelRoutes) + Err) :=
  match existing with
  | [] => Ret (inl (matched, result))
  | route :: existing =>
    match matchRoute desired matched route with
    | Some i => pruneRoutes tunnel desired existing (<[i := true]> matched) (addReady result)
    | None =>
      do err <- call (DeleteRoute (routeAccount tunnel) (tn_ID route));
      match cf_IgnoreNotFound err with
      | Some err => Ret (inr (wrapErr ("deleting route " +:+ tn_Network route) err))
      | None => pruneRoutes tunnel desired existing matched result
      end
    end
  end.

Definition newRouteParams (tunnel : CloudflareTunnel) (tunnelId : string) (route : CloudflareTunnelRoute)
    : RouteNewParams :=
  {| rp_AccountID := routeAccount tunnel; rp_Network := tr_Network route; rp_TunnelID := tunnelId;
     rp_Comment := nonempty (tr_Comment route);
     rp_VirtualNetworkID := nonempty (tr_VirtualNetworkId route) |}.

(** The loop over the desired routes, each with whether it was matched. *)
Fixpoint createRoutes (tunnel : CloudflareTunnel) (tunnelId : string)
    (desired : list (CloudflareTunnelRoute * bool)) (result : tunnelRoutes)
    : prog TunnelE (tunnelRoutes + Err) :=
  match desired with
  | [] => Ret (inl result)
  | (_, true) :: desired => createRoutes tunnel tunnelId desired result
  | (route, false) :: desired =>
    do err <- call (CreateRoute (newRouteParams tunnel tunnelId route));
    match err with
    | None => createRoutes tunnel tunnelId desired (addReady result)
    | Some err =>
      if IsClientError err then
        createRoutes tunnel tunnelId desired (addProblem result (refusedProblem (tr_Network route) err))
      else Ret (inr (wrapErr ("creating route " +:+ tr_Network route) err))
    end
  end.

Definition reconcileRoutes (tunnel : CloudflareTunnel) (tunnelId : string)
    : prog TunnelE (tunnelRoutes + Err) :=
  let '(result, desired) := canonicalRoutes (t_Routes (tun_Spec tunnel)) in
  do existing <- listRoutes tunnel tunnelId;
  match existing with
  | inr err =>
    if IsForbidden err && Nat.eqb (length (t_Routes (tun_Spec tunnel))) 0 then Ret (inl result)
    else if IsForbidden err then Ret (inl (addProblem result noAccessProblem))
    else Ret (inr (wrapErr "listing routes" err))
  | inl existing =>
    do? desired <- resolveVirtualNetworks tunnel desired existing;
    let '(result, desired) := uniqueRoutes result desired in
    do? pruned <- pruneRoutes tunnel desired existing (replicate (length desired) false) result;
    createRoutes tunnel tunnelId (zip desired pruned.1) pruned.2
  end.
End routes.

(** [deleteRoutes]. *)
Fixpoint deleteAll (tunnel : CloudflareTunnel) (existing : list Teamnet) : prog TunnelE (option Err) :=
  match existing with
  | [] => Ret None
  | route :: existing =>
    do err <- call (DeleteRoute (routeAccount tunnel) (tn_ID route));
    match cf_IgnoreNotFound err with
    | Some err => Ret (Some (wrapErr ("deleting route " +:+ tn_Network route) err))
    | None => deleteAll tunnel existing
    end
  end.

Definition deleteRoutes (tunnel : CloudflareTunnel) (tunnelId : string) : prog TunnelE (option Err) :=
  do existing <- listRoutes tunnel tunnelId;
  match existing with
  | inr err => if IsForbidden err then Ret None else Ret (Some (wrapErr "listing routes" err))
  | inl existing => deleteAll tunnel existing
  end.

(** ** The routes that are wanted *)

Section wanted.
Context `{NetipPrefix}.

Definition canonical (route : CloudflareTunnelRoute) : option CloudflareTunnelRoute :=
  network ← maskedPrefix (tr_Network route);
  Some {| tr_Network := network; tr_Comment := tr_Comment route;
          tr_VirtualNetworkId := tr_VirtualNetworkId route |}.

Lemma canonicalRoutes_eq routes : (canonicalRoutes routes).2 = omap canonical routes.
Proof.
  unfold canonicalRoutes. induction routes as [|r routes IH] using rev_ind; [done|].
  rewrite foldl_snoc, omap_app. destruct (foldl _ _ _) as [result desired]. simpl in IH. subst.
  rewrite (omap_cons_eq canonical r []).
  assert (canonical r = (λ network, {| tr_Network := network; tr_Comment := tr_Comment r;
    tr_VirtualNetworkId := tr_VirtualNetworkId r |}) <$> maskedPrefix (tr_Network r)) as ->
    by (unfold canonical; by destruct (maskedPrefix _)).
  destruct (maskedPrefix (tr_Network r)) as [network|]; [done|]. simpl. by rewrite app_nil_r.
Qed.

Lemma canonicalRoutes_ready routes : r_ready (canonicalRoutes routes).1 = 0%Z.
Proof.
  unfold canonicalRoutes. induction routes as [|r routes IH] using rev_ind; [done|].
  rewrite foldl_snoc. destruct (foldl _ _ _) as [result desired]. by destruct (maskedPrefix _).
Qed.

Lemma uniqueRoutes_spec result desired :
  let '(result', unique) := uniqueRoutes result desired in
  r_ready result' = r_ready result ∧ sublist unique desired ∧
  NoDup (routeKey <$> unique) ∧
  ∀ k, k ∈ routeKey <$> unique ↔ k ∈ routeKey <$> desired.
Proof.
  unfold uniqueRoutes. induction desired as [|r desired IH] using rev_ind; [simpl; split_and!; [done|constructor|constructor|done]|].
  rewrite foldl_snoc. destruct (foldl _ _ _) as [result' unique]. destruct IH as (IHr & IHs & IHn & IHk).
  case_bool_decide as Ek.
  - split_and!; [done|by apply sublist_inserts_r|done|]. intros k.
    rewrite fmap_app, elem_of_app, IHk. cbn [fmap list_fmap]. rewrite list_elem_of_singleton. split; [by left|].
    intros [?| ->]; [done|]. by apply IHk.
  - split_and!; [done|by apply sublist_app| |].
    + rewrite fmap_app. apply NoDup_app. split_and!; [done| |apply NoDup_singleton].
      intros k Hin ->%list_elem_of_singleton. done.
    + intros k. by rewrite !fmap_app, !elem_of_app, IHk.
Qed.

(** The account a tunnel's routes are in: the one Cloudflare reports, or the one
    the spec gives. *)
Definition accountOf (tunnel : CloudflareTunnel) : string :=
  if decide (tst_AccountTag (tun_Status tunnel) = "") then t_AccountId (tun_Spec tunnel)
  else tst_AccountTag (tun_Status tunnel).

Lemma routeAccount_of tunnel : routeAccount tunnel = accountOf tunnel.
Proof. unfold routeAccount, accountOf. destruct (str_eqb _ _) eqn:E; str_simpl; case_decide; done. Qed.

(** What an account's default virtual network is read as. *)
Definition defaultNetwork (account : string) (tr : list (event TunnelE)) : string :=
  match omap networksListed tr with
  | (a, inl (id :: _)) :: _ => if decide (a = account) then id else ""
  | _ => ""
  end.

(** A route as Cloudflare files it. *)
Definition filed (network : string) (d : CloudflareTunnelRoute) : CloudflareTunnelRoute :=
  if decide (tr_VirtualNetworkId d = "")
  then {| tr_Network := tr_Network d; tr_Comment := tr_Comment d; tr_VirtualNetworkId := network |} else d.

Definition noRouteEvents (tr : list (event TunnelE)) : Prop :=
  omap routesListed tr = [] ∧ omap routeDeleted tr = [] ∧ omap routeCreated tr = [].

Lemma filed_empty d : filed "" d = d.
Proof. unfold filed. case_decide as E; [|done]. destruct d. simpl in *. by subst. Qed.

Lemma filed_eq network d : (if str_eqb (tr_VirtualNetworkId d) "" then setVirtualNetwork network d else d) = filed network d.
Proof. unfold filed. destruct (str_eqb _ "") eqn:E; str_simpl; by case_decide. Qed.

Lemma resolveVirtualNetworks_exec tunnel desired existing tr res :
  exec (resolveVirtualNetworks tunnel desired existing) tr res →
  noRouteEvents tr ∧ ∀ ds, res = inl ds →
    ds = filed (defaultNetwork (routeAccount tunnel) tr) <$> desired.
Proof.
  unfold resolveVirtualNetworks. destruct (Nat.eqb (length existing) 0) eqn:E; simpl.
  { intros Hx. exec_inv. split; [done|]. intros ds [= <-].
    rewrite (list_fmap_ext _ id) by (intros; apply filed_empty). by rewrite list_fmap_id. }
  destruct (existsb _ desired) eqn:Ee; simpl; intros Hx.
  - apply exec_Vis_inv in Hx as (networks & tr' & -> & Hx).
    destruct networks as [[|id ids]|err]; exec_inv; (split; [done|]); intros ds [= <-].
    + rewrite (list_fmap_ext _ id) by (intros; apply filed_empty). by rewrite list_fmap_id.
    + unfold defaultNetwork. simpl. rewrite decide_True by done. apply list_fmap_ext. intros _ d _. apply filed_eq.
  - exec_inv. split; [done|]. intros ds [= <-].
    rewrite (list_fmap_ext _ id); [by rewrite list_fmap_id|]. intros i d Hd. rewrite <- filed_eq.
    destruct (str_eqb (tr_VirtualNetworkId d) "") eqn:Ed; [|done].
    assert (existsb (λ d, str_eqb (tr_VirtualNetworkId d) "") desired = true) as Ht; [|congruence].
    apply existsb_spec. exists d. split; [by eapply list_elem_of_lookup_2|done].
Qed.
End wanted.

(** ** Matching the existing routes *)

Section matching.
Context `{NetipPrefix}.

(** The key of an existing route, its network in canonical form. *)
Definition teamnetKey (route : Teamnet) : string * string :=
  (default (tn_Network route) (maskedPrefix (tn_Network route)), tn_VirtualNetworkID route).

(** The existing routes that are kept and those that are not: the first with a
    wanted key is kept, where [seen] is the keys kept before. *)
Fixpoint splitExisting (keys seen : list (string * string)) (existing : list Teamnet)
    : list Teamnet * list Teamnet :=
  match existing with
  | [] => ([], [])
  | route :: existing =>
    if bool_decide (teamnetKey route ∈ keys ∧ teamnetKey route ∉ seen) then
      let '(kept, deleted) := splitExisting keys (seen ++ [teamnetKey route]) existing in
      (route :: kept, deleted)
    else
      let '(kept, deleted) := splitExisting keys seen existing in (kept, route :: deleted)
  end.

Lemma splitExisting_spec keys seen existing :
  let '(kept, deleted) := splitExisting keys seen existing in
  existing ≡ₚ kept ++ deleted ∧ NoDup (teamnetKey <$> kept) ∧
  (∀ k, k ∈ teamnetKey <$> kept ↔ k ∈ keys ∧ k ∉ seen ∧ k ∈ teamnetKey <$> existing) ∧
  (∀ r, r ∈ deleted → teamnetKey r ∈ keys → teamnetKey r ∈ seen ++ (teamnetKey <$> kept)).
Proof.
  revert seen. induction existing as [|route existing IH]; intros seen; simpl.
  { split_and!; [done|constructor|set_solver|set_solver]. }
  case_bool_decide as E.
  - destruct E as [E1 E2]. specialize (IH (seen ++ [teamnetKey route])).
    destruct (splitExisting _ _ _) as [kept deleted]. destruct IH as (Hp & Hn & Hk & Hd). split_and!.
    + by rewrite Hp.
    + simpl. apply NoDup_cons. split; [|done]. rewrite Hk, elem_of_app, list_elem_of_singleton. tauto.
    + intros k. simpl. rewrite !elem_of_cons, Hk, elem_of_app, list_elem_of_singleton.
      destruct (decide (k = teamnetKey route)) as [->|]; tauto.
    + intros r Hr Hkey. specialize (Hd r Hr Hkey). by rewrite <- app_assoc in Hd.
  - specialize (IH seen). destruct (splitExisting _ _ _) as [kept deleted].
    destruct IH as (Hp & Hn & Hk & Hd). split_and!; [|done| |].
    + rewrite Hp. by rewrite Permutation_middle.
    + intros k. simpl. rewrite elem_of_cons, Hk. split; [tauto|].
      intros (? & ? & [->|?]); [by destruct E|done].
    + intros r [->|Hr]%elem_of_cons Hkey; [|by apply Hd].
      destruct (decide (teamnetKey route ∈ seen)); [apply elem_of_app; by left|by destruct E].
Qed.

(** Which of the wanted routes are matched. *)
Definition matchedBy (keys : list (string * string)) (desired : list CloudflareTunnelRoute) : list bool :=
  (λ d, bool_decide (routeKey d ∈ keys)) <$> desired.

Lemma matchRoute_spec desired keys route :
  match matchRoute desired (matchedBy keys desired) route with
  | Some i => ∃ d, desired !! i = Some d ∧ routeKey d = teamnetKey route ∧ teamnetKey route ∉ keys
  | None => teamnetKey route ∉ routeKey <$> desired ∨ teamnetKey route ∈ keys
  end.
Proof.
  unfold matchRoute, matchedBy. destruct (list_find _ _) as [[i [d b]]|] eqn:E; simpl.
  - apply list_find_Some in E as (Hl & [Hb Hk] & _). simpl in *. subst b.
    apply lookup_zip_Some in Hl as [Hd Hm]. rewrite list_lookup_fmap, Hd in Hm. simpl in Hm.
    injection Hm as Hm. apply bool_decide_eq_false in Hm. exists d.
    change (teamnetKey route) with (canonicalNetwork (tn_Network route), tn_VirtualNetworkID route). by rewrite <- Hk.
  - apply list_find_None in E. destruct (decide (teamnetKey route ∈ keys)); [by right|left].
    intros (d & Hk & Hd)%list_elem_of_fmap. apply list_elem_of_lookup_1 in Hd as [i Hi].
    rewrite Forall_forall in E. eapply (E (d, bool_decide (routeKey d ∈ keys))).
    + apply list_elem_of_lookup. exists i. apply lookup_zip_Some. split; [done|]. by rewrite list_lookup_fmap, Hi.
    + simpl. split; [|done]. apply bool_decide_eq_false.
      change (canonicalNetwork (tn_Network route), tn_VirtualNetworkID route) with (teamnetKey route). by rewrite <- Hk.
Qed.

Lemma matchedBy_insert desired keys i d :
  NoDup (routeKey <$> desired) → desired !! i = Some d →
  <[i := true]> (matchedBy keys desired) = matchedBy (keys ++ [routeKey d]) desired.
Proof.
  intros Hn Hd. apply list_eq. intros j. unfold matchedBy.
  destruct (decide (i = j)) as [<-|Hne].
  - rewrite list_lookup_insert_eq by (rewrite length_fmap; by eapply lookup_lt_Some).
    rewrite list_lookup_fmap, Hd. simpl. rewrite bool_decide_true; [done|set_solver].
  - rewrite list_lookup_insert_ne, !list_lookup_fmap by done.
    destruct (desired !! j) as [d'|] eqn:Ej; simpl; [|done]. f_equal. apply bool_decide_ext.
    rewrite elem_of_app, list_elem_of_singleton. split; [by left|]. intros [?|Heq]; [done|].
    destruct Hne. eapply NoDup_lookup; [exact Hn|rewrite list_lookup_fmap, Hd; done|].
    rewrite list_lookup_fmap, Ej. simpl. by rewrite Heq.
Qed.

Lemma pruneRoutes_exec tunnel desired existing seen result tr res :
  NoDup (routeKey <$> desired) →
  exec (pruneRoutes tunnel desired existing (matchedBy seen desired) result) tr res →
  let '(kept, deleted) := splitExisting (routeKey <$> desired) seen existing in
  omap routesListed tr = [] ∧ omap networksListed tr = [] ∧ omap routeCreated tr = [] ∧
  (∃ done, prefix done deleted ∧
     omap routeDeleted tr = (λ r, (routeAccount tunnel, tn_ID r)) <$> done) ∧
  ∀ matched r, res = inl (matched, r) →
    omap routeDeleted tr = (λ r, (routeAccount tunnel, tn_ID r)) <$> deleted ∧
    matched = matchedBy (seen ++ (teamnetKey <$> kept)) desired ∧
    ∀ k, r_ready result = wrap32 k → r_ready r = wrap32 (k + Z.of_nat (length kept)).
Proof.
  intros Hn. revert seen result tr. induction existing as [|route existing IH]; intros seen result tr Hx; simpl in Hx.
  { exec_inv. simpl. split_and!; [done..|by exists []|]. intros matched r [= <- <-].
    rewrite app_nil_r. split_and!; [done..|]. intros k ->. by rewrite Z.add_0_r. }
  simpl. pose proof (matchRoute_spec desired seen route) as Hm.
  destruct (matchRoute _ _ _) as [i|].
  - destruct Hm as (d & Hd & Hk & Hs).
    rewrite (matchedBy_insert _ _ _ d), Hk in Hx by done. apply IH in Hx.
    rewrite bool_decide_true.
    2:{ split; [|done]. rewrite <- Hk. apply list_elem_of_fmap. exists d. split; [done|]. by eapply list_elem_of_lookup_2. }
    destruct (splitExisting _ _ _) as [kept deleted]. destruct Hx as (? & ? & ? & ? & Hok).
    split_and!; [done..|]. intros matched r Hres. destruct (Hok matched r Hres) as (Hdel & -> & Hr).
    split_and!; [done|by simpl; rewrite <- app_assoc|]. intros k Hk'.
    rewrite (Hr (k + 1)%Z); [simpl; f_equal; lia|]. simpl. by rewrite Hk', wrap32_add.
  - rewrite bool_decide_false by (by destruct Hm; [intros [? _]|intros [_ ?]]).
    apply exec_Vis_inv in Hx as (err & tr' & -> & Hx).
    destruct (cf_IgnoreNotFound err) as [e|]; simpl in Hx.
    + exec_inv. destruct (splitExisting _ _ _) as [kept deleted]. simpl. split_and!; [done..| |done].
      exists [route]. split; [by exists deleted|done].
    + apply IH in Hx. destruct (splitExisting _ _ _) as [kept deleted].
      destruct Hx as (? & ? & ? & (done' & [rest ->] & Hd) & Hok). simpl. split_and!; [done..| |].
      * exists (route :: done'). split; [by exists rest|]. exact (f_equal (cons _) Hd).
      * intros matched r Hres. destruct (Hok matched r Hres) as (Hdel & ? & ?). split_and!; [|done..].
        exact (f_equal (cons _) Hdel).
Qed.

Lemma createRoutes_exec tunnel tunnelId desired result tr res :
  exec (createRoutes tunnel tunnelId desired result) tr res →
  let todo := omap (λ d : CloudflareTunnelRoute * bool, if d.2 then None else Some d.1) desired in
  omap routesListed tr = [] ∧ omap networksListed tr = [] ∧ omap routeDeleted tr = [] ∧
  (∃ done, prefix done todo ∧ (omap routeCreated tr).*1 = newRouteParams tunnel tunnelId <$> done) ∧
  ∀ r, res = inl r →
    (omap routeCreated tr).*1 = newRouteParams tunnel tunnelId <$> todo ∧
    ∀ k, r_ready result = wrap32 k → r_ready r =
      wrap32 (k + Z.of_nat (length (filter (λ c : RouteNewParams * option Err, c.2 = None) (omap routeCreated tr)))).
Proof.
  cbv zeta. revert result tr. induction desired as [|[route [|]] desired IH]; intros result tr Hx; simpl in Hx.
  - exec_inv. simpl. split_and!; [done..|by exists []|]. intros r [= <-]. split; [done|].
    intros k ->. by rewrite Z.add_0_r.
  - rewrite omap_cons_eq. by apply IH in Hx.
  - rewrite omap_cons_eq. simpl. apply exec_Vis_inv in Hx as (err & tr' & -> & Hx).
    set (todo := omap _ desired) in *.
    assert (∀ result1, exec (createRoutes tunnel tunnelId desired result1) tr' res →
      (∀ k, r_ready result = wrap32 k → r_ready result1 = wrap32 (k + if decide (err = None) then 1 else 0)) →
      omap routesListed tr' = [] ∧ omap networksListed tr' = [] ∧ omap routeDeleted tr' = [] ∧
      (∃ done, prefix done (route :: todo) ∧
         newRouteParams tunnel tunnelId route :: (omap routeCreated tr').*1 = newRouteParams tunnel tunnelId <$> done) ∧
      ∀ r, res = inl r →
        newRouteParams tunnel tunnelId route :: (omap routeCreated tr').*1 =
          newRouteParams tunnel tunnelId <$> route :: todo ∧
        ∀ k, r_ready result = wrap32 k → r_ready r = wrap32 (k + Z.of_nat (length
          (filter (λ c : RouteNewParams * option Err, c.2 = None)
             ((newRouteParams tunnel tunnelId route, err) :: omap routeCreated tr'))))) as Hstep.
    { intros result1 Hx1 Hr1. apply IH in Hx1 as (? & ? & ? & (done' & [rest Hrest] & Hd) & Hok).
      split_and!; [done..| |].
      - exists (route :: done'). split; [exists rest; by rewrite Hrest|]. simpl. by rewrite Hd.
      - intros r Hres. destruct (Hok r Hres) as [Hc Hk]. split; [simpl; by rewrite Hc|].
        intros k Hk0. rewrite (Hk _ (Hr1 k Hk0)), filter_cons. f_equal. simpl.
        destruct (decide (err = None)); simpl; lia. }
    destruct err as [err|].
    + destruct (IsClientError err).
      * eapply Hstep; [done|]. intros k Hk. rewrite decide_False, Z.add_0_r by done. exact Hk.
      * exec_inv. split_and!; [done..| |done]. exists [route]. split; [by exists todo|done].
    + eapply Hstep; [done|]. intros k Hk. rewrite decide_True by done. unfold addReady. cbn [r_ready]. by rewrite Hk, wrap32_add.
Qed.
End matching.

(** ** Properties *)

Section properties.
Context `{NetipPrefix}.

(** The routes created are those no existing route has the key of. *)
Lemma todo_eq (desired : list CloudflareTunnelRoute) keys :
  omap (λ d : CloudflareTunnelRoute * bool, if d.2 then None else Some d.1)
    (zip desired (matchedBy keys desired)) = filter (λ d, routeKey d ∉ keys) desired.
Proof.
  unfold matchedBy. induction desired as [|d desired IH]; [done|].
  rewrite filter_cons. cbn [fmap list_fmap zip zip_with]. rewrite omap_cons_eq. cbn [fst snd].
  case_bool_decide as Ek; [rewrite decide_False by tauto|rewrite decide_True by done]; [|f_equal]; exact IH.
Qed.

(** The two loops that write. *)
Definition converged (tunnel : CloudflareTunnel) (tunnelId : string) (desired : list CloudflareTunnelRoute)
    (existing : list Teamnet) (tr : list (event TunnelE)) (res : tunnelRoutes + Err) : Prop :=
  let '(kept, deleted) := splitExisting (routeKey <$> desired) [] existing in
  let created := filter (λ d, routeKey d ∉ teamnetKey <$> kept) desired in
  (∃ tr1 tr2, tr = tr1 ++ tr2 ∧ omap routeCreated tr1 = [] ∧ omap routeDeleted tr2 = []) ∧
  (∃ done, prefix done deleted ∧
     omap routeDeleted tr = (λ r, (routeAccount tunnel, tn_ID r)) <$> done) ∧
  (∃ done, prefix done created ∧ (omap routeCreated tr).*1 = newRouteParams tunnel tunnelId <$> done) ∧
  ∀ r, res = inl r →
    omap routeDeleted tr = (λ r, (routeAccount tunnel, tn_ID r)) <$> deleted ∧
    (omap routeCreated tr).*1 = newRouteParams tunnel tunnelId <$> created ∧
    r_ready r = wrap32 (Z.of_nat (length kept + length (filter (λ c : RouteNewParams * option Err, c.2 = None) (omap routeCreated tr)))).

Lemma writes_exec tunnel tunnelId desired existing result tr res :
  NoDup (routeKey <$> desired) → r_ready result = 0%Z →
  exec (do? pruned <- pruneRoutes tunnel desired existing (replicate (length desired) false) result;
        createRoutes tunnel tunnelId (zip desired pruned.1) pruned.2) tr res →
  omap routesListed tr = [] ∧ omap networksListed tr = [] ∧
  converged tunnel tunnelId desired existing tr res.
Proof.
  intros Hn Hr0 Hx. apply exec_bind in Hx as (tr1 & tr2 & pruned & -> & Hp & Hx).
  assert (replicate (length desired) false = matchedBy [] desired) as Hrep.
  { unfold matchedBy. clear. induction desired as [|d desired IH]; simpl; [done|]. by rewrite IH. }
  rewrite Hrep in Hp. apply pruneRoutes_exec in Hp; [|done]. unfold converged.
  destruct (splitExisting _ _ _) as [kept deleted].
  destruct Hp as (P1 & P2 & P3 & (done1 & Hpre & P4) & Pok). rewrite !omap_app, P1, P2, P3. simpl.
  destruct pruned as [[matched r1]|e].
  - destruct (Pok _ _ eq_refl) as (Hdel & -> & Hready). apply createRoutes_exec in Hx. simpl in Hx.
    rewrite todo_eq in Hx. destruct Hx as (C1 & C2 & C3 & C4 & Cok). rewrite C3, app_nil_r.
    split_and!; [done..|by exists tr1, tr2|by exists done1|done|]. intros r Hres.
    destruct (Cok r Hres) as [Hc Hk]. split_and!; [done..|].
    rewrite (Hk (Z.of_nat (length kept))); [by rewrite Nat2Z.inj_add|].
    rewrite (Hready 0%Z); [done|]. by rewrite Hr0, wrap32_id.
  - exec_inv. rewrite !app_nil_r. split_and!; [done..|by exists tr1, []; rewrite app_nil_r|by exists done1|by exists []; split; [apply prefix_nil|]|done].
Qed.

Lemma reconcileRoutes_exec tunnel tunnelId tr res :
  exec (reconcileRoutes tunnel tunnelId) tr res →
  (∃ e, tr = [Ev (ListRoutes (routeAccount tunnel) tunnelId) (inr e)] ∧
     ∀ r, res = inl r → IsForbidden e = true ∧ r_ready r = 0%Z) ∨
  ∃ existing, omap routesListed tr = [(routeAccount tunnel, tunnelId, inl existing)] ∧
  ((omap routeDeleted tr = [] ∧ omap routeCreated tr = [] ∧ ∃ e, res = inr e) ∨
   ∃ desired, NoDup (routeKey <$> desired) ∧
     sublist desired (filed (defaultNetwork (routeAccount tunnel) tr) <$> omap canonical (t_Routes (tun_Spec tunnel))) ∧
     (∀ k, k ∈ routeKey <$> desired ↔
        k ∈ routeKey <$> (filed (defaultNetwork (routeAccount tunnel) tr) <$> omap canonical (t_Routes (tun_Spec tunnel)))) ∧
     converged tunnel tunnelId desired existing tr res).
Proof.
  unfold reconcileRoutes, listRoutes. intros Hx.
  pose proof (canonicalRoutes_eq (t_Routes (tun_Spec tunnel))) as Hc.
  pose proof (canonicalRoutes_ready (t_Routes (tun_Spec tunnel))) as Hr0.
  destruct (canonicalRoutes _) as [result desired0]. simpl in Hc, Hr0. subst desired0.
  apply exec_bind in Hx as (tr0 & tr1 & listed & -> & Hl & Hx). apply exec_call in Hl as ->.
  destruct listed as [existing|e].
  2:{ left. exists e. destruct (IsForbidden e) eqn:Ef; simpl in Hx; [|exec_inv; by split_and!].
      destruct (Nat.eqb _ _); exec_inv; (split_and!; [done..|]); by intros r [= <-]. }
  right. exists existing.
  apply exec_bind in Hx as (tr2 & tr3 & resolved & -> & Hv & Hx).
  apply resolveVirtualNetworks_exec in Hv as [(V1 & V2 & V3) Hv].
  destruct resolved as [desired1|e].
  2:{ exec_inv. rewrite !omap_app. simpl. rewrite V1, V2, V3. split; [done|]. left. by split_and!; [..|eexists]. }
  specialize (Hv _ eq_refl). pose proof (uniqueRoutes_spec result desired1) as Hu.
  destruct (uniqueRoutes result desired1) as [result1 desired]. destruct Hu as (Hur & Hus & Hun & Huk).
  apply writes_exec in Hx as (W1 & W2 & Hw); [|done|congruence].
  assert (defaultNetwork (routeAccount tunnel) ([Ev (ListRoutes (routeAccount tunnel) tunnelId) (inl existing)] ++ tr2 ++ tr3) = defaultNetwork (routeAccount tunnel) tr2) as Hd.
  { unfold defaultNetwork. rewrite !omap_app, W2, app_nil_r. done. }
  rewrite Hd, <- Hv. split; [rewrite !omap_app, V1, W1; done|]. right. exists desired. split_and!; [done..|].
  unfold converged in *. destruct (splitExisting _ _ _) as [kept deleted].
  rewrite !omap_app, V2, V3. destruct Hw as ((t1 & t2 & -> & ? & ?) & Hw). split; [|exact Hw].
  exists ([Ev (ListRoutes (routeAccount tunnel) tunnelId) (inl existing)] ++ tr2 ++ t1), t2.
  rewrite !omap_app, V3. by rewrite <- !app_assoc.
Qed.



(** The routes spec.routes asks for, as Cloudflare files them. *)
Definition specRoutes (tunnel : CloudflareTunnel) (tr : list (event TunnelE)) : list CloudflareTunnelRoute :=
  filed (defaultNetwork (accountOf tunnel) tr) <$> omap canonical (t_Routes (tun_Spec tunnel)).

(** What identifies a wanted route, and the parameters it is created with: an
    empty comment or virtual network is not sent. *)
Definition wantedKey (d : CloudflareTunnelRoute) : string * string := (tr_Network d, tr_VirtualNetworkId d).









(** Whatever the API answers, reconciling the routes never touches a route that
    is as spec.routes asks: when each existing route is one of them and each of
    them exists, once, no route is deleted or created. *)
Theorem reconcileRoutes_stable tunnel tunnelId tr res account existing :
  exec (reconcileRoutes tunnel tunnelId) tr res →
  omap routesListed tr = [(account, tunnelId, inl existing)] →
  NoDup (teamnetKey <$> existing) →
  (∀ k, k ∈ teamnetKey <$> existing ↔ k ∈ wantedKey <$> specRoutes tunnel tr) →
  omap routeDeleted tr = [] ∧ omap routeCreated tr = [].
Proof.
  unfold specRoutes. rewrite <- routeAccount_of. change wantedKey with routeKey.
  intros [(e & -> & _)|(existing' & Hl & [(? & ? & _)|(desired & Hn & Hs & Hk & Hw)])]%reconcileRoutes_exec;
    [done..|]. rewrite Hl. intros [= _ ->] Hen Hek.
  assert (∀ k, k ∈ teamnetKey <$> existing ↔ k ∈ routeKey <$> desired) as Hsame.
  { intros k. rewrite Hek, Hk. done. }
  unfold converged in Hw. pose proof (splitExisting_spec (routeKey <$> desired) [] existing) as Hsp.
  destruct (splitExisting _ _ _) as [kept deleted]. destruct Hsp as (Hp & Hkn & Hkk & Hd).
  destruct Hw as (_ & (done1 & Hp1 & H1) & (done2 & Hp2 & H2) & _).
  assert (deleted = []) as ->.
  { destruct deleted as [|r deleted]; [done|exfalso]. rewrite Hp, fmap_app in Hen.
    apply NoDup_app in Hen as (_ & Hdis & _). apply (Hdis (teamnetKey r)); [|by left].
    apply (Hd r); [by left|]. apply Hsame. rewrite Hp, fmap_app. apply elem_of_app. right. by left. }
  assert (filter (λ d, routeKey d ∉ teamnetKey <$> kept) desired = []) as Hf.
  { destruct (filter _ desired) as [|d ds] eqn:E; [done|exfalso].
    assert (d ∈ d :: ds) as Hin by by left. rewrite <- E in Hin. apply list_elem_of_filter in Hin as [Hnk Hin].
    apply Hnk, Hkk. assert (routeKey d ∈ routeKey <$> desired) by by apply list_elem_of_fmap_2.
    split_and!; [done|by apply not_elem_of_nil|by apply Hsame]. }
  rewrite Hf in Hp2. apply prefix_nil_inv in Hp1 as ->, Hp2 as ->. split; [done|]. by apply fmap_nil_inv in H2.
Qed.

End properties.

(** The requests that leave a tunnel without routes: none, once the token was
    forbidden to list them; or one for each listed, in order. *)
Inductive RoutesDeleted (account tunnelId : string) : list (event TunnelE) → Prop :=
  | routes_forbidden e : err_status e = Some 403%Z →
      RoutesDeleted account tunnelId [Ev (ListRoutes account tunnelId) (inr e)]
  | routes_deleted existing answers : length answers = length existing → Forall gone answers →
      RoutesDeleted account tunnelId (Ev (ListRoutes account tunnelId) (inl existing) ::
        zip_with (λ r a, Ev (DeleteRoute account (tn_ID r)) a) existing answers).

Lemma deleteAll_exec tunnel existing tr res :
  exec (deleteAll tunnel existing) tr res →
  (∃ done answers, prefix done existing ∧ length answers = length done ∧
     tr = zip_with (λ r a, Ev (DeleteRoute (routeAccount tunnel) (tn_ID r)) a) done answers) ∧
  (res = None → ∃ answers, length answers = length existing ∧ Forall gone answers ∧
     tr = zip_with (λ r a, Ev (DeleteRoute (routeAccount tunnel) (tn_ID r)) a) existing answers).
Proof.
  revert tr. induction existing as [|route existing IH]; intros tr Hx; simpl in Hx.
  { exec_inv. split; [by exists [], []|]. intros _. by exists []. }
  apply exec_Vis_inv in Hx as (err & tr' & -> & Hx). destruct (cf_IgnoreNotFound err) as [e|] eqn:Ee; simpl in Hx.
  - exec_inv. split; [|done]. exists [route], [err]. split_and!; [by exists existing|done..].
  - apply IH in Hx as [(d & answers & [rest ->] & Hlen & ->) Hok]. split.
    + exists (route :: d), (err :: answers). split_and!; [by exists rest|simpl; by f_equal|done].
    + intros Hres. destruct (Hok Hres) as (as' & Hl & Hg & Heq). exists (err :: as').
      split_and!; [simpl; by f_equal|constructor; [by apply cf_gone|done]|]. simpl. by f_equal.
Qed.

Lemma deleteRoutes_exec tunnel tunnelId tr :
  exec (deleteRoutes tunnel tunnelId) tr None → RoutesDeleted (routeAccount tunnel) tunnelId tr.
Proof.
  unfold deleteRoutes, listRoutes. intros Hx.
  apply exec_bind in Hx as (tr0 & tr1 & listed & -> & Hl & Hx). apply exec_call in Hl as ->.
  destruct listed as [existing|e].
  - apply deleteAll_exec in Hx as [_ Hok]. destruct (Hok eq_refl) as (answers & Hl & Hg & ->). by apply routes_deleted.
  - destruct (IsForbidden e) eqn:Ef; exec_inv. apply routes_forbidden. by apply bool_decide_eq_true in Ef.
Qed.

(** Deleting a tunnel's routes succeeds only when every route Cloudflare listed
    for it was deleted, in order, or was already gone, or when the token may
    not list routes at all, and then nothing is deleted. *)
Theorem deleteRoutes_spec tunnel tunnelId tr :
  exec (deleteRoutes tunnel tunnelId) tr None → RoutesDeleted (accountOf tunnel) tunnelId tr.
Proof. rewrite <- routeAccount_of. apply deleteRoutes_exec. Qed.

(** ** Witnesses *)

Definition samplePrefix : NetipPrefix :=
  {| maskedPrefix := λ s, if has_suffix "/16" s then Some s else None |}.

Definition sampleRoute (network vnet : string) : CloudflareTunnelRoute :=
  {| tr_Network := network; tr_Comment := "office"; tr_VirtualNetworkId := vnet |}.

Definition routesTunnel : CloudflareTunnel :=
  sampleTunnel (Some "id") [] [sampleRoute "10.1.0.0/16" ""; sampleRoute "10.2.0.0/16" "v2"; sampleRoute "office" ""].

Definition routesAnswers (existing : list Teamnet) (R : Type) (e : TunnelE R) : option R :=
  match e in TunnelE R return option R with
  | ListRoutes _ _ => Some (inl existing)
  | ListDefaultVirtualNetworks _ => Some (inl ["v0"])
  | DeleteRoute _ _ | CreateRoute _ => Some None
  | _ => None
  end.


Lemma reconcileRoutes_stable_witness :
  ∃ tr res, exec (@reconcileRoutes samplePrefix routesTunnel "id") tr res ∧ omap routeDeleted tr = [] ∧
    omap routeCreated tr = [].
Proof.
  set (existing := [{| tn_ID := "r1"; tn_Network := "10.1.0.0/16"; tn_VirtualNetworkID := "v0" |};
                    {| tn_ID := "r2"; tn_Network := "10.2.0.0/16"; tn_VirtualNetworkID := "v2" |}]).
  pose (tr := [Ev (ListRoutes "account" "id") (inl existing); Ev (ListDefaultVirtualNetworks "account") (inl ["v0"])]).
  pose (r := {| r_ready := 2; r_problems := [notCidrProblem "office"] |}).
  assert (exec (@reconcileRoutes samplePrefix routesTunnel "id") tr (inl r)) as Hx.
  { apply (runTrace_exec (routesAnswers existing)). vm_compute. reflexivity. }
  exists tr, (inl r). split; [exact Hx|].
  refine (@reconcileRoutes_stable samplePrefix routesTunnel "id" tr (inl r) "account" existing Hx eq_refl _ _).
  - apply (proj1 (bool_decide_eq_true (NoDup _))). vm_compute. reflexivity.
  - assert (@teamnetKey samplePrefix <$> existing = wantedKey <$> @specRoutes samplePrefix routesTunnel tr) as Heq
      by (vm_compute; reflexivity).
    intros k. by rewrite Heq.
Defined.

Lemma deleteRoutes_spec_witness :
  ∃ tr, exec (deleteRoutes routesTunnel "id") tr None ∧ RoutesDeleted "account" "id" tr.
Proof.
  set (existing := [{| tn_ID := "r1"; tn_Network := "10.1.0.0/16"; tn_VirtualNetworkID := "v0" |}]).
  pose (tr := [Ev (ListRoutes "account" "id") (inl existing); Ev (DeleteRoute "account" "r1") None]).
  assert (exec (deleteRoutes routesTunnel "id") tr None) as Hx.
  { apply (runTrace_exec (routesAnswers existing)). vm_compute. reflexivity. }
  exists tr. split; [exact Hx|]. exact (deleteRoutes_spec routesTunnel "id" tr Hx).
Defined.
