(* ===== verification/ValueFrom.v ===== *)
(** * Values read from Secrets and ConfigMaps (internal/controller/valuefrom.go)

    How a tunnel's secret is found, and the check that it is one Cloudflare
    accepts ([tunnelSecret] of cloudflaretunnel_controller.go). *)
From S2P Require Import Prelude GatewayAPI Samples API Effects Helpers Model TunnelApi.

(** An error of reading a value: [errValueUnset], or a failure. *)
Inductive ValueErr := ValueUnset | ValueFailed (e : Err).

Definition optional (o : option bool) : bool := default false o.

(** [resolveSecretKey] and [resolveConfigMapKey]: the two differ in what they
    read and in the word that names it. *)
Definition resolveKey (get : prog TunnelE (gmap string string + Err)) (kind namespace : string)
    (ref : KeySelector) : prog TunnelE (string + ValueErr) :=
  let key := nn_string {| nn_Namespace := namespace; nn_Name := ks_Name ref |} in
  do source <- get;
  match source with
  | inr err =>
    Ret (inr (if k8s_IsNotFound err && optional (ks_Optional ref) then ValueUnset
              else ValueFailed (wrapErr ("get " +:+ kind +:+ " " +:+ key) err)))
  | inl data =>
    match data !! ks_Key ref with
    | Some value => Ret (inl value)
    | None =>
      Ret (inr (if optional (ks_Optional ref) then ValueUnset
                else ValueFailed (plainErr (kind +:+ " " +:+ key +:+ " has no key " +:+ ks_Key ref))))
    end
  end.

Definition resolveSecretKey (namespace : string) (ref : KeySelector) : prog TunnelE (string + ValueErr) :=
  resolveKey (call (GetSecretSource {| nn_Namespace := namespace; nn_Name := ks_Name ref |})) "secret" namespace ref.

Definition resolveConfigMapKey (namespace : string) (ref : KeySelector) : prog TunnelE (string + ValueErr) :=
  resolveKey (call (GetConfigMapSource {| nn_Namespace := namespace; nn_Name := ks_Name ref |})) "configmap" namespace ref.

(** [sources] says whether a reader is configured. *)
Definition resolveTunnelSecret (sources : bool) (namespace : string) (secret : option CloudflareTunnelSecret)
    : prog TunnelE (string + ValueErr) :=
  match secret with
  | None => Ret (inr ValueUnset)
  | Some secret =>
    match ts_Value secret, ts_ValueFrom secret with
    | Some value, _ => Ret (inl value)
    | None, None => Ret (inr (ValueFailed (plainErr "tunnel secret has neither value nor valueFrom")))
    | None, Some ref =>
      if negb sources then Ret (inr (ValueFailed (plainErr "no reader configured for tunnel secret references")))
      else
        match tsr_SecretKeyRef ref, tsr_ConfigMapKeyRef ref with
        | Some _, Some _ => Ret (inr (ValueFailed (plainErr "valueFrom has both secretKeyRef and configMapKeyRef")))
        | Some secretRef, None => resolveSecretKey namespace secretRef
        | None, Some configMapRef => resolveConfigMapKey namespace configMapRef
        | None, None => Ret (inr (ValueFailed (plainErr "valueFrom has neither secretKeyRef nor configMapKeyRef")))
        end
    end
  end.

(** ** [base64.StdEncoding.DecodeString] *)

Definition isBase64 (a : Ascii.ascii) : bool :=
  existsb (Ascii.eqb a) (String.list_ascii_of_string
    "ABCDEFGHIJKLMNOPQRSTUVWXYZabcdefghijklmnopqrstuvwxyz0123456789+/").

Definition isNewline (a : Ascii.ascii) : bool :=
  let n := Ascii.nat_of_ascii a in Nat.eqb n 10 || Nat.eqb n 13.

Definition isPad (a : Ascii.ascii) : bool := Nat.eqb (Ascii.nat_of_ascii a) 61.

(** Newlines are skipped; [si] is the offset of the first character. *)
Fixpoint skipNewlines (s : string) (si : nat) : string * nat :=
  match s with
  | String a s' => if isNewline a then skipNewlines s' (S si) else (s, si)
  | EmptyString => (s, si)
  end.

(** After the padding only newlines may follow. *)
Definition afterPadding (s : string) (si n : nat) : nat + nat :=
  match skipNewlines s si with
  | (EmptyString, _) => inl n
  | (_, si) => inr si
  end.

(** The number of bytes a string decodes to, or the offset the decoder reports
    corrupt input at: [j] characters of the current group of four are read and
    [n] bytes decoded. *)
Fixpoint base64Length (s : string) (si j n : nat) : nat + nat :=
  match s with
  | EmptyString => if Nat.eqb j 0 then inl n else inr (si - j)
  | String a s' =>
    if isBase64 a then
      if Nat.eqb j 3 then base64Length s' (S si) 0 (n + 3) else base64Length s' (S si) (S j) n
    else if isNewline a then base64Length s' (S si) j n
    else if negb (isPad a) then inr si
    else if Nat.ltb j 2 then inr si
    else if Nat.eqb j 2 then
      match skipNewlines s' (S si) with
      | (EmptyString, si) => inr si
      | (String a' s'', si) => if isPad a' then afterPadding s'' (S si) (n + 1) else inr (si - 1)
      end
    else afterPadding s' (S si) (n + 2)
  end.

(** ** [tunnelSecret] *)

(** The secret, when one is configured. *)
Definition tunnelSecret (sources : bool) (tunnel : CloudflareTunnel) : prog TunnelE (option string + Err) :=
  do value <- resolveTunnelSecret sources (om_Namespace (tun_ObjectMeta tunnel)) (t_TunnelSecret (tun_Spec tunnel));
  match value with
  | inr ValueUnset => Ret (inl None)
  | inr (ValueFailed err) => Ret (inr err)
  | inl value =>
    match base64Length value 0 0 0 with
    | inr at_ => Ret (inr (plainErr ("tunnel secret is not valid base64: illegal base64 data at input byte "
                                     +:+ fmt_d (Z.of_nat at_))))
    | inl raw =>
      if Nat.ltb raw 32 then
        Ret (inr (plainErr ("tunnel secret decodes to " +:+ fmt_d (Z.of_nat raw)
                            +:+ " bytes, at least 32 are required")))
      else Ret (inl (Some value))
    end
  end.

Example base64_ok : base64Length "aGVsbG8=" 0 0 0 = inl 5. Proof. reflexivity. Qed.
Example base64_short : base64Length "aGVsbG8" 0 0 0 = inr 4. Proof. reflexivity. Qed.
Example base64_trailing : base64Length "aGVsbA==x" 0 0 0 = inr 8. Proof. reflexivity. Qed.

(** ** Properties *)

(** A source read: whether it was a Secret, its key, and the answer. *)
Definition sourceRead (ev : event TunnelE) : option (bool * NamespacedName * (gmap string string + Err)) :=
  let 'Ev e a := ev in
  match e in TunnelE R return R → option _ with
  | GetSecretSource key => λ a, Some (true, key, a)
  | GetConfigMapSource key => λ a, Some (false, key, a)
  | _ => λ _, None
  end a.

(** The one reference a tunnel's secret names: to a Secret, or to a ConfigMap. *)
Definition namedSource (secret : option CloudflareTunnelSecret) : option (bool * KeySelector) :=
  s ← secret;
  match ts_Value s, ts_ValueFrom s with
  | None, Some ref =>
    match tsr_SecretKeyRef ref, tsr_ConfigMapKeyRef ref with
    | Some r, None => Some (true, r)
    | None, Some r => Some (false, r)
    | _, _ => None
    end
  | _, _ => None
  end.

(** What reading a reference answers says of the value. *)
Definition readValue (ref : KeySelector) (answer : gmap string string + Err) : option string :=
  match answer with inl data => data !! ks_Key ref | inr _ => None end.

Definition readsAsUnset (ref : KeySelector) (answer : gmap string string + Err) : Prop :=
  ks_Optional ref = Some true ∧
  match answer with inl data => data !! ks_Key ref = None | inr e => k8s_IsNotFound e = true end.

Lemma resolveKey_exec (b : bool) kind ns ref tr res :
  exec (resolveKey (call (if b then GetSecretSource {| nn_Namespace := ns; nn_Name := ks_Name ref |}
                          else GetConfigMapSource {| nn_Namespace := ns; nn_Name := ks_Name ref |})) kind ns ref) tr res →
  ∃ a, omap sourceRead tr = [(b, {| nn_Namespace := ns; nn_Name := ks_Name ref |}, a)] ∧
    (∀ v, res = inl v ↔ readValue ref a = Some v) ∧ (res = inr ValueUnset ↔ readsAsUnset ref a).
Proof.
  unfold resolveKey. intros Hx. apply exec_bind in Hx as (tr1 & tr2 & a & -> & Hc & Hx).
  apply exec_call in Hc as ->. exists a.
  assert (omap sourceRead [Ev (if b then GetSecretSource {| nn_Namespace := ns; nn_Name := ks_Name ref |}
    else GetConfigMapSource {| nn_Namespace := ns; nn_Name := ks_Name ref |}) a] =
    [(b, {| nn_Namespace := ns; nn_Name := ks_Name ref |}, a)]) as Hr by by destruct b.
  assert (∀ o, optional o = true ↔ o = Some true) as Ho by by intros [[]|].
  assert (∀ o, optional o = false → o ≠ Some true) as Ho' by by intros [[]|].
  rewrite omap_app, Hr. unfold readsAsUnset, readValue.
  destruct a as [data|e].
  - destruct (data !! ks_Key ref) as [v|] eqn:Ev; exec_inv; (split; [done|]).
    + split; [|by split; [|intros [_ ?]]]. intros v'. split; by intros [= <-].
    + split; [by intros v; split|]. destruct (optional (ks_Optional ref)) eqn:Eo; [by apply Ho in Eo|].
      by apply Ho' in Eo; split; [|intros [? _]].
  - exec_inv. split; [done|]. split; [by intros v; split|].
    destruct (k8s_IsNotFound e); simpl; [|by split; [|intros [_ ?]]].
    destruct (optional (ks_Optional ref)) eqn:Eo; [by apply Ho in Eo|].
    by apply Ho' in Eo; split; [|intros [? _]].
Qed.

Lemma resolveTunnelSecret_exec sources ns secret tr res :
  exec (resolveTunnelSecret sources ns secret) tr res →
  (omap sourceRead tr = [] ∧
     (res = inr ValueUnset ↔ secret = None) ∧
     (∀ v, res = inl v ↔ secret ≫= ts_Value = Some v)) ∨
  ∃ b ref a, namedSource secret = Some (b, ref) ∧ sources = true ∧
    omap sourceRead tr = [(b, {| nn_Namespace := ns; nn_Name := ks_Name ref |}, a)] ∧
    (∀ v, res = inl v ↔ readValue ref a = Some v) ∧ (res = inr ValueUnset ↔ readsAsUnset ref a).
Proof.
  unfold resolveTunnelSecret, namedSource. destruct secret as [s|].
  2:{ intros Hx. exec_inv. left. split_and!; [done..|]. by intros v; split. }
  simpl. destruct (ts_Value s) as [v|].
  { intros Hx. exec_inv. left. split_and!; [done..|]. intros v'. split; by intros [= <-]. }
  destruct (ts_ValueFrom s) as [ref|].
  2:{ intros Hx. exec_inv. left. split_and!; [done..|]. by intros v; split. }
  destruct sources; simpl.
  2:{ intros Hx. exec_inv. left. split_and!; [done..|]. by intros v; split. }
  destruct (tsr_SecretKeyRef ref) as [r|], (tsr_ConfigMapKeyRef ref) as [r'|]; intros Hx.
  1,4: exec_inv; left; (split_and!; [done..|]); by intros v; split.
  - apply (resolveKey_exec true) in Hx as (a & ? & ? & ?). right. by exists true, r, a.
  - apply (resolveKey_exec false) in Hx as (a & ? & ? & ?). right. by exists false, r', a.
Qed.

(** An accepted secret is long enough. *)
Lemma tunnelSecret_length sources tunnel tr v :
  exec (tunnelSecret sources tunnel) tr (inl (Some v)) → ∃ n, base64Length v 0 0 0 = inl n ∧ 32 ≤ n.
Proof.
  unfold tunnelSecret. intros Hx. apply exec_bind in Hx as (tr1 & tr2 & value & -> & _ & Hx).
  destruct value as [v'|[|e]]; [|by exec_inv..]. destruct (base64Length v' 0 0 0) as [n|] eqn:Eb; [|by exec_inv].
  destruct (Nat.ltb_spec n 32); exec_inv. by exists n.
Qed.

(** C39. A tunnel secret reaches the Cloudflare API only when it is base64 of at
    least 32 bytes, and it is then the spec's inline value or the value under
    the named key of the one Secret or ConfigMap the spec names, read from the
    tunnel's own namespace. No secret is sent (and Cloudflare makes its own)
    only when none is configured or the reference is marked optional and its
    source or key does not exist; any other failure is an error. *)
Theorem tunnelSecret_spec sources tunnel tr res :
  exec (tunnelSecret sources tunnel) tr res →
  let secret := t_TunnelSecret (tun_Spec tunnel) in
  let source ref := {| nn_Namespace := om_Namespace (tun_ObjectMeta tunnel); nn_Name := ks_Name ref |} in
  (∀ v, res = inl (Some v) →
     (∃ n, base64Length v 0 0 0 = inl n ∧ 32 ≤ n) ∧
     (secret ≫= ts_Value = Some v ∨
      ∃ b ref data, namedSource secret = Some (b, ref) ∧
        omap sourceRead tr = [(b, source ref, inl data)] ∧ data !! ks_Key ref = Some v)) ∧
  (res = inl None ↔
     secret = None ∨
     ∃ b ref a, namedSource secret = Some (b, ref) ∧
       omap sourceRead tr = [(b, source ref, a)] ∧ readsAsUnset ref a).
Proof.
  unfold tunnelSecret. cbv zeta. intros Hx. apply exec_bind in Hx as (tr1 & tr2 & value & -> & Hv & Hx).
  assert (tr2 = []) as ->.
  { destruct value as [v|[|e]]; [|by exec_inv..]. destruct (base64Length v 0 0 0); [|by exec_inv].
    destruct (Nat.ltb n 32); by exec_inv. }
  rewrite app_nil_r. apply resolveTunnelSecret_exec in Hv.
  assert (res = inl None ↔ value = inr ValueUnset) as Hnone.
  { destruct value as [v|[|e]]; [|by exec_inv; split..]. destruct (base64Length v 0 0 0) as [n|]; [|by exec_inv; split].
    destruct (Nat.ltb n 32); by exec_inv; split. }
  assert (∀ v, res = inl (Some v) → value = inl v ∧ ∃ n, base64Length v 0 0 0 = inl n ∧ 32 ≤ n) as Hsome.
  { intros v ->. destruct value as [v'|[|e]]; [|by exec_inv..].
    destruct (base64Length v' 0 0 0) as [n|] eqn:Eb; [|by exec_inv].
    destruct (Nat.ltb_spec n 32); exec_inv. split; [done|]. by exists n. }
  split.
  - intros v [Hval Hn]%Hsome. split; [done|]. destruct Hv as [(_ & _ & Hi)|(b & ref & a & Hs & _ & Hr & Hi & _)].
    + left. by apply Hi.
    + right. apply Hi in Hval. destruct a as [data|]; [|done]. by exists b, ref, data.
  - rewrite Hnone. destruct Hv as [(Hr & Hu & _)|(b & ref & a & Hs & _ & Hr & _ & Hu)].
    + rewrite Hu. split; [by left|]. intros [?|(b & ref & a & _ & Hr' & _)]; [done|by rewrite Hr in Hr'].
    + rewrite Hu. split; [intros ?; right; by exists b, ref, a|].
      intros [Hn|(b' & ref' & a' & Hs' & Hr' & Hu')]; [by rewrite Hn in Hs|].
      rewrite Hs in Hs'. injection Hs' as <- <-. rewrite Hr in Hr'. by injection Hr' as <-.
Qed.

Definition secretTunnel : CloudflareTunnel :=
  {| tun_ObjectMeta := sampleMeta "default" "tunnel";
     tun_Spec := {| t_AccountId := "account"; t_Cloudflared := None; t_Config := None; t_ConfigSource := "local";
       t_Dns := None; t_Name := ""; t_Routes := [];
       t_TunnelSecret := Some {| ts_Value := None; ts_ValueFrom := Some
         {| tsr_ConfigMapKeyRef := None;
            tsr_SecretKeyRef := Some {| ks_Name := "s"; ks_Key := "k"; ks_Optional := None |} |} |} |};
     tun_Status := sampleTunnelStatus None |}.

Lemma tunnelSecret_spec_witness :
  let v := "MDEyMzQ1Njc4OWFiY2RlZjAxMjM0NTY3ODlhYmNkZWY=" in
  let tr := [Ev (GetSecretSource {| nn_Namespace := "default"; nn_Name := "s" |}) (inl (<["k" := v]> ∅))] in
  exec (tunnelSecret true secretTunnel) tr (inl (Some v)) ∧ ∃ n, base64Length v 0 0 0 = inl n ∧ 32 ≤ n.
Proof.
  intros v tr. assert (exec (tunnelSecret true secretTunnel) tr (inl (Some v))) as Hx.
  { apply (runTrace_exec (λ R e, match e in TunnelE R return option R with
      | GetSecretSource _ => Some (inl (<["k" := v]> ∅)) | _ => None end)). vm_compute. reflexivity. }
  split; [exact Hx|]. exact (proj1 (proj1 (tunnelSecret_spec true secretTunnel tr _ Hx) v eq_refl)).
Defined.
