(* ===== verification/TunnelCtl.v ===== *)
(** * The tunnel controller (internal/controller/cloudflaretunnel_controller.go)

    [Reconcile] and [finalize] of CloudflareTunnelReconciler, with the calls they
    make: creating or adopting the tunnel, converging it and its Cloudflareds,
    and deleting it. *)
From S2P Require Import Prelude GatewayAPI Samples API Effects Helpers Model Tunnel Envoy TunnelApi Dns PrivateRoutes ValueFrom.

Definition cloudflareTunnelFinalizer := "cloudflaretunnel.cloudflare.unmango.dev/finalizer".
Definition typeAvailableCloudflareTunnel := "Available".
Definition typeDegradedCloudflareTunnel := "Degraded".
Definition typeProgressingCloudflareTunnel := "Progressing".
Definition reasonReconciling := "Reconciling".
Definition reasonInvalidSpec := "InvalidSpec".
Definition msgStartingReconciliation := "Starting reconciliation".

Definition retryAfterFailedCreate : Z := seconds 60.

(** ** Updates of the object *)

Definition withStatus (t : CloudflareTunnel) (st : CloudflareTunnelStatus) : CloudflareTunnel :=
  {| tun_ObjectMeta := tun_ObjectMeta t; tun_Spec := tun_Spec t; tun_Status := st |}.

Definition withFinalizers (t : CloudflareTunnel) (fs : list string) : CloudflareTunnel :=
  let m := tun_ObjectMeta t in
  {| tun_ObjectMeta :=
       {| om_Name := om_Name m; om_Namespace := om_Namespace m; om_UID := om_UID m;
          om_ResourceVersion := om_ResourceVersion m; om_Generation := om_Generation m;
          om_CreationTimestamp := om_CreationTimestamp m; om_DeletionTimestamp := om_DeletionTimestamp m;
          om_Labels := om_Labels m; om_Annotations := om_Annotations m;
          om_OwnerReferences := om_OwnerReferences m; om_Finalizers := fs |};
     tun_Spec := tun_Spec t; tun_Status := tun_Status t |}.

Definition withConditions (st : CloudflareTunnelStatus) (cs : list Condition) : CloudflareTunnelStatus :=
  {| tst_AccountTag := tst_AccountTag st; tst_Conditions := cs;
     tst_ConnectionsActiveAt := tst_ConnectionsActiveAt st;
     tst_ConnectionsInactiveAt := tst_ConnectionsInactiveAt st;
     tst_CreatedAt := tst_CreatedAt st; tst_Id := tst_Id st; tst_DnsRecords := tst_DnsRecords st;
     tst_DnsRecordsReady := tst_DnsRecordsReady st; tst_RoutesReady := tst_RoutesReady st;
     tst_Instances := tst_Instances st; tst_Name := tst_Name st;
     tst_RemoteConfig := tst_RemoteConfig st; tst_Status := tst_Status st; tst_Type := tst_Type st |}.

Definition withInstances (st : CloudflareTunnelStatus) (n : Z) : CloudflareTunnelStatus :=
  {| tst_AccountTag := tst_AccountTag st; tst_Conditions := tst_Conditions st;
     tst_ConnectionsActiveAt := tst_ConnectionsActiveAt st;
     tst_ConnectionsInactiveAt := tst_ConnectionsInactiveAt st;
     tst_CreatedAt := tst_CreatedAt st; tst_Id := tst_Id st; tst_DnsRecords := tst_DnsRecords st;
     tst_DnsRecordsReady := tst_DnsRecordsReady st; tst_RoutesReady := tst_RoutesReady st;
     tst_Instances := n; tst_Name := tst_Name st;
     tst_RemoteConfig := tst_RemoteConfig st; tst_Status := tst_Status st; tst_Type := tst_Type st |}.

Definition withRoutesReady (st : CloudflareTunnelStatus) (n : Z) : CloudflareTunnelStatus :=
  {| tst_AccountTag := tst_AccountTag st; tst_Conditions := tst_Conditions st;
     tst_ConnectionsActiveAt := tst_ConnectionsActiveAt st;
     tst_ConnectionsInactiveAt := tst_ConnectionsInactiveAt st;
     tst_CreatedAt := tst_CreatedAt st; tst_Id := tst_Id st; tst_DnsRecords := tst_DnsRecords st;
     tst_DnsRecordsReady := tst_DnsRecordsReady st; tst_RoutesReady := n;
     tst_Instances := tst_Instances st; tst_Name := tst_Name st;
     tst_RemoteConfig := tst_RemoteConfig st; tst_Status := tst_Status st; tst_Type := tst_Type st |}.

(** [shared.CloudflareTunnelConfigSrcCloudflare]. *)
Definition isRemoteConfig (res : RemoteTunnel) : bool := str_eqb (rt_ConfigSrc res) "cloudflare".

(** What [recordTunnel] and [updateTunnel] copy from the API's answer. *)
Definition copyRemote (st : CloudflareTunnelStatus) (res : RemoteTunnel) : CloudflareTunnelStatus :=
  {| tst_AccountTag := rt_AccountTag res; tst_Conditions := tst_Conditions st;
     tst_ConnectionsActiveAt := rt_ConnsActiveAt res;
     tst_ConnectionsInactiveAt := rt_ConnsInactiveAt res;
     tst_CreatedAt := rt_CreatedAt res; tst_Id := Some (rt_ID res); tst_DnsRecords := tst_DnsRecords st;
     tst_DnsRecordsReady := tst_DnsRecordsReady st; tst_RoutesReady := tst_RoutesReady st;
     tst_Instances := tst_Instances st; tst_Name := rt_Name res;
     tst_RemoteConfig := isRemoteConfig res; tst_Status := rt_Status res; tst_Type := rt_TunType res |}.

Definition effectiveName (tunnel : CloudflareTunnel) : string :=
  if negb (str_eqb (t_Name (tun_Spec tunnel)) "") then t_Name (tun_Spec tunnel)
  else om_Name (tun_ObjectMeta tunnel).

Section controller.
Context `{ObjectHelpers, SelectorError, LabelSelectors, Sha256, NetipPrefix}.

Definition setCondition (c : Condition) (t : CloudflareTunnel) : CloudflareTunnel :=
  withStatus t (withConditions (tun_Status t) (SetStatusCondition (tst_Conditions (tun_Status t)) c)).

(** The error of a patch whose object is not used again. *)
Definition patchErr (p : prog TunnelE (CloudflareTunnel + Err)) : prog TunnelE (option Err) :=
  do r <- p; Ret (match r with inl _ => None | inr e => Some e end).

Definition degrade (tunnel : CloudflareTunnel) (message : string) : prog TunnelE (option Err) :=
  patchErr (patchSubResource tunnel
    (setCondition (mkCondition typeDegradedCloudflareTunnel ConditionTrue reasonInvalidSpec message))).

(** [recordTunnel]. *)
Definition recordTunnel (tunnel : CloudflareTunnel) (res : RemoteTunnel) (message : string)
    : prog TunnelE (option Err) :=
  patchErr (patchSubResource tunnel (λ obj,
    let obj := setCondition (mkCondition typeProgressingCloudflareTunnel ConditionTrue reasonReconciling message) obj in
    withStatus obj (copyRemote (tun_Status obj) res))).

Definition adoptTunnel (tunnel : CloudflareTunnel) (conflict : Err) : prog TunnelE (option Err) :=
  let name := effectiveName tunnel in
  do tunnels <- call (ListTunnels (t_AccountId (tun_Spec tunnel)) name);
  match tunnels with
  | inr err => Ret (Some (joinErr conflict (Some err)))
  | inl [] => Ret (Some conflict)
  | inl [res] => recordTunnel tunnel res "Adopted existing cloudflare tunnel"
  | inl tunnels =>
    let err := plainErr (fmt_d (Z.of_nat (length tunnels)) +:+ " cloudflare tunnels are named " +:+ fmt_q name) in
    do degraded <- degrade tunnel (err_message err);
    Ret (Some (joinErr err degraded))
  end.

(** [mapConfigSrc]; an unknown source panics. *)
Definition mapConfigSrc (src : string) : prog TunnelE string :=
  if str_eqb src CloudflareCloudflareTunnelConfigSource then Ret "cloudflare"
  else if str_eqb src LocalCloudflareTunnelConfigSource then Ret "local"
  else do x <- call (Panic ("unrecognized config source: " +:+ src)); match x : Empty_set with end.

Definition createTunnel (sources : bool) (tunnel : CloudflareTunnel) : prog TunnelE (option Err) :=
  do secret <- tunnelSecret sources tunnel;
  match secret with
  | inr err =>
    do degraded <- degrade tunnel ("Resolving tunnel secret: " +:+ err_message err);
    Ret (Some (joinErr err degraded))
  | inl secret =>
    do configSrc <- mapConfigSrc (t_ConfigSource (tun_Spec tunnel));
    do res <- call (CreateTunnel {| np_AccountID := t_AccountId (tun_Spec tunnel);
                                    np_Name := effectiveName tunnel; np_ConfigSrc := configSrc;
                                    np_TunnelSecret := secret |});
    match res with
    | inr err => if IsConflict err then adoptTunnel tunnel err else Ret (Some err)
    | inl res => recordTunnel tunnel res "Successfully created cloudflare tunnel"
    end
  end.

(** The tunnel as Cloudflare holds it under the name the spec asks for. *)
Definition renamed (id : string) (tunnel : CloudflareTunnel) (res : RemoteTunnel) : prog TunnelE (RemoteTunnel + Err) :=
  let name := effectiveName tunnel in
  if negb (str_eqb name (rt_Name res)) then
    do edited <- call (EditTunnel id (t_AccountId (tun_Spec tunnel)) name);
    Ret (match edited with
         | inr err => inr err
         | inl (Some edited) => inl edited
         | inl None => inl res
         end)
  else Ret (inl res).

(** Pushes the configuration; the problem with the rules, empty for none. *)
Definition pushConfig (id : string) (tunnel : CloudflareTunnel) (remoteConfig : bool) : prog TunnelE (string + Err) :=
  match t_Config (tun_Spec tunnel) with
  | Some config =>
    if remoteConfig then
      let ingressErr := validateIngress (tc_Ingress config) in
      if str_eqb ingressErr "" then
        do err <- call (UpdateConfiguration id (t_AccountId (tun_Spec tunnel)) (UpdateParams config));
        Ret (match err with Some err => inr err | None => inl ingressErr end)
      else Ret (inl ingressErr)
    else Ret (inl "")
  | None => Ret (inl "")
  end.

(** The Degraded condition that tells the problems a reconciliation found. *)
Definition degradedCondition (configConflict : bool) (ingressErr dnsProblem routesProblem : string) : Condition :=
  let invalid := mkCondition typeDegradedCloudflareTunnel ConditionTrue reasonInvalidSpec in
  if configConflict then invalid "spec.config is set on a locally managed tunnel and cannot be pushed to Cloudflare"
  else if negb (str_eqb ingressErr "") then invalid ingressErr
  else if negb (str_eqb dnsProblem "") then invalid dnsProblem
  else if negb (str_eqb routesProblem "") then invalid routesProblem
  else mkCondition typeDegradedCloudflareTunnel ConditionFalse reasonReconciling "Tunnel status updated".

(** The status patch of [updateTunnel]. *)
Definition updatedStatus (res : RemoteTunnel) (configConflict : bool) (ingressErr : string)
    (dns : tunnelDns) (routes : tunnelRoutes) (obj : CloudflareTunnel) : CloudflareTunnel :=
  let obj := setCondition (mkCondition typeProgressingCloudflareTunnel ConditionTrue reasonReconciling
                             "Tunnel status updated") obj in
  let obj := setCondition (degradedCondition configConflict ingressErr (dns_problem dns) (routes_problem routes)) obj in
  withStatus obj (withRoutesReady (dns_apply dns (copyRemote (tun_Status obj) res)) (r_ready routes)).

(** The part of [updateTunnel] that follows the configuration. *)
Definition updateStatus (id : string) (tunnel : CloudflareTunnel) (res : RemoteTunnel)
    (configConflict : bool) (ingressErr : string) : prog TunnelE (CloudflareTunnel + Err) :=
  do dns <- reconcileDns tunnel id;
  match dns with
  | inr err => Ret (inr (wrapErr "reconciling DNS records" err))
  | inl dns =>
    do routes <- reconcileRoutes tunnel id;
    match routes with
    | inr err => Ret (inr (wrapErr "reconciling routes" err))
    | inl routes => patchSubResource tunnel (updatedStatus res configConflict ingressErr dns routes)
    end
  end.

Definition updateTunnel (id : string) (tunnel : CloudflareTunnel) : prog TunnelE (CloudflareTunnel + Err) :=
  do? res <- call (GetTunnel id (t_AccountId (tun_Spec tunnel)));
  do? res <- renamed id tunnel res;
  let remoteConfig := isRemoteConfig res in
  let configConflict := bool_decide (is_Some (t_Config (tun_Spec tunnel))) && negb remoteConfig in
  do? ingressErr <- pushConfig id tunnel remoteConfig;
  updateStatus id tunnel res configConflict ingressErr.

(** [tunnelSelector], on a tunnel with or without spec.cloudflared; a nil
    selector selects nothing. *)
Definition nothing : gmap string string → bool := λ _, false.

Definition tunnelSelector (tunnel : CloudflareTunnel) : (gmap string string → bool) + Err :=
  match t_Cloudflared (tun_Spec tunnel) with
  | None => inl nothing
  | Some cf =>
    match tcd_Selector cf with
    | None => inl nothing
    | Some sel =>
      match LabelSelectorAsSelector sel with
      | Some f => inl f
      | None => inr (wrapErr "converting label selector into a selector" (plainErr (selectorError sel)))
      end
    end
  end.

Definition listCloudflareds (namespace : string) (selector : gmap string string → bool)
    : prog TunnelE (list Cloudflared + Err) :=
  do cloudflareds <- call (ListCloudflareds namespace selector);
  Ret (match cloudflareds with inl items => inl items | inr err => inr (wrapErr "listing cloudflareds" err) end).

(** The configuration that points a Cloudflared at the tunnel. *)
Definition tunnelConfig (tunnelId account : string) : CloudflaredConfig :=
  {| dc_Inline := {| ci_TunnelId := Some tunnelId; ci_AccountId := Some account |};
     dc_TunnelRef := None; dc_ValueFrom := None |}.

Definition configured (config : CloudflaredConfig) (spec : CloudflaredSpec) : CloudflaredSpec :=
  {| cd_Config := Some config; cd_Kind := cd_Kind spec; cd_Replicas := cd_Replicas spec;
     cd_Template := cd_Template spec; cd_Version := cd_Version spec |}.

(** The loop over the selected Cloudflareds. *)
Fixpoint applyConfig (config : CloudflaredConfig) (cs : list Cloudflared) : prog TunnelE (option Err) :=
  match cs with
  | [] => Ret None
  | c :: cs =>
    do err <- call (UpdateCloudflared {| cfd_ObjectMeta := cfd_ObjectMeta c;
                                         cfd_Spec := configured config (cfd_Spec c);
                                         cfd_Status := cfd_Status c |});
    match err with Some err => Ret (Some err) | None => applyConfig config cs end
  end.

(** The Cloudflared created from the template. *)
Definition fromTemplate (tunnel : CloudflareTunnel) (template : CloudflaredTemplateSpec)
    (config : CloudflaredConfig) : Cloudflared :=
  {| cfd_ObjectMeta :=
       {| om_Name := om_Name (tun_ObjectMeta tunnel); om_Namespace := om_Namespace (tun_ObjectMeta tunnel);
          om_UID := ""; om_ResourceVersion := ""; om_Generation := 0; om_CreationTimestamp := 0;
          om_DeletionTimestamp := None; om_Labels := om_Labels (dt_ObjectMeta template);
          om_Annotations := ∅; om_OwnerReferences := []; om_Finalizers := [] |};
     cfd_Spec := configured config (dt_Spec template);
     cfd_Status := {| cds_Kind := None; cds_TunnelId := None; cds_Conditions := [] |} |}.

(** What [Reconcile] does for spec.cloudflared. *)
Definition reconcileCloudflareds (tunnel : CloudflareTunnel) (tunnelId : string)
    (cf : CloudflareTunnelCloudflared) : prog TunnelE Result :=
  match tunnelSelector tunnel with
  | inr err =>
    do degraded <- degrade tunnel ("spec.cloudflared.selector is not a valid label selector: " +:+ err_message err);
    Ret {| requeueAfter := 0; result_err := degraded |}
  | inl selector =>
    do cloudflareds <- listCloudflareds (om_Namespace (tun_ObjectMeta tunnel)) selector;
    match cloudflareds with
    | inr err => Ret (failed err)
    | inl items =>
      do patched <- patchSubResource tunnel (λ obj,
        let obj := setCondition (mkCondition typeProgressingCloudflareTunnel ConditionTrue reasonReconciling
                                   "Selecting cloudflared resources") obj in
        withStatus obj (withInstances (tun_Status obj) (wrap32 (Z.of_nat (length items)))));
      match patched with
      | inr err => Ret (failed err)
      | inl tunnel =>
        let config := tunnelConfig tunnelId (tst_AccountTag (tun_Status tunnel)) in
        do err <- applyConfig config items;
        match err, tcd_Template cf with
        | Some err, _ => Ret (failed err)
        | None, None => Ret done_
        | None, Some template =>
          if negb (Nat.eqb (length items) 0) then Ret done_
          else if negb (selector (om_Labels (dt_ObjectMeta template))) then
            do degraded <- degrade tunnel "spec.cloudflared.selector does not match the labels on spec.cloudflared.template";
            Ret {| requeueAfter := 0; result_err := degraded |}
          else
            let cloudflared := fromTemplate tunnel template config in
            match SetControllerReference (tun_ObjectMeta tunnel) (cfd_ObjectMeta cloudflared) with
            | inr err => Ret (failed err)
            | inl om =>
              do err <- call (CreateCloudflared {| cfd_ObjectMeta := om; cfd_Spec := cfd_Spec cloudflared;
                                                   cfd_Status := cfd_Status cloudflared |});
              Ret {| requeueAfter := 0; result_err := err |}
            end
        end
      end
    end
  end.

(** The loop of [deleteCloudflareds]. *)
Fixpoint deleteOwned (tunnel : CloudflareTunnel) (cs : list Cloudflared) : prog TunnelE (option Err) :=
  match cs with
  | [] => Ret None
  | c :: cs =>
    match HasOwnerReference (om_OwnerReferences (cfd_ObjectMeta c)) (tun_ObjectMeta tunnel) with
    | inr err => Ret (Some err)
    | inl false => Ret None
    | inl true =>
      do err <- call (DeleteCloudflared c);
      match err with Some err => Ret (Some err) | None => deleteOwned tunnel cs end
    end
  end.

(** [deleteCloudflareds]; the object it patched is the caller's. *)
Definition deleteCloudflareds (tunnel : CloudflareTunnel) (cs : list Cloudflared)
    : prog TunnelE (option Err) :=
  match cs with
  | [] => Ret None
  | _ =>
    do patched <- patchSubResource tunnel
      (setCondition (mkCondition typeDegradedCloudflareTunnel ConditionTrue reasonReconciling
                       "Deleting owned Cloudflared instances"));
    match patched with
    | inr err => Ret (Some err)
    | inl tunnel => deleteOwned tunnel cs
    end
  end.

(** [deleteTunnel]: the object as patched. *)
Definition deleteTunnel (id : string) (tunnel : CloudflareTunnel) : prog TunnelE (CloudflareTunnel + Err) :=
  do? tunnel <- patchSubResource tunnel
    (setCondition (mkCondition typeDegradedCloudflareTunnel ConditionTrue reasonReconciling
                     "Deleting tunnel from Cloudflare API"));
  do err <- call (DeleteTunnel id (tst_AccountTag (tun_Status tunnel)));
  Ret (match cf_IgnoreNotFound err with Some err => inr err | None => inl tunnel end).

Definition removeFinalizer (tunnel : CloudflareTunnel) : prog TunnelE Result :=
  do err <- patchErr (patch tunnel (λ obj,
    withFinalizers obj (RemoveFinalizer (om_Finalizers (tun_ObjectMeta obj)) cloudflareTunnelFinalizer)));
  Ret {| requeueAfter := 0; result_err := err |}.

(** The part of [finalize] that follows the Cloudflareds. *)
Definition finalizeTunnel (tunnel : CloudflareTunnel) : prog TunnelE Result :=
  match tst_Id (tun_Status tunnel) with
  | None => removeFinalizer tunnel
  | Some id =>
    do err <- deleteRoutes tunnel id;
    match err with
    | Some err => Ret (failed err)
    | None =>
      do deleted <- deleteTunnel id tunnel;
      match deleted with
      | inr err => Ret (failed err)
      | inl tunnel => removeFinalizer tunnel
      end
    end
  end.

Definition finalize (tunnel : CloudflareTunnel) : prog TunnelE Result :=
  match t_Cloudflared (tun_Spec tunnel), tunnelSelector tunnel with
  | Some _, inl selector =>
    do cloudflareds <- listCloudflareds (om_Namespace (tun_ObjectMeta tunnel)) selector;
    match cloudflareds with
    | inr err => Ret (failed err)
    | inl [] => finalizeTunnel tunnel
    | inl items =>
      do err <- deleteCloudflareds tunnel items;
      Ret (match err with Some err => failed err | None => requeue (seconds 5) end)
    end
  | _, _ => finalizeTunnel tunnel
  end.

(** The conditions of a tunnel seen for the first time. *)
Definition startConditions (tunnel : CloudflareTunnel) : prog TunnelE (CloudflareTunnel + Err) :=
  let start t := mkCondition t ConditionUnknown reasonReconciling msgStartingReconciliation in
  match tst_Conditions (tun_Status tunnel) with
  | [] => patchSubResource tunnel (λ obj,
      setCondition (start typeProgressingCloudflareTunnel)
        (setCondition (start typeDegradedCloudflareTunnel)
          (setCondition (start typeAvailableCloudflareTunnel) obj)))
  | _ => Ret (inl tunnel)
  end.

Definition ensureFinalizer (tunnel : CloudflareTunnel) : prog TunnelE (CloudflareTunnel + Err) :=
  if ContainsFinalizer (om_Finalizers (tun_ObjectMeta tunnel)) cloudflareTunnelFinalizer then Ret (inl tunnel)
  else patch tunnel (λ obj,
    withFinalizers obj (AddFinalizer (om_Finalizers (tun_ObjectMeta obj)) cloudflareTunnelFinalizer)).

Definition Reconcile (sources : bool) (req : NamespacedName) : prog TunnelE Result :=
  do got <- call (GetCloudflareTunnel req);
  match got with
  | inr err => Ret {| requeueAfter := 0; result_err := k8s_IgnoreNotFound (Some err) |}
  | inl tunnel =>
    match om_DeletionTimestamp (tun_ObjectMeta tunnel) with
    | Some _ => finalize tunnel
    | None =>
      do started <- startConditions tunnel;
      match started with
      | inr err => Ret (failed err)
      | inl tunnel =>
        do held <- ensureFinalizer tunnel;
        match held with
        | inr err => Ret (failed err)
        | inl tunnel =>
          match tst_Id (tun_Status tunnel) with
          | None =>
            do err <- createTunnel sources tunnel;
            Ret (match err with
                 | Some _ => requeue retryAfterFailedCreate
                 | None => requeue (seconds 5)
                 end)
          | Some tunnelId =>
            do updated <- updateTunnel tunnelId tunnel;
            match updated with
            | inr err => Ret (failed err)
            | inl tunnel =>
              match t_Cloudflared (tun_Spec tunnel) with
              | None => Ret done_
              | Some cf => reconcileCloudflareds tunnel tunnelId cf
              end
            end
          end
        end
      end
    end
  end.
End controller.

(** ** Requests in a trace *)

Definition objectPatched (ev : event TunnelE) : option (CloudflareTunnel * CloudflareTunnel * (CloudflareTunnel + Err)) :=
  let 'Ev e a := ev in
  match e in TunnelE R return R → option _ with
  | PatchTunnel original updated => λ a, Some (original, updated, a)
  | _ => λ _, None
  end a.

Definition statusPatched (ev : event TunnelE) : option (CloudflareTunnel * CloudflareTunnel * (CloudflareTunnel + Err)) :=
  let 'Ev e a := ev in
  match e in TunnelE R return R → option _ with
  | PatchTunnelStatus original updated => λ a, Some (original, updated, a)
  | _ => λ _, None
  end a.

Definition tunnelCreated (ev : event TunnelE) : option (TunnelNewParams * (RemoteTunnel + Err)) :=
  let 'Ev e a := ev in
  match e in TunnelE R return R → option _ with
  | CreateTunnel params => λ a, Some (params, a)
  | _ => λ _, None
  end a.

Definition tunnelsListed (ev : event TunnelE) : option (string * string * (list RemoteTunnel + Err)) :=
  let 'Ev e a := ev in
  match e in TunnelE R return R → option _ with
  | ListTunnels account name => λ a, Some (account, name, a)
  | _ => λ _, None
  end a.

Definition tunnelDeleted (ev : event TunnelE) : option (string * string * option Err) :=
  let 'Ev e a := ev in
  match e in TunnelE R return R → option _ with
  | DeleteTunnel id account => λ a, Some (id, account, a)
  | _ => λ _, None
  end a.

Definition tunnelGot (ev : event TunnelE) : option (string * (RemoteTunnel + Err)) :=
  let 'Ev e a := ev in
  match e in TunnelE R return R → option _ with
  | GetTunnel id _ => λ a, Some (id, a)
  | _ => λ _, None
  end a.

Definition tunnelEdited (ev : event TunnelE) : option (string * string * (option RemoteTunnel + Err)) :=
  let 'Ev e a := ev in
  match e in TunnelE R return R → option _ with
  | EditTunnel id _ name => λ a, Some (id, name, a)
  | _ => λ _, None
  end a.


Definition cloudflaredsListed (ev : event TunnelE)
    : option (string * (gmap string string → bool) * (list Cloudflared + Err)) :=
  let 'Ev e a := ev in
  match e in TunnelE R return R → option _ with
  | ListCloudflareds ns selector => λ a, Some (ns, selector, a)
  | _ => λ _, None
  end a.

Definition cloudflaredUpdated (ev : event TunnelE) : option (Cloudflared * option Err) :=
  let 'Ev e a := ev in
  match e in TunnelE R return R → option _ with
  | UpdateCloudflared c => λ a, Some (c, a)
  | _ => λ _, None
  end a.
Definition cloudflaredCreated (ev : event TunnelE) : option Cloudflared :=
  let 'Ev e _ := ev in match e with CreateCloudflared c => Some c | _ => None end.
Definition cloudflaredDeleted (ev : event TunnelE) : option Cloudflared :=
  let 'Ev e _ := ev in match e with DeleteCloudflared c => Some c | _ => None end.

(** ** What kinds of requests each step makes *)

Lemma only_reconcileDns `{ObjectHelpers, Sha256} tunnel id :
  only [KGetZone; KListDnsRecords; KApplyDnsRecord; KDeleteDnsRecord] (reconcileDns tunnel id).
Proof.
  unfold reconcileDns, ownedDnsRecords. destruct (desiredDnsRecords tunnel) as [desired problems].
  assert (∀ ids m, only [KGetZone; KListDnsRecords; KApplyDnsRecord; KDeleteDnsRecord] (readZones ids m)) as Hz.
  { induction ids as [|z ids IH]; intros m; simpl; [done|]. split; [set_solver|].
    intros [name|e]; [apply IH|]. repeat first [apply IH|only_step]. }
  assert (∀ d hosts keep r, only [KGetZone; KListDnsRecords; KApplyDnsRecord; KDeleteDnsRecord]
    (applyRecords tunnel id d hosts keep r)) as Ha.
  { intros d. induction hosts as [|h hosts IH]; intros keep r; simpl; [done|].
    destruct (d !! h); [|apply IH]. simpl. split; [set_solver|]. intros [rec|[|e]]; [apply IH..|done]. }
  assert (∀ owned keep, only [KGetZone; KListDnsRecords; KApplyDnsRecord; KDeleteDnsRecord]
    (deleteRecords owned keep)) as Hd.
  { induction owned as [|r owned IH]; intros keep; simpl; [done|]. case_bool_decide; [apply IH|].
    simpl. split; [set_solver|]. intros err. destruct (k8s_IgnoreNotFound err); [done|apply IH]. }
  repeat first [apply Hz|apply Ha|apply Hd|only_step].
Qed.

Lemma only_reconcileRoutes `{NetipPrefix} tunnel id :
  only [KListRoutes; KListDefaultVirtualNetworks; KDeleteRoute; KCreateRoute] (reconcileRoutes tunnel id).
Proof.
  unfold reconcileRoutes, listRoutes, resolveVirtualNetworks.
  destruct (canonicalRoutes _) as [result desired].
  assert (∀ d ex m r, only [KListRoutes; KListDefaultVirtualNetworks; KDeleteRoute; KCreateRoute]
    (pruneRoutes tunnel d ex m r)) as Hp.
  { intros d. induction ex as [|route ex IH]; intros m r; simpl; [done|].
    destruct (matchRoute _ _ _); [apply IH|]. simpl. split; [set_solver|].
    intros err. destruct (cf_IgnoreNotFound err); [done|apply IH]. }
  assert (∀ d r, only [KListRoutes; KListDefaultVirtualNetworks; KDeleteRoute; KCreateRoute]
    (createRoutes tunnel id d r)) as Hc.
  { induction d as [|[route [|]] d IH]; intros r; simpl; [done|apply IH|]. split; [set_solver|].
    intros [err|]; [|apply IH]. destruct (IsClientError err); [apply IH|done]. }
  repeat first [apply Hp|apply Hc|only_step].
Qed.

Lemma only_deleteRoutes tunnel id : only [KListRoutes; KDeleteRoute] (deleteRoutes tunnel id).
Proof.
  unfold deleteRoutes, listRoutes.
  assert (∀ ex, only [KListRoutes; KDeleteRoute] (deleteAll tunnel ex)) as Hd.
  { induction ex as [|route ex IH]; simpl; [done|]. split; [set_solver|].
    intros err. destruct (cf_IgnoreNotFound err); [done|apply IH]. }
  repeat first [apply Hd|only_step].
Qed.

Lemma only_tunnelSecret sources tunnel :
  only [KGetSecretSource; KGetConfigMapSource] (tunnelSecret sources tunnel).
Proof.
  unfold tunnelSecret, resolveTunnelSecret, resolveSecretKey, resolveConfigMapKey, resolveKey.
  repeat only_step.
Qed.

(** Shows that the traces of a step hold no request of some view. *)
Ltac no_requests lem Hx :=
  eapply only_omap; [apply lem| |exact Hx];
  let ev := fresh in intros ev; destruct ev as [? e ?]; destruct e; simpl; intros; try done; set_solver.

(** ** Finalization *)

Section finalization.
Context `{ObjectHelpers, SelectorError, LabelSelectors}.

(** What the Cloudflareds of a tunnel are selected by: spec.cloudflared's selector,
    or nothing when it has none. *)
Definition Selects (tunnel : CloudflareTunnel) (selector : gmap string string → bool) : Prop :=
  ∃ cf, t_Cloudflared (tun_Spec tunnel) = Some cf ∧
    match tcd_Selector cf with
    | None => selector = λ _, false
    | Some sel => LabelSelectorAsSelector sel = Some selector
    end.

(** A selector no label set is tested against: none, or a malformed one. *)
Definition SelectsNone (tunnel : CloudflareTunnel) : Prop :=
  ∀ cf, t_Cloudflared (tun_Spec tunnel) = Some cf → ∃ sel, tcd_Selector cf = Some sel ∧ LabelSelectorAsSelector sel = None.

Lemma tunnelSelector_spec tunnel cf :
  t_Cloudflared (tun_Spec tunnel) = Some cf →
  match tunnelSelector tunnel with
  | inl selector => Selects tunnel selector
  | inr _ => SelectsNone tunnel
  end.
Proof.
  intros Hcf. unfold tunnelSelector. rewrite Hcf. unfold Selects, SelectsNone.
  destruct (tcd_Selector cf) as [sel|] eqn:Es; [|exists cf; by rewrite Es].
  destruct (LabelSelectorAsSelector sel) as [f|] eqn:El; [exists cf; by rewrite Es|].
  intros cf' Hcf'. assert (cf' = cf) as -> by congruence. by exists sel.
Qed.

(** The requests that find no Cloudflared selected. *)
Definition NoneSelected (tunnel : CloudflareTunnel) (tr : list (event TunnelE)) : Prop :=
  (tr = [] ∧ SelectsNone tunnel) ∨
  ∃ selector, Selects tunnel selector ∧
    tr = [Ev (ListCloudflareds (om_Namespace (tun_ObjectMeta tunnel)) selector) (inl [])].

(** The requests that leave nothing of the tunnel on Cloudflare's side, and the
    object it is then known by: its routes go first, then the tunnel. *)
Definition TunnelGone (tunnel : CloudflareTunnel) (tr : list (event TunnelE)) (t : CloudflareTunnel) : Prop :=
  match tst_Id (tun_Status tunnel) with
  | None => tr = [] ∧ t = tunnel
  | Some id => ∃ routes u answer, RoutesDeleted (accountOf tunnel) id routes ∧ gone answer ∧
      tr = routes ++ [Ev (PatchTunnelStatus tunnel u) (inl t); Ev (DeleteTunnel id (tst_AccountTag (tun_Status t))) answer]
  end.

Lemma patchErr_exec (t u : CloudflareTunnel) tr res :
  exec (patchErr (call (PatchTunnel t u))) tr res →
  ∃ a, tr = [Ev (PatchTunnel t u) a] ∧ (res = None ↔ ∃ t', a = inl t').
Proof.
  unfold patchErr. intros Hx. apply exec_bind in Hx as (tr1 & tr2 & a & -> & Hc & Hx).
  apply exec_call in Hc as ->. exists a. destruct a as [t'|e]; exec_inv; (split; [done|]).
  - split; [by exists t'|done].
  - split; [done|by intros [? ?]].
Qed.

Lemma removeFinalizer_exec tunnel tr res :
  exec (removeFinalizer tunnel) tr res →
  ∃ u a, tr = [Ev (PatchTunnel tunnel u) a] ∧ 
    om_Finalizers (tun_ObjectMeta u) = RemoveFinalizer (om_Finalizers (tun_ObjectMeta tunnel)) cloudflareTunnelFinalizer ∧
    (res = done_ ↔ ∃ t', a = inl t').
Proof.
  unfold removeFinalizer, patch. intros Hx. apply exec_bind in Hx as (tr1 & tr2 & err & -> & Hp & Hx).
  apply patchErr_exec in Hp as (a & -> & Ha). eexists _, a. exec_inv. split; [done|]. split; [done|].
  rewrite <- Ha. unfold done_. split; [by intros [= ->]|by intros ->].
Qed.

(** What finalizing ends with: an error, before the release, or the release. *)
Definition released (tunnel : CloudflareTunnel) (tr : list (event TunnelE)) (res : Result) : Prop :=
  (omap objectPatched tr = [] ∧ ∃ e, res = failed e) ∨
  ∃ tr0 t u a, tr = tr0 ++ [Ev (PatchTunnel t u) a] ∧ TunnelGone tunnel tr0 t ∧
    om_Finalizers (tun_ObjectMeta u) = RemoveFinalizer (om_Finalizers (tun_ObjectMeta t)) cloudflareTunnelFinalizer ∧
    (res = done_ ↔ ∃ t', a = inl t').

Lemma finalizeTunnel_exec tunnel tr res : exec (finalizeTunnel tunnel) tr res → released tunnel tr res.
Proof.
  unfold finalizeTunnel, released, TunnelGone. destruct (tst_Id (tun_Status tunnel)) as [id|].
  2:{ intros Hx. apply removeFinalizer_exec in Hx as (u & a & -> & Hu & Ha). right. by exists [], tunnel, u, a. }
  intros Hx. apply exec_bind in Hx as (tr1 & tr2 & err & -> & Hr & Hx).
  assert (omap objectPatched tr1 = []) as R1 by no_requests (only_deleteRoutes tunnel id) Hr.
  destruct err as [err|].
  { exec_inv. rewrite app_nil_r. left. split; [done|]. by exists err. }
  apply deleteRoutes_exec in Hr. rewrite routeAccount_of in Hr.
  apply exec_bind in Hx as (tr3 & tr4 & deleted & -> & Hd & Hx). unfold deleteTunnel, patchSubResource in Hd.
  apply exec_bind in Hd as (tr5 & tr6 & patched & -> & Hp & Hd). apply exec_call in Hp as ->.
  destruct patched as [t|e].
  2:{ exec_inv. rewrite !omap_app, R1. left. split; [done|]. by exists e. }
  apply exec_bind in Hd as (tr7 & tr8 & derr & -> & Hdel & Hd). apply exec_call in Hdel as ->.
  apply exec_Ret_inv in Hd as [-> <-].
  destruct (cf_IgnoreNotFound derr) as [e|] eqn:Ei.
  { exec_inv. rewrite !omap_app, R1. left. split; [done|]. by exists e. }
  apply cf_gone in Ei. apply removeFinalizer_exec in Hx as (u & a & -> & Hu & Ha). right.
  match goal with |- context [PatchTunnelStatus tunnel ?v] =>
    exists (tr1 ++ [Ev (PatchTunnelStatus tunnel v) (inl t); Ev (DeleteTunnel id (tst_AccountTag (tun_Status t))) derr]), t, u, a end.
  split_and!; [by rewrite <- (app_assoc tr1)| |done|done]. by eexists tr1, _, derr.
Qed.

(** C13. The finalizer is released last, by the last request, and only when nothing
    is left to leak. First no Cloudflared is found in the tunnel's namespace that
    its selector selects (none is looked for when spec.cloudflared is unset, or
    its selector malformed). Then, when the tunnel has an id, its routes are
    listed and every one of them deleted (unless the token is forbidden to list
    them), and then the tunnel itself, in its account; each deletion succeeded,
    or was answered that the object is gone, and the requests are these and, to
    report, one patch of the status. Otherwise nothing is released, and the
    reconciliation returns an error or is retried. It ends without an error and
    without a retry exactly when the API server accepted the release. *)
Theorem finalize_releases tunnel tr res :
  exec (finalize tunnel) tr res →
  (omap objectPatched tr = [] ∧ res ≠ done_) ∨
  ∃ cloudflareds deletions t u a,
    tr = cloudflareds ++ deletions ++ [Ev (PatchTunnel t u) a] ∧
    NoneSelected tunnel cloudflareds ∧ TunnelGone tunnel deletions t ∧
    om_Finalizers (tun_ObjectMeta u)
      = RemoveFinalizer (om_Finalizers (tun_ObjectMeta t)) "cloudflaretunnel.cloudflare.unmango.dev/finalizer" ∧
    (res = done_ ↔ ∃ t', a = inl t').
Proof.
  assert (∀ tr1 tr2, exec (finalizeTunnel tunnel) tr2 res → NoneSelected tunnel tr1 → omap objectPatched tr1 = [] →
    (omap objectPatched (tr1 ++ tr2) = [] ∧ res ≠ done_) ∨
    ∃ cloudflareds deletions t u a,
      tr1 ++ tr2 = cloudflareds ++ deletions ++ [Ev (PatchTunnel t u) a] ∧
      NoneSelected tunnel cloudflareds ∧ TunnelGone tunnel deletions t ∧
      om_Finalizers (tun_ObjectMeta u) = RemoveFinalizer (om_Finalizers (tun_ObjectMeta t)) cloudflareTunnelFinalizer ∧
      (res = done_ ↔ ∃ t', a = inl t')) as Hrest.
  { intros tr1 tr2 Hx Hn Hp. apply finalizeTunnel_exec in Hx as [[Hp2 [e ->]]|(tr0 & t & u & a & -> & Hg & Hu & Ha)].
    - left. by rewrite omap_app, Hp, Hp2.
    - right. by exists tr1, tr0, t, u, a. }
  unfold finalize. destruct (t_Cloudflared (tun_Spec tunnel)) as [cf|] eqn:Ecf.
  2:{ intros Hx. apply (Hrest [] tr Hx); [|done]. left. split; [done|]. intros cf'. by rewrite Ecf. }
  pose proof (tunnelSelector_spec tunnel cf Ecf) as Hsel. destruct (tunnelSelector tunnel) as [selector|e].
  2:{ intros Hx. apply (Hrest [] tr Hx); [by left|done]. }
  unfold listCloudflareds. intros Hx.
  apply exec_bind in Hx as (tr1 & tr2 & listed & -> & Hl & Hx).
  apply exec_bind in Hl as (tr3 & tr4 & items & -> & Hl & Hr). apply exec_call in Hl as ->.
  apply exec_Ret_inv in Hr as [-> <-]. destruct items as [[|c cs]|e].
  - apply (Hrest _ tr2 Hx); [|done]. right. by exists selector.
  - apply exec_bind in Hx as (tr5 & tr6 & err & -> & Hd & Hx). left. split; [|by destruct err; exec_inv].
    assert (only [KPatchTunnelStatus; KDeleteCloudflared] (deleteCloudflareds tunnel (c :: cs))) as Ho.
    { unfold deleteCloudflareds, patchSubResource.
      assert (∀ t cs, only [KPatchTunnelStatus; KDeleteCloudflared] (deleteOwned t cs)) as Hown.
      { intros t l. induction l as [|c' cs' IH]; simpl; [done|].
        destruct (HasOwnerReference _ _) as [[|]|]; [|exact I..]. simpl. split; [set_solver|]. by intros []. }
      repeat first [apply Hown|only_step]. }
    assert (omap objectPatched tr5 = []) as Hp5 by no_requests Ho Hd.
    assert (tr6 = []) as -> by (destruct err; by exec_inv). by rewrite !omap_app, Hp5.
  - exec_inv. by left.
Qed.
End finalization.

(** ** Creation and adoption *)

Section creation.
Context `{ObjectHelpers} (sources : bool) (tunnel : CloudflareTunnel).

Definition account : string := t_AccountId (tun_Spec tunnel).

(** The API created this tunnel, or refused to create a second one of its name
    and listed it as the only one. *)
Definition origin (tr : list (event TunnelE)) (remote : RemoteTunnel) : Prop :=
  (∃ p, omap tunnelCreated tr = [(p, inl remote)]) ∨
  (∃ p e, omap tunnelCreated tr = [(p, inr e)] ∧ IsConflict e = true ∧
     omap tunnelsListed tr = [(account, effectiveName tunnel, inl [remote])]).

(** A write of the status: the object it started from, and what becomes of the
    id. *)
Definition recorded (tr : list (event TunnelE)) (u : CloudflareTunnel) : Prop :=
  tst_Id (tun_Status u) = tst_Id (tun_Status tunnel) ∨
  ∃ remote, origin tr remote ∧ tst_Id (tun_Status u) = Some (rt_ID remote) ∧
    tst_AccountTag (tun_Status u) = rt_AccountTag remote ∧ tst_Name (tun_Status u) = rt_Name remote.

Lemma patchStatus_exec u tr res :
  exec (patchErr (patchSubResource tunnel u)) tr res →
  ∃ a, tr = [Ev (PatchTunnelStatus tunnel (u tunnel)) a] ∧ (res = None ↔ ∃ t', a = inl t').
Proof.
  unfold patchErr, patchSubResource. intros Hx. apply exec_bind in Hx as (tr1 & tr2 & a & -> & Hc & Hx).
  apply exec_call in Hc as ->. exists a. destruct a as [t'|e]; exec_inv; (split; [done|]).
  - split; [by exists t'|done].
  - split; [done|by intros [? ?]].
Qed.

Lemma recordTunnel_exec remote message tr res :
  exec (recordTunnel tunnel remote message) tr res →
  ∃ u a, tr = [Ev (PatchTunnelStatus tunnel u) a] ∧ (res = None ↔ ∃ t', a = inl t') ∧
    tst_Id (tun_Status u) = Some (rt_ID remote) ∧
    tst_AccountTag (tun_Status u) = rt_AccountTag remote ∧ tst_Name (tun_Status u) = rt_Name remote.
Proof. unfold recordTunnel. intros (a & -> & Ha)%patchStatus_exec. by eexists _, a. Qed.

Lemma adoptTunnel_exec conflict tr res :
  exec (adoptTunnel tunnel conflict) tr res →
  omap tunnelCreated tr = [] ∧
  (∀ o u a, (o, u, a) ∈ omap statusPatched tr → o = tunnel ∧
     (tst_Id (tun_Status u) = tst_Id (tun_Status tunnel) ∨
      ∃ remote, omap tunnelsListed tr = [(account, effectiveName tunnel, inl [remote])] ∧
        tst_Id (tun_Status u) = Some (rt_ID remote) ∧
        tst_AccountTag (tun_Status u) = rt_AccountTag remote ∧ tst_Name (tun_Status u) = rt_Name remote)) ∧
  (res = None → ∃ remote u t, omap tunnelsListed tr = [(account, effectiveName tunnel, inl [remote])] ∧
     omap statusPatched tr = [(tunnel, u, inl t)] ∧ tst_Id (tun_Status u) = Some (rt_ID remote)).
Proof.
  unfold adoptTunnel. intros Hx. apply exec_bind in Hx as (tr1 & tr2 & listed & -> & Hl & Hx).
  apply exec_call in Hl as ->. destruct listed as [[|r [|r2 rs]]|e].
  - exec_inv. split_and!; [done|by intros ??? ?%not_elem_of_nil|done].
  - apply recordTunnel_exec in Hx as (u & a & -> & Ha & Hid & Hacc & Hn). split; [done|]. split.
    + intros o u' a' Hin. apply list_elem_of_singleton in Hin. injection Hin as -> -> ->. split; [done|].
      right. by exists r.
    + intros [t ->]%Ha. by exists r, u, t.
  - apply exec_bind in Hx as (tr3 & tr4 & degraded & -> & Hd & Hx). apply patchStatus_exec in Hd as (a & -> & _).
    exec_inv. split_and!; [done| |done]. intros o u a' Hin. apply list_elem_of_singleton in Hin.
    injection Hin as -> -> ->. split; [done|by left].
  - exec_inv. split_and!; [done|by intros ??? ?%not_elem_of_nil|done].
Qed.

(** Creating a tunnel asks the API for at most one tunnel, under the spec's
    account and name and with a secret it may have. An id is written to the
    status only for the tunnel the API then created, or, when it answers that
    the name is taken, for the one tunnel it lists under the name; two or more
    are never adopted. Creation succeeds only with such an id written. *)
Theorem createTunnel_records tr res :
  exec (createTunnel sources tunnel) tr res →
  (omap tunnelCreated tr = [] ∨
   ∃ p a, omap tunnelCreated tr = [(p, a)] ∧ np_AccountID p = account ∧ np_Name p = effectiveName tunnel ∧
     ∀ v, np_TunnelSecret p = Some v → ∃ n, base64Length v 0 0 0 = inl n ∧ 32 ≤ n) ∧
  (∀ o u a, (o, u, a) ∈ omap statusPatched tr → o = tunnel ∧ recorded tr u) ∧
  (res = None → ∃ remote u t, origin tr remote ∧ omap statusPatched tr = [(tunnel, u, inl t)] ∧
     tst_Id (tun_Status u) = Some (rt_ID remote)).
Proof.
  unfold createTunnel. intros Hx. apply exec_bind in Hx as (tr1 & tr2 & secret & -> & Hs & Hx).
  assert (omap tunnelCreated tr1 = []) as S1 by no_requests (only_tunnelSecret sources tunnel) Hs.
  assert (omap statusPatched tr1 = []) as S2 by no_requests (only_tunnelSecret sources tunnel) Hs.
  assert (omap tunnelsListed tr1 = []) as S3 by no_requests (only_tunnelSecret sources tunnel) Hs.
  unfold recorded, origin. rewrite !omap_app, S1, S2, S3. simpl app.
  destruct secret as [secret|err].
  2:{ apply exec_bind in Hx as (tr3 & tr4 & degraded & -> & Hd & Hx).
      apply patchStatus_exec in Hd as (a & -> & _). exec_inv. split_and!; [by left| |done].
      intros o u b Hin. apply list_elem_of_singleton in Hin. injection Hin as -> -> ->. split; [done|by left]. }
  apply exec_bind in Hx as (tr3 & tr4 & src & -> & Hm & Hx).
  assert (tr3 = []) as ->.
  { unfold mapConfigSrc in Hm. destruct (str_eqb _ _); [by exec_inv|]. destruct (str_eqb _ _); [by exec_inv|].
    apply exec_bind in Hm as (? & ? & [] & _). }
  apply exec_bind in Hx as (tr5 & tr6 & res' & -> & Hc & Hx). apply exec_call in Hc as ->.
  set (p := {| np_AccountID := _ |}) in *. rewrite !omap_app. simpl app.
  assert (∀ v, np_TunnelSecret p = Some v → ∃ n, base64Length v 0 0 0 = inl n ∧ 32 ≤ n) as Hv.
  { simpl. intros v ->. by eapply tunnelSecret_length. }
  assert (∀ tr', omap tunnelCreated tr' = [] →
    ∃ p' a, (p, res') :: omap tunnelCreated tr' = [(p', a)] ∧ np_AccountID p' = account ∧
      np_Name p' = effectiveName tunnel ∧
      ∀ v, np_TunnelSecret p' = Some v → ∃ n, base64Length v 0 0 0 = inl n ∧ 32 ≤ n) as Hone.
  { intros tr' ->. by exists p, res'. }
  destruct res' as [remote|e].
  - apply recordTunnel_exec in Hx as (u & a & -> & Ha & Hid & Hacc & Hn). split; [right; by apply Hone|]. split.
    + intros o u' a' Hin. apply list_elem_of_singleton in Hin. injection Hin as -> -> ->. split; [done|].
      right. exists remote. split_and!; [left; by exists p|done..].
    + intros [t ->]%Ha. exists remote, u, t. split_and!; [left; by exists p|done..].
  - destruct (IsConflict e) eqn:Ec.
    + apply adoptTunnel_exec in Hx as (Hn & Hp & Hr). split; [right; by apply Hone|]. rewrite Hn. split.
      * intros o u a [-> [?|(remote & Hl & ? & ? & ?)]]%Hp; (split; [done|]); [by left|right].
        exists remote. split_and!; [right; by exists p, e|done..].
      * intros (remote & u & t & Hl & ? & ?)%Hr. exists remote, u, t. split_and!; [right; by exists p, e|done..].
    + exec_inv. split_and!; [right; by apply (Hone [])|by intros ??? ?%not_elem_of_nil|done].
Qed.
End creation.

(** ** Updates *)

Section update.
Context `{ObjectHelpers, Sha256, NetipPrefix} (id : string) (tunnel : CloudflareTunnel).



















End update.

(** ** Cloudflareds *)

Section cloudflareds.
Context `{ObjectHelpers, SelectorError, LabelSelectors}.

(** [SetControllerReference] leaves the labels alone. *)
Definition keepsLabels : Prop :=
  ∀ owner om om', SetControllerReference owner om = inl om' → om_Labels om' = om_Labels om.

(** A spec with the configuration that points at a tunnel, and nothing else
    changed. *)
Definition pointed (tunnelId account : string) (spec : CloudflaredSpec) : CloudflaredSpec :=
  {| cd_Config := Some {| dc_Inline := {| ci_TunnelId := Some tunnelId; ci_AccountId := Some account |};
                          dc_TunnelRef := None; dc_ValueFrom := None |};
     cd_Kind := cd_Kind spec; cd_Replicas := cd_Replicas spec; cd_Template := cd_Template spec;
     cd_Version := cd_Version spec |}.

Definition pointedAt (tunnelId account : string) (c : Cloudflared) : Cloudflared :=
  {| cfd_ObjectMeta := cfd_ObjectMeta c; cfd_Spec := pointed tunnelId account (cfd_Spec c); cfd_Status := cfd_Status c |}.

(** A Cloudflared made from the template, with the owner set. *)
Definition FromTemplate (tunnel : CloudflareTunnel) (tunnelId account : string)
    (template : CloudflaredTemplateSpec) (c : Cloudflared) : Prop :=
  cfd_Spec c = pointed tunnelId account (dt_Spec template) ∧
  ∃ om, om_Name om = om_Name (tun_ObjectMeta tunnel) ∧ om_Namespace om = om_Namespace (tun_ObjectMeta tunnel) ∧
    om_Labels om = om_Labels (dt_ObjectMeta template) ∧
    SetControllerReference (tun_ObjectMeta tunnel) om = inl (cfd_ObjectMeta c).

Lemma applyConfig_exec tunnelId account cs tr res :
  exec (applyConfig (tunnelConfig tunnelId account) cs) tr res →
  Forall (λ ev, eventKind ev = KUpdateCloudflared) tr ∧
  (∃ done, prefix done cs ∧ (omap cloudflaredUpdated tr).*1 = pointedAt tunnelId account <$> done) ∧
  (res = None → omap cloudflaredUpdated tr = (λ c, (pointedAt tunnelId account c, None)) <$> cs).
Proof.
  revert tr. induction cs as [|c cs IH]; intros tr Hx; simpl in Hx.
  { exec_inv. split_and!; [constructor|by exists []|done]. }
  apply exec_Vis_inv in Hx as (err & tr' & -> & Hx). destruct err as [err|].
  - exec_inv. split_and!; [by repeat constructor| |done]. exists [c]. split; [by exists cs|done].
  - apply IH in Hx as (Hk & (d & [rest ->] & Hd) & Hok). split_and!; [by constructor| |].
    + exists (c :: d). split; [by exists rest|exact (f_equal (cons _) Hd)].
    + intros Hn. exact (f_equal (cons _) (Hok Hn)).
Qed.

Lemma updates_kind (tr : list (event TunnelE)) :
  Forall (λ ev, eventKind ev = KUpdateCloudflared) tr →
  omap cloudflaredsListed tr = [] ∧ omap cloudflaredCreated tr = [] ∧ omap statusPatched tr = [].
Proof.
  induction 1 as [|[R e a] tr He _ (IH1 & IH2 & IH3)]; [done|]. rewrite !omap_cons_eq. by destruct e.
Qed.

(** What follows the updates: at most one Cloudflared made from the template. *)
Lemma template_exec selector tunnel t tunnelId account cf (items : list Cloudflared) err tr res :
  keepsLabels → tun_ObjectMeta t = tun_ObjectMeta tunnel →
  exec (match err, tcd_Template cf with
        | Some err, _ => Ret (failed err)
        | None, None => Ret done_
        | None, Some template =>
          if negb (Nat.eqb (length items) 0) then Ret done_
          else if negb (selector (om_Labels (dt_ObjectMeta template))) then
            do degraded <- degrade t "spec.cloudflared.selector does not match the labels on spec.cloudflared.template";
            Ret {| requeueAfter := 0; result_err := degraded |}
          else
            let cloudflared := fromTemplate t template (tunnelConfig tunnelId account) in
            match SetControllerReference (tun_ObjectMeta t) (cfd_ObjectMeta cloudflared) with
            | inr err => Ret (failed err)
            | inl om =>
              do err <- call (CreateCloudflared {| cfd_ObjectMeta := om; cfd_Spec := cfd_Spec cloudflared;
                                                   cfd_Status := cfd_Status cloudflared |});
              Ret {| requeueAfter := 0; result_err := err |}
            end
        end) tr res →
  omap cloudflaredUpdated tr = [] ∧ omap cloudflaredsListed tr = [] ∧ (result_err res = None → err = None) ∧
  ∀ c, c ∈ omap cloudflaredCreated tr → items = [] ∧ ∃ template, tcd_Template cf = Some template ∧
    FromTemplate tunnel tunnelId account template c ∧ selector (om_Labels (cfd_ObjectMeta c)) = true.
Proof.
  intros Hlab Hmeta Hx. destruct err as [err|]; [exec_inv; split_and!; [done..|by intros ? ?%not_elem_of_nil]|].
  destruct (tcd_Template cf) as [template|]; [|exec_inv; split_and!; [done..|by intros ? ?%not_elem_of_nil]].
  destruct items as [|i0 items]; simpl in Hx; [|exec_inv; split_and!; [done..|by intros ? ?%not_elem_of_nil]].
  destruct (selector (om_Labels (dt_ObjectMeta template))) eqn:Esel; simpl in Hx.
  - destruct (SetControllerReference _ _) as [om|e] eqn:Ec; [|exec_inv; split_and!; [done..|by intros ? ?%not_elem_of_nil]].
    pose proof (Hlab _ _ _ Ec) as Hl. exec_inv. split_and!; [done..|].
    intros c ->%list_elem_of_singleton. split; [done|]. exists template. simpl. rewrite Hl. split_and!; [done| |done].
    split; [done|]. eexists. split_and!; [..|rewrite <- Hmeta; exact Ec]; simpl; by rewrite ?Hmeta.
  - exec_inv. split_and!; [done..|by intros ? ?%not_elem_of_nil].
Qed.

(** C34. The Cloudflareds of the tunnel's namespace that its selector selects are
    listed, their number is reported, and no other object is updated: each is pointed at the tunnel, in the
    account the API server's answer records, and nothing else of it changes. One
    is created, from the template, under the tunnel's name and namespace, only
    when the selector selects none and does select the labels the new one
    carries, so that the next reconciliation finds it instead of creating
    another. A reconciliation that reports no error, of a tunnel whose selector
    is well formed, pointed every selected Cloudflared at the tunnel, each update
    accepted. (A patch of the status leaves the metadata of the object alone, but
    for what the API server sets, and setting an owner leaves the labels.) *)
Theorem reconcileCloudflareds_spec tunnel tunnelId cf tr res :
  keepsLabels →
  (∀ u t, (tunnel, u, inl t) ∈ omap statusPatched tr → tun_ObjectMeta t = tun_ObjectMeta tunnel) →
  exec (reconcileCloudflareds tunnel tunnelId cf) tr res →
  (t_Cloudflared (tun_Spec tunnel) ≠ None →
   SelectsNone tunnel ∧ omap cloudflaredUpdated tr = [] ∧ omap cloudflaredCreated tr = [] ∨
   ∃ selector items, Selects tunnel selector ∧
     omap cloudflaredsListed tr = [(om_Namespace (tun_ObjectMeta tunnel), selector, items)] ∧
     ((omap cloudflaredUpdated tr = [] ∧ omap cloudflaredCreated tr = [] ∧ result_err res ≠ None) ∨
      ∃ cs u t rest done, items = inl cs ∧ omap statusPatched tr = (tunnel, u, inl t) :: rest ∧
        tst_Instances (tun_Status u) = wrap32 (Z.of_nat (length cs)) ∧ prefix done cs ∧
        (omap cloudflaredUpdated tr).*1 = pointedAt tunnelId (tst_AccountTag (tun_Status t)) <$> done ∧
        (result_err res = None →
           omap cloudflaredUpdated tr = (λ c, (pointedAt tunnelId (tst_AccountTag (tun_Status t)) c, None)) <$> cs) ∧
        ∀ c, c ∈ omap cloudflaredCreated tr → cs = [] ∧ ∃ template, tcd_Template cf = Some template ∧
          FromTemplate tunnel tunnelId (tst_AccountTag (tun_Status t)) template c ∧
          selector (om_Labels (cfd_ObjectMeta c)) = true)).
Proof.
  intros Hlab Hmeta Hx Hsome. destruct (t_Cloudflared (tun_Spec tunnel)) as [cf0|] eqn:Ecf; [|done].
  pose proof (tunnelSelector_spec tunnel cf0 Ecf) as Hsel. unfold reconcileCloudflareds in Hx.
  destruct (tunnelSelector tunnel) as [selector|e].
  2:{ left. split; [done|]. apply exec_bind in Hx as (tr1 & tr2 & degraded & -> & Hd & Hx).
      apply patchStatus_exec in Hd as (a & -> & _). by exec_inv. }
  right. exists selector. unfold listCloudflareds in Hx.
  apply exec_bind in Hx as (tr1 & tr2 & listed & -> & Hl & Hx).
  apply exec_bind in Hl as (tr3 & tr4 & items & -> & Hl & Hr). apply exec_call in Hl as ->.
  apply exec_Ret_inv in Hr as [-> <-]. exists items. split; [done|]. destruct items as [items|e].
  2:{ exec_inv. split; [done|]. by left. }
  apply exec_bind in Hx as (tr5 & tr6 & patched & -> & Hp & Hx). apply exec_call in Hp as ->.
  destruct patched as [t|e].
  2:{ exec_inv. split; [done|]. by left. }
  apply exec_bind in Hx as (tr7 & tr8 & err & -> & Ha & Hx).
  apply applyConfig_exec in Ha as (Hk & (d & Hpre & Hd) & Hok). apply updates_kind in Hk as (K1 & K2 & K3).
  apply (template_exec selector tunnel) in Hx as (Hu8 & Hl8 & Herr & Hcr); [|done|].
  2:{ eapply (Hmeta _ t). rewrite !omap_app. simpl. by left. }
  rewrite !omap_app, K1, K2, K3, Hu8, Hl8. simpl app. rewrite app_nil_r. split; [done|]. right.
  eexists items, _, t, _, d. split_and!; [done..| |done]. intros Hres. by apply Hok, Herr.
Qed.
End cloudflareds.

(** ** Reconciliation *)

Section reconciliation.
Context `{ObjectHelpers, SelectorError, LabelSelectors, Sha256, NetipPrefix}.

(** The requests that make something new for a tunnel. *)
Definition creates (k : Kind) : Prop :=
  k ∈ [KCreateTunnel; KCreateCloudflared; KApplyDnsRecord; KCreateRoute; KUpdateConfiguration].

Lemma only_deleteOwned tunnel cs : only [KDeleteCloudflared] (deleteOwned tunnel cs).
Proof.
  induction cs as [|c cs IH]; simpl; [done|].
  destruct (HasOwnerReference _ _) as [[|]|]; [|exact I..]. simpl. split; [set_solver|]. by intros [].
Qed.

Definition finalizeKinds : list Kind :=
  [KListCloudflareds; KPatchTunnelStatus; KDeleteCloudflared; KPatchTunnel; KListRoutes; KDeleteRoute; KDeleteTunnel].

Lemma only_weaken {A} ks ks' (p : prog TunnelE A) : (∀ k, k ∈ ks → k ∈ ks') → only ks p → only ks' p.
Proof. intros Hk. induction p as [a|R e k IH]; simpl; [done|]. intros [He Hp]. split; [by apply Hk|]. intros r. by apply IH. Qed.

Lemma only_finalize tunnel : only finalizeKinds (finalize tunnel).
Proof.
  unfold finalize, finalizeTunnel, listCloudflareds, deleteCloudflareds, deleteTunnel, removeFinalizer, patchErr,
    patch, patchSubResource, finalizeKinds.
  repeat first
    [ apply (only_weaken [KListRoutes; KDeleteRoute]); [set_solver|apply only_deleteRoutes]
    | apply (only_weaken [KDeleteCloudflared]); [set_solver|apply only_deleteOwned]
    | only_step ].
Qed.

Definition updateKinds : list Kind :=
  [KGetTunnel; KEditTunnel; KUpdateConfiguration; KPatchTunnelStatus;
   KGetZone; KListDnsRecords; KApplyDnsRecord; KDeleteDnsRecord;
   KListRoutes; KListDefaultVirtualNetworks; KDeleteRoute; KCreateRoute].

Lemma only_updateTunnel id tunnel : only updateKinds (updateTunnel id tunnel).
Proof.
  unfold updateTunnel, renamed, pushConfig, updateStatus, patchSubResource, updateKinds.
  repeat first
    [ eapply only_weaken; [|apply only_reconcileDns]; set_solver
    | eapply only_weaken; [|apply only_reconcileRoutes]; set_solver
    | only_step ].
Qed.

Lemma only_reconcileCloudflareds tunnel id cf :
  only [KPatchTunnelStatus; KListCloudflareds; KUpdateCloudflared; KCreateCloudflared]
    (reconcileCloudflareds tunnel id cf).
Proof.
  unfold reconcileCloudflareds, listCloudflareds, degrade, patchErr, patchSubResource.
  assert (∀ config cs, only [KPatchTunnelStatus; KListCloudflareds; KUpdateCloudflared; KCreateCloudflared]
    (applyConfig config cs)) as Ha.
  { intros config. induction cs as [|c cs IH]; simpl; [done|]. split; [set_solver|]. by intros []. }
  repeat first [apply Ha|only_step].
Qed.

(** The object a trace goes on with holds the finalizer: it did, or adding it
    was accepted. *)
Definition holdsFinalizer (tr : list (event TunnelE)) (t : CloudflareTunnel) : Prop :=
  ContainsFinalizer (om_Finalizers (tun_ObjectMeta t)) cloudflareTunnelFinalizer = true ∨
  ∃ o u, (o, u, inl t) ∈ omap objectPatched tr ∧
    om_Finalizers (tun_ObjectMeta u) = AddFinalizer (om_Finalizers (tun_ObjectMeta o)) cloudflareTunnelFinalizer.

(** Reconciling starts by reading the object. A missing one is left alone. One
    being deleted is finalized, and nothing is created or configured for it.
    Otherwise a tunnel is only ever created for an object without an id that
    holds the finalizer, so that it cannot be deleted behind a tunnel it has,
    and the reconciliation is then always repeated, after five seconds or,
    when creating failed, a minute; it never returns the error. *)
Theorem Reconcile_guards sources req tr res :
  exec (Reconcile sources req) tr res →
  ∃ got tr', tr = Ev (GetCloudflareTunnel req) got :: tr' ∧
  match got with
  | inr e => tr' = [] ∧ (k8s_IsNotFound e = true → res = done_)
  | inl t =>
    match om_DeletionTimestamp (tun_ObjectMeta t) with
    | Some _ => exec (finalize t) tr' res ∧ ∀ ev, ev ∈ tr' → ¬ creates (eventKind ev)
    | None => omap tunnelCreated tr' ≠ [] →
      (∃ t', holdsFinalizer tr' t' ∧ tst_Id (tun_Status t') = None ∧
         ∃ tr1 tr2 err, tr' = tr1 ++ tr2 ∧ exec (createTunnel sources t') tr2 err ∧
           res = requeue (if err then retryAfterFailedCreate else seconds 5))
    end
  end.
Proof.
  unfold Reconcile. intros Hx. apply exec_bind in Hx as (tr0 & tr' & got & -> & Hg & Hx).
  apply exec_call in Hg as ->. exists got, tr'. split; [done|]. destruct got as [t|e].
  2:{ exec_inv. split; [done|]. intros Hn. unfold k8s_IgnoreNotFound, ignoreErr. by rewrite Hn. }
  destruct (om_DeletionTimestamp (tun_ObjectMeta t)).
  { split; [done|]. intros ev Hin Hc. apply (only_exec finalizeKinds) in Hx; [|apply only_finalize].
    rewrite Forall_forall in Hx. apply Hx in Hin. revert Hin Hc. unfold finalizeKinds, creates.
    destruct (eventKind ev); set_solver. }
  intros Hcreated. apply exec_bind in Hx as (tr1 & tr2 & started & -> & Hs & Hx).
  assert (omap tunnelCreated tr1 = []) as C1.
  { unfold startConditions, patchSubResource in Hs. destruct (tst_Conditions _); exec_inv; done. }
  destruct started as [t1|e]; [|exec_inv; by rewrite app_nil_r, C1 in Hcreated].
  apply exec_bind in Hx as (tr3 & tr4 & held & -> & Hf & Hx).
  assert (omap tunnelCreated tr3 = [] ∧ ∀ t2, held = inl t2 → holdsFinalizer tr3 t2) as [C2 Hhold].
  { unfold ensureFinalizer, patch in Hf. unfold holdsFinalizer.
    destruct (ContainsFinalizer _ _) eqn:E; exec_inv; (split; [done|]).
    - intros t2 [= <-]. by left.
    - intros t2 ->. right. eexists _, _. split; [by left|done]. }
  destruct held as [t2|e]; [|exec_inv; by rewrite app_nil_r, omap_app, C1, C2 in Hcreated].
  specialize (Hhold t2 eq_refl). destruct (tst_Id (tun_Status t2)) as [id|] eqn:Eid.
  - exfalso. apply Hcreated. rewrite !omap_app, C1, C2. simpl.
    apply exec_bind in Hx as (tr5 & tr6 & updated & -> & Hu & Hx).
    assert (omap tunnelCreated tr5 = []) as C5 by no_requests (only_updateTunnel id t2) Hu.
    rewrite omap_app, C5. simpl. destruct updated as [t3|e]; [|by exec_inv].
    destruct (t_Cloudflared (tun_Spec t3)) as [cf|]; [|by exec_inv].
    no_requests (only_reconcileCloudflareds t3 id cf) Hx.
  - apply exec_bind in Hx as (tr5 & tr6 & err & -> & Hc & Hx). apply exec_Ret_inv in Hx as [-> <-].
    rewrite app_nil_r. exists t2. split.
    { destruct Hhold as [?|(o & u & Hin & Hu)]; [by left|right]. exists o, u. split; [|done].
      rewrite !omap_app, !elem_of_app. by right; left. }
    split; [done|]. exists (tr1 ++ tr3), tr5, err. rewrite app_assoc. by destruct err.
Qed.
End reconciliation.

(** ** What modelling showed *)

(** [deleteCloudflareds] returns at the first selected Cloudflared the tunnel does
    not own: those after it are not deleted, though [finalize] then retries until
    none is selected. *)
Lemma deleteOwned_stops `{ObjectHelpers} tunnel c cs tr res :
  HasOwnerReference (om_OwnerReferences (cfd_ObjectMeta c)) (tun_ObjectMeta tunnel) = inl false →
  exec (deleteOwned tunnel (c :: cs)) tr res → tr = [] ∧ res = None.
Proof. simpl. intros ->. intros Hx. by exec_inv. Qed.

(** The WARP routing setting of a configuration is never sent. *)
Lemma UpdateParams_drops_warp ingress origin w1 w2 :
  UpdateParams {| tc_Ingress := ingress; tc_OriginRequest := origin; tc_WarpRouting := w1 |} =
  UpdateParams {| tc_Ingress := ingress; tc_OriginRequest := origin; tc_WarpRouting := w2 |}.
Proof. done. Qed.

(** ** Witnesses *)


Lemma sample_keepsLabels : @keepsLabels sampleHelpers.
Proof. intros owner om om'. simpl. unfold addController. destruct (existsb _ _); [done|]. by intros [= <-]. Qed.

Definition sampleSelectorError : SelectorError := {| selectorError := λ _, "malformed" |}.

Definition sampleRemote (id name configSrc : string) : RemoteTunnel :=
  {| rt_ID := id; rt_Name := name; rt_AccountTag := "account"; rt_ConfigSrc := configSrc; rt_Status := "healthy";
     rt_CreatedAt := 0; rt_ConnsActiveAt := 0; rt_ConnsInactiveAt := 0; rt_TunType := "cfd_tunnel" |}.

Definition statusErr (code : Z) : Err := {| err_message := "refused"; err_status := Some code; err_k8s := None |}.

(** An API server that accepts every patch, and a Cloudflare API whose one
    tunnel is taken under its name. *)
Definition tunnelAnswers (object : CloudflareTunnel) (cs : list Cloudflared) (R : Type) (e : TunnelE R) : option R :=
  match e in TunnelE R return option R with
  | GetCloudflareTunnel _ => Some (inl object)
  | PatchTunnel _ u | PatchTunnelStatus _ u => Some (inl u)
  | ListCloudflareds _ _ => Some (inl cs)
  | UpdateCloudflared _ | CreateCloudflared _ | DeleteCloudflared _ => Some None
  | ListDnsRecords _ => Some (inl [])
  | ApplyDnsRecord obj mutate => Some (mutate obj)
  | GetZone _ => Some (inl "example.com")
  | ListRoutes _ _ => Some (inl [{| tn_ID := "r1"; tn_Network := "10.1.0.0/16"; tn_VirtualNetworkID := "v0" |}])
  | DeleteRoute _ _ => Some None
  | CreateTunnel _ => Some (inr (statusErr 409))
  | ListTunnels _ name => Some (inl [sampleRemote "found" name "cloudflare"])
  | GetTunnel id _ => Some (inl (sampleRemote id "other" "cloudflare"))
  | EditTunnel id _ name => Some (inl (Some (sampleRemote id name "cloudflare")))
  | UpdateConfiguration _ _ _ => Some None
  | DeleteTunnel _ _ => Some (Some (statusErr 404))
  | _ => None
  end.

Lemma finalize_releases_witness :
  let tunnel := sampleTunnel (Some "id") [] [] in
  ∃ tr, exec (@finalize sampleHelpers sampleSelectorError sampleSelectors tunnel) tr done_ ∧
    ∃ cloudflareds deletions t u a, tr = cloudflareds ++ deletions ++ [Ev (PatchTunnel t u) a] ∧
      TunnelGone tunnel deletions t.
Proof.
  intros tunnel.
  destruct (runTrace_such (tunnelAnswers tunnel []) (@finalize sampleHelpers sampleSelectorError sampleSelectors tunnel)
    (λ tr r, Z.eqb (requeueAfter r) 0 && match result_err r with None => true | _ => false end))
    as (tr & [after [e|]] & Hx & Ht); [vm_compute; reflexivity| |].
  { rewrite andb_false_r in Ht. discriminate Ht. }
  simpl in Ht. rewrite andb_true_r in Ht. apply Z.eqb_eq in Ht. subst after. exists tr. split; [exact Hx|].
  destruct (@finalize_releases sampleHelpers sampleSelectorError sampleSelectors tunnel tr done_ Hx)
    as [[_ Hn]|(c & d & t & u & a & Htr & _ & Hg & _)]; [by destruct Hn|].
  exists c, d, t, u, a. split; [exact Htr|exact Hg].
Defined.

(** The name is taken by the one tunnel listed under it, which is adopted. *)
Lemma createTunnel_records_witness :
  let tunnel := sampleTunnel None [] [] in
  ∃ tr, exec (@createTunnel sampleHelpers true tunnel) tr None ∧
    ∃ remote u t, origin tunnel tr remote ∧ omap statusPatched tr = [(tunnel, u, inl t)] ∧
      tst_Id (tun_Status u) = Some (rt_ID remote).
Proof.
  intros tunnel.
  destruct (runTrace_such (tunnelAnswers tunnel []) (@createTunnel sampleHelpers true tunnel)
    (λ tr r, match r with None => true | _ => false end)) as (tr & [e|] & Hx & Ht);
    [vm_compute; reflexivity|discriminate Ht|].
  exists tr. split; [exact Hx|].
  exact (proj2 (proj2 (@createTunnel_records sampleHelpers true tunnel tr None Hx)) eq_refl).
Defined.


Definition cloudflaredTemplate : CloudflareTunnelCloudflared :=
  {| tcd_Selector := Some {| ls_MatchLabels := <["app" := "web"]> ∅; ls_MatchExpressions := [] |};
     tcd_Template := Some
       {| dt_ObjectMeta := {| om_Name := ""; om_Namespace := ""; om_UID := ""; om_ResourceVersion := "";
            om_Generation := 0; om_CreationTimestamp := 0; om_DeletionTimestamp := None;
            om_Labels := <["app" := "web"]> ∅; om_Annotations := ∅; om_OwnerReferences := []; om_Finalizers := [] |};
          dt_Spec := {| cd_Config := None; cd_Kind := DeploymentCloudflaredKind; cd_Replicas := None;
                        cd_Template := None; cd_Version := "" |} |} |}.

Definition cloudflaredTunnel : CloudflareTunnel :=
  {| tun_ObjectMeta := sampleMeta "default" "tunnel";
     tun_Spec := {| t_AccountId := "account"; t_Cloudflared := Some cloudflaredTemplate; t_Config := None;
       t_ConfigSource := "local"; t_Dns := None; t_Name := ""; t_Routes := []; t_TunnelSecret := None |};
     tun_Status := sampleTunnelStatus (Some "id") |}.

(** A selector that selects every label set that holds its labels. *)
Definition matchLabels : LabelSelectors :=
  {| LabelSelectorAsSelector := λ sel, Some (λ labels,
       forallb (λ '(k, v), bool_decide (labels !! k = Some v)) (map_to_list (ls_MatchLabels sel))) |}.

#[local] Instance OwnerReference_eq_dec : EqDecision OwnerReference.
Proof. solve_decision. Defined.
#[local] Instance ObjectMeta_eq_dec : EqDecision ObjectMeta.
Proof. solve_decision. Defined.

Lemma reconcileCloudflareds_spec_witness :
  ∃ tr res, exec (@reconcileCloudflareds sampleHelpers sampleSelectorError matchLabels cloudflaredTunnel "id" cloudflaredTemplate) tr res ∧
    omap cloudflaredCreated tr ≠ [] ∧ ∃ c template, c ∈ omap cloudflaredCreated tr ∧
      @FromTemplate sampleHelpers cloudflaredTunnel "id" "account" template c.
Proof.
  destruct (runTrace_such (tunnelAnswers cloudflaredTunnel [])
    (@reconcileCloudflareds sampleHelpers sampleSelectorError matchLabels cloudflaredTunnel "id" cloudflaredTemplate)
    (λ tr r, negb (Nat.eqb (length (omap cloudflaredCreated tr)) 0)
      && forallb (λ p : CloudflareTunnel * CloudflareTunnel * (CloudflareTunnel + Err), match p.2 with
           inl t => bool_decide (tun_ObjectMeta t = tun_ObjectMeta cloudflaredTunnel)
             && str_eqb (tst_AccountTag (tun_Status t)) "account" | inr _ => false end)
         (omap statusPatched tr))) as (tr & res & Hx & [Ht Hm]%andb_true_iff); [vm_compute; reflexivity|].
  exists tr, res. split; [exact Hx|]. rewrite forallb_forall in Hm.
  assert (∀ u t, (cloudflaredTunnel, u, inl t) ∈ omap statusPatched tr →
    tun_ObjectMeta t = tun_ObjectMeta cloudflaredTunnel ∧ tst_AccountTag (tun_Status t) = "account") as Hmeta.
  { intros u t Hin. apply list_elem_of_In, Hm, andb_true_iff in Hin as [?%bool_decide_eq_true ?%str_eqb_eq]. by split. }
  destruct (omap cloudflaredCreated tr) as [|c cs] eqn:E; [discriminate Ht|]. split; [done|].
  destruct (@reconcileCloudflareds_spec sampleHelpers sampleSelectorError matchLabels cloudflaredTunnel "id" cloudflaredTemplate tr res
    sample_keepsLabels (λ u t Hin, proj1 (Hmeta u t Hin)) Hx ltac:(done))
    as [(_ & _ & Hn)|(sel & items & _ & _ & [(_ & Hn & _)|(cs' & u & t & rest & d & _ & Hp & _ & _ & _ & _ & Hc)])];
    [by rewrite Hn in E..|].
  destruct (Hc c) as (_ & template & _ & Hf & _); [rewrite E; by left|]. exists c, template. split; [by left|].
  destruct (Hmeta u t) as [_ Hacc]; [rewrite Hp; by left|]. by rewrite <- Hacc.
Defined.

Definition objectGot (ev : event TunnelE) : option (CloudflareTunnel + Err) :=
  let 'Ev e a := ev in
  match e in TunnelE R return R → option _ with
  | GetCloudflareTunnel _ => λ a, Some a
  | _ => λ _, None
  end a.

Lemma Reconcile_guards_witness :
  let req := {| nn_Namespace := "default"; nn_Name := "tunnel" |} in
  ∃ ev tr' res, exec (@Reconcile sampleHelpers sampleSelectorError matchLabels dnsSha256 samplePrefix true req) (ev :: tr') res ∧
    ∃ t', @holdsFinalizer sampleHelpers tr' t' ∧ tst_Id (tun_Status t') = None.
Proof.
  intros req.
  destruct (runTrace_such (tunnelAnswers (sampleTunnel None [] []) [])
    (@Reconcile sampleHelpers sampleSelectorError matchLabels dnsSha256 samplePrefix true req)
    (λ tr r, negb (Nat.eqb (length (omap tunnelCreated tr)) 0)
      && match omap objectGot tr with inl t :: _ => bool_decide (om_DeletionTimestamp (tun_ObjectMeta t) = None) | _ => false end))
    as (tr & res & Hx & Ht); [vm_compute; reflexivity|].
  destruct (@Reconcile_guards sampleHelpers sampleSelectorError matchLabels dnsSha256 samplePrefix true req tr res Hx)
    as (got & tr' & -> & Hg).
  exists (Ev (GetCloudflareTunnel req) got), tr', res. split; [exact Hx|].
  apply andb_true_iff in Ht as [Hc Hd]. simpl in Hd.
  destruct got as [t|e]; [|discriminate Hd]. apply bool_decide_eq_true in Hd. rewrite Hd in Hg.
  destruct Hg as (t' & Hf & Hid & _); [|by exists t'].
  intros Hn. simpl in Hc. unfold omap in Hn. rewrite Hn in Hc. discriminate Hc.
Defined.
