(* ===== verification/TunnelWorld.v ===== *)
(** * Tunnels are not leaked

    The tunnel controller in a world that is not kind to it: one CloudflareTunnel
    at the Kubernetes API server and the tunnels of Cloudflare, where any request
    may fail, with or without its effect, and any reconciliation may stop after
    any request; between reconciliations the object is created, edited and
    deleted, and tunnels are made, renamed and deleted by others. Reads are
    current, and one reconciliation runs at a time. *)
From S2P Require Import Prelude GatewayAPI Samples API Effects Logic Helpers Model Tunnel Envoy TunnelApi Dns PrivateRoutes ValueFrom TunnelCtl.

Record World := {
  w_object : option CloudflareTunnel;
  w_remotes : list RemoteTunnel;
  (** The identifiers a status has ever recorded. *)
  w_recorded : gset string;
}.

Definition tunnelID (t : CloudflareTunnel) : option string := tst_Id (tun_Status t).
Definition tunnelFinalizers (t : CloudflareTunnel) : list string := om_Finalizers (tun_ObjectMeta t).

(** An object that is being deleted goes when its last finalizer does. *)
Definition gone (t : CloudflareTunnel) : bool :=
  bool_decide (is_Some (om_DeletionTimestamp (tun_ObjectMeta t))) && bool_decide (tunnelFinalizers t = []).

Definition putObject (w : World) (t : CloudflareTunnel) : World :=
  {| w_object := if gone t then None else Some t; w_remotes := w_remotes w;
     w_recorded := option_to_set (tunnelID t) ∪ w_recorded w |}.

Definition putRemotes (w : World) (remotes : list RemoteTunnel) : World :=
  {| w_object := w_object w; w_remotes := remotes; w_recorded := w_recorded w |}.

Definition ids (remotes : list RemoteTunnel) : list string := rt_ID <$> remotes.

(** The tunnel of an identifier in an account. *)
Definition isTunnel (id account : string) (r : RemoteTunnel) : Prop := rt_ID r = id ∧ rt_AccountTag r = account.
#[export] Instance isTunnel_dec id account r : Decision (isTunnel id account r).
Proof. unfold isTunnel. apply _. Defined.

Definition isNamed (account name : string) (r : RemoteTunnel) : Prop := rt_AccountTag r = account ∧ rt_Name r = name.
#[export] Instance isNamed_dec account name r : Decision (isNamed account name r).
Proof. unfold isNamed. apply _. Defined.

Definition renameRemote (id name : string) (r : RemoteTunnel) : RemoteTunnel :=
  if str_eqb (rt_ID r) id then
    {| rt_ID := rt_ID r; rt_Name := name; rt_AccountTag := rt_AccountTag r; rt_ConfigSrc := rt_ConfigSrc r;
       rt_Status := rt_Status r; rt_CreatedAt := rt_CreatedAt r; rt_ConnsActiveAt := rt_ConnsActiveAt r;
       rt_ConnsInactiveAt := rt_ConnsInactiveAt r; rt_TunType := rt_TunType r |}
  else r.

(** ** What requests are answered, and what they do *)

(** A patch of the object: of its metadata, or of its status. *)
Definition onObject (f : CloudflareTunnel → CloudflareTunnel) (r : CloudflareTunnel + Err) (w w' : World) : Prop :=
  match w_object w with
  | None => w' = w ∧ ∃ e, r = inr e
  | Some t => (w' = w ∧ ∃ e, r = inr e) ∨ (w' = putObject w (f t) ∧ (r = inl (f t) ∨ ∃ e, r = inr e))
  end.

Definition metaOf (u t : CloudflareTunnel) : CloudflareTunnel :=
  {| tun_ObjectMeta := tun_ObjectMeta u; tun_Spec := tun_Spec t; tun_Status := tun_Status t |}.

(** Every request may fail. A tunnel's identifier is new and stays its own; a
    tunnel that Cloudflare does not find is not there. *)
Definition answers (R : Type) (e : TunnelE R) (w : World) : R → World → Prop :=
  match e in TunnelE R return R → World → Prop with
  | GetCloudflareTunnel _ => λ r w', w' = w ∧ match r with inl t => w_object w = Some t | inr _ => True end
  | PatchTunnel _ u => λ r w', onObject (metaOf u) r w w'
  | PatchTunnelStatus _ u => λ r w', onObject (λ t, withStatus t (tun_Status u)) r w w'
  | CreateTunnel p => λ r w',
    (w' = w ∧ ∃ e, r = inr e) ∨
    ∃ t, rt_AccountTag t = np_AccountID p ∧ rt_Name t = np_Name p ∧
      rt_ID t ∉ ids (w_remotes w) ∧ rt_ID t ∉ w_recorded w ∧
      w' = putRemotes w (w_remotes w ++ [t]) ∧ (r = inl t ∨ ∃ e, r = inr e)
  | ListTunnels account name => λ r w',
    w' = w ∧ match r with inl l => l = filter (isNamed account name) (w_remotes w) | inr _ => True end
  | GetTunnel id account => λ r w',
    w' = w ∧ match r with inl t => t ∈ w_remotes w ∧ isTunnel id account t | inr _ => True end
  | EditTunnel id account name => λ r w',
    (w' = w ∧ ∃ e, r = inr e) ∨
    ∃ t, t ∈ w_remotes w ∧ isTunnel id account t ∧ w' = putRemotes w (renameRemote id name <$> w_remotes w) ∧
      (r = inl (Some (renameRemote id name t)) ∨ r = inl None ∨ ∃ e, r = inr e)
  | DeleteTunnel id account => λ r w',
    (w' = w ∧ ∃ e, r = Some e ∧ (IsNotFound e = true → ∀ t, t ∈ w_remotes w → ¬ isTunnel id account t)) ∨
    w' = putRemotes w (filter (λ t, ¬ isTunnel id account t) (w_remotes w))
  | _ => λ _ w', w' = w
  end.

(** What happens between reconciliations. *)
Inductive move (w : World) : World → Prop :=
  (** The object is created. *)
  | moves_create t : w_object w = None → tunnelID t = None → om_DeletionTimestamp (tun_ObjectMeta t) = None →
      move w (putObject w t)
  (** Its spec and its metadata are edited, its finalizers apart. *)
  | moves_edit t t' : w_object w = Some t → tun_Status t' = tun_Status t → tunnelFinalizers t' = tunnelFinalizers t →
      om_DeletionTimestamp (tun_ObjectMeta t') = om_DeletionTimestamp (tun_ObjectMeta t) → move w (putObject w t')
  (** It is deleted. *)
  | moves_delete t t' : w_object w = Some t → tun_Status t' = tun_Status t → tunnelFinalizers t' = tunnelFinalizers t →
      is_Some (om_DeletionTimestamp (tun_ObjectMeta t')) → move w (putObject w t')
  (** Others make, rename and delete tunnels. *)
  | moves_remotes remotes : NoDup (ids remotes) →
      (∀ r, r ∈ remotes → rt_ID r ∈ w_recorded w → ∃ r', r' ∈ w_remotes w ∧ isTunnel (rt_ID r) (rt_AccountTag r) r') →
      move w (putRemotes w remotes).

Section world.
Context `{ObjectHelpers, !FinalizerLaws, SelectorError, LabelSelectors, Sha256, NetipPrefix}.
Context (sources : bool) (key : NamespacedName).

Inductive reachable : World → Prop :=
  | reachable_init remotes : NoDup (ids remotes) →
      reachable {| w_object := None; w_remotes := remotes; w_recorded := ∅ |}
  | reachable_move w w' : reachable w → move w w' → reachable w'
  | reachable_reconcile w w' : reachable w → leaves answers (Reconcile sources key) w w' → reachable w'.

(** ** The invariant *)

(** The object that is to delete a tunnel. *)
Definition guards (t : CloudflareTunnel) (r : RemoteTunnel) : Prop :=
  tunnelID t = Some (rt_ID r) ∧ tst_AccountTag (tun_Status t) = rt_AccountTag r ∧
  cloudflareTunnelFinalizer ∈ tunnelFinalizers t.

Record Inv (w : World) : Prop := {
  inv_ids : NoDup (ids (w_remotes w));
  inv_object t : w_object w = Some t → gone t = false ∧ (∀ id, tunnelID t = Some id → id ∈ w_recorded w);
  inv_guarded r : r ∈ w_remotes w → rt_ID r ∈ w_recorded w → ∃ t, w_object w = Some t ∧ guards t r;
}.

Lemma ids_same remotes r r' : NoDup (ids remotes) → r ∈ remotes → r' ∈ remotes → rt_ID r = rt_ID r' → r = r'.
Proof.
  intros Hnd [i Hi]%list_elem_of_lookup [j Hj]%list_elem_of_lookup Heq.
  assert (i = j) as ->; [|congruence].
  eapply NoDup_lookup; [exact Hnd| |]; unfold ids; rewrite list_lookup_fmap, ?Hi, ?Hj; simpl; [done|by rewrite Heq].
Qed.

(** Writing the object: what it is to delete must be known to it. *)
Lemma Inv_put w t :
  Inv w →
  (∀ r, r ∈ w_remotes w → rt_ID r ∈ w_recorded w ∨ tunnelID t = Some (rt_ID r) → guards t r) →
  Inv (putObject w t).
Proof.
  intros [Hids Hobj Hg] Hnew. split; [done| |]; simpl.
  - intros t' Ht. destruct (gone t) eqn:Eg; [done|]. injection Ht as <-. split; [done|].
    intros id ->. simpl. set_solver.
  - intros r Hr Hrec. assert (guards t r) as Hgr.
    { apply Hnew; [done|]. apply elem_of_union in Hrec as [Hid|?]; [right|by left].
      destruct (tunnelID t); simpl in Hid; set_solver. }
    exists t. split; [|done]. destruct (gone t) eqn:Eg; [|done]. unfold gone in Eg.
    apply andb_true_iff in Eg as [_ Hnil%bool_decide_eq_true]. destruct Hgr as (_ & _ & Hf). rewrite Hnil in Hf.
    by apply elem_of_nil in Hf.
Qed.

Lemma Inv_remotes w remotes :
  Inv w → NoDup (ids remotes) →
  (∀ r, r ∈ remotes → rt_ID r ∈ w_recorded w → ∃ r', r' ∈ w_remotes w ∧ isTunnel (rt_ID r) (rt_AccountTag r) r') →
  Inv (putRemotes w remotes).
Proof.
  intros [Hids Hobj Hg] Hnd Hold. split; [done|done|]. simpl. intros r Hr Hrec.
  destruct (Hold r Hr Hrec) as (r' & Hr' & Hid & Hacc). destruct (Hg r' Hr') as (t & Ht & Hgt1 & Hgt2 & Hgt3); [by rewrite Hid|].
  exists t. split; [done|]. unfold guards. rewrite <- Hid, <- Hacc. by split_and!.
Qed.

Lemma renameRemote_same id name r : isTunnel (rt_ID r) (rt_AccountTag r) (renameRemote id name r).
Proof. unfold renameRemote, isTunnel. by destruct (str_eqb _ _). Qed.

Lemma ids_rename id name remotes : ids (renameRemote id name <$> remotes) = ids remotes.
Proof.
  unfold ids. rewrite <- list_fmap_compose. apply list_fmap_ext. intros _ r _. apply renameRemote_same.
Qed.

Lemma Inv_rename w id name : Inv w → Inv (putRemotes w (renameRemote id name <$> w_remotes w)).
Proof.
  intros Hi. apply Inv_remotes; [done|rewrite ids_rename; apply Hi|].
  intros r (r0 & -> & Hr0)%list_elem_of_fmap _. exists r0. split; [done|].
  destruct (renameRemote_same id name r0) as [Hid Hacc]. unfold isTunnel. by rewrite Hid, Hacc.
Qed.

Lemma Inv_drop w (P : RemoteTunnel → Prop) `{∀ r, Decision (P r)} : Inv w → Inv (putRemotes w (filter P (w_remotes w))).
Proof.
  intros Hi. apply Inv_remotes; [done| |].
  - eapply sublist_NoDup; [apply Hi|]. apply fmap_sublist, sublist_filter.
  - intros r [_ Hr]%list_elem_of_filter _. exists r. by split.
Qed.

Lemma Inv_add w t :
  Inv w → rt_ID t ∉ ids (w_remotes w) → rt_ID t ∉ w_recorded w → Inv (putRemotes w (w_remotes w ++ [t])).
Proof.
  intros Hi Hnew Hrec. apply Inv_remotes; [done| |].
  - unfold ids in *. rewrite fmap_app. apply NoDup_app. split_and!; [apply Hi| |apply NoDup_singleton].
    intros x Hx ->%list_elem_of_singleton. done.
  - intros r [Hr|Hr]%elem_of_app Hr'; [exists r; by split|]. by apply list_elem_of_singleton in Hr as ->.
Qed.

Lemma Inv_move w w' : Inv w → move w w' → Inv w'.
Proof.
  intros Hi Hm. destruct Hm as [t Hn Hid Hd|t t' Ht Hs Hf Hd|t t' Ht Hs Hf Hd|remotes Hnd Hold].
  - apply Inv_put; [done|]. intros r Hr [Hrec|Heq]; [|congruence].
    destruct (inv_guarded w Hi r Hr Hrec) as (t' & ? & _). congruence.
  - apply Inv_put; [done|]. intros r Hr Hor.
    assert (rt_ID r ∈ w_recorded w) as Hrec.
    { destruct Hor as [|Heq]; [done|]. apply (inv_object w Hi t Ht). unfold tunnelID in *. by rewrite <- Hs. }
    destruct (inv_guarded w Hi r Hr Hrec) as (t0 & Ht0 & Hg1 & Hg2 & Hg3). assert (t0 = t) as -> by congruence.
    unfold guards, tunnelID in *. by rewrite Hs, Hf.
  - apply Inv_put; [done|]. intros r Hr Hor.
    assert (rt_ID r ∈ w_recorded w) as Hrec.
    { destruct Hor as [|Heq]; [done|]. apply (inv_object w Hi t Ht). unfold tunnelID in *. by rewrite <- Hs. }
    destruct (inv_guarded w Hi r Hr Hrec) as (t0 & Ht0 & Hg1 & Hg2 & Hg3). assert (t0 = t) as -> by congruence.
    unfold guards, tunnelID in *. by rewrite Hs, Hf.
  - by apply Inv_remotes.
Qed.

(** ** Steps of a reconciliation *)

Notation wp_ := (wp answers Inv).

(** The requests that do not touch the object or the tunnels. *)
Definition quietKind (k : Kind) : bool :=
  match k with
  | KPatchTunnel | KPatchTunnelStatus | KCreateTunnel | KEditTunnel | KDeleteTunnel => false
  | _ => true
  end.

Lemma quiet_answer R (e : TunnelE R) w r w' : quietKind (kindOf e) = true → answers R e w r w' → w' = w.
Proof. destruct e; simpl; intros Hk Ha; try done; by destruct Ha. Qed.

Lemma wp_quiet {A} ks (p : prog TunnelE A) Q w :
  only ks p → forallb quietKind ks = true → Inv w → (∀ a, Q a w) → wp_ p Q w.
Proof.
  rewrite forallb_forall. intros Ho Hq. apply wp_still. induction p as [a|R e k IH]; [done|]. destruct Ho as [He Hk]. split; [|by intros r; apply IH].
  intros w0 r w'. by apply quiet_answer, Hq, list_elem_of_In.
Qed.

(** What is known of the object carries over to a write that keeps what the
    status says of the tunnel. *)
Lemma keeps_guards w t t' r :
  Inv w → w_object w = Some t → tunnelID t' = tunnelID t →
  tst_AccountTag (tun_Status t') = tst_AccountTag (tun_Status t) →
  (∀ f, f ∈ tunnelFinalizers t → f ∈ tunnelFinalizers t') →
  r ∈ w_remotes w → rt_ID r ∈ w_recorded w ∨ tunnelID t' = Some (rt_ID r) → guards t' r.
Proof.
  intros Hi Ht Hid Hacc Hf Hr Hor.
  assert (rt_ID r ∈ w_recorded w) as Hrec.
  { destruct Hor as [|Heq]; [done|]. apply (inv_object w Hi t Ht). congruence. }
  destruct (inv_guarded w Hi r Hr Hrec) as (t0 & Ht0 & Hg1 & Hg2 & Hg3). assert (t0 = t) as -> by congruence.
  split_and!; [congruence|congruence|by apply Hf].
Qed.

Lemma wp_patchStatus t f (Q : CloudflareTunnel + Err → World → Prop) w :
  Inv w → w_object w = Some t →
  let t' := withStatus t (tun_Status (f t)) in
  (∀ r, r ∈ w_remotes w → rt_ID r ∈ w_recorded w ∨ tunnelID t' = Some (rt_ID r) → guards t' r) →
  (∀ w', Inv w' → w_object w' = Some t' → w_remotes w' = w_remotes w → Q (inl t') w') →
  (∀ e w', Inv w' → Q (inr e) w') →
  wp_ (patchSubResource t f) Q w.
Proof.
  intros Hi Ht t' Hg Hok Herr. unfold patchSubResource. apply wp_call; [done|]. intros r w' Ha.
  simpl in Ha. unfold onObject in Ha. rewrite Ht in Ha. fold t' in Ha.
  assert (Inv (putObject w t')) as Hi' by by apply Inv_put.
  destruct Ha as [(-> & e & ->)|(-> & Ha)]; [split; [done|by apply Herr]|]. split; [done|].
  destruct Ha as [->|(e & ->)]; [|by apply Herr]. apply Hok; [done| |done].
  simpl. destruct (inv_object w Hi t Ht) as [Hgone _]. unfold gone, t', tunnelFinalizers in *. simpl. by rewrite Hgone.
Qed.

(** A patch of the status that says the same of the tunnel. *)
Definition sameTunnel (t t' : CloudflareTunnel) : Prop :=
  tunnelID t' = tunnelID t ∧ tst_AccountTag (tun_Status t') = tst_AccountTag (tun_Status t) ∧
  tun_ObjectMeta t' = tun_ObjectMeta t ∧ tun_Spec t' = tun_Spec t.

Lemma wp_report t f (Q : CloudflareTunnel + Err → World → Prop) w :
  Inv w → w_object w = Some t → sameTunnel t (f t) →
  (∀ t' w', Inv w' → w_object w' = Some t' → w_remotes w' = w_remotes w → sameTunnel t t' → Q (inl t') w') →
  (∀ e w', Inv w' → Q (inr e) w') →
  wp_ (patchSubResource t f) Q w.
Proof.
  intros Hi Ht (Hid & Hacc & Hm & Hs) Hok Herr. apply wp_patchStatus; [done|done| | |done].
  - intros r. by apply (keeps_guards w t).
  - intros w' Hi' Ht' Hr. apply Hok; [done|done|done|]. by split_and!.
Qed.

Lemma wp_degrade t message (Q : option Err → World → Prop) w :
  Inv w → w_object w = Some t → (∀ err w', Inv w' → Q err w') → wp_ (degrade t message) Q w.
Proof.
  intros Hi Ht HQ. unfold degrade, patchErr. apply wp_bind. apply wp_report; [done|done|done| |].
  - intros t' w' Hi' _ _ _. by apply wp_ret, HQ.
  - intros e w' Hi'. by apply wp_ret, HQ.
Qed.

(** A tunnel the world holds, as the API told of it. *)
Definition known (w : World) (res : RemoteTunnel) : Prop :=
  ∃ r, r ∈ w_remotes w ∧ isTunnel (rt_ID res) (rt_AccountTag res) r.

Lemma known_same w res r : Inv w → known w res → r ∈ w_remotes w → rt_ID r = rt_ID res → rt_AccountTag r = rt_AccountTag res.
Proof.
  intros Hi (r0 & Hr0 & Hid & Hacc) Hr Heq. assert (r = r0) as ->; [|done].
  eapply ids_same; [apply Hi|done|done|congruence].
Qed.

(** The status takes over a tunnel. *)
Lemma wp_takeOver t f res (Q : CloudflareTunnel + Err → World → Prop) w :
  Inv w → w_object w = Some t → known w res → cloudflareTunnelFinalizer ∈ tunnelFinalizers t →
  tunnelID t = None ∨ tunnelID t = Some (rt_ID res) →
  tunnelID (f t) = Some (rt_ID res) → tst_AccountTag (tun_Status (f t)) = rt_AccountTag res →
  (∀ w', Inv w' → w_object w' = Some (withStatus t (tun_Status (f t))) → Q (inl (withStatus t (tun_Status (f t)))) w') →
  (∀ e w', Inv w' → Q (inr e) w') →
  wp_ (patchSubResource t f) Q w.
Proof.
  intros Hi Ht Hk Hfin Hold Hid Hacc Hok Herr. apply wp_patchStatus; [done|done| |by auto|done].
  intros r Hr Hor.
  assert (rt_ID r = rt_ID res) as Heq.
  { destruct Hor as [Hrec|Hn]; [|unfold tunnelID in *; simpl in *; congruence].
    destruct (inv_guarded w Hi r Hr Hrec) as (t0 & Ht0 & Hg1 & _). assert (t0 = t) as -> by congruence.
    destruct Hold; congruence. }
  split_and!; [unfold tunnelID in *; simpl in *; congruence| |exact Hfin].
  simpl. rewrite Hacc. symmetry. by apply (known_same w).
Qed.

Lemma wp_recordTunnel t res message (Q : option Err → World → Prop) w :
  Inv w → w_object w = Some t → known w res → cloudflareTunnelFinalizer ∈ tunnelFinalizers t → tunnelID t = None →
  (∀ err w', Inv w' → Q err w') → wp_ (recordTunnel t res message) Q w.
Proof.
  intros Hi Ht Hk Hfin Hn HQ. unfold recordTunnel, patchErr. apply wp_bind.
  apply (wp_takeOver t _ res); [done|done|done|done|by left|done|done| |].
  - intros w' Hi' _. by apply wp_ret, HQ.
  - intros e w' Hi'. by apply wp_ret, HQ.
Qed.

Lemma wp_adoptTunnel t conflict (Q : option Err → World → Prop) w :
  Inv w → w_object w = Some t → cloudflareTunnelFinalizer ∈ tunnelFinalizers t → tunnelID t = None →
  (∀ err w', Inv w' → Q err w') → wp_ (adoptTunnel t conflict) Q w.
Proof.
  intros Hi Ht Hfin Hn HQ. unfold adoptTunnel. apply wp_request; [done|]. intros r w' [-> Hr].
  destruct r as [[|res [|res2 l]]|e].
  - by apply wp_ret, HQ.
  - apply wp_recordTunnel; [done|done| |done|done|done]. exists res. split; [|done].
    assert (res ∈ filter (isNamed (t_AccountId (tun_Spec t)) (effectiveName t)) (w_remotes w)) as Hin by (rewrite <- Hr; by left).
    by apply list_elem_of_filter in Hin as [_ ?].
  - apply wp_bind. apply wp_degrade with (1 := Hi) (2 := Ht). intros err w' Hi'. by apply wp_ret, HQ.
  - by apply wp_ret, HQ.
Qed.

Lemma wp_createTunnel t (Q : option Err → World → Prop) w :
  Inv w → w_object w = Some t → cloudflareTunnelFinalizer ∈ tunnelFinalizers t → tunnelID t = None →
  (∀ err w', Inv w' → Q err w') → wp_ (createTunnel sources t) Q w.
Proof.
  intros Hi Ht Hfin Hn HQ. unfold createTunnel. apply wp_bind.
  apply (wp_quiet [KGetSecretSource; KGetConfigMapSource]); [apply only_tunnelSecret|done|done|].
  intros [secret|err]; [|apply wp_bind, wp_degrade with (1 := Hi) (2 := Ht); intros; by apply wp_ret, HQ].
  apply wp_bind. apply (wp_quiet [KPanic]); [unfold mapConfigSrc; repeat only_step|done|done|].
  intros src. apply wp_request; [done|]. intros r w' Ha.
  assert (Inv w' ∧ w_object w' = Some t ∧ match r with inl res => known w' res | inr _ => True end) as (Hi' & Ht' & Hr).
  { destruct Ha as [(-> & e & ->)|(res & _ & _ & Hnew & Hrec & -> & Hr)]; [done|].
    split; [by apply Inv_add|]. split; [done|]. destruct Hr as [->|(e & ->)]; [|done].
    exists res. split; [|done]. simpl. apply elem_of_app. right. by left. }
  destruct r as [res|err]; [by apply wp_recordTunnel|].
  destruct (IsConflict err); [by apply wp_adoptTunnel|by apply wp_ret, HQ].
Qed.

Lemma wp_renamed id t res (Q : RemoteTunnel + Err → World → Prop) w :
  Inv w → w_object w = Some t → known w res → rt_ID res = id →
  (∀ res' w', Inv w' → w_object w' = Some t → known w' res' → rt_ID res' = id → Q (inl res') w') →
  (∀ e w', Inv w' → Q (inr e) w') → wp_ (renamed id t res) Q w.
Proof.
  intros Hi Ht Hk Hid Hok Herr. unfold renamed. destruct (negb _); [|by apply wp_ret, Hok].
  apply wp_request; [done|]. intros r w' [(-> & e & ->)|(r0 & Hr0 & [Hid0 Hacc0] & -> & Hr)]; [by apply wp_ret, Herr|].
  set (name := effectiveName t) in *.
  pose proof (Inv_rename w id name Hi) as Hi'.
  assert (∀ x, known w x → known (putRemotes w (renameRemote id name <$> w_remotes w)) x) as Hkeep.
  { intros x (y & Hy & Hyid & Hyacc). exists (renameRemote id name y). split; [by apply list_elem_of_fmap_2|].
    destruct (renameRemote_same id name y) as [He1 He2]. split; congruence. }
  destruct Hr as [->|[->|(e & ->)]]; [|by apply wp_ret, Hok; auto|by apply wp_ret, Herr].
  destruct (renameRemote_same id name r0) as [He1 He2].
  apply wp_ret; [done|]. apply Hok; [done|done| |congruence].
  exists (renameRemote id name r0). split; [by apply list_elem_of_fmap_2|done].
Qed.

Lemma only_pushConfig id t b : only [KUpdateConfiguration] (pushConfig id t b).
Proof. unfold pushConfig. repeat only_step. Qed.

Lemma wp_updateTunnel id t (Q : CloudflareTunnel + Err → World → Prop) w :
  Inv w → w_object w = Some t → cloudflareTunnelFinalizer ∈ tunnelFinalizers t → tunnelID t = Some id →
  (∀ t' w', Inv w' → w_object w' = Some t' → Q (inl t') w') →
  (∀ e w', Inv w' → Q (inr e) w') → wp_ (updateTunnel id t) Q w.
Proof.
  intros Hi Ht Hfin Hid Hok Herr. unfold updateTunnel. apply wp_request; [done|]. intros r w' [-> Hr].
  destruct r as [res|e]; [|by apply wp_ret, Herr]. destruct Hr as [Hin [Hrid _]].
  apply wp_bind. apply (wp_renamed id t res); [done|done|by exists res|done| |intros; by apply wp_ret, Herr].
  clear Hin Hrid res w Hi Ht. intros res w Hi Ht Hk Hrid. apply wp_bind.
  apply (wp_quiet [KUpdateConfiguration]); [apply only_pushConfig|done|done|].
  intros [ingressErr|e]; [|by apply wp_ret, Herr]. unfold updateStatus. apply wp_bind.
  apply (wp_quiet [KGetZone; KListDnsRecords; KApplyDnsRecord; KDeleteDnsRecord]);
    [apply only_reconcileDns|done|done|].
  intros [dns|e]; [|by apply wp_ret, Herr]. apply wp_bind.
  apply (wp_quiet [KListRoutes; KListDefaultVirtualNetworks; KDeleteRoute; KCreateRoute]);
    [apply only_reconcileRoutes|done|done|].
  intros [rs|e]; [|by apply wp_ret, Herr].
  apply (wp_takeOver t _ res); [done|done|done|done|right; congruence|done|done| |done].
  intros w' Hi' Ht'. by apply Hok.
Qed.

Lemma only_applyConfig config cs : only [KUpdateCloudflared] (applyConfig config cs).
Proof. induction cs as [|c cs IH]; simpl; [done|]. split; [set_solver|]. by intros [err|]. Qed.

Lemma wp_reconcileCloudflareds t id cf (Q : Result → World → Prop) w :
  Inv w → w_object w = Some t → (∀ res w', Inv w' → Q res w') → wp_ (reconcileCloudflareds t id cf) Q w.
Proof.
  intros Hi Ht HQ. unfold reconcileCloudflareds. destruct (tunnelSelector t) as [sel|err].
  2:{ apply wp_bind, wp_degrade with (1 := Hi) (2 := Ht). intros; by apply wp_ret, HQ. }
  apply wp_bind. apply (wp_quiet [KListCloudflareds]); [unfold listCloudflareds; repeat only_step|done|done|].
  intros [items|err]; [|by apply wp_ret, HQ]. apply wp_bind. apply wp_report; [done|done|done| |intros; by apply wp_ret, HQ].
  intros t' w' Hi' Ht' _ _. apply wp_bind.
  apply (wp_quiet [KUpdateCloudflared]); [apply only_applyConfig|done|done|]. intros err.
  destruct err as [err|]; [by apply wp_ret, HQ|]. destruct (tcd_Template cf) as [template|]; [|by apply wp_ret, HQ].
  destruct (negb _); [by apply wp_ret, HQ|]. destruct (negb _).
  { apply wp_bind, wp_degrade with (1 := Hi') (2 := Ht'). intros; by apply wp_ret, HQ. }
  destruct (SetControllerReference _ _); [|by apply wp_ret, HQ].
  apply wp_request; [done|]. intros r w2 ->. by apply wp_ret, HQ.
Qed.

(** A tunnel none of whose recorded ones is left at Cloudflare lets the object go. *)
Lemma wp_removeFinalizer t (Q : Result → World → Prop) w :
  Inv w → w_object w = Some t → (∀ r, r ∈ w_remotes w → rt_ID r ∉ w_recorded w) →
  (∀ res w', Inv w' → Q res w') → wp_ (removeFinalizer t) Q w.
Proof.
  intros Hi Ht Hnone HQ. unfold removeFinalizer, patchErr, patch. do 2 apply wp_bind.
  apply wp_call; [done|]. intros r w' Ha. simpl in Ha. unfold onObject in Ha. rewrite Ht in Ha.
  assert (Inv w') as Hi'.
  { destruct Ha as [(-> & _)|(-> & _)]; [done|]. apply Inv_put; [done|]. intros r0 Hr0 Hor. exfalso.
    apply (Hnone r0 Hr0). destruct Hor as [|Heq]; [done|]. by apply (inv_object w Hi t Ht). }
  split; [done|]. apply wp_ret; [done|]. by apply wp_ret, HQ.
Qed.

Lemma wp_finalizeTunnel t (Q : Result → World → Prop) w :
  Inv w → w_object w = Some t → (∀ res w', Inv w' → Q res w') → wp_ (finalizeTunnel t) Q w.
Proof.
  intros Hi Ht HQ. unfold finalizeTunnel. fold (tunnelID t). destruct (tunnelID t) as [id|] eqn:Hid.
  2:{ apply wp_removeFinalizer; [done|done| |done]. intros r Hr Hrec.
      destruct (inv_guarded w Hi r Hr Hrec) as (t0 & Ht0 & Hg & _). congruence. }
  apply wp_bind. apply (wp_quiet [KListRoutes; KDeleteRoute]); [apply only_deleteRoutes|done|done|].
  intros err. destruct err as [err|]; [by apply wp_ret, HQ|]. apply wp_bind. unfold deleteTunnel. apply wp_bind.
  apply wp_report; [done|done|done| |intros; apply wp_ret; [done|]; by apply wp_ret, HQ].
  intros t' w1 Hi1 Ht1 _ (Hid1 & Hacc1 & _). apply wp_request; [done|]. intros r w2 Ha.
  assert (Inv w2 ∧ w_object w2 = Some t' ∧ (cf_IgnoreNotFound r = None → ∀ r, r ∈ w_remotes w2 → rt_ID r ∉ w_recorded w2))
    as (Hi2 & Ht2 & Hnone).
  { assert (∀ r, r ∈ w_remotes w1 → rt_ID r ∈ w_recorded w1 → isTunnel id (tst_AccountTag (tun_Status t')) r) as Hrec.
    { intros r0 Hr0 Hrec. destruct (inv_guarded w1 Hi1 r0 Hr0 Hrec) as (t0 & Ht0 & Hg1 & Hg2 & _).
      assert (t0 = t') as -> by congruence. split; congruence. }
    destruct Ha as [(-> & e & -> & Hnf)| ->].
    - split_and!; [done..|]. unfold cf_IgnoreNotFound, ignoreErr. destruct (IsNotFound e); [|done].
      intros _ r0 Hr0 Hr0'. by apply (Hnf eq_refl r0 Hr0), Hrec.
    - split_and!; [by apply Inv_drop|done|]. intros _ r0 [Hne Hr0]%list_elem_of_filter Hr0'.
      by apply Hne, Hrec. }
  apply wp_ret; [done|]. destruct (cf_IgnoreNotFound r) as [e|]; [by apply wp_ret, HQ|].
  by apply wp_removeFinalizer; [| |apply Hnone|].
Qed.

Lemma wp_finalize t (Q : Result → World → Prop) w :
  Inv w → w_object w = Some t → (∀ res w', Inv w' → Q res w') → wp_ (finalize t) Q w.
Proof.
  intros Hi Ht HQ. unfold finalize. destruct (t_Cloudflared _); [|by apply wp_finalizeTunnel].
  destruct (tunnelSelector t) as [sel|]; [|by apply wp_finalizeTunnel].
  apply wp_bind. apply (wp_quiet [KListCloudflareds]); [unfold listCloudflareds; repeat only_step|done|done|].
  intros [[|cfd cfds]|err]; [by apply wp_finalizeTunnel| |by apply wp_ret, HQ].
  apply wp_bind. unfold deleteCloudflareds. apply wp_bind.
  apply wp_report; [done|done|done| |intros; apply wp_ret; [done|]; by apply wp_ret, HQ].
  intros t' w1 Hi1 Ht1 _ _. apply (wp_quiet [KDeleteCloudflared]); [apply only_deleteOwned|done|done|].
  intros err. by destruct err; apply wp_ret, HQ.
Qed.

(** Wherever a reconciliation stops, the invariant holds. *)
Lemma wp_Reconcile w : Inv w → wp_ (Reconcile sources key) (λ _ _, True) w.
Proof.
  intros Hi. unfold Reconcile. apply wp_request; [done|]. intros got w' [-> Hgot].
  destruct got as [t|e]; [|by apply wp_ret].
  destruct (om_DeletionTimestamp _); [by apply wp_finalize|]. apply wp_bind.
  assert (∀ (Q : CloudflareTunnel + Err → World → Prop),
    (∀ t' w', Inv w' → w_object w' = Some t' → Q (inl t') w') → (∀ e w', Inv w' → Q (inr e) w') →
    wp_ (startConditions t) Q w) as Hstart.
  { intros Q Hok Herr. unfold startConditions. destruct (tst_Conditions _); [|by apply wp_ret, Hok].
    apply wp_report; [done|done|done| |done]. intros t' w' Hi' Ht' _ _. by apply Hok. }
  apply Hstart; [|intros; by apply wp_ret]. clear Hstart Hgot Hi w t. intros t w Hi Ht. apply wp_bind.
  assert (∀ (Q : CloudflareTunnel + Err → World → Prop),
    (∀ t' w', Inv w' → w_object w' = Some t' → cloudflareTunnelFinalizer ∈ tunnelFinalizers t' → Q (inl t') w') →
    (∀ e w', Inv w' → Q (inr e) w') → wp_ (ensureFinalizer t) Q w) as Hhold.
  { intros Q Hok Herr. unfold ensureFinalizer. destruct (ContainsFinalizer _ _) eqn:Ec.
    { apply contains_finalizer in Ec. by apply wp_ret, Hok. }
    unfold patch. apply wp_call; [done|]. intros r w' Ha. simpl in Ha. unfold onObject in Ha. rewrite Ht in Ha.
    set (u := withFinalizers t _) in *.
    assert (∀ f, f ∈ tunnelFinalizers (metaOf u t) ↔ f ∈ tunnelFinalizers t ∨ f = cloudflareTunnelFinalizer) as Hfin
      by (intros f; apply add_finalizer).
    assert (Inv (putObject w (metaOf u t))) as Hi'.
    { apply Inv_put; [done|]. intros r0. apply (keeps_guards w t); [done|done|done|done|]. intros f Hf. apply Hfin. by left. }
    destruct Ha as [(-> & e & ->)|(-> & Ha)]; [split; [done|by apply Herr]|]. split; [done|].
    destruct Ha as [->|(e & ->)]; [|by apply Herr]. apply Hok; [done| |apply Hfin; by right].
    simpl. unfold gone. rewrite (bool_decide_eq_false_2 (tunnelFinalizers _ = [])); [by rewrite andb_false_r|].
    intros Hnil. assert (cloudflareTunnelFinalizer ∈ tunnelFinalizers (metaOf u t)) as Hin by (apply Hfin; by right).
    rewrite Hnil in Hin. by apply elem_of_nil in Hin. }
  apply Hhold; [|intros; by apply wp_ret]. clear Hhold Ht Hi w t. intros t w Hi Ht Hfin.
  fold (tunnelID t). destruct (tunnelID t) as [id|] eqn:Hid.
  - apply wp_bind. apply wp_updateTunnel; [done|done|done|done| |intros; by apply wp_ret].
    intros t' w' Hi' Ht'. destruct (t_Cloudflared _); [by apply wp_reconcileCloudflareds|by apply wp_ret].
  - apply wp_bind. apply wp_createTunnel; [done|done|done|done|]. intros err w' Hi'. by apply wp_ret.
Qed.

Lemma reachable_Inv w : reachable w → Inv w.
Proof.
  induction 1 as [remotes Hnd|w w' _ IH Hm|w w' _ IH Hl].
  - split; [done|done|]. simpl. set_solver.
  - by apply (Inv_move w).
  - by apply (wp_leaves answers Inv (Reconcile sources key) (λ _ _, True) w); [apply wp_Reconcile|].
Qed.

(** C2. A tunnel the operator has recorded is never leaked: whatever requests
    fail and wherever reconciliations stop, and whatever is edited and deleted
    between them, as long as such a tunnel is at Cloudflare its object is there,
    names it as its own, in the account it is in, and holds the finalizer. So
    once the object is gone, so are all the tunnels it ever recorded. *)
Theorem never_leaks w :
  reachable w →
  (∀ r, r ∈ w_remotes w → rt_ID r ∈ w_recorded w → ∃ t, w_object w = Some t ∧ tst_Id (tun_Status t) = Some (rt_ID r) ∧
     tst_AccountTag (tun_Status t) = rt_AccountTag r ∧
     ContainsFinalizer (om_Finalizers (tun_ObjectMeta t)) cloudflareTunnelFinalizer = true) ∧
  (w_object w = None → ∀ r, r ∈ w_remotes w → rt_ID r ∉ w_recorded w).
Proof.
  intros Hi%reachable_Inv. split.
  - intros r Hr Hrec. destruct (inv_guarded w Hi r Hr Hrec) as (t & Ht & Hid & Hacc & Hf). exists t.
    by rewrite contains_finalizer.
  - intros Hn r Hr Hrec. destruct (inv_guarded w Hi r Hr Hrec) as (t & Ht & _). congruence.
Qed.
End world.
