(* ===== verification/TunnelLife.v ===== *)
(** * The life of a tunnel

    The tunnel controller in a world in which nothing fails: a tunnel is created,
    or taken over when it is there already, by one reconciliation, and its object
    goes, with all that Cloudflare holds of it, by two. *)
From S2P Require Import Prelude GatewayAPI Samples API Effects Logic Helpers Model Tunnel Envoy TunnelApi Dns PrivateRoutes ValueFrom TunnelCtl TunnelWorld.

(** The object and the tunnels, the tunnel's routes, and the Cloudflareds. *)
Record Site := { c_world : World; c_routes : list Teamnet; c_cfds : list Cloudflared }.

Definition putWorld (c : Site) (w : World) : Site :=
  {| c_world := w; c_routes := c_routes c; c_cfds := c_cfds c |}.

Definition apiErr (message : string) (code : Z) : Err :=
  {| err_message := message; err_status := Some code; err_k8s := None |}.

Definition noObject : Err := {| err_message := "not found"; err_status := None; err_k8s := Some K8sNotFound |}.

Definition newRemote (w : World) (p : TunnelNewParams) : RemoteTunnel :=
  {| rt_ID := fresh (w_recorded w ∪ list_to_set (ids (w_remotes w))); rt_Name := np_Name p;
     rt_AccountTag := np_AccountID p; rt_ConfigSrc := np_ConfigSrc p; rt_Status := "inactive"; rt_CreatedAt := 0;
     rt_ConnsActiveAt := 0; rt_ConnsInactiveAt := 0; rt_TunType := "cfd_tunnel" |}.

Definition patched (f : CloudflareTunnel → CloudflareTunnel) (c : Site) : option ((CloudflareTunnel + Err) * Site) :=
  match w_object (c_world c) with
  | None => Some (inr noObject, c)
  | Some t => Some (inl (f t), putWorld c (putObject (c_world c) (f t)))
  end.

Definition selectedBy (ns : string) (selector : gmap string string → bool) (c : Cloudflared) : Prop :=
  om_Namespace (cfd_ObjectMeta c) = ns ∧ selector (om_Labels (cfd_ObjectMeta c)) = true.
#[export] Instance selectedBy_dec ns selector c : Decision (selectedBy ns selector c).
Proof. unfold selectedBy. apply _. Defined.

Definition sameCloudflared (a b : Cloudflared) : Prop :=
  om_Namespace (cfd_ObjectMeta a) = om_Namespace (cfd_ObjectMeta b) ∧ om_Name (cfd_ObjectMeta a) = om_Name (cfd_ObjectMeta b).
#[export] Instance sameCloudflared_dec a b : Decision (sameCloudflared a b).
Proof. unfold sameCloudflared. apply _. Defined.

(** The Kubernetes API server and Cloudflare; what a tunnel that runs is asked
    for is left out. *)
Definition serve (values : NamespacedName → gmap string string + Err) (R : Type) (e : TunnelE R) (c : Site)
    : option (R * Site) :=
  let w := c_world c in
  match e in TunnelE R return option (R * Site) with
  | GetCloudflareTunnel _ => Some (match w_object w with Some t => inl t | None => inr noObject end, c)
  | PatchTunnel _ u => patched (metaOf u) c
  | PatchTunnelStatus _ u => patched (λ t, withStatus t (tun_Status u)) c
  | GetSecretSource key | GetConfigMapSource key => Some (values key, c)
  | ListCloudflareds ns selector => Some (inl (filter (selectedBy ns selector) (c_cfds c)), c)
  | DeleteCloudflared cf =>
    Some (None, {| c_world := w; c_routes := c_routes c; c_cfds := filter (λ x, ¬ sameCloudflared x cf) (c_cfds c) |})
  | ListRoutes _ _ => Some (inl (c_routes c), c)
  | DeleteRoute _ id =>
    Some (None, {| c_world := w; c_routes := filter (λ r, tn_ID r ≠ id) (c_routes c); c_cfds := c_cfds c |})
  | CreateTunnel p =>
    match filter (isNamed (np_AccountID p) (np_Name p)) (w_remotes w) with
    | [] => Some (inl (newRemote w p), putWorld c (putRemotes w (w_remotes w ++ [newRemote w p])))
    | _ => Some (inr (apiErr "conflict" 409), c)
    end
  | ListTunnels account name => Some (inl (filter (isNamed account name) (w_remotes w)), c)
  | DeleteTunnel id account =>
    match filter (isTunnel id account) (w_remotes w) with
    | [] => Some (Some (apiErr "not found" 404), c)
    | _ => Some (None, putWorld c (putRemotes w (filter (λ t, ¬ isTunnel id account t) (w_remotes w))))
    end
  | _ => None
  end.

(** Its answers are some of those the unkind world gives. *)
Lemma serve_sound values R (e : TunnelE R) c r c' :
  serve values R e c = Some (r, c') → answers R e (c_world c) r (c_world c').
Proof.
  assert (∀ f r c', patched f c = Some (r, c') → onObject f r (c_world c) (c_world c')) as Hpatch.
  { intros f r0 c0. unfold patched, onObject. destruct (w_object (c_world c)) as [t|]; intros [= <- <-]; [|by eauto].
    right. by split; [|left]. }
  destruct e; simpl; intros Hs; try discriminate; try (by injection Hs as _ <-); try (by apply Hpatch).
  - injection Hs as <- <-. split; [done|]. by destruct (w_object _).
  - destruct (filter (isNamed _ _) _) eqn:Ef; injection Hs as <- <-; [right|left; by eauto].
    assert (rt_ID (newRemote (c_world c) params) ∉ w_recorded (c_world c) ∪ list_to_set (ids (w_remotes (c_world c)))) as Hfresh
      by apply is_fresh.
    apply not_elem_of_union in Hfresh as [Hrec Hids]. rewrite elem_of_list_to_set in Hids.
    exists (newRemote (c_world c) params). by split_and!; [..|left].
  - injection Hs as <- <-. done.
  - destruct (filter (isTunnel _ _) _) as [|x l] eqn:Ef; injection Hs as <- <-; [left|by right].
    split; [done|]. eexists. split; [done|]. intros _ t Ht Hi.
    assert (t ∈ filter (isTunnel id account) (w_remotes (c_world c))) as Hin by by apply list_elem_of_filter.
    rewrite Ef in Hin. by apply elem_of_nil in Hin.
Qed.

Section life.
Context `{ObjectHelpers, !FinalizerLaws, SelectorError, LabelSelectors, Sha256, NetipPrefix}.
Context (sources : bool) (key : NamespacedName) (values : NamespacedName → gmap string string + Err).

Notation total_ := (total (serve values)).

(** One reconciliation, and several. *)
Definition round (c : Site) : option (Result * Site) := run (serve values) (Reconcile sources key) c.

Fixpoint rounds (n : nat) (c : Site) : option Site :=
  match n with
  | O => Some c
  | S n => '(_, c) ← round c; rounds n c
  end.

Definition objectOf (c : Site) : option CloudflareTunnel := w_object (c_world c).
Definition remotesOf (c : Site) : list RemoteTunnel := w_remotes (c_world c).

(** What a patch of the object leaves of the rest. *)
Definition restSame (c c' : Site) : Prop :=
  remotesOf c' = remotesOf c ∧ c_routes c' = c_routes c ∧ c_cfds c' = c_cfds c.

Lemma total_status t f (Q : CloudflareTunnel + Err → Site → Prop) c :
  objectOf c = Some t → gone t = false →
  (∀ c', objectOf c' = Some (withStatus t (tun_Status (f t))) → restSame c c' → Q (inl (withStatus t (tun_Status (f t)))) c') →
  total_ (patchSubResource t f) Q c.
Proof.
  intros Ht Hg HQ. unfold patchSubResource. eapply total_call; [simpl; unfold patched; unfold objectOf in Ht; by rewrite Ht|].
  apply HQ; [|done]. unfold objectOf. simpl. unfold gone, tunnelFinalizers in *. simpl. by rewrite Hg.
Qed.

Lemma total_meta t u (Q : CloudflareTunnel + Err → Site → Prop) c :
  objectOf c = Some t →
  (∀ c', objectOf c' = (if gone (metaOf u t) then None else Some (metaOf u t)) → restSame c c' → Q (inl (metaOf u t)) c') →
  total_ (call (PatchTunnel t u)) Q c.
Proof.
  intros Ht HQ. eapply total_call; [simpl; unfold patched; unfold objectOf in Ht; by rewrite Ht|]. by apply HQ.
Qed.

(** ** Creation *)

Lemma total_startConditions t (Q : CloudflareTunnel + Err → Site → Prop) c :
  objectOf c = Some t → gone t = false →
  (∀ t' c', objectOf c' = Some t' → sameTunnel t t' → restSame c c' → Q (inl t') c') →
  total_ (startConditions t) Q c.
Proof.
  intros Ht Hg HQ. unfold startConditions. destruct (tst_Conditions _); [|by apply total_ret, HQ].
  apply total_status; [done|done|]. intros c' Ht' Hr. by apply HQ.
Qed.

Lemma total_ensureFinalizer t (Q : CloudflareTunnel + Err → Site → Prop) c :
  objectOf c = Some t → om_DeletionTimestamp (tun_ObjectMeta t) = None →
  (∀ t' c', objectOf c' = Some t' → tun_Spec t' = tun_Spec t → tun_Status t' = tun_Status t →
     om_Name (tun_ObjectMeta t') = om_Name (tun_ObjectMeta t) →
     om_Namespace (tun_ObjectMeta t') = om_Namespace (tun_ObjectMeta t) →
     om_DeletionTimestamp (tun_ObjectMeta t') = None →
     cloudflareTunnelFinalizer ∈ tunnelFinalizers t' → restSame c c' → Q (inl t') c') →
  total_ (ensureFinalizer t) Q c.
Proof.
  intros Ht Hd HQ. unfold ensureFinalizer. destruct (ContainsFinalizer _ _) eqn:Ec.
  { apply contains_finalizer in Ec. by apply total_ret, HQ. }
  unfold patch. apply total_meta; [done|]. intros c' Ht' Hr. unfold gone in Ht'. simpl in Ht'.
  rewrite Hd in Ht'. apply HQ; try done. apply add_finalizer. by right.
Qed.

(** The tunnel is recorded. *)
Definition recordedAs (t : CloudflareTunnel) (r : RemoteTunnel) (c : Site) : Prop :=
  ∃ t', objectOf c = Some t' ∧ tst_Id (tun_Status t') = Some (rt_ID r) ∧ tst_AccountTag (tun_Status t') = rt_AccountTag r ∧
    tun_ObjectMeta t' = tun_ObjectMeta t ∧ tun_Spec t' = tun_Spec t.

Lemma total_recordTunnel t res message (Q : option Err → Site → Prop) c :
  objectOf c = Some t → gone t = false →
  (∀ c', recordedAs t res c' → restSame c c' → Q None c') → total_ (recordTunnel t res message) Q c.
Proof.
  intros Ht Hg HQ. unfold recordTunnel, patchErr. apply total_bind. apply total_status; [done|done|].
  intros c' Ht' Hr. apply total_ret, HQ; [|done]. by eexists.
Qed.

Lemma filter_single {A} (P : A → Prop) `{∀ a, Decision (P a)} l x y :
  length (filter P l) ≤ 1 → x ∈ filter P l → y ∈ filter P l → x = y.
Proof.
  intros Hl Hx Hy. destruct (filter P l) as [|a [|b l']]; simpl in Hl; [by apply elem_of_nil in Hx| |lia].
  apply list_elem_of_singleton in Hx, Hy. congruence.
Qed.

(** A tunnel of the name is created, unless there is one. *)
Lemma total_createTunnel t secret (Q : option Err → Site → Prop) c :
  objectOf c = Some t → gone t = false →
  t_ConfigSource (tun_Spec t) ∈ [CloudflareCloudflareTunnelConfigSource; LocalCloudflareTunnelConfigSource] →
  (∀ c, run (serve values) (tunnelSecret sources t) c = Some (inl secret, c)) →
  let named := isNamed (t_AccountId (tun_Spec t)) (effectiveName t) in
  length (filter named (remotesOf c)) ≤ 1 →
  (∀ r c', recordedAs t r c' → filter named (remotesOf c') = [r] →
     (remotesOf c' = remotesOf c ∨ remotesOf c' = remotesOf c ++ [r]) → Q None c') →
  total_ (createTunnel sources t) Q c.
Proof.
  intros Ht Hg Hsrc Hsec named Hone HQ. unfold createTunnel. apply total_bind.
  exists (inl secret), c. split; [apply Hsec|]. apply total_bind.
  assert (∃ src, mapConfigSrc (t_ConfigSource (tun_Spec t)) = Ret src) as [src ->].
  { apply elem_of_cons in Hsrc as [->|Hsrc]; [by eexists|]. apply list_elem_of_singleton in Hsrc as ->. by eexists. }
  apply total_ret, total_bind.
  destruct (filter named (remotesOf c)) as [|x l] eqn:Ef; unfold named, remotesOf in Ef.
  - eapply total_call; [simpl; by rewrite Ef|].
    apply total_recordTunnel; [done|done|]. intros c' Hrec (Hr & _). unfold remotesOf in Hr. simpl in Hr.
    eapply HQ; [exact Hrec| |right; exact Hr].
    unfold remotesOf, named. by rewrite Hr, filter_app, Ef, filter_cons_True.
  - eapply total_call; [simpl; by rewrite Ef|]. simpl. unfold adoptTunnel. apply total_bind.
    apply (total_call _ _ _ _ (inl (x :: l)) c); [simpl; by rewrite Ef|]. destruct l as [|y l]; [|simpl in Hone; lia].
    apply total_recordTunnel; [done|done|]. intros c' Hrec (Hr & _).
    eapply HQ; [exact Hrec| |left; exact Hr]. by rewrite Hr.
Qed.

(** C11. One reconciliation gives a new object its tunnel: the one of its name in
    its account when there is one already, as after a reconciliation that stopped
    before it recorded it, and a new one otherwise. Its status then names the
    only tunnel of the name, and the finalizer is on the object. *)
Theorem tunnel_established c t secret :
  objectOf c = Some t → om_DeletionTimestamp (tun_ObjectMeta t) = None → tst_Id (tun_Status t) = None →
  t_ConfigSource (tun_Spec t) ∈ [CloudflareCloudflareTunnelConfigSource; LocalCloudflareTunnelConfigSource] →
  (∀ c, run (serve values) (tunnelSecret sources t) c = Some (inl secret, c)) →
  let named := isNamed (t_AccountId (tun_Spec t)) (effectiveName t) in
  length (filter named (remotesOf c)) ≤ 1 →
  ∃ c' t' r, round c = Some (requeue (seconds 5), c') ∧ objectOf c' = Some t' ∧ tst_Id (tun_Status t') = Some (rt_ID r) ∧
    tst_AccountTag (tun_Status t') = rt_AccountTag r ∧ tun_Spec t' = tun_Spec t ∧
    cloudflareTunnelFinalizer ∈ om_Finalizers (tun_ObjectMeta t') ∧ filter named (remotesOf c') = [r] ∧
    (remotesOf c' = remotesOf c ∨ remotesOf c' = remotesOf c ++ [r]).
Proof.
  intros Ht Hd Hid Hsrc Hsec named Hone.
  assert (total_ (Reconcile sources key) (λ res c', res = requeue (seconds 5) ∧ ∃ t' r, objectOf c' = Some t' ∧
    tst_Id (tun_Status t') = Some (rt_ID r) ∧ tst_AccountTag (tun_Status t') = rt_AccountTag r ∧ tun_Spec t' = tun_Spec t ∧
    cloudflareTunnelFinalizer ∈ om_Finalizers (tun_ObjectMeta t') ∧ filter named (remotesOf c') = [r] ∧
    (remotesOf c' = remotesOf c ∨ remotesOf c' = remotesOf c ++ [r])) c) as (res & c' & Hr & -> & t' & r & Hpost);
    [|by exists c', t', r].
  unfold Reconcile. apply total_bind. eapply total_call; [reflexivity|].
  unfold objectOf in Ht. rewrite Ht, Hd. apply total_bind.
  apply total_startConditions; [done|unfold gone; by rewrite Hd|].
  intros t1 c1 Ht1 (Hid1 & _ & Hm1 & Hs1) (Hr1 & _). apply total_bind.
  apply total_ensureFinalizer; [done|by rewrite Hm1|].
  intros t2 c2 Ht2 Hs2 Hst2 Hn2 Hns2 Hd2 Hfin2 (Hr2 & _).
  assert (tst_Id (tun_Status t2) = None) as -> by (rewrite Hst2; unfold tunnelID in Hid1; congruence).
  apply total_bind.
  assert (tunnelSecret sources t2 = tunnelSecret sources t) as Hsame
    by (unfold tunnelSecret; by rewrite Hns2, Hm1, Hs2, Hs1).
  assert (effectiveName t2 = effectiveName t) as Hname by (unfold effectiveName; by rewrite Hn2, Hm1, Hs2, Hs1).
  apply (total_createTunnel t2 secret); [done|unfold gone; by rewrite Hd2|by rewrite Hs2, Hs1|by rewrite Hsame| |].
  - rewrite Hname, Hs2, Hs1, Hr2, Hr1. exact Hone.
  - rewrite Hname, Hs2, Hs1, Hr2, Hr1. intros r c3 (t3 & Ht3 & Hid3 & Hacc3 & Hm3 & Hs3) Hf Hor.
    apply total_ret. split; [done|]. exists t3, r. rewrite Hs3, Hm3, Hs2. by split_and!.
Qed.

(** ** Deletion *)

(** The Cloudflareds the deletion waits for. *)
Definition selected (t : CloudflareTunnel) (c : Site) : list Cloudflared :=
  match t_Cloudflared (tun_Spec t), tunnelSelector t with
  | Some _, inl selector => filter (selectedBy (om_Namespace (tun_ObjectMeta t)) selector) (c_cfds c)
  | _, _ => []
  end.

Definition owned (t : CloudflareTunnel) (cf : Cloudflared) : Prop :=
  HasOwnerReference (om_OwnerReferences (cfd_ObjectMeta cf)) (tun_ObjectMeta t) = inl true.

Lemma total_deleteOwned t cs (Q : option Err → Site → Prop) c :
  (∀ cf, cf ∈ cs → owned t cf) →
  (∀ c', c_world c' = c_world c → c_routes c' = c_routes c →
     (∀ x, x ∈ c_cfds c' ↔ x ∈ c_cfds c ∧ ∀ cf, cf ∈ cs → ¬ sameCloudflared x cf) → Q None c') →
  total_ (deleteOwned t cs) Q c.
Proof.
  intros Ho. induction cs as [|cf cs IH] in c, Ho |- *; intros HQ; simpl.
  { apply total_ret, HQ; [done|done|]. set_solver. }
  rewrite (Ho cf) by by left. eapply total_request; [reflexivity|]. apply IH; [set_solver|].
  simpl. intros c' Hw Hr Hx. apply HQ; [done|done|]. intros x. rewrite Hx, list_elem_of_filter.
  setoid_rewrite elem_of_cons. naive_solver.
Qed.

Lemma total_deleteAll t rs (Q : option Err → Site → Prop) c :
  (∀ c', c_world c' = c_world c → c_cfds c' = c_cfds c →
     (∀ r, r ∈ c_routes c' ↔ r ∈ c_routes c ∧ tn_ID r ∉ tn_ID <$> rs) → Q None c') →
  total_ (deleteAll t rs) Q c.
Proof.
  induction rs as [|r rs IH] in c |- *; intros HQ; simpl; [apply total_ret, HQ; [done|done|set_solver]|].
  eapply total_request; [reflexivity|]. apply IH. simpl. intros c' Hw Hc Hx. apply HQ; [done|done|].
  intros x. rewrite Hx, list_elem_of_filter, fmap_cons, not_elem_of_cons. tauto.
Qed.

Lemma total_deleteRoutes t id (Q : option Err → Site → Prop) c :
  (∀ c', c_world c' = c_world c → c_cfds c' = c_cfds c → c_routes c' = [] → Q None c') →
  total_ (deleteRoutes t id) Q c.
Proof.
  intros HQ. unfold deleteRoutes. apply total_bind. eapply total_call; [reflexivity|].
  apply total_deleteAll. intros c' Hw Hc Hr. apply HQ; [done|done|]. apply elem_of_nil_inv. intros r Hin.
  apply Hr in Hin as [Hin Hnot]. by apply Hnot, list_elem_of_fmap_2.
Qed.

(** What a tunnel that goes leaves at Cloudflare. *)
Definition remotesLeft (t : CloudflareTunnel) (remotes : list RemoteTunnel) : list RemoteTunnel :=
  match tst_Id (tun_Status t) with
  | None => remotes
  | Some id => filter (λ r, ¬ isTunnel id (tst_AccountTag (tun_Status t)) r) remotes
  end.

(** A tunnel that is being deleted, and that nothing but its Cloudflareds holds. *)
Definition deleting (t : CloudflareTunnel) : Prop :=
  is_Some (om_DeletionTimestamp (tun_ObjectMeta t)) ∧ tunnelFinalizers t = [cloudflareTunnelFinalizer].

Lemma deleting_there t : deleting t → gone t = false.
Proof. intros [_ Hf]. unfold gone. rewrite Hf. simpl. by rewrite andb_false_r. Qed.

Lemma total_removeFinalizer t (Q : Result → Site → Prop) c :
  objectOf c = Some t → deleting t →
  (∀ c', objectOf c' = None → restSame c c' → Q done_ c') → total_ (removeFinalizer t) Q c.
Proof.
  intros Ht [Hd Hf] HQ. unfold removeFinalizer, patchErr, patch. do 2 apply total_bind. apply total_meta; [done|].
  intros c' Ht' Hr. do 2 apply total_ret. apply HQ; [|done]. rewrite Ht'. unfold gone. simpl.
  rewrite bool_decide_eq_true_2 by done. unfold tunnelFinalizers in *. simpl. rewrite Hf.
  assert (RemoveFinalizer [cloudflareTunnelFinalizer] cloudflareTunnelFinalizer = []) as ->; [|done].
  apply elem_of_nil_inv. intros f [Hin Hne]%remove_finalizer. by apply list_elem_of_singleton in Hin.
Qed.

Lemma deleting_status t st : deleting t → deleting (withStatus t st).
Proof. done. Qed.

Lemma filter_none {A} (P : A → Prop) `{∀ a, Decision (P a)} l : filter P l = [] → filter (λ a, ¬ P a) l = l.
Proof.
  induction l as [|x l IH]; [done|]. rewrite filter_cons. destruct (decide (P x)) as [|Hx]; [done|]. intros Hn.
  rewrite filter_cons_True by done. by rewrite IH.
Qed.

(** The tunnel is deleted, whether or not Cloudflare still has it. *)
Lemma total_finalizeTunnel t (Q : Result → Site → Prop) c :
  objectOf c = Some t → deleting t →
  (∀ c', objectOf c' = None → remotesOf c' = remotesLeft t (remotesOf c) →
     (is_Some (tst_Id (tun_Status t)) → c_routes c' = []) → c_cfds c' = c_cfds c → Q done_ c') →
  total_ (finalizeTunnel t) Q c.
Proof.
  intros Ht Hd HQ. unfold finalizeTunnel, remotesLeft in *. destruct (tst_Id (tun_Status t)) as [id|] eqn:Hid.
  2:{ apply total_removeFinalizer; [done|done|]. intros c' Ho (Hr & _ & Hc). apply HQ; [done|done|by intros []|done]. }
  apply total_bind, total_deleteRoutes. intros c1 Hw1 Hc1 Hr1. apply total_bind. unfold deleteTunnel. apply total_bind.
  apply total_status; [unfold objectOf; by rewrite Hw1|by apply deleting_there|].
  intros c2 Ht2 (Hr2 & Hro2 & Hc2). apply total_bind.
  assert (remotesOf c2 = remotesOf c) as Hrem by (rewrite Hr2; unfold remotesOf; by rewrite Hw1).
  simpl. unfold remotesOf in *.
  destruct (filter (isTunnel id (tst_AccountTag (tun_Status t))) (w_remotes (c_world c))) as [|x l] eqn:Ef.
  - eapply total_call; [simpl; by rewrite Hrem, Ef|]. apply total_ret.
    apply total_removeFinalizer; [done|by apply deleting_status|].
    intros c3 Ho3 (Hr3 & Hro3 & Hc3). apply HQ; [done| |congruence|congruence].
    unfold remotesOf in Hr3. rewrite Hr3, Hrem. by rewrite filter_none.
  - eapply total_call; [simpl; by rewrite Hrem, Ef|]. apply total_ret.
    apply total_removeFinalizer; [done|by apply deleting_status|].
    intros c3 Ho3 (Hr3 & Hro3 & Hc3). apply HQ; [done| |simpl in *; congruence|simpl in *; congruence].
    unfold remotesOf in Hr3. by rewrite Hr3.
Qed.

(** The object's Cloudflareds go first. *)
Lemma total_finalize t (Q : Result → Site → Prop) c :
  objectOf c = Some t → deleting t → (∀ cf, cf ∈ selected t c → owned t cf) →
  (selected t c = [] → total_ (finalizeTunnel t) Q c) →
  (selected t c ≠ [] → ∀ c' st, objectOf c' = Some (withStatus t st) → tst_Id st = tst_Id (tun_Status t) →
     tst_AccountTag st = tst_AccountTag (tun_Status t) → remotesOf c' = remotesOf c → c_routes c' = c_routes c →
     (∀ x, x ∈ c_cfds c' ↔ x ∈ c_cfds c ∧ ∀ cf, cf ∈ selected t c → ¬ sameCloudflared x cf) →
     Q (requeue (seconds 5)) c') →
  total_ (finalize t) Q c.
Proof.
  intros Ht Hd Ho Hnone Hsome. unfold finalize, selected in *.
  destruct (t_Cloudflared (tun_Spec t)); [|by apply Hnone]. destruct (tunnelSelector t) as [sel|]; [|by apply Hnone].
  apply total_bind. unfold listCloudflareds. apply total_bind. eapply total_call; [reflexivity|]. apply total_ret.
  destruct (filter (selectedBy _ _) (c_cfds c)) as [|cf cfs] eqn:Ef; [by apply Hnone|].
  apply total_bind. unfold deleteCloudflareds. apply total_bind.
  apply total_status; [done|by apply deleting_there|]. intros c1 Ht1 (Hr1 & Hro1 & Hc1).
  apply total_deleteOwned; [exact Ho|]. intros c2 Hw2 Hro2 Hx2. apply total_ret.
  apply (Hsome ltac:(done) c2 (tun_Status (setCondition (mkCondition typeDegradedCloudflareTunnel ConditionTrue
    reasonReconciling "Deleting owned Cloudflared instances") t))); try done.
  - unfold objectOf in *. by rewrite Hw2, Ht1.
  - unfold remotesOf in *. by rewrite Hw2.
  - by rewrite Hro2.
  - by rewrite <- Hc1.
Qed.

Lemma total_Reconcile_deleting t (Q : Result → Site → Prop) c :
  objectOf c = Some t → deleting t → total_ (finalize t) Q c → total_ (Reconcile sources key) Q c.
Proof.
  intros Ht [[ts Hd] _] HQ. unfold Reconcile. apply total_bind. eapply total_call; [reflexivity|].
  unfold objectOf in Ht. by rewrite Ht, Hd.
Qed.

(** Once it is gone there is nothing to do. *)
Lemma round_gone c : objectOf c = None → round c = Some (done_, c).
Proof. intros Hn. unfold objectOf in Hn. unfold round, Reconcile. simpl. by rewrite Hn. Qed.

Lemma selected_none t t' c c' :
  tun_Spec t' = tun_Spec t → tun_ObjectMeta t' = tun_ObjectMeta t →
  (∀ x, x ∈ c_cfds c' ↔ x ∈ c_cfds c ∧ ∀ cf, cf ∈ selected t c → ¬ sameCloudflared x cf) → selected t' c' = [].
Proof.
  intros Hs Hm Hx. unfold selected, tunnelSelector in *. rewrite Hs, Hm.
  destruct (t_Cloudflared (tun_Spec t)) as [cf|]; [|done].
  destruct (match tcd_Selector cf with Some _ => _ | None => _ end) as [sel|]; [|done].
  apply elem_of_nil_inv. intros x [Hsel Hin]%list_elem_of_filter. apply Hx in Hin as [Hin Hnot].
  apply (Hnot x); [by apply list_elem_of_filter|done].
Qed.

(** C12. Two reconciliations at most complete the deletion of a tunnel whose
    Cloudflareds are its own: they are deleted, and then the tunnel and its
    private routes are gone from Cloudflare, when it was there at all, and the
    object with them. Other tunnels are left, as are other Cloudflareds, and
    another reconciliation does nothing. *)
Theorem tunnel_released c t :
  objectOf c = Some t → is_Some (om_DeletionTimestamp (tun_ObjectMeta t)) →
  om_Finalizers (tun_ObjectMeta t) = [cloudflareTunnelFinalizer] →
  (∀ cf, cf ∈ selected t c → owned t cf) →
  ∃ c', rounds 2 c = Some c' ∧ objectOf c' = None ∧ remotesOf c' = remotesLeft t (remotesOf c) ∧
    (is_Some (tst_Id (tun_Status t)) → c_routes c' = []) ∧
    (∀ x, x ∈ c_cfds c' ↔ x ∈ c_cfds c ∧ ∀ cf, cf ∈ selected t c → ¬ sameCloudflared x cf) ∧
    round c' = Some (done_, c').
Proof.
  intros Ht Hdel Hfin Ho. assert (deleting t) as Hd by done.
  assert (total_ (Reconcile sources key) (λ _ c1, total_ (Reconcile sources key) (λ _ c',
    objectOf c' = None ∧ remotesOf c' = remotesLeft t (remotesOf c) ∧
    (is_Some (tst_Id (tun_Status t)) → c_routes c' = []) ∧
    (∀ x, x ∈ c_cfds c' ↔ x ∈ c_cfds c ∧ ∀ cf, cf ∈ selected t c → ¬ sameCloudflared x cf)) c1) c)
    as (r1 & c1 & Hr1 & r2 & c2 & Hr2 & Hn & Hrem & Hro & Hx).
  - apply (total_Reconcile_deleting t); [done|done|]. apply total_finalize; [done|done|done| |].
    + intros Hnone. apply total_finalizeTunnel; [done|done|]. intros c1 Hn1 Hr1 Hro1 Hc1.
      exists done_, c1. split; [by apply round_gone|]. split_and!; [done|done|done|].
      rewrite Hnone, Hc1. set_solver.
    + intros Hne c1 st Ht1 Hid Hacc Hr1 Hro1 Hx1. set (t1 := withStatus t st) in *.
      assert (selected t1 c1 = []) as Hnone by by apply (selected_none t t1 c c1).
      apply (total_Reconcile_deleting t1); [done|done|]. apply total_finalize; [done|done|by rewrite Hnone; set_solver| |done].
      intros _. apply total_finalizeTunnel; [done|done|]. intros c2 Hn2 Hr2 Hro2 Hc2. split_and!; [done| | |by rewrite Hc2].
      * rewrite Hr2, Hr1. unfold remotesLeft, t1. simpl. by rewrite Hid, Hacc.
      * unfold t1 in Hro2. simpl in Hro2. by rewrite <- Hid.
  - exists c2. fold (round c) in Hr1. fold (round c1) in Hr2. cbn [rounds]. rewrite Hr1. cbn [mbind option_bind].
    rewrite Hr2. split_and!; [done|done|done|done|done|by apply round_gone].
Qed.
End life.

(** ** Examples *)

#[local] Existing Instances sampleHelpers sample_finalizer_laws sampleSelectorError matchLabels dnsSha256 samplePrefix.

Definition noValues : NamespacedName → gmap string string + Err := λ _, inr noObject.
Definition tunnelKey : NamespacedName := {| nn_Namespace := "default"; nn_Name := "tunnel" |}.

Definition oneTunnel (t : CloudflareTunnel) (remotes : list RemoteTunnel) (routes : list Teamnet) (cfds : list Cloudflared) : Site :=
  {| c_world := {| w_object := Some t; w_remotes := remotes; w_recorded := option_to_set (tunnelID t) |};
     c_routes := routes; c_cfds := cfds |}.

(** A tunnel of the name is there already, and is taken over. *)
Lemma tunnel_established_witness :
  ∃ c' t', round true tunnelKey noValues
      (oneTunnel (sampleTunnel None [] []) [sampleRemote "taken" "tunnel" "cloudflare"] [] []) = Some (requeue (seconds 5), c') ∧
    objectOf c' = Some t' ∧ is_Some (tst_Id (tun_Status t')).
Proof.
  destruct (tunnel_established true tunnelKey noValues
    (oneTunnel (sampleTunnel None [] []) [sampleRemote "taken" "tunnel" "cloudflare"] [] [])
    (sampleTunnel None [] []) None) as (c' & t' & r & Hr & Ho & Hid & _);
    [done|done|done|by left|done|vm_compute; lia|].
  exists c', t'. split; [exact Hr|]. split; [exact Ho|by exists (rt_ID r)].
Defined.

(** A tunnel that is being deleted, its Cloudflared and another tunnel. *)
Definition deletedTunnel : CloudflareTunnel :=
  let m := tun_ObjectMeta cloudflaredTunnel in
  {| tun_ObjectMeta := {| om_Name := om_Name m; om_Namespace := om_Namespace m; om_UID := om_UID m;
       om_ResourceVersion := om_ResourceVersion m; om_Generation := om_Generation m;
       om_CreationTimestamp := om_CreationTimestamp m; om_DeletionTimestamp := Some 1%Z; om_Labels := om_Labels m;
       om_Annotations := om_Annotations m; om_OwnerReferences := []; om_Finalizers := [cloudflareTunnelFinalizer] |};
     tun_Spec := tun_Spec cloudflaredTunnel; tun_Status := tun_Status cloudflaredTunnel |}.

Definition ownCloudflared : Cloudflared :=
  {| cfd_ObjectMeta := {| om_Name := "tunnel"; om_Namespace := "default"; om_UID := "u1"; om_ResourceVersion := "1";
       om_Generation := 1; om_CreationTimestamp := 0; om_DeletionTimestamp := None; om_Labels := <["app" := "web"]> ∅;
       om_Annotations := ∅; om_Finalizers := [];
       om_OwnerReferences := [{| or_Kind := "CloudflareTunnel"; or_Name := "tunnel"; or_Controller := true;
                                 or_UID := om_UID (tun_ObjectMeta cloudflaredTunnel) |}] |};
     cfd_Spec := {| cd_Config := Some (tunnelConfig "id" "account"); cd_Kind := DeploymentCloudflaredKind;
                    cd_Replicas := None; cd_Template := None; cd_Version := "" |};
     cfd_Status := {| cds_Kind := None; cds_TunnelId := None; cds_Conditions := [] |} |}.

Definition deletedCluster : Site :=
  oneTunnel deletedTunnel [sampleRemote "id" "tunnel" "local"; sampleRemote "other" "other" "local"]
    [{| tn_ID := "r1"; tn_Network := "10.1.0.0/16"; tn_VirtualNetworkID := "v0" |}] [ownCloudflared].

Lemma tunnel_released_witness :
  selected deletedTunnel deletedCluster = [ownCloudflared] ∧
  ∃ c', rounds true tunnelKey noValues 2 deletedCluster = Some c' ∧ objectOf c' = None ∧
    remotesOf c' = [sampleRemote "other" "other" "local"] ∧ c_routes c' = [].
Proof.
  assert (selected deletedTunnel deletedCluster = [ownCloudflared]) as Hs by (vm_compute; reflexivity).
  split; [exact Hs|].
  destruct (tunnel_released true tunnelKey noValues deletedCluster deletedTunnel) as (c' & Hr & Hn & Hrem & Hro & _);
    [vm_compute; reflexivity|by exists 1%Z|vm_compute; reflexivity| |].
  { rewrite Hs. intros cf ->%list_elem_of_singleton. vm_compute. reflexivity. }
  exists c'. split; [exact Hr|]. split; [exact Hn|]. split; [exact Hrem|]. apply Hro. by exists "id".
Defined.

(** ** Worlds that are reached *)

Definition noWorld : World := {| w_object := None; w_remotes := []; w_recorded := ∅ |}.
Definition inWorld (w : World) : Site := {| c_world := w; c_routes := []; c_cfds := [] |}.
Definition newTunnel : CloudflareTunnel := sampleTunnel None [] [].

(** The world once a new object was reconciled. *)
Definition servedWorld : World :=
  c_world (runFor (serve noValues) 100 (Reconcile true tunnelKey) (inWorld (putObject noWorld newTunnel))).

Lemma reconciling values n w :
  leaves answers (Reconcile true tunnelKey) w (c_world (runFor (serve values) n (Reconcile true tunnelKey) (inWorld w))).
Proof. exact (runFor_leaves answers (serve values) c_world (λ R e c r c', serve_sound values R e c r c') n _ (inWorld w)). Qed.

Lemma never_leaks_witness :
  ∃ r t, w_remotes servedWorld = [r] ∧ rt_ID r ∈ w_recorded servedWorld ∧ w_object servedWorld = Some t ∧
    tst_Id (tun_Status t) = Some (rt_ID r).
Proof.
  assert (reachable true tunnelKey servedWorld) as Hw.
  { eapply reachable_reconcile; [|apply reconciling]. apply (reachable_move _ _ noWorld); [apply (reachable_init _ _ []), NoDup_nil_2|].
    apply moves_create; reflexivity. }
  destruct (never_leaks true tunnelKey servedWorld Hw) as [Hg _].
  assert (∃ r, w_remotes servedWorld = [r] ∧ rt_ID r ∈ w_recorded servedWorld) as (r & Hr & Hrec).
  { eexists. split; [vm_compute; reflexivity|]. apply (bool_decide_eq_true_1 _). vm_compute. reflexivity. }
  destruct (Hg r) as (t & Ht & Hid & _); [rewrite Hr; by left|exact Hrec|].
  exists r, t. split; [exact Hr|]. split; [exact Hrec|]. split; [exact Ht|exact Hid].
Defined.

(** A tunnel the operator has made but not recorded is leaked when its object
    goes: the reconciliation that made it stops before the status is written,
    the object is deleted, and as its status names no tunnel the finalizer is
    released with nothing to clean up. *)
Example unrecorded_leaks :
  ∃ w1 w2 w3 w4 r, move noWorld w1 ∧ leaves answers (Reconcile true tunnelKey) w1 w2 ∧ move w2 w3 ∧
    leaves answers (Reconcile true tunnelKey) w3 w4 ∧ w_object w4 = None ∧ w_remotes noWorld = [] ∧ w_remotes w4 = [r].
Proof.
  set (w1 := putObject noWorld newTunnel).
  set (w2 := c_world (runFor (serve noValues) 4 (Reconcile true tunnelKey) (inWorld w1))).
  set (t2 := match w_object w2 with Some t => t | None => newTunnel end).
  set (t3 := {| tun_ObjectMeta := tun_ObjectMeta deletedTunnel; tun_Spec := tun_Spec t2; tun_Status := tun_Status t2 |}).
  set (w3 := putObject w2 t3).
  set (w4 := c_world (runFor (serve noValues) 100 (Reconcile true tunnelKey) (inWorld w3))).
  exists w1, w2, w3, w4. eexists. split; [apply moves_create; reflexivity|]. split; [apply reconciling|].
  split; [apply (moves_delete w2 t2); [vm_compute; reflexivity..|by exists 1%Z]|]. split; [apply reconciling|].
  vm_compute. by split_and!.
Qed.
