(* ===== verification/RecordCtl.v ===== *)
(** * The DnsRecord controller (internal/controller/dnsrecord_controller.go)

    [Reconcile] of DnsRecordReconciler and what it calls: creating or adopting
    the record upstream, keeping it as the spec says, and deleting it. A time to
    live and a CAA flag, which the client library holds as [float64], stay the
    integers of the spec. *)
From S2P Require Import Prelude GatewayAPI Samples API Effects Helpers TunnelApi Dns.

Definition dnsRecordFinalizer := "dnsrecord.cloudflare.unmango.dev/finalizer".

(** ** The Cloudflare API's records *)

(** [dns.RecordResponse], as far as it is read. *)
Record RemoteRecord := {
  rr_ID : string;
  rr_Comment : string;
  rr_Content : string;
  rr_Name : string;
  rr_Type : string;
}.

#[export] Instance RemoteRecord_eq_dec : EqDecision RemoteRecord.
Proof. solve_decision. Defined.

(** The fields the five parameters of cloudflare-go share. *)
Record RecordFields := {
  rf_Comment : string;
  rf_Name : string;
  rf_Proxied : bool;
  rf_Settings : RecordSettings;
  rf_Tags : list string;
  rf_TTL : Z;
  rf_Type : string;
}.

Inductive RecordParam :=
  | AAAARecordParam (content : string) (fields : RecordFields)
  | ARecordParam (content : string) (fields : RecordFields)
  | CAARecordParam (data : CAARecordData) (fields : RecordFields)
  | CNAMERecordParam (content : string) (fields : RecordFields)
  | TXTRecordParam (content : string) (fields : RecordFields).

(** ** Requests *)

(** A write that succeeds or fails is answered by [option Err], a patch by the
    object the server holds afterwards. [NilDeref] is the panic of a nil
    pointer, which has no answer. *)
Inductive RecordE : Type → Type :=
  | GetDnsRecord (key : NamespacedName) : RecordE (DnsRecord + Err)
  | PatchDnsRecord (original updated : DnsRecord) : RecordE (DnsRecord + Err)
  | PatchDnsRecordStatus (original updated : DnsRecord) : RecordE (DnsRecord + Err)
  | GetRecordTunnel (key : NamespacedName) : RecordE (CloudflareTunnel + Err)
  | ListAllDnsRecords : RecordE (list DnsRecord + Err)
  | ListRemote (zone name type : string) : RecordE (list RemoteRecord + Err)
  | GetRemote (zone id : string) : RecordE (RemoteRecord + Err)
  | CreateRemote (zone : string) (body : option RecordParam) : RecordE (RemoteRecord + Err)
  | UpdateRemote (zone id : string) (body : option RecordParam) : RecordE (RemoteRecord + Err)
  | DeleteRemote (zone id : string) : RecordE (option Err)
  | NilDeref : RecordE Empty_set.

(** [patch] and [patchSubResource] of clientutil.go. *)
Definition patchRecord (r : DnsRecord) (update : DnsRecord → DnsRecord) : prog RecordE (DnsRecord + Err) :=
  call (PatchDnsRecord r (update r)).

Definition patchRecordStatus (r : DnsRecord) (update : DnsRecordStatus → DnsRecordStatus)
    : prog RecordE (DnsRecord + Err) :=
  call (PatchDnsRecordStatus r
    {| dns_ObjectMeta := dns_ObjectMeta r; dns_Spec := dns_Spec r; dns_Status := update (dns_Status r) |}).

(** ** The record as it is written *)

Definition toRecordTags (tags : list string) : list string := (λ t, t) <$> tags.

Definition aaaaParam (r : AAAARecord) : RecordParam :=
  AAAARecordParam (aaaa_Content r)
    {| rf_Comment := aaaa_Comment r; rf_Name := aaaa_Name r; rf_Proxied := aaaa_Proxied r;
       rf_Settings := {| rs_Ipv4Only := rs_Ipv4Only (aaaa_Settings r);
                         rs_Ipv6Only := rs_Ipv6Only (aaaa_Settings r) |};
       rf_Tags := toRecordTags (aaaa_Tags r); rf_TTL := aaaa_Ttl r; rf_Type := aaaa_Type r |}.

Definition aParam (r : ARecord) : RecordParam :=
  ARecordParam (a_Content r)
    {| rf_Comment := a_Comment r; rf_Name := a_Name r; rf_Proxied := a_Proxied r;
       rf_Settings := {| rs_Ipv4Only := rs_Ipv4Only (a_Settings r);
                         rs_Ipv6Only := rs_Ipv6Only (a_Settings r) |};
       rf_Tags := toRecordTags (a_Tags r); rf_TTL := a_Ttl r; rf_Type := a_Type r |}.

(** The content of a CAA record is not sent. *)
Definition caaParam (r : CAARecord) : RecordParam :=
  CAARecordParam {| cad_Flags := cad_Flags (caa_Data r); cad_Tag := cad_Tag (caa_Data r);
                    cad_Value := cad_Value (caa_Data r) |}
    {| rf_Comment := caa_Comment r; rf_Name := caa_Name r; rf_Proxied := caa_Proxied r;
       rf_Settings := {| rs_Ipv4Only := rs_Ipv4Only (caa_Settings r);
                         rs_Ipv6Only := rs_Ipv6Only (caa_Settings r) |};
       rf_Tags := toRecordTags (caa_Tags r); rf_TTL := caa_Ttl r; rf_Type := caa_Type r |}.

(** Of the settings of a CNAME record, [flattenCname] is not sent. *)
Definition cnameParam (r : CNAMERecord) : RecordParam :=
  CNAMERecordParam (cn_Content r)
    {| rf_Comment := cn_Comment r; rf_Name := cn_Name r; rf_Proxied := cn_Proxied r;
       rf_Settings := {| rs_Ipv4Only := rs_Ipv4Only (cns_RecordSettings (cn_Settings r));
                         rs_Ipv6Only := rs_Ipv6Only (cns_RecordSettings (cn_Settings r)) |};
       rf_Tags := toRecordTags (cn_Tags r); rf_TTL := cn_Ttl r; rf_Type := cn_Type r |}.

Definition txtParam (r : TXTRecord) : RecordParam :=
  TXTRecordParam (txt_Content r)
    {| rf_Comment := txt_Comment r; rf_Name := txt_Name r; rf_Proxied := txt_Proxied r;
       rf_Settings := {| rs_Ipv4Only := rs_Ipv4Only (txt_Settings r);
                         rs_Ipv6Only := rs_Ipv6Only (txt_Settings r) |};
       rf_Tags := toRecordTags (txt_Tags r); rf_TTL := txt_Ttl r; rf_Type := txt_Type r |}.

(** The body of a create; nil when the spec holds no record. *)
Definition toCloudflareNew (spec : DnsRecordData) : option RecordParam :=
  match dr_AAAARecord spec with
  | Some r => Some (aaaaParam r)
  | None =>
    match dr_ARecord spec with
    | Some r => Some (aParam r)
    | None =>
      match dr_CAARecord spec with
      | Some r => Some (caaParam r)
      | None =>
        match dr_CNAMERecord spec with
        | Some r => Some (cnameParam r)
        | None =>
          match dr_TXTRecord spec with
          | Some r => Some (txtParam r)
          | None => None
          end
        end
      end
    end
  end.

(** The body of an update, which the code writes out a second time. *)
Definition toCloudflareUpdate (spec : DnsRecordData) : option RecordParam :=
  match dr_AAAARecord spec with
  | Some r => Some (aaaaParam r)
  | None =>
    match dr_ARecord spec with
    | Some r => Some (aParam r)
    | None =>
      match dr_CAARecord spec with
      | Some r => Some (caaParam r)
      | None =>
        match dr_CNAMERecord spec with
        | Some r => Some (cnameParam r)
        | None =>
          match dr_TXTRecord spec with
          | Some r => Some (txtParam r)
          | None => None
          end
        end
      end
    end
  end.

(** The name and type that identify the record within its zone. *)
Definition recordKey (record : DnsRecord) : string * string :=
  let spec := ds_Record (dns_Spec record) in
  match dr_AAAARecord spec, dr_ARecord spec, dr_CAARecord spec, dr_CNAMERecord spec, dr_TXTRecord spec with
  | Some r, _, _, _, _ => (aaaa_Name r, aaaa_Type r)
  | None, Some r, _, _, _ => (a_Name r, a_Type r)
  | None, None, Some r, _, _ => (caa_Name r, caa_Type r)
  | None, None, None, Some r, _ => (cn_Name r, cn_Type r)
  | None, None, None, None, Some r => (txt_Name r, txt_Type r)
  | None, None, None, None, None => ("", "")
  end.

(** [ptr.Equal] of a status field and a field of the spec. *)
Definition ptrEqual (p : option string) (s : string) : bool := bool_decide (p = Some s).

Definition compared (st : DnsRecordStatus) (comment content name type : string) : list bool :=
  [ptrEqual (dst_Comment st) comment; ptrEqual (dst_Content st) content;
   ptrEqual (dst_Name st) name; ptrEqual (dst_Type st) type].

(** [diff]: the comparisons of the last record type the spec has stand. *)
Definition diff (spec : DnsRecordData) (status : DnsRecordStatus) : bool :=
  let conditions := [] in
  let conditions := match dr_AAAARecord spec with
    | Some r => compared status (aaaa_Comment r) (aaaa_Content r) (aaaa_Name r) (aaaa_Type r)
    | None => conditions end in
  let conditions := match dr_ARecord spec with
    | Some r => compared status (a_Comment r) (a_Content r) (a_Name r) (a_Type r)
    | None => conditions end in
  let conditions := match dr_CAARecord spec with
    | Some r => compared status (caa_Comment r) (caa_Content r) (caa_Name r) (caa_Type r)
    | None => conditions end in
  let conditions := match dr_CNAMERecord spec with
    | Some r => compared status (cn_Comment r) (cn_Content r) (cn_Name r) (cn_Type r)
    | None => conditions end in
  let conditions := match dr_TXTRecord spec with
    | Some r => compared status (txt_Comment r) (txt_Content r) (txt_Name r) (txt_Type r)
    | None => conditions end in
  existsb negb conditions.

(** ** Updates of the object *)

Definition withRecordFinalizers (r : DnsRecord) (fs : list string) : DnsRecord :=
  let m := dns_ObjectMeta r in
  {| dns_ObjectMeta :=
       {| om_Name := om_Name m; om_Namespace := om_Namespace m; om_UID := om_UID m;
          om_ResourceVersion := om_ResourceVersion m; om_Generation := om_Generation m;
          om_CreationTimestamp := om_CreationTimestamp m; om_DeletionTimestamp := om_DeletionTimestamp m;
          om_Labels := om_Labels m; om_Annotations := om_Annotations m;
          om_OwnerReferences := om_OwnerReferences m; om_Finalizers := fs |};
     dns_Spec := dns_Spec r; dns_Status := dns_Status r |}.

(** What the three status patches copy from the API's answer. *)
Definition observed (res : RemoteRecord) : DnsRecordStatus :=
  {| dst_Id := Some (rr_ID res); dst_Name := Some (rr_Name res); dst_Comment := Some (rr_Comment res);
     dst_Content := Some (rr_Content res); dst_Type := Some (rr_Type res) |}.

Definition forgetId (st : DnsRecordStatus) : DnsRecordStatus :=
  {| dst_Id := None; dst_Name := dst_Name st; dst_Comment := dst_Comment st;
     dst_Content := dst_Content st; dst_Type := dst_Type st |}.

Definition withContent (c : CNAMERecord) (content : string) : CNAMERecord :=
  {| cn_Comment := cn_Comment c; cn_Content := content; cn_TunnelRef := cn_TunnelRef c;
     cn_Name := cn_Name c; cn_Proxied := cn_Proxied c; cn_Settings := cn_Settings c;
     cn_Tags := cn_Tags c; cn_Ttl := cn_Ttl c; cn_Type := cn_Type c |}.

Definition withCNAME (spec : DnsRecordData) (c : CNAMERecord) : DnsRecordData :=
  {| dr_ARecord := dr_ARecord spec; dr_AAAARecord := dr_AAAARecord spec; dr_CAARecord := dr_CAARecord spec;
     dr_CNAMERecord := Some c; dr_TXTRecord := dr_TXTRecord spec |}.

(** ** Operations *)

Section controller.
Context `{ObjectHelpers}.

Definition isDeleted (m : ObjectMeta) : bool := bool_decide (is_Some (om_DeletionTimestamp m)).

(** Another record that tracks the same record of the same zone. *)
Definition tracksSame (record other : DnsRecord) : bool :=
  negb (str_eqb (om_UID (dns_ObjectMeta other)) (om_UID (dns_ObjectMeta record))) &&
  negb (isDeleted (dns_ObjectMeta other)) &&
  str_eqb (ds_ZoneId (dns_Spec other)) (ds_ZoneId (dns_Spec record)) &&
  bool_decide (dst_Id (dns_Status other) = dst_Id (dns_Status record)).

Definition objectKey (r : DnsRecord) : NamespacedName :=
  {| nn_Namespace := om_Namespace (dns_ObjectMeta r); nn_Name := om_Name (dns_ObjectMeta r) |}.

(** [adopter]: empty when there is none. *)
Definition adopter (record : DnsRecord) : prog RecordE (string + Err) :=
  do records <- call ListAllDnsRecords;
  Ret (match records with
       | inr err => inr (wrapErr "listing DnsRecords" err)
       | inl items =>
         inl (match List.find (tracksSame record) items with
              | Some other => nn_string (objectKey other)
              | None => ""
              end)
       end).

Definition releaseDnsRecord (record : DnsRecord) : prog RecordE (option Err) :=
  if negb (ContainsFinalizer (om_Finalizers (dns_ObjectMeta record)) dnsRecordFinalizer) then Ret None
  else
    do patched <- patchRecord record (λ obj,
      withRecordFinalizers obj (RemoveFinalizer (om_Finalizers (dns_ObjectMeta obj)) dnsRecordFinalizer));
    Ret (k8s_IgnoreNotFound (match patched with inl _ => None | inr err => Some err end)).

(** [resolve]: the record to write, and whether its tunnel has an id. *)
Definition resolve (record : DnsRecord) : prog RecordE ((DnsRecordData * bool) + Err) :=
  let spec := ds_Record (dns_Spec record) in
  match dr_CNAMERecord spec with
  | None => Ret (inl (spec, true))
  | Some cname =>
    match cn_TunnelRef cname with
    | None => Ret (inl (spec, true))
    | Some ref =>
      let key := {| nn_Namespace := om_Namespace (dns_ObjectMeta record); nn_Name := dtr_Name ref |} in
      do got <- call (GetRecordTunnel key);
      Ret (match got with
           | inr err =>
             match k8s_IgnoreNotFound (Some err) with Some err => inr err | None => inl (spec, false) end
           | inl tunnel =>
             match tst_Id (tun_Status tunnel) with
             | None => inl (spec, false)
             | Some id => inl (withCNAME spec (withContent cname (tunnelTarget id)), true)
             end
           end)
    end
  end.

(** Whether a record refers to a tunnel by name. *)
Definition refersToTunnel (name : string) (record : DnsRecord) : bool :=
  match dr_CNAMERecord (ds_Record (dns_Spec record)) with
  | Some cname =>
    match cn_TunnelRef cname with Some ref => str_eqb (dtr_Name ref) name | None => false end
  | None => false
  end.

(** Lists of records by namespace, that the watch of tunnels is mapped with. *)
Inductive RecordListE : Type → Type :=
  | ListDnsRecordsIn (ns : string) : RecordListE (list DnsRecord + Err).

(** [recordsForTunnel]: the records to reconcile when a tunnel changes. *)
Definition recordsForTunnel (obj : ObjectMeta) : prog RecordListE (list NamespacedName) :=
  do records <- call (ListDnsRecordsIn (om_Namespace obj));
  Ret (match records with
       | inr _ => []
       | inl items => objectKey <$> List.filter (refersToTunnel (om_Name obj)) items
       end).

(** The part of [Reconcile] for an object that is being deleted. *)
Definition finalizeRecord (record : DnsRecord) : prog RecordE Result :=
  let released := do err <- releaseDnsRecord record; Ret {| requeueAfter := 0; result_err := err |} in
  match dst_Id (dns_Status record) with
  | None => released
  | Some id =>
    do adopter <- adopter record;
    match adopter with
    | inr err => Ret (failed err)
    | inl adopter =>
      if negb (str_eqb adopter "") then released
      else
        do err <- call (DeleteRemote (ds_ZoneId (dns_Spec record)) id);
        match cf_IgnoreNotFound err with
        | Some err => Ret (failed err)
        | None => released
        end
    end
  end.

(** The part for a record that is not tracked upstream: creates or adopts it. *)
Definition createRecord (record : DnsRecord) (spec : DnsRecordData) : prog RecordE Result :=
  let '(name, typ) := recordKey record in
  let zone := ds_ZoneId (dns_Spec record) in
  let track res :=
    do patched <- patchRecordStatus record (λ _, observed res);
    Ret (match patched with inr err => failed err | inl _ => requeue (seconds 5) end) in
  do existing <- call (ListRemote zone name typ);
  match existing with
  | inr err => Ret (failed err)
  | inl [] =>
    do res <- call (CreateRemote zone (toCloudflareNew spec));
    match res with
    | inr err => Ret (failed err)
    | inl res => track res
    end
  | inl [res] => track res
  | inl existing =>
    Ret (failed (plainErr (fmt_d (Z.of_nat (length existing)) +:+ " " +:+ typ +:+ " records are named " +:+ fmt_q name)))
  end.

(** The update of a record that is found to differ. *)
Definition updateRecord (record : DnsRecord) (spec : DnsRecordData) : prog RecordE Result :=
  if diff spec (dns_Status record) then
    match dst_Id (dns_Status record) with
    | None => do x <- call NilDeref; match x : Empty_set with end
    | Some id =>
      do res <- call (UpdateRemote (ds_ZoneId (dns_Spec record)) id (toCloudflareUpdate spec));
      match res with
      | inr err => Ret (failed err)
      | inl res =>
        do patched <- patchRecordStatus record (λ _, observed res);
        Ret (match patched with inr err => failed err | inl _ => done_ end)
      end
    end
  else Ret done_.

(** The part for a tracked record: refreshes the status, then updates. *)
Definition refreshRecord (record : DnsRecord) (id : string) (spec : DnsRecordData) : prog RecordE Result :=
  do res <- call (GetRemote (ds_ZoneId (dns_Spec record)) id);
  match res with
  | inr err =>
    if IsNotFound err then
      do patched <- patchRecordStatus record forgetId;
      Ret (failed (joinErr err (match patched with inr e => Some e | inl _ => None end)))
    else Ret (failed err)
  | inl res =>
    do patched <- patchRecordStatus record (λ _, observed res);
    match patched with
    | inr err => Ret (failed err)
    | inl record => updateRecord record spec
    end
  end.

(** Adds the finalizer where it is missing. *)
Definition holdRecord (record : DnsRecord) : prog RecordE (DnsRecord + Err) :=
  if ContainsFinalizer (om_Finalizers (dns_ObjectMeta record)) dnsRecordFinalizer then Ret (inl record)
  else patchRecord record (λ obj,
    withRecordFinalizers obj (AddFinalizer (om_Finalizers (dns_ObjectMeta obj)) dnsRecordFinalizer)).

(** The part of [Reconcile] for a live object. *)
Definition keepRecord (record : DnsRecord) : prog RecordE Result :=
  do held <- holdRecord record;
  match held with
  | inr err => Ret {| requeueAfter := 0; result_err := k8s_IgnoreNotFound (Some err) |}
  | inl record =>
    do resolved <- resolve record;
    match resolved with
    | inr err => Ret (failed err)
    | inl (_, false) => Ret done_
    | inl (spec, true) =>
      match dst_Id (dns_Status record) with
      | None => createRecord record spec
      | Some id => refreshRecord record id spec
      end
    end
  end.

Definition Reconcile (req : NamespacedName) : prog RecordE Result :=
  do got <- call (GetDnsRecord req);
  match got with
  | inr err => Ret {| requeueAfter := 0; result_err := k8s_IgnoreNotFound (Some err) |}
  | inl record => if isDeleted (dns_ObjectMeta record) then finalizeRecord record else keepRecord record
  end.
End controller.

(** ** What a run did, seen from its trace *)

(** A write to the Cloudflare API. *)
Inductive RemoteWrite :=
  | WCreate (zone : string) (body : option RecordParam) (ans : RemoteRecord + Err)
  | WUpdate (zone id : string) (body : option RecordParam) (ans : RemoteRecord + Err)
  | WDelete (zone id : string) (ans : option Err).

Definition remoteWrite (ev : event RecordE) : option RemoteWrite :=
  let 'Ev e a := ev in
  match e in RecordE R return R → option RemoteWrite with
  | CreateRemote zone body => λ a, Some (WCreate zone body a)
  | UpdateRemote zone id body => λ a, Some (WUpdate zone id body a)
  | DeleteRemote zone id => λ a, Some (WDelete zone id a)
  | _ => λ _, None
  end a.

(** The object read, the lists read, and the patches asked for. *)
Definition recordGot (ev : event RecordE) : option (DnsRecord + Err) :=
  let 'Ev e a := ev in
  match e in RecordE R return R → option (DnsRecord + Err) with
  | GetDnsRecord _ => λ a, Some a
  | _ => λ _, None
  end a.

Definition remoteListed (ev : event RecordE) : option (string * string * string * (list RemoteRecord + Err)) :=
  let 'Ev e a := ev in
  match e in RecordE R return R → option (string * string * string * (list RemoteRecord + Err)) with
  | ListRemote zone name typ => λ a, Some (zone, name, typ, a)
  | _ => λ _, None
  end a.

Definition recordPatched (ev : event RecordE) : option (DnsRecord * DnsRecord * (DnsRecord + Err)) :=
  let 'Ev e a := ev in
  match e in RecordE R return R → option (DnsRecord * DnsRecord * (DnsRecord + Err)) with
  | PatchDnsRecord original updated => λ a, Some (original, updated, a)
  | _ => λ _, None
  end a.

Definition statusPatched (ev : event RecordE) : option (DnsRecordStatus * (DnsRecord + Err)) :=
  let 'Ev e a := ev in
  match e in RecordE R return R → option (DnsRecordStatus * (DnsRecord + Err)) with
  | PatchDnsRecordStatus _ updated => λ a, Some (dns_Status updated, a)
  | _ => λ _, None
  end a.

Definition tunnelGot (ev : event RecordE) : option (NamespacedName * (CloudflareTunnel + Err)) :=
  let 'Ev e a := ev in
  match e in RecordE R return R → option (NamespacedName * (CloudflareTunnel + Err)) with
  | GetRecordTunnel key => λ a, Some (key, a)
  | _ => λ _, None
  end a.

(** ** Properties *)

(** The record of the spec that is compared and written, as the five optional
    fields of a [Record] that holds exactly one, which admission enforces. *)
Record Fields := { f_Comment : string; f_Content : string; f_Name : string; f_Type : string }.

Definition fieldsOf (spec : DnsRecordData) : list Fields :=
  match dr_AAAARecord spec with Some r => [Build_Fields (aaaa_Comment r) (aaaa_Content r) (aaaa_Name r) (aaaa_Type r)] | None => [] end ++
  match dr_ARecord spec with Some r => [Build_Fields (a_Comment r) (a_Content r) (a_Name r) (a_Type r)] | None => [] end ++
  match dr_CAARecord spec with Some r => [Build_Fields (caa_Comment r) (caa_Content r) (caa_Name r) (caa_Type r)] | None => [] end ++
  match dr_CNAMERecord spec with Some r => [Build_Fields (cn_Comment r) (cn_Content r) (cn_Name r) (cn_Type r)] | None => [] end ++
  match dr_TXTRecord spec with Some r => [Build_Fields (txt_Comment r) (txt_Content r) (txt_Name r) (txt_Type r)] | None => [] end.

Definition agrees (st : DnsRecordStatus) (f : Fields) : Prop :=
  dst_Comment st = Some (f_Comment f) ∧ dst_Content st = Some (f_Content f) ∧
  dst_Name st = Some (f_Name f) ∧ dst_Type st = Some (f_Type f).

Lemma compared_false st c ct n t :
  existsb negb (compared st c ct n t) = false ↔ agrees st (Build_Fields c ct n t).
Proof.
  unfold compared, agrees, ptrEqual. cbn [existsb f_Comment f_Content f_Name f_Type].
  rewrite !orb_false_iff, !negb_false_iff, !bool_decide_eq_true. tauto.
Qed.

(** [diff] looks at the last record type present. *)
Lemma diff_fields spec st :
  diff spec st = false ↔ ∀ f, last (fieldsOf spec) = Some f → agrees st f.
Proof.
  unfold diff, fieldsOf.
  destruct (dr_TXTRecord spec); [|destruct (dr_CNAMERecord spec); [|destruct (dr_CAARecord spec);
    [|destruct (dr_ARecord spec); [|destruct (dr_AAAARecord spec)]]]];
    rewrite ?app_nil_r, ?app_assoc, ?last_snoc; rewrite ?compared_false; simpl.
  all: try (split; [by intros ? ? [= <-]|intros Hs; by apply Hs]).
  done.
Qed.

Lemma toCloudflareUpdate_New spec : toCloudflareUpdate spec = toCloudflareNew spec.
Proof. done. Qed.

Section properties.
Context `{ObjectHelpers}.

Ltac views := rewrite ?omap_app; cbn -[diff observed recordKey]; rewrite ?app_nil_r.

Definition Tracks (record other : DnsRecord) : Prop :=
  om_UID (dns_ObjectMeta other) ≠ om_UID (dns_ObjectMeta record) ∧
  om_DeletionTimestamp (dns_ObjectMeta other) = None ∧
  ds_ZoneId (dns_Spec other) = ds_ZoneId (dns_Spec record) ∧
  dst_Id (dns_Status other) = dst_Id (dns_Status record).

Lemma tracksSame_spec record other : tracksSame record other = true ↔ Tracks record other.
Proof.
  unfold tracksSame, Tracks, isDeleted. rewrite !andb_true_iff, !negb_true_iff, str_eqb_eq, str_eqb_neq, bool_decide_eq_false, bool_decide_eq_true.
  rewrite <- eq_None_not_Some. tauto.
Qed.

Lemma nn_string_nonempty k : str_eqb (nn_string k) "" = false.
Proof. apply str_eqb_neq. unfold nn_string. by destruct (nn_Namespace k). Qed.

Definition released (record : DnsRecord) : DnsRecord :=
  withRecordFinalizers record
    (RemoveFinalizer (om_Finalizers (dns_ObjectMeta record)) "dnsrecord.cloudflare.unmango.dev/finalizer").

(** The end of a deletion: the finalizer was dropped before, or it is dropped by a
    patch, which succeeds or finds the object gone, or fails. *)
Inductive Releases (record : DnsRecord) : list (event RecordE) → Result → Prop :=
  | released_before :
      ContainsFinalizer (om_Finalizers (dns_ObjectMeta record)) "dnsrecord.cloudflare.unmango.dev/finalizer" = false →
      Releases record [] done_
  | released_now t : Releases record [Ev (PatchDnsRecord record (released record)) (inl t)] done_
  | released_gone e : err_k8s e = Some K8sNotFound →
      Releases record [Ev (PatchDnsRecord record (released record)) (inr e)] done_
  | release_failed e : err_k8s e ≠ Some K8sNotFound →
      Releases record [Ev (PatchDnsRecord record (released record)) (inr e)] (failed e).

(** The runs that delete a record. *)
Inductive Deletes (record : DnsRecord) : list (event RecordE) → Result → Prop :=
  | deletes_untracked tr res : dst_Id (dns_Status record) = None → Releases record tr res → Deletes record tr res
  | deletes_unlisted id e e' : dst_Id (dns_Status record) = Some id →
      Deletes record [Ev ListAllDnsRecords (inr e)] (failed e')
  | deletes_adopted id items other tr res : dst_Id (dns_Status record) = Some id →
      other ∈ items → Tracks record other → Releases record tr res →
      Deletes record (Ev ListAllDnsRecords (inl items) :: tr) res
  | deletes_refused id items e : dst_Id (dns_Status record) = Some id →
      (∀ other, other ∈ items → ¬ Tracks record other) → err_status e ≠ Some 404%Z →
      Deletes record [Ev ListAllDnsRecords (inl items); Ev (DeleteRemote (ds_ZoneId (dns_Spec record)) id) (Some e)] (failed e)
  | deletes_remote id items answer tr res : dst_Id (dns_Status record) = Some id →
      (∀ other, other ∈ items → ¬ Tracks record other) → gone answer → Releases record tr res →
      Deletes record
        (Ev ListAllDnsRecords (inl items) :: Ev (DeleteRemote (ds_ZoneId (dns_Spec record)) id) answer :: tr) res.

Lemma releases_exec record tr res :
  exec (do err <- releaseDnsRecord record; Ret {| requeueAfter := 0; result_err := err |}) tr res →
  Releases record tr res.
Proof.
  unfold releaseDnsRecord, patchRecord. destruct (ContainsFinalizer _ _) eqn:Ef; cbn [negb]; intros Hx; exec_inv.
  - match goal with x : _ + _ |- _ => destruct x as [t|e] end; [apply released_now|].
    unfold k8s_IgnoreNotFound, ignoreErr, k8s_IsNotFound. case_bool_decide; [by apply released_gone|by apply release_failed].
  - by apply released_before.
Qed.

Lemma finalizeRecord_exec record tr res : exec (finalizeRecord record) tr res → Deletes record tr res.
Proof.
  unfold finalizeRecord, adopter. intros Hx. destruct (dst_Id (dns_Status record)) as [id|] eqn:Eid.
  2: { apply deletes_untracked; [done|]. by apply releases_exec. }
  apply exec_bind in Hx as (t1 & t2 & ad & -> & Ha & Hx).
  apply exec_bind in Ha as (t3 & t4 & listed & -> & Hl & Ha). apply exec_call in Hl as ->.
  apply exec_Ret_inv in Ha as [-> <-]. destruct listed as [items|e]; [|exec_inv; by eapply deletes_unlisted].
  destruct (List.find (tracksSame record) items) as [other|] eqn:Ef.
  - rewrite nn_string_nonempty in Hx. apply List.find_some in Ef as [Hin%list_elem_of_In Ht%tracksSame_spec].
    eapply deletes_adopted; [done..|]. by apply releases_exec.
  - assert (∀ other, other ∈ items → ¬ Tracks record other) as Hnone.
    { intros other Hin%list_elem_of_In Ht%tracksSame_spec. by rewrite (List.find_none _ _ Ef _ Hin) in Ht. }
    cbn [negb] in Hx. rewrite str_eqb_refl in Hx. apply exec_bind in Hx as (t5 & t6 & ans & -> & Hd & Hx).
    apply exec_call in Hd as ->. destruct (cf_IgnoreNotFound ans) as [e|] eqn:Ei.
    + exec_inv. assert (ans = Some e ∧ err_status e ≠ Some 404%Z) as [-> ?].
      { destruct ans as [e'|]; [|done]. unfold cf_IgnoreNotFound, ignoreErr, IsNotFound, IsStatusCode in Ei.
        case_bool_decide; simplify_eq. done. }
      by eapply deletes_refused.
    + apply cf_gone in Ei. eapply (deletes_remote _ id); [done..|]. by apply releases_exec.
Qed.

(** The object a run read, in front of the rest of the run. *)
Lemma Reconcile_exec key tr res record :
  exec (Reconcile key) tr res → omap recordGot tr = [inl record] →
  ∃ tr', tr = Ev (GetDnsRecord key) (inl record) :: tr' ∧
    exec (if isDeleted (dns_ObjectMeta record) then finalizeRecord record else keepRecord record) tr' res.
Proof.
  unfold Reconcile. intros Hx Hg. exec_inv.
  match goal with x : _ + _ |- _ => destruct x as [r|err] end; exec_inv.
  cbn [omap list_omap recordGot] in Hg. injection Hg as Hr _. subst r. by eexists.
Qed.

(** C18. Deleting a DnsRecord is safe and complete: the runs are these. Nothing is
    created or updated upstream, and at most one record is deleted there: the one
    the status tracks, in the zone of the spec, and only after the records of all
    namespaces were listed and no other live one tracks that record of that zone.
    The finalizer is dropped, and nothing else of the object changed, only when
    the status tracks nothing, another DnsRecord has taken the record over, or it
    was deleted or found gone. A listing that fails, or a deletion that fails
    otherwise, ends the run with an error; and a run that ends without an error
    has dropped the finalizer, or found it dropped or the object gone. *)
Theorem Reconcile_deletes key tr res record :
  exec (Reconcile key) tr res → omap recordGot tr = [inl record] →
  om_DeletionTimestamp (dns_ObjectMeta record) ≠ None →
  ∃ tr', tr = Ev (GetDnsRecord key) (inl record) :: tr' ∧ Deletes record tr' res.
Proof.
  intros Hx Hg Hd. destruct (Reconcile_exec _ _ _ _ Hx Hg) as (tr' & -> & Hx'). exists tr'. split; [done|].
  replace (isDeleted (dns_ObjectMeta record)) with true in Hx'
    by (symmetry; by apply bool_decide_eq_true_2, not_eq_None_Some).
  by apply finalizeRecord_exec.
Qed.

(** The object a live run goes on with: the one read when it has the finalizer,
    or what the server answered to the patch that adds it. *)
Definition Held (record : DnsRecord) (tr : list (event RecordE)) (held : DnsRecord) : Prop :=
  ContainsFinalizer (om_Finalizers (dns_ObjectMeta record)) dnsRecordFinalizer = true ∧
    omap recordPatched tr = [] ∧ held = record ∨
  omap recordPatched tr = [(record, withRecordFinalizers record
    (AddFinalizer (om_Finalizers (dns_ObjectMeta record)) dnsRecordFinalizer), inl held)].

(** The record written for it: its own or, with a tunnelRef, the one that points
    at the tunnel of that name in the record's namespace. *)
Definition Resolved (held : DnsRecord) (tr : list (event RecordE)) (spec : DnsRecordData) : Prop :=
  spec = ds_Record (dns_Spec held) ∧
    (∀ c, dr_CNAMERecord spec = Some c → cn_TunnelRef c = None) ∨
  ∃ c ref tunnel id, dr_CNAMERecord (ds_Record (dns_Spec held)) = Some c ∧ cn_TunnelRef c = Some ref ∧
    omap tunnelGot tr =
      [({| nn_Namespace := om_Namespace (dns_ObjectMeta held); nn_Name := dtr_Name ref |}, inl tunnel)] ∧
    tst_Id (tun_Status tunnel) = Some id ∧
    spec = withCNAME (ds_Record (dns_Spec held)) (withContent c (tunnelTarget id)).

(** The views other than the reads of tunnels and patches of the object are
    blind to the first two steps of a live run. *)
Definition later (ev : event RecordE) : bool :=
  let 'Ev e _ := ev in
  match e with PatchDnsRecord _ _ | GetRecordTunnel _ => false | _ => true end.

Lemma holdRecord_exec record tr res :
  exec (holdRecord record) tr res →
  Forall (λ ev, later ev = false) tr ∧ omap tunnelGot tr = [] ∧
  ∀ held, res = inl held → Held record tr held.
Proof.
  unfold holdRecord, patchRecord. intros Hx. destruct (ContainsFinalizer _ _) eqn:Ef; exec_inv.
  - split_and!; [constructor|done|]. intros held [= ->]. by left.
  - split_and!; [by repeat constructor|done|]. intros held ->. by right.
Qed.

Lemma resolve_exec record tr res :
  exec (resolve record) tr res →
  Forall (λ ev, later ev = false) tr ∧ omap recordPatched tr = [] ∧
  ∀ spec, res = inl (spec, true) → Resolved record tr spec.
Proof.
  unfold resolve. intros Hx. destruct (dr_CNAMERecord _) as [c|] eqn:Ec.
  2: { exec_inv. split_and!; [constructor|done|]. intros spec [= <-]. left. split; [done|]. by rewrite Ec. }
  destruct (cn_TunnelRef c) as [ref|] eqn:Er; exec_inv.
  2: { split_and!; [constructor|done|]. intros spec [= <-]. left. split; [done|]. rewrite Ec. by intros ? [= <-]. }
  split_and!; [by repeat constructor|done|]. intros spec Hs. right.
  match goal with x : _ + _ |- _ => destruct x as [tunnel|err] end; [|by destruct (k8s_IsNotFound err)].
  destruct (tst_Id _) as [id|] eqn:Ei; [|done]. injection Hs as <-.
  by exists c, ref, tunnel, id.
Qed.

Lemma later_blind {B} (view : event RecordE → option B) tr :
  (∀ ev, later ev = false → view ev = None) → Forall (λ ev, later ev = false) tr → omap view tr = [].
Proof. intros Hv. induction 1 as [|ev tr He _ IH]; [done|]. by rewrite omap_cons_eq, (Hv _ He). Qed.

(** What a live run does after its first two steps. *)
Definition created (held : DnsRecord) (spec : DnsRecordData) (tr : list (event RecordE)) : Prop :=
  ∃ listed ans, omap remoteListed tr =
      [(ds_ZoneId (dns_Spec held), (recordKey held).1, (recordKey held).2, listed)] ∧
    (omap remoteWrite tr = [WCreate (ds_ZoneId (dns_Spec held)) (toCloudflareNew spec) ans] ∧
       listed = inl [] ∧ (∀ res, ans = inl res → ∃ a, omap statusPatched tr = [(observed res, a)]) ∧
       (∀ err, ans = inr err → omap statusPatched tr = []) ∨
     omap remoteWrite tr = [] ∧
       (omap statusPatched tr = [] ∧ listed ≠ inl [] ∧ (∀ res, listed ≠ inl [res]) ∨
        ∃ res a, listed = inl [res] ∧ omap statusPatched tr = [(observed res, a)])).

Definition refreshed (id : string) (spec : DnsRecordData) (held : DnsRecord) (tr : list (event RecordE)) : Prop :=
  omap remoteListed tr = [] ∧
  (omap remoteWrite tr = [] ∨
   ∃ seen now id' ans rest, dst_Id (dns_Status now) = Some id' ∧
     omap remoteWrite tr = [WUpdate (ds_ZoneId (dns_Spec now)) id' (toCloudflareUpdate spec) ans] ∧
     omap statusPatched tr = (observed seen, inl now) :: rest ∧
     diff spec (dns_Status now) = true).

Lemma createRecord_exec held spec tr res :
  exec (createRecord held spec) tr res →
  created held spec tr ∧ omap tunnelGot tr = [] ∧ omap recordPatched tr = [].
Proof.
  unfold createRecord, patchRecordStatus, created. destruct (recordKey held) as [name typ]. simpl.
  intros Hx. exec_inv. match goal with x : _ + _ |- _ => destruct x as [[|r [|r' l]]|err] end; exec_inv.
  - match goal with x : _ + _ |- _ => destruct x as [r|err] end; exec_inv.
    + split_and!; [|done..]. eexists _, (inl r). split; [done|]. left. split_and!; [done..| |done].
      intros ? [= <-]. by eexists.
    + split_and!; [|done..]. eexists _, (inr err). split; [done|]. left. by split_and!.
  - split_and!; [|done..]. eexists _, (inl r). split; [done|]. right. split; [done|]. right. by eexists _, _.
  - split_and!; [|done..]. eexists _, (inl r). split; [done|]. right. split; [done|]. left. by split_and!.
  - split_and!; [|done..]. eexists _, (inr err). split; [done|]. right. split; [done|]. left. by split_and!.
Qed.

Lemma refreshRecord_exec held id spec tr res :
  exec (refreshRecord held id spec) tr res →
  refreshed id spec held tr ∧ omap tunnelGot tr = [] ∧ omap recordPatched tr = [].
Proof.
  unfold refreshRecord, updateRecord, patchRecordStatus, refreshed. intros Hx. exec_inv.
  match goal with x : _ + _ |- _ => destruct x as [seen|err] end.
  2: { destruct (IsNotFound err); exec_inv; split_and!; (done || by left). }
  exec_inv. match goal with x : _ + _ |- _ => destruct x as [now|err] end; exec_inv.
  2: { split_and!; (done || by left). }
  destruct (diff _ _) eqn:Ed; exec_inv; [|split_and!; (done || by left)].
  destruct (dst_Id (dns_Status now)) as [id'|] eqn:Ei; exec_inv; [|done].
  match goal with x : RemoteRecord + _ |- _ => destruct x as [r|err] end; exec_inv;
    split_and!; try done; right; eexists seen, now, id', _, _; by split_and!.
Qed.

Lemma keepRecord_exec record tr res :
  exec (keepRecord record) tr res →
  omap remoteWrite tr = [] ∧ omap statusPatched tr = [] ∨
  ∃ held spec, Held record tr held ∧ Resolved held tr spec ∧
    match dst_Id (dns_Status held) with
    | None => created held spec tr
    | Some id => refreshed id spec held tr
    end.
Proof.
  unfold keepRecord. intros Hx.
  assert (∀ ev, later ev = false → remoteWrite ev = None ∧ statusPatched ev = None ∧ remoteListed ev = None) as Hlater.
  { intros [R e r]. by destruct e. }
  apply exec_bind in Hx as (t1 & t2 & r1 & -> & Hh & Hx). apply holdRecord_exec in Hh as (Hb1 & Ht1 & Hheld).
  assert (omap remoteWrite t1 = [] ∧ omap statusPatched t1 = [] ∧ omap remoteListed t1 = []) as (Hw1 & Hs1 & Hl1).
  { split_and!; apply later_blind; try done; apply Hlater. }
  destruct r1 as [held|err]; [|exec_inv; left; by rewrite app_nil_r].
  specialize (Hheld _ eq_refl).
  apply exec_bind in Hx as (t3 & t4 & r2 & -> & Hr & Hx). apply resolve_exec in Hr as (Hb3 & Hp3 & Hres).
  assert (omap remoteWrite t3 = [] ∧ omap statusPatched t3 = [] ∧ omap remoteListed t3 = []) as (Hw3 & Hs3 & Hl3).
  { split_and!; apply later_blind; try done; apply Hlater. }
  destruct r2 as [[spec []]|err]; [|exec_inv; left; by rewrite !omap_app, Hw1, Hw3, Hs1, Hs3..].
  specialize (Hres _ eq_refl). right. exists held, spec.
  assert (omap recordPatched t4 = [] ∧ omap tunnelGot t4 = [] →
    Held record (t1 ++ t3 ++ t4) held ∧ Resolved held (t1 ++ t3 ++ t4) spec) as Hpre.
  { intros [Hp4 Ht4]. unfold Held, Resolved. by rewrite !omap_app, Hp3, Hp4, Ht1, Ht4, !app_nil_r. }
  destruct (dst_Id (dns_Status held)) as [id|].
  - apply refreshRecord_exec in Hx as (Hc & Ht4 & Hp4). destruct (Hpre (conj Hp4 Ht4)). split_and!; [done..|].
    unfold refreshed in *. by rewrite !omap_app, Hw1, Hw3, Hs1, Hs3, Hl1, Hl3.
  - apply createRecord_exec in Hx as (Hc & Ht4 & Hp4). destruct (Hpre (conj Hp4 Ht4)). split_and!; [done..|].
    unfold created in *. by rewrite !omap_app, Hw1, Hw3, Hs1, Hs3, Hl1, Hl3.
Qed.

(** C19. A live DnsRecord never leaves a duplicate or an untracked record behind.
    Upstream a run deletes nothing and writes at most once. It creates a record
    only when the status tracks none, the finalizer is in place, and the zone
    was asked for exactly the name and type of the spec and answered that it has
    none; the record created is the spec's, pointed at its tunnel where it names
    one, and a create that succeeded is followed by a patch that tracks it. A
    record is adopted only when it is the only one of that name and type, and an
    update is made only to a tracked record that was found to differ. *)
Theorem Reconcile_creates_once key tr res record :
  exec (Reconcile key) tr res → omap recordGot tr = [inl record] →
  om_DeletionTimestamp (dns_ObjectMeta record) = None →
  omap remoteWrite tr = [] ∧ omap statusPatched tr = [] ∨
  ∃ held spec, Held record tr held ∧ Resolved held tr spec ∧
    match dst_Id (dns_Status held) with
    | None => created held spec tr
    | Some id => refreshed id spec held tr
    end.
Proof.
  intros Hx Hg Hd. destruct (Reconcile_exec _ _ _ _ Hx Hg) as (tr' & -> & Hk).
  unfold isDeleted in Hk. rewrite Hd in Hk. simpl in Hk.
  apply keepRecord_exec in Hk as [Hn|(held & spec & Hh & Hr & Hc)]; [by left|].
  right. exists held, spec. split_and!; [exact Hh|exact Hr|].
  by destruct (dst_Id (dns_Status held)).
Qed.
End properties.

(** ** Convergence

    The Cloudflare API and the API server as the controller relies on them, with
    no failures: reads answer what is there, a patch makes the object the one
    asked for, a create adds one record under a new id and an update replaces
    the record of an id, both answered by the record as it then is. The API
    writes names in full and renders the data of a CAA record as text its own
    way ([normalName], [caaContent]). *)
Definition echo (normalName : string → string) (caaContent : CAARecordData → string)
    (id : string) (body : RecordParam) : RemoteRecord :=
  let answer content f :=
    {| rr_ID := id; rr_Comment := rf_Comment f; rr_Content := content;
       rr_Name := normalName (rf_Name f); rr_Type := rf_Type f |} in
  match body with
  | AAAARecordParam c f | ARecordParam c f | CNAMERecordParam c f | TXTRecordParam c f => answer c f
  | CAARecordParam d f => answer (caaContent d) f
  end.

Class DnsWorld (W : Type) (key : NamespacedName) := {
  handle : ∀ R, RecordE R → W → option (R * W);
  object : W → DnsRecord;
  tunnelAt : W → NamespacedName → CloudflareTunnel + Err;
  zoneAt : W → string → gmap string RemoteRecord;
  normalName : string → string;
  caaContent : CAARecordData → string;
  zone_ids w z id r : zoneAt w z !! id = Some r → rr_ID r = id;
  handle_get w : handle _ (GetDnsRecord key) w = Some (inl (object w), w);
  handle_tunnel w k : handle _ (GetRecordTunnel k) w = Some (tunnelAt w k, w);
  handle_list w z n t : ∃ l, handle _ (ListRemote z n t) w = Some (inl l, w) ∧ NoDup l ∧
    ∀ r, r ∈ l ↔ zoneAt w z !! rr_ID r = Some r ∧ rr_Name r = n ∧ rr_Type r = t;
  handle_read w z id : ∃ err, IsNotFound err = true ∧ handle _ (GetRemote z id) w =
    Some (match zoneAt w z !! id with Some r => inl r | None => inr err end, w);
  handle_patch w u : ∃ w', handle _ (PatchDnsRecord (object w) u) w = Some (inl u, w') ∧
    object w' = u ∧ zoneAt w' = zoneAt w ∧ tunnelAt w' = tunnelAt w;
  handle_status w u : ∃ w', handle _ (PatchDnsRecordStatus (object w) u) w = Some (inl u, w') ∧
    object w' = u ∧ zoneAt w' = zoneAt w ∧ tunnelAt w' = tunnelAt w;
  handle_create w z body : ∃ id w', zoneAt w z !! id = None ∧
    handle _ (CreateRemote z (Some body)) w = Some (inl (echo normalName caaContent id body), w') ∧
    zoneAt w' z = <[id := echo normalName caaContent id body]> (zoneAt w z) ∧
    object w' = object w ∧ tunnelAt w' = tunnelAt w;
  handle_update w z id body : is_Some (zoneAt w z !! id) → ∃ w',
    handle _ (UpdateRemote z id (Some body)) w = Some (inl (echo normalName caaContent id body), w') ∧
    zoneAt w' z = <[id := echo normalName caaContent id body]> (zoneAt w z) ∧
    object w' = object w ∧ tunnelAt w' = tunnelAt w;
}.

Section convergence.
Context `{ObjectHelpers} {W : Type} {key : NamespacedName} `{DnsWorld W key}.

(** The world after one reconciliation and after many. *)
Definition step (w : W) : W := default w (snd <$> run handle (Reconcile key) w).

Definition zone (w : W) : gmap string RemoteRecord := zoneAt w (ds_ZoneId (dns_Spec (object w))).

(** The record to write, when its tunnel has an id. *)
Definition target (w : W) : option DnsRecordData :=
  let spec := ds_Record (dns_Spec (object w)) in
  match dr_CNAMERecord spec with
  | Some c =>
    match cn_TunnelRef c with
    | Some ref =>
      match tunnelAt w {| nn_Namespace := om_Namespace (dns_ObjectMeta (object w)); nn_Name := dtr_Name ref |} with
      | inl tunnel => (λ id, withCNAME spec (withContent c (tunnelTarget id))) <$> tst_Id (tun_Status tunnel)
      | inr _ => None
      end
    | None => Some spec
    end
  | None => Some spec
  end.

(** One record, which the API keeps as it is written. *)
Definition Canonical (spec : DnsRecordData) (f : Fields) : Prop :=
  fieldsOf spec = [f] ∧ normalName (f_Name f) = f_Name f ∧
  ∀ c, dr_CAARecord spec = Some c →
    caaContent {| cad_Flags := cad_Flags (caa_Data c); cad_Tag := cad_Tag (caa_Data c);
                  cad_Value := cad_Value (caa_Data c) |} = caa_Content c.

Definition Wants (w : W) (f : Fields) : Prop :=
  om_DeletionTimestamp (dns_ObjectMeta (object w)) = None ∧ ∃ spec, target w = Some spec ∧ Canonical spec f.

(** At most one record of the zone has the name and type. *)
Definition Unique (w : W) (f : Fields) : Prop :=
  ∀ i j r s, zone w !! i = Some r → zone w !! j = Some s →
    rr_Name r = f_Name f → rr_Type r = f_Type f → rr_Name s = f_Name f → rr_Type s = f_Type f → i = j.

(** The status tracks a record of the zone, and tells what it is. *)
Definition Tracked (w : W) (id : string) : Prop :=
  ∃ r, zone w !! id = Some r ∧ dns_Status (object w) = observed r.

Definition Settled (w : W) (f : Fields) (id : string) : Prop :=
  Tracked w id ∧ agrees (dns_Status (object w)) f.

(** The same, but for the finalizers and the status. *)
Definition SameInput (w w' : W) : Prop :=
  dns_Spec (object w') = dns_Spec (object w) ∧ tunnelAt w' = tunnelAt w ∧
  om_DeletionTimestamp (dns_ObjectMeta (object w')) = om_DeletionTimestamp (dns_ObjectMeta (object w)) ∧
  om_Namespace (dns_ObjectMeta (object w')) = om_Namespace (dns_ObjectMeta (object w)).

#[export] Instance SameInput_preorder : PreOrder SameInput.
Proof. split; [done|]. intros w1 w2 w3 (?&?&?&?) (?&?&?&?). unfold SameInput. by split_and!; etrans. Qed.

Lemma Wants_same w w' f : SameInput w w' → Wants w f → Wants w' f.
Proof.
  intros (Hs & Ht & Hd & Hn) (Hl & spec & Hsp & Hc). split; [by rewrite Hd|]. exists spec. split; [|done].
  unfold target in *. by rewrite Hs, Ht, Hn.
Qed.

Lemma echo_agrees spec f id :
  Canonical spec f → ∃ body, toCloudflareNew spec = Some body ∧
    rr_ID (echo normalName caaContent id body) = id ∧
    agrees (observed (echo normalName caaContent id body)) f.
Proof.
  unfold Canonical, fieldsOf, toCloudflareNew, agrees. intros (Hf & Hn & Hc).
  destruct (dr_AAAARecord spec), (dr_ARecord spec), (dr_CAARecord spec) as [c|], (dr_CNAMERecord spec),
    (dr_TXTRecord spec); simpl in Hf; try discriminate Hf; injection Hf as <-; simpl in *; eexists;
    (split; [done|]); simpl; split_and!; try done; first [by rewrite Hn | by rewrite (Hc c eq_refl)].
Qed.

Lemma recordKey_fields w spec f :
  target w = Some spec → Canonical spec f → recordKey (object w) = (f_Name f, f_Type f).
Proof.
  unfold target, Canonical, fieldsOf, recordKey. intros Ht (Hf & _).
  destruct (dr_CNAMERecord (ds_Record (dns_Spec (object w)))) as [c|] eqn:Ec.
  2: { injection Ht as <-. rewrite Ec in Hf.
    destruct (dr_AAAARecord _), (dr_ARecord _), (dr_CAARecord _), (dr_TXTRecord _);
      simpl in Hf; try discriminate Hf; by injection Hf as <-. }
  assert (∃ c', spec = withCNAME (ds_Record (dns_Spec (object w))) c' ∧ cn_Name c' = cn_Name c ∧ cn_Type c' = cn_Type c)
    as (c' & -> & <- & <-).
  { destruct (cn_TunnelRef c) as [ref|].
    - destruct (tunnelAt _ _) as [t|]; [|done]. destruct (tst_Id _); [|done]. injection Ht as <-.
      by eexists.
    - injection Ht as <-. exists c. split_and!; [|done..]. unfold withCNAME. rewrite <- Ec.
      by destruct (ds_Record (dns_Spec (object w))). }
  simpl in Hf. destruct (dr_AAAARecord _), (dr_ARecord _), (dr_CAARecord _), (dr_TXTRecord _);
    simpl in Hf; try discriminate Hf; by injection Hf as <-.
Qed.

Lemma target_same w w' : SameInput w w' → target w' = target w.
Proof. intros (Hs & Ht & _ & Hn). unfold target. by rewrite Hs, Ht, Hn. Qed.

Lemma run_hold w :
  ∃ w', run handle (holdRecord (object w)) w = Some (inl (object w'), w') ∧ SameInput w w' ∧
    dns_Status (object w') = dns_Status (object w) ∧ zoneAt w' = zoneAt w.
Proof.
  unfold holdRecord, patchRecord. destruct (ContainsFinalizer _ _); simpl; [by exists w|].
  destruct (handle_patch w (withRecordFinalizers (object w)
    (AddFinalizer (om_Finalizers (dns_ObjectMeta (object w))) dnsRecordFinalizer))) as (w' & He & Ho & Hz & Ht).
  exists w'. rewrite He. split_and!; [by rewrite Ho|unfold SameInput; by rewrite Ho|by rewrite Ho|done].
Qed.

Lemma run_resolve w spec : target w = Some spec → run handle (resolve (object w)) w = Some (inl (spec, true), w).
Proof.
  unfold target, resolve. intros Ht. destruct (dr_CNAMERecord _) as [c|]; [|by injection Ht as <-].
  destruct (cn_TunnelRef c) as [ref|]; [|by injection Ht as <-].
  simpl. rewrite handle_tunnel. destruct (tunnelAt _ _) as [t|]; [|done]. simpl.
  destruct (tst_Id _); [|done]. by injection Ht as <-.
Qed.

Lemma run_Reconcile w spec :
  om_DeletionTimestamp (dns_ObjectMeta (object w)) = None → target w = Some spec →
  ∃ w', SameInput w w' ∧ dns_Status (object w') = dns_Status (object w) ∧ zoneAt w' = zoneAt w ∧
    run handle (Reconcile key) w =
    run handle (match dst_Id (dns_Status (object w)) with
                | None => createRecord (object w') spec
                | Some id => refreshRecord (object w') id spec
                end) w'.
Proof.
  intros Hd Ht. unfold Reconcile. simpl. rewrite handle_get. simpl. unfold isDeleted. rewrite Hd. simpl.
  unfold keepRecord. rewrite run_bind. destruct (run_hold w) as (w' & -> & Hs & Hst & Hz).
  exists w'. split_and!; [done..|]. rewrite run_bind, (run_resolve w' spec), Hst; [done|].
  by rewrite (target_same w w').
Qed.

(** A patch of the status to what was observed of a record of the zone. *)
Lemma run_track w (k : DnsRecord + Err → Result) id r :
  zone w !! id = Some r →
  ∃ w', run handle (do patched <- patchRecordStatus (object w) (λ _, observed r); Ret (k patched)) w =
      Some (k (inl (object w')), w') ∧ SameInput w w' ∧ zone w' = zone w ∧ Tracked w' id ∧
      dns_Status (object w') = observed r.
Proof.
  intros Hr. unfold patchRecordStatus. simpl.
  destruct (handle_status w {| dns_ObjectMeta := dns_ObjectMeta (object w);
    dns_Spec := dns_Spec (object w); dns_Status := observed r |}) as (w' & He & Ho & Hz & Ht).
  exists w'. rewrite He. simpl. split; [by rewrite Ho|].
  assert (zone w' = zone w) as Hzone by (unfold zone; by rewrite Ho, Hz).
  split_and!; [..|by rewrite Ho]; [|done|]; [unfold SameInput; by rewrite Ho|].
  exists r. by rewrite Hzone, Ho.
Qed.

Lemma zone_id w id r : zone w !! id = Some r → rr_ID r = id.
Proof. apply zone_ids. Qed.

(** The zone changes at one record only. *)
Definition ChangesOnly (id : string) (w w' : W) : Prop := ∀ j, j ≠ id → zone w' !! j = zone w !! j.

Lemma agrees_diff spec f st : Canonical spec f → diff spec st = false ↔ agrees st f.
Proof.
  intros (Hf & _). rewrite diff_fields, Hf. split; [intros Hs; by apply Hs|]. by intros Hs ? [= <-].
Qed.

(** A tracked record is as it should be after one reconciliation, which then
    changes the zone no more. *)
Lemma step_tracked w f id r :
  Wants w f → dst_Id (dns_Status (object w)) = Some id → zone w !! id = Some r →
  SameInput w (step w) ∧ Settled (step w) f id ∧ ChangesOnly id w (step w) ∧
  fst <$> run handle (Reconcile key) w = Some done_ ∧ (agrees (observed r) f → zone (step w) = zone w).
Proof.
  intros (Hd & spec & Ht & Hc) Hid Hr. unfold step.
  destruct (run_Reconcile w spec Hd Ht) as (w1 & Hs1 & _ & Hz1 & ->). rewrite Hid.
  assert (zone w1 = zone w) as Hzw by (unfold zone; destruct Hs1 as (-> & _); by rewrite Hz1).
  rewrite <- Hzw in Hr. unfold refreshRecord. simpl.
  destruct (handle_read w1 (ds_ZoneId (dns_Spec (object w1))) id) as (err & _ & ->).
  fold (zone w1). rewrite Hr. simpl.
  destruct (handle_status w1 {| dns_ObjectMeta := dns_ObjectMeta (object w1);
    dns_Spec := dns_Spec (object w1); dns_Status := observed r |}) as (w2 & -> & Ho & Hz2 & Ht2).
  simpl. rewrite <- Ho. assert (SameInput w1 w2) as Hs2 by (unfold SameInput; by rewrite Ho).
  assert (zone w2 = zone w1) as Hzw2 by (unfold zone; by rewrite Ho, Hz2).
  rewrite <- Hzw2 in Hr. unfold updateRecord.
  assert (dns_Status (object w2) = observed r) as Hst by by rewrite Ho.
  destruct (diff spec (dns_Status (object w2))) eqn:Ediff.
  2: { simpl. split_and!; [by etrans|split; [by exists r|]|..].
    - by apply (agrees_diff spec).
    - intros j _. by rewrite Hzw2, Hzw.
    - done.
    - intros _. by rewrite Hzw2, Hzw. }
  rewrite Hst. simpl. rewrite (zone_id _ _ _ Hr).
  destruct (echo_agrees spec f id Hc) as (body & Hb & Hbid & Hag).
  rewrite toCloudflareUpdate_New, Hb.
  destruct (handle_update w2 (ds_ZoneId (dns_Spec (object w2))) id body) as (w3 & -> & Hz3 & Ho3 & Ht3); [by eexists|].
  simpl. assert (SameInput w2 w3) as Hs3 by (unfold SameInput; by rewrite Ho3).
  assert (zone w3 = <[id := echo normalName caaContent id body]> (zone w2)) as Hzw3
    by (unfold zone; by rewrite Ho3, Hz3).
  destruct (run_track w3 (λ patched, match patched with inr err => failed err | inl _ => done_ end) id
    (echo normalName caaContent id body)) as (w4 & Hr4 & Hs4 & Hz4 & Htr & Hst4); [by rewrite Hzw3, lookup_insert_eq|].
  rewrite Ho3 in Hr4. simpl in Hr4. rewrite Hr4. simpl. split_and!.
  - by do 3 (etrans; [eassumption|]).
  - split; [done|]. by rewrite Hst4.
  - intros j Hj. by rewrite Hz4, Hzw3, lookup_insert_ne, Hzw2, Hzw.
  - done.
  - intros Hag'. apply (agrees_diff spec) in Hag'; [|done]. congruence.
Qed.

(** A stale id is forgotten. *)
Lemma step_stale w f id :
  Wants w f → dst_Id (dns_Status (object w)) = Some id → zone w !! id = None →
  SameInput w (step w) ∧ dst_Id (dns_Status (object (step w))) = None ∧ zone (step w) = zone w.
Proof.
  intros (Hd & spec & Ht & Hc) Hid Hr. unfold step.
  destruct (run_Reconcile w spec Hd Ht) as (w1 & Hs1 & Hst1 & Hz1 & ->). rewrite Hid.
  assert (zone w1 = zone w) as Hzw by (unfold zone; destruct Hs1 as (-> & _); by rewrite Hz1).
  rewrite <- Hzw in Hr. unfold refreshRecord, patchRecordStatus. simpl.
  destruct (handle_read w1 (ds_ZoneId (dns_Spec (object w1))) id) as (err & He & ->).
  fold (zone w1). rewrite Hr. simpl. rewrite He. simpl.
  destruct (handle_status w1 {| dns_ObjectMeta := dns_ObjectMeta (object w1);
    dns_Spec := dns_Spec (object w1); dns_Status := forgetId (dns_Status (object w1)) |})
    as (w2 & -> & Ho & Hz2 & Ht2).
  simpl. assert (SameInput w1 w2) as Hs2 by (unfold SameInput; by rewrite Ho).
  split_and!; [by etrans|by rewrite Ho|]. rewrite <- Hzw. unfold zone. by rewrite Ho, Hz2.
Qed.

(** A record that is not tracked is created or adopted. *)
Lemma step_untracked w f :
  Wants w f → Unique w f → dst_Id (dns_Status (object w)) = None →
  ∃ id, SameInput w (step w) ∧ Tracked (step w) id ∧ ChangesOnly id w (step w).
Proof.
  intros (Hd & spec & Ht & Hc) Hu Hid. unfold step.
  destruct (run_Reconcile w spec Hd Ht) as (w1 & Hs1 & Hst1 & Hz1 & ->). rewrite Hid.
  assert (zone w1 = zone w) as Hzw by (unfold zone; destruct Hs1 as (-> & _); by rewrite Hz1).
  assert (target w1 = Some spec) as Ht1 by by rewrite (target_same w w1).
  unfold createRecord. rewrite (recordKey_fields w1 spec f Ht1 Hc). simpl.
  destruct (handle_list w1 (ds_ZoneId (dns_Spec (object w1))) (f_Name f) (f_Type f)) as (l & -> & Hnd & Hl).
  fold (zone w1) in Hl. simpl. destruct l as [|r [|r' l]].
  - destruct (echo_agrees spec f "" Hc) as (body & Hb & _). rewrite Hb. simpl.
    destruct (handle_create w1 (ds_ZoneId (dns_Spec (object w1))) body) as (id & w2 & _ & -> & Hz2 & Ho2 & Ht2).
    simpl. assert (SameInput w1 w2) as Hs2 by (unfold SameInput; by rewrite Ho2).
    assert (zone w2 = <[id := echo normalName caaContent id body]> (zone w1)) as Hzw2 by (unfold zone; by rewrite Ho2).
    destruct (run_track w2 (λ patched, match patched with inr err => failed err | inl _ => requeue (seconds 5) end) id
      (echo normalName caaContent id body)) as (w3 & Hr3 & Hs3 & Hz3 & Htr & _); [by rewrite Hzw2, lookup_insert_eq|].
    rewrite Ho2 in Hr3. simpl in Hr3. rewrite Hr3. exists id. simpl. split_and!.
    + by do 2 (etrans; [eassumption|]).
    + done.
    + intros j Hj. by rewrite Hz3, Hzw2, lookup_insert_ne, Hzw.
  - destruct (proj1 (Hl r)) as (Hr & _); [by left|].
    destruct (run_track w1 (λ patched, match patched with inr err => failed err | inl _ => requeue (seconds 5) end)
      (rr_ID r) r Hr) as (w2 & Hr2 & Hs2 & Hz2 & Htr & _).
    simpl in Hr2. simpl. rewrite Hr2. exists (rr_ID r). simpl. split_and!; [by etrans|done|].
    intros j _. by rewrite Hz2, Hzw.
  - exfalso. destruct (proj1 (Hl r)) as (Hr & Hn & Hty); [by left|].
    destruct (proj1 (Hl r')) as (Hr' & Hn' & Hty'); [right; by left|].
    rewrite Hzw in Hr, Hr'. pose proof (Hu _ _ _ _ Hr Hr' Hn Hty Hn' Hty') as He.
    rewrite <- He, Hr in Hr'. injection Hr' as ->. apply NoDup_cons in Hnd as [Hnin _]. apply Hnin. by left.
Qed.

Lemma Unique_same w w' f : zone w' = zone w → Unique w f → Unique w' f.
Proof. unfold Unique. by intros ->. Qed.

Lemma Settled_step w f id :
  Wants w f → Settled w f id →
  SameInput w (step w) ∧ Settled (step w) f id ∧ zone (step w) = zone w ∧ fst <$> run handle (Reconcile key) w = Some done_.
Proof.
  intros Hw [(r & Hr & Hst) Ha]. assert (dst_Id (dns_Status (object w)) = Some id) as Hid.
  { rewrite Hst. simpl. by rewrite (zone_id _ _ _ Hr). }
  destruct (step_tracked w f id r Hw Hid Hr) as (Hs & Hset & _ & Hres & Hz).
  split_and!; [done|done| |done]. apply Hz. by rewrite <- Hst.
Qed.

Lemma Settled_forever w f id n :
  Wants w f → Settled w f id →
  SameInput w (Nat.iter n step w) ∧ Settled (Nat.iter n step w) f id ∧ zone (Nat.iter n step w) = zone w ∧
  fst <$> run handle (Reconcile key) (Nat.iter n step w) = Some done_.
Proof.
  intros Hw Hs. assert (SameInput w (Nat.iter n step w) ∧ Settled (Nat.iter n step w) f id ∧
    zone (Nat.iter n step w) = zone w) as (Hsame & Hs' & Hz).
  { induction n as [|n (Hwn & Hsn & Hzn)]; [done|]. simpl.
    destruct (Settled_step _ _ _ (Wants_same _ _ _ Hwn Hw) Hsn) as (? & ? & Hz & _). split_and!; [by etrans|done|by rewrite Hz]. }
  split_and!; [done..|]. by destruct (Settled_step _ _ _ (Wants_same _ _ _ Hsame Hw) Hs') as (_ & _ & _ & ?).
Qed.

(** Where reconciling from [w] has led to: the same input, settled. *)
Definition SettledFrom (w w' : W) (f : Fields) (id : string) : Prop :=
  SameInput w w' ∧ Settled w' f id ∧ ChangesOnly id w w'.

Lemma SettledFrom_step w w' f id : Wants w f → SettledFrom w w' f id → SettledFrom w (step w') f id.
Proof.
  intros Hw (Hs & Hset & Hch). destruct (Settled_step w' f id) as (Hs' & Hset' & Hz & _); [by eapply Wants_same|done|].
  split_and!; [by etrans|done|]. intros j Hj. by rewrite Hz, Hch.
Qed.

Lemma settles_untracked w f :
  Wants w f → Unique w f → dst_Id (dns_Status (object w)) = None → ∃ id, SettledFrom w (step (step w)) f id.
Proof.
  intros Hw Hu Hid. destruct (step_untracked w f Hw Hu Hid) as (id & Hs & (r & Hr & Hst) & Hch).
  assert (Wants (step w) f) as Hw1 by by eapply Wants_same.
  assert (dst_Id (dns_Status (object (step w))) = Some id) as Hid1.
  { rewrite Hst. simpl. by rewrite (zone_id _ _ _ Hr). }
  destruct (step_tracked _ f id r Hw1 Hid1 Hr) as (Hs2 & Hset & Hch2 & _).
  exists id. split_and!; [by etrans|done|]. intros j Hj. by rewrite Hch2, Hch.
Qed.

Lemma settles w f : Wants w f → Unique w f → ∃ id, SettledFrom w (Nat.iter 3 step w) f id.
Proof.
  intros Hw Hu. simpl. destruct (dst_Id (dns_Status (object w))) as [id|] eqn:Hid.
  2:{ destruct (settles_untracked w f Hw Hu Hid) as (id & Hs). exists id. by apply SettledFrom_step. }
  destruct (zone w !! id) as [r|] eqn:Hr.
  - destruct (step_tracked w f id r Hw Hid Hr) as (Hs & Hset & Hch & _).
    exists id. do 2 (apply SettledFrom_step; [done|]). by split_and!.
  - destruct (step_stale w f id Hw Hid Hr) as (Hs & Hid1 & Hz).
    destruct (settles_untracked (step w) f) as (id' & Hs' & Hset & Hch);
      [by eapply Wants_same|by eapply Unique_same|done|].
    exists id'. split_and!; [by etrans|done|]. intros j Hj. by rewrite Hch, Hz.
Qed.

(** C17. Reconciling converges, when nothing fails, for a DnsRecord that is not
    being deleted, that specifies exactly one record, and whose tunnel, if it
    names one, has an id; provided that the API stores the name of the record, and
    the content of a CAA record, as they are written (a CAA record whose content
    the API writes otherwise is updated forever), and that no two records of the
    zone have its name and type. Whatever the status says (no id, an id that is
    gone, or one of a record that has drifted), after three reconciliations the
    zone has a record with the name, type, content and comment of the spec, the
    status tracks it and tells its fields, and no other record of the zone was
    touched; and from then on every further reconciliation ends without an error
    and leaves the zone as it is. *)
Theorem Reconcile_converges w f :
  Wants w f → Unique w f →
  ∃ id, Settled (Nat.iter 3 step w) f id ∧ ChangesOnly id w (Nat.iter 3 step w) ∧
    ∀ n, zone (Nat.iter (n + 3) step w) = zone (Nat.iter 3 step w) ∧
         Settled (Nat.iter (n + 3) step w) f id ∧
         fst <$> run handle (Reconcile key) (Nat.iter (n + 3) step w) = Some done_.
Proof.
  intros Hw Hu. destruct (settles w f Hw Hu) as (id & Hs & Hset & Hch). exists id. split_and!; [done|done|].
  intros n. rewrite Nat.iter_add. destruct (Settled_forever _ f id n (Wants_same _ _ _ Hs Hw) Hset) as (_ & ? & ? & ?).
  by split_and!.
Qed.
End convergence.

(** ** A sample world *)

Record SampleWorld := {
  sw_object : DnsRecord;
  sw_tunnel : CloudflareTunnel + Err;
  sw_zones : string → gmap string RemoteRecord;
}.

Definition withId (id : string) (r : RemoteRecord) : RemoteRecord :=
  {| rr_ID := id; rr_Comment := rr_Comment r; rr_Content := rr_Content r; rr_Name := rr_Name r; rr_Type := rr_Type r |}.

Definition sampleZone (w : SampleWorld) (z : string) : gmap string RemoteRecord :=
  map_imap (λ id r, Some (withId id r)) (sw_zones w z).

Definition setObject (w : SampleWorld) (r : DnsRecord) : SampleWorld :=
  {| sw_object := r; sw_tunnel := sw_tunnel w; sw_zones := sw_zones w |}.

Definition setRecord (w : SampleWorld) (z id : string) (r : RemoteRecord) : SampleWorld :=
  {| sw_object := sw_object w; sw_tunnel := sw_tunnel w;
     sw_zones := λ z', if decide (z' = z) then <[id := r]> (sw_zones w z) else sw_zones w z' |}.

Definition notFoundErr : Err := {| err_message := "404"; err_status := Some 404%Z; err_k8s := None |}.

Definition sampleEcho := echo (λ n, n) (λ d, cad_Tag d +:+ " " +:+ cad_Value d).

Definition sampleHandle (R : Type) (e : RecordE R) (w : SampleWorld) : option (R * SampleWorld) :=
  match e in RecordE R return option (R * SampleWorld) with
  | GetDnsRecord _ => Some (inl (sw_object w), w)
  | PatchDnsRecord _ u => Some (inl u, setObject w u)
  | PatchDnsRecordStatus _ u => Some (inl u, setObject w u)
  | GetRecordTunnel _ => Some (sw_tunnel w, w)
  | ListRemote z n t =>
    Some (inl (filter (λ r, rr_Name r = n ∧ rr_Type r = t) (map_to_list (sampleZone w z)).*2), w)
  | GetRemote z id =>
    Some (match sampleZone w z !! id with Some r => inl r | None => inr notFoundErr end, w)
  | CreateRemote z (Some body) =>
    let id := fresh (dom (sw_zones w z)) in
    Some (inl (sampleEcho id body), setRecord w z id (sampleEcho id body))
  | UpdateRemote z id (Some body) => Some (inl (sampleEcho id body), setRecord w z id (sampleEcho id body))
  | _ => None
  end.

Lemma sampleZone_id w z id r : sampleZone w z !! id = Some r → rr_ID r = id.
Proof.
  unfold sampleZone. rewrite map_lookup_imap. destruct (sw_zones w z !! id); simpl; [|done]. by intros [= <-].
Qed.

Lemma sampleZone_set w z id body :
  sampleZone (setRecord w z id (sampleEcho id body)) z = <[id := sampleEcho id body]> (sampleZone w z).
Proof.
  unfold sampleZone, setRecord. simpl. rewrite decide_True by done.
  apply map_eq. intros j. rewrite map_lookup_imap.
  destruct (decide (id = j)) as [<-|Hne].
  - rewrite !lookup_insert_eq. simpl. f_equal. by destruct body.
  - by rewrite !lookup_insert_ne, map_lookup_imap by done.
Qed.

Lemma sampleList w z n t :
  let l := filter (λ r, rr_Name r = n ∧ rr_Type r = t) (map_to_list (sampleZone w z)).*2 in
  NoDup l ∧ ∀ r, r ∈ l ↔ sampleZone w z !! rr_ID r = Some r ∧ rr_Name r = n ∧ rr_Type r = t.
Proof.
  simpl. split.
  - apply NoDup_filter, NoDup_fmap_2_strong; [|apply NoDup_map_to_list].
    intros [i r] [j s] Hr Hs He. simpl in He. subst s. apply elem_of_map_to_list in Hr, Hs.
    f_equal. by rewrite <- (sampleZone_id _ _ _ _ Hr), <- (sampleZone_id _ _ _ _ Hs).
  - intros r. rewrite list_elem_of_filter, list_elem_of_fmap. split.
    + intros [Hnt ([i s] & -> & Hr)]. apply elem_of_map_to_list in Hr. simpl in *.
      by rewrite (sampleZone_id _ _ _ _ Hr).
    + intros [Hr Hnt]. split; [done|]. exists (rr_ID r, r). by rewrite elem_of_map_to_list.
Qed.

#[local] Instance sampleWorld key : DnsWorld SampleWorld key.
Proof.
  refine {| handle := sampleHandle; object := sw_object; tunnelAt w _ := sw_tunnel w; zoneAt := sampleZone;
            normalName n := n; caaContent d := cad_Tag d +:+ " " +:+ cad_Value d |}; intros; try done.
  - by eapply sampleZone_id.
  - eexists. split; [reflexivity|]. apply sampleList.
  - by exists notFoundErr.
  - by eexists.
  - by eexists.
  - exists (fresh (dom (sw_zones w z))). eexists. split; [|split; [reflexivity|]].
    + unfold sampleZone. rewrite map_lookup_imap, (proj1 (not_elem_of_dom _ _) (is_fresh _)). done.
    + split_and!; [apply sampleZone_set|done..].
  - eexists. split; [reflexivity|]. split_and!; [apply sampleZone_set|done..].
Defined.

(** A record that points at a tunnel, in a zone where the name points elsewhere. *)
Definition sampleCNAME : CNAMERecord :=
  {| cn_Comment := ""; cn_Content := ""; cn_TunnelRef := Some {| dtr_Name := "tunnel" |};
     cn_Name := "www.example.com"; cn_Proxied := true;
     cn_Settings := {| cns_RecordSettings := {| rs_Ipv4Only := false; rs_Ipv6Only := false |};
                       cns_FlattenCname := false |};
     cn_Tags := []; cn_Ttl := 1; cn_Type := "CNAME" |}.

Definition sampleRecord (deleted : option Z) (finalizers : list string) (id : option string) : DnsRecord :=
  let m := sampleMeta "default" "www" in
  {| dns_ObjectMeta :=
       {| om_Name := om_Name m; om_Namespace := om_Namespace m; om_UID := om_UID m;
          om_ResourceVersion := om_ResourceVersion m; om_Generation := om_Generation m;
          om_CreationTimestamp := om_CreationTimestamp m; om_DeletionTimestamp := deleted;
          om_Labels := om_Labels m; om_Annotations := om_Annotations m;
          om_OwnerReferences := om_OwnerReferences m; om_Finalizers := finalizers |};
     dns_Spec := {| ds_ZoneId := "zone";
                    ds_Record := {| dr_ARecord := None; dr_AAAARecord := None; dr_CAARecord := None;
                                    dr_CNAMERecord := Some sampleCNAME; dr_TXTRecord := None |} |};
     dns_Status := {| dst_Id := id; dst_Name := None; dst_Comment := None; dst_Content := None; dst_Type := None |} |}.

Definition oldRecord : RemoteRecord :=
  {| rr_ID := "7"; rr_Comment := ""; rr_Content := "old.example.net"; rr_Name := "www.example.com"; rr_Type := "CNAME" |}.

Definition sampleStart : SampleWorld :=
  {| sw_object := sampleRecord None [] (Some "gone"); sw_tunnel := inl (sampleTunnel (Some "t1") [] []);
     sw_zones := λ _, {[ "7" := oldRecord ]} |}.

Definition sampleFields : Fields := Build_Fields "" "t1.cfargotunnel.com" "www.example.com" "CNAME".

(** From an id that is gone, through the adoption of the old record. *)
Lemma Reconcile_converges_witness :
  let H := sampleHelpers in let key := {| nn_Namespace := "default"; nn_Name := "www" |} in
  ∃ id, Settled (key := key) (Nat.iter 3 (step (key := key)) sampleStart) sampleFields id.
Proof.
  intros H key.
  destruct (Reconcile_converges (key := key) sampleStart sampleFields) as (id & Hs & _).
  - split; [done|]. eexists. split; [reflexivity|]. split_and!; done.
  - assert (∀ i r, zone (key := key) sampleStart !! i = Some r → i = "7") as Hz.
    { intros i r. unfold zone. cbn. unfold sampleZone. rewrite map_lookup_imap. cbn [sw_zones sampleStart].
      destruct (decide ("7" = i)) as [->|Hne]; [done|]. by rewrite lookup_singleton_ne. }
    intros i j r s Hi Hj _ _ _ _. by rewrite (Hz _ _ Hi), (Hz _ _ Hj).
  - by exists id.
Defined.

(** The answers of a run that deletes a record: the object, the records of the
    cluster, and what the API says. *)
Definition sampleAnswers (got : DnsRecord) (all : list DnsRecord) (remote : list RemoteRecord)
    (deleted : option Err) (R : Type) (e : RecordE R) : option R :=
  match e in RecordE R return option R with
  | GetDnsRecord _ => Some (inl got)
  | PatchDnsRecord _ u => Some (inl u)
  | PatchDnsRecordStatus _ u => Some (inl u)
  | GetRecordTunnel _ => Some (inl (sampleTunnel (Some "t1") [] []))
  | ListAllDnsRecords => Some (inl all)
  | ListRemote _ _ _ => Some (inl remote)
  | GetRemote _ id => Some (inl oldRecord)
  | CreateRemote _ (Some body) => Some (inl (sampleEcho "1" body))
  | UpdateRemote _ id (Some body) => Some (inl (sampleEcho id body))
  | DeleteRemote _ _ => Some deleted
  | _ => None
  end.

(** The delete answers that the record is gone, and the finalizer is dropped. *)
Lemma Reconcile_deletes_witness :
  let H := sampleHelpers in let key := {| nn_Namespace := "default"; nn_Name := "www" |} in
  let record := sampleRecord (Some 5%Z) [dnsRecordFinalizer] (Some "7") in
  ∃ tr res, exec (Reconcile key) (Ev (GetDnsRecord key) (inl record) :: tr) res ∧
    omap remoteWrite tr = [WDelete "zone" "7" (Some notFoundErr)] ∧ Deletes record tr res.
Proof.
  intros H key record.
  destruct (runTrace (sampleAnswers record [record] [] (Some notFoundErr)) (Reconcile key)) as [[tr res]|] eqn:Er;
    [|by vm_compute in Er].
  pose proof (runTrace_exec _ _ _ _ Er) as Hx.
  assert (omap recordGot tr = [inl record] ∧ omap remoteWrite tr = [WDelete "zone" "7" (Some notFoundErr)] ∧
    om_DeletionTimestamp (dns_ObjectMeta record) ≠ None) as (Hg & Hw & Hd) by (vm_compute in Er; injection Er as <- <-; by vm_compute).
  destruct (Reconcile_deletes key tr res record Hx Hg Hd) as (tr' & -> & Hdel). exists tr', res. by split_and!.
Defined.

(** The record is created where the zone has none of the name. *)
Lemma Reconcile_creates_once_witness :
  let H := sampleHelpers in let key := {| nn_Namespace := "default"; nn_Name := "www" |} in
  let record := sampleRecord None [] None in
  ∃ tr res held spec body res', exec (Reconcile key) tr res ∧
    omap remoteWrite tr = [WCreate "zone" (Some body) (inl res')] ∧
    Held record tr held ∧ Resolved held tr spec ∧ body = cnameParam (withContent sampleCNAME "t1.cfargotunnel.com").
Proof.
  intros H key record.
  destruct (runTrace (sampleAnswers record [] [] None) (Reconcile key)) as [[tr res]|] eqn:Er;
    [|by vm_compute in Er].
  pose proof (runTrace_exec _ _ _ _ Er) as Hx. exists tr, res.
  assert (omap recordGot tr = [inl record] ∧ ∃ body res', omap remoteWrite tr = [WCreate "zone" (Some body) (inl res')] ∧
    body = cnameParam (withContent sampleCNAME "t1.cfargotunnel.com"))
    as (Hg & body & res' & Hw & Hb).
  { vm_compute in Er. injection Er as <- <-. split; [by vm_compute|]. eexists _, _. split; [by vm_compute|]. by vm_compute. }
  destruct (Reconcile_creates_once key tr res record Hx Hg eq_refl) as [[Hn _]|(held & spec & Hh & Hr & _)];
    [by rewrite Hn in Hw|].
  by exists held, spec, body, res'.
Defined.

(** ** What is not sent or not compared *)

(** The content of a CAA record is compared but not sent: where the API renders
    the data as anything else, no write ever makes the record agree. *)
Lemma caa_never_agrees nn cc id c spec body :
  fieldsOf spec = [Build_Fields (caa_Comment c) (caa_Content c) (caa_Name c) (caa_Type c)] →
  dr_CAARecord spec = Some c → cc (caa_Data c) ≠ caa_Content c →
  toCloudflareUpdate spec = Some body → diff spec (observed (echo nn cc id body)) = true.
Proof.
  intros Hf Hc Hcc Hb. destruct (diff _ _) eqn:Ed; [done|]. exfalso.
  rewrite diff_fields, Hf in Ed. specialize (Ed _ eq_refl) as (_ & Hct & _).
  unfold toCloudflareUpdate, fieldsOf in *. rewrite Hc in *.
  destruct (dr_AAAARecord spec), (dr_ARecord spec), (dr_CNAMERecord spec), (dr_TXTRecord spec); simpl in Hf;
    try discriminate Hf. injection Hb as <-. simpl in Hct. injection Hct as Hct. apply Hcc.
  by destruct (caa_Data c).
Qed.

(** Whether a record is proxied, its time to live, settings and tags are sent
    but not compared, so a change of them alone is never sent. *)
Lemma diff_ignores_settings r ttl proxied settings tags spec st :
  dr_ARecord spec = Some r →
  diff {| dr_ARecord := Some {| a_Comment := a_Comment r; a_Content := a_Content r; a_Name := a_Name r;
                                a_Proxied := proxied; a_Settings := settings; a_Tags := tags;
                                a_Ttl := ttl; a_Type := a_Type r |};
          dr_AAAARecord := dr_AAAARecord spec; dr_CAARecord := dr_CAARecord spec;
          dr_CNAMERecord := dr_CNAMERecord spec; dr_TXTRecord := dr_TXTRecord spec |} st = diff spec st.
Proof. intros Hr. unfold diff. simpl. by rewrite Hr. Qed.

(** The records a tunnel's change reconciles are those of its namespace that
    refer to it by name. *)
Lemma recordsForTunnel_spec obj tr ks :
  exec (recordsForTunnel obj) tr ks →
  ∃ ans, tr = [Ev (ListDnsRecordsIn (om_Namespace obj)) ans] ∧
    ∀ k, k ∈ ks ↔ ∃ items r c ref, ans = inl items ∧ r ∈ items ∧ k = objectKey r ∧
      dr_CNAMERecord (ds_Record (dns_Spec r)) = Some c ∧ cn_TunnelRef c = Some ref ∧ dtr_Name ref = om_Name obj.
Proof.
  unfold recordsForTunnel. intros Hx. exec_inv. eexists. split; [done|]. intros k.
  match goal with x : _ + _ |- _ => destruct x as [items|err] end.
  2: { split; [by intros ?%elem_of_nil|]. by intros (? & ? & ? & ? & ? & _). }
  rewrite list_elem_of_fmap. split.
  - intros (r & -> & Hr). apply list_elem_of_In, List.filter_In in Hr as [Hin Hr].
    unfold refersToTunnel in Hr. destruct (dr_CNAMERecord _) as [c|] eqn:Ec; [|done].
    destruct (cn_TunnelRef c) as [ref|] eqn:Ef; [|done]. apply str_eqb_eq in Hr.
    exists items, r, c, ref. split_and!; try done. by apply list_elem_of_In.
  - intros (items' & r & c & ref & [= <-] & Hin & -> & Hc & Hf & Hn). exists r. split; [done|].
    apply list_elem_of_In, List.filter_In. split; [by apply list_elem_of_In|].
    unfold refersToTunnel. rewrite Hc, Hf. by apply str_eqb_eq.
Qed.
