(* ===== verification/DnsPath.v ===== *)
(** * From a tunnel's hostname to its record

    The tunnel controller asks for a DnsRecord for each hostname of the tunnel's
    configuration, and the DnsRecord controller keeps the record it asks for:
    the two together, in a world in which nothing fails. *)
From S2P Require Import Prelude GatewayAPI Samples API Effects Helpers Model Tunnel Envoy TunnelApi Dns RecordCtl.

Section path.
Context `{ObjectHelpers, Sha256} {W : Type} {key : NamespacedName} `{DnsWorld W key}.
Context (tunnel : CloudflareTunnel) (tunnelId : string).

(** The record a hostname's DnsRecord asks for. *)
Definition hostFields (host : string) : Fields := Build_Fields "" (tunnelTarget tunnelId) host "CNAME".

(** The world once the object was written: it is the one asked for, and the
    tunnel it names has the id. *)
Definition written (w : W) (rec : DnsRecord) : Prop :=
  dns_Spec (object w) = dns_Spec rec ∧ om_DeletionTimestamp (dns_ObjectMeta (object w)) = None ∧
  ∃ t, tunnelAt w {| nn_Namespace := om_Namespace (dns_ObjectMeta (object w));
                     nn_Name := om_Name (tun_ObjectMeta tunnel) |} = inl t ∧
       tst_Id (tun_Status t) = Some tunnelId.

Lemma written_wants host r o rec w :
  mutateRecord tunnel host r o = inl rec → normalName host = host → written w rec → Wants w (hostFields host).
Proof.
  intros Hm Hn (Hs & Hd & t & Ht & Hid). apply mutateRecord_spec in Hm as (Hspec & _ & _).
  split; [done|]. eexists. split.
  - unfold target. rewrite Hs, Hspec. simpl. by rewrite Ht, Hid.
  - split_and!; [done|done|]. simpl. discriminate.
Qed.

(** A DnsRecord that is settled is one its tunnel counts as ready. *)
Lemma Settled_ready w host id : Settled w (hostFields host) id → dnsRecordReady (object w) tunnelId = true.
Proof.
  intros [(r & Hr & Hst) (Hc & Hcontent & _)]. unfold dnsRecordReady. rewrite Hcontent. simpl.
  rewrite Hst. simpl. by rewrite str_eqb_refl.
Qed.

Lemma applied_all tr d host r :
  exec (reconcileDns tunnel tunnelId) tr (inl d) → d_problems d = [] →
  (desiredDnsRecords tunnel).1 !! host = Some r → ∃ rec, (applyRequest tunnel host r, inl rec) ∈ omap recordApplied tr.
Proof.
  intros Hx%reconcileDns_outcome Hp Hr. destruct (desiredDnsRecords tunnel) as [desired problems].
  destruct Hx as (_ & _ & _ & _ & Hall). by apply (Hall Hp).
Qed.

(** C14. Once a reconciliation of a tunnel's DNS reports no problem, every
    hostname its configuration gives a zone has a DnsRecord; and three
    reconciliations of that DnsRecord, whatever the zone held and its status
    said, as long as the zone has no two records of the name, give the zone a
    CNAME of that hostname to the tunnel, touching no other record; from then on
    it stays, and the tunnel's next reconciliation counts the DnsRecord as
    ready. The API server is taken to store what it is asked to, and Cloudflare
    to keep the hostname as it is written. *)
Theorem hostname_reaches_tunnel tr d host r :
  exec (reconcileDns tunnel tunnelId) tr (inl d) → d_problems d = [] →
  (desiredDnsRecords tunnel).1 !! host = Some r →
  (∀ obj mutate rec, (obj, mutate, inl rec) ∈ omap recordApplied tr → ∃ o, mutate o = inl rec) →
  normalName host = host →
  ∃ rec, (applyRequest tunnel host r, inl rec) ∈ omap recordApplied tr ∧
    ∀ w, written w rec → Unique w (hostFields host) →
    ∃ id remote, zoneAt (Nat.iter 3 step w) (rd_ZoneId r) !! id = Some remote ∧
      rr_Name remote = host ∧ rr_Type remote = "CNAME" ∧ rr_Content remote = tunnelTarget tunnelId ∧
      (∀ j, j ≠ id → zoneAt (Nat.iter 3 step w) (rd_ZoneId r) !! j = zoneAt w (rd_ZoneId r) !! j) ∧
      ∀ n, zoneAt (Nat.iter (n + 3) step w) (rd_ZoneId r) = zoneAt (Nat.iter 3 step w) (rd_ZoneId r) ∧
        dnsRecordReady (object (Nat.iter (n + 3) step w)) tunnelId = true.
Proof.
  intros Hx Hp Hr Hstored Hn. destruct (applied_all tr d host r Hx Hp Hr) as (rec & Hrec).
  exists rec. split; [done|]. intros w Hw Hu. destruct (Hstored _ _ _ Hrec) as (o & Hm).
  pose proof (written_wants host r o rec w Hm Hn Hw) as Hwants.
  assert (ds_ZoneId (dns_Spec (object w)) = rd_ZoneId r) as Hz.
  { destruct Hw as (-> & _). apply mutateRecord_spec in Hm as (-> & _ & _). done. }
  assert (∀ w', SameInput w w' → zone w' = zoneAt w' (rd_ZoneId r)) as Hzone.
  { intros w' (Hs & _). unfold zone. by rewrite Hs, Hz. }
  destruct (settles w _ Hwants Hu) as (id & Hs & Hset & Hch). pose proof Hset as [(remote & Hremote & Hst) (Hc1 & Hc2 & Hc3 & Hc4)].
  rewrite Hst in Hc2, Hc3, Hc4. simpl in Hc2, Hc3, Hc4.
  exists id, remote. rewrite <- (Hzone _ Hs), <- (Hzone w) by done. split_and!; [done|congruence|congruence|congruence|done|].
  intros n. rewrite Nat.iter_add.
  destruct (Settled_forever _ (hostFields host) id n (Wants_same _ _ _ Hs Hwants) Hset) as (Hs' & Hset' & Hz' & _).
  split; [|by eapply Settled_ready]. rewrite <- Hzone by (by etrans). by rewrite Hz'.
Qed.
End path.

(** ** A sample *)

Definition wwwTunnel : CloudflareTunnel :=
  sampleTunnel (Some "id") [sampleIngress "www.example.com" (Some "z1"); sampleIngress "" None] [].

Definition wwwSettings : resolvedDns := {| rd_ZoneId := "z1"; rd_Proxied := true; rd_Ttl := 1 |}.
Definition wwwName : string := @dnsRecordName dnsSha256 wwwTunnel "www.example.com".
Definition wwwKey : NamespacedName := {| nn_Namespace := "default"; nn_Name := wwwName |}.

Definition wwwRecord : DnsRecord :=
  match @mutateRecord sampleHelpers wwwTunnel "www.example.com" wwwSettings (emptyDnsRecord "default" wwwName) with
  | inl rec => rec
  | inr _ => emptyDnsRecord "" ""
  end.

(** The zone has a record of the name, which points elsewhere. *)
Definition wwwStart : SampleWorld :=
  {| sw_object := wwwRecord; sw_tunnel := inl wwwTunnel; sw_zones := λ _, {[ "7" := oldRecord ]} |}.

(** The sample API stores what it is asked to. *)
Lemma dnsAnswers_store (p : prog TunnelE (tunnelDns + Err)) tr res obj mutate ans :
  runTrace dnsAnswers p = Some (tr, res) → (obj, mutate, ans) ∈ omap recordApplied tr → mutate obj = ans.
Proof.
  intros Hr ([R e r] & Hin & Hv)%list_elem_of_omap. pose proof (runTrace_answers _ _ _ _ _ _ _ Hr Hin) as Ha.
  destruct e; try discriminate Hv. simpl in *. by simplify_eq.
Qed.

Lemma hostname_reaches_tunnel_witness :
  let H := sampleHelpers in let S := dnsSha256 in let world := sampleWorld wwwKey in
  ∃ id remote, zoneAt (key := wwwKey) (Nat.iter 3 (step (key := wwwKey)) wwwStart) "z1" !! id = Some remote ∧
    rr_Content remote = "id.cfargotunnel.com".
Proof.
  intros H S world.
  destruct (runTrace_test dnsAnswers (@reconcileDns H S wwwTunnel "id")
    (λ _ r, match r with inl d => bool_decide (d_problems d = []) | inr _ => false end)) as (tr & [d|e] & Hr & Ht);
    [vm_compute; reflexivity| |discriminate Ht].
  apply bool_decide_eq_true in Ht.
  destruct (hostname_reaches_tunnel (key := wwwKey) wwwTunnel "id" tr d "www.example.com" wwwSettings)
    as (rec & Hrec & Hw); [by eapply runTrace_exec|exact Ht|vm_compute; reflexivity| |reflexivity|].
  { intros obj mutate rec Hin. exists obj. by eapply dnsAnswers_store. }
  apply (dnsAnswers_store _ _ _ _ _ _ Hr) in Hrec.
  assert (@mutateRecord H wwwTunnel "www.example.com" wwwSettings (emptyDnsRecord "default" wwwName) = inl wwwRecord)
    as Hwww by (vm_compute; reflexivity).
  change (@mutateRecord H wwwTunnel "www.example.com" wwwSettings (emptyDnsRecord "default" wwwName) = inl rec) in Hrec.
  rewrite Hwww in Hrec. injection Hrec as <-.
  destruct (Hw wwwStart) as (id & remote & Hremote & _ & _ & Hc & _).
  - split; [reflexivity|]. split; [reflexivity|]. exists wwwTunnel. by split.
  - assert (∀ i r, zone (key := wwwKey) wwwStart !! i = Some r → i = "7") as Hz.
    { intros i r. unfold zone. cbn. unfold sampleZone. rewrite map_lookup_imap. cbn [sw_zones wwwStart].
      destruct (decide ("7" = i)) as [->|Hne]; [done|]. by rewrite lookup_singleton_ne. }
    intros i j r s Hi Hj _ _ _ _. by rewrite (Hz _ _ Hi), (Hz _ _ Hj).
  - exists id, remote. split; [exact Hremote|exact Hc].
Defined.
