(* ===== verification/Access.v ===== *)
(** * Access to TLS Secrets (internal/secrets/access.go)

    [Access] keeps one cache of TLS Secrets per namespace it is told to watch. Its
    methods run on many goroutines under one lock, and each cache has goroutines
    of its own, so the component is a transition system: a state, one transition
    per critical section, and invariants of the reachable states. A cache is its
    number, the order in which [watch] made it, which stands for the pointer to
    its [namespaceCache]. *)
From S2P Require Import Prelude GatewayAPI Effects.

(** ** State *)

Record namespaceCache := { nc_id : nat; nc_synced : bool }.

Record Access := {
  a_started : bool;                            (* closed by Start *)
  a_namespaces : gmap string namespaceCache;
  a_subscribers : list nat;
  (* what the caches and contexts outside the struct are in *)
  e_next : nat;                                (* caches made *)
  e_owner : gmap nat string;                   (* the namespace a cache was made for *)
  e_cancelled : gset nat;                      (* caches whose context is cancelled *)
  e_waiting : gset nat;                        (* goroutines in WaitForCacheSync *)
  e_ready : gset nat;                          (* goroutines it returned true to *)
  e_synced : gset nat;                         (* caches that have synced *)
  e_stopped : bool;                            (* the context of Start is done *)
  e_gone : gset nat;                           (* subscribers whose context is done *)
  e_handed : list (nat * string);              (* events handed to subscribers *)
}.

Definition initial : Access :=
  {| a_started := false; a_namespaces := ∅; a_subscribers := []; e_next := 0; e_owner := ∅;
     e_cancelled := ∅; e_waiting := ∅; e_ready := ∅; e_synced := ∅; e_stopped := false; e_gone := ∅; e_handed := [] |}.

(** [NeedLeaderElection]: every replica reads Secrets. *)
Definition Access_NeedLeaderElection (a : Access) : bool := false.

(** Updates of some fields. *)
Definition withNamespaces (a : Access) (ns : gmap string namespaceCache) : Access :=
  {| a_started := a_started a; a_namespaces := ns; a_subscribers := a_subscribers a; e_next := e_next a;
     e_owner := e_owner a; e_cancelled := e_cancelled a; e_waiting := e_waiting a; e_ready := e_ready a; e_synced := e_synced a;
     e_stopped := e_stopped a; e_gone := e_gone a; e_handed := e_handed a |}.

Definition withHanded (a : Access) (l : list (nat * string)) : Access :=
  {| a_started := a_started a; a_namespaces := a_namespaces a; a_subscribers := a_subscribers a;
     e_next := e_next a; e_owner := e_owner a; e_cancelled := e_cancelled a; e_waiting := e_waiting a;
     e_ready := e_ready a; e_synced := e_synced a; e_stopped := e_stopped a; e_gone := e_gone a; e_handed := l |}.

Definition withGoroutines (a : Access) (waiting ready : gset nat) : Access :=
  {| a_started := a_started a; a_namespaces := a_namespaces a; a_subscribers := a_subscribers a;
     e_next := e_next a; e_owner := e_owner a; e_cancelled := e_cancelled a; e_waiting := waiting;
     e_ready := ready; e_synced := e_synced a; e_stopped := e_stopped a; e_gone := e_gone a; e_handed := e_handed a |}.

(** WaitForCacheSync returns true to the goroutine of a cache. *)
Definition cacheSynced (a : Access) (id : nat) : Access :=
  {| a_started := a_started a; a_namespaces := a_namespaces a; a_subscribers := a_subscribers a;
     e_next := e_next a; e_owner := e_owner a; e_cancelled := e_cancelled a; e_waiting := e_waiting a ∖ {[id]};
     e_ready := {[id]} ∪ e_ready a; e_synced := {[id]} ∪ e_synced a; e_stopped := e_stopped a;
     e_gone := e_gone a; e_handed := e_handed a |}.

(** ** Operations *)

(** [Start], up to where it blocks. *)
Definition Start (a : Access) : Access :=
  {| a_started := true; a_namespaces := a_namespaces a; a_subscribers := a_subscribers a;
     e_next := e_next a; e_owner := e_owner a; e_cancelled := e_cancelled a; e_waiting := e_waiting a;
     e_ready := e_ready a; e_synced := e_synced a; e_stopped := e_stopped a; e_gone := e_gone a; e_handed := e_handed a |}.

Definition Namespaces (a : Access) : gset string := dom (a_namespaces a).

(** [notifyLocked] hands every subscriber that is not done an event for [ns]. *)
Definition liveSubscribers (a : Access) : list nat := List.filter (λ s, bool_decide (s ∉ e_gone a)) (a_subscribers a).

Definition notifyLocked (a : Access) (ns : string) : Access :=
  withHanded a (e_handed a ++ ((λ s, (s, ns)) <$> liveSubscribers a)).

(** [watch]: [fails] is the error of the client library, when the cache or its
    informer cannot be made, in which case the context is cancelled again. *)
Definition watch (fails : option Err) (a : Access) (ns : string) : Access + Err :=
  match fails with
  | Some err => inr err
  | None =>
    let id := e_next a in
    inl {| a_started := a_started a;
           a_namespaces := <[ns := {| nc_id := id; nc_synced := false |}]> (a_namespaces a);
           a_subscribers := a_subscribers a; e_next := S id; e_owner := <[id := ns]> (e_owner a);
           e_cancelled := e_cancelled a; e_waiting := {[id]} ∪ e_waiting a; e_ready := e_ready a; e_synced := e_synced a;
           e_stopped := e_stopped a; e_gone := e_gone a; e_handed := e_handed a |}
  end.

(** The cache of [ns] is stopped and forgotten. *)
Definition stop (a : Access) (ns : string) (nc : namespaceCache) : Access :=
  {| a_started := a_started a; a_namespaces := delete ns (a_namespaces a); a_subscribers := a_subscribers a;
     e_next := e_next a; e_owner := e_owner a; e_cancelled := {[nc_id nc]} ∪ e_cancelled a;
     e_waiting := e_waiting a; e_ready := e_ready a; e_synced := e_synced a; e_stopped := e_stopped a; e_gone := e_gone a;
     e_handed := e_handed a |}.

(** The loop over the namespaces watched, in the order [ks] the map is ranged
    over; with the namespaces it stopped. *)
Fixpoint stopUnwanted (want : gset string) (ks : list string) (a : Access) : Access * list string :=
  match ks with
  | [] => (a, [])
  | ns :: ks =>
    match a_namespaces a !! ns with
    | Some nc =>
      if decide (ns ∈ want) then stopUnwanted want ks a
      else let '(a, changed) := stopUnwanted want ks (stop a ns nc) in (a, ns :: changed)
    | None => stopUnwanted want ks a
    end
  end.

(** The loop over the namespaces wanted. *)
Fixpoint startMissing (fails : string → option Err) (ks : list string) (a : Access) : Access * option Err :=
  match ks with
  | [] => (a, None)
  | ns :: ks =>
    match a_namespaces a !! ns with
    | Some _ => startMissing fails ks a
    | None =>
      match watch (fails ns) a ns with
      | inr err => (a, Some (wrapErr ("watching Secrets in " +:+ ns) err))
      | inl a => startMissing fails ks a
      end
    end
  end.

(** The orders the two maps and the set of changed namespaces are ranged over. *)
Record Orders := { o_namespaces : list string; o_want : list string; o_changed : list string }.

(** [SetNamespaces], with [done] the error of its context when that is what the
    [select] takes. *)
Definition SetNamespaces (orders : Orders) (fails : string → option Err) (done : option Err)
    (want : gset string) (a : Access) : Access * option Err :=
  match done with
  | Some err => (a, Some err)
  | None =>
    let '(a, _) := stopUnwanted want (o_namespaces orders) a in
    let '(a, err) := startMissing fails (o_want orders) a in
    match err with
    | Some err => (a, Some err)
    | None => (foldl notifyLocked a (o_changed orders), None)
    end
  end.

(** The orders are those of the maps. *)
Definition Ordered (orders : Orders) (want : gset string) (a : Access) : Prop :=
  o_namespaces orders ≡ₚ elements (dom (a_namespaces a)) ∧
  o_want orders ≡ₚ elements want ∧
  o_changed orders ≡ₚ (stopUnwanted want (o_namespaces orders) a).2.

(** The goroutine of a cache after its WaitForCacheSync returned true: the cache
    is marked unless it was replaced meanwhile. *)
Definition markSynced (a : Access) (id : nat) (ns : string) : Access :=
  let a := withGoroutines a (e_waiting a) (e_ready a ∖ {[id]}) in
  match a_namespaces a !! ns with
  | Some nc =>
    if bool_decide (nc_id nc = id) then
      notifyLocked (withNamespaces a (<[ns := {| nc_id := id; nc_synced := true |}]> (a_namespaces a))) ns
    else a
  | None => a
  end.

(** [accessSource.Start] and a subscriber whose context ends. *)
Definition subscribe (a : Access) (s : nat) : Access :=
  {| a_started := a_started a; a_namespaces := a_namespaces a; a_subscribers := a_subscribers a ++ [s];
     e_next := e_next a; e_owner := e_owner a; e_cancelled := e_cancelled a; e_waiting := e_waiting a;
     e_ready := e_ready a; e_synced := e_synced a; e_stopped := e_stopped a; e_gone := e_gone a; e_handed := e_handed a |}.

Definition unsubscribe (a : Access) (s : nat) : Access :=
  {| a_started := a_started a; a_namespaces := a_namespaces a; a_subscribers := a_subscribers a;
     e_next := e_next a; e_owner := e_owner a; e_cancelled := e_cancelled a; e_waiting := e_waiting a;
     e_ready := e_ready a; e_synced := e_synced a; e_stopped := e_stopped a; e_gone := {[s]} ∪ e_gone a; e_handed := e_handed a |}.

(** The context of [Start] ends, and with it those of the caches. *)
Definition shutdown (a : Access) : Access :=
  {| a_started := a_started a; a_namespaces := a_namespaces a; a_subscribers := a_subscribers a;
     e_next := e_next a; e_owner := e_owner a; e_cancelled := e_cancelled a; e_waiting := e_waiting a;
     e_ready := e_ready a; e_synced := e_synced a; e_stopped := true; e_gone := e_gone a; e_handed := e_handed a |}.

(** What [Get] answers: [UnavailableError], or what the cache of the namespace
    answers. *)
Inductive GetErr := UnavailableError (Namespace Reason : string) | ReadErr (e : Err).

(** [Get], what it looks up under the lock: the cache to read, or the answer. *)
Definition lookupCache (a : Access) (key : NamespacedName) : nat + GetErr :=
  let ns := nn_Namespace key in
  match a_namespaces a !! ns with
  | None =>
    inr (UnavailableError ns ("The operator is not watching Secrets in namespace " +:+ ns +:+ " yet"))
  | Some nc =>
    if nc_synced nc then inl (nc_id nc)
    else inr (UnavailableError ns ("Waiting for access to Secrets in namespace " +:+ ns))
  end.

(** [Get]: the lock is released between the lookup, in [a], and the read of the
    cache, in [a'], which may have been stopped meanwhile. What a cache answers in
    a state is the library's. *)
Definition Get (read : Access → nat → NamespacedName → Secret + Err) (a a' : Access) (key : NamespacedName) : Secret + GetErr :=
  match lookupCache a key with
  | inr err => inr err
  | inl id => match read a' id key with inl secret => inl secret | inr err => inr (ReadErr err) end
  end.

(** ** Transitions *)

(** The context a cache runs under is not done. *)
Definition Running (a : Access) (id : nat) : Prop := id ∉ e_cancelled a ∧ e_stopped a = false.

Inductive Step : Access → Access → Prop :=
  | step_Start a : a_started a = false → Step a (Start a)
  | step_SetNamespaces a orders fails done want :
      (done = None → a_started a = true ∧ Ordered orders want a) →
      Step a (SetNamespaces orders fails done want a).1
  | step_synced a id : id ∈ e_waiting a → Step a (cacheSynced a id)
  | step_abandoned a id : id ∈ e_waiting a → ¬ Running a id →
      Step a (withGoroutines a (e_waiting a ∖ {[id]}) (e_ready a))
  | step_mark a id ns : id ∈ e_ready a → e_owner a !! id = Some ns → Step a (markSynced a id ns)
  | step_event a id ns : e_owner a !! id = Some ns → Step a (notifyLocked a ns)
  | step_subscribe a s : s ∉ a_subscribers a → s ∉ e_gone a → Step a (subscribe a s)
  | step_unsubscribe a s : Step a (unsubscribe a s)
  | step_shutdown a : a_started a = true → Step a (shutdown a).

Definition Reachable : Access → Prop := rtc Step initial.

(** ** The invariant *)

Record Inv (a : Access) : Prop := {
  inv_started : a_namespaces a ≠ ∅ → a_started a = true;
  inv_fresh id ns : e_owner a !! id = Some ns → id < e_next a;
  inv_owner ns nc : a_namespaces a !! ns = Some nc → e_owner a !! nc_id nc = Some ns;
  inv_current id ns : e_owner a !! id = Some ns →
    (id ∉ e_cancelled a ↔ ∃ nc, a_namespaces a !! ns = Some nc ∧ nc_id nc = id);
  inv_cancelled id : id ∈ e_cancelled a → id < e_next a;
  inv_goroutine id : id ∈ e_waiting a ∪ e_ready a → id < e_next a;
  inv_disjoint id : id ∈ e_waiting a → id ∈ e_ready a → False;
  inv_synced ns nc : a_namespaces a !! ns = Some nc → nc_synced nc = true →
    nc_id nc ∉ e_waiting a ∪ e_ready a;
  inv_pending ns nc : a_namespaces a !! ns = Some nc → nc_synced nc = false →
    nc_id nc ∈ e_waiting a ∪ e_ready a ∨ e_stopped a = true;
  inv_ready id : id ∈ e_ready a → id ∈ e_synced a;
  inv_marked ns nc : a_namespaces a !! ns = Some nc → nc_synced nc = true → nc_id nc ∈ e_synced a;
}.

Lemma Inv_initial : Inv initial.
Proof. split; simpl; intros; try done; set_solver. Qed.

(** The invariant speaks of neither subscribers nor events. *)
Lemma Inv_frame a a' :
  a_started a' = a_started a → a_namespaces a' = a_namespaces a → e_next a' = e_next a →
  e_owner a' = e_owner a → e_cancelled a' = e_cancelled a → e_waiting a' = e_waiting a →
  e_ready a' = e_ready a → e_synced a' = e_synced a → e_stopped a' = e_stopped a → Inv a → Inv a'.
Proof. intros E1 E2 E3 E4 E5 E6 E7 E8 E9 []. split; rewrite ?E1, ?E2, ?E3, ?E4, ?E5, ?E6, ?E7, ?E8, ?E9; done. Qed.

Lemma Inv_notify a ns : Inv a → Inv (notifyLocked a ns).
Proof. by apply Inv_frame. Qed.

(** Two namespaces do not share a cache. *)
Lemma Inv_distinct a ns ns' nc nc' :
  Inv a → a_namespaces a !! ns = Some nc → a_namespaces a !! ns' = Some nc' → nc_id nc = nc_id nc' → ns = ns'.
Proof.
  intros Hi Hn Hn' He. pose proof (inv_owner _ Hi _ _ Hn) as Ho.
  rewrite He, (inv_owner _ Hi _ _ Hn') in Ho. congruence.
Qed.

Lemma Inv_stop a ns nc : a_namespaces a !! ns = Some nc → Inv a → Inv (stop a ns nc).
Proof.
  intros Hn Hi. split; simpl.
  - intros _. apply (inv_started _ Hi). intros He. by rewrite He, lookup_empty in Hn.
  - apply (inv_fresh _ Hi).
  - intros ns' nc' [_ Hn']%lookup_delete_Some. by apply (inv_owner _ Hi).
  - intros id ns' Ho. rewrite not_elem_of_union, not_elem_of_singleton, (inv_current _ Hi _ _ Ho). split.
    + intros (Hne & nc' & Hn' & <-). exists nc'. split; [|done]. apply lookup_delete_Some. split; [|done].
      intros <-. rewrite Hn in Hn'. by injection Hn' as ->.
    + intros (nc' & [Hne Hn']%lookup_delete_Some & <-). split; [|by exists nc'].
      intros He. apply Hne. by eapply Inv_distinct.
  - intros id [->%elem_of_singleton|Hc]%elem_of_union; [|by apply (inv_cancelled _ Hi)].
    eapply (inv_fresh _ Hi), (inv_owner _ Hi), Hn.
  - apply (inv_goroutine _ Hi).
  - apply (inv_disjoint _ Hi).
  - intros ns' nc' [_ Hn']%lookup_delete_Some. by apply (inv_synced _ Hi ns').
  - intros ns' nc' [_ Hn']%lookup_delete_Some. by apply (inv_pending _ Hi ns').
  - apply (inv_ready _ Hi).
  - intros ns' nc' [_ Hn']%lookup_delete_Some. by apply (inv_marked _ Hi ns').
Qed.

Lemma Inv_watch a ns fails a' :
  a_started a = true → a_namespaces a !! ns = None → Inv a → watch fails a ns = inl a' → Inv a'.
Proof.
  intros Hst Hn Hi. unfold watch. destruct fails; [done|]. intros [= <-].
  assert (∀ ns', e_owner a !! e_next a = Some ns' → False) as Hfresh.
  { intros ns' Ho. apply (inv_fresh _ Hi) in Ho. lia. }
  split; simpl.
  - done.
  - intros id ns' [[<- _]|[_ Ho]]%lookup_insert_Some; [lia|]. apply (inv_fresh _ Hi) in Ho. lia.
  - intros ns' nc [[<- <-]|[Hne Hn']]%lookup_insert_Some; simpl; [by rewrite lookup_insert_eq|].
    pose proof (inv_owner _ Hi _ _ Hn') as Ho. rewrite lookup_insert_ne; [done|].
    intros He. rewrite <- He in Ho. by eapply Hfresh.
  - intros id ns' [[<- <-]|[Hne Ho]]%lookup_insert_Some.
    + split; [intros _; eexists; by rewrite lookup_insert_eq|]. intros _ Hc.
      apply (inv_cancelled _ Hi) in Hc. lia.
    + rewrite (inv_current _ Hi _ _ Ho). split; intros (nc & Hnc & <-).
      * exists nc. split; [|done]. rewrite lookup_insert_ne; [done|]. intros <-. by rewrite Hn in Hnc.
      * apply lookup_insert_Some in Hnc as [[<- <-]|[_ Hnc]]; [done|]. by exists nc.
  - intros id Hc. apply (inv_cancelled _ Hi) in Hc. lia.
  - intros id Hg. assert (id = e_next a ∨ id ∈ e_waiting a ∪ e_ready a) as [->|Hg'] by set_solver; [lia|].
    apply (inv_goroutine _ Hi) in Hg'. lia.
  - intros id [->%elem_of_singleton|Hw]%elem_of_union Hr; [|by eapply (inv_disjoint _ Hi)].
    assert (e_next a < e_next a); [|lia]. apply (inv_goroutine _ Hi). set_solver.
  - intros ns' nc [[<- <-]|[Hne Hn']]%lookup_insert_Some; [done|]. intros Hs.
    pose proof (inv_synced _ Hi _ _ Hn' Hs) as Hs'. pose proof (inv_fresh _ Hi _ _ (inv_owner _ Hi _ _ Hn')) as Hlt.
    assert (nc_id nc ≠ e_next a) by lia. set_solver.
  - intros ns' nc [[<- <-]|[Hne Hn']]%lookup_insert_Some; simpl; [set_solver|]. intros Hs.
    destruct (inv_pending _ Hi _ _ Hn' Hs); [left; set_solver|by right].
  - apply (inv_ready _ Hi).
  - intros ns' nc' [[<- <-]|[Hne Hn']]%lookup_insert_Some; [done|]. by apply (inv_marked _ Hi ns').
Qed.

Lemma Inv_stopUnwanted want ks a : Inv a → Inv (stopUnwanted want ks a).1.
Proof.
  revert a. induction ks as [|ns ks IH]; intros a Hi; simpl; [done|].
  destruct (a_namespaces a !! ns) as [nc|] eqn:En; [|by apply IH].
  destruct (decide _); [by apply IH|]. pose proof (IH _ (Inv_stop _ _ _ En Hi)).
  by destruct (stopUnwanted want ks (stop a ns nc)).
Qed.

Lemma watch_started fails a ns a' : watch fails a ns = inl a' → a_started a' = a_started a.
Proof. unfold watch. destruct fails; [done|]. by intros [= <-]. Qed.

Lemma stopUnwanted_started want ks a : a_started (stopUnwanted want ks a).1 = a_started a.
Proof.
  revert a. induction ks as [|ns ks IH]; intros a; simpl; [done|].
  destruct (a_namespaces a !! ns) as [nc|]; [|apply IH]. destruct (decide _); [apply IH|].
  specialize (IH (stop a ns nc)). by destruct (stopUnwanted want ks (stop a ns nc)).
Qed.

Lemma Inv_startMissing fails ks a : a_started a = true → Inv a → Inv (startMissing fails ks a).1.
Proof.
  revert a. induction ks as [|ns ks IH]; intros a Hst Hi; simpl; [done|].
  destruct (a_namespaces a !! ns) as [nc|] eqn:En; [by apply IH|].
  destruct (watch (fails ns) a ns) as [a'|err] eqn:Ew; [|done].
  apply IH; [by rewrite (watch_started _ _ _ _ Ew)|by eapply Inv_watch].
Qed.

Lemma Inv_notifyAll l a : Inv a → Inv (foldl notifyLocked a l).
Proof. revert a. induction l as [|ns l IH]; intros a Hi; simpl; [done|]. by apply IH, Inv_notify. Qed.

Lemma Inv_SetNamespaces orders fails done want a :
  (done = None → a_started a = true) → Inv a → Inv (SetNamespaces orders fails done want a).1.
Proof.
  intros Hst Hi. unfold SetNamespaces. destruct done; [done|].
  pose proof (Inv_stopUnwanted want (o_namespaces orders) a Hi) as H1.
  pose proof (stopUnwanted_started want (o_namespaces orders) a) as H2.
  destruct (stopUnwanted _ _ _) as [a1 changed]. simpl in *.
  pose proof (Inv_startMissing fails (o_want orders) a1) as H3. rewrite H2 in H3. specialize (H3 (Hst eq_refl) H1).
  destruct (startMissing _ _ _) as [a2 [err|]]; [done|]. by apply Inv_notifyAll.
Qed.

Lemma Inv_markSynced a id ns : e_owner a !! id = Some ns → id ∈ e_ready a → Inv a → Inv (markSynced a id ns).
Proof.
  intros Ho Hr Hi. unfold markSynced. simpl.
  assert ((∀ nc, a_namespaces a !! ns = Some nc → nc_id nc ≠ id) →
    Inv (withGoroutines a (e_waiting a) (e_ready a ∖ {[id]}))) as Hother.
  { intros Hne. destruct Hi as [Hi1 Hi2 Hi3 Hi4 Hi5 Hi6 Hi7 Hi8 Hi9 HiR HiM]. split; simpl; try done.
    - intros i Hg. apply Hi6. set_solver.
    - intros i Hw Hg. apply (Hi7 i); set_solver.
    - intros ns' nc Hn Hs. pose proof (Hi8 _ _ Hn Hs). set_solver.
    - intros ns' nc Hn Hs. destruct (Hi9 _ _ Hn Hs) as [Hg|]; [|by right]. left.
      assert (nc_id nc ≠ id); [|set_solver]. intros He. pose proof (Hi3 _ _ Hn) as Ho'.
      rewrite He, Ho in Ho'. injection Ho' as ->. by eapply Hne.
    - intros i [Hg _]%elem_of_difference. by apply HiR. }
  destruct (a_namespaces a !! ns) as [nc|] eqn:En; [|by apply Hother].
  case_bool_decide as He; [|apply Hother; congruence]. apply Inv_notify. clear Hother.
  pose proof (Inv_distinct a) as Hd.
  destruct Hi as [Hi1 Hi2 Hi3 Hi4 Hi5 Hi6 Hi7 Hi8 Hi9 HiR HiM] eqn:EHi. clear EHi. split; simpl.
  - intros _. apply Hi1. intros E. by rewrite E, lookup_empty in En.
  - done.
  - intros ns' nc' [[<- <-]|[_ Hn']]%lookup_insert_Some; [done|by apply Hi3].
  - intros i ns' Ho'. rewrite (Hi4 _ _ Ho'). split; intros (nc' & Hn' & <-).
    + destruct (decide (ns = ns')) as [<-|Hne].
      * rewrite En in Hn'. injection Hn' as <-. eexists. rewrite lookup_insert_eq. by split.
      * exists nc'. by rewrite lookup_insert_ne.
    + apply lookup_insert_Some in Hn' as [[<- <-]|[_ Hn']]; [by exists nc|by exists nc'].
  - done.
  - intros i Hg. apply Hi6. set_solver.
  - intros i Hw Hg. apply (Hi7 i); set_solver.
  - intros ns' nc' [[<- <-]|[Hne Hn']]%lookup_insert_Some Hs; simpl.
    + intros [Hw|Hg]%elem_of_union; [by eapply Hi7|set_solver].
    + pose proof (Hi8 _ _ Hn' Hs). set_solver.
  - intros ns' nc' [[<- <-]|[Hne Hn']]%lookup_insert_Some Hs; [done|].
    destruct (Hi9 _ _ Hn' Hs) as [Hg|]; [|by right]. left.
    assert (nc_id nc' ≠ id); [|set_solver]. intros He'. apply Hne.
    apply (Hd ns ns' nc nc'); [by split|done..|congruence].
  - intros i [Hg _]%elem_of_difference. by apply HiR.
  - intros ns' nc' [[<- <-]|[Hne Hn']]%lookup_insert_Some Hs; [by apply HiR|by apply (HiM ns')].
Qed.

Lemma Inv_step a a' : Step a a' → Inv a → Inv a'.
Proof.
  intros Hs Hi. destruct Hs as [a Hst|a orders fails done want Hst|a id Hw|a id Hw Hrun|a id ns Hr Ho
    |a id ns Ho|a s _ _|a s|a Hst].
  - destruct Hi. by split.
  - apply Inv_SetNamespaces; [|done]. intros Hd. by apply Hst.
  - destruct Hi as [Hi1 Hi2 Hi3 Hi4 Hi5 Hi6 Hi7 Hi8 Hi9 HiR HiM]. split; simpl; try done.
    + intros i Hg. apply Hi6. set_solver.
    + intros i. destruct (decide (i = id)) as [->|Hne]; [set_solver|]. intros Hw' Hg. apply (Hi7 i); set_solver.
    + intros ns nc Hn Hs. pose proof (Hi8 _ _ Hn Hs). set_solver.
    + intros ns nc Hn Hs. destruct (Hi9 _ _ Hn Hs) as [Hg|]; [|by right]. left.
      destruct (decide (nc_id nc = id)) as [->|]; set_solver.
    + intros i [->%elem_of_singleton|Hg]%elem_of_union; apply elem_of_union; [left; by apply elem_of_singleton|right; by apply HiR].
    + intros ns nc Hn Hs. apply elem_of_union. right. by apply (HiM ns).
  - destruct Hi as [Hi1 Hi2 Hi3 Hi4 Hi5 Hi6 Hi7 Hi8 Hi9 HiR HiM]. split; simpl; try done.
    + intros i Hg. apply Hi6. set_solver.
    + intros i Hw' Hg. apply (Hi7 i); set_solver.
    + intros ns nc Hn Hs. pose proof (Hi8 _ _ Hn Hs). set_solver.
    + intros ns nc Hn Hs. destruct (e_stopped a) eqn:Est; [by right|]. left.
      destruct (Hi9 _ _ Hn Hs) as [Hg|]; [|done]. assert (nc_id nc ≠ id); [|set_solver].
      intros <-. apply Hrun. split; [|done]. apply (Hi4 _ ns (Hi3 _ _ Hn)). by exists nc.
  - by apply Inv_markSynced.
  - by apply Inv_notify.
  - by apply (Inv_frame a).
  - by apply (Inv_frame a).
  - destruct Hi as [Hi1 Hi2 Hi3 Hi4 Hi5 Hi6 Hi7 Hi8 Hi9 HiR HiM]. split; simpl; try done. intros. by right.
Qed.

Lemma Inv_reachable a : Reachable a → Inv a.
Proof.
  intros Hr. unfold Reachable in Hr. pose proof Inv_initial as Hi. revert Hi.
  induction Hr as [|a1 a2 a3 Hs _ IH]; [done|]. intros Hi. apply IH. by eapply Inv_step.
Qed.

(** ** The namespaces watched *)

Lemma stopUnwanted_spec want ks a :
  let r := stopUnwanted want ks a in
  (∀ ns, a_namespaces r.1 !! ns = if decide (ns ∈ ks ∧ ns ∉ want) then None else a_namespaces a !! ns) ∧
  (∀ ns, ns ∈ r.2 ↔ ns ∈ ks ∧ ns ∉ want ∧ is_Some (a_namespaces a !! ns)) ∧
  e_handed r.1 = e_handed a ∧ liveSubscribers r.1 = liveSubscribers a.
Proof.
  cbv zeta. revert a. induction ks as [|k ks IH]; intros a; cbn [stopUnwanted fst snd].
  { split_and!; [|set_solver|done..]. intros ns. rewrite decide_False; [done|]. intros [Hn _]. by apply elem_of_nil in Hn. }
  destruct (a_namespaces a !! k) as [nc|] eqn:En.
  2: { destruct (IH a) as (Hn & Hc & He & Hl). split_and!; [..|done|done].
    - intros ns. rewrite Hn. destruct (decide (ns = k)) as [->|Hne].
      + rewrite En. by do 2 destruct (decide _).
      + apply decide_ext. set_solver.
    - intros ns. rewrite Hc. split; [set_solver|]. intros ([->|Hin]%elem_of_cons & Hw & Hs); [|done].
      rewrite En in Hs. by destruct Hs. }
  destruct (decide (k ∈ want)) as [Hk|Hk].
  { destruct (IH a) as (Hn & Hc & He & Hl). split_and!; [..|done|done].
    - intros ns. rewrite Hn. apply decide_ext. set_solver.
    - intros ns. rewrite Hc. set_solver. }
  destruct (IH (stop a k nc)) as (Hn & Hc & He & Hl).
  destruct (stopUnwanted want ks (stop a k nc)) as [a' ch]. simpl in *. split_and!; [..|done|done].
  - intros ns. rewrite Hn. destruct (decide (ns = k)) as [->|Hne].
    + rewrite lookup_delete_eq, (decide_True (P := k ∈ k :: ks ∧ _)) by set_solver. by destruct (decide _).
    + rewrite lookup_delete_ne by done. apply decide_ext. set_solver.
  - intros ns. rewrite elem_of_cons, Hc. destruct (decide (ns = k)) as [->|Hne].
    + rewrite En, lookup_delete_eq. split; [intros _|by left]. split_and!; [by left|done|by eexists].
    + rewrite lookup_delete_ne by done. set_solver.
Qed.

(** What [startMissing] has done, to its end or its error. *)
Lemma startMissing_spec fails ks a :
  let r := startMissing fails ks a in
  (∀ ns nc, a_namespaces a !! ns = Some nc → a_namespaces r.1 !! ns = Some nc) ∧
  (∀ ns nc, a_namespaces a !! ns = None → a_namespaces r.1 !! ns = Some nc → ns ∈ ks ∧ nc_synced nc = false) ∧
  (r.2 = None → ∀ ns, ns ∈ ks → is_Some (a_namespaces r.1 !! ns)) ∧
  e_handed r.1 = e_handed a ∧ liveSubscribers r.1 = liveSubscribers a.
Proof.
  simpl. revert a. induction ks as [|k ks IH]; intros a; simpl.
  { split_and!; [done|intros ns nc Hx Hy; simpl in *; congruence| |done..]. intros _ ns Hn. by apply elem_of_nil in Hn. }
  destruct (a_namespaces a !! k) as [nc|] eqn:En.
  { destruct (IH a) as (Hk & Hn & Hs & He & Hl). split_and!; [done|..|done|done].
    - intros ns nc' Ha Hr. destruct (Hn _ _ Ha Hr). split; [by right|done].
    - intros Hr ns [->|Hin]%elem_of_cons; [eexists; by apply Hk|by apply Hs]. }
  destruct (watch (fails k) a k) as [a1|err] eqn:Ew.
  2: { split_and!; [done|intros ns nc Hx Hy; simpl in *; congruence|done|done..]. }
  unfold watch in Ew. destruct (fails k); [done|]. injection Ew as <-.
  match goal with |- context [startMissing fails ks ?a1] => destruct (IH a1) as (Hk & Hn & Hs & He & Hl) end.
  simpl in *. split_and!; [..|done|done].
  - intros ns nc Ha. apply Hk. rewrite lookup_insert_ne; [done|]. intros <-. by rewrite En in Ha.
  - intros ns nc Ha Hr. destruct (decide (k = ns)) as [<-|Hne].
    + specialize (Hk k _ (lookup_insert_eq _ _ _)). rewrite Hk in Hr. injection Hr as <-. split; [by left|done].
    + edestruct Hn as [Hin Hsy]; [by rewrite lookup_insert_ne|exact Hr|]. split; [by right|done].
  - intros Hr ns [->|Hin]%elem_of_cons; [|by apply Hs]. eexists. apply Hk. by rewrite lookup_insert_eq.
Qed.

Lemma notifyAll_spec l a :
  a_namespaces (foldl notifyLocked a l) = a_namespaces a ∧
  liveSubscribers (foldl notifyLocked a l) = liveSubscribers a ∧
  e_handed (foldl notifyLocked a l) =
    e_handed a ++ (ns ← l; (λ s, (s, ns)) <$> liveSubscribers a).
Proof.
  revert a. induction l as [|ns l IH]; intros a; simpl; [by rewrite app_nil_r|].
  destruct (IH (notifyLocked a ns)) as (-> & -> & ->). split_and!; [done..|].
  simpl. by rewrite <- app_assoc.
Qed.

Lemma SetNamespaces_aux orders fails want a a' err :
  Ordered orders want a →
  SetNamespaces orders fails None want a = (a', err) →
  (∀ ns nc, a_namespaces a !! ns = Some nc → ns ∈ want → a_namespaces a' !! ns = Some nc) ∧
  (∀ ns nc, a_namespaces a' !! ns = Some nc →
     ns ∈ want ∧ (a_namespaces a !! ns = Some nc ∨ a_namespaces a !! ns = None ∧ nc_synced nc = false)) ∧
  match err with
  | None =>
    Namespaces a' = want ∧
    ∃ removed, removed ≡ₚ elements (Namespaces a ∖ want) ∧
      e_handed a' = e_handed a ++ (ns ← removed; (λ s, (s, ns)) <$> liveSubscribers a)
  | Some _ => e_handed a' = e_handed a
  end.
Proof.
  intros (Hon & How & Hoc). unfold SetNamespaces.
  pose proof (stopUnwanted_spec want (o_namespaces orders) a) as (Hn1 & Hc1 & He1 & Hl1).
  assert (NoDup (stopUnwanted want (o_namespaces orders) a).2) as Hnd.
  { assert (NoDup (o_namespaces orders)) as Hnd by (rewrite Hon; apply NoDup_elements).
    clear -Hnd. revert a. induction (o_namespaces orders) as [|k ks IH]; intros a; simpl; [constructor|].
    apply NoDup_cons in Hnd as [Hk Hnd].
    destruct (a_namespaces a !! k) as [nc|]; [|by apply IH]. destruct (decide _); [by apply IH|].
    pose proof (IH Hnd (stop a k nc)) as Hnd'.
    pose proof (stopUnwanted_spec want ks (stop a k nc)) as (_ & Hc & _).
    destruct (stopUnwanted want ks (stop a k nc)) as [a' ch]. simpl in *. constructor; [|done].
    rewrite Hc. by intros [? _]. }
  destruct (stopUnwanted _ _ _) as [a1 changed]. simpl in *.
  pose proof (startMissing_spec fails (o_want orders) a1) as (Hk2 & Hn2 & Hs2 & He2 & Hl2).
  destruct (startMissing _ _ _) as [a2 err2]. simpl in *.
  assert (∀ ns, ns ∈ o_want orders ↔ ns ∈ want) as Hw by (intros ns; by rewrite How, elem_of_elements).
  assert (∀ ns, ns ∈ o_namespaces orders ↔ is_Some (a_namespaces a !! ns)) as Ho.
  { intros ns. by rewrite Hon, elem_of_elements, elem_of_dom. }
  assert (∀ ns nc, a_namespaces a !! ns = Some nc → ns ∈ want → a_namespaces a2 !! ns = Some nc) as Hkeep.
  { intros ns nc Ha Hin. apply Hk2. rewrite Hn1, decide_False; [done|]. by intros []. }
  assert (∀ ns nc, a_namespaces a2 !! ns = Some nc → ns ∈ want ∧
    (a_namespaces a !! ns = Some nc ∨ a_namespaces a !! ns = None ∧ nc_synced nc = false)) as Hnew.
  { intros ns nc Ha. destruct (a_namespaces a1 !! ns) as [nc1|] eqn:E1.
    - pose proof (Hk2 _ _ E1) as E2. rewrite Ha in E2. injection E2 as ->. rewrite Hn1 in E1.
      destruct (decide _) as [|Hd]; [done|]. split; [|by left].
      destruct (decide (ns ∈ want)); [done|]. exfalso. apply Hd. split; [|done]. apply Ho. by eexists.
    - destruct (Hn2 _ _ E1 Ha) as [Hin Hsy]. apply Hw in Hin. split; [done|]. right. split; [|done].
      rewrite Hn1, decide_False in E1; [done|]. by intros []. }
  destruct err2 as [err2|]; intros [= <- <-].
  { split_and!; [done|done|]. by rewrite He2. }
  destruct (notifyAll_spec (o_changed orders) a2) as (Hna & _ & Hha). rewrite Hna. split_and!; [done|done|..].
  - apply set_eq. intros ns. unfold Namespaces. rewrite Hna, elem_of_dom. split.
    + intros [nc Ha]. by apply Hnew in Ha as [? _].
    + intros Hin. by apply Hs2, Hw.
  - exists (o_changed orders). split; [|by rewrite Hha, He2, He1, Hl2, Hl1].
    rewrite Hoc. apply NoDup_Permutation; [done|apply NoDup_elements|]. intros ns.
    rewrite Hc1, elem_of_elements, elem_of_difference. unfold Namespaces. rewrite elem_of_dom, Ho. tauto.
Qed.

(** Telling [Access] the namespaces to watch does exactly that: it then watches
    those and no others, a cache it already had is kept as it is, running and
    synced if it was, a new one has yet to sync, and each live subscriber is
    handed one event for each namespace that is no longer watched, and none for
    the others. A namespace that cannot be watched is an error, after which
    nothing is watched that is not wanted and no cache that is wanted is lost. *)
Theorem SetNamespaces_spec orders fails want a a' err :
  Ordered orders want a →
  SetNamespaces orders fails None want a = (a', err) →
  (∀ ns nc, a_namespaces a !! ns = Some nc → ns ∈ want → a_namespaces a' !! ns = Some nc) ∧
  (∀ ns nc, a_namespaces a' !! ns = Some nc →
     ns ∈ want ∧ (a_namespaces a !! ns = Some nc ∨ a_namespaces a !! ns = None ∧ nc_synced nc = false)) ∧
  match err with
  | None =>
    Namespaces a' = want ∧
    ∃ removed, removed ≡ₚ elements (Namespaces a ∖ want) ∧
      e_handed a' = e_handed a ++ (ns ← removed; (λ s, (s, ns)) <$> liveSubscribers a)
  | Some _ => e_handed a' = e_handed a
  end.
Proof. apply SetNamespaces_aux. Qed.

(** ** Caches and reads *)

Definition Readable (a : Access) (ns : string) : Prop :=
  ∃ nc, a_namespaces a !! ns = Some nc ∧ nc_synced nc = true.

Lemma Inv_steps a a' : rtc Step a a' → Inv a → Inv a'.
Proof. induction 1 as [|a1 a2 a3 Hs _ IH]; [done|]. intros Hi. apply IH. by eapply Inv_step. Qed.

Lemma stop_owner want ks a : e_owner (stopUnwanted want ks a).1 = e_owner a ∧ e_next (stopUnwanted want ks a).1 = e_next a.
Proof.
  revert a. induction ks as [|ns ks IH]; intros a; simpl; [done|].
  destruct (a_namespaces a !! ns) as [nc|]; [|apply IH]. destruct (decide _); [apply IH|].
  specialize (IH (stop a ns nc)). by destruct (stopUnwanted want ks (stop a ns nc)).
Qed.

(** A cache stays the cache of the namespace it was made for. *)
Lemma startMissing_owner fails ks a id ns :
  Inv a → a_started a = true → e_owner a !! id = Some ns → e_owner (startMissing fails ks a).1 !! id = Some ns.
Proof.
  revert a. induction ks as [|k ks IH]; intros a Hi Hst Ho; simpl; [done|].
  destruct (a_namespaces a !! k) as [nc|] eqn:En; [by apply IH|].
  destruct (watch (fails k) a k) as [a'|err] eqn:Ew; [|done]. apply IH; [by eapply Inv_watch| |].
  - by rewrite (watch_started _ _ _ _ Ew).
  - unfold watch in Ew. destruct (fails k); [done|]. injection Ew as <-. simpl. rewrite lookup_insert_ne; [done|].
    intros <-. apply (inv_fresh _ Hi) in Ho. lia.
Qed.

Lemma notifyAll_owner l a : e_owner (foldl notifyLocked a l) = e_owner a.
Proof. revert a. induction l as [|ns l IH]; intros a; [done|]. simpl. by rewrite IH. Qed.

Lemma step_owner a a' id ns : Inv a → Step a a' → e_owner a !! id = Some ns → e_owner a' !! id = Some ns.
Proof.
  intros Hi Hs Ho. destruct Hs as [a _|a orders fails done want Hst|a i _|a i _ _|a i ns' Hr' Ho'|a i ns' _|a s _ _|a s|a _]; try exact Ho.
  - unfold SetNamespaces. destruct done as [err|]; [done|]. destruct (Hst eq_refl) as [Hstart _].
    pose proof (Inv_stopUnwanted want (o_namespaces orders) a Hi) as H1.
    pose proof (stopUnwanted_started want (o_namespaces orders) a) as H2.
    pose proof (stop_owner want (o_namespaces orders) a) as [H3 _].
    destruct (stopUnwanted _ _ _) as [a1 changed]. simpl in *.
    pose proof (startMissing_owner fails (o_want orders) a1 id ns H1 ltac:(congruence) ltac:(congruence)) as H4.
    destruct (startMissing _ _ _) as [a2 [err|]]; [done|]. simpl. by rewrite notifyAll_owner.
  - unfold markSynced. simpl. destruct (a_namespaces a !! ns') as [nc|]; [|done]. by case_bool_decide.
Qed.

Lemma steps_owner a a' id ns : rtc Step a a' → Inv a → e_owner a !! id = Some ns → e_owner a' !! id = Some ns.
Proof.
  induction 1 as [|a1 a2 a3 Hs _ IH]; [done|]. intros Hi Ho. apply IH; [by eapply Inv_step|by eapply step_owner].
Qed.

(** C31. In every reachable state, however the goroutines interleave, the caches
    that run are those of the namespaces watched, one for each: a cache that was
    replaced or whose namespace is not wanted any more is stopped, and one in
    use is not. A cache in use that has not synced still has its goroutine, and
    once that is told that it synced the namespace can become readable. A cache is
    marked as synced only when it has itself synced. [Get] reads a Secret only
    from the cache made for its namespace, which had synced, and was in use and
    not stopped when it was looked up; the cache is read after the lock is
    released, and may be stopped by then, but only when it is no longer the one
    in use. Otherwise the answer says why the namespace is not available. *)
Theorem Access_caches a :
  Reachable a →
  (∀ id ns, e_owner a !! id = Some ns →
     (Running a id ↔ e_stopped a = false ∧ ∃ nc, a_namespaces a !! ns = Some nc ∧ nc_id nc = id)) ∧
  (∀ ns nc, a_namespaces a !! ns = Some nc → nc_synced nc = false →
     nc_id nc ∈ e_waiting a ∪ e_ready a ∨ e_stopped a = true) ∧
  (∀ ns nc, a_namespaces a !! ns = Some nc → nc_id nc ∈ e_ready a → ∃ a', Step a a' ∧ Readable a' ns) ∧
  (∀ ns nc, a_namespaces a !! ns = Some nc → nc_synced nc = true → nc_id nc ∈ e_synced a) ∧
  (∀ read key a', rtc Step a a' →
     (∃ id, a_namespaces a !! nn_Namespace key = Some {| nc_id := id; nc_synced := true |} ∧
        id ∈ e_synced a ∧ id ∉ e_cancelled a ∧ e_owner a' !! id = Some (nn_Namespace key) ∧
        (id ∈ e_cancelled a' → ∀ nc, a_namespaces a' !! nn_Namespace key = Some nc → nc_id nc ≠ id) ∧
        Get read a a' key = match read a' id key with inl s => inl s | inr e => inr (ReadErr e) end) ∨
     (a_namespaces a !! nn_Namespace key = None ∧ Get read a a' key = inr (UnavailableError (nn_Namespace key)
        ("The operator is not watching Secrets in namespace " +:+ nn_Namespace key +:+ " yet"))) ∨
     (∃ nc, a_namespaces a !! nn_Namespace key = Some nc ∧ nc_synced nc = false ∧
        Get read a a' key = inr (UnavailableError (nn_Namespace key)
          ("Waiting for access to Secrets in namespace " +:+ nn_Namespace key)))).
Proof.
  intros Hi%Inv_reachable. split_and!.
  - intros id ns Ho. unfold Running. rewrite (inv_current _ Hi _ _ Ho). tauto.
  - intros ns nc. by apply inv_pending.
  - intros ns nc Hn Hr. exists (markSynced a (nc_id nc) ns).
    split; [apply step_mark; [done|by apply (inv_owner _ Hi)]|].
    unfold markSynced. simpl. rewrite Hn, bool_decide_eq_true_2 by done.
    eexists. split; [simpl; apply lookup_insert_eq|done].
  - intros ns nc. by apply inv_marked.
  - intros read key a' Hs. unfold Get, lookupCache. destruct (a_namespaces a !! nn_Namespace key) as [[id [|]]|] eqn:En; simpl.
    + left. exists id. pose proof (inv_owner _ Hi _ _ En) as Ho. simpl in Ho.
      pose proof (steps_owner _ _ _ _ Hs Hi Ho) as Ho'. split_and!; try done.
      * by apply (inv_marked _ Hi _ _ En).
      * apply (inv_current _ Hi _ _ Ho). by eexists.
      * intros Hc nc Hn' He. apply (inv_current _ (Inv_steps _ _ Hs Hi) _ _ Ho') in Hc; [done|]. by exists nc.
    + right. right. by eexists.
    + right. by left.
Qed.

Lemma notifyLocked_hands a (ns : string) s : s ∈ liveSubscribers a → (s, ns) ∈ (λ s, (s, ns)) <$> liveSubscribers a.
Proof. intros Hs. apply list_elem_of_fmap. by exists s. Qed.

#[local] Instance Readable_dec a ns : Decision (Readable a ns).
Proof.
  unfold Readable. destruct (a_namespaces a !! ns) as [nc|]; [|right; by intros (? & ? & _)].
  destruct (nc_synced nc) eqn:Es; [left; by exists nc|right]. intros (? & [= <-] & ?). congruence.
Defined.

(** Whoever depends on the Secrets of a namespace hears of it: whenever a
    transition makes a namespace readable, or no longer readable, it hands every
    live subscriber an event for that namespace. The one exception is a
    [SetNamespaces] that fails, which may have stopped watching it in silence. *)
Theorem Access_notifies a a' ns :
  Reachable a → Step a a' → (Readable a ns ↔ ¬ Readable a' ns) →
  (∃ l, e_handed a' = e_handed a ++ l ∧ ∀ s, s ∈ liveSubscribers a → (s, ns) ∈ l) ∨
  (Readable a ns ∧ ∃ orders fails want err, SetNamespaces orders fails None want a = (a', Some err)).
Proof.
  intros Hr Hs. destruct Hs as [a Hst|a orders fails done want Hst|a id Hw|a id Hw Hrun|a id ns' Hr' Ho
    |a id ns' Ho|a s _ _|a s|a Hst]; try (intros Hd; exfalso; revert Hd; unfold Readable; simpl; tauto).
  - destruct done as [err|]; [simpl; tauto|]. destruct (Hst eq_refl) as [_ Hord]. intros Hd.
    destruct (SetNamespaces orders fails None want a) as [a' err] eqn:Es. simpl in Hd |- *.
    pose proof Es as Es'. apply (SetNamespaces_aux orders fails want) in Es' as (Hkeep & Hnew & Herr); [|done].
    assert (Readable a ns ∧ ns ∉ want) as [Hra Hnw].
    { assert (Readable a' ns → Readable a ns) as Hback.
      { intros (nc & Hn & Hsy). destruct (Hnew _ _ Hn) as [_ [Ha|[_ Hf]]]; [by exists nc|congruence]. }
      assert (Readable a ns) as Hra by (destruct (decide (Readable a ns)); tauto).
      split; [done|]. intros Hin. apply (proj1 Hd Hra). destruct Hra as (nc & Hn & Hsy).
      exists nc. split; [by apply Hkeep|done]. }
    destruct err as [err|]; [right; split; [done|]; by exists orders, fails, want, err|].
    left. destruct Herr as (_ & removed & Hrm & Hh). eexists. split; [exact Hh|]. intros s Hs.
    apply list_elem_of_bind. exists ns. split; [by apply notifyLocked_hands|]. rewrite Hrm, elem_of_elements.
    apply elem_of_difference. split; [|done]. destruct Hra as (nc & Hn & _). apply elem_of_dom. by eexists.
  - unfold markSynced. simpl. destruct (a_namespaces a !! ns') as [nc|] eqn:En; [|simpl; tauto].
    case_bool_decide as He; [|simpl; tauto]. intros Hd. left. eexists. split; [reflexivity|]. simpl.
    destruct (decide (ns = ns')) as [->|Hne]; [intros s Hs; by apply (notifyLocked_hands a)|].
    exfalso. revert Hd. unfold Readable. simpl. rewrite lookup_insert_ne by done. tauto.
Qed.

(** ** Sample states *)

(** Orders of the maps, taken from the maps. *)
Definition anyOrders (want : gset string) (a : Access) : Orders :=
  {| o_namespaces := elements (dom (a_namespaces a)); o_want := elements want;
     o_changed := (stopUnwanted want (elements (dom (a_namespaces a))) a).2 |}.

Lemma anyOrders_Ordered want a : Ordered (anyOrders want a) want a.
Proof. by split_and!. Qed.

Definition noFailure : string → option Err := λ _, None.

Definition setAny (want : gset string) (a : Access) : Access :=
  (SetNamespaces (anyOrders want a) noFailure None want a).1.

(** Subscriber 7 comes, "a" and "b" are watched, and the cache of one syncs. *)
Definition sampleWatched : Access := setAny {[ "a"; "b" ]} (Start (subscribe initial 7)).
Definition sampleWaited : Access := cacheSynced sampleWatched 0.
Definition sampleSynced : Access := markSynced sampleWaited 0 "a".

Lemma sampleWaited_reachable : Reachable sampleWaited.
Proof.
  eapply rtc_l; [apply (step_subscribe initial 7); set_solver|].
  eapply rtc_l; [by apply step_Start|].
  eapply rtc_l; [apply (step_SetNamespaces _ (anyOrders {[ "a"; "b" ]} (Start (subscribe initial 7))) noFailure None)|].
  { intros _. split; [done|]. apply anyOrders_Ordered. }
  eapply rtc_l; [apply (step_synced _ 0)|apply rtc_refl].
  by apply (bool_decide_unpack _).
Qed.

Lemma sampleSynced_step : Step sampleWaited sampleSynced.
Proof. apply step_mark; [by apply (bool_decide_unpack _)|by vm_compute]. Qed.

(** A cache that holds no Secret. *)
Definition readNone (a : Access) (id : nat) (key : NamespacedName) : Secret + Err := inr (plainErr "no such secret").

(** The namespace "a" is dropped after [Get] has looked its cache up. *)
Lemma Access_caches_witness :
  Get readNone sampleSynced (setAny {[ "b" ]} sampleSynced) {| nn_Namespace := "a"; nn_Name := "tls" |} =
    inr (ReadErr (plainErr "no such secret")) ∧
  Running sampleSynced 0 ∧ e_owner (setAny {[ "b" ]} sampleSynced) !! 0 = Some "a".
Proof.
  destruct (Access_caches sampleSynced) as (Hr & _ & _ & _ & Hg).
  { eapply rtc_r; [apply sampleWaited_reachable|apply sampleSynced_step]. }
  assert (rtc Step sampleSynced (setAny {[ "b" ]} sampleSynced)) as Hs.
  { apply rtc_once, step_SetNamespaces. intros _. split; [by vm_compute|]. apply anyOrders_Ordered. }
  destruct (Hg readNone {| nn_Namespace := "a"; nn_Name := "tls" |} _ Hs)
    as [(id & Hn & _ & _ & Ho & _ & Heq)|[[Hn _]|(nc & Hn & Hf & _)]].
  - split; [exact Heq|]. assert (id = 0) as -> by (vm_compute in Hn; by injection Hn as <-).
    split; [|exact Ho]. apply (Hr 0 "a"); [by vm_compute|]. split; [by vm_compute|]. eexists. split; [exact Hn|done].
  - exfalso. by vm_compute in Hn.
  - exfalso. vm_compute in Hn. injection Hn as <-. done.
Defined.

Lemma Access_notifies_witness : (7, "a") ∈ e_handed sampleSynced.
Proof.
  destruct (Access_notifies sampleWaited sampleSynced "a" sampleWaited_reachable sampleSynced_step) as [(l & -> & Hl)|[Hr _]].
  - split; [intros (nc & Hn & Hs); vm_compute in Hn; injection Hn as <-; done|].
    intros Hn. exfalso. apply Hn. eexists. split; [vm_compute; reflexivity|done].
  - apply elem_of_app. right. apply Hl. by apply (bool_decide_unpack _).
  - exfalso. destruct Hr as (nc & Hn & Hs). vm_compute in Hn. by injection Hn as <-.
Defined.

(** From "a" and "b" to "b" and "c". *)
Lemma SetNamespaces_spec_witness :
  Namespaces (setAny {[ "b"; "c" ]} sampleSynced) = {[ "b"; "c" ]} ∧
  e_handed (setAny {[ "b"; "c" ]} sampleSynced) = e_handed sampleSynced ++ [(7, "a")].
Proof.
  destruct (SetNamespaces_spec (anyOrders {[ "b"; "c" ]} sampleSynced) noFailure {[ "b"; "c" ]} sampleSynced
    (setAny {[ "b"; "c" ]} sampleSynced) None) as (_ & _ & Hn & removed & Hr & Hh).
  - apply anyOrders_Ordered.
  - unfold setAny. destruct (SetNamespaces _ _ _ _ _) as [a' [err|]] eqn:E; [|done].
    exfalso. assert ((SetNamespaces (anyOrders {[ "b"; "c" ]} sampleSynced) noFailure None {[ "b"; "c" ]} sampleSynced).2 = None)
      as H by by vm_compute. by rewrite E in H.
  - split; [done|]. rewrite Hh. f_equal.
    assert (removed = ["a"]) as -> by (apply Permutation_singleton_r; rewrite Hr; by vm_compute).
    by vm_compute.
Defined.

(** A [SetNamespaces] that fails to watch "c" has already stopped watching the
    Secrets of "a", and tells nobody: not then, and not when it is retried. *)
Lemma SetNamespaces_failure_silent :
  let fails ns := if str_eqb ns "c" then Some (plainErr "refused") else None in
  let want := {[ "b"; "c" ]} : gset string in
  let a1 := (SetNamespaces (anyOrders want sampleSynced) fails None want sampleSynced).1 in
  let a2 := setAny want a1 in
  Readable sampleSynced "a" ∧ a_namespaces a2 !! "a" = None ∧ Namespaces a2 = want ∧
  e_handed a2 = e_handed sampleSynced.
Proof.
  simpl. split_and!; [|by vm_compute..]. eexists. split; [vm_compute; reflexivity|done].
Qed.
