(* ===== verification/Address.v ===== *)
(** * The address of the xDS server (internal/xds/address.go)

    The address Envoy is given, its text and the parsing of a text, with what
    the code uses of the standard library's [net] and [strconv]; and the
    resolution of the address from the Service in front of the server. A text
    cut at a colon stands for Go's indexes into it. *)
From S2P Require Import Prelude GatewayAPI Samples Effects.

Definition ComponentLabel := "app.kubernetes.io/component".
Definition ComponentValue := "xds".

Record Address := { Host : string; Port : Z }.

#[export] Instance Address_eq_dec : EqDecision Address.
Proof. solve_decision. Defined.

(** ** net and strconv *)

Definition colon : Ascii.ascii := Ascii.ascii_of_nat 58.
Definition lbracket : Ascii.ascii := Ascii.ascii_of_nat 91.
Definition rbracket : Ascii.ascii := Ascii.ascii_of_nat 93.

(** The text before and after the first, and the last, of a character. *)
Fixpoint cutFirst (c : Ascii.ascii) (s : string) : option (string * string) :=
  match s with
  | EmptyString => None
  | String a s =>
    if Ascii.eqb a c then Some (EmptyString, s)
    else match cutFirst c s with Some (x, y) => Some (String a x, y) | None => None end
  end.

Fixpoint cutLast (c : Ascii.ascii) (s : string) : option (string * string) :=
  match s with
  | EmptyString => None
  | String a s =>
    match cutLast c s with
    | Some (x, y) => Some (String a x, y)
    | None => if Ascii.eqb a c then Some (EmptyString, s) else None
    end
  end.

(** [net.JoinHostPort] brackets a host with a colon. *)
Definition JoinHostPort (host port : string) : string :=
  if negb (lacks colon host) then String lbracket (host +:+ String rbracket (String colon port))
  else host +:+ String colon port.

(** [net.AddrError]. *)
Definition addrErr (addr why : string) : Err :=
  plainErr (if str_eqb addr "" then why else "address " +:+ addr +:+ ": " +:+ why).

(** [net.SplitHostPort]. After the first closing bracket the text is empty, or
    the colon and the port when the bracket is just before the last colon. *)
Definition SplitHostPort (hostport : string) : (string * string) + Err :=
  let fail why := inr (addrErr hostport why) in
  match cutLast colon hostport with
  | None => fail "missing port in address"
  | Some (before, port) =>
    let plain :=
      if negb (lacks colon before) then fail "too many colons in address"
      else if negb (lacks lbracket hostport) then fail "unexpected '[' in address"
      else if negb (lacks rbracket hostport) then fail "unexpected ']' in address"
      else inl (before, port) in
    match hostport with
    | String a rest =>
      if Ascii.eqb a lbracket then
        match cutFirst rbracket rest with
        | None => fail "missing ']' in address"
        | Some (host, after) =>
          if str_eqb after "" then fail "missing port in address"
          else if str_eqb after (String colon port) then
            if negb (lacks lbracket rest) then fail "unexpected '[' in address"
            else if negb (lacks rbracket after) then fail "unexpected ']' in address"
            else inl (host, port)
          else
            match after with
            | String b _ =>
              if Ascii.eqb b colon then fail "too many colons in address"
              else fail "missing port in address"
            | EmptyString => fail "missing port in address"
            end
        end
      else plain
    | EmptyString => plain
    end
  end.

(** [strconv.ParseUint s 10 16]: the digits, each of which may leave the range. *)
Inductive NumError := ErrSyntax | ErrRange.

Definition digitValue (a : Ascii.ascii) : option Z :=
  let n := Z.of_nat (Ascii.nat_of_ascii a) in
  if ((48 <=? n) && (n <=? 57))%Z then Some (n - 48)%Z else None.

Fixpoint parseDigits (s : string) (n : Z) : Z + NumError :=
  match s with
  | EmptyString => inl n
  | String a s =>
    match digitValue a with
    | None => inr ErrSyntax
    | Some d => if (65535 <? n * 10 + d)%Z then inr ErrRange else parseDigits s (n * 10 + d)%Z
    end
  end.

Definition ParseUint16 (s : string) : Z + NumError :=
  if str_eqb s "" then inr ErrSyntax else parseDigits s 0.

Definition numError (s : string) (e : NumError) : Err :=
  plainErr ("strconv.ParseUint: parsing " +:+ fmt_q s +:+ ": " +:+
            match e with ErrSyntax => "invalid syntax" | ErrRange => "value out of range" end).

(** [strings.TrimSpace], on ASCII text. *)
Definition isSpace (a : Ascii.ascii) : bool :=
  let n := Ascii.nat_of_ascii a in (Nat.leb 9 n && Nat.leb n 13) || Nat.eqb n 32.

Fixpoint trimLeft (s : string) : string :=
  match s with String a s' => if isSpace a then trimLeft s' else s | EmptyString => s end.

Fixpoint trimRight (s : string) : string :=
  match s with
  | EmptyString => EmptyString
  | String a s' =>
    match trimRight s' with
    | EmptyString => if isSpace a then EmptyString else String a EmptyString
    | t => String a t
    end
  end.

Definition TrimSpace (s : string) : string := trimRight (trimLeft s).

(** ** Operations *)

(** [Address.String]. *)
Definition AddressString (a : Address) : string := JoinHostPort (Host a) (fmt_d (Port a)).

Definition ParseAddress (s : string) : Address + Err :=
  match SplitHostPort s with
  | inr err => inr err
  | inl (host, port) =>
    match ParseUint16 port with
    | inr e => inr (wrapErr ("port " +:+ fmt_q port) (numError port e))
    | inl p => inl {| Host := host; Port := p |}
    end
  end.

(** [ownNamespace], from the variable POD_NAMESPACE and the file of the service
    account. *)
Definition ownNamespace (podNamespace : option string) (file : string + Err) : string + Err :=
  let read := match file with
              | inl b => inl (TrimSpace b)
              | inr err => inr (wrapErr "reading the manager's namespace" err)
              end in
  match podNamespace with
  | Some ns => if negb (str_eqb ns "") then inl ns else read
  | None => read
  end.

(** A conversion to uint32. *)
Definition uint32 (z : Z) : Z := (z mod 2 ^ 32)%Z.

(** [Resolver.Resolve]; [list] answers the Services of a namespace that carry the
    label. *)
Definition Resolve (static : option Address) (podNamespace : option string) (file : string + Err)
    (list : string → string → string → list Service + Err) : Address + Err :=
  match static with
  | Some a => inl a
  | None =>
    match ownNamespace podNamespace file with
    | inr err => inr err
    | inl namespace =>
      match list namespace ComponentLabel ComponentValue with
      | inr err => inr (wrapErr "listing xDS Services" err)
      | inl [svc] =>
        let m := svc_ObjectMeta svc in
        match svc_Ports svc with
        | [] => inr (plainErr ("xDS Service " +:+ om_Namespace m +:+ "/" +:+ om_Name m +:+ " exposes no ports"))
        | p :: _ => inl {| Host := om_Name m +:+ "." +:+ om_Namespace m +:+ ".svc"; Port := uint32 (sp_Port p) |}
        end
      | inl services =>
        inr (plainErr ("found " +:+ fmt_d (Z.of_nat (length services)) +:+ " Services labelled " +:+ ComponentLabel
               +:+ "=" +:+ ComponentValue +:+ " in namespace " +:+ namespace +:+ ", expected exactly one"))
      end
    end
  end.

(** ** Properties *)

Lemma cutFirst_app c a b : lacks c a = true → cutFirst c (a +:+ String c b) = Some (a, b).
Proof.
  induction a as [|x a IH]; simpl; [by rewrite Ascii.eqb_refl|].
  intros [Hx Ha]%andb_true_iff. apply negb_true_iff in Hx. by rewrite Hx, IH.
Qed.

Lemma cutLast_lacks c s : lacks c s = true → cutLast c s = None.
Proof.
  induction s as [|x s IH]; simpl; [done|]. intros [Hx Hs]%andb_true_iff.
  apply negb_true_iff in Hx. by rewrite IH, Hx.
Qed.

Lemma cutLast_app c a b : lacks c b = true → cutLast c (a +:+ String c b) = Some (a, b).
Proof.
  intros Hb. induction a as [|x a IH]; simpl; [by rewrite cutLast_lacks, Ascii.eqb_refl|]. by rewrite IH.
Qed.

Lemma cutLast_Some c s a b : cutLast c s = Some (a, b) → s = a +:+ String c b ∧ lacks c b = true.
Proof.
  revert a. induction s as [|x s IH]; simpl; intros a; [done|].
  destruct (cutLast c s) as [[a' b']|] eqn:E.
  - intros [= <- <-]. destruct (IH a' eq_refl) as [-> Hb]. by split.
  - destruct (Ascii.eqb x c) eqn:Ex; [|done]. intros [= <- <-]. apply Ascii.eqb_eq in Ex as ->. split; [done|].
    clear IH. induction s as [|y s IH]; [done|]. simpl in *. destruct (cutLast c s) as [[]|]; [done|].
    destruct (Ascii.eqb y c); [done|]. by rewrite IH.
Qed.

Lemma cutFirst_Some c s a b : cutFirst c s = Some (a, b) → s = a +:+ String c b ∧ lacks c a = true.
Proof.
  revert a. induction s as [|x s IH]; simpl; intros a; [done|].
  destruct (Ascii.eqb x c) eqn:Ex.
  - intros [= <- <-]. by apply Ascii.eqb_eq in Ex as ->.
  - destruct (cutFirst c s) as [[a' b']|]; [|done]. intros [= <- <-]. destruct (IH a' eq_refl) as [-> Ha].
    simpl. by rewrite Ex, Ha.
Qed.

(** What a decimal numeral says. *)
Lemma digitValue_char x : (x < 10)%N → digitValue (pretty_N_char x) = Some (Z.of_N x).
Proof.
  intros Hx. assert (x = 0 ∨ x = 1 ∨ x = 2 ∨ x = 3 ∨ x = 4 ∨ x = 5 ∨ x = 6 ∨ x = 7 ∨ x = 8 ∨ x = 9)%N as Hc by lia.
  by repeat destruct Hc as [->|Hc]; [..|rewrite Hc].
Qed.

Lemma parseDigits_pretty x s :
  (x ≤ 65535)%N → parseDigits (pretty_N_go x s) 0 = parseDigits s (Z.of_N x).
Proof.
  revert s. induction (N.lt_wf_0 x) as [x _ IH]; intros s Hx.
  destruct (decide (x = 0%N)) as [->|Hne]; [by rewrite pretty_N_go_0|].
  rewrite pretty_N_go_step by lia. rewrite IH; [|apply N.div_lt; lia|].
  2: { etrans; [apply (N.Div0.div_le_mono x x 10); lia|]. pose proof (N.Div0.div_le_mono x 65535 10 Hx).
       assert (65535 / 10 = 6553)%N as E by done. lia. }
  cbn [parseDigits]. rewrite digitValue_char by (apply N.mod_lt; lia).
  assert (Z.of_N (x / 10) * 10 + Z.of_N (x mod 10) = Z.of_N x)%Z as ->.
  { pose proof (N.div_mod x 10). lia. }
  by rewrite (proj2 (Z.ltb_ge 65535 (Z.of_N x))) by lia.
Qed.

Lemma ParseUint16_fmt_d p : (0 ≤ p < 65536)%Z → ParseUint16 (fmt_d p) = inl p.
Proof.
  intros Hp. unfold ParseUint16, fmt_d. assert (pretty p = pretty (Z.to_N p)) as ->.
  { destruct p as [|p|p]; [done..|lia]. }
  unfold pretty, pretty_N. destruct (decide (Z.to_N p = 0)%N) as [E|E].
  - assert (p = 0)%Z as -> by lia. done.
  - destruct (str_eqb (pretty_N_go (Z.to_N p) "") "") eqn:Ee.
    + apply str_eqb_eq in Ee. exfalso. pose proof (parseDigits_pretty (Z.to_N p) "" ltac:(lia)) as Hd.
      rewrite Ee in Hd. simpl in Hd. injection Hd as Hd. lia.
    + rewrite parseDigits_pretty by lia. simpl. f_equal. lia.
Qed.

Lemma parseDigits_range s n p : (0 ≤ n ≤ 65535)%Z → parseDigits s n = inl p → (0 ≤ p < 65536)%Z.
Proof.
  revert n. induction s as [|a s IH]; intros n Hn; simpl; [intros [= <-]; lia|].
  unfold digitValue. destruct (_ && _)%Z eqn:Ed; [|done]. apply andb_true_iff in Ed as [H1%Z.leb_le H2%Z.leb_le].
  destruct (65535 <? _)%Z eqn:El; [done|]. apply Z.ltb_ge in El. apply IH. lia.
Qed.

(** The addresses that have a text: the host has no bracket, and the port is one
    of sixteen bits. *)
Definition Textual (a : Address) : Prop :=
  lacks lbracket (Host a) = true ∧ lacks rbracket (Host a) = true ∧ (0 ≤ Port a < 65536)%Z.

Lemma app_cons_app a c b : a +:+ String c b = (a +:+ String c "") +:+ b.
Proof. induction a as [|x a IH]; [done|]. exact (f_equal (String x) IH). Qed.

Lemma SplitHostPort_Join host port :
  lacks lbracket host = true → lacks rbracket host = true →
  lacks colon port = true → lacks lbracket port = true → lacks rbracket port = true →
  SplitHostPort (JoinHostPort host port) = inl (host, port).
Proof.
  intros Hl Hr Hpc Hpl Hpr. unfold JoinHostPort, SplitHostPort.
  destruct (lacks colon host) eqn:Hc; cbn [negb].
  - rewrite cutLast_app by done. cbv zeta. rewrite Hc, !lacks_app. cbn [lacks].
    rewrite Hl, Hr, Hpl, Hpr. simpl.
    destruct host as [|x host]; simpl; [done|]. simpl in Hl. apply andb_true_iff in Hl as [Hx _].
    apply negb_true_iff in Hx. by rewrite Hx.
  - assert (String lbracket (host +:+ String rbracket (String colon port)) =
      String lbracket (host +:+ String rbracket "") +:+ String colon port) as E.
    { exact (f_equal (String lbracket) (app_cons_app host rbracket (String colon port))). }
    rewrite E, cutLast_app, <- E by done. cbv zeta. rewrite Ascii.eqb_refl, cutFirst_app by done.
    rewrite str_eqb_refl, lacks_app. cbn [lacks]. rewrite Hl, Hpl, Hpr. done.
Qed.

Lemma ParseAddress_String a : Textual a → ParseAddress (AddressString a) = inl a.
Proof.
  intros (Hl & Hr & Hp). unfold ParseAddress, AddressString. destruct a as [host port]. simpl in *.
  rewrite SplitHostPort_Join; [by rewrite ParseUint16_fmt_d|done..| | |]; by apply lacks_fmt_d.
Qed.

Lemma SplitHostPort_lacks s host port :
  SplitHostPort s = inl (host, port) → lacks lbracket host = true ∧ lacks rbracket host = true.
Proof.
  unfold SplitHostPort. destruct (cutLast colon s) as [[before port']|] eqn:Ec; [|done].
  apply cutLast_Some in Ec as [Es _]. cbv zeta.
  assert ((if negb (lacks colon before) then inr (addrErr s "too many colons in address")
    else if negb (lacks lbracket s) then inr (addrErr s "unexpected '[' in address")
    else if negb (lacks rbracket s) then inr (addrErr s "unexpected ']' in address")
    else inl (before, port')) = inl (host, port) → lacks lbracket host = true ∧ lacks rbracket host = true) as Hplain.
  { destruct (lacks colon before); [|done]. destruct (lacks lbracket s) eqn:El; [|done].
    destruct (lacks rbracket s) eqn:Er; [|done]. intros [= <- _].
    rewrite Es, lacks_app in El, Er. apply andb_true_iff in El as [? _], Er as [? _]. done. }
  destruct s as [|a rest]; [exact Hplain|]. destruct (Ascii.eqb a lbracket); [|exact Hplain].
  destruct (cutFirst rbracket rest) as [[h after]|] eqn:Ef; [|done].
  apply cutFirst_Some in Ef as [-> Hh]. destruct (str_eqb after ""); [done|].
  destruct (str_eqb after _); [|by destruct after as [|b ?]; [|destruct (Ascii.eqb b colon)]].
  destruct (lacks lbracket (h +:+ _)) eqn:El; [|done]. destruct (lacks rbracket after); [|done].
  intros [= <- _]. rewrite lacks_app in El. by apply andb_true_iff in El as [? _].
Qed.

(** C38. The text of an address is read back as that address: for a host without
    brackets (a name, or an IPv4 or IPv6 address, which is bracketed) and a port
    of sixteen bits. Conversely whatever text parses, also one written another
    way, gives such an address, so the address given to Envoy is the one of the
    flag; every other text is an error. *)
Theorem ParseAddress_roundtrip :
  (∀ a, Textual a → ParseAddress (AddressString a) = inl a) ∧
  (∀ s a, ParseAddress s = inl a → Textual a ∧ ParseAddress (AddressString a) = inl a).
Proof.
  split; [apply ParseAddress_String|]. intros s a Ha.
  assert (Textual a) as Ht; [|split; [done|by apply ParseAddress_String]].
  unfold ParseAddress in Ha. destruct (SplitHostPort s) as [[host port]|] eqn:Es; [|done].
  apply SplitHostPort_lacks in Es as [Hl Hr]. unfold ParseUint16 in Ha.
  destruct (str_eqb port ""); [done|]. destruct (parseDigits port 0) as [p|] eqn:Ep; [|done].
  injection Ha as <-. split; [done|]. split; [done|]. by apply (parseDigits_range port 0 p); [lia|].
Qed.

(** The resolved address is the configured one or the first port of the one
    Service that carries the label in the operator's namespace. *)
Lemma Resolve_spec static podNamespace file list a :
  Resolve static podNamespace file list = inl a →
  static = Some a ∨
  static = None ∧ ∃ ns svc p ps, ownNamespace podNamespace file = inl ns ∧
    list ns ComponentLabel ComponentValue = inl [svc] ∧ svc_Ports svc = p :: ps ∧
    a = {| Host := om_Name (svc_ObjectMeta svc) +:+ "." +:+ om_Namespace (svc_ObjectMeta svc) +:+ ".svc";
           Port := uint32 (sp_Port p) |}.
Proof.
  unfold Resolve. destruct static as [a'|]; [intros [= <-]; by left|].
  destruct (ownNamespace podNamespace file) as [ns|] eqn:En; [|done].
  destruct (list ns ComponentLabel ComponentValue) as [[|svc [|]]|] eqn:El; try done.
  destruct (svc_Ports svc) as [|p ps] eqn:Ep; [done|]. intros [= <-]. right. split; [done|].
  by exists ns, svc, p, ps.
Qed.

Example parse_ipv6 : ParseAddress "[fe80::1]:18000" = inl {| Host := "fe80::1"; Port := 18000 |}.
Proof. by vm_compute. Qed.

Example parse_range : ParseAddress "xds:65536" =
  inr (wrapErr ("port " +:+ fmt_q "65536") (numError "65536" ErrRange)).
Proof. by vm_compute. Qed.
