(* ===== verification/GatewayLoad.v ===== *)
(** * What a Gateway's configuration is built from
      (internal/gateway/params.go, load.go, configuration.go)

    The parameters of a GatewayClass, and [Load], which reads everything [Build]
    looks up for one Gateway. Reads are requests to the API server's cache, or to
    [Access] for TLS Secrets, with arbitrary answers. *)
From S2P Require Import Prelude GatewayAPI Samples Effects Access Refs Routes Envoy Listeners Hosts Model API.

Definition DefaultClassName := "cloudflare".
Definition ControllerName := "cloudflare.unmango.dev/gateway-controller".
Definition ParametersGroup := "cloudflare.unmango.dev".
Definition ParametersKind := "CloudflareGatewayConfig".

(** [Features]; whether there is an [Access] to read Secrets with. *)
Record Features := {
  ft_GRPCRoutes : bool;
  ft_TLSRoutes : bool;
  ft_TCPRoutes : bool;
  ft_UDPRoutes : bool;
  ft_Secrets : bool;
}.

(** The error is that what was asked for does not exist. *)
Definition missing (err : Err) : Prop := err_k8s err = Some K8sNotFound.

Lemma missing_iff err : k8s_IsNotFound err = true ↔ missing err.
Proof. unfold k8s_IsNotFound, missing. apply bool_decide_eq_true. Qed.

(** ** Requests *)

Inductive LoadE : Type → Type :=
  | ListHTTPRoutes : LoadE (list HTTPRoute + Err)
  | ListGRPCRoutes : LoadE (list GRPCRoute + Err)
  | ListTLSRoutes : LoadE (list TLSRoute + Err)
  | ListTCPRoutes : LoadE (list TCPRoute + Err)
  | ListUDPRoutes : LoadE (list UDPRoute + Err)
  | ListNamespaces : LoadE (list ObjectMeta + Err)
  | ListReferenceGrants : LoadE (list ReferenceGrant + Err)
  | GetGatewayClass (name : string) : LoadE (GatewayClass + Err)
  | GetGatewayConfig (key : NamespacedName) : LoadE (CloudflareGatewayConfig + Err)
  | GetService (key : NamespacedName) : LoadE (Service + Err)
  | ListEndpointSlices (ns service : string) : LoadE (list EndpointSlice + Err)
  | GetTLSSecret (key : NamespacedName) : LoadE (Secret + GetErr).

(** ** params.go *)

(** The errors of [Resolve] that describe the class's parameters, with their
    text, and the failures to read them. *)
Inductive ParametersErr := ErrNoParameters | ErrWrongKind | ErrNoNamespace | ErrNotFound | ErrNoTunnel.

Inductive ResolveErr :=
  | Parameters (e : ParametersErr) (message : string)
  | ReadFailed (e : Err).

Definition sentinel (e : ParametersErr) : string :=
  match e with
  | ErrNoParameters => "spec.parametersRef is required"
  | ErrWrongKind => "spec.parametersRef must name a " +:+ ParametersGroup +:+ "/" +:+ ParametersKind
  | ErrNoNamespace => "spec.parametersRef.namespace is required"
  | ErrNotFound => "spec.parametersRef names an object that does not exist"
  | ErrNoTunnel => "the CloudflareGatewayConfig sets neither template nor tunnelRef, " +:+
                   "so no traffic would reach its Gateways through Cloudflare"
  end.

Definition resolveErr_message (e : ResolveErr) : string :=
  match e with Parameters _ m => m | ReadFailed e => err_message e end.

Definition IsParametersError (e : ResolveErr) : bool :=
  match e with Parameters _ _ => true | ReadFailed _ => false end.

(** [Resolve]. *)
Definition Resolve (class : GatewayClass) : prog LoadE (CloudflareGatewayConfig + ResolveErr) :=
  match gc_ParametersRef class with
  | None => Ret (inr (Parameters ErrNoParameters (sentinel ErrNoParameters)))
  | Some ref =>
    if negb (str_eqb (pr_Group ref) ParametersGroup) || negb (str_eqb (pr_Kind ref) ParametersKind) then
      Ret (inr (Parameters ErrWrongKind
        (sentinel ErrWrongKind +:+ ", found " +:+ pr_Group ref +:+ "/" +:+ pr_Kind ref)))
    else
      let ns := default "" (pr_Namespace ref) in
      if str_eqb ns "" then Ret (inr (Parameters ErrNoNamespace (sentinel ErrNoNamespace)))
      else
        let key := {| nn_Namespace := ns; nn_Name := pr_Name ref |} in
        do config <- call (GetGatewayConfig key);
        Ret (match config with
             | inr err =>
               if k8s_IsNotFound err
               then inr (Parameters ErrNotFound (sentinel ErrNotFound +:+ ": " +:+ nn_string key))
               else inr (ReadFailed err)
             | inl config =>
               match gcs_Template (gcf_Spec config), gcs_TunnelRef (gcf_Spec config) with
               | None, None => inr (Parameters ErrNoTunnel (sentinel ErrNoTunnel +:+ ": " +:+ nn_string key))
               | _, _ => inl config
               end
             end)
  end.

(** [WarpRouting], of a config or of nil. *)
Definition WarpRoutingOf (config : option CloudflareGatewayConfig) : bool :=
  match config with
  | None => false
  | Some config =>
    match gcs_Template (gcf_Spec config) with
    | None => false
    | Some template =>
      match t_Config (gtt_Spec template) with
      | None => false
      | Some tc => match tc_WarpRouting tc with Some warp => wr_Enable warp | None => false end
      end
    end
  end.

(** ** load.go *)

(** One list of [ListRoutes], when the kind is installed. *)
Definition listKind {A} (installed : bool) (e : LoadE (list A + Err)) (from : A → Route) (routes : list Route)
    : prog LoadE (list Route + Err) :=
  if installed then
    do? items <- call e;
    Ret (inl (routes ++ fmap (M := list) from items))
  else Ret (inl routes).

Definition ListRoutes (features : Features) : prog LoadE (list Route + Err) :=
  do? routes <- listKind true ListHTTPRoutes FromHTTPRoute [];
  do? routes <- listKind (ft_GRPCRoutes features) ListGRPCRoutes FromGRPCRoute routes;
  do? routes <- listKind (ft_TLSRoutes features) ListTLSRoutes FromTLSRoute routes;
  do? routes <- listKind (ft_TCPRoutes features) ListTCPRoutes FromTCPRoute routes;
  listKind (ft_UDPRoutes features) ListUDPRoutes FromUDPRoute routes.

Definition filterRoutes (routes : list Route) (gw : Gateway) : list Route :=
  List.filter (λ r, RefersTo r gw && negb (bool_decide (is_Some (om_DeletionTimestamp (r_ObjectMeta r))))) routes.

(** The fields of the references [Load] fills in one after another. *)
Definition setServices (refs : References) (m : gmap NamespacedName Service) : References :=
  {| Namespaces := Namespaces refs; Grants := Grants refs; Services := m; Endpoints := Endpoints refs;
     Secrets := Secrets refs; Unreadable := Unreadable refs; WarpRouting := WarpRouting refs |}.

Definition setEndpoints (refs : References) (m : gmap NamespacedName (list EndpointSlice)) : References :=
  {| Namespaces := Namespaces refs; Grants := Grants refs; Services := Services refs; Endpoints := m;
     Secrets := Secrets refs; Unreadable := Unreadable refs; WarpRouting := WarpRouting refs |}.

Definition setSecrets (refs : References) (m : gmap NamespacedName Secret) : References :=
  {| Namespaces := Namespaces refs; Grants := Grants refs; Services := Services refs; Endpoints := Endpoints refs;
     Secrets := m; Unreadable := Unreadable refs; WarpRouting := WarpRouting refs |}.

Definition setUnreadable (refs : References) (m : gmap NamespacedName string) : References :=
  {| Namespaces := Namespaces refs; Grants := Grants refs; Services := Services refs; Endpoints := Endpoints refs;
     Secrets := Secrets refs; Unreadable := m; WarpRouting := WarpRouting refs |}.

(** [loadService]. *)
Definition loadService (refs : References) (key : NamespacedName) : prog LoadE (References + Err) :=
  match Services refs !! key with
  | Some _ => Ret (inl refs)
  | None =>
    do svc <- call (GetService key);
    match svc with
    | inr err => Ret (if k8s_IsNotFound err then inl refs else inr err)
    | inl svc =>
      let refs := setServices refs (<[key := svc]> (Services refs)) in
      do? slices <- call (ListEndpointSlices (nn_Namespace key) (nn_Name key));
      Ret (inl (setEndpoints refs (<[key := slices]> (Endpoints refs))))
    end
  end.

(** The Services the rules of the routes name, in order. *)
Definition refersToService (ref : BackendRef) : bool :=
  str_eqb (group (br_Group ref) CoreGroupName) (gk_Group ServiceKind)
  && str_eqb (kind (br_Kind ref) (gk_Kind ServiceKind)) (gk_Kind ServiceKind).

Definition serviceKey (route : Route) (ref : BackendRef) : NamespacedName :=
  {| nn_Namespace := namespace (br_Namespace ref) (r_Namespace route); nn_Name := br_Name ref |}.

Definition serviceKeys (routes : list Route) : list NamespacedName :=
  route ← routes; rule ← r_Rules route;
  serviceKey route <$> List.filter refersToService (ru_Backends rule).

Fixpoint loadServices (refs : References) (keys : list NamespacedName) : prog LoadE (References + Err) :=
  match keys with
  | [] => Ret (inl refs)
  | key :: keys =>
    do? refs <- loadService refs key;
    loadServices refs keys
  end.

Definition noSecretsReason :=
  "The operator has no ClusterRole to read TLS Secrets with; " +:+ "install it with the Helm chart, which ships one".

(** One certificate reference of a listener. *)
Definition loadSecret (gw : Gateway) (features : Features) (refs : References) (ref : SecretObjectReference)
    : prog LoadE (References + Err) :=
  if negb (refersToSecret ref) then Ret (inl refs)
  else
    let key := {| nn_Namespace := namespace (sor_Namespace ref) (gw_Namespace gw); nn_Name := sor_Name ref |} in
    if negb (Permitted refs GatewayKind (gw_Namespace gw) SecretKind (nn_Namespace key) (nn_Name key)) then Ret (inl refs)
    else if negb (ft_Secrets features) then
      Ret (inl (setUnreadable refs (<[key := noSecretsReason]> (Unreadable refs))))
    else
      do secret <- call (GetTLSSecret key);
      Ret (match secret with
           | inr (UnavailableError _ reason) => inl (setUnreadable refs (<[key := reason]> (Unreadable refs)))
           | inr (ReadErr err) => if k8s_IsNotFound err then inl refs else inr err
           | inl secret => inl (setSecrets refs (<[key := secret]> (Secrets refs)))
           end).

(** The certificate references of the listeners, in order. *)
Definition certificateRefs (gw : Gateway) : list SecretObjectReference :=
  l ← gw_Listeners gw; match ls_TLS l with Some tls => tls_CertificateRefs tls | None => [] end.

Fixpoint loadSecrets (gw : Gateway) (features : Features) (refs : References) (certs : list SecretObjectReference)
    : prog LoadE (References + Err) :=
  match certs with
  | [] => Ret (inl refs)
  | ref :: certs =>
    do? refs <- loadSecret gw features refs ref;
    loadSecrets gw features refs certs
  end.

(** Whether the class's parameters route WARP clients to Envoy. *)
Definition loadWarpRouting (gw : Gateway) : prog LoadE (bool + Err) :=
  do class <- call (GetGatewayClass (gw_GatewayClassName gw));
  match class with
  | inr err => Ret (if k8s_IsNotFound err then inl false else inr err)
  | inl class =>
    do config <- Resolve class;
    Ret (match config with
         | inl config => inl (WarpRoutingOf (Some config))
         | inr (ReadFailed err) => inr err
         | inr (Parameters _ _) => inl (WarpRoutingOf None)
         end)
  end.

Definition namespaceMap (items : list ObjectMeta) : gmap string (gmap string string) :=
  foldl (λ m ns, <[om_Name ns := om_Labels ns]> m) ∅ items.

(** [Load]. *)
Definition Load (gw : Gateway) (features : Features) : prog LoadE ((list Route * References) + Err) :=
  do? routes <- ListRoutes features;
  let routes := filterRoutes routes gw in
  do? namespaces <- call ListNamespaces;
  do grants <- call ListReferenceGrants;
  match match grants with
        | inl grants => inl grants
        | inr err => if IsNoMatchError err then inl [] else inr err
        end with
  | inr err => Ret (inr err)
  | inl grants =>
    do? warp <- loadWarpRouting gw;
    let refs := {| Namespaces := namespaceMap namespaces; Grants := grants; Services := ∅; Endpoints := ∅;
                   Secrets := ∅; Unreadable := ∅; WarpRouting := warp |} in
    do? refs <- loadServices refs (serviceKeys routes);
    do? refs <- loadSecrets gw features refs (certificateRefs gw);
    Ret (inl (routes, refs))
  end.

(** ** What a run read *)

Definition serviceGot (ev : event LoadE) : option (NamespacedName * (Service + Err)) :=
  let 'Ev e a := ev in
  match e in LoadE R return R → option (NamespacedName * (Service + Err)) with
  | GetService key => λ a, Some (key, a)
  | _ => λ _, None
  end a.

Definition slicesListed (ev : event LoadE) : option (NamespacedName * (list EndpointSlice + Err)) :=
  let 'Ev e a := ev in
  match e in LoadE R return R → option (NamespacedName * (list EndpointSlice + Err)) with
  | ListEndpointSlices ns name => λ a, Some ({| nn_Namespace := ns; nn_Name := name |}, a)
  | _ => λ _, None
  end a.

Definition secretGot (ev : event LoadE) : option (NamespacedName * (Secret + GetErr)) :=
  let 'Ev e a := ev in
  match e in LoadE R return R → option (NamespacedName * (Secret + GetErr)) with
  | GetTLSSecret key => λ a, Some (key, a)
  | _ => λ _, None
  end a.

(** ** Properties *)

(** A Service the references hold was read, with its slices; one that was asked
    for and is not there does not exist. *)
Definition ServicesLoaded (refs : References) (tr : list (event LoadE)) (asked : list NamespacedName) : Prop :=
  (∀ k svc, Services refs !! k = Some svc → k ∈ asked ∧ (k, inl svc) ∈ omap serviceGot tr ∧
     ∃ slices, Endpoints refs !! k = Some slices ∧ (k, inl slices) ∈ omap slicesListed tr) ∧
  (∀ k, k ∈ asked → Services refs !! k = None →
     ∃ err, (k, inr err) ∈ omap serviceGot tr ∧ k8s_IsNotFound err = true).

(** Everything but the Services and their slices. *)
Definition SameButServices (refs refs' : References) : Prop :=
  Namespaces refs' = Namespaces refs ∧ Grants refs' = Grants refs ∧ Secrets refs' = Secrets refs ∧
  Unreadable refs' = Unreadable refs ∧ WarpRouting refs' = WarpRouting refs.

Lemma ServicesLoaded_weaken refs tr tr' asked :
  ServicesLoaded refs tr asked → ServicesLoaded refs (tr ++ tr') asked.
Proof.
  intros [Hs Hn]. split.
  - intros k svc Hk. destruct (Hs k svc Hk) as (Ha & Hg & sl & He & Hl). rewrite !omap_app.
    split_and!; [done|by apply elem_of_app; left|]. exists sl. split; [done|]. by apply elem_of_app; left.
  - intros k Hk Hno. destruct (Hn k Hk Hno) as (err & Hg & He). exists err. split; [|done].
    rewrite omap_app. by apply elem_of_app; left.
Qed.

Lemma loadService_exec refs key tr refs' pre asked :
  exec (loadService refs key) tr (inl refs') → ServicesLoaded refs pre asked →
  ServicesLoaded refs' (pre ++ tr) (asked ++ [key]) ∧ SameButServices refs refs'.
Proof.
  intros Hx Hi. unfold loadService in Hx. destruct (Services refs !! key) as [svc|] eqn:Ek.
  { exec_inv. rewrite app_nil_r. split; [|done]. destruct Hi as [Hs Hn]. split.
    - intros k svc' Hk. destruct (Hs k svc' Hk) as (Ha & ?). split; [by apply elem_of_app; left|done].
    - intros k [Hk| ->%list_elem_of_singleton]%elem_of_app Hno; [by apply Hn|congruence]. }
  exec_inv. match goal with x : Service + Err |- _ => destruct x as [svc|err] end.
  2: { exec_inv. destruct (k8s_IsNotFound err) eqn:Ee; [|done]. simplify_eq. split; [|done].
    eapply (ServicesLoaded_weaken _ _ [Ev (GetService key) (inr err)]) in Hi as [Hs Hn]. split.
    - intros k svc' Hk. destruct (Hs k svc' Hk) as (Ha & ?). split; [by apply elem_of_app; left|done].
    - intros k [Hk| ->%list_elem_of_singleton]%elem_of_app Hno; [by apply Hn|].
      exists err. split; [|done]. rewrite omap_app. apply elem_of_app. right. by left. }
  exec_inv. match goal with x : list EndpointSlice + Err |- _ => destruct x as [slices|err] end; exec_inv.
  split; [|done]. destruct Hi as [Hs Hn]. split; simpl.
  - intros k svc' [[<- <-]|[Hne Hk]]%lookup_insert_Some.
    + rewrite !omap_app. split_and!; [by apply elem_of_app; right; left|apply elem_of_app; right; by left|].
      exists slices. rewrite lookup_insert_eq. split; [done|]. apply elem_of_app. right. destruct key. by left.
    + destruct (Hs k svc' Hk) as (Ha & Hg & sl & He & Hl). rewrite !omap_app.
      split_and!; [by apply elem_of_app; left|by apply elem_of_app; left|].
      exists sl. rewrite lookup_insert_ne by done. split; [done|]. by apply elem_of_app; left.
  - intros k Hk [Hno Hne]%lookup_insert_None.
    apply elem_of_app in Hk as [Hk| ->%list_elem_of_singleton]; [|done].
    destruct (Hn k Hk Hno) as (err & Hg & He). exists err. split; [|done]. rewrite omap_app. by apply elem_of_app; left.
Qed.

Lemma loadServices_exec refs keys tr refs' pre asked :
  exec (loadServices refs keys) tr (inl refs') → ServicesLoaded refs pre asked →
  ServicesLoaded refs' (pre ++ tr) (asked ++ keys) ∧ SameButServices refs refs'.
Proof.
  revert refs tr pre asked. induction keys as [|key keys IH]; intros refs tr pre asked Hx Hi; simpl in Hx.
  { exec_inv. rewrite !app_nil_r. by split. }
  apply exec_bind in Hx as (t1 & t2 & r & -> & H1 & H2). destruct r as [refs1|err]; [|exec_inv].
  destruct (loadService_exec _ _ _ _ _ _ H1 Hi) as [Hi1 Hs1].
  destruct (IH _ _ _ _ H2 Hi1) as [Hi2 Hs2]. rewrite (app_assoc pre), (cons_middle key asked).
  rewrite app_assoc. split; [done|]. destruct Hs1 as (?&?&?&?&?), Hs2 as (?&?&?&?&?).
  unfold SameButServices. split_and!; congruence.
Qed.

(** *** Secrets *)

Definition secretKey (gw : Gateway) (ref : SecretObjectReference) : NamespacedName :=
  {| nn_Namespace := namespace (sor_Namespace ref) (gw_Namespace gw); nn_Name := sor_Name ref |}.

(** A Secret a certificate reference names, and the Gateway may use. *)
Definition usable (gw : Gateway) (grants : list ReferenceGrant) (ref : SecretObjectReference) : Prop :=
  refersToSecret ref = true ∧
  ∀ refs, Grants refs = grants →
    Permitted refs GatewayKind (gw_Namespace gw) SecretKind (nn_Namespace (secretKey gw ref)) (sor_Name ref) = true.

Lemma Permitted_grants refs refs' from fns to tns name :
  Grants refs' = Grants refs → Permitted refs' from fns to tns name = Permitted refs from fns to tns name.
Proof. unfold Permitted. by intros ->. Qed.

(** What [Access] is asked for, and what each usable reference resolved to. *)
Definition SecretsLoaded (gw : Gateway) (features : Features) (refs : References) (tr : list (event LoadE))
    (asked : list SecretObjectReference) : Prop :=
  (∀ k a, (k, a) ∈ omap secretGot tr →
     ft_Secrets features = true ∧ ∃ ref, ref ∈ asked ∧ usable gw (Grants refs) ref ∧ k = secretKey gw ref) ∧
  (∀ k s, Secrets refs !! k = Some s → (k, inl s) ∈ omap secretGot tr) ∧
  (∀ ref, ref ∈ asked → usable gw (Grants refs) ref →
     is_Some (Secrets refs !! secretKey gw ref) ∨ is_Some (Unreadable refs !! secretKey gw ref) ∨
     ∃ err, (secretKey gw ref, inr (ReadErr err)) ∈ omap secretGot tr ∧ k8s_IsNotFound err = true) ∧
  (∀ k reason, Unreadable refs !! k = Some reason →
     (∃ ns, (k, inr (UnavailableError ns reason)) ∈ omap secretGot tr) ∨
     ft_Secrets features = false ∧ reason = noSecretsReason ∧
     ∃ ref, ref ∈ asked ∧ usable gw (Grants refs) ref ∧ k = secretKey gw ref).

Definition SameButSecrets (refs refs' : References) : Prop :=
  Namespaces refs' = Namespaces refs ∧ Grants refs' = Grants refs ∧ Services refs' = Services refs ∧
  Endpoints refs' = Endpoints refs ∧ WarpRouting refs' = WarpRouting refs.

Lemma SecretsLoaded_skip gw features refs tr asked ref :
  SecretsLoaded gw features refs tr asked → ¬ usable gw (Grants refs) ref →
  SecretsLoaded gw features refs tr (asked ++ [ref]).
Proof.
  intros (Ha & Hs & Hr & Hn) Hu. split_and!; [|done| |].
  - intros k a Hk. destruct (Ha k a Hk) as (Hf & ref' & Hin & ?). split; [done|]. exists ref'.
    split; [by apply elem_of_app; left|done].
  - intros ref' [Hin| ->%list_elem_of_singleton]%elem_of_app Hu'; [by apply Hr|done].
  - intros k reason Hk. destruct (Hn k reason Hk) as [?|(? & ? & ref' & ? & ?)]; [by left|right].
    split_and!; [done..|]. exists ref'. split; [by apply elem_of_app; left|done].
Qed.

Lemma loadSecret_exec gw features refs ref tr refs' pre asked :
  exec (loadSecret gw features refs ref) tr (inl refs') → SecretsLoaded gw features refs pre asked →
  SecretsLoaded gw features refs' (pre ++ tr) (asked ++ [ref]) ∧ SameButSecrets refs refs'.
Proof.
  intros Hx Hi. unfold loadSecret in Hx. destruct (refersToSecret ref) eqn:Es; simpl in Hx.
  2: { exec_inv. rewrite app_nil_r. split; [|done]. apply SecretsLoaded_skip; [done|]. intros [? _]. congruence. }
  destruct (Permitted _ _ _ _ _ _) eqn:Ep; simpl in Hx.
  2: { exec_inv. rewrite app_nil_r. split; [|done]. apply SecretsLoaded_skip; [done|].
    intros [_ Hp]. specialize (Hp _ eq_refl). simpl in Hp. congruence. }
  assert (usable gw (Grants refs) ref) as Hu.
  { split; [done|]. intros refs0 Hg. by rewrite (Permitted_grants refs refs0). }
  assert (∀ t : list (event LoadE), ∀ k a, (k, a) ∈ omap secretGot (pre ++ t) →
    (k, a) ∈ omap secretGot t ∨ ft_Secrets features = true ∧ ∃ ref0, ref0 ∈ asked ++ [ref] ∧
      usable gw (Grants refs) ref0 ∧ k = secretKey gw ref0) as Hpre.
  { intros t k a Hk. rewrite omap_app in Hk. apply elem_of_app in Hk as [Hk|Hk]; [right|by left].
    destruct (proj1 Hi k a Hk) as (Hf & ref0 & Hin & ?). split; [done|]. exists ref0.
    split; [by apply elem_of_app; left|done]. }
  assert (∀ t k reason, Unreadable refs !! k = Some reason →
    (∃ ns, (k, inr (UnavailableError ns reason)) ∈ omap secretGot (pre ++ t)) ∨
    ft_Secrets features = false ∧ reason = noSecretsReason ∧
    ∃ ref0, ref0 ∈ asked ++ [ref] ∧ usable gw (Grants refs) ref0 ∧ k = secretKey gw ref0) as Hunr.
  { intros t k reason Hk. destruct (proj2 (proj2 (proj2 Hi)) k reason Hk) as [[ns ?]|(? & ? & ref0 & ? & ?)].
    - left. exists ns. rewrite omap_app. by apply elem_of_app; left.
    - right. split_and!; [done..|]. exists ref0. split; [by apply elem_of_app; left|done]. }
  destruct Hi as (Ha & Hs & Hr & _). fold (secretKey gw ref) in Hx. destruct (ft_Secrets features) eqn:Ef; simpl in Hx.
  2: { exec_inv. split; [|done]. split_and!; simpl.
    - intros k a Hk. destruct (Hpre [] k a Hk) as [Hn|[Hf _]]; [by apply elem_of_nil in Hn|done].
    - intros k s Hk. rewrite app_nil_r. by apply Hs.
    - intros ref0 [Hin| ->%list_elem_of_singleton]%elem_of_app Hu0.
      + destruct (Hr ref0 Hin Hu0) as [?|[[r Hun]|(err & Hg & He)]]; [by left|right; left|right; right].
        * destruct (decide (secretKey gw ref = secretKey gw ref0)) as [<-|Hne].
          -- eexists. by rewrite lookup_insert_eq.
          -- exists r. by rewrite lookup_insert_ne.
        * exists err. by rewrite app_nil_r.
      + right. left. eexists. by rewrite lookup_insert_eq.
    - intros k reason [[<- <-]|[_ Hk]]%lookup_insert_Some; [right|rewrite Ef; by apply Hunr].
      split_and!; [done..|]. exists ref. split; [apply elem_of_app; right; by left|done]. }
  apply exec_Vis_inv in Hx as (ans & t2 & -> & Hx).
  assert (∀ k a, (k, a) ∈ omap secretGot (pre ++ [Ev (GetTLSSecret (secretKey gw ref)) ans]) →
    ft_Secrets features = true ∧ ∃ ref0, ref0 ∈ asked ++ [ref] ∧ usable gw (Grants refs) ref0 ∧ k = secretKey gw ref0)
    as Hasked.
  { intros k a Hk. destruct (Hpre _ k a Hk) as [Hn|?]; [|by rewrite Ef]. apply list_elem_of_singleton in Hn.
    injection Hn as -> _. split; [done|]. exists ref. split; [apply elem_of_app; right; by left|done]. }
  assert (∀ k a, (k, a) ∈ omap secretGot pre → (k, a) ∈ omap secretGot (pre ++ [Ev (GetTLSSecret (secretKey gw ref)) ans])) as Hold.
  { intros k a Hk. rewrite omap_app. by apply elem_of_app; left. }
  assert ((secretKey gw ref, ans) ∈ omap secretGot (pre ++ [Ev (GetTLSSecret (secretKey gw ref)) ans])) as Hnew.
  { rewrite omap_app. apply elem_of_app. right. by left. }
  destruct ans as [secret|[ns reason|err]]; exec_inv.
  - split; [|done]. split_and!; simpl; [done|..].
    + intros k s [[<- <-]|[_ Hk]]%lookup_insert_Some; [done|by apply Hold, Hs].
    + intros ref0 [Hin| ->%list_elem_of_singleton]%elem_of_app Hu0; [|left; eexists; by rewrite lookup_insert_eq].
      destruct (Hr ref0 Hin Hu0) as [[s Hse]|[?|(err & Hg & He)]]; [left|by right; left|right; right].
      * destruct (decide (secretKey gw ref = secretKey gw ref0)) as [<-|Hne].
        -- eexists. by rewrite lookup_insert_eq.
        -- exists s. by rewrite lookup_insert_ne.
      * exists err. split; [by apply Hold|done].
    + intros k reason Hk. rewrite Ef. by apply Hunr.
  - split; [|done]. split_and!; simpl; [done|..].
    + intros k s Hk. by apply Hold, Hs.
    + intros ref0 [Hin| ->%list_elem_of_singleton]%elem_of_app Hu0; [|right; left; eexists; by rewrite lookup_insert_eq].
      destruct (Hr ref0 Hin Hu0) as [?|[[r Hun]|(err & Hg & He)]]; [by left|right; left|right; right].
      * destruct (decide (secretKey gw ref = secretKey gw ref0)) as [<-|Hne].
        -- eexists. by rewrite lookup_insert_eq.
        -- exists r. by rewrite lookup_insert_ne.
      * exists err. split; [by apply Hold|done].
    + intros k reason' [[<- <-]|[_ Hk]]%lookup_insert_Some; [left; by exists ns|rewrite Ef; by apply Hunr].
  - destruct (k8s_IsNotFound err) eqn:Ee; [|done]. simplify_eq. split; [|done]. split_and!; [done|..].
    + intros k s Hk. by apply Hold, Hs.
    + intros ref0 [Hin| ->%list_elem_of_singleton]%elem_of_app Hu0; [|right; right; by exists err].
      destruct (Hr ref0 Hin Hu0) as [?|[?|(err' & Hg & He)]]; [by left|by right; left|right; right].
      exists err'. split; [by apply Hold|done].
    + intros k reason Hk. rewrite Ef. by apply Hunr.
Qed.

Lemma loadSecrets_exec gw features refs certs tr refs' pre asked :
  exec (loadSecrets gw features refs certs) tr (inl refs') → SecretsLoaded gw features refs pre asked →
  SecretsLoaded gw features refs' (pre ++ tr) (asked ++ certs) ∧ SameButSecrets refs refs'.
Proof.
  revert refs tr pre asked. induction certs as [|ref certs IH]; intros refs tr pre asked Hx Hi; simpl in Hx.
  { exec_inv. rewrite !app_nil_r. by split. }
  apply exec_bind in Hx as (t1 & t2 & r & -> & H1 & H2). destruct r as [refs1|err]; [|exec_inv].
  destruct (loadSecret_exec _ _ _ _ _ _ _ _ H1 Hi) as [Hi1 Hs1].
  destruct (IH _ _ _ _ H2 Hi1) as [Hi2 Hs2]. rewrite (app_assoc pre), (cons_middle ref asked).
  rewrite app_assoc. split; [done|]. destruct Hs1 as (?&?&?&?&?), Hs2 as (?&?&?&?&?).
  unfold SameButSecrets. split_and!; congruence.
Qed.

(** *** The whole *)

(** A list that is made of the kinds that are installed. *)
Definition Listed {A} (installed : bool) (e : LoadE (list A + Err)) (items : list A) : list (event LoadE) :=
  if installed then [Ev e (inl items)] else [].

(** The metadata of a Namespace; of two of a name, the last listed. *)
Definition labelsOf (nss : list ObjectMeta) (n : string) : option (gmap string string) :=
  om_Labels <$> last (filter (λ m, om_Name m = n) nss).

(** A backendRef of a rule of a route names this Service. *)
Definition NamesService (routes : list Route) (k : NamespacedName) : Prop :=
  ∃ route rule ref, route ∈ routes ∧ rule ∈ r_Rules route ∧ ref ∈ ru_Backends rule ∧ RefersToKey route ref k.

(** A certificateRef of a listener names this Secret, and it is the Gateway's own
    namespace's or granted. *)
Definition NamesSecret (gw : Gateway) (grants : list ReferenceGrant) (k : NamespacedName) : Prop :=
  ∃ l tls ref, l ∈ gw_Listeners gw ∧ ls_TLS l = Some tls ∧ ref ∈ tls_CertificateRefs tls ∧
    default "" (sor_Group ref) = "" ∧ default "Secret" (sor_Kind ref) = "Secret" ∧
    InNamespace (sor_Namespace ref) (om_Namespace (gw_ObjectMeta gw)) (nn_Namespace k) ∧ nn_Name k = sor_Name ref ∧
    (om_Namespace (gw_ObjectMeta gw) = nn_Namespace k ∨
     granted grants {| gk_Group := "gateway.networking.k8s.io"; gk_Kind := "Gateway" |} (om_Namespace (gw_ObjectMeta gw))
       {| gk_Group := ""; gk_Kind := "Secret" |} (nn_Namespace k) (nn_Name k)).

(** The parameters of the Gateway's class were read, and route WARP clients. *)
Definition WarpRoutes (gw : Gateway) (tr : list (event LoadE)) : Prop :=
  ∃ class config ref template tc warp,
    tr = [Ev (GetGatewayClass (gw_GatewayClassName gw)) (inl class); Ev (GetGatewayConfig
      {| nn_Namespace := default "" (pr_Namespace ref); nn_Name := pr_Name ref |}) (inl config)] ∧
    gc_ParametersRef class = Some ref ∧ pr_Group ref = "cloudflare.unmango.dev" ∧ pr_Kind ref = "CloudflareGatewayConfig" ∧
    default "" (pr_Namespace ref) ≠ "" ∧
    gcs_Template (gcf_Spec config) = Some template ∧ t_Config (gtt_Spec template) = Some tc ∧
    tc_WarpRouting tc = Some warp ∧ wr_Enable warp = true.

Definition classGot (ev : event LoadE) : option (GatewayClass + Err) :=
  let 'Ev e a := ev in
  match e in LoadE R return R → option (GatewayClass + Err) with
  | GetGatewayClass _ => λ a, Some a
  | _ => λ _, None
  end a.

Definition configGot (ev : event LoadE) : option (NamespacedName * (CloudflareGatewayConfig + Err)) :=
  let 'Ev e a := ev in
  match e in LoadE R return R → option (NamespacedName * (CloudflareGatewayConfig + Err)) with
  | GetGatewayConfig key => λ a, Some (key, a)
  | _ => λ _, None
  end a.

(** A class is served only with parameters that name a CloudflareGatewayConfig in
    a namespace, which exists and reaches Cloudflare. *)
Lemma Resolve_ok class tr config :
  exec (Resolve class) tr (inl config) →
  ∃ ref ns, gc_ParametersRef class = Some ref ∧ pr_Group ref = ParametersGroup ∧ pr_Kind ref = ParametersKind ∧
    pr_Namespace ref = Some ns ∧ ns ≠ "" ∧
    tr = [Ev (GetGatewayConfig {| nn_Namespace := ns; nn_Name := pr_Name ref |}) (inl config)] ∧
    (gcs_Template (gcf_Spec config) ≠ None ∨ gcs_TunnelRef (gcf_Spec config) ≠ None).
Proof.
  unfold Resolve. destruct (gc_ParametersRef class) as [ref|]; [|by intros [_ ?]%exec_Ret_inv].
  destruct (negb (str_eqb (pr_Group ref) _) || _) eqn:Eg; [by intros [_ ?]%exec_Ret_inv|]. str_simpl.
  destruct (str_eqb (default "" (pr_Namespace ref)) "") eqn:En; [by intros [_ ?]%exec_Ret_inv|]. str_simpl.
  intros Hx. exec_inv.
  match goal with x : CloudflareGatewayConfig + Err |- _ => destruct x as [c|err] end.
  2: { by destruct (k8s_IsNotFound err). }
  destruct (pr_Namespace ref) as [ns|] eqn:Ens; [|done]. simpl in *. exists ref, ns.
  assert (c = config ∧ (gcs_Template (gcf_Spec c) ≠ None ∨ gcs_TunnelRef (gcf_Spec c) ≠ None)) as [-> ?].
  { destruct (gcs_Template (gcf_Spec c)), (gcs_TunnelRef (gcf_Spec c)); simplify_eq; split; auto. }
  by split_and!.
Qed.

Lemma Resolve_template class config ref tr rc :
  exec (Resolve class) tr rc → gc_ParametersRef class = Some ref → gcs_Template (gcf_Spec config) ≠ None →
  omap configGot tr = [({| nn_Namespace := default "" (pr_Namespace ref); nn_Name := pr_Name ref |}, inl config)] →
  rc = inl config.
Proof.
  unfold Resolve. intros Hx Hp Ht Htr. rewrite Hp in Hx.
  destruct (negb _ || _); [by apply exec_Ret_inv in Hx as [-> _]|].
  destruct (str_eqb _ ""); [by apply exec_Ret_inv in Hx as [-> _]|].
  apply exec_Vis_inv in Hx as (r & t & -> & [-> <-]%exec_Ret_inv). injection Htr as ->. by destruct (gcs_Template (gcf_Spec config)).
Qed.

(** What [Load] read of the Services a predicate names: every one was looked up,
    and is held with its slices as they were read, or does not exist. *)
Record ServicesRead (asked : NamespacedName → Prop) (refs : References) (tr : list (event LoadE)) : Prop := {
  sr_held k svc : Services refs !! k = Some svc → asked k ∧ (k, inl svc) ∈ omap serviceGot tr ∧
    ∃ slices, Endpoints refs !! k = Some slices ∧ (k, inl slices) ∈ omap slicesListed tr;
  sr_asked k : asked k → Services refs !! k = None →
    ∃ err, (k, inr err) ∈ omap serviceGot tr ∧ missing err;
}.

(** What it read of the Secrets: no other was asked for, and every one is held as
    it was read, unreadable for the reason given, or does not exist. *)
Record SecretsRead (named : NamespacedName → Prop) (access : bool) (refs : References) (tr : list (event LoadE)) : Prop := {
  cr_asked k a : (k, a) ∈ omap secretGot tr → access = true ∧ named k;
  cr_held k s : Secrets refs !! k = Some s → (k, inl s) ∈ omap secretGot tr;
  cr_unreadable k reason : Unreadable refs !! k = Some reason →
    (∃ ns, (k, inr (UnavailableError ns reason)) ∈ omap secretGot tr) ∨ access = false ∧ named k;
  cr_named k : named k → is_Some (Secrets refs !! k) ∨ is_Some (Unreadable refs !! k) ∨
    ∃ err, (k, inr (ReadErr err)) ∈ omap secretGot tr ∧ missing err;
}.

Lemma WarpRoutingOf_iff config :
  WarpRoutingOf (Some config) = true ↔ ∃ template tc warp, gcs_Template (gcf_Spec config) = Some template ∧
    t_Config (gtt_Spec template) = Some tc ∧ tc_WarpRouting tc = Some warp ∧ wr_Enable warp = true.
Proof. simpl. repeat case_match; naive_solver. Qed.

Lemma labelsOf_namespaceMap nss n : namespaceMap nss !! n = labelsOf nss n.
Proof.
  unfold namespaceMap, labelsOf. 
  induction nss as [|m nss IH] using rev_ind; [done|]. rewrite foldl_app, filter_app. simpl.
  rewrite lookup_insert. rewrite filter_cons, filter_nil. case_decide as Hm.
  - by rewrite last_snoc.
  - by rewrite app_nil_r.
Qed.

Lemma serviceKeys_NamesService routes k : k ∈ serviceKeys routes ↔ NamesService routes k.
Proof.
  unfold serviceKeys, NamesService, serviceKey. setoid_rewrite list_elem_of_bind.
  setoid_rewrite list_elem_of_bind. setoid_rewrite list_elem_of_fmap. setoid_rewrite list_elem_of_In.
  setoid_rewrite filter_In. setoid_rewrite <- list_elem_of_In. unfold refersToService. setoid_rewrite RefersToKey_iff.
  unfold RefersToService, backendKey. setoid_rewrite andb_true_iff. setoid_rewrite str_eqb_eq.
  split.
  - intros (route & (rule & (ref & -> & Hb & Hg & Hk) & Hru) & Hr). by exists route, rule, ref.
  - intros (route & rule & ref & Hr & Hru & Hb & [Hg Hk] & ->). exists route. split; [|done].
    exists rule. split; [|done]. by exists ref.
Qed.

Lemma usable_NamesSecret gw grants k :
  (∃ ref, ref ∈ certificateRefs gw ∧ usable gw grants ref ∧ k = secretKey gw ref) ↔ NamesSecret gw grants k.
Proof.
  unfold certificateRefs, usable, NamesSecret, secretKey, refersToSecret. setoid_rewrite list_elem_of_bind. split.
  - intros (ref & (l & Hin & Hl) & [Hs Hp] & ->). destruct (ls_TLS l) as [tls|] eqn:El; [|by apply elem_of_nil in Hin].
    rewrite andb_true_iff, !str_eqb_eq in Hs. exists l, tls, ref. simpl. split_and!; try done; try apply Hs.
    + by apply namespace_InNamespace.
    + specialize (Hp {| Namespaces := ∅; Grants := grants; Services := ∅; Endpoints := ∅; Secrets := ∅;
        Unreadable := ∅; WarpRouting := false |} eq_refl). by apply Permitted_iff in Hp.
  - intros (l & tls & ref & Hl & El & Hin & Hg & Hk & Hns & Hn & Hp). exists ref. split; [|split].
    + exists l. by rewrite El.
    + apply namespace_InNamespace in Hns. split; [rewrite andb_true_iff, !str_eqb_eq; by split|].
      intros refs <-. apply Permitted_iff. simpl. rewrite <- Hn. by rewrite <- Hns in Hp.
    + apply namespace_InNamespace in Hns. destruct k as [ns n]; simpl in *. by subst.
Qed.

Lemma listKind_exec {A} b (e : LoadE (list A + Err)) from routes tr out :
  exec (listKind b e from routes) tr (inl out) →
  ∃ items, tr = Listed b e items ∧ (b = false → items = []) ∧ out = routes ++ (from <$> items).
Proof.
  unfold listKind. destruct b; intros Hx.
  - apply exec_bind in Hx as (t1 & t2 & [l|err] & -> & ->%exec_call & Hx); [|exec_inv].
    apply exec_Ret_inv in Hx as [-> [= <-]]. by exists l.
  - exec_inv. exists []. by rewrite app_nil_r.
Qed.

Lemma ListRoutes_exec features tr out :
  exec (ListRoutes features) tr (inl out) →
  ∃ http grpc tls tcp udp,
    tr = Listed true ListHTTPRoutes http ++ Listed (ft_GRPCRoutes features) ListGRPCRoutes grpc ++
         Listed (ft_TLSRoutes features) ListTLSRoutes tls ++ Listed (ft_TCPRoutes features) ListTCPRoutes tcp ++
         Listed (ft_UDPRoutes features) ListUDPRoutes udp ∧
    (ft_GRPCRoutes features = false → grpc = []) ∧ (ft_TLSRoutes features = false → tls = []) ∧
    (ft_TCPRoutes features = false → tcp = []) ∧ (ft_UDPRoutes features = false → udp = []) ∧
    out = (FromHTTPRoute <$> http) ++ (FromGRPCRoute <$> grpc) ++ (FromTLSRoute <$> tls) ++
          (FromTCPRoute <$> tcp) ++ (FromUDPRoute <$> udp).
Proof.
  unfold ListRoutes. intros Hx.
  repeat match goal with
  | Hx : exec (bind _ _) _ _ |- _ => apply exec_bind in Hx as (? & ? & [?|?] & -> & ? & ?); [|by exec_inv]
  end.
  repeat match goal with
  | Hl : exec (listKind _ _ _ _) _ (inl _) |- _ => apply listKind_exec in Hl as (? & ? & ? & ?)
  end.
  subst. do 5 eexists. split_and!; [reflexivity|done..|]. by rewrite <- !app_assoc.
Qed.

Lemma loadWarpRouting_exec gw tr warp :
  exec (loadWarpRouting gw) tr (inl warp) → warp = true ↔ WarpRoutes gw tr.
Proof.
  intros Hx. unfold loadWarpRouting in Hx. apply exec_Vis_inv in Hx as (cls & t2 & -> & Hx).
  destruct cls as [class|err].
  2: { simpl in Hx. exec_inv. split; [|intros (?&?&?&?&?&?&Heq&_); apply (f_equal length) in Heq; done].
    destruct (k8s_IsNotFound err); naive_solver. }
  apply exec_bind in Hx as (t3 & t4 & rc & -> & Hr & Hx). apply exec_Ret_inv in Hx as [-> Hw].
  rewrite app_nil_r. destruct rc as [config|[e m|err]]; [|injection Hw as <-; split; [done|]|done].
  - destruct (Resolve_ok _ _ _ Hr) as (ref & ns & Hp & Hg & Hk & Hns & Hne & -> & _).
    assert (warp = WarpRoutingOf (Some config)) as -> by congruence.
    rewrite WarpRoutingOf_iff. split.
    + intros (template & tc & w & ?). exists class, config, ref, template, tc, w. by rewrite Hns.
    + intros (class' & config' & ref' & template & tc & w & Heq & _ & _ & _ & _ & ?).
      apply (f_equal (omap configGot)) in Heq. injection Heq as _ _ ->. by exists template, tc, w.
  - intros (class' & config' & ref' & template & tc & w & Heq & Hp & _ & _ & _ & Ht & _).
    pose proof (f_equal (omap classGot) Heq) as Hc. pose proof (f_equal (omap configGot) Heq) as Hg.
    simpl in Hc, Hg. injection Hc as -> _. eapply Resolve_template in Hr; [|exact Hp| |exact Hg]; [done|by rewrite Ht].
Qed.

Lemma filterRoutes_filter routes gw :
  filterRoutes routes gw =
  filter (λ r, Exists (NamesGateway gw (r_Namespace r)) (r_ParentRefs r) ∧ om_DeletionTimestamp (r_ObjectMeta r) = None) routes.
Proof.
  unfold filterRoutes. induction routes as [|r routes IH]; [done|]. rewrite filter_cons. simpl. rewrite IH.
  assert (RefersTo r gw = true ↔ Exists (NamesGateway gw (r_Namespace r)) (r_ParentRefs r)) as Hr.
  { unfold RefersTo. rewrite existsb_spec, Exists_exists. by setoid_rewrite targets_NamesGateway. }
  destruct (RefersTo r gw), (om_DeletionTimestamp (r_ObjectMeta r)) eqn:Ed; simpl; case_decide as Hd; naive_solver.
Qed.

Lemma ServicesLoaded_read refs tr routes :
  ServicesLoaded refs tr (serviceKeys routes) → ServicesRead (NamesService routes) refs tr.
Proof.
  intros [Hs Hn]. split.
  - intros k svc Hk. rewrite <- serviceKeys_NamesService. by apply Hs.
  - intros k Hk Hno. apply serviceKeys_NamesService in Hk. destruct (Hn k Hk Hno) as (err & ? & ?%bool_decide_eq_true).
    by exists err.
Qed.

Lemma SecretsLoaded_read gw features refs tr :
  SecretsLoaded gw features refs tr (certificateRefs gw) →
  SecretsRead (NamesSecret gw (Grants refs)) (ft_Secrets features) refs tr.
Proof.
  intros (Ha & Hs & Hr & Hu). split.
  - intros k a Hk. destruct (Ha k a Hk) as [? ?]. split; [done|]. by apply usable_NamesSecret.
  - done.
  - intros k reason Hk. destruct (Hu k reason Hk) as [?|(? & _ & ?)]; [by left|right].
    split; [done|]. by apply usable_NamesSecret.
  - intros k (ref & Hin & Hp & ->)%usable_NamesSecret.
    destruct (Hr ref Hin Hp) as [?|[?|(err & ? & ?%bool_decide_eq_true)]]; [by left|by right; left|right; right].
    by exists err.
Qed.

Lemma NamesSecret_namespace gw refs k :
  NamesSecret gw (Grants refs) k → nn_Namespace k ∈ CertificateNamespaces gw refs.
Proof.
  intros (ref & Hin & [Hs Hp] & ->)%usable_NamesSecret. apply CertificateNamespaces_iff.
  unfold certificateRefs in Hin. apply list_elem_of_bind in Hin as (l & Hin & Hl).
  destruct (ls_TLS l) as [tls|] eqn:El; [|by apply elem_of_nil in Hin].
  exists l. split; [done|]. exists tls. split; [done|]. exists ref. split; [done|].
  unfold permittedSecretRef. split_and!; [done|done|]. by apply Hp.
Qed.

Lemma Load_exec gw features tr routes refs :
  exec (Load gw features) tr (inl (routes, refs)) →
  ∃ t1 nss gr tw ts tc all, tr = t1 ++ [Ev ListNamespaces (inl nss); Ev ListReferenceGrants gr] ++ tw ++ ts ++ tc ∧
    exec (ListRoutes features) t1 (inl all) ∧ routes = filterRoutes all gw ∧
    Namespaces refs = namespaceMap nss ∧
    (gr = inl (Grants refs) ∨ ∃ err, gr = inr err ∧ IsNoMatchError err = true ∧ Grants refs = []) ∧
    exec (loadWarpRouting gw) tw (inl (WarpRouting refs)) ∧
    ServicesLoaded refs ts (serviceKeys routes) ∧ SecretsLoaded gw features refs tc (certificateRefs gw).
Proof.
  unfold Load. intros Hx. apply exec_bind in Hx as (t1 & t2 & [all|err] & -> & H1 & Hx); [|exec_inv].
  apply exec_bind in Hx as (t3 & t4 & [nss|err] & -> & ->%exec_call & Hx); [|exec_inv].
  apply exec_bind in Hx as (t5 & t6 & gr & -> & ->%exec_call & Hx).
  set (g := match gr with inl grants => inl grants | inr err => if IsNoMatchError err then inl [] else inr err end) in Hx.
  destruct g as [grants|err] eqn:Eg; [|exec_inv].
  assert (gr = inl grants ∨ ∃ err, gr = inr err ∧ IsNoMatchError err = true ∧ grants = []) as Hgr.
  { unfold g in Eg. destruct gr as [l|err]; [left; congruence|right]. exists err. destruct (IsNoMatchError err); naive_solver. }
  clear Eg g. apply exec_bind in Hx as (tw & t8 & [warp|err] & -> & Hw & Hx); [|exec_inv].
  apply exec_bind in Hx as (ts & t10 & [refs1|err] & -> & Hs & Hx); [|exec_inv].
  apply exec_bind in Hx as (tc & t12 & [refs2|err] & -> & Hc & Hx); [|exec_inv].
  apply exec_Ret_inv in Hx as [-> [= <- <-]]. rewrite app_nil_r.
  destruct (loadServices_exec _ _ _ _ [] [] Hs) as [HS (HN & HG & HSe & HU & HW)].
  { split; [intros k svc Hk; simpl in Hk; by rewrite lookup_empty in Hk|intros k Hk; by apply elem_of_nil in Hk]. }
  destruct (loadSecrets_exec _ _ _ _ _ _ [] [] Hc) as [HC (HN2 & HG2 & HS2 & HE2 & HW2)].
  { split_and!; [intros k a Hk; by apply elem_of_nil in Hk| |intros r Hr; by apply elem_of_nil in Hr|].
    - intros k s Hk. rewrite HSe in Hk. simpl in Hk. by rewrite lookup_empty in Hk.
    - intros k s Hk. rewrite HU in Hk. simpl in Hk. by rewrite lookup_empty in Hk. }
  simpl in *. exists t1, nss, gr, tw, ts, tc, all. rewrite HN2, HN, HG2, HG, HW2, HW.
  split_and!; try done. unfold ServicesLoaded in *. by rewrite HS2, HE2.
Qed.

(** C36. A Gateway is built from what the cluster holds, and only from what it may
    use. When [Load] succeeds, it listed the kinds of route that are installed,
    and its routes are those listed whose parentRefs name the Gateway and that
    are not being deleted; the labels are those of the Namespaces listed and the
    grants those listed, or none when the cluster has no ReferenceGrants; WARP
    clients are routed exactly when the parameters of the class were read and say
    so; every Service a backendRef of these routes names was looked up, and is
    held together with its EndpointSlices exactly as they were read, or does not
    exist; a Secret is asked for only when a certificateRef of a listener names
    it and the Gateway may use it, so only in a namespace the operator watches
    Secrets in for this Gateway; and every such reference is a Secret held as it
    was read, one that is unreadable for the reason [Access] gave or for want of
    access, or one that does not exist. *)
Theorem Load_spec gw features tr routes refs :
  exec (Load gw features) tr (inl (routes, refs)) →
  ∃ http grpc tls tcp udp nss gr tw ts tc,
    tr = [Ev ListHTTPRoutes (inl http)] ++ Listed (ft_GRPCRoutes features) ListGRPCRoutes grpc ++
         Listed (ft_TLSRoutes features) ListTLSRoutes tls ++ Listed (ft_TCPRoutes features) ListTCPRoutes tcp ++
         Listed (ft_UDPRoutes features) ListUDPRoutes udp ++
         [Ev ListNamespaces (inl nss); Ev ListReferenceGrants gr] ++ tw ++ ts ++ tc ∧
    (ft_GRPCRoutes features = false → grpc = []) ∧ (ft_TLSRoutes features = false → tls = []) ∧
    (ft_TCPRoutes features = false → tcp = []) ∧ (ft_UDPRoutes features = false → udp = []) ∧
    routes = filter (λ r, Exists (NamesGateway gw (r_Namespace r)) (r_ParentRefs r) ∧
                          om_DeletionTimestamp (r_ObjectMeta r) = None)
      ((FromHTTPRoute <$> http) ++ (FromGRPCRoute <$> grpc) ++ (FromTLSRoute <$> tls) ++
       (FromTCPRoute <$> tcp) ++ (FromUDPRoute <$> udp)) ∧
    (∀ n, Namespaces refs !! n = labelsOf nss n) ∧
    (gr = inl (Grants refs) ∨ ∃ err, gr = inr err ∧ err_k8s err = Some K8sNoMatch ∧ Grants refs = []) ∧
    (WarpRouting refs = true ↔ WarpRoutes gw tw) ∧
    ServicesRead (NamesService routes) refs ts ∧
    SecretsRead (NamesSecret gw (Grants refs)) (ft_Secrets features) refs tc ∧
    ∀ k, NamesSecret gw (Grants refs) k → nn_Namespace k ∈ CertificateNamespaces gw refs.
Proof.
  intros (t1 & nss & gr & tw & ts & tc & all & -> & H1 & -> & HN & HG & HW & HS & HC)%Load_exec.
  apply ListRoutes_exec in H1 as (http & grpc & tls & tcp & udp & -> & ? & ? & ? & ? & ->).
  exists http, grpc, tls, tcp, udp, nss, gr, tw, ts, tc. split_and!; try done.
  - by rewrite <- !app_assoc.
  - apply filterRoutes_filter.
  - intros n. rewrite HN. apply labelsOf_namespaceMap.
  - destruct HG as [?|(err & ? & ?%bool_decide_eq_true & ?)]; [by left|right; by exists err].
  - by apply loadWarpRouting_exec.
  - by apply ServicesLoaded_read.
  - by apply SecretsLoaded_read.
  - intros k. apply NamesSecret_namespace.
Qed.

(** ** A sample cluster *)

(** A Service, the Secret "cert" and a route to the Service, of a Gateway whose
    listener names two certificates. *)
Definition sampleClass (params : option ParametersReference) : GatewayClass :=
  {| gc_ObjectMeta := sampleMeta "" "cloudflare"; gc_ControllerName := ControllerName;
     gc_ParametersRef := params; gc_StatusConditions := [mkCondition "Accepted" ConditionTrue "Accepted" ""] |}.

Definition sampleGatewayConfig (template : option CloudflareTunnelSpec) : CloudflareGatewayConfig :=
  {| gcf_ObjectMeta := sampleMeta "infra" "config";
     gcf_Spec := {| gcs_TunnelRef := None;
       gcs_Template := (λ s, {| gtt_ObjectMeta := {| gtm_Labels := ∅; gtm_Annotations := ∅ |}; gtt_Spec := s |}) <$> template;
       gcs_Envoy := None |};
     gcf_StatusConditions := [] |}.

Definition sampleHTTPRoute (name gateway service : string) : HTTPRoute :=
  {| http_ObjectMeta := sampleMeta "default" name; http_ParentRefs := [sampleParent gateway]; http_Hostnames := [];
     http_Rules := [{| hr_Matches := []; hr_Filters := [];
       hr_BackendRefs := [{| hbr_BackendRef := sampleBackendRef service 80; hbr_Filters := [] |}] |}] |}.

Definition k8sNotFoundErr : Err := {| err_message := "not found"; err_status := None; err_k8s := Some K8sNotFound |}.

Definition loadAnswers (class : GatewayClass) (config : CloudflareGatewayConfig) (R : Type) (e : LoadE R) : option R :=
  match e in LoadE R return option R with
  | ListHTTPRoutes => Some (inl [sampleHTTPRoute "r1" "gw" "web"; sampleHTTPRoute "r2" "other" "web"])
  | ListGRPCRoutes => Some (inl [])
  | ListTLSRoutes => Some (inl [])
  | ListTCPRoutes => Some (inl [])
  | ListUDPRoutes => Some (inl [])
  | ListNamespaces => Some (inl [sampleMeta "" "default"])
  | ListReferenceGrants => Some (inl [])
  | GetGatewayClass _ => Some (inl class)
  | GetGatewayConfig _ => Some (inl config)
  | GetService key =>
    Some (if str_eqb (nn_Name key) "web"
          then inl (sampleService "default" "web" [sampleServicePort "http" "TCP" 80 8080]) else inr k8sNotFoundErr)
  | ListEndpointSlices _ _ => Some (inl [])
  | GetTLSSecret key => Some (inl (sampleTLSSecret (nn_Namespace key) (nn_Name key)))
  end.

Definition sampleFeatures : Features :=
  {| ft_GRPCRoutes := false; ft_TLSRoutes := false; ft_TCPRoutes := false; ft_UDPRoutes := true; ft_Secrets := true |}.

Definition sampleTLSGateway : Gateway := sampleGateway "default" "gw" [sampleTLSListener "https" "HTTPS" 443 "cert"].

Lemma Load_spec_witness :
  ∃ tr routes refs, exec (Load sampleTLSGateway sampleFeatures) tr (inl (routes, refs)) ∧
    r_Name <$> routes = ["r1"] ∧
    nn_Namespace {| nn_Namespace := "default"; nn_Name := "cert" |} ∈ CertificateNamespaces sampleTLSGateway refs.
Proof.
  destruct (runTrace (loadAnswers (sampleClass None) (sampleGatewayConfig None)) (Load sampleTLSGateway sampleFeatures))
    as [[tr [[routes refs]|err]]|] eqn:Er; [|by vm_compute in Er..].
  pose proof (runTrace_exec _ _ _ _ Er) as Hx. exists tr, routes, refs.
  destruct (Load_spec _ _ _ _ _ Hx)
    as (http & grpc & tls & tcp & udp & nss & gr & tw & ts & tc & _ & _ & _ & _ & _ & _ & _ & _ & _ & _ & _ & Hn).
  split; [exact Hx|]. split; [by vm_compute in Er; injection Er as <- <- <-; vm_compute|]. apply Hn.
  do 3 eexists. split_and!; [by left|done|by left|done..|by left].
Defined.
