(* ===== verification/GatewayStatus.v ===== *)
(** * The status of a Gateway (internal/controller/gateway_status.go, gatewayreason.go)

    What one reconciliation learns about a Gateway, and how it is written onto the
    object. The list of conditions a listener's status starts from is a value of
    its own here; in Go it may share storage with the list it was read from, which
    is overwritten in the same function. *)
From S2P Require Import Prelude GatewayAPI Samples Effects Helpers Refs Routes Envoy Listeners Hosts Model.

Definition reasonInvalidParameters := "InvalidParameters".
Definition conditionTunnelProgrammed := "cloudflare.unmango.dev/TunnelProgrammed".
Definition reasonTunnelProgrammed := "Programmed".
Definition reasonTunnelPending := "Pending".
Definition reasonTunnelConflict := "Conflict".
Definition reasonTunnelNotImplemented := "NotImplemented".

(** Types and reasons gatewayv1 defines. *)
Definition GatewayConditionAccepted := "Accepted".
Definition GatewayConditionProgrammed := "Programmed".
Definition ListenerConditionProgrammed := "Programmed".

Record gatewayStatus := {
  gs_listeners : list Listener;
  gs_attachedRoutes : list Z;
  gs_addresses : list GatewayAddress;
  gs_acceptedCondition : Condition;
  gs_programmedCondition : Condition;
  gs_tunnel : option Condition;
}.

(** The zero value of a condition. *)
Definition noCondition : Condition := mkCondition "" ConditionUnknown "" "".

Definition newGatewayStatus (m : Model) : gatewayStatus :=
  {| gs_listeners := md_Listeners m; gs_attachedRoutes := md_AttachedRoutes m; gs_addresses := [];
     gs_acceptedCondition := noCondition; gs_programmedCondition := noCondition; gs_tunnel := None |}.

Definition accepted (s : gatewayStatus) (status : ConditionStatus) (reason message : string) : gatewayStatus :=
  {| gs_listeners := gs_listeners s; gs_attachedRoutes := gs_attachedRoutes s; gs_addresses := gs_addresses s;
     gs_acceptedCondition := mkCondition GatewayConditionAccepted status reason message;
     gs_programmedCondition := gs_programmedCondition s; gs_tunnel := gs_tunnel s |}.

Definition programmed (s : gatewayStatus) (status : ConditionStatus) (reason message : string) : gatewayStatus :=
  {| gs_listeners := gs_listeners s; gs_attachedRoutes := gs_attachedRoutes s; gs_addresses := gs_addresses s;
     gs_acceptedCondition := gs_acceptedCondition s;
     gs_programmedCondition := mkCondition GatewayConditionProgrammed status reason message;
     gs_tunnel := gs_tunnel s |}.

Definition withAddresses (s : gatewayStatus) (addresses : list GatewayAddress) : gatewayStatus :=
  {| gs_listeners := gs_listeners s; gs_attachedRoutes := gs_attachedRoutes s; gs_addresses := addresses;
     gs_acceptedCondition := gs_acceptedCondition s; gs_programmedCondition := gs_programmedCondition s;
     gs_tunnel := gs_tunnel s |}.

Definition withTunnel (s : gatewayStatus) (tunnel : Condition) : gatewayStatus :=
  {| gs_listeners := gs_listeners s; gs_attachedRoutes := gs_attachedRoutes s; gs_addresses := gs_addresses s;
     gs_acceptedCondition := gs_acceptedCondition s; gs_programmedCondition := gs_programmedCondition s;
     gs_tunnel := Some tunnel |}.

Definition validListeners (s : gatewayStatus) : Z :=
  foldl (λ n l, if l_Valid l then (n + 1)%Z else n) 0%Z (gs_listeners s).

Definition removeConditionsExcept (conditions : list Condition) (keep : list string) : list Condition :=
  List.filter (λ c, bool_decide (c_Type c ∈ keep)) conditions.

Section apply.
Context `{ObjectHelpers}.

(** The closure [set]. *)
Definition observedAt (generation : Z) (c : Condition) : Condition :=
  {| c_Type := c_Type c; c_Status := c_Status c; c_Reason := c_Reason c; c_Message := c_Message c;
     c_ObservedGeneration := generation; c_LastTransitionTime := c_LastTransitionTime c |}.

Definition setObserved (generation : Z) (conditions : list Condition) (c : Condition) : list Condition :=
  SetStatusCondition conditions (observedAt generation c).

(** The Programmed condition of a listener. *)
Definition listenerProgrammed (l : Listener) (gatewayProgrammed : bool) : Condition :=
  if negb (l_Valid l) then
    mkCondition ListenerConditionProgrammed ConditionFalse "Invalid" "Listener is not valid"
  else if gatewayProgrammed then
    mkCondition ListenerConditionProgrammed ConditionTrue "Programmed" "Listener is programmed"
  else mkCondition ListenerConditionProgrammed ConditionFalse "Pending" "Waiting for the Gateway to be programmed".

Definition previousConditions (ls : list ListenerStatus) : gmap string (list Condition) :=
  foldl (λ m l, <[lst_Name l := lst_Conditions l]> m) ∅ ls.

(** The status of one listener, with its attached routes. *)
Definition listenerStatus (generation : Z) (previous : gmap string (list Condition)) (gatewayProgrammed : bool)
    (l : Listener) (attached : Z) : ListenerStatus :=
  let desired := l_Conditions l ++ [listenerProgrammed l gatewayProgrammed] in
  let conditions := foldl (setObserved generation) (default [] (previous !! l_Name l)) desired in
  {| lst_Name := l_Name l; lst_SupportedKinds := l_SupportedKinds l; lst_AttachedRoutes := attached;
     lst_Conditions := removeConditionsExcept conditions (c_Type <$> desired) |}.

(** The loop over the listeners; an index past the attached routes panics, which
    is [None]. *)
Fixpoint listenerStatuses (generation : Z) (previous : gmap string (list Condition)) (gatewayProgrammed : bool)
    (ls : list Listener) (attached : list Z) : option (list ListenerStatus) :=
  match ls, attached with
  | [], _ => Some []
  | _ :: _, [] => None
  | l :: ls, n :: attached =>
    match listenerStatuses generation previous gatewayProgrammed ls attached with
    | Some sts => Some (listenerStatus generation previous gatewayProgrammed l n :: sts)
    | None => None
    end
  end.

(** [gatewayStatus.apply]. *)
Definition apply (s : gatewayStatus) (gw : Gateway) : option Gateway :=
  let generation := om_Generation (gw_ObjectMeta gw) in
  let conditions := setObserved generation (gw_StatusConditions gw) (gs_acceptedCondition s) in
  let conditions := setObserved generation conditions (gs_programmedCondition s) in
  let conditions := match gs_tunnel s with
                    | Some tunnel => setObserved generation conditions tunnel
                    | None => RemoveStatusCondition conditions conditionTunnelProgrammed
                    end in
  let gatewayProgrammed := bool_decide (c_Status (gs_programmedCondition s) = ConditionTrue) in
  match listenerStatuses generation (previousConditions (gw_StatusListeners gw)) gatewayProgrammed
          (gs_listeners s) (gs_attachedRoutes s) with
  | None => None
  | Some statuses =>
    Some {| gw_ObjectMeta := gw_ObjectMeta gw; gw_GatewayClassName := gw_GatewayClassName gw;
            gw_Listeners := gw_Listeners gw; gw_Addresses := gw_Addresses gw;
            gw_Infrastructure := gw_Infrastructure gw; gw_StatusAddresses := gs_addresses s;
            gw_StatusConditions := conditions; gw_StatusListeners := statuses |}
  end.

(** ** Properties *)

(** Two conditions that say the same, the second as of a generation. *)
Definition Says (generation : Z) (c c' : Condition) : Prop :=
  c_Type c' = c_Type c ∧ c_Status c' = c_Status c ∧ c_Reason c' = c_Reason c ∧ c_Message c' = c_Message c ∧
  c_ObservedGeneration c' = generation.

Lemma conditionOf_type cs t c : conditionOf cs t = Some c → c_Type c = t.
Proof.
  unfold conditionOf. intros Hc. assert (c ∈ filter (λ c, c_Type c = t) cs) as Hin.
  { destruct (filter _ cs); [done|]. injection Hc as ->. by left. }
  by apply list_elem_of_filter in Hin as [? _].
Qed.

Lemma conditionOf_keep cs keep t :
  conditionOf (removeConditionsExcept cs keep) t = if bool_decide (t ∈ keep) then conditionOf cs t else None.
Proof.
  unfold conditionOf, removeConditionsExcept. induction cs as [|c cs IH]; simpl; [by case_bool_decide|].
  destruct (decide (c_Type c = t)) as [<-|Hne].
  - rewrite filter_cons_True by done. destruct (bool_decide (c_Type c ∈ keep)) eqn:E; [|by rewrite IH].
    by rewrite filter_cons_True.
  - rewrite (filter_cons_False _ c cs) by done. rewrite <- IH.
    destruct (bool_decide (c_Type c ∈ keep)); [|done]. by rewrite filter_cons_False.
Qed.

Section laws.
Context `{!ConditionLaws}.

Lemma setObserved_same generation cs c :
  ∃ c', conditionOf (setObserved generation cs c) (c_Type c) = Some c' ∧ Says generation c c'.
Proof.
  unfold setObserved. destruct (set_condition_same cs (observedAt generation c)) as (c' & Hc & Hs & Hr & Hm).
  exists c'. split; [done|]. pose proof (set_condition_observed _ _ _ Hc) as Ho.
  apply conditionOf_type in Hc. by split_and!.
Qed.

Lemma setObserved_other generation cs c t :
  t ≠ c_Type c → conditionOf (setObserved generation cs c) t = conditionOf cs t.
Proof. intros Hne. by apply set_condition_other. Qed.

(** Setting conditions of different types sets each of them. *)
Lemma setAll_spec generation desired cs t :
  NoDup (c_Type <$> desired) →
  (∀ c, c ∈ desired → c_Type c = t → ∃ c', conditionOf (foldl (setObserved generation) cs desired) t = Some c' ∧
     Says generation c c') ∧
  (t ∉ c_Type <$> desired → conditionOf (foldl (setObserved generation) cs desired) t = conditionOf cs t).
Proof.
  revert cs. induction desired as [|d desired IH]; intros cs Hnd; simpl.
  { split; [intros c Hc; by apply elem_of_nil in Hc|done]. }
  apply NoDup_cons in Hnd as [Hd Hnd]. destruct (IH (setObserved generation cs d) Hnd) as [IHin IHout]. split.
  - intros c [->|Hin]%elem_of_cons Ht; [|by apply IHin]. subst t. rewrite IHout by done. apply setObserved_same.
  - intros [Hne Hout]%not_elem_of_cons. rewrite IHout by done. by apply setObserved_other.
Qed.

Lemma setAll_types generation desired cs :
  NoDup (c_Type <$> cs) → NoDup (c_Type <$> foldl (setObserved generation) cs desired).
Proof.
  revert cs. induction desired as [|d desired IH]; intros cs Hnd; simpl; [done|].
  apply IH. by apply set_condition_types.
Qed.

(** One listener's status: its conditions are the desired ones and no others. *)
Lemma listenerStatus_spec generation previous gp l n t :
  NoDup (c_Type <$> l_Conditions l ++ [listenerProgrammed l gp]) →
  let st := listenerStatus generation previous gp l n in
  (∀ c, c ∈ l_Conditions l ++ [listenerProgrammed l gp] → c_Type c = t →
     ∃ c', conditionOf (lst_Conditions st) t = Some c' ∧ Says generation c c') ∧
  (t ∉ c_Type <$> l_Conditions l ++ [listenerProgrammed l gp] → conditionOf (lst_Conditions st) t = None).
Proof.
  intros Hnd st. unfold st. cbn [listenerStatus lst_Conditions]. rewrite conditionOf_keep. split.
  - intros c Hc Ht. rewrite bool_decide_eq_true_2.
    + by apply setAll_spec.
    + rewrite <- Ht. by apply list_elem_of_fmap_2.
  - intros Hout. by rewrite bool_decide_eq_false_2.
Qed.
End laws.

Lemma listenerStatuses_lookup generation previous gp ls attached :
  length attached = length ls →
  ∃ sts, listenerStatuses generation previous gp ls attached = Some sts ∧ length sts = length ls ∧
    ∀ i l n, ls !! i = Some l → attached !! i = Some n →
      sts !! i = Some (listenerStatus generation previous gp l n).
Proof.
  revert attached. induction ls as [|l ls IH]; intros [|n attached] Hlen; simpl in *; try done.
  - by exists [].
  - injection Hlen as Hlen. destruct (IH attached Hlen) as (sts & -> & Hl & Hi).
    eexists. split; [done|]. split; [by simpl; rewrite Hl|].
    intros [|i] l' n'; simpl; [by intros [= <-] [= <-]|apply Hi].
Qed.
End apply.

(** The conditions of a listener the Gateway's model holds. *)
Lemma Listeners_condition_types `{X509} gw orefs l :
  l ∈ Listeners gw orefs →
  c_Type <$> l_Conditions l = [ListenerConditionAccepted; ListenerConditionResolvedRefs; ListenerConditionConflicted].
Proof.
  intros [i Hi]%list_elem_of_lookup. apply Listeners_lookup in Hi as (ls & Hls & ->). simpl.
  rewrite resolutionOf_type, finalConflicted_type. unfold finalAccepted.
  destruct (portProblem _ _); [done|]. by rewrite acceptedCondition_type.
Qed.

Lemma listenerProgrammed_type l gp : c_Type (listenerProgrammed l gp) = ListenerConditionProgrammed.
Proof. unfold listenerProgrammed. destruct (l_Valid l), gp; done. Qed.

Lemma Build_lengths `{X509, LabelSelectors} gw routes refs :
  md_Listeners (Build gw routes refs) = Listeners gw (Some (default noReferences refs)) ∧
  length (md_AttachedRoutes (Build gw routes refs)) = length (md_Listeners (Build gw routes refs)).
Proof. rewrite Build_eq. simpl. split; [done|]. by rewrite length_imap, length_replicate. Qed.

(** A status is ready to be applied: what it took from the model is the model's,
    and its conditions are of the types the Gateway reports. *)
Definition Filled `{X509, LabelSelectors} (gw : Gateway) (routes : list Route) (refs : References)
    (s : gatewayStatus) : Prop :=
  gs_listeners s = md_Listeners (Build gw routes (Some refs)) ∧
  gs_attachedRoutes s = md_AttachedRoutes (Build gw routes (Some refs)) ∧
  c_Type (gs_acceptedCondition s) = GatewayConditionAccepted ∧
  c_Type (gs_programmedCondition s) = GatewayConditionProgrammed ∧
  ∀ t, gs_tunnel s = Some t → c_Type t = conditionTunnelProgrammed.

Section apply_spec.
Context `{X509, LabelSelectors, ObjectHelpers, !ConditionLaws}.

(** The conditions a Gateway's status reports, and the addresses. *)
Definition Reports (generation : Z) (conditions : list Condition) (t : string) (c : Condition) : Prop :=
  ∃ c', conditionOf conditions t = Some c' ∧ Says generation c c'.

Lemma apply_gateway gw routes refs s obj :
  Filled gw routes refs s →
  ∃ obj', apply s obj = Some obj' ∧
    gw_ObjectMeta obj' = gw_ObjectMeta obj ∧ gw_Listeners obj' = gw_Listeners obj ∧
    gw_StatusAddresses obj' = gs_addresses s ∧
    let generation := om_Generation (gw_ObjectMeta obj) in
    Reports generation (gw_StatusConditions obj') GatewayConditionAccepted (gs_acceptedCondition s) ∧
    Reports generation (gw_StatusConditions obj') GatewayConditionProgrammed (gs_programmedCondition s) ∧
    match gs_tunnel s with
    | Some t => Reports generation (gw_StatusConditions obj') conditionTunnelProgrammed t
    | None => conditionOf (gw_StatusConditions obj') conditionTunnelProgrammed = None
    end ∧
    ∃ sts, gw_StatusListeners obj' = sts ∧
      listenerStatuses generation (previousConditions (gw_StatusListeners obj))
        (bool_decide (c_Status (gs_programmedCondition s) = ConditionTrue)) (gs_listeners s) (gs_attachedRoutes s) = Some sts.
Proof.
  intros (Hls & Har & Ha & Hp & Ht). destruct (Build_lengths gw routes (Some refs)) as [Hm Hlen]. simpl in Hm.
  unfold apply. set (generation := om_Generation (gw_ObjectMeta obj)).
  destruct (listenerStatuses_lookup generation (previousConditions (gw_StatusListeners obj))
    (bool_decide (c_Status (gs_programmedCondition s) = ConditionTrue))
    (gs_listeners s) (gs_attachedRoutes s)) as (sts & -> & Hl & Hi); [congruence|].
  eexists. split; [reflexivity|]. cbn [gw_ObjectMeta gw_Listeners gw_StatusAddresses gw_StatusConditions gw_StatusListeners].
  split_and!; [done..| | | |by exists sts].
  - destruct (setObserved_same generation (gw_StatusConditions obj) (gs_acceptedCondition s)) as (c' & Hc & Hs).
    exists c'. split; [|done]. rewrite Ha in Hc. rewrite <- Hc.
    destruct (gs_tunnel s) as [t|]; [rewrite setObserved_other by by rewrite Ht|rewrite remove_condition_other by done];
      by rewrite setObserved_other by by rewrite Hp.
  - destruct (setObserved_same generation (setObserved generation (gw_StatusConditions obj) (gs_acceptedCondition s))
      (gs_programmedCondition s)) as (c' & Hc & Hs).
    exists c'. split; [|done]. rewrite Hp in Hc. rewrite <- Hc.
    destruct (gs_tunnel s) as [t|]; [by rewrite setObserved_other by by rewrite Ht|by rewrite remove_condition_other].
  - destruct (gs_tunnel s) as [t|]; [|apply remove_condition_same].
    rewrite <- (Ht t eq_refl). apply setObserved_same.
Qed.

(** The status written is the one found. The Gateway's Accepted, Programmed and
    tunnel conditions say what the reconciliation decided, as of the generation
    of the object patched, the tunnel condition going away when there is no
    tunnel; the addresses are replaced; and each listener, in the order of the
    spec, reports its supported kinds, its number of attached routes, exactly
    the conditions its validation produced, and Programmed, which is true when
    and only when the listener is valid and the Gateway is programmed. Writing
    never panics, and touches neither the spec nor the metadata. *)
Theorem apply_spec gw routes refs s obj :
  Filled gw routes refs s →
  ∃ obj', apply s obj = Some obj' ∧
    gw_ObjectMeta obj' = gw_ObjectMeta obj ∧ gw_Listeners obj' = gw_Listeners obj ∧
    gw_StatusAddresses obj' = gs_addresses s ∧
    let generation := om_Generation (gw_ObjectMeta obj) in
    let reports := Reports generation (gw_StatusConditions obj') in
    reports GatewayConditionAccepted (gs_acceptedCondition s) ∧
    reports GatewayConditionProgrammed (gs_programmedCondition s) ∧
    match gs_tunnel s with
    | Some t => reports conditionTunnelProgrammed t
    | None => conditionOf (gw_StatusConditions obj') conditionTunnelProgrammed = None
    end ∧
    length (gw_StatusListeners obj') = length (gw_Listeners gw) ∧
    ∀ i l, Listeners gw (Some refs) !! i = Some l →
      ∃ st n, gw_StatusListeners obj' !! i = Some st ∧ md_AttachedRoutes (Build gw routes (Some refs)) !! i = Some n ∧
        lst_Name st = l_Name l ∧ lst_SupportedKinds st = l_SupportedKinds l ∧ lst_AttachedRoutes st = n ∧
        (∀ c, c ∈ l_Conditions l → ∃ c', conditionOf (lst_Conditions st) (c_Type c) = Some c' ∧ Says generation c c') ∧
        (∀ t, is_Some (conditionOf (lst_Conditions st) t) → t ∈ c_Type <$> l_Conditions l ∨ t = ListenerConditionProgrammed) ∧
        ∃ c', conditionOf (lst_Conditions st) ListenerConditionProgrammed = Some c' ∧
          (c_Status c' = ConditionTrue ↔ l_Valid l = true ∧ c_Status (gs_programmedCondition s) = ConditionTrue).
Proof.
  intros Hf. destruct (apply_gateway gw routes refs s obj Hf) as (obj' & He & Hmeta & Hlist & Haddr & Hca & Hcp & Hct & sts' & Hsts & Hstl).
  destruct Hf as (Hls & Har & _ & _ & _). destruct (Build_lengths gw routes (Some refs)) as [Hm Hlen]. simpl in Hm.
  exists obj'. rewrite Hsts. cbv zeta. set (generation := om_Generation (gw_ObjectMeta obj)) in *.
  set (gp := bool_decide (c_Status (gs_programmedCondition s) = ConditionTrue)) in *.
  destruct (listenerStatuses_lookup generation (previousConditions (gw_StatusListeners obj)) gp
    (gs_listeners s) (gs_attachedRoutes s)) as (sts & Hstl' & Hl & Hi); [congruence|].
  rewrite Hstl' in Hstl. injection Hstl as <-.
  split_and!; [done..| |].
  - rewrite Hl, Hls, Hm. unfold Listeners, markUnavailablePorts, markConflicts.
    by rewrite !length_fmap, length_imap, length_fmap.
  - intros i l Hlk. assert (gs_listeners s !! i = Some l) as Hlk' by by rewrite Hls, Hm.
    assert (is_Some (gs_attachedRoutes s !! i)) as [n Hn].
    { apply lookup_lt_is_Some. rewrite Har, Hlen, <- Hls. by eapply lookup_lt_Some. }
    exists (listenerStatus generation (previousConditions (gw_StatusListeners obj)) gp l n), n.
    pose proof (Listeners_condition_types gw (Some refs) l (list_elem_of_lookup_2 _ _ _ Hlk)) as Hty.
    assert (NoDup (c_Type <$> l_Conditions l ++ [listenerProgrammed l gp])) as Hnd.
    { rewrite fmap_app, Hty. simpl. rewrite listenerProgrammed_type.
      by apply (proj1 (bool_decide_eq_true (NoDup _))). }
    split_and!; [by apply Hi|by rewrite <- Har|done..| | |].
    + intros c Hc. apply (listenerStatus_spec generation (previousConditions (gw_StatusListeners obj)) gp l n); [done| |done].
      by apply elem_of_app; left.
    + intros t Hsome. destruct (decide (t ∈ c_Type <$> l_Conditions l ++ [listenerProgrammed l gp])) as [Hin|Hout].
      * rewrite fmap_app in Hin. apply elem_of_app in Hin as [?|Hin]; [by left|right].
        apply list_elem_of_singleton in Hin. by rewrite Hin, listenerProgrammed_type.
      * destruct (listenerStatus_spec generation (previousConditions (gw_StatusListeners obj)) gp l n t Hnd) as [_ Hno].
        rewrite (Hno Hout) in Hsome. by destruct Hsome.
    + destruct (listenerStatus_spec generation (previousConditions (gw_StatusListeners obj)) gp l n
        ListenerConditionProgrammed Hnd) as [Hin _].
      destruct (Hin (listenerProgrammed l gp)) as (c' & Hc & _ & Hs & _).
      { apply elem_of_app. right. by left. }
      { apply listenerProgrammed_type. }
      exists c'. split; [done|]. rewrite Hs. unfold listenerProgrammed, gp.
      destruct (l_Valid l); simpl; [|naive_solver]. case_bool_decide; naive_solver.
Qed.
End apply_spec.

(** A Gateway with valid and invalid listeners, before Envoy is ready. *)
Definition samplePending : gatewayStatus :=
  programmed (accepted (newGatewayStatus sampleModel) ConditionTrue "ListenersNotValid" "some listeners are invalid")
    ConditionFalse "Pending" "Waiting for Deployment web-envoy to become available".

Lemma apply_spec_witness :
  ∃ obj' c', apply (H := sampleHelpers) samplePending listenersGateway = Some obj' ∧
    conditionOf (gw_StatusConditions obj') GatewayConditionProgrammed = Some c' ∧
    c_Status c' = ConditionFalse ∧ length (gw_StatusListeners obj') = 5.
Proof.
  destruct (@apply_spec sampleX509 sampleSelectors sampleHelpers sample_laws listenersGateway modelRoutes modelRefs
    samplePending listenersGateway) as (obj' & Ha & _ & _ & _ & _ & (c' & Hc & _ & Hs & _) & _ & Hl & _).
  - by split_and!.
  - exists obj', c'. split; [exact Ha|]. split; [exact Hc|]. split; [by rewrite Hs|]. by rewrite Hl.
Defined.
