(* ===== verification/EnvoyDeploy.v ===== *)
(** * The Envoy proxy's Deployment and Service (internal/controller/gateway_envoy.go)

    The desired state of the two objects provisioned for a Gateway, written over
    whatever the API server holds. A nil map of labels is the empty one. *)
From S2P Require Import Prelude GatewayAPI Samples API Envoy Refs Listeners.

Definition envoyContainerName := "envoy".
Definition DefaultEnvoyImage := "docker.io/envoyproxy/envoy:distroless-v1.39.3".
Definition ServiceTypeClusterIP := "ClusterIP".
Definition ProtocolTCP := "TCP".
Definition ProtocolUDP := "UDP".

Definition defaultEnvoyResources : ResourceRequirements :=
  {| res_Requests := <["cpu" := "50m"]> (<["memory" := "64Mi"]> ∅);
     res_Limits := <["memory" := "512Mi"]> ∅ |}.

Record envoySettings := {
  es_Image : string;
  es_Replicas : Z;
  es_ServiceType : string;
  es_Resources : ResourceRequirements;
}.

Definition resolveEnvoySettings (config : CloudflareGatewayConfig) : envoySettings :=
  match gcs_Envoy (gcf_Spec config) with
  | None => {| es_Image := DefaultEnvoyImage; es_Replicas := 1; es_ServiceType := ServiceTypeClusterIP;
               es_Resources := defaultEnvoyResources |}
  | Some envoy =>
    {| es_Image := if negb (str_eqb (ge_Image envoy) "") then ge_Image envoy else DefaultEnvoyImage;
       es_Replicas := default 1%Z (ge_Replicas envoy);
       es_ServiceType := if negb (str_eqb (ge_ServiceType envoy) "") then ge_ServiceType envoy else ServiceTypeClusterIP;
       es_Resources := default defaultEnvoyResources (ge_Resources envoy) |}
  end.

(** [maps.Copy]: the entries of [owned] over those of [existing]. *)
Definition mergeOwned (existing owned : gmap string string) : gmap string string := owned ∪ existing.

Section envoy.
Context `{Validation}.

(** [infrastructureMeta]: the labels, and the annotations. *)
Definition infrastructureMeta (gw : Gateway) : gmap string string * gmap string string :=
  let '(labels, annotations) := match gw_Infrastructure gw with
                                | Some infra => (gi_Labels infra, gi_Annotations infra)
                                | None => (∅, ∅)
                                end in
  (mergeOwned labels (Labels gw), annotations).

(** Metadata with other labels and annotations. *)
Definition withMeta (m : ObjectMeta) (labels annotations : gmap string string) : ObjectMeta :=
  {| om_Name := om_Name m; om_Namespace := om_Namespace m; om_UID := om_UID m;
     om_ResourceVersion := om_ResourceVersion m; om_Generation := om_Generation m;
     om_CreationTimestamp := om_CreationTimestamp m; om_DeletionTimestamp := om_DeletionTimestamp m;
     om_Labels := labels; om_Annotations := annotations;
     om_OwnerReferences := om_OwnerReferences m; om_Finalizers := om_Finalizers m |}.

Definition mergeMeta (m : ObjectMeta) (labels annotations : gmap string string) : ObjectMeta :=
  withMeta m (mergeOwned (om_Labels m) labels) (mergeOwned (om_Annotations m) annotations).

(** The pod of the proxy. *)
Definition envoyContainer (settings : envoySettings) (bootstrap : string) : Container :=
  {| ct_Name := envoyContainerName; ct_Image := es_Image settings; ct_Command := [];
     ct_Args := ["--config-yaml"; bootstrap; "--disable-hot-restart"; "--log-level"; "info"];
     ct_Env := [];
     ct_Ports := [{| cp_Name := "readiness"; cp_ContainerPort := EnvoyReadinessPort; cp_Protocol := ProtocolTCP |}];
     ct_VolumeMounts := []; ct_LivenessProbe := None;
     ct_ReadinessProbe := Some {| pb_Path := "/ready"; pb_Port := EnvoyReadinessPort; pb_Scheme := "";
       pb_InitialDelaySeconds := 0; pb_PeriodSeconds := 5; pb_FailureThreshold := 3 |};
     ct_Resources := es_Resources settings;
     ct_SecurityContext := Some {| sc_RunAsNonRoot := None; sc_RunAsUser := None;
       sc_AllowPrivilegeEscalation := Some false; sc_ReadOnlyRootFilesystem := Some true;
       sc_CapabilitiesDrop := ["ALL"] |};
     ct_ImagePullPolicy := "" |}.

Definition envoyPod (settings : envoySettings) (bootstrap : string) : PodSpec :=
  {| ps_AutomountServiceAccountToken := Some false;
     ps_SecurityContext := Some {| psc_RunAsNonRoot := Some true; psc_RunAsUser := Some 65532%Z;
       psc_SeccompProfile := Some "RuntimeDefault"; psc_Sysctls := [] |};
     ps_Volumes := []; ps_Containers := [envoyContainer settings bootstrap] |}.

Definition mutateEnvoyDeployment (gw : Gateway) (settings : envoySettings) (bootstrap : string)
    (deploy : Deployment) : Deployment :=
  let '(labels, annotations) := infrastructureMeta gw in
  {| dep_ObjectMeta := mergeMeta (dep_ObjectMeta deploy) labels annotations;
     dep_Replicas := Some (es_Replicas settings);
     dep_Selector := match dep_Selector deploy with
                     | Some s => Some s
                     | None => Some {| ls_MatchLabels := SelectorLabels gw; ls_MatchExpressions := [] |}
                     end;
     dep_Template := {| pt_Labels := mergeOwned (pt_Labels (dep_Template deploy)) labels;
                        pt_Annotations := mergeOwned (pt_Annotations (dep_Template deploy)) annotations;
                        pt_Spec := envoyPod settings bootstrap |};
     dep_AvailableReplicas := dep_AvailableReplicas deploy |}.

(** [servicePortKey]. *)
Definition portProtocol (protocol : string) : string :=
  if str_eqb protocol UDPProtocolType then ProtocolUDP else ProtocolTCP.

Definition listenerPort (l : Listener) : ServicePort :=
  {| sp_Name := to_lower (l_Protocol l) +:+ "-" +:+ fmt_d (l_Port l);
     sp_Protocol := portProtocol (l_Protocol l); sp_Port := l_Port l;
     sp_TargetPort := ContainerPort (l_Port l); sp_NodePort := 0; sp_AppProtocol := None |}.

Definition servicePortKey (p : ServicePort) : Z * string := (sp_Port p, sp_Protocol p).

(** The loop of [envoyServicePorts], with the keys it has seen. *)
Fixpoint servicePorts (listeners : list Listener) (seen : gset (Z * string)) : list ServicePort :=
  match listeners with
  | [] => []
  | l :: listeners =>
    let key := (l_Port l, portProtocol (l_Protocol l)) in
    if negb (l_Valid l) || bool_decide (key ∈ seen) then servicePorts listeners seen
    else listenerPort l :: servicePorts listeners ({[key]} ∪ seen)
  end.

Definition envoyServicePorts (listeners : list Listener) : list ServicePort := servicePorts listeners ∅.

(** The node ports the API server allocated; a later port of a key overrides. *)
Definition allocatedNodePorts (ports : list ServicePort) : gmap (Z * string) Z :=
  foldl (λ m p, <[servicePortKey p := sp_NodePort p]> m) ∅ ports.

Definition withNodePort (serviceType : string) (allocated : gmap (Z * string) Z) (p : ServicePort) : ServicePort :=
  if negb (str_eqb serviceType ServiceTypeClusterIP) then
    {| sp_Name := sp_Name p; sp_Protocol := sp_Protocol p; sp_Port := sp_Port p; sp_TargetPort := sp_TargetPort p;
       sp_NodePort := default 0%Z (allocated !! servicePortKey p); sp_AppProtocol := sp_AppProtocol p |}
  else p.

Definition mutateEnvoyService (gw : Gateway) (settings : envoySettings) (ports : list ServicePort) (svc : Service) : Service :=
  let '(labels, annotations) := infrastructureMeta gw in
  {| svc_ObjectMeta := mergeMeta (svc_ObjectMeta svc) labels annotations;
     svc_Type := es_ServiceType settings; svc_ClusterIPs := svc_ClusterIPs svc;
     svc_Selector := SelectorLabels gw;
     svc_Ports := withNodePort (es_ServiceType settings) (allocatedNodePorts (svc_Ports svc)) <$> ports;
     svc_LoadBalancer := svc_LoadBalancer svc |}.

(** ** Properties *)

Lemma mergeOwned_idemp existing owned : mergeOwned (mergeOwned existing owned) owned = mergeOwned existing owned.
Proof. unfold mergeOwned. by rewrite (assoc_L (∪)), map_union_idemp. Qed.

Lemma mergeMeta_idemp m labels annotations :
  mergeMeta (mergeMeta m labels annotations) labels annotations = mergeMeta m labels annotations.
Proof. unfold mergeMeta, withMeta. simpl. by rewrite !mergeOwned_idemp. Qed.

(** Written twice, the Deployment is as written once. *)
Lemma mutateEnvoyDeployment_idemp gw settings bootstrap deploy :
  mutateEnvoyDeployment gw settings bootstrap (mutateEnvoyDeployment gw settings bootstrap deploy) =
  mutateEnvoyDeployment gw settings bootstrap deploy.
Proof.
  unfold mutateEnvoyDeployment. destruct (infrastructureMeta gw) as [labels annotations].
  cbn [dep_ObjectMeta dep_Selector dep_Template pt_Labels pt_Annotations dep_AvailableReplicas].
  rewrite mergeMeta_idemp, !mergeOwned_idemp. by destruct (dep_Selector deploy).
Qed.

(** The operator's labels are not overridden by what a Gateway asks for. *)
Lemma infrastructure_labels gw : Labels gw ⊆ (infrastructureMeta gw).1.
Proof. unfold infrastructureMeta. destruct (gw_Infrastructure gw); simpl; apply map_union_subseteq_l. Qed.

(** The names the labels of the selector have. *)
Lemma SelectorLabels_Labels gw : SelectorLabels gw ⊆ Labels gw.
Proof.
  unfold Labels. destruct (IsValidLabelValue _); [|done]. apply insert_subseteq.
  unfold SelectorLabels. by rewrite !lookup_insert_ne.
Qed.

Lemma listenerPort_key l : servicePortKey (listenerPort l) = (l_Port l, portProtocol (l_Protocol l)).
Proof. done. Qed.

Lemma servicePorts_spec ls seen :
  NoDup (servicePortKey <$> servicePorts ls seen) ∧
  (∀ k, k ∈ servicePortKey <$> servicePorts ls seen ↔
     k ∉ seen ∧ ∃ l, l ∈ ls ∧ l_Valid l = true ∧ k = (l_Port l, portProtocol (l_Protocol l))) ∧
  (∀ p, p ∈ servicePorts ls seen → ∃ l, l ∈ ls ∧ l_Valid l = true ∧ p = listenerPort l).
Proof.
  revert seen. induction ls as [|l ls IH]; intros seen; cbn [servicePorts].
  { split_and!; [constructor| |].
    - intros k. rewrite fmap_nil, elem_of_nil. split; [done|]. by intros (_ & l & Hl%elem_of_nil & _).
    - by intros p ?%elem_of_nil. }
  destruct (negb (l_Valid l) || _) eqn:E.
  - destruct (IH seen) as (Hnd & Hk & Hp). split_and!; [done| |].
    + intros k. rewrite Hk. split; intros (Hs & l' & Hin & Hv & He).
      * split; [done|]. exists l'. split_and!; [by right|done..].
      * split; [done|]. apply elem_of_cons in Hin as [->|Hin]; [|by exists l'].
        rewrite Hv, He in *. simpl in E. apply bool_decide_eq_true in E. done.
    + intros p (l' & Hin & ?)%Hp. exists l'. split; [by right|done].
  - apply orb_false_iff in E as [Hv%negb_false_iff Hs%bool_decide_eq_false].
    destruct (IH ({[(l_Port l, portProtocol (l_Protocol l))]} ∪ seen)) as (Hnd & Hk & Hp).
    rewrite fmap_cons, listenerPort_key. split_and!.
    + constructor; [|done]. rewrite Hk. intros [Hn _]. apply Hn. set_solver.
    + intros k. rewrite elem_of_cons, Hk. split.
      * intros [->|(Hn & l' & Hin & ?)].
        -- split; [done|]. exists l. split_and!; [by left|done..].
        -- split; [set_solver|]. exists l'. split; [by right|done].
      * intros (Hn & l' & Hin & Hv' & He).
        destruct (decide (k = (l_Port l, portProtocol (l_Protocol l)))) as [|Hne]; [by left|right].
        split; [set_solver|]. apply elem_of_cons in Hin as [->|Hin]; [done|]. by exists l'.
    + intros p [->|(l' & Hin & ?)%Hp]%elem_of_cons; [exists l; split_and!; [by left|done..]|].
      exists l'. split; [by right|done].
Qed.

(** The name of a port says which port it is, for the protocols a valid listener
    may have. *)
Definition supportedProtocol (p : string) : Prop :=
  p ∈ [HTTPProtocolType; HTTPSProtocolType; TLSProtocolType; TCPProtocolType; UDPProtocolType].

Lemma listenerPort_name a b :
  supportedProtocol (l_Protocol a) → supportedProtocol (l_Protocol b) →
  sp_Name (listenerPort a) = sp_Name (listenerPort b) →
  servicePortKey (listenerPort a) = servicePortKey (listenerPort b).
Proof.
  intros Ha Hb Hn. simpl in Hn.
  assert (∀ p, supportedProtocol p → lacks (Ascii.ascii_of_nat 45) (to_lower p) = true) as Hl.
  { intros p Hp. unfold supportedProtocol in Hp. by repeat (apply elem_of_cons in Hp as [->|Hp]; [done|]); apply elem_of_nil in Hp. }
  destruct (lacks_cut (Ascii.ascii_of_nat 45) _ _ _ _ (Hl _ Ha) (Hl _ Hb) Hn) as [Hpr Hpo].
  rewrite !listenerPort_key. f_equal; [by apply (inj pretty)|].
  unfold supportedProtocol in Ha, Hb. rewrite !elem_of_cons, elem_of_nil in Ha, Hb.
  by destruct Ha as [Ha|[Ha|[Ha|[Ha|[Ha|[]]]]]], Hb as [Hb|[Hb|[Hb|[Hb|[Hb|[]]]]]]; rewrite Ha, Hb in *.
Qed.

Lemma kindsOf_supported refs p : is_Some (kindsOf refs p) → supportedProtocol p.
Proof.
  unfold kindsOf, supportedProtocol, tunnelKinds, warpKinds. rewrite !elem_of_cons, elem_of_nil.
  destruct (WarpRouting refs); intros [ks Hk].
  all: repeat (apply lookup_insert_Some in Hk as [[<- _]|[_ Hk]]; [tauto|]); by rewrite lookup_empty in Hk.
Qed.

(** Ports whose keys differ have different names, when the names tell the keys. *)
Lemma servicePorts_names ls :
  (∀ l, l ∈ ls → l_Valid l = true → supportedProtocol (l_Protocol l)) →
  NoDup (sp_Name <$> envoyServicePorts ls).
Proof.
  intros Hsup. destruct (servicePorts_spec ls ∅) as (Hnd & _ & Hp). fold (envoyServicePorts ls) in *.
  revert Hnd Hp. generalize (envoyServicePorts ls) as ps.
  induction ps as [|p ps IH]; intros Hnd Hp; [constructor|].
  rewrite fmap_cons in *. apply NoDup_cons in Hnd as [Hn Hnd]. constructor.
  - intros (q & Hq & Hin)%list_elem_of_fmap. apply Hn, list_elem_of_fmap. exists q. split; [|done].
    destruct (Hp p) as (l & Hl & Hv & ->); [by left|]. destruct (Hp q) as (l' & Hl' & Hv' & ->); [by right|].
    apply listenerPort_name; [by apply Hsup|by apply Hsup|done].
  - apply IH; [done|]. intros q Hq. apply Hp. by right.
Qed.

Lemma allocatedNodePorts_spec ps p :
  NoDup (servicePortKey <$> ps) → p ∈ ps → allocatedNodePorts ps !! servicePortKey p = Some (sp_NodePort p).
Proof.
  unfold allocatedNodePorts. generalize (∅ : gmap (Z * string) Z) as m.
  induction ps as [|q ps IH]; intros m Hnd Hin; [by apply elem_of_nil in Hin|].
  rewrite fmap_cons in Hnd. apply NoDup_cons in Hnd as [Hn Hnd]. cbn [foldl].
  apply elem_of_cons in Hin as [->|Hin]; [|by apply IH].
  clear IH Hnd. assert (∀ m, foldl (λ m p, <[servicePortKey p:=sp_NodePort p]> m) m ps !! servicePortKey q =
    m !! servicePortKey q) as ->; [|by rewrite lookup_insert_eq].
  clear m. induction ps as [|r ps IH]; intros m; [done|]. rewrite fmap_cons, not_elem_of_cons in Hn.
  destruct Hn as [Hr Hn]. cbn [foldl]. rewrite (IH Hn). by apply lookup_insert_ne.
Qed.

Lemma withNodePort_key t m p : servicePortKey (withNodePort t m p) = servicePortKey p.
Proof. unfold withNodePort. by destruct (negb _). Qed.

Lemma withNodePort_name t m p : sp_Name (withNodePort t m p) = sp_Name p.
Proof. unfold withNodePort. by destruct (negb _). Qed.

Lemma withNodePort_target t m p : sp_TargetPort (withNodePort t m p) = sp_TargetPort p.
Proof. unfold withNodePort. by destruct (negb _). Qed.

(** The node ports written are the ones read back. *)
Lemma withNodePort_idemp t m ps :
  NoDup (servicePortKey <$> ps) →
  withNodePort t (allocatedNodePorts (withNodePort t m <$> ps)) <$> ps = withNodePort t m <$> ps.
Proof.
  intros Hnd. apply list_fmap_ext. intros i p Hp. apply list_elem_of_lookup_2 in Hp.
  assert (allocatedNodePorts (withNodePort t m <$> ps) !! servicePortKey p = Some (sp_NodePort (withNodePort t m p))) as Ha.
  { rewrite <- (withNodePort_key t m p). apply allocatedNodePorts_spec; [|by apply list_elem_of_fmap_2].
    rewrite <- list_fmap_compose. erewrite list_fmap_ext; [exact Hnd|]. intros j q _. apply withNodePort_key. }
  unfold withNodePort in *. destruct (negb _); [|done]. by rewrite Ha.
Qed.

End envoy.

Section service.
Context `{Validation, X509} (gw : Gateway) (refs : References) (settings : envoySettings).

Definition gatewayPorts : list ServicePort := envoyServicePorts (Listeners gw (Some refs)).

Lemma valid_protocol l :
  l ∈ Listeners gw (Some refs) → l_Valid l = true → supportedProtocol (l_Protocol l).
Proof.
  intros (i & Hl)%list_elem_of_lookup Hv. apply listener_valid in Hl as [_ Hl].
  apply Hl in Hv as [[Hk _] _]. by eapply kindsOf_supported.
Qed.

(** The Service in front of Envoy has exactly one port for each port and
    transport of the valid listeners, with names that differ, as Kubernetes
    requires, and each leads to the port Envoy binds for it and for no other. A
    port keeps the node port the API server allocated to it, and a Service
    written once is not changed by being written again. *)
Theorem mutateEnvoyService_spec svc :
  let svc' := mutateEnvoyService gw settings gatewayPorts svc in
  NoDup (sp_Name <$> svc_Ports svc') ∧ NoDup (servicePortKey <$> svc_Ports svc') ∧
  (∀ port protocol, (port, protocol) ∈ servicePortKey <$> svc_Ports svc' ↔
     ∃ l, l ∈ Listeners gw (Some refs) ∧ l_Valid l = true ∧ port = l_Port l ∧ protocol = portProtocol (l_Protocol l)) ∧
  (∀ p q, p ∈ svc_Ports svc' → q ∈ svc_Ports svc' →
     sp_TargetPort p = ContainerPort (sp_Port p) ∧ sp_TargetPort p ≠ EnvoyAdminPort ∧
     sp_TargetPort p ≠ EnvoyReadinessPort ∧ (sp_TargetPort p = sp_TargetPort q → sp_Port p = sp_Port q)) ∧
  (es_ServiceType settings ≠ ServiceTypeClusterIP → NoDup (servicePortKey <$> svc_Ports svc) →
   ∀ p q, p ∈ svc_Ports svc' → q ∈ svc_Ports svc → servicePortKey p = servicePortKey q → sp_NodePort p = sp_NodePort q) ∧
  svc_Selector svc' = SelectorLabels gw ∧
  mutateEnvoyService gw settings gatewayPorts svc' = svc'.
Proof.
  cbv zeta. destruct (servicePorts_spec (Listeners gw (Some refs)) ∅) as (Hnd & Hk & Hp).
  fold (envoyServicePorts (Listeners gw (Some refs))) in *. fold gatewayPorts in *.
  unfold mutateEnvoyService. destruct (infrastructureMeta gw) as [labels annotations].
  cbn [svc_Ports svc_Selector svc_ObjectMeta svc_ClusterIPs svc_LoadBalancer].
  set (ports' := withNodePort _ _ <$> gatewayPorts).
  assert (servicePortKey <$> ports' = servicePortKey <$> gatewayPorts) as Hkeys.
  { unfold ports'. rewrite <- list_fmap_compose. apply list_fmap_ext. intros. apply withNodePort_key. }
  assert (∀ p, p ∈ ports' → ∃ l, l ∈ Listeners gw (Some refs) ∧ l_Valid l = true ∧
    sp_Port p = l_Port l ∧ sp_TargetPort p = ContainerPort (l_Port l)) as Hl.
  { intros p (q & -> & (l & Hl & Hv & ->)%Hp)%list_elem_of_fmap. exists l. rewrite withNodePort_target.
    split_and!; [done..| |done]. exact (f_equal fst (withNodePort_key _ _ (listenerPort l))). }
  split_and!.
  - unfold ports'. rewrite <- list_fmap_compose. erewrite list_fmap_ext by (intros; apply withNodePort_name).
    apply servicePorts_names, valid_protocol.
  - by rewrite Hkeys.
  - intros port protocol. rewrite Hkeys, Hk. split.
    + intros (_ & l & ? & ? & [= -> ->]). by exists l.
    + intros (l & ? & ? & -> & ->). split; [done|]. by exists l.
  - intros p q (l & Hlin & Hv & -> & ->)%Hl (l' & Hlin' & Hv' & -> & ->)%Hl.
    apply list_elem_of_lookup in Hlin as [i Hi], Hlin' as [j Hj].
    by destruct (ports_bindable gw (Some refs) i j l l' Hi Hj Hv Hv') as (? & ? & ?).
  - intros Ht Hnd' p q (r & -> & _)%list_elem_of_fmap Hq. rewrite withNodePort_key. intros Heq.
    unfold withNodePort. rewrite (proj2 (str_eqb_neq _ _)) by done. simpl.
    by rewrite Heq, (allocatedNodePorts_spec _ _ Hnd' Hq).
  - done.
  - f_equal; [apply mergeMeta_idemp|]. by apply withNodePort_idemp.
Qed.
End service.

(** A NodePort Service whose first port has been allocated. *)
Definition sampleEnvoySettings : envoySettings :=
  {| es_Image := DefaultEnvoyImage; es_Replicas := 1; es_ServiceType := "NodePort"; es_Resources := defaultEnvoyResources |}.

Definition sampleEnvoyService : Service :=
  sampleService "infra" "gw-envoy"
    [{| sp_Name := "http-80"; sp_Protocol := ProtocolTCP; sp_Port := 80; sp_TargetPort := 10080;
        sp_NodePort := 30080; sp_AppProtocol := None |}].

Lemma mutateEnvoyService_spec_witness :
  let svc' := mutateEnvoyService (H := sampleValidation) listenersGateway sampleEnvoySettings
    (gatewayPorts (H0 := sampleX509) listenersGateway listenersRefs) sampleEnvoyService in
  ∃ p, p ∈ svc_Ports svc' ∧ sp_Port p = 80%Z ∧ sp_NodePort p = 30080%Z.
Proof.
  destruct (@mutateEnvoyService_spec sampleValidation sampleX509 listenersGateway listenersRefs sampleEnvoySettings
    sampleEnvoyService) as (_ & _ & Hk & _ & Hn & _).
  set (svc' := mutateEnvoyService _ _ _ _) in *.
  assert ((80%Z, ProtocolTCP) ∈ servicePortKey <$> svc_Ports svc') as Hin.
  { apply Hk. exists (listenerAt 0). split_and!; [|by vm_compute..].
    apply (list_elem_of_lookup_2 _ 0). by vm_compute. }
  apply list_elem_of_fmap in Hin as (p & Hp & Hin). exists p. split; [done|].
  split; [by injection Hp as <- _|].
  apply (Hn ltac:(done) ltac:(apply (bool_decide_unpack _); by vm_compute) p
    {| sp_Name := "http-80"; sp_Protocol := ProtocolTCP; sp_Port := 80; sp_TargetPort := 10080;
       sp_NodePort := 30080; sp_AppProtocol := None |} Hin); [by left|by rewrite <- Hp].
Defined.
