(* ===== verification/Bootstrap.v ===== *)
(** * The bootstrap of an Envoy (internal/xds/bootstrap.go)

    What an Envoy is started with: where it finds the xDS server, and the
    listener its readiness is checked at. Serialization and validation are
    go-control-plane's and protobuf's. *)
From S2P Require Import Prelude GatewayAPI Samples Refs Routes Envoy Listeners Hosts Model EnvoyAPI XdsRoutes Xds.

Definition xdsClusterName := "xds".
Definition adminClusterName := "admin".
Definition readinessName := "readiness".

(** [loadAssignment]. *)
Definition loadAssignment (cluster address : string) (port : Z) : ClusterLoadAssignment :=
  {| cla_ClusterName := cluster;
     cla_Endpoints := [{| lle_SubZone := None; lle_LoadBalancingWeight := None;
                          lle_LbEndpoints := [socketAddress address port] |}] |}.

Section bootstrap.
Context `{Anypb, BootstrapCodec}.

Definition readinessRoute : EnvoyRoute :=
  {| er_Name := "";
     er_Match := {| rm_PathSpecifier := RouteMatch_Path "/ready"; rm_Headers := []; rm_QueryParameters := [] |};
     er_RequestHeadersToAdd := []; er_RequestHeadersToRemove := [];
     er_ResponseHeadersToAdd := []; er_ResponseHeadersToRemove := [];
     er_Action := Some (Route_Route {| ra_ClusterSpecifier := SpecCluster adminClusterName;
       ra_ClusterNotFoundResponseCode := 0; ra_HostRewriteLiteral := None; ra_RegexRewrite := None |}) |}.

Definition readinessListener : result EnvoyListener :=
  let? router := anypb_New Router in
  let? manager := anypb_New (HttpConnectionManager_RouteConfig readinessName
    {| rc_Name := readinessName; rc_IgnorePortInHostMatching := false;
       rc_VirtualHosts := [{| vh_Name := readinessName; vh_Domains := ["*"]; vh_Routes := [readinessRoute] |}] |}
    [("envoy.filters.http.router", router)]) in
  inl {| el_Name := readinessName; el_Address := socketAddress "0.0.0.0" EnvoyReadinessPort;
         el_ListenerFilters := [];
         el_FilterChains := [{| fc_Name := ""; fc_ServerNames := None;
           fc_Filters := [{| fi_Name := httpConnectionManagerFilter; fi_TypedConfig := manager |}];
           fc_TransportSocket := None |}] |}.

Definition xdsCluster (http2 : Message) (xdsHost : string) (xdsPort : Z) : StaticCluster :=
  {| stc_Name := xdsClusterName; stc_ConnectTimeout := 5 * 10 ^ 9; stc_Type := STRICT_DNS;
     stc_LoadAssignment := loadAssignment xdsClusterName xdsHost xdsPort; stc_ProtocolOptions := Some http2 |}.

Definition adminCluster : StaticCluster :=
  {| stc_Name := adminClusterName; stc_ConnectTimeout := 10 ^ 9; stc_Type := STATIC;
     stc_LoadAssignment := loadAssignment adminClusterName "127.0.0.1" EnvoyAdminPort; stc_ProtocolOptions := None |}.

(** The message [Bootstrap] builds. *)
Definition bootstrapConfig (nodeID xdsHost : string) (xdsPort : Z) : result BootstrapConfig :=
  let? http2 := anypb_New HttpProtocolOptions_Http2 in
  let? readiness := readinessListener in
  inl {| bs_NodeId := nodeID; bs_NodeCluster := nodeID;
         bs_AdminAddress := socketAddress "127.0.0.1" EnvoyAdminPort;
         bs_AdsCluster := xdsClusterName; bs_LdsConfig := adsConfigSource; bs_CdsConfig := adsConfigSource;
         bs_Listeners := [readiness]; bs_Clusters := [xdsCluster http2 xdsHost xdsPort; adminCluster] |}.

(** [Bootstrap]. *)
Definition Bootstrap (nodeID xdsHost : string) (xdsPort : Z) : result string :=
  let? bootstrap := bootstrapConfig nodeID xdsHost xdsPort in
  match ValidateAll bootstrap with
  | Some err => inr ("invalid bootstrap: " +:+ err)
  | None => MarshalBootstrap bootstrap
  end.

(** ** Properties *)

(** The cluster a listener with a static route configuration routes to. *)
Definition staticRoutes (l : EnvoyListener) : list RouteConfiguration :=
  chain ← el_FilterChains l; filter ← fc_Filters chain;
  match fi_TypedConfig filter with HttpConnectionManager_RouteConfig _ rc _ => [rc] | _ => [] end.

Lemma readinessListener_inl l : readinessListener = inl l →
  el_Address l = socketAddress "0.0.0.0" EnvoyReadinessPort ∧
  staticRoutes l = [{| rc_Name := readinessName; rc_IgnorePortInHostMatching := false;
    rc_VirtualHosts := [{| vh_Name := readinessName; vh_Domains := ["*"]; vh_Routes := [readinessRoute] |}] |}].
Proof.
  unfold readinessListener. intros (router & _ & Hk)%rbind_inl.
  by apply rbind_inl in Hk as (manager & ->%anypb_New_inl & [= <-]).
Qed.

(** The Envoy of a Gateway starts and runs with one configuration that
    fits together. Its text is that of a bootstrap that validates, whose node is
    the id its snapshot is kept under; the clusters the bootstrap asks for
    configuration and checks readiness with are in it; and whatever is
    translated for the Gateway's listeners, the addresses Envoy binds are
    distinct and leave the admin interface's port free. *)
Theorem Bootstrap_serves `{X509, LabelSelectors, MapOrder} gw routes refs resources nodeID host port text :
  (∀ ls, ls ∈ gw_Listeners gw → (1 ≤ ls_Port ls ≤ 65535)%Z) →
  Bootstrap nodeID host port = inl text →
  translate (Build gw routes refs) refs = inl resources →
  ∃ bs, bootstrapConfig nodeID host port = inl bs ∧ ValidateAll bs = None ∧ MarshalBootstrap bs = inl text ∧
    bs_NodeId bs = nodeID ∧
    (∃ c, c ∈ bs_Clusters bs ∧ stc_Name c = bs_AdsCluster bs ∧
       stc_LoadAssignment c = loadAssignment (bs_AdsCluster bs) host port ∧
       stc_ProtocolOptions c = Some HttpProtocolOptions_Http2) ∧
    (∀ n, n ∈ referenced (bs_Listeners bs ≫= staticRoutes) [] →
       ∃ c, c ∈ bs_Clusters bs ∧ stc_Name c = n ∧ stc_LoadAssignment c = loadAssignment n "127.0.0.1" (sa_Port (bs_AdminAddress bs))) ∧
    NoDup (el_Address <$> bs_Listeners bs ++ rs_Listeners resources) ∧
    ∀ l, l ∈ bs_Listeners bs ++ rs_Listeners resources → sa_Port (el_Address l) ≠ sa_Port (bs_AdminAddress bs).
Proof.
  intros Hports Hb Ht. apply rbind_inl in Hb as (bs & Hbs & Htext). exists bs. split; [done|].
  destruct (ValidateAll bs); [done|]. split; [done|]. split; [done|].
  apply rbind_inl in Hbs as (http2 & ->%anypb_New_inl & Hbs).
  apply rbind_inl in Hbs as (readiness & [Hra Hrr]%readinessListener_inl & [= <-]).
  cbn [bs_NodeId bs_AdsCluster bs_Clusters bs_Listeners bs_AdminAddress].
  destruct (translate_binds gw routes refs resources Hports Ht) as [Hnd Hp].
  split_and!; [done| | | |].
  - eexists. split; [by left|]. done.
  - intros n Hn. exists adminCluster. split; [by right; left|].
    simpl in Hn. rewrite app_nil_r, Hrr in Hn. by apply list_elem_of_singleton in Hn as ->.
  - rewrite fmap_app. apply NoDup_app. split_and!; [apply NoDup_singleton| |done].
    intros a ->%list_elem_of_singleton (l & Ha & [_ Hl]%Hp)%list_elem_of_fmap. rewrite Hra in Ha.
    by rewrite <- Ha in Hl.
  - intros l [->%list_elem_of_singleton|[Hl _]%Hp]%elem_of_app; [by rewrite Hra|done].
Qed.
End bootstrap.

Definition sampleCodec : BootstrapCodec :=
  {| ValidateAll := λ _, None; MarshalBootstrap := λ b, inl ("{node: " +:+ bs_NodeId b +:+ "}") |}.

Lemma Bootstrap_serves_witness :
  ∃ bs, bootstrapConfig (H := sampleAnypb) "infra/gw" "xds.operator.svc" 18000 = inl bs ∧
    bs_NodeId bs = "infra/gw" ∧ NoDup (el_Address <$> bs_Listeners bs ++ rs_Listeners xdsResources).
Proof.
  assert (@Bootstrap sampleAnypb sampleCodec "infra/gw" "xds.operator.svc" 18000 = inl "{node: infra/gw}") as Hb
    by reflexivity.
  destruct (@Bootstrap_serves sampleAnypb sampleCodec sampleX509 sampleSelectors sampleOrder xdsGateway
    (modelRoutes ++ [sampleTCPRoute "db-b"; sampleTCPRoute "db-a"]) (Some modelRefs) xdsResources
    "infra/gw" "xds.operator.svc" 18000%Z "{node: infra/gw}")
    as (bs & Hbs & _ & _ & Hid & _ & _ & Hnd & _).
  - apply (proj1 (Forall_forall _ _)). repeat constructor; discriminate.
  - exact Hb.
  - vm_compute. reflexivity.
  - by exists bs.
Defined.
