(* ===== verification/GatewayCtl.v ===== *)
(** * The Gateway controller (internal/controller/gateway_controller.go)

    One reconciliation of a Gateway: what is read, the Envoy and the tunnel that
    are provisioned, and the status reported. An object is applied by
    [controllerutil.CreateOrUpdate], which runs the given function on the object
    the API server holds, or on a new one; the request carries both, and is
    answered by the object as applied. *)
From S2P Require Import Prelude GatewayAPI Samples Effects Helpers Access Refs Routes Envoy Listeners Hosts Model API Tunnel EnvoyAPI XdsRoutes Xds TunnelApi TunnelCtl Address Bootstrap GatewayLoad GatewayStatus EnvoyDeploy.

Definition retryXDSAddress : Z := seconds 30.
Definition errNotControlled := "exists and is not controlled by this Gateway".

(** ** Requests *)

Inductive GatewayE : Type → Type :=
  | Reads (R : Type) (e : LoadE R) : GatewayE R
  | GetGateway (key : NamespacedName) : GatewayE (Gateway + Err)
  | ResolveXDS : GatewayE (Address + Err)
  | ApplyDeployment (obj : Deployment) (mutate : Deployment → Deployment + ApplyErr) : GatewayE (Deployment + ApplyErr)
  | ApplyService (obj : Service) (mutate : Service → Service + ApplyErr) : GatewayE (Service + ApplyErr)
  | ApplyTunnel (obj : CloudflareTunnel) (mutate : CloudflareTunnel → CloudflareTunnel + ApplyErr)
      : GatewayE (CloudflareTunnel + ApplyErr)
  | PatchGatewayStatus (original updated : Gateway) : GatewayE (option Err)
  | StatusPanic : GatewayE Empty_set.

Definition reads {A} (p : prog LoadE A) : prog GatewayE A := lift Reads p.

Definition emptyDeployment (ns name : string) : Deployment :=
  {| dep_ObjectMeta := newObjectMeta ns name; dep_Replicas := None; dep_Selector := None;
     dep_Template := emptyPodTemplate; dep_AvailableReplicas := 0 |}.

Definition emptyService (ns name : string) : Service :=
  {| svc_ObjectMeta := newObjectMeta ns name; svc_Type := ""; svc_ClusterIPs := []; svc_Selector := ∅;
     svc_Ports := []; svc_LoadBalancer := [] |}.

Definition emptyTunnel (ns name : string) : CloudflareTunnel :=
  {| tun_ObjectMeta := newObjectMeta ns name;
     tun_Spec := {| t_AccountId := ""; t_Cloudflared := None; t_Config := None; t_ConfigSource := ""; t_Dns := None;
                    t_Name := ""; t_Routes := []; t_TunnelSecret := None |};
     tun_Status := {| tst_AccountTag := ""; tst_Conditions := []; tst_ConnectionsActiveAt := 0;
       tst_ConnectionsInactiveAt := 0; tst_CreatedAt := 0; tst_Id := None; tst_DnsRecords := 0;
       tst_DnsRecordsReady := 0; tst_RoutesReady := 0; tst_Instances := 0; tst_Name := "";
       tst_RemoteConfig := false; tst_Status := ""; tst_Type := "" |} |}.

Definition setDeploymentMeta (d : Deployment) (m : ObjectMeta) : Deployment :=
  {| dep_ObjectMeta := m; dep_Replicas := dep_Replicas d; dep_Selector := dep_Selector d;
     dep_Template := dep_Template d; dep_AvailableReplicas := dep_AvailableReplicas d |}.

Definition setServiceMeta (s : Service) (m : ObjectMeta) : Service :=
  {| svc_ObjectMeta := m; svc_Type := svc_Type s; svc_ClusterIPs := svc_ClusterIPs s;
     svc_Selector := svc_Selector s; svc_Ports := svc_Ports s; svc_LoadBalancer := svc_LoadBalancer s |}.

Definition setTunnelMeta (t : CloudflareTunnel) (m : ObjectMeta) : CloudflareTunnel :=
  {| tun_ObjectMeta := m; tun_Spec := tun_Spec t; tun_Status := tun_Status t |}.

(** ** What is read *)

(** [gatewayClassFor]: the class, if it exists, and whether it is ours. *)
Definition gatewayClassFor (gw : Gateway) : prog LoadE ((option GatewayClass * bool) + Err) :=
  do class <- call (GetGatewayClass (gw_GatewayClassName gw));
  Ret (match class with
       | inr err => if k8s_IsNotFound err then inl (None, false) else inr err
       | inl class => inl (Some class, str_eqb (gc_ControllerName class) ControllerName)
       end).

(** [serviceAddresses]. *)
Definition ingressAddress (ingress : LoadBalancerIngress) : option GatewayAddress :=
  if negb (str_eqb (lbi_IP ingress) "") then Some {| ga_Type := "IPAddress"; ga_Value := lbi_IP ingress |}
  else if negb (str_eqb (lbi_Hostname ingress) "") then
    Some {| ga_Type := "Hostname"; ga_Value := lbi_Hostname ingress |}
  else None.

Definition serviceAddresses (svc : Service) : list GatewayAddress :=
  if str_eqb (svc_Type svc) "LoadBalancer" then omap ingressAddress (svc_LoadBalancer svc)
  else omap (λ ip, if str_eqb ip "" || str_eqb ip "None" then None
                   else Some {| ga_Type := "IPAddress"; ga_Value := ip |}) (svc_ClusterIPs svc).

(** [tunnelCondition]. *)
Definition tunnelCondition (tunnel : CloudflareTunnel) : Condition :=
  let name := om_Name (tun_ObjectMeta tunnel) in
  let created :=
    match tst_Id (tun_Status tunnel) with
    | None => mkCondition conditionTunnelProgrammed ConditionFalse reasonTunnelPending
                ("Waiting for CloudflareTunnel " +:+ name +:+ " to be created")
    | Some _ => mkCondition conditionTunnelProgrammed ConditionTrue reasonTunnelProgrammed
                  ("CloudflareTunnel " +:+ name +:+ " routes to Envoy")
    end in
  match conditionOf (tst_Conditions (tun_Status tunnel)) typeDegradedCloudflareTunnel with
  | Some degraded =>
    if bool_decide (c_Status degraded = ConditionTrue) then
      mkCondition conditionTunnelProgrammed ConditionFalse reasonTunnelPending
        ("CloudflareTunnel " +:+ name +:+ " is degraded: " +:+ c_Message degraded)
    else created
  | None => created
  end.

Section reconcile.
Context `{X509, LabelSelectors, Validation, Sha256, ObjectHelpers, Netip, Anypb, BootstrapCodec}.

(** [buildGateway]. *)
Definition buildGateway (gw : Gateway) (features : Features) : prog LoadE ((Model * References) + Err) :=
  do? (routes, refs) <- Load gw features;
  Ret (inl (Build gw routes (Some refs), refs)).

(** [accept]: the status, and the config of a Gateway that can be served. *)
Definition accept (gw : Gateway) (class : GatewayClass) (status : gatewayStatus)
    : prog LoadE (gatewayStatus * option CloudflareGatewayConfig) :=
  let reject reason message :=
    (programmed (accepted status ConditionFalse reason message) ConditionFalse "Invalid" message, None) in
  if negb (IsStatusConditionTrue (gc_StatusConditions class) "Accepted") then
    Ret (reject "Pending" ("GatewayClass " +:+ om_Name (gc_ObjectMeta class) +:+ " is not accepted"))
  else
    do config <- GatewayLoad.Resolve class;
    Ret (match config with
         | inr err => reject "InvalidParameters" (resolveErr_message err)
         | inl config =>
           let n := validListeners status in
           let total := Z.of_nat (length (gw_Listeners gw)) in
           match gw_Addresses gw with
           | _ :: _ => reject "UnsupportedAddress" "spec.addresses is not supported"
           | [] =>
             if (n =? 0)%Z then reject "ListenersNotValid" "No listener is valid"
             else if (n <? total)%Z then
               (accepted status ConditionTrue "ListenersNotValid"
                  (fmt_d (total - n) +:+ " of " +:+ fmt_d total +:+ " listeners are invalid"), Some config)
             else (accepted status ConditionTrue "Accepted" "Gateway accepted", Some config)
           end
         end).

(** The update functions of [ensureControlled], of each kind of objects. *)
Definition controlledDeployment (gw : Gateway) := controlled dep_ObjectMeta setDeploymentMeta (gw_ObjectMeta gw).
Definition controlledService (gw : Gateway) := controlled svc_ObjectMeta setServiceMeta (gw_ObjectMeta gw).
Definition controlledTunnel (gw : Gateway) := controlled tun_ObjectMeta setTunnelMeta (gw_ObjectMeta gw).

(** The Programmed condition of a Gateway whose Envoy is applied. *)
Definition envoyProgrammed (settings : envoySettings) (name : string) (deploy : Deployment)
    (status : gatewayStatus) : gatewayStatus :=
  if (es_Replicas settings =? 0)%Z then
    programmed status ConditionFalse "NoResources" "spec.envoy.replicas of the CloudflareGatewayConfig is 0"
  else if (dep_AvailableReplicas deploy =? 0)%Z then
    programmed status ConditionFalse "Pending" ("Waiting for Deployment " +:+ name +:+ " to become available")
  else if Nat.eqb (length (gs_addresses status)) 0 then
    programmed status ConditionFalse "AddressNotAssigned"
      ("Waiting for Service " +:+ name +:+ " to be assigned an address")
  else programmed status ConditionTrue "Programmed" "Envoy is serving the Gateway".

(** [provisionEnvoy]. *)
Definition provisionEnvoy (gw : Gateway) (settings : envoySettings) (addr : Address) (status : gatewayStatus)
    : prog GatewayE (gatewayStatus + Err) :=
  match Bootstrap (NodeID (gw_Namespace gw) (gw_Name gw)) (Host addr) (Port addr) with
  | inr err => Ret (inr (plainErr err))
  | inl bootstrap =>
    let name := EnvoyObjectName gw in
    do deploy <- call (ApplyDeployment (emptyDeployment (gw_Namespace gw) name)
                         (controlledDeployment gw (mutateEnvoyDeployment gw settings bootstrap)));
    match deploy with
    | inr NotControlled =>
      Ret (inl (programmed status ConditionFalse "Invalid" ("Deployment " +:+ name +:+ " " +:+ errNotControlled)))
    | inr (ApplyFailed err) => Ret (inr err)
    | inl deploy =>
      do svc <- call (ApplyService (emptyService (gw_Namespace gw) name)
                        (controlledService gw (mutateEnvoyService gw settings (envoyServicePorts (gs_listeners status)))));
      Ret (match svc with
           | inr NotControlled =>
             inl (programmed status ConditionFalse "Invalid" ("Service " +:+ name +:+ " " +:+ errNotControlled))
           | inr (ApplyFailed err) => inr err
           | inl svc => inl (envoyProgrammed settings name deploy (withAddresses status (serviceAddresses svc)))
           end)
    end
  end.

(** The spec of the tunnel a template asks for. *)
Definition templateSpec (gw : Gateway) (listeners : list Listener) (clusterIPs : list string)
    (spec : CloudflareTunnelSpec) : CloudflareTunnelSpec :=
  let envoyHost := EnvoyObjectName gw +:+ "." +:+ gw_Namespace gw +:+ ".svc" in
  let handwritten := match t_Config spec with Some c => tc_Ingress c | None => [] end in
  let config := default {| tc_Ingress := []; tc_OriginRequest := emptyOriginRequest; tc_WarpRouting := None |}
                  (t_Config spec) in
  let config := {| tc_Ingress := TunnelIngress handwritten listeners (TunnelHostnames gw) envoyHost;
                   tc_OriginRequest := tc_OriginRequest config; tc_WarpRouting := tc_WarpRouting config |} in
  let warp := match tc_WarpRouting config with Some warp => wr_Enable warp | None => false end in
  {| t_AccountId := t_AccountId spec; t_Cloudflared := t_Cloudflared spec; t_Config := Some config;
     t_ConfigSource := CloudflareCloudflareTunnelConfigSource; t_Dns := t_Dns spec; t_Name := t_Name spec;
     t_Routes := if warp then
                   TunnelRoutes (t_Routes spec) clusterIPs ("Envoy for Gateway " +:+ gw_Namespace gw +:+ "/" +:+ gw_Name gw)
                 else t_Routes spec;
     t_TunnelSecret := t_TunnelSecret spec |}.

Definition mutateTunnel (gw : Gateway) (listeners : list Listener) (clusterIPs : list string)
    (template : CloudflareGatewayTunnelTemplate) (tunnel : CloudflareTunnel) : CloudflareTunnel :=
  {| tun_ObjectMeta := mergeMeta (tun_ObjectMeta tunnel) (gtm_Labels (gtt_ObjectMeta template))
                         (gtm_Annotations (gtt_ObjectMeta template));
     tun_Spec := templateSpec gw listeners clusterIPs (gtt_Spec template);
     tun_Status := tun_Status tunnel |}.

(** [provisionTunnel]. *)
Definition provisionTunnel (gw : Gateway) (config : CloudflareGatewayConfig) (status : gatewayStatus)
    : prog GatewayE (gatewayStatus + Err) :=
  let name := EnvoyObjectName gw in
  let envoyHost := name +:+ "." +:+ gw_Namespace gw +:+ ".svc" in
  match gcs_Template (gcf_Spec config) with
  | None =>
    match gcs_TunnelRef (gcf_Spec config) with
    | Some ref =>
      Ret (inl (withTunnel status (mkCondition conditionTunnelProgrammed ConditionFalse reasonTunnelNotImplemented
        ("The operator does not yet write rules into the shared tunnel " +:+ gtr_Namespace ref +:+ "/" +:+ gtr_Name ref
         +:+ "; route its traffic to http://" +:+ envoyHost +:+ " by hand"))))
    | None => Ret (inl status)
    end
  | Some template =>
    do svc <- reads (call (GetService {| nn_Namespace := gw_Namespace gw; nn_Name := name |}));
    match match svc with
          | inl svc => inl (svc_ClusterIPs svc)
          | inr err => if k8s_IsNotFound err then inl [] else inr err
          end with
    | inr err => Ret (inr err)
    | inl clusterIPs =>
      do tunnel <- call (ApplyTunnel (emptyTunnel (gw_Namespace gw) (gw_Name gw))
                           (controlledTunnel gw (mutateTunnel gw (gs_listeners status) clusterIPs template)));
      Ret (match tunnel with
           | inr NotControlled =>
             inl (withTunnel status (mkCondition conditionTunnelProgrammed ConditionFalse reasonTunnelConflict
               ("CloudflareTunnel " +:+ gw_Name gw +:+ " " +:+ errNotControlled)))
           | inr (ApplyFailed err) => inr err
           | inl tunnel => inl (withTunnel status (tunnelCondition tunnel))
           end)
    end
  end.

(** [patchStatus]. *)
Definition patchStatus (gw : Gateway) (status : gatewayStatus) : prog GatewayE (option Err) :=
  match apply status gw with
  | Some gw' => call (PatchGatewayStatus gw gw')
  | None => do e <- call StatusPanic; match e : Empty_set with end
  end.

(** The status, and when to reconcile again, after Envoy is provisioned or has to
    wait for the xDS server. *)
Definition envoyStep (gw : Gateway) (settings : envoySettings) (addr : Address + Err) (status : gatewayStatus)
    : prog GatewayE ((Z * gatewayStatus) + Err) :=
  match addr with
  | inr err =>
    Ret (inl (retryXDSAddress, programmed status ConditionFalse "Pending"
      ("Waiting for the xDS server address: " +:+ err_message err)))
  | inl addr =>
    do? status <- provisionEnvoy gw settings addr status;
    Ret (inl (0%Z, status))
  end.

(** The rest of [Reconcile] for a Gateway that can be served. *)
Definition provision (gw : Gateway) (config : CloudflareGatewayConfig) (status : gatewayStatus) : prog GatewayE Result :=
  let settings := resolveEnvoySettings config in
  do addr <- call ResolveXDS;
  do envoy <- envoyStep gw settings addr status;
  match envoy with
  | inr err => Ret (failed err)
  | inl (after, status) =>
    do status <- provisionTunnel gw config status;
    match status with
    | inr err => Ret (failed err)
    | inl status =>
      do err <- patchStatus gw status;
      Ret {| requeueAfter := after; result_err := err |}
    end
  end.

Definition Reconcile (features : Features) (req : NamespacedName) : prog GatewayE Result :=
  do gw <- call (GetGateway req);
  match gw with
  | inr err => Ret {| requeueAfter := 0; result_err := k8s_IgnoreNotFound (Some err) |}
  | inl gw =>
    do class <- reads (gatewayClassFor gw);
    match class with
    | inr err => Ret (failed err)
    | inl (Some class, true) =>
      if bool_decide (is_Some (om_DeletionTimestamp (gw_ObjectMeta gw))) then Ret done_
      else
        do model <- reads (buildGateway gw features);
        match model with
        | inr err => Ret (failed err)
        | inl (model, _) =>
          do (status, config) <- reads (accept gw class (newGatewayStatus model));
          match config with
          | None =>
            do err <- patchStatus gw status;
            Ret {| requeueAfter := 0; result_err := err |}
          | Some config => provision gw config status
          end
        end
    | inl _ => Ret done_
    end
  end.

End reconcile.

(** ** What a run did *)

Definition gatewayGot (ev : event GatewayE) : option (Gateway + Err) :=
  let 'Ev e a := ev in
  match e in GatewayE R return R → option (Gateway + Err) with GetGateway _ => λ a, Some a | _ => λ _, None end a.

(** An object that was applied, by its namespace and name, and the answer. *)
Definition deploymentApplied (ev : event GatewayE) : option (string * string * (Deployment + ApplyErr)) :=
  let 'Ev e a := ev in
  match e in GatewayE R return R → option (string * string * (Deployment + ApplyErr)) with
  | ApplyDeployment obj _ => λ a, Some (om_Namespace (dep_ObjectMeta obj), om_Name (dep_ObjectMeta obj), a)
  | _ => λ _, None
  end a.

Definition serviceApplied (ev : event GatewayE) : option (string * string * (Service + ApplyErr)) :=
  let 'Ev e a := ev in
  match e in GatewayE R return R → option (string * string * (Service + ApplyErr)) with
  | ApplyService obj _ => λ a, Some (om_Namespace (svc_ObjectMeta obj), om_Name (svc_ObjectMeta obj), a)
  | _ => λ _, None
  end a.

Definition statusWritten (ev : event GatewayE) : option (Gateway * Gateway) :=
  let 'Ev e _ := ev in
  match e with PatchGatewayStatus original updated => Some (original, updated) | _ => None end.

(** ** What is written *)

Section writes.
Context `{X509, LabelSelectors, Validation, Sha256, ObjectHelpers, Netip, Anypb, BootstrapCodec, !ConditionLaws, !OwnerLaws}.

(** The requests of the reconciliation of a Gateway. *)
Definition Disciplined (gw : Gateway) (R : Type) (e : GatewayE R) : Prop :=
  match e with
  | ApplyDeployment obj mutate =>
    obj = emptyDeployment (gw_Namespace gw) (EnvoyObjectName gw) ∧ Careful dep_ObjectMeta (gw_ObjectMeta gw) mutate
  | ApplyService obj mutate =>
    obj = emptyService (gw_Namespace gw) (EnvoyObjectName gw) ∧ Careful svc_ObjectMeta (gw_ObjectMeta gw) mutate
  | ApplyTunnel obj mutate =>
    obj = emptyTunnel (gw_Namespace gw) (gw_Name gw) ∧ Careful tun_ObjectMeta (gw_ObjectMeta gw) mutate
  | PatchGatewayStatus original updated =>
    original = gw ∧ gw_ObjectMeta updated = gw_ObjectMeta gw ∧ gw_Listeners updated = gw_Listeners gw
  | GetGateway _ | StatusPanic => False
  | _ => True
  end.

Lemma deployment_careful gw settings bootstrap :
  Careful dep_ObjectMeta (gw_ObjectMeta gw) (controlledDeployment gw (mutateEnvoyDeployment gw settings bootstrap)).
Proof.
  apply controlled_careful; [done|done|]. intros o refs. unfold mutateEnvoyDeployment.
  destruct (infrastructureMeta gw) as [labels annotations]. cbv zeta.
  cbn [dep_ObjectMeta setDeploymentMeta dep_Selector dep_Template pt_Labels pt_Annotations dep_AvailableReplicas].
  rewrite !mergeOwned_idemp. unfold setDeploymentMeta. cbn [dep_Replicas dep_Selector dep_Template dep_AvailableReplicas].
  f_equal; [|by destruct (dep_Selector o)].
  unfold mergeMeta, withMeta, withOwners. simpl. by rewrite !mergeOwned_idemp.
Qed.

Lemma service_careful gw settings ls :
  Careful svc_ObjectMeta (gw_ObjectMeta gw) (controlledService gw (mutateEnvoyService gw settings (envoyServicePorts ls))).
Proof.
  apply controlled_careful; [done|done|]. intros o refs. unfold mutateEnvoyService.
  destruct (infrastructureMeta gw) as [labels annotations]. cbv zeta.
  unfold setServiceMeta. cbn [svc_ObjectMeta svc_Type svc_ClusterIPs svc_Selector svc_Ports svc_LoadBalancer].
  f_equal; [unfold mergeMeta, withMeta, withOwners; simpl; by rewrite !mergeOwned_idemp|].
  apply withNodePort_idemp, servicePorts_spec.
Qed.

Lemma tunnel_careful gw ls ips template :
  Careful tun_ObjectMeta (gw_ObjectMeta gw) (controlledTunnel gw (mutateTunnel gw ls ips template)).
Proof.
  apply controlled_careful; [done|done|]. intros o refs. unfold mutateTunnel, setTunnelMeta. cbv zeta.
  cbn [tun_ObjectMeta tun_Spec tun_Status]. f_equal.
  unfold mergeMeta, withMeta, withOwners. simpl. by rewrite !mergeOwned_idemp.
Qed.

(** A status on the way to being filled. *)
Definition Started (gw : Gateway) (routes : list Route) (refs : References) (s : gatewayStatus) : Prop :=
  gs_listeners s = md_Listeners (Build gw routes (Some refs)) ∧
  gs_attachedRoutes s = md_AttachedRoutes (Build gw routes (Some refs)) ∧ gs_tunnel s = None.

(** The GatewayClass is accepted. *)
Definition ClassAccepted (class : GatewayClass) : Prop :=
  ∃ c, conditionOf (gc_StatusConditions class) "Accepted" = Some c ∧ c_Status c = ConditionTrue.

(** The parameters of a class name a CloudflareGatewayConfig in a namespace. *)
Definition ParametersAt (class : GatewayClass) (key : NamespacedName) : Prop :=
  ∃ ref, gc_ParametersRef class = Some ref ∧ pr_Group ref = "cloudflare.unmango.dev" ∧
    pr_Kind ref = "CloudflareGatewayConfig" ∧ pr_Namespace ref = Some (nn_Namespace key) ∧ nn_Namespace key ≠ "" ∧
    nn_Name key = pr_Name ref.

Definition ReachesCloudflare (config : CloudflareGatewayConfig) : Prop :=
  gcs_Template (gcf_Spec config) ≠ None ∨ gcs_TunnelRef (gcf_Spec config) ≠ None.

(** The requests that read the config of a class, which reaches Cloudflare; and
    those that find it has none that does. *)
Definition Configures (class : GatewayClass) (tr : list (event LoadE)) (config : CloudflareGatewayConfig) : Prop :=
  ∃ key, ParametersAt class key ∧ tr = [Ev (GetGatewayConfig key) (inl config)] ∧ ReachesCloudflare config.

Inductive Misconfigured (class : GatewayClass) : list (event LoadE) → Prop :=
  | no_parameters : (∀ key, ¬ ParametersAt class key) → Misconfigured class []
  | unread_parameters key err : ParametersAt class key → Misconfigured class [Ev (GetGatewayConfig key) (inr err)]
  | no_tunnel key config : ParametersAt class key → ¬ ReachesCloudflare config →
      Misconfigured class [Ev (GetGatewayConfig key) (inl config)].

(** Why a Gateway with these listeners is not accepted, after these requests. *)
Inductive Rejected (gw : Gateway) (class : GatewayClass) (ls : list Listener) : list (event LoadE) → string → Prop :=
  | class_pending : ¬ ClassAccepted class → Rejected gw class ls [] "Pending"
  | invalid_parameters tr : ClassAccepted class → Misconfigured class tr → Rejected gw class ls tr "InvalidParameters"
  | has_addresses tr config : ClassAccepted class → Configures class tr config → gw_Addresses gw ≠ [] →
      Rejected gw class ls tr "UnsupportedAddress"
  | no_listener tr config : ClassAccepted class → Configures class tr config → gw_Addresses gw = [] →
      Forall (λ l, l_Valid l = false) ls → Rejected gw class ls tr "ListenersNotValid".

(** A Gateway that is. *)
Record Acceptable (gw : Gateway) (class : GatewayClass) (ls : list Listener) (tr : list (event LoadE))
    (config : CloudflareGatewayConfig) : Prop := {
  ac_class : ClassAccepted class;
  ac_config : Configures class tr config;
  ac_addresses : gw_Addresses gw = [];
  ac_listener : Exists (λ l, l_Valid l = true) ls;
}.

Lemma Resolve_reads class tr r :
  exec (GatewayLoad.Resolve class) tr r →
  match r with inl config => Configures class tr config | inr _ => Misconfigured class tr end.
Proof.
  destruct r as [config|err].
  { intros (ref & ns & ? & ? & ? & ? & ? & -> & ?)%Resolve_ok.
    exists {| nn_Namespace := ns; nn_Name := pr_Name ref |}. split_and!; [|done..]. by exists ref. }
  unfold GatewayLoad.Resolve. destruct (gc_ParametersRef class) as [ref|] eqn:Ep.
  2: { intros [-> _]%exec_Ret_inv. apply no_parameters. intros key (ref & ? & _). congruence. }
  destruct (negb (str_eqb (pr_Group ref) _) || _) eqn:Eg.
  { intros [-> _]%exec_Ret_inv. apply no_parameters. intros key (ref' & ? & Hg & Hk & _). simplify_eq.
    by rewrite Hg, Hk in Eg. }
  apply orb_false_iff in Eg as [Eg%negb_false_iff%str_eqb_eq Ek%negb_false_iff%str_eqb_eq].
  destruct (str_eqb (default "" (pr_Namespace ref)) "") eqn:En; str_simpl.
  { intros [-> _]%exec_Ret_inv. apply no_parameters. intros key (ref' & ? & _ & _ & Hns & ? & _). simplify_eq.
    rewrite Hns in En. by simpl in En. }
  intros (c & t & -> & [-> Hr]%exec_Ret_inv)%exec_Vis_inv.
  assert (ParametersAt class {| nn_Namespace := default "" (pr_Namespace ref); nn_Name := pr_Name ref |}) as Hkey.
  { exists ref. split_and!; try done. by destruct (pr_Namespace ref). }
  destruct c as [config|e]; [|by apply unread_parameters]. apply no_tunnel; [done|]. unfold ReachesCloudflare.
  destruct (gcs_Template _), (gcs_TunnelRef _); naive_solver.
Qed.

Lemma ClassAccepted_iff class : IsStatusConditionTrue (gc_StatusConditions class) "Accepted" = true ↔ ClassAccepted class.
Proof.
  unfold IsStatusConditionTrue, ClassAccepted. destruct (conditionOf _ _) as [c|]; [|naive_solver].
  rewrite bool_decide_eq_true. naive_solver.
Qed.

Lemma validListeners_count s : validListeners s = Z.of_nat (length (filter (λ l, l_Valid l = true) (gs_listeners s))).
Proof.
  unfold validListeners. rewrite <- Z.add_0_l. generalize 0%Z as n.
  induction (gs_listeners s) as [|l ls IH]; intros n; simpl; [lia|]. rewrite IH, filter_cons.
  destruct (l_Valid l); simpl; lia.
Qed.

Lemma validListeners_none s : validListeners s = 0%Z ↔ Forall (λ l, l_Valid l = false) (gs_listeners s).
Proof.
  rewrite validListeners_count. induction (gs_listeners s) as [|l ls IH]; [done|]. rewrite filter_cons, Forall_cons.
  destruct (l_Valid l); simpl; [|rewrite IH]; naive_solver lia.
Qed.

(** What [accept] decides, and keeps. *)
Lemma accept_exec gw class s tr s' oc :
  exec (accept gw class s) tr (s', oc) →
  gs_listeners s' = gs_listeners s ∧ gs_attachedRoutes s' = gs_attachedRoutes s ∧ gs_tunnel s' = gs_tunnel s ∧
  gs_addresses s' = gs_addresses s ∧ c_Type (gs_acceptedCondition s') = GatewayConditionAccepted ∧
  match oc with
  | None =>
    c_Type (gs_programmedCondition s') = GatewayConditionProgrammed ∧ c_Status (gs_programmedCondition s') = ConditionFalse ∧
    c_Status (gs_acceptedCondition s') = ConditionFalse ∧
    Rejected gw class (gs_listeners s) tr (c_Reason (gs_acceptedCondition s'))
  | Some config =>
    c_Status (gs_acceptedCondition s') = ConditionTrue ∧ Acceptable gw class (gs_listeners s) tr config
  end.
Proof.
  unfold accept. destruct (IsStatusConditionTrue _ _) eqn:Ec; simpl.
  2: { intros [-> [= <- <-]]%exec_Ret_inv. simpl. split_and!; try done. apply class_pending.
       intros ?%ClassAccepted_iff. congruence. }
  apply ClassAccepted_iff in Ec. intros Hx. apply exec_bind in Hx as (t1 & t2 & r & -> & Hr%Resolve_reads & Hx).
  apply exec_Ret_inv in Hx as [-> Hx]. rewrite app_nil_r. destruct r as [config|err].
  2: { injection Hx as <- <-. split_and!; try done. by apply invalid_parameters. }
  destruct (gw_Addresses gw) eqn:Ea.
  2: { injection Hx as <- <-. split_and!; try done. eapply has_addresses; [done..|by rewrite Ea]. }
  destruct (Z.eqb_spec (validListeners s) 0) as [Hv%validListeners_none|Hv].
  { injection Hx as <- <-. split_and!; try done. by eapply no_listener. }
  assert (Acceptable gw class (gs_listeners s) t1 config) as Hac.
  { split; [done..|]. rewrite validListeners_none in Hv. apply not_Forall_Exists in Hv; [|apply _].
    eapply Exists_impl; [exact Hv|]. intros l. simpl. by destruct (l_Valid l). }
  destruct (_ <? _)%Z; by injection Hx as <- <-.
Qed.

(** Envoy serves: its Deployment has replicas available, of those the config asks
    for, and its Service has an address. *)
Definition asksReplicas (config : CloudflareGatewayConfig) : Prop :=
  ∀ envoy, gcs_Envoy (gcf_Spec config) = Some envoy → ge_Replicas envoy ≠ Some 0%Z.

Inductive AddressOf (svc : Service) : GatewayAddress → Prop :=
  | balancer_ip ingress : svc_Type svc = "LoadBalancer" → ingress ∈ svc_LoadBalancer svc → lbi_IP ingress ≠ "" →
      AddressOf svc {| ga_Type := "IPAddress"; ga_Value := lbi_IP ingress |}
  | balancer_hostname ingress : svc_Type svc = "LoadBalancer" → ingress ∈ svc_LoadBalancer svc → lbi_IP ingress = "" →
      lbi_Hostname ingress ≠ "" → AddressOf svc {| ga_Type := "Hostname"; ga_Value := lbi_Hostname ingress |}
  | cluster_ip ip : svc_Type svc ≠ "LoadBalancer" → ip ∈ svc_ClusterIPs svc → ip ≠ "" → ip ≠ "None" →
      AddressOf svc {| ga_Type := "IPAddress"; ga_Value := ip |}.

Lemma serviceAddresses_AddressOf svc a : a ∈ serviceAddresses svc ↔ AddressOf svc a.
Proof.
  unfold serviceAddresses. destruct (str_eqb (svc_Type svc) "LoadBalancer") eqn:Et; str_simpl; rewrite list_elem_of_omap.
  - unfold ingressAddress. split.
    + intros (ing & Hin & He). destruct (str_eqb (lbi_IP ing) "") eqn:Ei; simpl in He; str_simpl.
      * destruct (str_eqb (lbi_Hostname ing) "") eqn:Eh; simpl in He; str_simpl; [done|]. injection He as <-.
        by apply balancer_hostname.
      * injection He as <-. by apply balancer_ip.
    + intros [ing _ Hin Hi|ing _ Hin Hi Hh|ip Hn _ _ _]; [exists ing..|done]; (split; [done|]).
      * by apply str_eqb_neq in Hi as ->.
      * apply str_eqb_neq in Hh. by rewrite Hi, Hh.
  - split.
    + intros (ip & Hin & He). destruct (str_eqb ip "" || str_eqb ip "None") eqn:Ei; [done|]. injection He as <-.
      apply orb_false_iff in Ei as [? ?]. str_simpl. by apply cluster_ip.
    + intros [ing ? Hin Hi|ing ? Hin Hi Hh|ip _ Hin He Hn]; [done..|]. exists ip. split; [done|].
      apply str_eqb_neq in He as ->. by apply str_eqb_neq in Hn as ->.
Qed.

Lemma serviceAddresses_some svc : serviceAddresses svc ≠ [] ↔ ∃ a, AddressOf svc a.
Proof.
  setoid_rewrite <- serviceAddresses_AddressOf. destruct (serviceAddresses svc) as [|a l].
  - split; [done|]. by intros (a & ?%elem_of_nil).
  - split; [|done]. intros _. exists a. by left.
Qed.

Lemma resolveEnvoySettings_replicas config : es_Replicas (resolveEnvoySettings config) ≠ 0%Z ↔ asksReplicas config.
Proof.
  unfold resolveEnvoySettings, asksReplicas. destruct (gcs_Envoy (gcf_Spec config)) as [envoy|]; simpl; [|naive_solver].
  destruct (ge_Replicas envoy) as [n|] eqn:E; simpl; naive_solver.
Qed.

Definition Serves (gw : Gateway) (config : CloudflareGatewayConfig) (tr : list (event GatewayE)) (svc : Service) : Prop :=
  asksReplicas config ∧
  (∃ deploy, (gw_Namespace gw, EnvoyObjectName gw, inl deploy) ∈ omap deploymentApplied tr ∧ dep_AvailableReplicas deploy ≠ 0%Z) ∧
  omap serviceApplied tr = [(gw_Namespace gw, EnvoyObjectName gw, inl svc)] ∧ ∃ a, AddressOf svc a.

Lemma reads_silent {A B} (view : event GatewayE → option B) (p : prog LoadE A) tr a :
  (∀ R (e : LoadE R) r, view (Ev (Reads R e) r) = None) → exec (reads p) tr a → omap view tr = [].
Proof.
  intros Hv Hx. unfold reads in Hx.
  apply (emits_omap (λ R e, match e with Reads _ _ => True | _ => False end) view (lift Reads p) tr a); [|by apply emits_lift|done].
  intros R e r He. by destruct e.
Qed.

(** What the provisioning of Envoy makes of a status. *)
Lemma provisionEnvoy_exec gw config addr s tr s' :
  exec (provisionEnvoy gw (resolveEnvoySettings config) addr s) tr (inl s') →
  gs_listeners s' = gs_listeners s ∧ gs_attachedRoutes s' = gs_attachedRoutes s ∧ gs_tunnel s' = gs_tunnel s ∧
  gs_acceptedCondition s' = gs_acceptedCondition s ∧ c_Type (gs_programmedCondition s') = GatewayConditionProgrammed ∧
  (c_Status (gs_programmedCondition s') = ConditionTrue ↔
     ∃ svc, Serves gw config tr svc) ∧
  gs_addresses s' = match omap serviceApplied tr with [(_, _, inl svc)] => serviceAddresses svc | _ => gs_addresses s end.
Proof.
  unfold provisionEnvoy. destruct (Bootstrap _ _ _) as [text|err]; [|by intros [_ ?]%exec_Ret_inv].
  intros (t1 & t2 & dep & -> & ->%exec_call & Hx)%exec_bind.
  destruct dep as [dep|[|err]]; [|apply exec_Ret_inv in Hx as [-> [= <-]]|by apply exec_Ret_inv in Hx as [_ ?]].
  2:{ simpl. split_and!; try done. split; [done|]. by intros (? & _ & _ & ? & _). }
  apply exec_bind in Hx as (t3 & t4 & svc & -> & ->%exec_call & [-> Hx]%exec_Ret_inv).
  destruct svc as [svc|[|err]]; [|injection Hx as <-|done].
  2:{ simpl. split_and!; try done. split; [done|]. by intros (v & _ & _ & Hv & _). }
  injection Hx as <-. unfold envoyProgrammed.
  match goal with |- context [omap serviceApplied ?t] => set (tr := t) end.
  assert ((∃ v, Serves gw config tr v) ↔
    es_Replicas (resolveEnvoySettings config) ≠ 0%Z ∧ dep_AvailableReplicas dep ≠ 0%Z ∧ serviceAddresses svc ≠ []) as ->.
  { rewrite serviceAddresses_some, resolveEnvoySettings_replicas. split.
    - intros (v & ? & (d & [= ->]%list_elem_of_singleton & ?) & [= ->] & ?). done.
    - intros (? & ? & ?). exists svc. split; [done|]. split; [|done]. exists dep. split; [by left|done]. }
  simpl. destruct (Z.eqb_spec (es_Replicas (resolveEnvoySettings config)) 0); [simpl; split_and!; done || (split; [done|]; by intros (? & _))|].
  destruct (Z.eqb_spec (dep_AvailableReplicas dep) 0); [simpl; split_and!; done || (split; [done|]; by intros (_ & ? & _))|].
  simpl. destruct (serviceAddresses svc) eqn:E; simpl; rewrite ?E; split_and!; try done.
  split; [done|]. by intros (_ & _ & ?).
Qed.

Lemma provisionTunnel_exec gw config s tr s' :
  exec (provisionTunnel gw config s) tr (inl s') →
  gs_listeners s' = gs_listeners s ∧ gs_attachedRoutes s' = gs_attachedRoutes s ∧ gs_addresses s' = gs_addresses s ∧
  gs_acceptedCondition s' = gs_acceptedCondition s ∧ gs_programmedCondition s' = gs_programmedCondition s ∧
  (∀ t, gs_tunnel s' = Some t → gs_tunnel s = Some t ∨ c_Type t = conditionTunnelProgrammed).
Proof.
  unfold provisionTunnel. destruct (gcs_Template _) as [template|].
  2:{ destruct (gcs_TunnelRef _); intros [_ [= <-]]%exec_Ret_inv; split_and!; try done; [|by left].
      intros t [= <-]. by right. }
  intros (t1 & t2 & svc & -> & _ & Hx)%exec_bind. simpl in Hx.
  destruct (match svc with inl _ => _ | inr _ => _ end) as [ips|err]; [|by apply exec_Ret_inv in Hx as [_ ?]].
  apply exec_Vis_inv in Hx as (tun & t3 & -> & [_ Hx]%exec_Ret_inv).
  destruct tun as [tun|[|err]]; [|injection Hx as <-|done].
  2:{ split_and!; try done. intros t [= <-]. by right. }
  injection Hx as <-. split_and!; try done. intros t [= <-]. right.
  unfold tunnelCondition. destruct (conditionOf _ _) as [c|]; [case_bool_decide; [done|]|]; by destruct (tst_Id _).
Qed.

(** Only the tunnel is applied when the tunnel is provisioned. *)
Definition TunnelOnly (R : Type) (e : GatewayE R) : Prop :=
  match e with Reads _ _ => True | ApplyTunnel _ _ => True | _ => False end.

Lemma provisionTunnel_only gw config s : emits TunnelOnly (provisionTunnel gw config s).
Proof.
  unfold provisionTunnel. repeat first [emits_step|apply emits_lift; done|done].
Qed.

Definition EnvoyOnly (R : Type) (e : GatewayE R) : Prop :=
  match e with ApplyDeployment _ _ => True | ApplyService _ _ => True | _ => False end.

Lemma provisionEnvoy_only gw settings addr s : emits EnvoyOnly (provisionEnvoy gw settings addr s).
Proof. unfold provisionEnvoy. repeat first [emits_step|done]. Qed.

(** What is known of the status on the way through [Reconcile]. *)
Lemma accept_filled gw class routes refs tr s oc :
  exec (reads (accept gw class (newGatewayStatus (Build gw routes (Some refs))))) tr (s, oc) →
  Started gw routes refs s ∧ c_Type (gs_acceptedCondition s) = GatewayConditionAccepted ∧
  (oc = None → Filled gw routes refs s).
Proof.
  intros (tr' & _ & Hx)%exec_lift. apply accept_exec in Hx as (Hl & Ha & Ht & _ & Hty & Hoc).
  simpl in Hl, Ha, Ht. split_and!; [done..|]. intros ->. destruct Hoc as (Hp & _).
  split_and!; try done. intros t. by rewrite Ht.
Qed.

Lemma buildGateway_load gw features tr m refs :
  exec (reads (buildGateway gw features)) tr (inl (m, refs)) →
  ∃ tl routes, tr = liftEvent Reads <$> tl ∧ m = Build gw routes (Some refs) ∧ exec (Load gw features) tl (inl (routes, refs)).
Proof.
  intros (tr' & -> & Hx)%exec_lift. unfold buildGateway in Hx.
  apply exec_bind in Hx as (t1 & t2 & r & -> & Hl & Hx).
  destruct r as [[routes refs']|err]; apply exec_Ret_inv in Hx as [-> Hx]; [|done].
  injection Hx as <- <-. exists t1, routes. by rewrite app_nil_r.
Qed.

Lemma provisionTunnel_filled gw config routes refs s tr s' :
  Started gw routes refs s → c_Type (gs_acceptedCondition s) = GatewayConditionAccepted →
  c_Type (gs_programmedCondition s) = GatewayConditionProgrammed →
  exec (provisionTunnel gw config s) tr (inl s') → Filled gw routes refs s'.
Proof.
  intros (Hl & Ha & Ht) Hta Htp (Hl' & Ha' & _ & Hac & Hpc & Htu)%provisionTunnel_exec.
  unfold Filled. rewrite Hl', Ha', Hac, Hpc. split_and!; try done.
  intros t [Hs|?]%Htu; [|done]. by rewrite Ht in Hs.
Qed.

Lemma envoyStep_exec gw config addr s tr after s' :
  exec (envoyStep gw (resolveEnvoySettings config) addr s) tr (inl (after, s')) →
  gs_listeners s' = gs_listeners s ∧ gs_attachedRoutes s' = gs_attachedRoutes s ∧ gs_tunnel s' = gs_tunnel s ∧
  gs_acceptedCondition s' = gs_acceptedCondition s ∧ c_Type (gs_programmedCondition s') = GatewayConditionProgrammed ∧
  (c_Status (gs_programmedCondition s') = ConditionTrue ↔
     ∃ svc, Serves gw config tr svc) ∧
  gs_addresses s' = match omap serviceApplied tr with [(_, _, inl svc)] => serviceAddresses svc | _ => gs_addresses s end ∧
  after = match addr with inl _ => 0%Z | inr _ => retryXDSAddress end.
Proof.
  destruct addr as [addr|err]; simpl.
  - intros (t1 & t2 & r & -> & Hx & Hr)%exec_bind. destruct r as [s1|err]; apply exec_Ret_inv in Hr as [-> Hr]; [|done].
    injection Hr as <- <-. rewrite app_nil_r.
    by destruct (provisionEnvoy_exec _ _ _ _ _ _ Hx) as (? & ? & ? & ? & ? & ? & ?).
  - intros [-> Hr]%exec_Ret_inv. injection Hr as <- <-. split_and!; try done.
    simpl. split; [done|]. by intros (v & _ & _ & ? & _).
Qed.

Lemma patchStatus_disciplined gw routes refs s :
  Filled gw routes refs s → emits (Disciplined gw) (patchStatus gw s).
Proof.
  intros Hf. destruct (apply_gateway gw routes refs s gw Hf) as (gw' & He & Hm & Hl & _).
  unfold patchStatus. rewrite He. by apply emits_call.
Qed.

Lemma provisionEnvoy_disciplined gw settings addr s : emits (Disciplined gw) (provisionEnvoy gw settings addr s).
Proof.
  unfold provisionEnvoy.
  repeat first [emits_step|done|split; [done|apply deployment_careful]|split; [done|apply service_careful]].
Qed.

Lemma provisionTunnel_disciplined gw config s : emits (Disciplined gw) (provisionTunnel gw config s).
Proof.
  unfold provisionTunnel.
  repeat first [emits_step|apply emits_lift; done|done|split; [done|apply tunnel_careful]].
Qed.

Lemma provision_disciplined gw config routes refs s :
  Started gw routes refs s → c_Type (gs_acceptedCondition s) = GatewayConditionAccepted →
  emits (Disciplined gw) (provision gw config s).
Proof.
  intros Hst Hta. unfold provision. apply emits_bind; [by apply emits_call|]. intros addr.
  apply emits_bind_post.
  { destruct addr; [apply emits_bind; [apply provisionEnvoy_disciplined|]|done]. by intros [?|?]. }
  intros tr [[after s1]|err] Hx; [|done].
  apply (envoyStep_exec gw config addr) in Hx as (Hl & Ha & Ht & Hac & Htp & _).
  apply emits_bind_post; [apply provisionTunnel_disciplined|]. intros tr2 [s2|err] Hx; [|done].
  apply emits_bind; [|done]. eapply patchStatus_disciplined, provisionTunnel_filled; [| |exact Htp|exact Hx].
  - unfold Started. rewrite Hl, Ha, Ht. exact Hst.
  - by rewrite Hac.
Qed.

(** C21. A Gateway's reconciliation touches nothing but the Gateway's status and the
    objects it provisions: one Deployment and one Service named after the
    Gateway's Envoy and one tunnel of the Gateway's name, in its namespace. It
    leaves every such object that another owner, or none, controls as it is;
    what it creates or updates is controlled by the Gateway, and writing it
    again changes nothing. The status patch keeps the metadata and listeners, and
    recording the status never panics. *)
Theorem Reconcile_writes features req :
  ∃ k, Reconcile features req = Vis (GetGateway req) k ∧
    (∀ err, k (inr err) = Ret {| requeueAfter := 0; result_err := k8s_IgnoreNotFound (Some err) |}) ∧
    ∀ gw, emits (Disciplined gw) (k (inl gw)).
Proof.
  eexists. split; [reflexivity|]. split; [done|]. intros gw. cbv beta iota.
  apply emits_bind; [by apply emits_lift|]. intros [[[class|] [|]]|err]; try done.
  destruct (bool_decide _); [done|]. apply emits_bind_post; [by apply emits_lift|].
  intros tr [[m refs]|err] Hx; [|done]. apply buildGateway_load in Hx as (_ & routes & _ & -> & _).
  apply emits_bind_post; [by apply emits_lift|]. intros tr2 [s oc] Hx.
  apply accept_filled in Hx as (Hst & Hta & Hf).
  destruct oc as [config|]; [by eapply provision_disciplined|].
  apply emits_bind; [|done]. by eapply patchStatus_disciplined, Hf.
Qed.

(** ** What is reported *)

Lemma gatewayPatch_exec gw routes refs s tr err :
  Filled gw routes refs s → exec (patchStatus gw s) tr err →
  ∃ gw', tr = [Ev (PatchGatewayStatus gw gw') err] ∧ gw_StatusAddresses gw' = gs_addresses s ∧
    Reports (om_Generation (gw_ObjectMeta gw)) (gw_StatusConditions gw') GatewayConditionAccepted (gs_acceptedCondition s) ∧
    Reports (om_Generation (gw_ObjectMeta gw)) (gw_StatusConditions gw') GatewayConditionProgrammed (gs_programmedCondition s).
Proof.
  intros Hf. destruct (apply_gateway gw routes refs s gw Hf) as (gw' & He & _ & _ & Haddr & Hca & Hcp & _).
  unfold patchStatus. rewrite He. intros ->%exec_call. by exists gw'.
Qed.

Lemma omap_skip {A B} (f : A → option B) x l : f x = None → omap f ([x] ++ l) = omap f l.
Proof. intros Hx. simpl. by rewrite Hx. Qed.

(** What a served Gateway's status says, and what was written for it. *)
Lemma provision_exec gw config routes refs s tr res gw0 gw' :
  Started gw routes refs s → c_Type (gs_acceptedCondition s) = GatewayConditionAccepted →
  exec (provision gw config s) tr res → (gw0, gw') ∈ omap statusWritten tr →
  gw0 = gw ∧
  Reports (om_Generation (gw_ObjectMeta gw)) (gw_StatusConditions gw') GatewayConditionAccepted (gs_acceptedCondition s) ∧
  (∃ cP, Reports (om_Generation (gw_ObjectMeta gw)) (gw_StatusConditions gw') GatewayConditionProgrammed cP ∧
    (c_Status cP = ConditionTrue ↔ ∃ svc, Serves gw config tr svc)) ∧
  gw_StatusAddresses gw' = match omap serviceApplied tr with [(_, _, inl svc)] => serviceAddresses svc | _ => gs_addresses s end.
Proof.
  intros Hst Hta Hx Hin. unfold provision in Hx.
  apply exec_bind in Hx as (t1 & t2 & addr & -> & ->%exec_call & Hx).
  apply exec_bind in Hx as (t3 & t4 & r & -> & He & Hx).
  assert (emits EnvoyOnly (envoyStep gw (resolveEnvoySettings config) addr s)) as Heo.
  { unfold envoyStep. destruct addr; [apply emits_bind; [apply provisionEnvoy_only|]|done]. by intros [?|?]. }
  assert (∀ B (view : event GatewayE → option B), (∀ R (e : GatewayE R) r, EnvoyOnly R e → view (Ev e r) = None) →
    omap view t3 = []) as Hs1 by (intros B view Hv; eapply emits_omap; [exact Hv|exact Heo|exact He]).
  assert (omap statusWritten t3 = []) as Hsw1 by (apply Hs1; intros R e a Ho; by destruct e).
  destruct r as [[after s1]|err].
  2:{ apply exec_Ret_inv in Hx as [-> _]. rewrite app_nil_r, omap_skip, Hsw1 in Hin; [by apply elem_of_nil in Hin|done]. }
  apply (envoyStep_exec gw config addr) in He as (Hl & Ha & Ht & Hac & Htp & Hpr & Hadr & _).
  apply exec_bind in Hx as (t5 & t6 & r & -> & Htun & Hx).
  assert (∀ B (view : event GatewayE → option B), (∀ R (e : GatewayE R) r, TunnelOnly R e → view (Ev e r) = None) →
    omap view t5 = []) as Hs2.
  { intros B view Hv. eapply emits_omap; [exact Hv|apply provisionTunnel_only|exact Htun]. }
  assert (omap statusWritten t5 = [] ∧ omap deploymentApplied t5 = [] ∧ omap serviceApplied t5 = []) as (Hsw2 & Hd2 & Hv2).
  { split_and!; apply Hs2; intros R e a Ho; by destruct e. }
  destruct r as [s2|err].
  2:{ apply exec_Ret_inv in Hx as [-> _]. rewrite app_nil_r, omap_skip, omap_app, Hsw1, Hsw2 in Hin;
      [by apply elem_of_nil in Hin|done]. }
  assert (Started gw routes refs s1) as Hst1 by (unfold Started; rewrite Hl, Ha, Ht; exact Hst).
  pose proof (provisionTunnel_filled _ _ _ _ _ _ _ Hst1 ltac:(by rewrite Hac) Htp Htun) as Hf.
  apply provisionTunnel_exec in Htun as (_ & _ & Hadr2 & Hac2 & Hpc2 & _).
  apply exec_bind in Hx as (t7 & t8 & err & -> & Hp & [-> _]%exec_Ret_inv).
  destruct (gatewayPatch_exec _ _ _ _ _ _ Hf Hp) as (gw2 & -> & Haddr & HA & HP).
  rewrite app_nil_r, omap_skip, !omap_app, Hsw1, Hsw2 in Hin by done.
  apply list_elem_of_singleton in Hin as [= -> ->].
  unfold Serves in *. rewrite !omap_skip, !omap_app, Hd2, Hv2 by done. simpl. rewrite !app_nil_r.
  split_and!; [done|by rewrite <- Hac, <- Hac2| |by rewrite Haddr, Hadr2].
  exists (gs_programmedCondition s2). split; [done|]. by rewrite Hpc2.
Qed.

(** The requests of a run that writes a status. *)
Lemma gatewayReconcile_exec features req tr res gw gw' :
  exec (Reconcile features req) tr res → (gw, gw') ∈ omap statusWritten tr →
  om_DeletionTimestamp (gw_ObjectMeta gw) = None ∧
  ∃ class tl ta tr' routes refs s oc,
    tr = [Ev (GetGateway req) (inl gw); Ev (Reads _ (GetGatewayClass (gw_GatewayClassName gw))) (inl class)] ++
         (liftEvent Reads <$> tl) ++ (liftEvent Reads <$> ta) ++ tr' ∧
    gc_ControllerName class = ControllerName ∧ exec (Load gw features) tl (inl (routes, refs)) ∧
    exec (accept gw class (newGatewayStatus (Build gw routes (Some refs)))) ta (s, oc) ∧
    Started gw routes refs s ∧ (gw, gw') ∈ omap statusWritten tr' ∧
    match oc with
    | None => Filled gw routes refs s ∧ ∃ err, exec (patchStatus gw s) tr' err
    | Some config => exec (provision gw config s) tr' res
    end.
Proof.
  intros Hx Hin. apply exec_Vis_inv in Hx as (r & t2 & -> & Hx).
  change (Ev ?e ?a :: ?t) with ([Ev e a] ++ t) in Hin. rewrite omap_skip in Hin by done.
  destruct r as [gw0|err]; [|by apply exec_Ret_inv in Hx as [-> _]; apply elem_of_nil in Hin].
  apply exec_bind in Hx as (t3 & t4 & r & -> & Hc & Hx).
  rewrite omap_app, (reads_silent statusWritten _ _ _ ltac:(done) Hc) in Hin.
  apply exec_lift in Hc as (tc & -> & Hc). apply exec_Vis_inv in Hc as (cls & tc' & -> & [-> Hc]%exec_Ret_inv).
  destruct cls as [class|err]; [subst r|].
  2:{ destruct (k8s_IsNotFound err); subst r; by apply exec_Ret_inv in Hx as [-> _]; apply elem_of_nil in Hin. }
  destruct (str_eqb (gc_ControllerName class) _) eqn:Ec; [|by apply exec_Ret_inv in Hx as [-> _]; apply elem_of_nil in Hin].
  destruct (bool_decide _) eqn:Ed; [by apply exec_Ret_inv in Hx as [-> _]; apply elem_of_nil in Hin|].
  apply exec_bind in Hx as (t5 & t6 & r & -> & Hb & Hx).
  rewrite omap_app, (reads_silent statusWritten _ _ _ ltac:(done) Hb) in Hin.
  destruct r as [[m refs]|err]; [|by apply exec_Ret_inv in Hx as [-> _]; apply elem_of_nil in Hin].
  destruct (buildGateway_load _ _ _ _ _ Hb) as (tl & routes & -> & -> & Hl).
  apply exec_bind in Hx as (t7 & t8 & [s oc] & -> & Ha & Hx).
  rewrite omap_app, (reads_silent statusWritten _ _ _ ltac:(done) Ha) in Hin.
  pose proof (accept_filled _ _ _ _ _ _ _ Ha) as (Hst & Hta & Hf).
  assert (gw0 = gw) as ->.
  { symmetry. destruct oc as [config|]; [by apply (provision_exec _ _ _ _ _ _ _ _ _ Hst Hta Hx Hin)|].
    apply exec_bind in Hx as (t9 & t10 & err & -> & Hp & [-> _]%exec_Ret_inv). rewrite app_nil_r in Hin.
    destruct (gatewayPatch_exec _ _ _ _ _ _ (Hf eq_refl) Hp) as (gw2 & -> & _).
    by apply list_elem_of_singleton in Hin as [= -> _]. }
  apply exec_lift in Ha as (ta & -> & Ha). str_simpl.
  split; [by apply eq_None_not_Some, (bool_decide_eq_false _)|].
  exists class, tl, ta, t8, routes, refs, s, oc. split_and!; try done.
  destruct oc as [config|]; [exact Hx|]. split; [by apply Hf|].
  apply exec_bind in Hx as (t9 & t10 & err & -> & Hp & [-> _]%exec_Ret_inv). rewrite app_nil_r. by exists err.
Qed.

(** C22. The status a Gateway's reconciliation writes is what it found, of a Gateway
    that is not being deleted, whose class is ours. Accepted is true exactly when
    the class is accepted, its parameters name a config, which was read and
    reaches Cloudflare, no addresses are asked for and some listener is valid;
    otherwise the reason says which of these fails first, and nothing is asked
    for after that but the status. Programmed is true exactly when the Gateway is
    accepted, its config asks for replicas, its Deployment was applied and has
    replicas available, and its Service was applied and has an address; the
    addresses of a Service that was applied are then the Gateway's. *)
Theorem Reconcile_reports features req tr res gw gw' :
  exec (Reconcile features req) tr res → (gw, gw') ∈ omap statusWritten tr →
  om_DeletionTimestamp (gw_ObjectMeta gw) = None ∧
  ∃ class routes refs tl ta tr' cA cP,
    tr = [Ev (GetGateway req) (inl gw); Ev (Reads _ (GetGatewayClass (gw_GatewayClassName gw))) (inl class)] ++
         (liftEvent Reads <$> tl) ++ (liftEvent Reads <$> ta) ++ tr' ∧
    gc_ControllerName class = "cloudflare.unmango.dev/gateway-controller" ∧
    exec (Load gw features) tl (inl (routes, refs)) ∧
    conditionOf (gw_StatusConditions gw') "Accepted" = Some cA ∧ c_ObservedGeneration cA = om_Generation (gw_ObjectMeta gw) ∧
    conditionOf (gw_StatusConditions gw') "Programmed" = Some cP ∧ c_ObservedGeneration cP = om_Generation (gw_ObjectMeta gw) ∧
    ((∃ config, Acceptable gw class (Listeners gw (Some refs)) ta config ∧ c_Status cA = ConditionTrue ∧
        (c_Status cP = ConditionTrue ↔ ∃ svc, Serves gw config tr' svc) ∧
        (∀ ns name svc, omap serviceApplied tr' = [(ns, name, inl svc)] →
           ∀ a, a ∈ gw_StatusAddresses gw' ↔ AddressOf svc a)) ∨
     (Rejected gw class (Listeners gw (Some refs)) ta (c_Reason cA) ∧ c_Status cA = ConditionFalse ∧
        c_Status cP = ConditionFalse ∧ ∃ err, tr' = [Ev (PatchGatewayStatus gw gw') err])).
Proof.
  intros Hx Hin. destruct (gatewayReconcile_exec _ _ _ _ _ _ Hx Hin)
    as (Hd & class & tl & ta & tr' & routes & refs & s & oc & -> & Hcn & Hl & Ha & Hst & Hin' & Hoc).
  split; [done|]. pose proof (accept_exec _ _ _ _ _ _ Ha) as (_ & _ & _ & _ & Hta & Hdec).
  destruct (Build_lengths gw routes (Some refs)) as [Hm _]. simpl in Hm, Hdec. rewrite Hm in Hdec.
  exists class, routes, refs, tl, ta, tr'. destruct oc as [config|].
  - destruct (provision_exec _ _ _ _ _ _ _ _ _ Hst Hta Hoc Hin') as
      (_ & (cA & HcA & _ & HsA & _ & _ & HgA) & (cP0 & (cP & HcP & _ & HsP & _ & _ & HgP) & HiP) & Hadr).
    destruct Hdec as [Htrue Hac]. exists cA, cP. split_and!; try done. left. exists config.
    rewrite HsA, HsP. split_and!; try done. intros ns name svc Hs a. rewrite Hadr, Hs. apply serviceAddresses_AddressOf.
  - destruct Hoc as (Hf & err & Hp). destruct (gatewayPatch_exec _ _ _ _ _ _ Hf Hp) as (gw2 & -> & _ & HA & HP).
    apply list_elem_of_singleton in Hin' as [= ->].
    destruct HA as (cA & HcA & _ & HsA & HrA & _ & HgA), HP as (cP & HcP & _ & HsP & _ & _ & HgP).
    destruct Hdec as (_ & Hfp & Hfa & Hrej). exists cA, cP. split_and!; try done. right.
    rewrite HsA, HsP, HrA. split_and!; try done. by exists err.
Qed.
End writes.

(** ** A sample run *)

(** A Gateway of an accepted class whose parameters have a tunnel provisioned, in
    a cluster where Envoy is up. *)
Definition sampleParams : ParametersReference :=
  {| pr_Group := ParametersGroup; pr_Kind := ParametersKind; pr_Namespace := Some "infra"; pr_Name := "config" |}.

Definition servedGateway : Gateway := sampleGateway "default" "gw" [sampleListener "http" "HTTP" 80 None].

Definition envoyDeployment : Deployment :=
  {| dep_ObjectMeta := sampleMeta "default" "gw-envoy"; dep_Replicas := Some 1%Z; dep_Selector := None;
     dep_Template := emptyPodTemplate; dep_AvailableReplicas := 1 |}.

Definition gatewayAnswers (R : Type) (e : GatewayE R) : option R :=
  match e in GatewayE R return option R with
  | Reads R e => loadAnswers (sampleClass (Some sampleParams)) (sampleGatewayConfig (Some (sampleTunnelSpec [] []))) R e
  | GetGateway _ => Some (inl servedGateway)
  | ResolveXDS => Some (inl {| Host := "xds.operator.svc"; Port := 18000 |})
  | ApplyDeployment _ _ => Some (inl envoyDeployment)
  | ApplyService _ _ => Some (inl (sampleService "default" "gw-envoy" []))
  | ApplyTunnel obj _ => Some (inl obj)
  | PatchGatewayStatus _ _ => Some None
  | StatusPanic => None
  end.

Definition sampleReconcile : prog GatewayE Result :=
  @Reconcile sampleX509 sampleSelectors sampleValidation sampleSha256 sampleHelpers
    {| hostPrefix := λ ip, Some (ip +:+ "/32") |} sampleAnypb sampleCodec sampleFeatures
    {| nn_Namespace := "default"; nn_Name := "gw" |}.

Lemma Reconcile_writes_witness :
  ∃ k, sampleReconcile = Vis (GetGateway {| nn_Namespace := "default"; nn_Name := "gw" |}) k ∧
    emits (@Disciplined sampleValidation sampleSha256 sampleHelpers servedGateway) (k (inl servedGateway)).
Proof.
  destruct (@Reconcile_writes sampleX509 sampleSelectors sampleValidation sampleSha256 sampleHelpers
    {| hostPrefix := λ ip, Some (ip +:+ "/32") |} sampleAnypb sampleCodec sample_laws sample_owner_laws sampleFeatures
    {| nn_Namespace := "default"; nn_Name := "gw" |}) as (k & Hk & _ & He).
  exists k. split; [exact Hk|apply He].
Defined.

(** Envoy is reported as serving, at one address. *)
Definition reportsServing (tr : list (event GatewayE)) (res : Result) : bool :=
  match omap statusWritten tr, omap serviceApplied tr with
  | [(_, gw')], [(_, _, inl svc)] =>
    IsStatusConditionTrue (gw_StatusConditions gw') GatewayConditionProgrammed
    && Nat.eqb (length (serviceAddresses svc)) 1
  | _, _ => false
  end.

Lemma Reconcile_reports_witness :
  ∃ tr res gw gw' cP config svc tr', exec sampleReconcile tr res ∧ (gw, gw') ∈ omap statusWritten tr ∧
    conditionOf (gw_StatusConditions gw') "Programmed" = Some cP ∧ c_Status cP = ConditionTrue ∧
    gw_Addresses gw = [] ∧ @Serves sampleValidation sampleSha256 gw config tr' svc.
Proof.
  destruct (runTrace_such gatewayAnswers sampleReconcile reportsServing) as (tr & res & Hx & Ht); [by vm_compute|].
  unfold reportsServing in Ht. destruct (omap statusWritten tr) as [|[gw gw'] [|? ?]] eqn:Hw; try done.
  destruct (omap serviceApplied tr) as [|[[? ?] [svc|?]] [|? ?]] eqn:Hs; try done.
  apply andb_true_iff in Ht as [Hc _].
  assert ((gw, gw') ∈ omap statusWritten tr) as Hin by (rewrite Hw; by left).
  destruct (@Reconcile_reports _ _ _ _ _ _ _ _ sample_laws _ _ _ _ _ _ Hx Hin)
    as (_ & class & routes & refs & tl & ta & tr' & cA & cP & _ & _ & _ & _ & _ & HcP & _ & HA).
  unfold IsStatusConditionTrue in Hc. replace GatewayConditionProgrammed with "Programmed" in Hc by done.
  rewrite HcP in Hc. apply bool_decide_eq_true in Hc.
  destruct HA as [(config & Hac & _ & HP & _)|(_ & _ & HP & _)]; [|by rewrite HP in Hc].
  destruct (proj1 HP Hc) as (svc' & Hsv). exists tr, res, gw, gw', cP, config, svc', tr'.
  split_and!; [exact Hx|rewrite Hw; by left|exact HcP|exact Hc|exact (ac_addresses _ _ _ _ _ Hac)|exact Hsv].
Defined.
