(* ===== verification/Path.v ===== *)
(** * The path of a request (tunnel.go, gateway_envoy.go, translate.go, l4.go together)

    A public hostname's traffic crosses three things the operator writes from
    one list of listeners: the ingress of the tunnel, the Service in front of
    Envoy, and Envoy's configuration. Here they meet: the rule the tunnel takes
    a request with leads through a port of the Service to a port Envoy binds,
    where the routes of the listener the rule was made for take it. *)
From Stdlib Require Import Sorted.
From S2P Require Import Prelude GatewayAPI Samples Refs Routes Envoy Listeners Hosts Model API Tunnel EnvoyAPI XdsRoutes Effects Helpers Access Xds Requests Connections GatewayLoad GatewayStatus EnvoyDeploy TunnelApi TunnelCtl GatewayCtl.

(** ** The rule of a request *)

Lemma first_index {A} (f : A → bool) l x :
  List.find f l = Some x →
  ∃ i, l !! i = Some x ∧ f x = true ∧ ∀ j y, j < i → l !! j = Some y → f y = false.
Proof.
  induction l as [|a l IH]; [done|]. simpl. destruct (f a) eqn:E.
  - intros [= ->]. exists 0. split_and!; [done..|]. intros j y Hj. lia.
  - intros (i & Hi & Hx & Hmin)%IH. exists (S i). split_and!; [done..|]. intros [|j] y Hj Hy; simpl in Hy; [congruence|].
    apply (Hmin j y); [lia|done].
Qed.

Lemma find_None {A} (f : A → bool) l : List.find f l = None → ∀ x, x ∈ l → f x = false.
Proof. intros Hf x Hx%list_elem_of_In. by eapply find_none. Qed.

Lemma find_app_None {A} (f : A → bool) l1 l2 : List.find f l1 = None → List.find f (l1 ++ l2) = List.find f l2.
Proof. induction l1 as [|a l1 IH]; [done|]. simpl. by destruct (f a). Qed.

Lemma find_app_Some {A} (f : A → bool) l1 l2 x : List.find f l1 = Some x → List.find f (l1 ++ l2) = Some x.
Proof. induction l1 as [|a l1 IH]; [done|]. simpl. by destruct (f a). Qed.

(** The rules are tried in order: one without a hostname takes any host, and a
    hostname may begin with a wildcard. *)
Definition admits (host : string) (rule : CloudflareTunnelConfigIngress) : bool :=
  str_eqb (in_Hostname rule) "" || matchesHost (in_Hostname rule) host.

Definition ruleFor (host : string) (rules : list CloudflareTunnelConfigIngress) : option CloudflareTunnelConfigIngress :=
  List.find (admits host) rules.

Lemma matches_comparable p q x :
  matchesHost p x = true → matchesHost q x = true → matchesHost p q = true ∨ matchesHost q p = true.
Proof.
  intros Hp Hq.
  assert (∀ r, matchesHost r x = true → r = "*" → x = "*") as Hstar.
  { intros r Hr ->. apply matchesHost_spec in Hr as [|(rest & u & Hs & _)]; [done|done]. }
  destruct (covers_comparable p q x) as [H|H]; [apply covers_spec; by right|apply covers_spec; by right| |];
    apply covers_spec in H as [H|H]; [|by auto| |by auto].
  - pose proof (Hstar p Hp H). subst. left. by apply matchesHost_star in Hq as ->.
  - pose proof (Hstar q Hq H). subst. right. by apply matchesHost_star in Hp as ->.
Qed.

Section rule.
Context (listeners : list Listener) (tcpHostnames : gmap string string) (envoyHost host : string).

(** Listeners have no empty hostname. *)
Hypothesis named : ∀ l, l ∈ listeners → l_Hostname l ≠ Some "".

(** A claim some valid listener makes. *)
Definition claimed (c : Claim) : Prop :=
  cm_listener c ∈ listeners ∧ l_Valid (cm_listener c) = true ∧ mayClaim tcpHostnames c.

(** The claim that takes a request: its hostname covers the host, it is the
    most specific that does, and among those with the hostname it comes first. *)
Definition winning (c : Claim) : Prop :=
  claimed c ∧ matchesHost (cm_host c) host = true ∧
  (∀ d, claimed d → matchesHost (cm_host d) host = true → matchesHost (cm_host d) (cm_host c) = true) ∧
  (∀ d, claimed d → cm_host d = cm_host c → claim_le c d).

Lemma admits_claimRule c : claimed c → admits host (claimRule envoyHost c) = matchesHost (cm_host c) host.
Proof.
  intros (Hl & _ & Hm). unfold admits. simpl. rewrite (proj2 (str_eqb_neq _ _)); [done|].
  eapply mayClaim_host; [by apply named|exact Hm].
Qed.

Lemma claimed_rule d :
  claimed d → matchesHost (cm_host d) host = true →
  ∃ r, r ∈ generated listeners tcpHostnames envoyHost ∧ in_Hostname r = cm_host d ∧ admits host r = true.
Proof.
  intros (Hl & Hv & Hm) Hd. destruct (wonClaims_hosts _ _ _ Hl Hv Hm) as (d' & Hd' & Heq).
  exists (claimRule envoyHost d'). split; [apply elem_of_generated; by exists d'|]. split; [done|].
  apply elem_of_wonClaims in Hd' as (? & ? & ? & _). rewrite admits_claimRule by done. by rewrite Heq.
Qed.

(** The rule generated for a request is that of the winning claim. *)
Lemma generated_rule rule :
  ruleFor host (generated listeners tcpHostnames envoyHost) = Some rule →
  ∃ c, rule = claimRule envoyHost c ∧ winning c.
Proof.
  intros (i & Hi & Ha & Hmin)%first_index.
  pose proof Hi as (c & Hc & Hr)%list_elem_of_lookup_2%elem_of_generated.
  exists c. split; [done|]. apply elem_of_wonClaims in Hc as (Hl & Hv & Hm & Hle).
  assert (claimed c) as Hclaim by done.
  assert (matchesHost (cm_host c) host = true) as Hmatch by (rewrite <- admits_claimRule; [by rewrite <- Hr|done]).
  split_and!; [done..| |by intros d (? & ? & ?) ?; apply Hle].
  intros d Hd Hdm. destruct (claimed_rule d Hd Hdm) as (r & Hin & Hh & Har).
  apply list_elem_of_lookup in Hin as [j Hj].
  destruct (matches_comparable (cm_host c) (cm_host d) host Hmatch Hdm) as [Hcd|]; [|done].
  destruct (decide (j = i)) as [->|Hne].
  { assert (r = rule) as -> by congruence. rewrite Hr in Hh. simpl in Hh. rewrite Hh. apply matchesHost_spec. by left. }
  destruct (decide (j < i)) as [Hji|Hji]; [rewrite (Hmin j r Hji Hj) in Har; done|].
  destruct (TunnelIngress_no_shadowing listeners tcpHostnames envoyHost i j rule r) as [_ Hs].
  rewrite Hr in Hs at 2. simpl in Hs. rewrite Hh, Hcd in Hs. discriminate Hs; [done|done|lia].
Qed.

(** Without a rule of its own, a request goes to the catch-all, which is a valid
    HTTP listener without a hostname when there is one. *)
Definition anyHost (l : Listener) : bool :=
  str_eqb (l_Protocol l) HTTPProtocolType && bool_decide (l_Hostname l = None).

Lemma catchAllOf_set ls catchAll : catchAll ≠ notFoundService → catchAllOf envoyHost ls catchAll = catchAll.
Proof.
  intros Hc. unfold catchAllOf. induction ls as [|l ls IH]; [done|]. cbn [foldl].
  by rewrite (proj2 (str_eqb_neq _ _) Hc), andb_false_r.
Qed.

Lemma catchAllOf_eq ls :
  catchAllOf envoyHost ls notFoundService =
  match List.find anyHost ls with Some l => envoyURL "http" envoyHost (l_Port l) | None => notFoundService end.
Proof.
  induction ls as [|l ls IH]; [done|]. unfold catchAllOf. cbn [foldl List.find]. fold (catchAllOf envoyHost ls).
  unfold anyHost at 1. rewrite str_eqb_refl, andb_true_r. destruct (_ && _); [|done].
  apply catchAllOf_set. unfold envoyURL, notFoundService. done.
Qed.

Lemma generated_none :
  ruleFor host (generated listeners tcpHostnames envoyHost) = None →
  ∀ d, claimed d → matchesHost (cm_host d) host = false.
Proof.
  intros Hf d Hd. apply not_true_iff_false. intros Hm. destruct (claimed_rule d Hd Hm) as (r & Hin & _ & Ha).
  rewrite (find_None _ _ Hf r Hin) in Ha. done.
Qed.
End rule.

(** ** The listeners of a port *)

Section port.
Context `{X509, LabelSelectors} (gw : Gateway) (routes : list Route) (refs : References).

Let listeners := Listeners gw (Some refs).
Let m := Build gw routes (Some refs).

(** What the Gateway API schema says of a Gateway's listeners: a hostname is
    neither empty nor the bare wildcard, and ports are TCP ports. *)
Definition schemaValid : Prop :=
  ∀ ls, ls ∈ gw_Listeners gw → ls_Hostname ls ≠ Some "" ∧ ls_Hostname ls ≠ Some "*" ∧ (1 ≤ ls_Port ls ≤ 65535)%Z.

(** And of hostnames and names: none holds a vertical bar. *)
Definition plainNames : Prop :=
  (∀ ls, ls ∈ gw_Listeners gw → lacks bar (default "" (ls_Hostname ls)) = true) ∧
  (∀ r, r ∈ routes → lacks bar (Key r) = true ∧ ∀ h, h ∈ r_Hostnames r → lacks bar h = true).

Hypothesis schema : schemaValid.

Lemma Build_listeners : md_Listeners m = listeners.
Proof. unfold m, listeners. by rewrite Build_eq. Qed.

Lemma listener_schema i l :
  listeners !! i = Some l → l_Hostname l ≠ Some "" ∧ l_Hostname l ≠ Some "*" ∧ (1 ≤ l_Port l ≤ 65535)%Z.
Proof. intros [Hl _]%listener_valid. exact (schema _ (list_elem_of_lookup_2 _ _ _ Hl)). Qed.

Lemma patternOf_listener i l : listeners !! i = Some l → patternOf m i = default "*" (l_Hostname l).
Proof.
  intros Hl. pose proof (listener_schema _ _ Hl) as (Hne & _). unfold patternOf. rewrite Build_listeners, Hl. simpl.
  unfold listenerHost. destruct (l_Hostname l) as [h|]; [|done]. simpl. by rewrite (proj2 (str_eqb_neq h "")) by congruence.
Qed.

(** The valid listeners on a TCP port, by index. *)
Definition portKeyOf (p : Z) : portKey := {| pk_port := p; pk_transport := SocketAddress_TCP |}.
Definition onPort (p : Z) : list nat := default [] (byPortOf m !! portKeyOf p).

Definition overTCP (protocol : string) : Prop := protocol ≠ UDPProtocolType.

Lemma keyOf_portKey l p : keyOf l = portKeyOf p ↔ overTCP (l_Protocol l) ∧ l_Port l = p.
Proof.
  unfold keyOf, portKeyOf, overTCP. destruct (str_eqb (l_Protocol l) UDPProtocolType) eqn:E; str_simpl; naive_solver.
Qed.

Lemma elem_of_onPort p i :
  i ∈ onPort p ↔ ∃ l, listeners !! i = Some l ∧ l_Valid l = true ∧ overTCP (l_Protocol l) ∧ l_Port l = p.
Proof. unfold onPort. rewrite elem_of_byPort, Build_listeners. by setoid_rewrite keyOf_portKey. Qed.

Lemma transport_overTCP p : overTCP p → transport p = "TCP".
Proof. unfold overTCP, transport. intros Hp. by rewrite (proj2 (str_eqb_neq _ _) Hp). Qed.

(** Two listeners on a port share their protocol, and their hostnames tell them
    apart. *)
Lemma onPort_two p i j a b :
  i ∈ onPort p → j ∈ onPort p → listeners !! i = Some a → listeners !! j = Some b → i ≠ j →
  l_Protocol a = l_Protocol b ∧ hasHostnames (l_Protocol a) = true ∧ patternOf m i ≠ patternOf m j.
Proof.
  intros (a' & Ha' & Hva & Hta & Hpa)%elem_of_onPort (b' & Hb' & Hvb & Htb & Hpb)%elem_of_onPort Ha Hb Hne.
  assert (a' = a) as -> by congruence. assert (b' = b) as -> by congruence.
  destruct (valid_separated gw (Some refs) i j a b Ha Hb Hne Hva) as (Hpr & Hh & Hn);
    [congruence|by rewrite !transport_overTCP|].
  split_and!; [done..|]. rewrite (patternOf_listener _ _ Ha), (patternOf_listener _ _ Hb).
  pose proof (listener_schema _ _ Ha) as (Hae & Has & _). pose proof (listener_schema _ _ Hb) as (Hbe & Hbs & _).
  unfold hostname in Hn. destruct (l_Hostname a), (l_Hostname b); simpl in *; congruence.
Qed.

Lemma onPort_apart p i j : i ∈ onPort p → j ∈ onPort p → patternOf m i = patternOf m j → i = j.
Proof.
  intros Hi Hj Heq. destruct (decide (i = j)) as [|Hne]; [done|].
  pose proof Hi as (a & Ha & _)%elem_of_onPort. pose proof Hj as (b & Hb & _)%elem_of_onPort.
  by destruct (onPort_two p i j a b Hi Hj Ha Hb Hne) as (_ & _ & ?).
Qed.

Lemma onPort_protocol p i j a b :
  i ∈ onPort p → j ∈ onPort p → listeners !! i = Some a → listeners !! j = Some b → l_Protocol b = l_Protocol a.
Proof.
  intros Hi Hj Ha Hb. destruct (decide (i = j)) as [->|Hne]; [congruence|].
  by destruct (onPort_two p i j a b Hi Hj Ha Hb Hne) as (? & _).
Qed.

Lemma onPort_single p i j a :
  i ∈ onPort p → j ∈ onPort p → listeners !! i = Some a → hasHostnames (l_Protocol a) = false → j = i.
Proof.
  intros Hi Hj Ha Hh. destruct (decide (i = j)) as [|Hne]; [done|]. pose proof Hj as (b & Hb & _)%elem_of_onPort.
  destruct (onPort_two p i j a b Hi Hj Ha Hb Hne) as (_ & ? & _). congruence.
Qed.

(** The listener of a port that owns a host. *)
Lemma owner_is p i host :
  i ∈ onPort p → covers (patternOf m i) host →
  (∀ j, j ∈ onPort p → covers (patternOf m j) host → covers (patternOf m j) (patternOf m i)) →
  owningListener m (onPort p) host = Some i.
Proof.
  intros Hi Hc Hmost. destruct (owningListener m (onPort p) host) as [o|] eqn:E.
  2:{ by destruct (proj1 (owningListener_None _ _ _) E i Hi). }
  destruct (owningListener_Some _ _ _ _ E) as (Ho & Hoc & Homost). f_equal.
  apply (onPort_apart p); [done|done|]. apply covers_antisymm; [apply listenerHost_ne..|by apply Hmost|by apply Homost].
Qed.

Lemma onPort_first p i :
  i ∈ onPort p → ∃ first rest l, byPortOf m !! portKeyOf p = Some (first :: rest) ∧ onPort p = first :: rest ∧
    md_Listeners m !! first = Some l ∧ first ∈ onPort p.
Proof.
  intros Hi. unfold onPort in *. destruct (byPortOf m !! portKeyOf p) as [[|first rest]|] eqn:E; simpl in Hi;
    [by apply not_elem_of_nil in Hi| |by apply not_elem_of_nil in Hi].
  simpl. destruct (byPortOf_spec m _ _ E) as [_ Hall]. destruct (Hall first) as (l & Hl & _); [by left|].
  exists first, rest, l. by split_and!; [| | |left].
Qed.
End port.

(** ** The way in *)

(** The rules of a tunnel's spec: the template's are written by hand. *)
Definition rulesOf (template : CloudflareTunnelSpec) : list CloudflareTunnelConfigIngress :=
  from_option tc_Ingress [] (t_Config template).

Section path.
Context `{Validation, X509, LabelSelectors, Anypb, MapOrder}.
Context (gw : Gateway) (routes : list Route) (refs : References) (settings : envoySettings).
Context (resources : Resources) (svc : Service) (envoyHost : string) (tcpHostnames : gmap string string).

Let listeners := Listeners gw (Some refs).
Let m := Build gw routes (Some refs).
Let ids := onPort gw routes refs.

(** The Service as the operator writes it. *)
Definition envoyService : Service := mutateEnvoyService gw settings (gatewayPorts gw refs) svc.

Lemma servicePort_for l :
  l ∈ listeners → l_Valid l = true →
  ∃ port, port ∈ svc_Ports envoyService ∧ servicePortKey port = (l_Port l, portProtocol (l_Protocol l)) ∧
    sp_TargetPort port = ContainerPort (l_Port l).
Proof.
  intros Hl Hv. destruct (servicePorts_spec listeners ∅) as (_ & Hk & Hp).
  assert ((l_Port l, portProtocol (l_Protocol l)) ∈ servicePortKey <$> servicePorts listeners ∅) as Hin.
  { apply Hk. split; [done|]. by exists l. }
  apply list_elem_of_fmap in Hin as (q & Hq & Hin).
  exists (withNodePort (es_ServiceType settings) (allocatedNodePorts (svc_Ports svc)) q).
  rewrite withNodePort_key, withNodePort_target. split_and!; [|done|].
  - unfold envoyService, mutateEnvoyService. destruct (infrastructureMeta gw). simpl. by apply list_elem_of_fmap_2.
  - destruct (Hp q Hin) as (l' & _ & _ & ->). injection Hq as -> _. done.
Qed.

(** A port of the Service that leads to a listener of Envoy. *)
Definition leadsTo (p : Z) (el : EnvoyListener) : Prop :=
  ∃ port, port ∈ svc_Ports envoyService ∧ sp_Port port = p ∧ sp_Protocol port = ProtocolTCP ∧
    el ∈ rs_Listeners resources ∧ el_Address el = socketAddress "0.0.0.0" (sp_TargetPort port).

Hypothesis schema : schemaValid gw.
Hypothesis translated : translate m (Some refs) = inl resources.

Lemma leadsTo_listener i l el :
  listeners !! i = Some l → l_Valid l = true → overTCP (l_Protocol l) →
  el ∈ rs_Listeners resources → el_Address el = addressOf (portKeyOf (l_Port l)) → leadsTo (l_Port l) el.
Proof.
  intros Hl Hv Ht Hel Ha. destruct (servicePort_for l) as (port & Hport & Hk & Htarget);
    [by eapply list_elem_of_lookup_2|done|].
  exists port. injection Hk as Hk1 Hk2. split_and!; [done..| |done|].
  - rewrite Hk2. unfold portProtocol. by rewrite (proj2 (str_eqb_neq _ _) Ht).
  - rewrite Ha, Htarget. unfold addressOf, socketAddress. simpl. f_equal.
    eapply valid_port_bound; [|exact Hl]. intros ls Hls. by apply schema.
Qed.

(** The rules that take the requests for a host that reach a port over http, in
    the order they are tried. *)
Definition routedBy (p : Z) (host : string) (rc : RouteConfiguration) : Prop :=
  (∃ vh, vh ∈ rc_VirtualHosts rc ∧ mostSpecific (vh_Name <$> rc_VirtualHosts rc) host (vh_Name vh)) ∧
  ∀ vh, vh ∈ rc_VirtualHosts rc → mostSpecific (vh_Name <$> rc_VirtualHosts rc) host (vh_Name vh) →
    ∃ es, vh_Routes vh = envoyRouteOf <$> es ∧ StronglySorted (cmp_le compareEntries) es ∧
      NoDup (addedKey <$> es) ∧ (∀ e, e ∈ es → takes m (ids p) host e) ∧
      (∀ e, takes m (ids p) host e → ∃ e', e' ∈ es ∧ addedKey e' = addedKey e).

Definition httpPath (i : nat) (l : Listener) (host : string) : Prop :=
  owningListener m (ids (l_Port l)) host = Some i ∧
  ∃ el rc, leadsTo (l_Port l) el ∧ rc ∈ rs_Routes resources ∧ listenerRds el = [rc_Name rc] ∧
    ∀ e, takes m (ids (l_Port l)) host e → routedBy (l_Port l) host rc.

Definition tlsPath (i : nat) (l : Listener) (host : string) : Prop :=
  owningListener m (ids (l_Port l)) host = Some i ∧
  ∀ h r, servesAt m i h r → covers h host → ∃ el name, leadsTo (l_Port l) el ∧
    (∃ chain, chain ∈ el_FilterChains el ∧ mostSpecific (fc_Name <$> el_FilterChains el) host (fc_Name chain)) ∧
    ∀ chain, chain ∈ el_FilterChains el → mostSpecific (fc_Name <$> el_FilterChains el) host (fc_Name chain) →
      ∃ route, takesConnection m (ids (l_Port l)) i host (fc_Name chain) route ∧
        chainFor name m i (fc_Name chain) route chain.

Definition tcpPath (i : nat) (l : Listener) : Prop :=
  ∀ h r, servesAt m i h r → ∃ el chain name route, leadsTo (l_Port l) el ∧ el_FilterChains el = [chain] ∧
    fc_ServerNames chain = None ∧ chainMessages chain = [TcpProxy name (streamTo (backendsOf route))] ∧
    attachedAtListener m i route ∧ (∀ r', attachedAtListener m i r' → cmp_le compareAge route r').

(** What the translation gives the port of a listener. *)
Lemma translated_port i l :
  listeners !! i = Some l → l_Valid l = true → overTCP (l_Protocol l) →
  ∃ first rest lf st st', ids (l_Port l) = first :: rest ∧ byPortOf m !! portKeyOf (l_Port l) = Some (first :: rest) ∧
    md_Listeners m !! first = Some lf ∧ l_Protocol lf = l_Protocol l ∧
    i ∈ ids (l_Port l) ∧ first ∈ ids (l_Port l) ∧
    translatePort m st (portKeyOf (l_Port l)) = inl st' ∧
    (∀ el, el ∈ xs_Listeners st' → el ∈ rs_Listeners resources) ∧
    (∀ rc, rc ∈ xs_Routes st' → rc ∈ rs_Routes resources).
Proof.
  intros Hl Hv Ht. assert (i ∈ ids (l_Port l)) as Hi by (apply elem_of_onPort; by exists l).
  destruct (onPort_first gw routes refs (l_Port l) i Hi) as (first & rest & lf & Hby & Hids & Hlf & Hf).
  destruct (translate_at m (Some refs) resources (portKeyOf (l_Port l)) translated) as (st & st' & Hst & Hls & Hrs);
    [by unfold m; rewrite Hby|].
  exists first, rest, lf, st, st'. split_and!; [done..| | | | | |]; try done.
  rewrite Build_listeners in Hlf. by eapply (onPort_protocol gw routes refs schema _ i first).
Qed.

Lemma onPort_hostnames p i l :
  i ∈ ids p → listeners !! i = Some l → hasHostnames (l_Protocol l) = true →
  ∀ j l', j ∈ ids p → md_Listeners m !! j = Some l' → hasHostnames (l_Protocol l') = true.
Proof.
  intros Hi Hl Hh j l' Hj Hl'. unfold m in Hl'. rewrite Build_listeners in Hl'.
  by rewrite (onPort_protocol gw routes refs schema p i j l l' Hi Hj Hl Hl').
Qed.

Hypothesis plain : plainNames gw routes.

Lemma http_path i l host :
  listeners !! i = Some l → l_Valid l = true → l_Protocol l = HTTPProtocolType →
  owningListener m (ids (l_Port l)) host = Some i → httpPath i l host.
Proof.
  intros Hl Hv Hp Ho. split; [done|]. assert (overTCP (l_Protocol l)) as Ht by by rewrite Hp.
  destruct (translated_port i l Hl Hv Ht) as (first & rest & lf & st & st' & Hids & Hby & Hlf & Hpf & Hi & Hf & Hst & Hls & Hrs).
  destruct (translatePort_http m st _ st' first rest lf Hst Hby Hlf) as (clusters & el & Hrc & Hel & Ha & Hrds); [congruence|].
  eexists el, _. split; [eapply leadsTo_listener; eauto|]. split; [by apply Hrs|].
  split; [rewrite Hrds, routeConfiguration_eq; done|].
  intros e He. rewrite <- Hids. eapply request_routed; [intros ?; by apply Build_plain; apply plain| | |done].
  - apply (onPort_hostnames _ i l Hi Hl). by rewrite Hp.
  - apply (onPort_apart gw routes refs schema).
Qed.

Lemma servesAt_within p i l :
  i ∈ ids p → listeners !! i = Some l → hasHostnames (l_Protocol l) = true →
  ∀ j h route, j ∈ ids p → servesAt m j h route → covers (patternOf m j) h.
Proof.
  intros Hi Hl Hh j h route Hj [Hr Hs]. unfold hostsAt in Hs.
  apply list_elem_of_bind in Hs as (parent & Hs & Hparent).
  destruct (pa_Hostnames parent !! j) as [hosts|] eqn:E; [|by apply not_elem_of_nil in Hs].
  destruct (Build_parent gw routes (Some refs) route parent j hosts Hr Hparent E) as (l' & Hl' & -> & _).
  unfold patternOf, m. rewrite Hl'. simpl. eapply servedHosts_within; [|exact Hs].
  by eapply (onPort_hostnames p i l Hi Hl Hh j).
Qed.

Lemma tls_path i l host :
  listeners !! i = Some l → l_Valid l = true → l_Protocol l = TLSProtocolType →
  owningListener m (ids (l_Port l)) host = Some i → tlsPath i l host.
Proof.
  intros Hl Hv Hp Ho. split; [done|]. intros h r Hr Hc. assert (overTCP (l_Protocol l)) as Ht by by rewrite Hp.
  destruct (translated_port i l Hl Hv Ht) as (first & rest & lf & st & st' & Hids & Hby & Hlf & Hpf & Hi & Hf & Hst & Hls & Hrs).
  destruct (translatePort_tls m st _ st' first rest lf Hst Hby Hlf) as (clusters & ol & cl' & Htls & Hel); [congruence|].
  rewrite <- Hids in Htls.
  destruct (connection_routed m (ids (l_Port l)) (onPort_apart gw routes refs schema _)
    (servesAt_within _ i l Hi Hl ltac:(by rewrite Hp)) _ _ _ _ _ i host h r Htls Ho Hr Hc) as [Hex Hall].
  destruct ol as [el|]; [|by destruct Hex as (chain & ?%not_elem_of_nil & _)].
  destruct (Hel el eq_refl) as [Hin Ha]. exists el, ("tls-" +:+ fmt_d (l_Port l)).
  split; [eapply leadsTo_listener; eauto|]. by split.
Qed.

Lemma tcp_path i l :
  listeners !! i = Some l → l_Valid l = true → l_Protocol l = TCPProtocolType → tcpPath i l.
Proof.
  intros Hl Hv Hp h r Hr. assert (overTCP (l_Protocol l)) as Ht by by rewrite Hp.
  destruct (translated_port i l Hl Hv Ht) as (first & rest & lf & st & st' & Hids & Hby & Hlf & Hpf & Hi & Hf & Hst & Hls & Hrs).
  assert (first = i) as -> by (eapply (onPort_single gw routes refs schema _ i first l); [done..|by rewrite Hp]).
  destruct (translatePort_tcp m st _ st' i rest lf Hst Hby Hlf) as (el & chain & route & Hel & Ha & Hch & Hsn & Hms & Hat & Hold);
    [congruence|by exists h, r|].
  exists el, chain, ("tcp-" +:+ fmt_d (l_Port l)), route. split; [eapply leadsTo_listener; eauto|]. by split_and!.
Qed.

(** ** The listener of a rule *)

Lemma listeners_named l : l ∈ listeners → l_Hostname l ≠ Some "".
Proof. intros (i & Hl)%list_elem_of_lookup. by destruct (listener_schema gw refs schema i l Hl). Qed.

Lemma covers_pattern i l host :
  listeners !! i = Some l → covers (patternOf m i) host →
  l_Hostname l = None ∨ ∃ h, l_Hostname l = Some h ∧ patternOf m i = h ∧ matchesHost h host = true.
Proof.
  intros Hl. unfold m. rewrite (patternOf_listener gw routes refs schema i l Hl).
  destruct (listener_schema gw refs schema i l Hl) as (_ & Hs & _).
  destruct (l_Hostname l) as [h|]; [|by left]. simpl. intros Hc. right. exists h. split_and!; [done..|].
  by apply covers_spec in Hc as [->|].
Qed.

(** An HTTP listener that takes a host more precisely than any other of the
    Gateway, and on the lowest port. *)
Definition bestHTTP (i : nat) (l : Listener) (host : string) : Prop :=
  covers (patternOf m i) host ∧
  ∀ j l', listeners !! j = Some l' → l_Valid l' = true → l_Protocol l' = HTTPProtocolType →
    covers (patternOf m j) host → covers (patternOf m j) (patternOf m i) ∧
    (patternOf m j = patternOf m i → (l_Port l ≤ l_Port l')%Z).

Lemma httpClaim_claimed l h :
  l ∈ listeners → l_Valid l = true → l_Protocol l = HTTPProtocolType → l_Hostname l = Some h →
  claimed listeners tcpHostnames {| cm_http := true; cm_host := h; cm_listener := l |}.
Proof. intros Hl Hv Hp Hh. split_and!; [done..|]. left. by apply httpClaim_Some. Qed.

Lemma tlsClaim_claimed l h :
  l ∈ listeners → l_Valid l = true → l_Protocol l = TLSProtocolType → l_Hostname l = Some h → h ≠ "" →
  claimed listeners tcpHostnames {| cm_http := false; cm_host := h; cm_listener := l |}.
Proof.
  intros Hl Hv Hp Hh Hne. split_and!; [done..|]. right. apply tcpClaim_Some. split_and!; [done..| |done].
  unfold tcpHost. simpl. by rewrite Hp, Hh.
Qed.

Lemma http_winner c host :
  winning listeners tcpHostnames host c → cm_http c = true →
  let l := cm_listener c in l_Protocol l = HTTPProtocolType ∧ l_Valid l = true ∧
  ∃ i, listeners !! i = Some l ∧ bestHTTP i l host.
Proof.
  intros ((Hl & Hv & Hm) & Hmatch & Hmost & Hfirst) Hhttp l.
  destruct Hm as [(_ & _ & Hp & Hh)%httpClaim_Some|(? & _)%tcpClaim_Some]; [|congruence].
  split_and!; [done..|]. apply list_elem_of_lookup in Hl as [i Hi]. exists i. split; [done|].
  assert (patternOf m i = cm_host c) as Hpat
    by (unfold m; rewrite (patternOf_listener gw routes refs schema i _ Hi), Hh; done).
  split; [rewrite Hpat; apply covers_spec; by right|].
  intros j l' Hj Hv' Hp' Hc. destruct (covers_pattern j l' host Hj Hc) as [Hnone|(h & Hh' & Hpj & Hmj)].
  - unfold m. rewrite (patternOf_listener gw routes refs schema j l' Hj), Hnone. simpl. split; [apply covers_spec; by left|].
    intros Heq. fold m in Heq. rewrite Hpat in Heq. destruct (listener_schema gw refs schema i _ Hi) as (_ & Hs & _).
    congruence.
  - pose proof (httpClaim_claimed l' h (list_elem_of_lookup_2 _ _ _ Hj) Hv' Hp' Hh') as Hclaim.
    rewrite Hpj, Hpat. split; [apply covers_spec; right; exact (Hmost _ Hclaim Hmj)|].
    intros ->. destruct (Hfirst _ Hclaim eq_refl) as [[_ ?]|[_ ?]]; done.
Qed.

(** The best HTTP listener is the one that owns the host on its port. *)
Lemma bestHTTP_owner i l host :
  listeners !! i = Some l → l_Valid l = true → l_Protocol l = HTTPProtocolType → bestHTTP i l host →
  owningListener m (ids (l_Port l)) host = Some i.
Proof.
  intros Hl Hv Hp [Hc Hbest]. assert (i ∈ ids (l_Port l)) as Hi by (apply elem_of_onPort; exists l; by rewrite Hp).
  apply (owner_is gw routes refs schema); [done|done|]. intros j Hj Hcj.
  pose proof Hj as (l' & Hl' & Hv' & _ & Hport)%elem_of_onPort.
  apply (Hbest j l' Hl' Hv'); [|done]. by rewrite (onPort_protocol gw routes refs schema _ i j l l' Hi Hj Hl Hl').
Qed.

Lemma tls_winner c host :
  winning listeners tcpHostnames host c → cm_http c = false → l_Protocol (cm_listener c) = TLSProtocolType →
  ∃ i, listeners !! i = Some (cm_listener c) ∧ owningListener m (ids (l_Port (cm_listener c))) host = Some i.
Proof.
  intros ((Hl & Hv & Hm) & Hmatch & Hmost & _) Hhttp Hp. set (l := cm_listener c) in *.
  destruct Hm as [(? & _)%httpClaim_Some|(_ & _ & Hh & Hne)%tcpClaim_Some]; [congruence|].
  unfold tcpHost in Hh. fold l in Hh. rewrite Hp in Hh. simpl in Hh.
  assert (l_Hostname l = Some (cm_host c)) as Hhost by (destruct (l_Hostname l); simpl in Hh; congruence).
  apply list_elem_of_lookup in Hl as [i Hi]. exists i. split; [done|].
  assert (patternOf m i = cm_host c) as Hpat
    by (unfold m; rewrite (patternOf_listener gw routes refs schema i _ Hi), Hhost; done).
  assert (i ∈ ids (l_Port l)) as Hin by (apply elem_of_onPort; exists l; by rewrite Hp).
  apply (owner_is gw routes refs schema); [done|fold m; rewrite Hpat; apply covers_spec; by right|].
  intros j Hj Hcj. pose proof Hj as (l' & Hl' & Hv' & _)%elem_of_onPort.
  destruct (covers_pattern j l' host Hl' Hcj) as [Hnone|(h & Hh' & Hpj & Hmj)].
  - rewrite (patternOf_listener gw routes refs schema j l' Hl'), Hnone. apply covers_spec. by left.
  - fold m. rewrite Hpj, Hpat. apply covers_spec. right.
    apply (Hmost {| cm_http := false; cm_host := h; cm_listener := l' |}); [|done].
    apply tlsClaim_claimed; [by eapply list_elem_of_lookup_2|done| |done|].
    + by rewrite (onPort_protocol gw routes refs schema _ i j l l' Hin Hj Hi Hl').
    + destruct (listener_schema gw refs schema j l' Hl') as (? & _). congruence.
Qed.

(** The listener of the catch-all. *)
Lemma anyHost_best l host :
  List.find anyHost (validByPort listeners) = Some l →
  (∀ d, claimed listeners tcpHostnames d → matchesHost (cm_host d) host = false) →
  l_Protocol l = HTTPProtocolType ∧ l_Valid l = true ∧ ∃ i, listeners !! i = Some l ∧ bestHTTP i l host.
Proof.
  intros (k & Hk & [Hp Hnone]%andb_true_iff & Hfirst)%first_index Hnorule. str_simpl.
  apply bool_decide_eq_true in Hnone.
  assert (∀ x, x ∈ validByPort listeners ↔ x ∈ listeners ∧ l_Valid x = true) as Hvp.
  { intros x. unfold validByPort. rewrite elem_of_sort_by, list_elem_of_filter. tauto. }
  pose proof (list_elem_of_lookup_2 _ _ _ Hk) as [Hl Hv]%Hvp. split_and!; [done..|].
  apply list_elem_of_lookup in Hl as [i Hi]. exists i. split; [done|].
  assert (patternOf m i = "*") as Hpat
    by (unfold m; rewrite (patternOf_listener gw routes refs schema i _ Hi), Hnone; done).
  split; [rewrite Hpat; apply covers_spec; by left|].
  intros j l' Hj Hv' Hp' Hc. destruct (covers_pattern j l' host Hj Hc) as [Hn'|(h & Hh' & Hpj & Hmj)].
  2:{ pose proof (httpClaim_claimed l' h (list_elem_of_lookup_2 _ _ _ Hj) Hv' Hp' Hh') as Hclaim.
      specialize (Hnorule _ Hclaim). simpl in Hnorule. congruence. }
  assert (patternOf m j = "*") as Hpatj
    by (unfold m; rewrite (patternOf_listener gw routes refs schema j _ Hj), Hn'; done).
  split; [rewrite Hpatj; apply covers_spec; by left|]. intros _.
  assert (l' ∈ validByPort listeners) as Hin by (apply Hvp; split; [by eapply list_elem_of_lookup_2|done]).
  apply list_elem_of_lookup in Hin as [k' Hk'].
  destruct (decide (k' < k)) as [Hlt|Hge].
  { specialize (Hfirst k' l' Hlt Hk'). unfold anyHost in Hfirst. rewrite Hp', Hn' in Hfirst. done. }
  destruct (decide (k' = k)) as [->|Hne]; [assert (l' = l) as -> by congruence; lia|].
  apply Z.compare_le_iff. apply (StronglySorted_lookup (cmp_le (cmp_on l_Port Z.compare)) (validByPort listeners) k k' l l');
    [apply (sort_by_sorted (cmp_on l_Port Z.compare))|done|done|lia].
Qed.

(** Where the rule of a request leads. *)
Definition overHTTP (rule : CloudflareTunnelConfigIngress) (host : string) (i : nat) (l : Listener) : Prop :=
  l_Protocol l = HTTPProtocolType ∧ in_Service rule = envoyURL "http" envoyHost (l_Port l) ∧
  bestHTTP i l host ∧ httpPath i l host.

Definition overTLS (rule : CloudflareTunnelConfigIngress) (host : string) (i : nat) (l : Listener) : Prop :=
  l_Protocol l = TLSProtocolType ∧ in_Service rule = envoyURL "tcp" envoyHost (l_Port l) ∧ tlsPath i l host.

Definition overStream (rule : CloudflareTunnelConfigIngress) (host : string) (i : nat) (l : Listener) : Prop :=
  l_Protocol l = TCPProtocolType ∧ in_Service rule = envoyURL "tcp" envoyHost (l_Port l) ∧
  (∃ h, tcpHostnames !! l_Name l = Some h ∧ matchesHost h host = true) ∧ tcpPath i l.

Lemma winner_path c host :
  winning listeners tcpHostnames host c →
  ∃ i l, listeners !! i = Some l ∧ l_Valid l = true ∧
    (overHTTP (claimRule envoyHost c) host i l ∨ overTLS (claimRule envoyHost c) host i l ∨
     overStream (claimRule envoyHost c) host i l).
Proof.
  intros Hw. pose proof Hw as ((Hl & Hv & Hm) & Hmatch & _). destruct (cm_http c) eqn:Eh.
  - destruct (http_winner c host Hw Eh) as (Hp & _ & i & Hi & Hbest). exists i, (cm_listener c).
    split_and!; [done..|]. left. split_and!; [done|by unfold claimRule; rewrite Eh|done|].
    apply http_path; [done..|]. by apply bestHTTP_owner.
  - pose proof Hm as [(? & _)%httpClaim_Some|(_ & _ & Hh & Hne)%tcpClaim_Some]; [congruence|].
    unfold tcpHost in Hh. destruct (str_eqb (l_Protocol (cm_listener c)) TLSProtocolType) eqn:E1; str_simpl.
    + destruct (tls_winner c host Hw Eh E1) as (i & Hi & Ho). exists i, (cm_listener c).
      split_and!; [done..|]. right. left. split_and!; [done|by unfold claimRule; rewrite Eh|]. by apply tls_path.
    + destruct (str_eqb (l_Protocol (cm_listener c)) TCPProtocolType) eqn:E2; str_simpl; [|done].
      apply list_elem_of_lookup in Hl as [i Hi]. exists i, (cm_listener c). split_and!; [done..|]. right. right.
      split_and!; [done|by unfold claimRule; rewrite Eh| |by apply tcp_path].
      exists (cm_host c). split; [|done]. destruct (tcpHostnames !! _); simpl in Hh; congruence.
Qed.

Lemma ingress_path handwritten host deploy bootstrap :
  ruleFor host (keptHandwritten handwritten) = None →
  ∃ rule, ruleFor host (TunnelIngress handwritten listeners tcpHostnames envoyHost) = Some rule ∧
    ((in_Service rule = notFoundService ∧
      ∀ i l, listeners !! i = Some l → l_Valid l = true → l_Protocol l = HTTPProtocolType →
        ¬ covers (patternOf m i) host) ∨
     ∃ i l, listeners !! i = Some l ∧ l_Valid l = true ∧
       (overHTTP rule host i l ∨ overTLS rule host i l ∨ overStream rule host i l)) ∧
    svc_Selector envoyService ⊆ pt_Labels (dep_Template (mutateEnvoyDeployment gw settings bootstrap deploy)).
Proof.
  intros Hkept. rewrite TunnelIngress_eq. unfold ruleFor in *. rewrite find_app_None by done.
  assert (svc_Selector envoyService ⊆ pt_Labels (dep_Template (mutateEnvoyDeployment gw settings bootstrap deploy))) as Hsel.
  { unfold envoyService, mutateEnvoyService, mutateEnvoyDeployment. pose proof (infrastructure_labels gw) as Hi.
    destruct (infrastructureMeta gw) as [labels annotations]. simpl in *. unfold mergeOwned.
    etrans; [apply SelectorLabels_Labels|]. etrans; [exact Hi|apply map_union_subseteq_l]. }
  destruct (List.find (admits host) (generated listeners tcpHostnames envoyHost)) as [rule|] eqn:Eg.
  - rewrite (find_app_Some _ _ _ _ Eg). exists rule. split_and!; [done| |done]. right.
    destruct (generated_rule listeners tcpHostnames envoyHost host listeners_named rule Eg) as (c & -> & Hw).
    by apply winner_path.
  - rewrite find_app_None by done. simpl.
    pose proof (generated_none listeners tcpHostnames envoyHost host listeners_named Eg) as Hnone.
    eexists. split_and!; [done| |done]. simpl. unfold tunnelCatchAll. rewrite catchAllOf_eq.
    destruct (List.find anyHost (validByPort listeners)) as [l|] eqn:Ea.
    + destruct (anyHost_best l host Ea Hnone) as (Hp & Hv & i & Hi & Hbest). right. exists i, l.
      split_and!; [done..|]. left. split_and!; [done..|]. apply http_path; [done..|]. by apply bestHTTP_owner.
    + left. split; [done|]. intros i l Hl Hv Hp Hc.
      destruct (covers_pattern i l host Hl Hc) as [Hn|(h & Hh & _ & Hm)].
      * assert (anyHost l = false) as Hf.
        { apply (find_None _ _ Ea). unfold validByPort. rewrite elem_of_sort_by, list_elem_of_filter.
          split; [done|by eapply list_elem_of_lookup_2]. }
        unfold anyHost in Hf. by rewrite Hp, Hn in Hf.
      * pose proof (httpClaim_claimed l h (list_elem_of_lookup_2 _ _ _ Hl) Hv Hp Hh) as Hclaim.
        specialize (Hnone _ Hclaim). simpl in Hnone. congruence.
Qed.
End path.

(** C1. A request for a public hostname finds its way through all that the
    operator writes. Unless a hand-written rule takes its host, the first rule of
    the tunnel's ingress that does is a 404, and then no valid HTTP listener
    covers the host, or it names a port of Envoy's
    Service that leads to an address Envoy binds: for an HTTP listener, the one
    of the Gateway that covers the host most precisely, whose routes Envoy then
    tries, all of them and no others, in Gateway API precedence, as long as some
    route attached to it serves the host; for a TLS listener, to the chain of the
    oldest route with the most specific hostname; for a TCP listener an
    annotation names, to its oldest route. The Service selects Envoy's pods. *)
Theorem request_path `{Validation, Sha256, Netip, X509, LabelSelectors, Anypb, MapOrder}
    gw routes refs settings resources svc deploy bootstrap template clusterIPs host :
  schemaValid gw → plainNames gw routes →
  let listeners := Listeners gw (Some refs) in
  let m := Build gw routes (Some refs) in
  let envoyHost := EnvoyObjectName gw +:+ "." +:+ gw_Namespace gw +:+ ".svc" in
  translate m (Some refs) = inl resources →
  (∀ r, r ∈ rulesOf template → isCatchAll r = false → admits host r = false) →
  ∃ rule, ruleFor host (rulesOf (templateSpec gw listeners clusterIPs template)) = Some rule ∧
    ((in_Service rule = notFoundService ∧
      ∀ i l, listeners !! i = Some l → l_Valid l = true → l_Protocol l = HTTPProtocolType →
        ¬ covers (patternOf m i) host) ∨
     ∃ i l, listeners !! i = Some l ∧ l_Valid l = true ∧
       (overHTTP gw routes refs settings resources svc envoyHost rule host i l ∨
        overTLS gw routes refs settings resources svc envoyHost rule host i l ∨
        overStream gw routes refs settings resources svc envoyHost (TunnelHostnames gw) rule host i l)) ∧
    svc_Selector (envoyService gw refs settings svc)
      ⊆ pt_Labels (dep_Template (mutateEnvoyDeployment gw settings bootstrap deploy)).
Proof.
  intros Hschema Hplain listeners m envoyHost Ht Hhand. unfold templateSpec, rulesOf at 1. cbn [t_Config tc_Ingress].
  apply (ingress_path gw routes refs settings resources svc envoyHost (TunnelHostnames gw) Hschema Ht Hplain).
  destruct (ruleFor host _) as [r|] eqn:E; [|done]. apply first_index in E as (k & Hk & Ha & _).
  apply list_elem_of_lookup_2, list_elem_of_filter in Hk as [Hc Hin]. by rewrite (Hhand r Hin Hc) in Ha.
Qed.

(** ** Witness *)

(** A wildcard and, on another port, a hostname under it. *)
Definition pathGateway : Gateway :=
  sampleGateway "infra" "gw"
    [sampleListener "wide" "HTTP" 80 (Some "*.example.com"); sampleListener "app" "HTTP" 8080 (Some "a.example.com")].

Definition pathTemplate : CloudflareTunnelSpec :=
  {| t_AccountId := "account"; t_Cloudflared := None;
     t_Config := Some {| tc_Ingress := [ingressRule "legacy.example.com" "http://legacy:80"];
                         tc_OriginRequest := emptyOriginRequest; tc_WarpRouting := None |};
     t_ConfigSource := ""; t_Dns := None; t_Name := ""; t_Routes := []; t_TunnelSecret := None |}.

Definition pathResources : Resources :=
  match @translate sampleAnypb sampleOrder (@Build sampleX509 sampleSelectors pathGateway modelRoutes (Some modelRefs)) (Some modelRefs) with
  | inl r => r
  | inr _ => {| rs_Listeners := []; rs_Routes := []; rs_Clusters := []; rs_Endpoints := [] |}
  end.

Lemma request_path_witness :
  ∃ rule i l, in_Service rule = "http://gw-envoy.infra.svc:8080" ∧
    @overHTTP sampleValidation sampleX509 sampleSelectors pathGateway modelRoutes modelRefs sampleEnvoySettings pathResources
      sampleEnvoyService "gw-envoy.infra.svc" rule "a.example.com" i l.
Proof.
  destruct (@request_path sampleValidation sampleSha256 {| hostPrefix := Some |} sampleX509 sampleSelectors sampleAnypb sampleOrder
    pathGateway modelRoutes modelRefs sampleEnvoySettings pathResources sampleEnvoyService
    (emptyDeployment "infra" "gw-envoy") "" pathTemplate [] "a.example.com") as (rule & Hrule & Hpath & _).
  - unfold schemaValid. apply Forall_forall. repeat constructor; discriminate.
  - split.
    + apply Forall_forall. repeat constructor.
    + apply Forall_forall. repeat (constructor; [split; [by vm_compute|apply Forall_forall; repeat constructor]|]). constructor.
  - vm_compute. reflexivity.
  - intros r [->|Hr%not_elem_of_nil]%elem_of_cons; [by vm_compute|done].
  - assert (in_Service rule = "http://gw-envoy.infra.svc:8080") as Hs.
    { vm_compute in Hrule. by injection Hrule as <-. }
    destruct Hpath as [[Hn _]|(i & l & _ & _ & [Hh|[(_ & Ht & _)|(_ & Ht & _)]])].
    + by rewrite Hs in Hn.
    + exists rule, i, l. split; [exact Hs|exact Hh].
    + by rewrite Hs in Ht.
    + by rewrite Hs in Ht.
Defined.
