(* ===== verification/XdsCtl.v ===== *)
(** * The xDS controller (internal/controller/gateway_xds_controller.go, and
      Snapshot and hash of internal/xds/translate.go)

    What each Envoy is served: the snapshot kept under its node in the cache of
    go-control-plane. The cache and its snapshots are the library's; what the
    controller does to it are requests. *)
From S2P Require Import Prelude GatewayAPI Samples Effects Helpers Access Refs Routes Envoy Listeners Hosts Model API EnvoyAPI XdsRoutes Xds TunnelApi Bootstrap GatewayLoad EnvoyDeploy GatewayCtl.

Definition ClusterType := "type.googleapis.com/envoy.config.cluster.v3.Cluster".
Definition EndpointType := "type.googleapis.com/envoy.config.endpoint.v3.ClusterLoadAssignment".
Definition ListenerType := "type.googleapis.com/envoy.config.listener.v3.Listener".
Definition RouteType := "type.googleapis.com/envoy.config.route.v3.RouteConfiguration".

Inductive Resource :=
  | ListenerResource (l : EnvoyListener)
  | RouteResource (r : RouteConfiguration)
  | ClusterResource (c : EnvoyCluster)
  | EndpointResource (e : ClusterLoadAssignment).

(** [proto.MarshalOptions.Marshal], and the snapshots of go-control-plane. *)
Class SnapshotLib := {
  Marshal : Resource → result string;
  SnapshotT : Type;
  NewSnapshot : string → Resources → result SnapshotT;
  Consistent : SnapshotT → option string;
}.

Section snapshot.
Context `{Sha256, Anypb, MapOrder, SnapshotLib}.

(** The resources of each type, the types in order. *)
Definition byType (resources : Resources) : list (string * list Resource) :=
  [(ClusterType, ClusterResource <$> rs_Clusters resources); (EndpointType, EndpointResource <$> rs_Endpoints resources);
   (ListenerType, ListenerResource <$> rs_Listeners resources); (RouteType, RouteResource <$> rs_Routes resources)].

Fixpoint writeResources (rs : list Resource) (h : string) : result string :=
  match rs with
  | [] => inl h
  | r :: rs => let? b := Marshal r in writeResources rs (h +:+ b)
  end.

Fixpoint writeTypes (types : list (string * list Resource)) (h : string) : result string :=
  match types with
  | [] => inl h
  | (typeURL, rs) :: types => let? h := writeResources rs (h +:+ typeURL) in writeTypes types h
  end.

(** [hash]. *)
Definition hash (resources : Resources) : result string :=
  let? h := writeTypes (byType resources) "" in
  inl (String.substring 0 16 (hexEncode (Sum256 h))).

(** [Snapshot]. *)
Definition Snapshot (m : Model) (refs : References) : result SnapshotT :=
  let? resources := translate m (Some refs) in
  let? version := hash resources in
  let? snapshot := NewSnapshot version resources in
  match Consistent snapshot with
  | Some err => inr ("inconsistent snapshot: " +:+ err)
  | None => inl snapshot
  end.

(** ** Requests *)

Inductive XdsE : Type → Type :=
  | XReads (R : Type) (e : LoadE R) : XdsE R
  | XGetGateway (key : NamespacedName) : XdsE (Gateway + Err)
  | ClearSnapshot (node : string) : XdsE unit
  | SetSnapshot (node : string) (snapshot : SnapshotT) : XdsE (option Err).

Context `{X509, LabelSelectors}.

Definition clear (node : string) : prog XdsE Result :=
  do _ <- call (ClearSnapshot node);
  Ret done_.

(** [Reconcile]. *)
Definition Reconcile (features : Features) (req : NamespacedName) : prog XdsE Result :=
  let node := NodeID (nn_Namespace req) (nn_Name req) in
  do gw <- call (XGetGateway req);
  match gw with
  | inr err => if k8s_IsNotFound err then clear node else Ret (failed err)
  | inl gw =>
    do class <- lift XReads (gatewayClassFor gw);
    match class with
    | inr err => Ret (failed err)
    | inl (_, ours) =>
      if negb ours || bool_decide (is_Some (om_DeletionTimestamp (gw_ObjectMeta gw))) then clear node
      else
        do model <- lift XReads (buildGateway gw features);
        match model with
        | inr err => Ret (failed err)
        | inl (model, refs) =>
          match Snapshot model refs with
          | inr err => Ret (failed (plainErr err))
          | inl snapshot =>
            do err <- call (SetSnapshot node snapshot);
            Ret {| requeueAfter := 0; result_err := err |}
          end
        end
    end
  end.

(** ** What a run did *)

Inductive CacheOp := Cleared (node : string) | Set_ (node : string) (snapshot : SnapshotT) (err : option Err).

Definition cacheOp (ev : event XdsE) : option CacheOp :=
  let 'Ev e a := ev in
  match e in XdsE R return R → option CacheOp with
  | ClearSnapshot node => λ _, Some (Cleared node)
  | SetSnapshot node snapshot => λ err, Some (Set_ node snapshot err)
  | _ => λ _, None
  end a.

(** What a snapshot holds, and its version. *)
Definition SnapshotOf (m : Model) (refs : References) (snapshot : SnapshotT) : Prop :=
  ∃ resources version, translate m (Some refs) = inl resources ∧ hash resources = inl version ∧
    NewSnapshot version resources = inl snapshot ∧ Consistent snapshot = None.

Lemma Snapshot_inl m refs snapshot : Snapshot m refs = inl snapshot ↔ SnapshotOf m refs snapshot.
Proof.
  unfold Snapshot, SnapshotOf. split.
  - intros (resources & Ht & Hk)%rbind_inl. apply rbind_inl in Hk as (version & Hh & Hk).
    apply rbind_inl in Hk as (sn & Hn & Hk). destruct (Consistent sn) eqn:E; [done|]. injection Hk as ->.
    by exists resources, version.
  - intros (resources & version & -> & Hh & Hn & Hc). simpl. by rewrite Hh; simpl; rewrite Hn; simpl; rewrite Hc.
Qed.

Lemma NodeID_inj ns name ns' name' :
  lacks (Ascii.ascii_of_nat 47) ns = true → lacks (Ascii.ascii_of_nat 47) ns' = true →
  NodeID ns name = NodeID ns' name' → ns = ns' ∧ name = name'.
Proof. intros H1' H2' He. by apply (lacks_cut (Ascii.ascii_of_nat 47)) in He. Qed.

Lemma xdsGateway_load gw features tr m refs :
  exec (buildGateway gw features) tr (inl (m, refs)) →
  ∃ routes, exec (Load gw features) tr (inl (routes, refs)) ∧ m = Build gw routes (Some refs).
Proof.
  intros (t1 & t2 & r & -> & Hl & Hx)%exec_bind.
  destruct r as [[routes refs']|err]; apply exec_Ret_inv in Hx as [-> Hx]; [|done].
  injection Hx as <- <-. rewrite app_nil_r. by exists routes.
Qed.

(** A Gateway that Envoy has something to be told about: of a class that is ours,
    and not being deleted. *)
Definition Served (gw : Gateway) (class : GatewayClass + Err) : Prop :=
  om_DeletionTimestamp (gw_ObjectMeta gw) = None ∧
  ∃ c, class = inl c ∧ gc_ControllerName c = "cloudflare.unmango.dev/gateway-controller".

(** What one reconciliation of [req] does to the snapshot of its node, after these
    requests, and what it returns. *)
Inductive Caches (features : Features) (req : NamespacedName) : list (event XdsE) → Result → Prop :=
  | gateway_unread err : ¬ missing err → Caches features req [Ev (XGetGateway req) (inr err)] (failed err)
  | gateway_gone err : missing err →
      Caches features req [Ev (XGetGateway req) (inr err); Ev (ClearSnapshot (NodeID (nn_Namespace req) (nn_Name req))) tt] done_
  | class_unread gw err : ¬ missing err →
      Caches features req [Ev (XGetGateway req) (inl gw); Ev (XReads _ (GetGatewayClass (gw_GatewayClassName gw))) (inr err)]
        (failed err)
  | not_served gw class : ¬ Served gw class → (∀ err, class = inr err → missing err) →
      Caches features req [Ev (XGetGateway req) (inl gw); Ev (XReads _ (GetGatewayClass (gw_GatewayClassName gw))) class;
          Ev (ClearSnapshot (NodeID (nn_Namespace req) (nn_Name req))) tt] done_
  | not_loaded gw class tl err : Served gw class → exec (Load gw features) tl (inr err) →
      Caches features req ([Ev (XGetGateway req) (inl gw); Ev (XReads _ (GetGatewayClass (gw_GatewayClassName gw))) class] ++
          (liftEvent XReads <$> tl)) (failed err)
  | not_translated gw class tl routes refs err : Served gw class → exec (Load gw features) tl (inl (routes, refs)) →
      (∀ snapshot, ¬ SnapshotOf (Build gw routes (Some refs)) refs snapshot) →
      Caches features req ([Ev (XGetGateway req) (inl gw); Ev (XReads _ (GetGatewayClass (gw_GatewayClassName gw))) class] ++
          (liftEvent XReads <$> tl)) (failed err)
  | snapshot_set gw class tl routes refs snapshot err : Served gw class → exec (Load gw features) tl (inl (routes, refs)) →
      SnapshotOf (Build gw routes (Some refs)) refs snapshot →
      Caches features req ([Ev (XGetGateway req) (inl gw); Ev (XReads _ (GetGatewayClass (gw_GatewayClassName gw))) class] ++
          (liftEvent XReads <$> tl) ++ [Ev (SetSnapshot (NodeID (nn_Namespace req) (nn_Name req)) snapshot) err])
        {| requeueAfter := 0; result_err := err |}.

Lemma buildGateway_failed gw features tr err :
  exec (buildGateway gw features) tr (inr err) → exec (Load gw features) tr (inr err).
Proof.
  intros (t1 & t2 & r & -> & Hl & Hx)%exec_bind.
  destruct r as [[routes refs']|err']; apply exec_Ret_inv in Hx as [-> Hx]; [done|].
  injection Hx as <-. by rewrite app_nil_r.
Qed.

(** The rest of a reconciliation, of a Gateway to be served. *)
Lemma serve_caches features req gw class tr res :
  Served gw (inl class) →
  exec (do model <- lift XReads (buildGateway gw features);
        match model with
        | inr err => Ret (failed err)
        | inl (model, refs) =>
          match Snapshot model refs with
          | inr err => Ret (failed (plainErr err))
          | inl snapshot =>
            do err <- call (SetSnapshot (NodeID (nn_Namespace req) (nn_Name req)) snapshot);
            Ret {| requeueAfter := 0; result_err := err |}
          end
        end) tr res →
  Caches features req ([Ev (XGetGateway req) (inl gw); Ev (XReads _ (GetGatewayClass (gw_GatewayClassName gw))) (inl class)] ++ tr) res.
Proof.
  intros Hs (t1 & t2 & r & -> & Hb & Hx)%exec_bind. apply exec_lift in Hb as (tl & -> & Hb).
  destruct r as [[m refs]|err].
  2:{ apply exec_Ret_inv in Hx as [-> <-]. rewrite app_nil_r. by apply not_loaded, buildGateway_failed. }
  apply xdsGateway_load in Hb as (routes & Hl & ->).
  destruct (Snapshot _ refs) as [snapshot|err] eqn:Esn.
  2:{ apply exec_Ret_inv in Hx as [-> <-]. rewrite app_nil_r. eapply not_translated; [done|exact Hl|].
      intros snapshot ?%Snapshot_inl. congruence. }
  apply Snapshot_inl in Esn. apply exec_bind in Hx as (t7 & t8 & err & -> & ->%exec_call & [-> <-]%exec_Ret_inv).
  rewrite app_nil_r. by eapply snapshot_set.
Qed.

(** C23. After each reconciliation the snapshot under the Gateway's node is what
    Envoy should have. It is taken away, without an error, exactly when the
    Gateway does not exist, or is being deleted or of a class that does not exist
    or is not ours; it is set to the translation of what was loaded for the
    Gateway, under a version that is the hash of its content, when everything was
    read and translates; and it is left alone, and the error returned to be
    retried, when the Gateway, its class or what it is built from could not be
    read, or does not translate. Nothing is asked of the cache but that one
    operation on that node, and Gateways of different namespace or name have
    different nodes. *)
Theorem Reconcile_caches features req tr res :
  exec (Reconcile features req) tr res →
  Caches features req tr res ∧
  ∀ key, lacks (Ascii.ascii_of_nat 47) (nn_Namespace key) = true → lacks (Ascii.ascii_of_nat 47) (nn_Namespace req) = true →
    NodeID (nn_Namespace key) (nn_Name key) = NodeID (nn_Namespace req) (nn_Name req) → key = req.
Proof.
  intros Hx. split.
  2:{ intros [ns name] H1' H2' He. destruct req as [ns' name']. simpl in *.
      by destruct (NodeID_inj _ _ _ _ H1' H2' He) as [-> ->]. }
  apply exec_bind in Hx as (t1 & t2 & gw & -> & ->%exec_call & Hx).
  destruct gw as [gw|err].
  2:{ destruct (k8s_IsNotFound err) eqn:E.
      - apply exec_bind in Hx as (t3 & t4 & [] & -> & ->%exec_call & [-> <-]%exec_Ret_inv).
        by apply gateway_gone, missing_iff.
      - apply exec_Ret_inv in Hx as [-> <-]. apply gateway_unread. intros ?%missing_iff. congruence. }
  apply exec_bind in Hx as (t3 & t4 & r & -> & Hc & Hx). apply exec_lift in Hc as (tc & -> & Hc).
  apply exec_Vis_inv in Hc as (class & tc' & -> & [-> Hr]%exec_Ret_inv).
  assert (∀ oc ours, r = inl (oc, ours) → ∀ err, class = inr err → missing err) as Hmiss.
  { intros oc ours -> err ->. apply missing_iff. by destruct (k8s_IsNotFound err). }
  destruct r as [[oc ours]|err].
  2:{ apply exec_Ret_inv in Hx as [-> <-]. destruct class as [class|err']; [done|].
      destruct (k8s_IsNotFound err') eqn:E; [done|]. injection Hr as <-.
      apply class_unread. intros ?%missing_iff. congruence. }
  assert (negb ours || bool_decide (is_Some (om_DeletionTimestamp (gw_ObjectMeta gw))) = false ↔ Served gw class) as Hsv.
  { rewrite orb_false_iff, negb_false_iff, bool_decide_eq_false, <- eq_None_not_Some. unfold Served.
    destruct class as [class|err]; [|destruct (k8s_IsNotFound err); naive_solver].
    injection Hr as <- <-. rewrite str_eqb_eq. naive_solver. }
  destruct (negb ours || _).
  - apply exec_bind in Hx as (t5 & t6 & [] & -> & ->%exec_call & [-> <-]%exec_Ret_inv).
    apply not_served; [by intros ?%Hsv|by eapply Hmiss].
  - destruct (proj1 Hsv eq_refl) as (Hd & class' & -> & Hn). apply serve_caches; [by split; [|exists class']|exact Hx].
Qed.
End snapshot.

(** ** A sample run *)

Definition sampleSnapshots : SnapshotLib :=
  {| Marshal := λ r, inl "bytes"; SnapshotT := string * Resources;
     NewSnapshot := λ v r, inl (v, r); Consistent := λ _, None |}.

Definition xdsAnswers (R : Type) (e : @XdsE sampleSnapshots R) : option R :=
  match e in XdsE R return option R with
  | XReads R e => loadAnswers (sampleClass (Some sampleParams)) (sampleGatewayConfig None) R e
  | XGetGateway _ => Some (inl servedGateway)
  | ClearSnapshot _ => Some tt
  | SetSnapshot _ _ => Some None
  end.

Definition sampleXdsReconcile : prog (@XdsE sampleSnapshots) Result :=
  @Reconcile sampleSha256 sampleAnypb sampleOrder sampleSnapshots sampleX509 sampleSelectors sampleFeatures
    {| nn_Namespace := "default"; nn_Name := "gw" |}.

(** A snapshot is set. *)
Definition snapshotSet (tr : list (event (@XdsE sampleSnapshots))) (res : Result) : bool :=
  match omap cacheOp tr with [Set_ _ _ None] => true | _ => false end.

Lemma Reconcile_caches_witness :
  ∃ tr res node snapshot, exec sampleXdsReconcile tr res ∧ omap cacheOp tr = [Set_ node snapshot None] ∧
    @Caches sampleSha256 sampleAnypb sampleOrder sampleSnapshots sampleX509 sampleSelectors sampleFeatures
      {| nn_Namespace := "default"; nn_Name := "gw" |} tr res.
Proof.
  destruct (runTrace_such xdsAnswers sampleXdsReconcile snapshotSet) as (tr & res & Hx & Ht); [by vm_compute|].
  unfold snapshotSet in Ht. destruct (omap cacheOp tr) as [|[|node snapshot [|]] [|]] eqn:Hc; try done.
  exists tr, res, node, snapshot. split; [exact Hx|]. split; [done|].
  exact (proj1 (@Reconcile_caches _ _ _ _ _ _ _ _ _ _ Hx)).
Defined.
