(* ===== verification/CloudflaredCtl.v ===== *)
(** * The Cloudflared controller (internal/controller/cloudflared_controller.go)

    A Cloudflared runs as a DaemonSet or a Deployment of its name: the pod it is
    given, the application's creation, adoption, update and replacement, and the
    status. A merge patch is a request with the object before and after it, and
    is answered by the object the server then holds. *)
From S2P Require Import Prelude GatewayAPI Samples Effects Helpers Address API TunnelApi TunnelCtl.

Definition defaultMetricsPort : Z := 2000.
Definition cloudflaredContainerName := "cloudflared".
Definition configVolumeName := "config".
Definition typeAvailableCloudflared := "Available".
Definition configMountPath := "/etc/cloudflared".

(** [tunnel]: what is known of the tunnel to run. *)
Record tunnel := { tn_AccountId : option string; tn_Id : option string; tn_Token : option string }.
Definition noTunnel : tunnel := {| tn_AccountId := None; tn_Id := None; tn_Token := None |}.

(** ** The pod *)

(** [applyCustomizations]. *)
Definition applyCustomizations (base custom : Container) : Container :=
  {| ct_Name := ct_Name base;
     ct_Image := if negb (str_eqb (ct_Image custom) "") then ct_Image custom else ct_Image base;
     ct_Command := ct_Command base; ct_Args := ct_Args base; ct_Env := ct_Env base; ct_Ports := ct_Ports base;
     ct_VolumeMounts := ct_VolumeMounts base ++
       List.filter (λ m, negb (bool_decide (vm_MountPath m ∈ vm_MountPath <$> ct_VolumeMounts base))) (ct_VolumeMounts custom);
     ct_LivenessProbe := ct_LivenessProbe base; ct_ReadinessProbe := ct_ReadinessProbe base;
     ct_Resources := ct_Resources base; ct_SecurityContext := ct_SecurityContext base;
     ct_ImagePullPolicy := ct_ImagePullPolicy base |}.

(** The second part of a text split at its colons. *)
Definition secondPart (image : string) : option string :=
  match cutFirst colon image with
  | None => None
  | Some (_, rest) => Some (match cutFirst colon rest with Some (part, _) => part | None => rest end)
  end.

(** [labels]. *)
Definition imageVersion (image : string) : string :=
  match secondPart image with Some part => trim_prefix "v" part | None => "latest" end.

Definition labels (ctr : Container) : gmap string string :=
  <["app.kubernetes.io/name" := "cloudflare-operator"]>
  (<["app.kubernetes.io/version" := imageVersion (ct_Image ctr)]>
  (<["app.kubernetes.io/managed-by" := "CloudflaredController"]> ∅)).

(** The volume the configuration is read from, of each source that is given. *)
Definition configVolumes (config : option CloudflaredConfig) : list Volume :=
  match config ≫= dc_ValueFrom with
  | None => []
  | Some from =>
    match dcr_SecretKeyRef from with
    | Some ref => [{| vol_Name := configVolumeName;
                      vol_Source := SecretVolumeSource (ks_Name ref) [{| kp_Key := ks_Key ref; kp_Path := "config.yml" |}] |}]
    | None => []
    end ++
    match dcr_ConfigMapKeyRef from with
    | Some ref => [{| vol_Name := configVolumeName;
                      vol_Source := ConfigMapVolumeSource (ks_Name ref) [{| kp_Key := ks_Key ref; kp_Path := "config.yml" |}] |}]
    | None => []
    end
  end.

Definition configMounts (config : option CloudflaredConfig) : list VolumeMount :=
  match config ≫= dc_ValueFrom with
  | None => []
  | Some from =>
    match dcr_SecretKeyRef from, dcr_ConfigMapKeyRef from with
    | None, None => []
    | _, _ => [{| vm_Name := configVolumeName; vm_MountPath := configMountPath |}]
    end
  end.

(** The container before the template's customizations. *)
Definition baseContainer (t : tunnel) (spec : CloudflaredSpec) : Container :=
  {| ct_Name := cloudflaredContainerName;
     ct_Image := "docker.io/cloudflare/cloudflared:" +:+ trim_prefix "v" (cd_Version spec);
     ct_Command := [cloudflaredContainerName; "tunnel"; "--no-autoupdate"; "--metrics"; "0.0.0.0:" +:+ fmt_d defaultMetricsPort];
     ct_Args := match tn_Id t with Some id => ["run"; id] | None => ["--hello-world"] end;
     ct_Env := match tn_Token t with Some token => [{| env_Name := "TUNNEL_TOKEN"; env_Value := token |}] | None => [] end;
     ct_Ports := []; ct_VolumeMounts := configMounts (cd_Config spec);
     ct_LivenessProbe := Some {| pb_Path := "/ready"; pb_Port := defaultMetricsPort; pb_Scheme := "HTTP";
       pb_InitialDelaySeconds := 10; pb_PeriodSeconds := 10; pb_FailureThreshold := 1 |};
     ct_ReadinessProbe := None; ct_Resources := noResources;
     ct_SecurityContext := Some {| sc_RunAsNonRoot := Some true; sc_RunAsUser := Some 1001%Z;
       sc_AllowPrivilegeEscalation := Some false; sc_ReadOnlyRootFilesystem := None; sc_CapabilitiesDrop := ["ALL"] |};
     ct_ImagePullPolicy := "IfNotPresent" |}.

(** The loop over the template's containers: the others, and the container. *)
Fixpoint mergeContainers (custom : list Container) (containers : list Container) (container : Container)
    : list Container * Container :=
  match custom with
  | [] => (containers, container)
  | ctr :: custom =>
    if str_eqb (ct_Name ctr) cloudflaredContainerName
    then mergeContainers custom containers (applyCustomizations container ctr)
    else mergeContainers custom (containers ++ [ctr]) container
  end.

(** [podTemplateSpec]. *)
Definition podTemplateSpec (t : tunnel) (spec : CloudflaredSpec) : PodTemplateSpec :=
  let template := default emptyPodTemplate (cd_Template spec) in
  let '(containers, container) := mergeContainers (ps_Containers (pt_Spec template)) [] (baseContainer t spec) in
  {| pt_Labels := labels container;
     pt_Annotations := pt_Annotations template;
     pt_Spec := {| ps_AutomountServiceAccountToken := ps_AutomountServiceAccountToken (pt_Spec template);
       ps_SecurityContext := Some {| psc_RunAsNonRoot := Some true; psc_RunAsUser := None;
         psc_SeccompProfile := Some "RuntimeDefault"; psc_Sysctls := [("net.ipv4.ping_group_range", "65532 65532")] |};
       ps_Volumes := ps_Volumes (pt_Spec template) ++ configVolumes (cd_Config spec);
       ps_Containers := containers ++ [container] |} |}.

(** ** Requests *)

(** The application of either kind. *)
Inductive App := DaemonSetApp (d : DaemonSet) | DeploymentApp (d : Deployment).

Definition appMeta (a : App) : ObjectMeta :=
  match a with DaemonSetApp d => dms_ObjectMeta d | DeploymentApp d => dep_ObjectMeta d end.

Definition withAppMeta (a : App) (m : ObjectMeta) : App :=
  match a with
  | DaemonSetApp d => DaemonSetApp {| dms_ObjectMeta := m; dms_Selector := dms_Selector d; dms_Template := dms_Template d |}
  | DeploymentApp d => DeploymentApp {| dep_ObjectMeta := m; dep_Replicas := dep_Replicas d; dep_Selector := dep_Selector d;
                         dep_Template := dep_Template d; dep_AvailableReplicas := dep_AvailableReplicas d |}
  end.

Inductive CloudflaredE : Type → Type :=
  | GetCloudflared (key : NamespacedName) : CloudflaredE (Cloudflared + Err)
  | PatchCloudflaredStatus (original updated : Cloudflared) : CloudflaredE (Cloudflared + Err)
  | GetDaemonSet (key : NamespacedName) : CloudflaredE (DaemonSet + Err)
  | GetDeployment (key : NamespacedName) : CloudflaredE (Deployment + Err)
  | CreateApp (app : App) : CloudflaredE (option Err)
  | PatchApp (original updated : App) : CloudflaredE (option Err)
  | DeleteApp (app : App) : CloudflaredE (option Err)
  | GetTunnelRef (key : NamespacedName) : CloudflaredE (CloudflareTunnel + Err)
  | GetTunnelToken (tunnelId accountId : string) : CloudflaredE (option string + Err)
  | ListCloudflaredsOf (namespace tunnel : string) : CloudflaredE (list Cloudflared + Err).

(** ** Operations *)

(** [getApp]. *)
Definition getApp (key : NamespacedName) (kind : string) : prog CloudflaredE (App + Err) :=
  if str_eqb kind DaemonSetCloudflaredKind then
    do? d <- call (GetDaemonSet key); Ret (inl (DaemonSetApp d))
  else if str_eqb kind DeploymentCloudflaredKind then
    do? d <- call (GetDeployment key); Ret (inl (DeploymentApp d))
  else Ret (inr (plainErr ("unsupported kind: " +:+ kind))).

(** [getTunnelRef]. *)
Definition getTunnelRef (c : Cloudflared) : prog CloudflaredE (CloudflareTunnel + Err) :=
  match cd_Config (cfd_Spec c) ≫= dc_TunnelRef with
  | None => Ret (inr (plainErr "no tunnel reference specified"))
  | Some ref => call (GetTunnelRef {| nn_Namespace := om_Namespace (cfd_ObjectMeta c); nn_Name := ctr_Name ref |})
  end.

(** [lookupTunnel]: the tunnel's ids, and then its token. *)
Definition lookupIds (c : Cloudflared) (config : CloudflaredConfig) : prog CloudflaredE ((option string * option string) + Err) :=
  match ci_TunnelId (dc_Inline config) with
  | Some id =>
    match ci_AccountId (dc_Inline config) with
    | None => Ret (inr (plainErr "accountId is required when tunnelId != nil"))
    | Some account => Ret (inl (Some account, Some id))
    end
  | None =>
    match dc_TunnelRef config with
    | None => Ret (inl (None, None))
    | Some _ =>
      do t <- getTunnelRef c;
      Ret (match t with
           | inr err => inr (wrapErr "get tunnel ref" err)
           | inl t => inl (Some (tst_AccountTag (tun_Status t)), tst_Id (tun_Status t))
           end)
    end
  end.

Definition lookupTunnel (c : Cloudflared) : prog CloudflaredE (tunnel + Err) :=
  match cd_Config (cfd_Spec c) with
  | None => Ret (inl noTunnel)
  | Some config =>
    do? (account, id) <- lookupIds c config;
    match id, account with
    | Some id, Some account =>
      do token <- call (GetTunnelToken id account);
      Ret (match token with
           | inr err => inr (wrapErr "get tunnel token" err)
           | inl token => inl {| tn_AccountId := Some account; tn_Id := Some id; tn_Token := token |}
           end)
    | _, _ => Ret (inl {| tn_AccountId := account; tn_Id := id; tn_Token := None |})
    end
  end.

Definition cfd_key (c : Cloudflared) : NamespacedName :=
  {| nn_Namespace := om_Namespace (cfd_ObjectMeta c); nn_Name := om_Name (cfd_ObjectMeta c) |}.

(** [createDaemonSet] and [createDeployment]. *)
Definition appSelector (template : PodTemplateSpec) : option LabelSelector :=
  Some {| ls_MatchLabels := pt_Labels template; ls_MatchExpressions := [] |}.

Definition createDaemonSet (c : Cloudflared) (template : PodTemplateSpec) : DaemonSet :=
  {| dms_ObjectMeta := newObjectMeta (om_Namespace (cfd_ObjectMeta c)) (om_Name (cfd_ObjectMeta c));
     dms_Selector := appSelector template; dms_Template := template |}.

Definition createDeployment (c : Cloudflared) (template : PodTemplateSpec) : Deployment :=
  {| dep_ObjectMeta := newObjectMeta (om_Namespace (cfd_ObjectMeta c)) (om_Name (cfd_ObjectMeta c));
     dep_Replicas := cd_Replicas (cfd_Spec c); dep_Selector := appSelector template;
     dep_Template := template; dep_AvailableReplicas := 0 |}.

Definition withCloudflaredStatus (c : Cloudflared) (kind tunnelId : option string) (conditions : list Condition) : Cloudflared :=
  {| cfd_ObjectMeta := cfd_ObjectMeta c; cfd_Spec := cfd_Spec c;
     cfd_Status := {| cds_Kind := kind; cds_TunnelId := tunnelId; cds_Conditions := conditions |} |}.

Section controller.
Context `{ObjectHelpers}.

Definition available (c : Cloudflared) (status : ConditionStatus) (message : string) : list Condition :=
  SetStatusCondition (cds_Conditions (cfd_Status c)) (mkCondition typeAvailableCloudflared status reasonReconciling message).

Definition patchCloudflared (c updated : Cloudflared) : prog CloudflaredE (option Err) :=
  do r <- call (PatchCloudflaredStatus c updated);
  Ret (match r with inl _ => None | inr err => Some err end).

(** The application of the spec's kind, not yet created. *)
Definition newApp (c : Cloudflared) (template : PodTemplateSpec) : option App :=
  let kind := cd_Kind (cfd_Spec c) in
  if str_eqb kind DaemonSetCloudflaredKind then Some (DaemonSetApp (createDaemonSet c template))
  else if str_eqb kind DeploymentCloudflaredKind then Some (DeploymentApp (createDeployment c template))
  else None.

(** The application is created, or adopted; nothing for success. *)
Definition ensureApp (c : Cloudflared) (app : App) : prog CloudflaredE (option Err) :=
  let kind := cd_Kind (cfd_Spec c) in
  do existing <- getApp (cfd_key c) kind;
  match existing with
  | inl existing =>
    Ret (if IsControlledBy (appMeta existing) (cfd_ObjectMeta c) then None
         else Some (plainErr (kind +:+ " " +:+ om_Name (appMeta existing) +:+ " exists and is not owned by this Cloudflared")))
  | inr err =>
    if k8s_IsNotFound err then
      match SetControllerReference (cfd_ObjectMeta c) (appMeta app) with
      | inr err => Ret (Some (wrapErr "set controller reference" err))
      | inl m =>
        do err <- call (CreateApp (withAppMeta app m));
        Ret (match err with Some err => Some (wrapErr "create app" err) | None => None end)
      end
    else Ret (Some (wrapErr "get app" err))
  end.

(** [createApp]. *)
Definition createApp (c : Cloudflared) : prog CloudflaredE (option Err) :=
  let kind := cd_Kind (cfd_Spec c) in
  do t <- lookupTunnel c;
  match t with
  | inr err => Ret (Some (wrapErr "lookup tunnel" err))
  | inl t =>
    match newApp c (podTemplateSpec t (cfd_Spec c)) with
    | None => Ret (Some (plainErr ("unsupported kind: " +:+ kind)))
    | Some app =>
      do err <- ensureApp c app;
      match err with
      | Some err => Ret (Some err)
      | None =>
        patchCloudflared c (withCloudflaredStatus c (Some kind) (tn_Id t)
          (available c ConditionTrue (kind +:+ " created successfully")))
      end
    end
  end.

(** The application with another template, and the spec's replicas. *)
Definition withTemplate (c : Cloudflared) (template : PodTemplateSpec) (app : App) : App :=
  match app with
  | DaemonSetApp d => DaemonSetApp {| dms_ObjectMeta := dms_ObjectMeta d; dms_Selector := dms_Selector d; dms_Template := template |}
  | DeploymentApp d => DeploymentApp {| dep_ObjectMeta := dep_ObjectMeta d; dep_Replicas := cd_Replicas (cfd_Spec c);
                         dep_Selector := dep_Selector d; dep_Template := template;
                         dep_AvailableReplicas := dep_AvailableReplicas d |}
  end.

(** [updateApp]. *)
Definition updateApp (app : App) (c : Cloudflared) : prog CloudflaredE (option Err) :=
  do t <- lookupTunnel c;
  match t with
  | inr err => Ret (Some (wrapErr "lookup tunnel" err))
  | inl t => call (PatchApp app (withTemplate c (podTemplateSpec t (cfd_Spec c)) app))
  end.

(** [deleteApp]. *)
Definition deleteApp (app : App) : prog CloudflaredE (option Err) :=
  do err <- call (DeleteApp app);
  Ret (k8s_IgnoreNotFound err).

Definition resultOf (err : option Err) : Result :=
  match err with Some err => failed err | None => done_ end.

(** [Reconcile] once the status has its first condition. *)
Definition reconcileApp (c : Cloudflared) : prog CloudflaredE Result :=
  match cds_Kind (cfd_Status c) with
  | None =>
    do err <- createApp c;
    Ret (resultOf err)
  | Some kind =>
    do app <- getApp (cfd_key c) kind;
    match app with
    | inr err =>
      if negb (k8s_IsNotFound err) then Ret (failed err)
      else
        do err <- patchCloudflared c (withCloudflaredStatus c None (cds_TunnelId (cfd_Status c))
                    (available c ConditionFalse ("Owned " +:+ kind +:+ " resource not found")));
        Ret (match err with Some err => failed err | None => requeue (seconds 5) end)
    | inl app =>
      if negb (str_eqb kind (cd_Kind (cfd_Spec c))) then
        do err <- deleteApp app;
        Ret (match err with Some err => failed err | None => requeue (seconds 5) end)
      else
        do err <- updateApp app c;
        Ret (resultOf err)
    end
  end.

Definition Reconcile (req : NamespacedName) : prog CloudflaredE Result :=
  do c <- call (GetCloudflared req);
  match c with
  | inr err => Ret {| requeueAfter := 0; result_err := k8s_IgnoreNotFound (Some err) |}
  | inl c =>
    if bool_decide (is_Some (om_DeletionTimestamp (cfd_ObjectMeta c))) then Ret done_
    else
      match cds_Conditions (cfd_Status c) with
      | [] =>
        do c <- call (PatchCloudflaredStatus c (withCloudflaredStatus c (cds_Kind (cfd_Status c)) (cds_TunnelId (cfd_Status c))
                        (available c ConditionUnknown msgStartingReconciliation)));
        match c with inr err => Ret (failed err) | inl c => reconcileApp c end
      | _ :: _ => reconcileApp c
      end
  end.

(** [cloudflaredsForTunnel]: nothing when they cannot be listed. *)
Definition cloudflaredsForTunnel (namespace name : string) : prog CloudflaredE (list NamespacedName) :=
  do items <- call (ListCloudflaredsOf namespace name);
  Ret (match items with inr _ => [] | inl items => fmap (M := list) cfd_key items end).

End controller.

(** ** The pod: what it is *)

Lemma mergeContainers_spec custom containers container :
  mergeContainers custom containers container =
  (containers ++ List.filter (λ c, negb (str_eqb (ct_Name c) cloudflaredContainerName)) custom,
   foldl applyCustomizations container (List.filter (λ c, str_eqb (ct_Name c) cloudflaredContainerName) custom)).
Proof.
  revert containers container. induction custom as [|c custom IH]; intros containers container; simpl.
  { by rewrite app_nil_r. }
  destruct (str_eqb (ct_Name c) cloudflaredContainerName); simpl; rewrite IH; [done|]. by rewrite <- app_assoc.
Qed.

(** What customizing keeps of a container. *)
Lemma customized_spec customs base :
  let ctr := foldl applyCustomizations base customs in
  ct_Name ctr = ct_Name base ∧ ct_Args ctr = ct_Args base ∧ ct_Env ctr = ct_Env base ∧ ct_Command ctr = ct_Command base ∧
  ct_SecurityContext ctr = ct_SecurityContext base ∧ ct_LivenessProbe ctr = ct_LivenessProbe base ∧
  ct_Image ctr = default (ct_Image base) (last (List.filter (λ i, negb (str_eqb i "")) (ct_Image <$> customs))) ∧
  (∃ mounts, ct_VolumeMounts ctr = ct_VolumeMounts base ++ mounts ∧
     (∀ m, m ∈ mounts → vm_MountPath m ∉ vm_MountPath <$> ct_VolumeMounts base ∧ ∃ c, c ∈ customs ∧ m ∈ ct_VolumeMounts c)) ∧
  ∀ c m, c ∈ customs → m ∈ ct_VolumeMounts c → vm_MountPath m ∈ vm_MountPath <$> ct_VolumeMounts ctr.
Proof.
  induction customs as [|c customs IH] using rev_ind; simpl.
  { split_and!; try done; [exists []; by rewrite app_nil_r; split; [|intros m Hm; apply elem_of_nil in Hm]|].
    intros c m Hc. by apply elem_of_nil in Hc. }
  rewrite foldl_app. simpl. destruct IH as (H1 & H2 & H3 & H4 & H5 & H6 & H7 & (mounts & H8 & H9) & H10).
  set (ctr := foldl applyCustomizations base customs) in *. split_and!; try done.
  all: unfold applyCustomizations; cbn [ct_VolumeMounts ct_Image].
  - rewrite fmap_app, List.filter_app. simpl. destruct (str_eqb (ct_Image c) "") eqn:E; simpl.
    + by rewrite app_nil_r.
    + by rewrite last_snoc.
  - eexists. rewrite H8, <- app_assoc. split; [reflexivity|].
    intros m [Hm|Hm]%elem_of_app.
    + destruct (H9 m Hm) as (Hn & c' & Hc' & Hin). split; [done|]. exists c'. split; [by apply elem_of_app; left|done].
    + apply list_elem_of_In, filter_In in Hm as [Hm Hn%negb_true_iff%bool_decide_eq_false].
      apply list_elem_of_In in Hm. split.
      * intros Hb. apply Hn. rewrite fmap_app. by apply elem_of_app; left.
      * exists c. split; [by apply elem_of_app; right; left|done].
  - intros c' m Hc' Hm. rewrite fmap_app. apply elem_of_app.
    apply elem_of_app in Hc' as [Hc'|Hc'%list_elem_of_singleton]; [left; by apply (H10 c')|subst c'].
    destruct (decide (vm_MountPath m ∈ vm_MountPath <$> ct_VolumeMounts ctr)) as [|Hn]; [by left|right].
    apply list_elem_of_fmap. exists m. split; [done|]. apply list_elem_of_In, filter_In. split; [by apply list_elem_of_In|].
    by apply negb_true_iff, bool_decide_eq_false.
Qed.

(** The pod of a Cloudflared runs exactly one container named cloudflared,
    after the template's other containers, which are kept as they are. It runs
    the tunnel, when there is one, with its token; its image is the last the
    template gives it and otherwise that of the version asked for; it cannot
    escalate, whatever the template says; the configuration is mounted when and
    only when it is read from somewhere, and no mount of the template takes its
    path or is lost otherwise; and the pod's labels carry the version of the
    image it runs. *)
Theorem podTemplateSpec_spec t spec :
  let template := default emptyPodTemplate (cd_Template spec) in
  let customs := List.filter (λ c, str_eqb (ct_Name c) cloudflaredContainerName) (ps_Containers (pt_Spec template)) in
  let pod := podTemplateSpec t spec in
  ∃ ctr, ps_Containers (pt_Spec pod) =
      List.filter (λ c, negb (str_eqb (ct_Name c) cloudflaredContainerName)) (ps_Containers (pt_Spec template)) ++ [ctr] ∧
    ct_Name ctr = cloudflaredContainerName ∧
    ct_Args ctr = match tn_Id t with Some id => ["run"; id] | None => ["--hello-world"] end ∧
    (∀ token, tn_Token t = Some token → {| env_Name := "TUNNEL_TOKEN"; env_Value := token |} ∈ ct_Env ctr) ∧
    ct_Image ctr = default ("docker.io/cloudflare/cloudflared:" +:+ trim_prefix "v" (cd_Version spec))
      (last (List.filter (λ i, negb (str_eqb i "")) (ct_Image <$> customs))) ∧
    ct_SecurityContext ctr = ct_SecurityContext (baseContainer t spec) ∧
    (configMountPath ∈ vm_MountPath <$> configMounts (cd_Config spec) ↔ configVolumes (cd_Config spec) ≠ []) ∧
    (∃ mounts, ct_VolumeMounts ctr = configMounts (cd_Config spec) ++ mounts ∧
       (configVolumes (cd_Config spec) ≠ [] → ∀ m, m ∈ mounts → vm_MountPath m ≠ configMountPath)) ∧
    (∀ c m, c ∈ customs → m ∈ ct_VolumeMounts c → vm_MountPath m ∈ vm_MountPath <$> ct_VolumeMounts ctr) ∧
    ps_Volumes (pt_Spec pod) = ps_Volumes (pt_Spec template) ++ configVolumes (cd_Config spec) ∧
    pt_Labels pod !! "app.kubernetes.io/version" = Some (imageVersion (ct_Image ctr)).
Proof.
  intros template customs pod. unfold pod, podTemplateSpec. fold template. rewrite mergeContainers_spec. fold customs.
  destruct (customized_spec customs (baseContainer t spec)) as (H1 & H2 & H3 & _ & H5 & _ & H7 & (mounts & H8 & H9) & H10).
  exists (foldl applyCustomizations (baseContainer t spec) customs). simpl in H1, H2, H3, H7, H8.
  assert (configMountPath ∈ vm_MountPath <$> configMounts (cd_Config spec) ↔ configVolumes (cd_Config spec) ≠ []) as Hm.
  { unfold configMounts, configVolumes. destruct (cd_Config spec ≫= dc_ValueFrom) as [from|]; simpl.
    2:{ split; [by intros ?%elem_of_nil|done]. }
    destruct (dcr_SecretKeyRef from), (dcr_ConfigMapKeyRef from); simpl.
    4:{ split; [by intros ?%elem_of_nil|done]. }
    all: split; [done|]; intros _; by left. }
  split_and!; try done.
  - intros token Ht. rewrite H3, Ht. by left.
  - exists mounts. split; [done|]. intros Hc m Hin Heq. destruct (H9 m Hin) as [Hn _]. apply Hn. rewrite Heq. by apply Hm.
Qed.
