(* ===== verification/CloudflaredWorld.v ===== *)
(** * Cloudflareds settle

    The Cloudflared controller against a model of the API server: one Cloudflared
    and the applications of its name, as a state its requests read and change.
    Tunnels and tokens are answered by functions. An update of an application
    whose pods its selector would not match is rejected, as Kubernetes does. *)
From S2P Require Import Prelude GatewayAPI Samples Effects Helpers Address API TunnelApi TunnelCtl CloudflaredCtl.

Record World := { w_cfd : option Cloudflared; w_daemonset : option DaemonSet; w_deployment : option Deployment }.

Definition isKind (kind : string) : bool := str_eqb kind DaemonSetCloudflaredKind || str_eqb kind DeploymentCloudflaredKind.

Definition appAt (w : World) (kind : string) : option App :=
  if str_eqb kind DaemonSetCloudflaredKind then DaemonSetApp <$> w_daemonset w
  else if str_eqb kind DeploymentCloudflaredKind then DeploymentApp <$> w_deployment w
  else None.

Definition appKind (a : App) : string :=
  match a with DaemonSetApp _ => DaemonSetCloudflaredKind | DeploymentApp _ => DeploymentCloudflaredKind end.

Definition appTemplate (a : App) : PodTemplateSpec :=
  match a with DaemonSetApp d => dms_Template d | DeploymentApp d => dep_Template d end.

(** The labels the selector of an application asks its pods for. *)
Definition appMatchLabels (a : App) : gmap string string :=
  match match a with DaemonSetApp d => dms_Selector d | DeploymentApp d => dep_Selector d end with
  | Some s => ls_MatchLabels s
  | None => ∅
  end.

Definition putCfd (w : World) (c : Cloudflared) : World :=
  {| w_cfd := Some c; w_daemonset := w_daemonset w; w_deployment := w_deployment w |}.

Definition putApp (w : World) (a : App) : World :=
  match a with
  | DaemonSetApp d => {| w_cfd := w_cfd w; w_daemonset := Some d; w_deployment := w_deployment w |}
  | DeploymentApp d => {| w_cfd := w_cfd w; w_daemonset := w_daemonset w; w_deployment := Some d |}
  end.

Definition dropApp (w : World) (kind : string) : World :=
  if str_eqb kind DaemonSetCloudflaredKind then {| w_cfd := w_cfd w; w_daemonset := None; w_deployment := w_deployment w |}
  else {| w_cfd := w_cfd w; w_daemonset := w_daemonset w; w_deployment := None |}.

Definition notFound : Err := {| err_message := "not found"; err_status := Some 404%Z; err_k8s := Some K8sNotFound |}.

Section world.
Context `{ObjectHelpers, !ConditionLaws, !OwnerLaws}.
Context (key : NamespacedName) (tunnels : NamespacedName → CloudflareTunnel + Err) (tokens : string → string → option string + Err).

(** The API server, of the objects with the key. *)
Definition handle (R : Type) (e : CloudflaredE R) (w : World) : option (R * World) :=
  match e in CloudflaredE R return option (R * World) with
  | GetCloudflared k =>
    if bool_decide (k = key) then Some (match w_cfd w with Some c => inl c | None => inr notFound end, w) else None
  | PatchCloudflaredStatus _ updated => Some (inl updated, putCfd w updated)
  | GetDaemonSet k =>
    if bool_decide (k = key) then Some (match w_daemonset w with Some d => inl d | None => inr notFound end, w) else None
  | GetDeployment k =>
    if bool_decide (k = key) then Some (match w_deployment w with Some d => inl d | None => inr notFound end, w) else None
  | CreateApp app =>
    match appAt w (appKind app) with
    | Some _ => Some (Some (plainErr "already exists"), w)
    | None => Some (None, putApp w app)
    end
  | PatchApp _ updated =>
    if bool_decide (appMatchLabels updated ⊆ pt_Labels (appTemplate updated)) then Some (None, putApp w updated)
    else Some (Some (plainErr "selector does not match template labels"), w)
  | DeleteApp app => Some (None, dropApp w (appKind app))
  | GetTunnelRef k => Some (tunnels k, w)
  | GetTunnelToken id account => Some (tokens id account, w)
  | ListCloudflaredsOf _ _ => Some (inl [], w)
  end.

(** One reconciliation. *)
Definition round (w : World) : option (Result * World) := run handle (Reconcile key) w.

Fixpoint rounds (n : nat) (w : World) : option World :=
  match n with
  | O => Some w
  | S n => '(_, w) ← round w; rounds n w
  end.

(** The Cloudflared is run by an application of its kind, which is its own and
    has the pod and replicas it asks for, and says so. *)
Definition Settled (t : tunnel) (w : World) : Prop :=
  ∃ c app, w_cfd w = Some c ∧ cds_Conditions (cfd_Status c) ≠ [] ∧
    cds_Kind (cfd_Status c) = Some (cd_Kind (cfd_Spec c)) ∧ appAt w (cd_Kind (cfd_Spec c)) = Some app ∧
    IsControlledBy (appMeta app) (cfd_ObjectMeta c) = true ∧
    withTemplate c (podTemplateSpec t (cfd_Spec c)) app = app ∧
    appMatchLabels app ⊆ pt_Labels (podTemplateSpec t (cfd_Spec c)).

(** What is fixed of the Cloudflared over the rounds, and its tunnel is [t]. *)
Definition Base (spec : CloudflaredSpec) (meta : ObjectMeta) (t : tunnel) (c : Cloudflared) : Prop :=
  cfd_Spec c = spec ∧ cfd_ObjectMeta c = meta ∧ cfd_key c = key ∧
  om_DeletionTimestamp meta = None ∧ isKind (cd_Kind spec) = true ∧
  ∀ w, run handle (lookupTunnel c) w = Some (inl t, w).

(** ** Steps *)

Lemma getApp_run w kind :
  isKind kind = true →
  run handle (getApp key kind) w = Some (match appAt w kind with Some a => inl a | None => inr notFound end, w).
Proof.
  unfold isKind, getApp, appAt. destruct (str_eqb kind DaemonSetCloudflaredKind); simpl; intros Hk.
  - rewrite bool_decide_eq_true_2 by done. simpl. by destruct (w_daemonset w).
  - rewrite Hk. simpl. rewrite bool_decide_eq_true_2 by done. simpl. by destruct (w_deployment w).
Qed.

Lemma appAt_put w a kind : appKind a = kind → appAt (putApp w a) kind = Some a.
Proof. intros <-. by destruct a. Qed.

Lemma appAt_putCfd w c kind : appAt (putCfd w c) kind = appAt w kind.
Proof. done. Qed.

Lemma appAt_drop w kind : isKind kind = true → appAt (dropApp w kind) kind = None.
Proof.
  unfold isKind, appAt, dropApp. destruct (str_eqb kind DaemonSetCloudflaredKind); [done|]. simpl. by intros ->.
Qed.

Lemma appAt_drop_other w kind kind' : isKind kind = true → kind' ≠ kind → appAt (dropApp w kind) kind' = appAt w kind'.
Proof.
  unfold isKind, appAt, dropApp. destruct (str_eqb kind DaemonSetCloudflaredKind) eqn:E; str_simpl; simpl; intros Hk Hne.
  - rewrite (proj2 (str_eqb_neq kind' _)) by congruence. done.
  - str_simpl. destruct (str_eqb kind' DaemonSetCloudflaredKind); [done|].
    rewrite (proj2 (str_eqb_neq kind' _)) by congruence. done.
Qed.

Lemma appAt_kind w kind a : appAt w kind = Some a → appKind a = kind.
Proof.
  unfold appAt. destruct (str_eqb kind DaemonSetCloudflaredKind) eqn:E; str_simpl.
  { destruct (w_daemonset w); [|done]. intros [= <-]. done. }
  destruct (str_eqb kind DeploymentCloudflaredKind) eqn:E'; str_simpl; [|done].
  destruct (w_deployment w); [|done]. by intros [= <-].
Qed.

Lemma available_nonempty c status message : available c status message ≠ [].
Proof.
  unfold available. intros He.
  destruct (set_condition_same (cds_Conditions (cfd_Status c)) (mkCondition typeAvailableCloudflared status reasonReconciling message))
    as (c' & Hc & _). rewrite He in Hc. done.
Qed.

(** The first condition is reported before anything else. *)
Lemma round_base spec meta t w c :
  w_cfd w = Some c → Base spec meta t c →
  ∃ c', Base spec meta t c' ∧ cds_Conditions (cfd_Status c') ≠ [] ∧
    cds_Kind (cfd_Status c') = cds_Kind (cfd_Status c) ∧
    (cds_Conditions (cfd_Status c) ≠ [] → c' = c) ∧
    round w = run handle (reconcileApp c') (putCfd w c').
Proof.
  intros Hw (Hs & Hm & Hk & Hd & Hkind & Hl). unfold round, Reconcile.
  rewrite run_bind. simpl. rewrite bool_decide_eq_true_2 by done. rewrite Hw. simpl.
  rewrite Hm, Hd, bool_decide_eq_false_2; [|by intros [? ?]].
  destruct (cds_Conditions (cfd_Status c)) as [|cond conds] eqn:Ec.
  - eexists. split; [|split; [|split; [|split; [|reflexivity]]]].
    + unfold Base, cfd_key. simpl. by split_and!.
    + simpl. apply available_nonempty.
    + done.
    + done.
  - exists c. split; [by unfold Base|]. rewrite Ec. split_and!; try done.
    f_equal. destruct w. simpl in *. by subst.
Qed.

(** A world in which an application of the wanted kind, if there is one, can be
    taken over. *)
Definition Good (spec : CloudflaredSpec) (meta : ObjectMeta) (t : tunnel) (w : World) (c : Cloudflared) : Prop :=
  w_cfd w = Some c ∧ Base spec meta t c ∧
  ∀ a, appAt w (cd_Kind spec) = Some a →
    IsControlledBy (appMeta a) meta = true ∧ appMatchLabels a ⊆ pt_Labels (podTemplateSpec t spec).

Section steps.
Context (spec : CloudflaredSpec) (meta : ObjectMeta) (t : tunnel).

Lemma withTemplate_kind c template a : appKind (withTemplate c template a) = appKind a.
Proof. by destruct a. Qed.

(** An application that is there is updated. *)
Lemma round_update w c a :
  Good spec meta t w c → cds_Kind (cfd_Status c) = Some (cd_Kind spec) → appAt w (cd_Kind spec) = Some a →
  ∃ w' c', round w = Some (done_, w') ∧ Good spec meta t w' c' ∧ Settled t w' ∧ (Settled t w → w' = w).
Proof.
  intros (Hw & Hb & Hg) Hk Ha. destruct (round_base _ _ _ _ _ Hw Hb) as (c' & Hb' & Hcond & Hk' & Hsame & ->).
  pose proof Hb' as (Hs & Hm & Hkey & _ & Hkind & Hl). destruct (Hg a Ha) as [Hctl Hlab].
  unfold reconcileApp. rewrite Hk', Hk, Hkey, Hs, run_bind, getApp_run, appAt_putCfd, Ha by done.
  rewrite str_eqb_refl. simpl. rewrite run_bind. unfold updateApp. rewrite run_bind, Hl, Hs. simpl.
  rewrite bool_decide_eq_true_2 by by destruct a. simpl.
  pose proof (appAt_kind _ _ _ Ha) as Hak.
  assert (appAt (putApp (putCfd w c') (withTemplate c' (podTemplateSpec t spec) a)) (cd_Kind spec)
    = Some (withTemplate c' (podTemplateSpec t spec) a)) as Hnew by (apply appAt_put; by rewrite withTemplate_kind).
  eexists _, c'. split; [reflexivity|]. split.
  { split; [by destruct a|]. split; [done|]. intros a'. rewrite Hnew. intros [= <-]. by destruct a. }
  split.
  - exists c', (withTemplate c' (podTemplateSpec t spec) a). rewrite Hs, Hm.
    split_and!; [by destruct a|done|by rewrite Hk'|exact Hnew|by destruct a|by destruct a|by destruct a].
  - intros (c2 & a2 & Hw2 & Hc2 & _ & Ha2 & _ & Hfix & _). rewrite Hw in Hw2. injection Hw2 as <-.
    destruct Hb as (Hs2 & _). rewrite Hs2 in Ha2, Hfix. rewrite Ha in Ha2. injection Ha2 as <-.
    rewrite (Hsame Hc2), Hfix. unfold appAt in Ha. destruct w as [wc wd wp]. simpl in *. subst wc.
    destruct (str_eqb _ _); [destruct wd; [|done]; by injection Ha as <-|].
    destruct (str_eqb _ _); [|done]. destruct wp; [|done]. by injection Ha as <-.
Qed.

(** One that is gone is forgotten. *)
Lemma round_missing w c kind :
  Good spec meta t w c → cds_Kind (cfd_Status c) = Some kind → isKind kind = true → appAt w kind = None →
  ∃ r w' c', round w = Some (r, w') ∧ Good spec meta t w' c' ∧ cds_Kind (cfd_Status c') = None ∧
    appAt w' (cd_Kind spec) = appAt w (cd_Kind spec).
Proof.
  intros (Hw & Hb & Hg) Hk Hkind Ha. destruct (round_base _ _ _ _ _ Hw Hb) as (c' & Hb' & _ & Hk' & _ & ->).
  pose proof Hb' as (Hs & Hm & Hkey & Hd & Hsk & Hl).
  unfold reconcileApp. rewrite Hk', Hk, Hkey, run_bind, getApp_run, appAt_putCfd, Ha by done. simpl.
  eexists _, _, _. split; [reflexivity|]. 
  split; [split; [reflexivity|split; [by unfold Base; simpl; split_and!|exact Hg]]|by split].
Qed.

(** One of another kind is deleted. *)
Lemma round_replace w c kind a :
  Good spec meta t w c → cds_Kind (cfd_Status c) = Some kind → isKind kind = true → kind ≠ cd_Kind spec →
  appAt w kind = Some a →
  ∃ r w' c', round w = Some (r, w') ∧ Good spec meta t w' c' ∧ cds_Kind (cfd_Status c') = Some kind ∧ appAt w' kind = None.
Proof.
  intros (Hw & Hb & Hg) Hk Hkind Hne Ha. destruct (round_base _ _ _ _ _ Hw Hb) as (c' & Hb' & _ & Hk' & _ & ->).
  pose proof Hb' as (Hs & Hm & Hkey & Hd & Hsk & Hl).
  unfold reconcileApp. rewrite Hk', Hk, Hkey, Hs, run_bind, getApp_run, appAt_putCfd, Ha by done. simpl.
  rewrite (proj2 (str_eqb_neq _ _)) by done. simpl.
  eexists _, _, c'. split; [reflexivity|]. pose proof (appAt_kind _ _ _ Ha) as Hak.
  unfold Good. split_and!.
  - unfold dropApp. by destruct (str_eqb _ _).
  - done.
  - intros a'. rewrite Hak, appAt_drop_other; [apply Hg|done|done].
  - by rewrite Hk'.
  - rewrite Hak. by apply appAt_drop.
Qed.

Lemma newApp_some c template : isKind (cd_Kind (cfd_Spec c)) = true →
  ∃ app, newApp c template = Some app ∧ appKind app = cd_Kind (cfd_Spec c) ∧
    appMeta app = newObjectMeta (om_Namespace (cfd_ObjectMeta c)) (om_Name (cfd_ObjectMeta c)) ∧
    (∀ m, withTemplate c template (withAppMeta app m) = withAppMeta app m) ∧ appMatchLabels app = pt_Labels template.
Proof.
  unfold isKind, newApp. destruct (str_eqb (cd_Kind (cfd_Spec c)) DaemonSetCloudflaredKind) eqn:E; str_simpl; simpl.
  { intros _. by eexists. }
  intros Hk. rewrite Hk. str_simpl. by eexists.
Qed.

(** Where none is recorded, one is adopted or created. *)
Lemma round_create w c :
  Good spec meta t w c → cds_Kind (cfd_Status c) = None →
  ∃ r w' c', round w = Some (r, w') ∧ Good spec meta t w' c' ∧ cds_Kind (cfd_Status c') = Some (cd_Kind spec) ∧
    is_Some (appAt w' (cd_Kind spec)) ∧ (appAt w (cd_Kind spec) = None → Settled t w').
Proof.
  intros (Hw & Hb & Hg) Hk. destruct (round_base _ _ _ _ _ Hw Hb) as (c' & Hb' & _ & Hk' & _ & ->).
  pose proof Hb' as (Hs & Hm & Hkey & Hd & Hsk & Hl).
  destruct (newApp_some c' (podTemplateSpec t spec)) as (app & Hn & Hak & Ham & Hat & Hal); [by rewrite Hs|].
  unfold reconcileApp. rewrite Hk', Hk, run_bind. unfold createApp. rewrite run_bind, Hl, Hs. simpl. rewrite Hn.
  unfold ensureApp. rewrite !run_bind, Hkey, Hs, getApp_run, appAt_putCfd by done. rewrite Hs in Hak.
  destruct (appAt w (cd_Kind spec)) as [a|] eqn:Ha.
  - simpl. destruct (Hg a eq_refl) as [Hctl Hlab]. rewrite Hm, Hctl. simpl.
    eexists _, _, _. split; [reflexivity|]. rewrite !appAt_putCfd. unfold Good. split_and!; try done.
    intros a'. rewrite !appAt_putCfd, Ha. intros [= <-]. done.
  - simpl. destruct (set_controller_new meta (appMeta app)) as [m Hset].
    { by rewrite Ham. }
    { rewrite Ham. simpl. by rewrite Hm. }
    rewrite Hm, Hset. simpl. assert (appKind (withAppMeta app m) = cd_Kind spec) as Hwk by (by destruct app).
    rewrite Hwk, appAt_putCfd, Ha. simpl.
    pose proof (set_controller_controls _ _ _ Hset) as Hctl.
    assert (appAt (putApp (putCfd w c') (withAppMeta app m)) (cd_Kind spec) = Some (withAppMeta app m)) as Hnew
      by by apply appAt_put.
    assert (appMeta (withAppMeta app m) = m ∧ appMatchLabels (withAppMeta app m) = pt_Labels (podTemplateSpec t spec)) as [Hmm Hll]
      by by destruct app.
    eexists _, _, _. split; [reflexivity|]. rewrite !appAt_putCfd, Hnew. unfold Good. split_and!; try done.
    + intros a'. rewrite !appAt_putCfd, Hnew. intros [= <-]. rewrite Hmm, Hll. done.
    + intros _. exists (withCloudflaredStatus c' (Some (cd_Kind spec)) (tn_Id t)
        (available c' ConditionTrue (cd_Kind spec +:+ " created successfully"))), (withAppMeta app m).
      simpl. rewrite Hs. split_and!; try done.
      * apply available_nonempty.
      * rewrite Hmm, Hm. done.
      * rewrite <- Hat at 2. by destruct app.
      * by rewrite Hll.
Qed.
Lemma rounds_step n w r w' : round w = Some (r, w') → rounds (S n) w = rounds n w'.
Proof. intros Hr. simpl. by rewrite Hr. Qed.

Definition Done (w : World) : Prop := Settled t w ∧ ∃ c, Good spec meta t w c.

Lemma settled_fixed w : Done w → round w = Some (done_, w).
Proof.
  intros [Hs (c & Hg)]. pose proof Hs as (c' & a & Hw & _ & Hk & Ha & _).
  pose proof Hg as (Hw' & (Hsp & _) & _). rewrite Hw in Hw'. injection Hw' as ->. rewrite Hsp in Hk, Ha.
  destruct (round_update _ _ _ Hg Hk Ha) as (w' & _ & Hr & _ & _ & Hfix). by rewrite (Hfix Hs) in Hr.
Qed.

Lemma settled_rounds n w : Done w → rounds n w = Some w.
Proof. intros Hd. induction n as [|n IH]; [done|]. by rewrite (rounds_step _ _ _ _ (settled_fixed _ Hd)). Qed.

Lemma settles_update n w c a :
  Good spec meta t w c → cds_Kind (cfd_Status c) = Some (cd_Kind spec) → appAt w (cd_Kind spec) = Some a →
  ∃ w', rounds (S n) w = Some w' ∧ Done w'.
Proof.
  intros Hg Hk Ha. destruct (round_update _ _ _ Hg Hk Ha) as (w' & c' & Hr & Hg' & Hs & _).
  assert (Done w') as Hd by (split; [done|by exists c']).
  exists w'. rewrite (rounds_step _ _ _ _ Hr). by rewrite settled_rounds.
Qed.

Lemma settles_create n w c :
  Good spec meta t w c → cds_Kind (cfd_Status c) = None → ∃ w', rounds (S (S n)) w = Some w' ∧ Done w'.
Proof.
  intros Hg Hk. destruct (round_create _ _ Hg Hk) as (r & w1 & c1 & Hr & Hg1 & Hk1 & [a Ha] & _).
  rewrite (rounds_step _ _ _ _ Hr). by eapply settles_update.
Qed.

Lemma settles_missing n w c kind :
  Good spec meta t w c → cds_Kind (cfd_Status c) = Some kind → isKind kind = true → appAt w kind = None →
  ∃ w', rounds (S (S (S n))) w = Some w' ∧ Done w'.
Proof.
  intros Hg Hk Hkind Ha. destruct (round_missing _ _ _ Hg Hk Hkind Ha) as (r & w1 & c1 & Hr & Hg1 & Hk1 & _).
  rewrite (rounds_step _ _ _ _ Hr). by eapply settles_create.
Qed.

(** C27. A Cloudflared settles, one that is not being deleted. Whatever its status
    records, of the kinds the schema allows, and whichever applications of its
    name exist, when its kind is supported, its tunnel can be
    looked up and an application of that kind that is already there is its own
    and selects the pods it is to get, then after at most four reconciliations it
    is run by one of the kind it asks for, with the pod and replicas it asks for,
    and its status says so; and from then on reconciling changes nothing. *)
Theorem Reconcile_settles w c :
  Good spec meta t w c → (∀ kind, cds_Kind (cfd_Status c) = Some kind → isKind kind = true) →
  ∃ w' c' app, rounds 4 w = Some w' ∧ w_cfd w' = Some c' ∧ cfd_Spec c' = spec ∧ cfd_ObjectMeta c' = meta ∧
    cds_Kind (cfd_Status c') = Some (cd_Kind spec) ∧ appAt w' (cd_Kind spec) = Some app ∧
    IsControlledBy (appMeta app) meta = true ∧ withTemplate c' (podTemplateSpec t spec) app = app ∧
    round w' = Some (done_, w').
Proof.
  intros Hg Hkinds.
  assert (∃ w', rounds 4 w = Some w' ∧ Done w') as (w' & Hr & Hd).
  { destruct (cds_Kind (cfd_Status c)) as [kind|] eqn:Hk; [|by apply (settles_create 2 w c)].
    specialize (Hkinds kind eq_refl).
    destruct (appAt w kind) as [a|] eqn:Ha; [|by apply (settles_missing 1 w c kind)].
    destruct (decide (kind = cd_Kind spec)) as [->|Hne]; [by apply (settles_update 3 w c a)|].
    destruct (round_replace _ _ _ _ Hg Hk Hkinds Hne Ha) as (r & w1 & c1 & Hr & Hg1 & Hk1 & Ha1).
    rewrite (rounds_step _ _ _ _ Hr). by apply (settles_missing 0 w1 c1 kind). }
  pose proof (settled_fixed _ Hd) as Hfix. destruct Hd as [(c' & app & Hw & _ & Hk & Ha & Hc & Ht & _) (c2 & Hw2 & (Hs & Hm & _) & _)].
  rewrite Hw in Hw2. injection Hw2 as <-. rewrite Hs in Hk, Ha, Ht. rewrite Hm in Hc.
  by exists w', c', app.
Qed.
End steps.
End world.

(** ** A sample world *)

(** A Cloudflared recorded as a Deployment that is to run as a DaemonSet. *)
Definition sampleSpec (kind version : string) : CloudflaredSpec :=
  {| cd_Config := None; cd_Kind := kind; cd_Replicas := None; cd_Template := None; cd_Version := version |}.

Definition sampleCloudflared (kind version : string) : Cloudflared :=
  {| cfd_ObjectMeta := sampleMeta "default" "cf"; cfd_Spec := sampleSpec kind version;
     cfd_Status := {| cds_Kind := Some DeploymentCloudflaredKind; cds_TunnelId := None; cds_Conditions := [] |} |}.

Definition sampleKey : NamespacedName := {| nn_Namespace := "default"; nn_Name := "cf" |}.

Definition sampleWorld (kind version : string) (deployment : option Deployment) : World :=
  {| w_cfd := Some (sampleCloudflared kind version); w_daemonset := None; w_deployment := deployment |}.

Definition noTunnels : NamespacedName → CloudflareTunnel + Err := λ _, inr notFound.
Definition noTokens : string → string → option string + Err := λ _ _, inl None.

Lemma Reconcile_settles_witness :
  ∃ w' app, rounds (H := sampleHelpers) sampleKey noTunnels noTokens 4
      (sampleWorld DaemonSetCloudflaredKind "1.0.0"
        (Some (createDeployment (sampleCloudflared DeploymentCloudflaredKind "1.0.0") emptyPodTemplate))) = Some w' ∧
    appAt w' DaemonSetCloudflaredKind = Some app ∧
    round (H := sampleHelpers) sampleKey noTunnels noTokens w' = Some (done_, w').
Proof.
  destruct (@Reconcile_settles sampleHelpers sample_laws sample_owner_laws sampleKey noTunnels noTokens
    (sampleSpec DaemonSetCloudflaredKind "1.0.0") (sampleMeta "default" "cf") noTunnel
    (sampleWorld DaemonSetCloudflaredKind "1.0.0"
        (Some (createDeployment (sampleCloudflared DeploymentCloudflaredKind "1.0.0") emptyPodTemplate)))
    (sampleCloudflared DaemonSetCloudflaredKind "1.0.0")) as (w' & c' & app & Hr & _ & _ & _ & _ & Ha & _ & _ & Hf).
  - split; [done|]. split; [by unfold Base; split_and!|]. done.
  - by intros kind [= <-].
  - exists w', app. split; [exact Hr|]. split; [exact Ha|exact Hf].
Defined.

(** ** What does not settle *)

(** A change of version changes the labels of the pods and not the selector: the
    update is rejected by every reconciliation. *)
Definition versionOne : World :=
  {| w_cfd := Some {| cfd_ObjectMeta := sampleMeta "default" "cf"; cfd_Spec := sampleSpec DeploymentCloudflaredKind "1.0.0";
                      cfd_Status := {| cds_Kind := None; cds_TunnelId := None; cds_Conditions := [] |} |};
     w_daemonset := None; w_deployment := None |}.

Definition bumped (w : World) : World :=
  match w_cfd w with
  | Some c => putCfd w {| cfd_ObjectMeta := cfd_ObjectMeta c; cfd_Spec := sampleSpec DeploymentCloudflaredKind "2.0.0";
                          cfd_Status := cfd_Status c |}
  | None => w
  end.

Definition rejected (r : option (Result * World)) : bool :=
  match r with Some (res, _) => bool_decide (is_Some (result_err res)) | None => false end.

Example version_change_rejected :
  match rounds (H := sampleHelpers) sampleKey noTunnels noTokens 2 versionOne with
  | Some w => rejected (round (H := sampleHelpers) sampleKey noTunnels noTokens (bumped w))
  | None => false
  end = true.
Proof. vm_compute. reflexivity. Qed.

(** An image of a registry with a port: its version label is no label value. *)
Example registry_port_version : imageVersion "registry:5000/cloudflared:2.0" = "5000/cloudflared".
Proof. reflexivity. Qed.

(** The recorded kind's application is deleted without a look at its owner. *)
Lemma unowned_deleted `{ObjectHelpers} c d :
  cds_Kind (cfd_Status c) = Some DeploymentCloudflaredKind → cd_Kind (cfd_Spec c) = DaemonSetCloudflaredKind →
  ∃ tr res, exec (reconcileApp c) tr res ∧
    tr = [Ev (GetDeployment (cfd_key c)) (inl d); Ev (DeleteApp (DeploymentApp d)) None].
Proof.
  intros Hk Hs. eexists _, _. split; [|reflexivity]. unfold reconcileApp. rewrite Hk, Hs.
  repeat (constructor; simpl).
Qed.

(** An update records no tunnel: the status keeps the one it was created with. *)
Lemma updateApp_keeps_status `{ObjectHelpers} app c :
  emits (λ R e, match e with PatchCloudflaredStatus _ _ => False | _ => True end) (updateApp app c).
Proof. unfold updateApp, lookupTunnel, lookupIds, getTunnelRef. repeat first [emits_step|done]. Qed.
