(* ===== verification/Client.v ===== *)
(** * The client of the Cloudflare API (internal/client/client.go)

    The methods of [Client], each a request of the SDK. The ones that list gather
    what the SDK's pager yields, page after page. The SDK is behind the requests,
    and its pager a parameter: [Yields] is what its documentation says of it. The
    parameters of a method are those the controllers set. *)
From S2P Require Import Prelude API Effects Logic Requests TunnelApi CloudflaredCtl RecordCtl.

(** ** The methods *)

Inductive ClientE : Type → Type :=
  | Client_CreateDnsRecord (zone : string) (body : option RecordParam) : ClientE (RemoteRecord + Err)
  | Client_CreateRoute (params : RouteNewParams) : ClientE (Teamnet + Err)
  | Client_CreateTunnel (params : TunnelNewParams) : ClientE (RemoteTunnel + Err)
  | Client_DeleteDnsRecord (recordId zone : string) : ClientE (string + Err)
  | Client_DeleteRoute (routeId account : string) : ClientE (Teamnet + Err)
  | Client_DeleteTunnel (tunnelId account : string) : ClientE (RemoteTunnel + Err)
  | Client_EditTunnel (tunnelId account name : string) : ClientE (option RemoteTunnel + Err)
  | Client_GetDnsRecord (recordId zone : string) : ClientE (RemoteRecord + Err)
  | Client_GetTunnel (tunnelId account : string) : ClientE (RemoteTunnel + Err)
  | Client_GetTunnelToken (tunnelId account : string) : ClientE (option string + Err)
  | Client_GetZone (zoneId : string) : ClientE (string + Err)
  | Client_ListDnsRecords (zone name type : string) : ClientE (list RemoteRecord * option Err)
  | Client_ListRoutes (account tunnelId : string) : ClientE (list Teamnet * option Err)
  | Client_ListTunnels (account name : string) : ClientE (list RemoteTunnel * option Err)
  | Client_ListVirtualNetworks (account : string) : ClientE (list string * option Err)
  | Client_UpdateConfiguration (tunnelId account : string) (config : ConfigParams) : ClientE (unit + Err)
  | Client_UpdateDnsRecord (recordId zone : string) (body : option RecordParam) : ClientE (RemoteRecord + Err).

(** ** The SDK *)

(** A pager of the SDK, with the pages it is going to get. *)
Class AutoPager := {
  Pager : Type → Type;
  Next : ∀ {A}, Pager A → bool * Pager A;
  Current : ∀ {A}, Pager A → A;
  PagerErr : ∀ {A}, Pager A → option Err;
}.

Section client.
Context `{AutoPager}.

Inductive SdkE : Type → Type :=
  | Records_New (zone : string) (body : option RecordParam) : SdkE (RemoteRecord + Err)
  | Routes_New (params : RouteNewParams) : SdkE (Teamnet + Err)
  | Tunnels_New (params : TunnelNewParams) : SdkE (RemoteTunnel + Err)
  | Records_Delete (recordId zone : string) : SdkE (string + Err)
  | Routes_Delete (routeId account : string) : SdkE (Teamnet + Err)
  | Tunnels_Delete (tunnelId account : string) : SdkE (RemoteTunnel + Err)
  | Tunnels_Edit (tunnelId account name : string) : SdkE (option RemoteTunnel + Err)
  | Records_Get (recordId zone : string) : SdkE (RemoteRecord + Err)
  | Tunnels_Get (tunnelId account : string) : SdkE (RemoteTunnel + Err)
  | Token_Get (tunnelId account : string) : SdkE (option string + Err)
  | Zones_Get (zoneId : string) : SdkE (string + Err)
  | Records_ListAutoPaging (zone name type : string) : SdkE (Pager RemoteRecord)
  | Routes_ListAutoPaging (account tunnelId : string) : SdkE (Pager Teamnet)
  | Tunnels_ListAutoPaging (account name : string) : SdkE (Pager RemoteTunnel)
  | VirtualNetworks_ListAutoPaging (account : string) : SdkE (Pager string)
  | Configurations_Update (tunnelId account : string) (config : ConfigParams) : SdkE (unit + Err)
  | Records_Update (recordId zone : string) (body : option RecordParam) : SdkE (RemoteRecord + Err).

(** The loop of the methods that list; nothing when the fuel runs out. *)
Fixpoint gather {A} (fuel : nat) (items : list A) (iter : Pager A) : option (list A * option Err) :=
  match fuel with
  | O => None
  | S fuel =>
    let '(more, iter) := Next iter in
    if more then gather fuel (items ++ [Current iter]) iter else Some (items, PagerErr iter)
  end.

Definition once {R} (e : SdkE R) : prog SdkE (option R) := do r <- call e; Ret (Some r).

Definition paged {A} (fuel : nat) (e : SdkE (Pager A)) : prog SdkE (option (list A * option Err)) :=
  do iter <- call e; Ret (gather fuel [] iter).

(** The methods of [client]. *)
Definition client (fuel : nat) {R} (e : ClientE R) : prog SdkE (option R) :=
  match e in ClientE R return prog SdkE (option R) with
  | Client_CreateDnsRecord zone body => once (Records_New zone body)
  | Client_CreateRoute params => once (Routes_New params)
  | Client_CreateTunnel params => once (Tunnels_New params)
  | Client_DeleteDnsRecord recordId zone => once (Records_Delete recordId zone)
  | Client_DeleteRoute routeId account => once (Routes_Delete routeId account)
  | Client_DeleteTunnel tunnelId account => once (Tunnels_Delete tunnelId account)
  | Client_EditTunnel tunnelId account name => once (Tunnels_Edit tunnelId account name)
  | Client_GetDnsRecord recordId zone => once (Records_Get recordId zone)
  | Client_GetTunnel tunnelId account => once (Tunnels_Get tunnelId account)
  | Client_GetTunnelToken tunnelId account => once (Token_Get tunnelId account)
  | Client_GetZone zoneId => once (Zones_Get zoneId)
  | Client_ListDnsRecords zone name type => paged fuel (Records_ListAutoPaging zone name type)
  | Client_ListRoutes account tunnelId => paged fuel (Routes_ListAutoPaging account tunnelId)
  | Client_ListTunnels account name => paged fuel (Tunnels_ListAutoPaging account name)
  | Client_ListVirtualNetworks account => paged fuel (VirtualNetworks_ListAutoPaging account)
  | Client_UpdateConfiguration tunnelId account config => once (Configurations_Update tunnelId account config)
  | Client_UpdateDnsRecord recordId zone body => once (Records_Update recordId zone body)
  end.

(** ** What the controllers ask of it *)

(** A result as the controllers read it: the error first. *)
Definition failure {A} (r : A + Err) : option Err := match r with inl _ => None | inr err => Some err end.

Definition items {A} (r : list A * option Err) : list A + Err :=
  match r.2 with Some err => inr err | None => inl r.1 end.

Definition asked {R R'} (fuel : nat) (f : R → R') (e : ClientE R) : option (prog SdkE (option R')) :=
  Some (do r <- client fuel e; Ret (f <$> r)).

(** The requests of the tunnel controller that are the client's. *)
Definition tunnelClient (fuel : nat) {R} (e : TunnelE R) : option (prog SdkE (option R)) :=
  match e in TunnelE R return option (prog SdkE (option R)) with
  | GetZone zoneId => asked fuel id (Client_GetZone zoneId)
  | ListRoutes account tunnelId => asked fuel items (Client_ListRoutes account tunnelId)
  | DeleteRoute account id => asked fuel failure (Client_DeleteRoute id account)
  | CreateRoute params => asked fuel failure (Client_CreateRoute params)
  | ListDefaultVirtualNetworks account => asked fuel items (Client_ListVirtualNetworks account)
  | CreateTunnel params => asked fuel id (Client_CreateTunnel params)
  | ListTunnels account name => asked fuel items (Client_ListTunnels account name)
  | GetTunnel tunnelId account => asked fuel id (Client_GetTunnel tunnelId account)
  | EditTunnel tunnelId account name => asked fuel id (Client_EditTunnel tunnelId account name)
  | UpdateConfiguration tunnelId account config => asked fuel failure (Client_UpdateConfiguration tunnelId account config)
  | DeleteTunnel tunnelId account => asked fuel failure (Client_DeleteTunnel tunnelId account)
  | _ => None
  end.

(** Those of the DnsRecord controller. *)
Definition recordClient (fuel : nat) {R} (e : RecordE R) : option (prog SdkE (option R)) :=
  match e in RecordE R return option (prog SdkE (option R)) with
  | ListRemote zone name type => asked fuel items (Client_ListDnsRecords zone name type)
  | GetRemote zone recordId => asked fuel id (Client_GetDnsRecord recordId zone)
  | CreateRemote zone body => asked fuel id (Client_CreateDnsRecord zone body)
  | UpdateRemote zone recordId body => asked fuel id (Client_UpdateDnsRecord recordId zone body)
  | DeleteRemote zone recordId => asked fuel failure (Client_DeleteDnsRecord recordId zone)
  | _ => None
  end.

(** And that of the Cloudflared controller. *)
Definition cloudflaredClient (fuel : nat) {R} (e : CloudflaredE R) : option (prog SdkE (option R)) :=
  match e in CloudflaredE R return option (prog SdkE (option R)) with
  | GetTunnelToken tunnelId account => asked fuel id (Client_GetTunnelToken tunnelId account)
  | _ => None
  end.

(** ** Properties *)

(** The SDK's promise: [Next] moves to the next item of the pages, which [Current]
    then is; when there is none, or a page could not be got, it reports the end,
    and [Err] the page's error. *)
Inductive Yields {A} : Pager A → list A → option Err → Prop :=
  | yields_end p p' : Next p = (false, p') → Yields p [] (PagerErr p')
  | yields_item p p' l err : Next p = (true, p') → Yields p' l err → Yields p (Current p' :: l) err.

Lemma gather_yields {A} fuel acc (p : Pager A) l err :
  Yields p l err → length l < fuel → gather fuel acc p = Some (acc ++ l, err).
Proof.
  intros Hy. revert fuel acc. induction Hy as [p p' Hp|p p' l err Hp Hy IH]; intros [|fuel] acc Hf; simpl in *; try lia; rewrite Hp.
  - by rewrite app_nil_r.
  - rewrite IH by lia. by rewrite <- app_assoc.
Qed.

(** More fuel changes nothing. *)
Lemma gather_more {A} fuel fuel' acc (p : Pager A) r : gather fuel acc p = Some r → fuel ≤ fuel' → gather fuel' acc p = Some r.
Proof.
  revert fuel' acc p. induction fuel as [|fuel IH]; intros [|fuel'] acc p; simpl; try done; [lia|].
  destruct (Next p) as [[] p']; [|done]. intros Hg Hl. apply IH; [done|lia].
Qed.

Lemma asked_once {R R'} (sdk : ∀ R, SdkE R → R) fuel (f : R → R') (e : ClientE R) (r : R) :
  outcome sdk (client fuel e) = Some r → outcome sdk <$> asked fuel f e = Some (Some (f r)).
Proof. intros Hc. unfold asked. simpl. by rewrite outcome_bind, Hc. Qed.

(** What a list is for the controllers: its items, or what went wrong. *)
Definition whole {A} (l : list A) (err : option Err) : list A + Err :=
  match err with Some err => inr err | None => inl l end.

Lemma asked_paged {A} (sdk : ∀ R, SdkE R → R) fuel (c : ClientE (list A * option Err)) (e : SdkE (Pager A)) l err :
  client fuel c = paged fuel e → Yields (sdk _ e) l err → length l < fuel →
  outcome sdk <$> asked fuel items c = Some (Some (whole l err)).
Proof.
  intros Hc Hy Hf. erewrite asked_once; [|rewrite Hc; simpl; by apply gather_yields]. by destruct err.
Qed.

(** The lists the controllers act on are whole: each has the items of every page of
    the list, in order. When a page cannot be got, the controllers see that error,
    and none of the items before it. *)
Theorem lists_whole (sdk : ∀ R, SdkE R → R) (rows : ∀ A, SdkE (Pager A) → list A) (fails : ∀ A, SdkE (Pager A) → option Err) fuel :
  (∀ A e, Yields (sdk (Pager A) e) (rows A e) (fails A e) ∧ length (rows A e) < fuel) →
  let answered {A} (e : SdkE (Pager A)) := Some (Some (whole (rows A e) (fails A e))) in
  (∀ account id, outcome sdk <$> tunnelClient fuel (ListRoutes account id) = answered (Routes_ListAutoPaging account id)) ∧
  (∀ account name, outcome sdk <$> tunnelClient fuel (ListTunnels account name) = answered (Tunnels_ListAutoPaging account name)) ∧
  (∀ account, outcome sdk <$> tunnelClient fuel (ListDefaultVirtualNetworks account) =
     answered (VirtualNetworks_ListAutoPaging account)) ∧
  (∀ zone name type, outcome sdk <$> recordClient fuel (ListRemote zone name type) = answered (Records_ListAutoPaging zone name type)).
Proof.
  intros Hsdk answered. split_and!; intros; cbn [tunnelClient recordClient]; eapply asked_paged; try apply Hsdk; done.
Qed.
End client.

(** A pager of items, with the current one. *)
Definition samplePager : AutoPager :=
  {| Pager A := (A * list A * option Err)%type;
     Next A p := match p with (c, x :: l, err) => (true, (x, l, err)) | (c, [], err) => (false, (c, [], err)) end;
     Current A p := p.1.1; PagerErr A p := p.2 |}.

Lemma sample_yields {A} (c : A) l err : Yields (H := samplePager) (c, l, err) l err.
Proof.
  revert c. induction l as [|x l IH]; intros c; [by apply (yields_end (H := samplePager) (c, [], err) (c, [], err))|].
  by apply (yields_item (H := samplePager) (c, x :: l, err) (x, l, err)).
Qed.
