(* ===== verification/RouteCtl.v ===== *)
(** * The route controller (internal/controller/route_controller.go)

    What a route reports about each Gateway it names: the Gateway is built as the
    xDS controller builds it, and the route's entries for it are merged into its
    status, which other controllers write to as well. The controller is generic in
    the kind of route; a route is one of the five kinds with its status. *)
From S2P Require Import Prelude GatewayAPI Samples Effects Helpers Access Refs Routes Envoy Listeners Hosts Model API GatewayLoad GatewayStatus EnvoyDeploy GatewayCtl.

Inductive RouteObject :=
  | HTTPRouteObject (r : HTTPRoute)
  | GRPCRouteObject (r : GRPCRoute)
  | TLSRouteObject (r : TLSRoute)
  | TCPRouteObject (r : TCPRoute)
  | UDPRouteObject (r : UDPRoute).

(** [gatewayv1.RouteParentStatus]. *)
Record RouteParentStatus := {
  rps_ParentRef : ParentReference;
  rps_ControllerName : string;
  rps_Conditions : list Condition;
}.

#[export] Instance RouteParentStatus_eq_dec : EqDecision RouteParentStatus.
Proof. solve_decision. Defined.

Record RouteWithStatus := { rws_Object : RouteObject; rws_Parents : list RouteParentStatus }.

(** [routeOf]; every object of the type is a route. *)
Definition routeOf (obj : RouteObject) : Route :=
  match obj with
  | HTTPRouteObject r => FromHTTPRoute r
  | GRPCRouteObject r => FromGRPCRoute r
  | TLSRouteObject r => FromTLSRoute r
  | TCPRouteObject r => FromTCPRoute r
  | UDPRouteObject r => FromUDPRoute r
  end.

Section merge.
Context `{ObjectHelpers}.

Definition oursEntry (p : RouteParentStatus) : bool := str_eqb (rps_ControllerName p) ControllerName.

(** The conditions of our first entry for a parent. *)
Fixpoint previousEntry (existing : list RouteParentStatus) (ref : ParentReference) : list Condition :=
  match existing with
  | [] => []
  | p :: existing =>
    if oursEntry p && bool_decide (rps_ParentRef p = ref) then rps_Conditions p else previousEntry existing ref
  end.

Definition mergeEntry (existing : list RouteParentStatus) (generation : Z) (d : RouteParentStatus) : RouteParentStatus :=
  let conditions := foldl (setObserved generation) (previousEntry existing (rps_ParentRef d)) (rps_Conditions d) in
  {| rps_ParentRef := rps_ParentRef d; rps_ControllerName := rps_ControllerName d;
     rps_Conditions := removeConditionsExcept conditions (c_Type <$> rps_Conditions d) |}.

(** [mergeParents]. In Go an entry's conditions share storage with those of the
    entry they start from, which only matters to parents that are the same: these
    get the same conditions. *)
Definition mergeParents (existing desired : list RouteParentStatus) (generation : Z) : list RouteParentStatus :=
  List.filter (λ p, negb (oursEntry p)) existing ++ (mergeEntry existing generation <$> desired).
End merge.

(** ** Requests *)

Inductive RouteE : Type → Type :=
  | RouteReads (R : Type) (e : LoadE R) : RouteE R
  | GetRoute (key : NamespacedName) : RouteE (RouteWithStatus + Err)
  | GetParentGateway (key : NamespacedName) : RouteE (Gateway + Err)
  | PatchParents (original : RouteWithStatus) (parents : list RouteParentStatus) : RouteE (option Err).

Section reconcile.
Context `{X509, LabelSelectors, ObjectHelpers}.

(** The entries of a route in a model. *)
Definition sameRoute (route r : Route) : bool :=
  bool_decide (r_Kind r = r_Kind route) && str_eqb (r_Namespace r) (r_Namespace route) && str_eqb (r_Name r) (r_Name route).

Definition attachedEntry (route : Route) (attached : AttachedRoute) : list RouteParentStatus :=
  if sameRoute route (at_Route attached) then
    (λ parent, {| rps_ParentRef := pa_Ref parent; rps_ControllerName := ControllerName;
                  rps_Conditions := [pa_Accepted parent; at_ResolvedRefs attached] |}) <$> at_Parents attached
  else [].

Definition attachedEntries (m : Model) (route : Route) : list RouteParentStatus := md_Routes m ≫= attachedEntry route.

(** [parentStatuses]. *)
Definition parentStatuses (features : Features) (route : Route) (key : NamespacedName)
    : prog RouteE (list RouteParentStatus + Err) :=
  do gw <- call (GetParentGateway key);
  match gw with
  | inr err => Ret (if k8s_IsNotFound err then inl [] else inr err)
  | inl gw =>
    do? (_, ours) <- lift RouteReads (gatewayClassFor gw);
    if negb ours then Ret (inl [])
    else
      do? (model, _) <- lift RouteReads (buildGateway gw features);
      Ret (inl (attachedEntries model route))
  end.

Fixpoint desiredParents (features : Features) (route : Route) (keys : list NamespacedName)
    : prog RouteE (list RouteParentStatus + Err) :=
  match keys with
  | [] => Ret (inl [])
  | key :: keys =>
    do? parents <- parentStatuses features route key;
    do? rest <- desiredParents features route keys;
    Ret (inl (parents ++ rest))
  end.

(** [Reconcile]. *)
Definition Reconcile (features : Features) (req : NamespacedName) : prog RouteE Result :=
  do obj <- call (GetRoute req);
  match obj with
  | inr err => Ret {| requeueAfter := 0; result_err := k8s_IgnoreNotFound (Some err) |}
  | inl obj =>
    let route := routeOf (rws_Object obj) in
    if bool_decide (is_Some (om_DeletionTimestamp (r_ObjectMeta route))) then Ret done_
    else
      do desired <- desiredParents features route (parentGateways route);
      match desired with
      | inr err => Ret (failed err)
      | inl desired =>
        let parents := mergeParents (rws_Parents obj) desired (om_Generation (r_ObjectMeta route)) in
        if bool_decide (rws_Parents obj = parents) then Ret done_
        else
          do err <- call (PatchParents obj parents);
          Ret {| requeueAfter := 0; result_err := err |}
      end
  end.

(** [allRoutes], of the routes of a kind that [keep] keeps. *)
Definition allRoutes (features : Features) (kind : GroupKind) (keep : option (Route → bool)) : prog LoadE (list NamespacedName) :=
  do routes <- ListRoutes features;
  Ret (match routes with
       | inr _ => []
       | inl routes =>
         omap (λ r, if negb (bool_decide (r_Kind r = kind)) || match keep with Some keep => negb (keep r) | None => false end
                    then None else Some {| nn_Namespace := r_Namespace r; nn_Name := r_Name r |}) routes
       end).

(** The requests a Gateway's event makes. *)
Definition routesOfGateway (features : Features) (kind : GroupKind) (key : NamespacedName) : prog LoadE (list NamespacedName) :=
  allRoutes features kind (Some (λ r, bool_decide (key ∈ parentGateways r))).

End reconcile.

(** [routeParentsHandler] (gateway_watch.go): the Gateways enqueued for the
    objects of an event, the old one and the new one of an update. *)
Definition enqueueParents (objs : list RouteObject) : list NamespacedName := obj ← objs; parentGateways (routeOf obj).

Inductive RouteEvent := CreateEvent (o : RouteObject) | UpdateEvent (old new : RouteObject) | DeleteEvent (o : RouteObject).

Definition routeParentsHandler (ev : RouteEvent) : list NamespacedName :=
  match ev with
  | CreateEvent o | DeleteEvent o => enqueueParents [o]
  | UpdateEvent old new => enqueueParents [old; new]
  end.

(** ** Merging *)

Section merge_props.
Context `{ObjectHelpers, !ConditionLaws}.

Lemma setAll_time generation desired cs c old :
  NoDup (c_Type <$> desired) → c ∈ desired → conditionOf cs (c_Type c) = Some old → c_Status old = c_Status c →
  ∃ c', conditionOf (foldl (setObserved generation) cs desired) (c_Type c) = Some c' ∧
    c_LastTransitionTime c' = c_LastTransitionTime old.
Proof.
  revert cs. induction desired as [|d desired IH]; intros cs Hnd Hin Ho Hs; [by apply elem_of_nil in Hin|].
  simpl in *. apply NoDup_cons in Hnd as [Hd Hnd]. apply elem_of_cons in Hin as [->|Hin].
  - destruct (setAll_spec generation desired (setObserved generation cs d) (c_Type d) Hnd) as [_ Hout].
    rewrite (Hout Hd). destruct (setObserved_same generation cs d) as (c' & Hc & _). exists c'. split; [done|].
    unfold setObserved in Hc. by apply (set_condition_time cs (observedAt generation d) c' old).
  - apply IH; [done|done| |done]. rewrite setObserved_other; [done|].
    intros He. apply Hd. rewrite <- He. by apply list_elem_of_fmap_2.
Qed.

(** Our first entry for a parent. *)
Definition FirstEntry (existing : list RouteParentStatus) (ref : ParentReference) (p : RouteParentStatus) : Prop :=
  ∃ before after, existing = before ++ p :: after ∧
    rps_ControllerName p = "cloudflare.unmango.dev/gateway-controller" ∧ rps_ParentRef p = ref ∧
    ∀ q, q ∈ before → rps_ControllerName q = "cloudflare.unmango.dev/gateway-controller" → rps_ParentRef q ≠ ref.

(** An entry says exactly what is desired of it, as of a generation; a condition
    keeps its transition time when our entry for the same parent had its status. *)
Record MergedEntry (existing : list RouteParentStatus) (generation : Z) (d e : RouteParentStatus) : Prop := {
  me_parent : rps_ParentRef e = rps_ParentRef d;
  me_controller : rps_ControllerName e = rps_ControllerName d;
  me_says c : c ∈ rps_Conditions d → ∃ c', conditionOf (rps_Conditions e) (c_Type c) = Some c' ∧ Says generation c c' ∧
    ∀ p old, FirstEntry existing (rps_ParentRef d) p → conditionOf (rps_Conditions p) (c_Type c) = Some old →
      c_Status old = c_Status c → c_LastTransitionTime c' = c_LastTransitionTime old;
  me_only t : is_Some (conditionOf (rps_Conditions e) t) → t ∈ c_Type <$> rps_Conditions d;
}.

(** The entries of other controllers, as they are, and then the desired ones. *)
Definition Merged (existing desired : list RouteParentStatus) (generation : Z) (merged : list RouteParentStatus) : Prop :=
  ∃ ours, merged = filter (λ p, rps_ControllerName p ≠ "cloudflare.unmango.dev/gateway-controller") existing ++ ours ∧
    Forall2 (MergedEntry existing generation) desired ours.

Lemma FirstEntry_previous existing ref p : FirstEntry existing ref p → previousEntry existing ref = rps_Conditions p.
Proof.
  intros (before & after & -> & Hc & Hr & Hb). induction before as [|q before IH]; simpl.
  - unfold oursEntry. rewrite Hc, Hr, bool_decide_eq_true_2 by done. done.
  - unfold oursEntry. destruct (str_eqb (rps_ControllerName q) ControllerName) eqn:E; str_simpl; simpl.
    + rewrite bool_decide_eq_false_2 by (apply Hb; [by left|done]). apply IH. intros q' Hq. apply Hb. by right.
    + apply IH. intros q' Hq. apply Hb. by right.
Qed.

Lemma mergeParents_Merged existing desired generation :
  (∀ d, d ∈ desired → NoDup (c_Type <$> rps_Conditions d)) →
  Merged existing desired generation (mergeParents existing desired generation).
Proof.
  intros Hd. exists (mergeEntry existing generation <$> desired). split.
  { unfold mergeParents. f_equal. apply list_filter_iff || idtac. induction existing as [|p l IH]; [done|]. simpl.
    rewrite filter_cons, IH. unfold oursEntry. destruct (str_eqb (rps_ControllerName p) ControllerName) eqn:E; str_simpl;
      case_decide as Hp; done. }
  apply Forall2_fmap_r, Forall_Forall2_diag, Forall_forall. intros d Hin. pose proof (Hd d Hin) as Hnd.
  split; [done|done|..]; cbn [mergeEntry rps_Conditions].
  - intros c Hc. rewrite conditionOf_keep, bool_decide_eq_true_2 by by apply list_elem_of_fmap_2.
    destruct (setAll_spec generation (rps_Conditions d) (previousEntry existing (rps_ParentRef d)) (c_Type c) Hnd) as [Hs _].
    destruct (Hs c Hc eq_refl) as (c' & Hc' & Hsays). exists c'. split_and!; [done|done|].
    intros p old Hp Ho Hst. rewrite <- (FirstEntry_previous _ _ _ Hp) in Ho.
    destruct (setAll_time generation _ _ c old Hnd Hc Ho Hst) as (c2 & Hc2 & Ht). rewrite Hc' in Hc2. by injection Hc2 as <-.
  - intros t. rewrite conditionOf_keep. case_bool_decide; [done|]. by intros [? ?].
Qed.
End merge_props.

(** ** What a run did *)

Definition parentsPatched (ev : event RouteE) : option (RouteWithStatus * list RouteParentStatus) :=
  let 'Ev e _ := ev in
  match e with PatchParents original parents => Some (original, parents) | _ => None end.

Section reconcile_props.
Context `{X509, LabelSelectors, ObjectHelpers, !ConditionLaws}.

Lemma at_Route_attachRoute gw ls refs r : at_Route (attachRoute gw ls refs r) = r.
Proof. unfold attachRoute. by destruct (resolveBackends r refs). Qed.

(** The entries of a route in the model that is built of some routes. *)
Lemma attachedEntries_buildFrom gw routes refs route :
  attachedEntries (Build gw routes (Some refs)) route =
  List.filter (sameRoute route) routes ≫= λ r,
    if RefersTo r gw then attachedEntry route (attachRoute gw (Listeners gw (Some refs)) refs r) else [].
Proof.
  rewrite Build_eq. unfold attachedEntries. cbn [md_Routes buildFrom]. simpl app.
  assert (∀ r, sameRoute route r = false → attachedEntry route (attachRoute gw (Listeners gw (Some refs)) refs r) = []) as Hno.
  { intros r Hs. unfold attachedEntry. rewrite at_Route_attachRoute. by rewrite Hs. }
  simpl. induction routes as [|r routes IH]; [done|]. cbn [List.filter]. rewrite filter_cons.
  destruct (sameRoute route r) eqn:Es; rewrite ?bind_cons; (destruct (RefersTo r gw) eqn:Er; case_decide; try congruence);
    rewrite ?fmap_cons, ?bind_cons, IH; first [done|by rewrite Hno].
Qed.

(** The parentRefs that name a Gateway, of the routes among these that are the
    route: of its kind, namespace and name. *)
Definition namedBy (gw : Gateway) (route : Route) (routes : list Route) : list (Route * ParentReference) :=
  r ← filter (λ r, r_Kind r = r_Kind route ∧ r_Namespace r = r_Namespace route ∧ r_Name r = r_Name route) routes;
  pair r <$> filter (NamesGateway gw (r_Namespace r)) (r_ParentRefs r).

(** What is reported under one: whether the Gateway's listeners take the route, and
    whether its backends resolve. *)
Definition Entry (gw : Gateway) (refs : References) (p : Route * ParentReference) (e : RouteParentStatus) : Prop :=
  rps_ParentRef e = p.2 ∧ rps_ControllerName e = "cloudflare.unmango.dev/gateway-controller" ∧
  ∃ parent resolved, rps_Conditions e = [pa_Accepted parent; resolved] ∧
    Attached (om_Namespace (gw_ObjectMeta gw)) (Listeners gw (Some refs)) p.1 refs p.2 parent ∧ RefsCondition p.1 refs resolved.

Lemma attachedEntry_Entry gw refs route r :
  sameRoute route r = true →
  Forall2 (Entry gw refs) (pair r <$> filter (NamesGateway gw (r_Namespace r)) (r_ParentRefs r))
    (attachedEntry route (attachRoute gw (Listeners gw (Some refs)) refs r)).
Proof.
  intros Hs. destruct (attachRoute_AttachedTo gw (Listeners gw (Some refs)) refs r) as [Hp _ Hc].
  unfold attachedEntry. rewrite at_Route_attachRoute in *. rewrite Hs. apply Forall2_fmap. eapply Forall2_impl; [exact Hp|].
  intros ref parent Ha. split; [by destruct Ha|]. split; [done|]. eexists _, _. by split_and!.
Qed.

Lemma attachedEntries_Entry gw routes refs route :
  Forall2 (Entry gw refs) (namedBy gw route routes) (attachedEntries (Build gw routes (Some refs)) route).
Proof.
  rewrite attachedEntries_buildFrom. unfold namedBy. induction routes as [|r routes IH]; [constructor|].
  rewrite filter_cons. cbn [List.filter]. unfold sameRoute at 1.
  destruct (bool_decide (r_Kind r = r_Kind route) && str_eqb (r_Namespace r) (r_Namespace route) && str_eqb (r_Name r) (r_Name route)) eqn:E.
  - rewrite decide_True by (rewrite !andb_true_iff, bool_decide_eq_true, !str_eqb_eq in E; naive_solver).
    rewrite !bind_cons. apply Forall2_app; [|exact IH].
    destruct (RefersTo r gw) eqn:Er; [by apply attachedEntry_Entry|].
    assert (filter (NamesGateway gw (r_Namespace r)) (r_ParentRefs r) = []) as ->; [|constructor].
    apply elem_of_nil_inv. intros ref [Ht%targets_NamesGateway Hin]%list_elem_of_filter. unfold RefersTo in Er.
    apply not_true_iff_false in Er. apply Er, existsb_spec. by exists ref.
  - rewrite decide_False; [exact IH|]. intros (E1 & E2 & E3). rewrite E1, E2, E3 in E.
    by rewrite bool_decide_eq_true_2, !str_eqb_refl in E.
Qed.

Lemma Entry_types gw refs p e : Entry gw refs p e → NoDup (c_Type <$> rps_Conditions e).
Proof.
  intros (_ & _ & parent & resolved & -> & Ha & [Hr _]). simpl. rewrite (attached_type _ _ _ _ _ _ Ha), Hr.
  by apply (proj1 (bool_decide_eq_true (NoDup _))).
Qed.

(** What the route reports for one Gateway it names, after these requests; and the
    requests that fail to say. *)
Inductive EntriesFor (features : Features) (route : Route) (key : NamespacedName)
    : list (event RouteE) * list RouteParentStatus → Prop :=
  | gateway_missing err : missing err → EntriesFor features route key ([Ev (GetParentGateway key) (inr err)], [])
  | not_ours gw class : (∀ err, class = inr err → missing err) →
      (∀ c, class = inl c → gc_ControllerName c ≠ "cloudflare.unmango.dev/gateway-controller") →
      EntriesFor features route key ([Ev (GetParentGateway key) (inl gw);
        Ev (RouteReads _ (GetGatewayClass (gw_GatewayClassName gw))) class], [])
  | reported gw class tl routes refs ps : gc_ControllerName class = "cloudflare.unmango.dev/gateway-controller" →
      exec (Load gw features) tl (inl (routes, refs)) → Forall2 (Entry gw refs) (namedBy gw route routes) ps →
      EntriesFor features route key ([Ev (GetParentGateway key) (inl gw);
        Ev (RouteReads _ (GetGatewayClass (gw_GatewayClassName gw))) (inl class)] ++ (liftEvent RouteReads <$> tl), ps).

Inductive ParentFails (features : Features) (key : NamespacedName) : list (event RouteE) → Err → Prop :=
  | gateway_fails err : ¬ missing err → ParentFails features key [Ev (GetParentGateway key) (inr err)] err
  | class_fails gw err : ¬ missing err → ParentFails features key
      [Ev (GetParentGateway key) (inl gw); Ev (RouteReads _ (GetGatewayClass (gw_GatewayClassName gw))) (inr err)] err
  | load_fails gw class tl err : gc_ControllerName class = "cloudflare.unmango.dev/gateway-controller" →
      exec (Load gw features) tl (inr err) → ParentFails features key ([Ev (GetParentGateway key) (inl gw);
        Ev (RouteReads _ (GetGatewayClass (gw_GatewayClassName gw))) (inl class)] ++ (liftEvent RouteReads <$> tl)) err.

Lemma parentStatuses_exec features route key tr r :
  exec (parentStatuses features route key) tr r →
  match r with inl ps => EntriesFor features route key (tr, ps) | inr err => ParentFails features key tr err end.
Proof.
  intros (t1 & t2 & got & -> & ->%exec_call & Hx)%exec_bind.
  destruct got as [gw|err].
  2:{ apply exec_Ret_inv in Hx as [-> <-]. destruct (k8s_IsNotFound err) eqn:E.
      - by apply gateway_missing, missing_iff.
      - apply gateway_fails. intros ?%missing_iff. congruence. }
  apply exec_bind in Hx as (t3 & t4 & r' & -> & Hc & Hx). apply exec_lift in Hc as (tc & -> & Hc).
  apply exec_Vis_inv in Hc as (answer & tc' & -> & [-> Hr]%exec_Ret_inv). subst r'. destruct answer as [class|err].
  2:{ destruct (k8s_IsNotFound err) eqn:E; apply exec_Ret_inv in Hx as [-> <-].
      - apply not_ours; [|done]. intros ? [= <-]. by apply missing_iff.
      - apply class_fails. intros ?%missing_iff. congruence. }
  destruct (str_eqb (gc_ControllerName class) ControllerName) eqn:En; str_simpl.
  2:{ apply exec_Ret_inv in Hx as [-> <-]. apply not_ours; [done|]. by intros ? [= <-]. }
  apply exec_bind in Hx as (t5 & t6 & r' & -> & Hb & Hx). apply exec_lift in Hb as (tl & -> & Hb).
  apply exec_bind in Hb as (ta & tb & r2 & -> & Hl & Hb).
  destruct r2 as [[routes refs]|err]; apply exec_Ret_inv in Hb as [-> <-]; apply exec_Ret_inv in Hx as [-> <-];
    rewrite !app_nil_r.
  - eapply reported; [exact En|exact Hl|]. apply attachedEntries_Entry.
  - by apply load_fails.
Qed.

Lemma EntriesFor_types features route key f d :
  EntriesFor features route key f → d ∈ f.2 → NoDup (c_Type <$> rps_Conditions d).
Proof.
  intros [| |gw class tl routes refs ps _ _ Hps] Hin; simpl in Hin; [by apply elem_of_nil in Hin..|].
  apply list_elem_of_lookup in Hin as [i Hi]. destruct (Forall2_lookup_r _ _ _ _ _ Hps Hi) as (p & _ & He).
  by apply Entry_types in He.
Qed.

Lemma desiredParents_exec features route keys tr r :
  exec (desiredParents features route keys) tr r →
  match r with
  | inl desired => ∃ found, tr = concat found.*1 ∧ desired = concat found.*2 ∧ Forall2 (EntriesFor features route) keys found
  | inr err => ∃ before key after found t, keys = before ++ key :: after ∧ tr = concat found.*1 ++ t ∧
      Forall2 (EntriesFor features route) before found ∧ ParentFails features key t err
  end.
Proof.
  revert tr r. induction keys as [|key keys IH]; intros tr r Hx; cbn [desiredParents] in Hx.
  { apply exec_Ret_inv in Hx as [-> <-]. exists []. by split_and!. }
  apply exec_bind in Hx as (t1 & t2 & r1 & -> & Hp & Hx). apply parentStatuses_exec in Hp.
  destruct r1 as [ps|err].
  2:{ apply exec_Ret_inv in Hx as [-> <-]. exists [], key, keys, [], t1. rewrite app_nil_r. by split_and!. }
  apply exec_bind in Hx as (t3 & t4 & r2 & -> & Hr & Hx). apply IH in Hr.
  destruct r2 as [rest|err]; apply exec_Ret_inv in Hx as [-> <-]; rewrite app_nil_r.
  - destruct Hr as (found & -> & -> & Hall). exists ((t1, ps) :: found). split_and!; [done..|by constructor].
  - destruct Hr as (before & key' & after & found & t & -> & -> & Hall & Hf).
    exists (key :: before), key', after, ((t1, ps) :: found), t. split_and!; [done|simpl; by rewrite app_assoc|by constructor|done].
Qed.

(** The Gateways a route names, each once. *)
Definition ParentsOf (route : Route) (keys : list NamespacedName) : Prop :=
  NoDup keys ∧ ∀ key, key ∈ keys ↔ ∃ ref, ref ∈ r_ParentRefs route ∧
    default "gateway.networking.k8s.io" (pref_Group ref) = "gateway.networking.k8s.io" ∧
    default "Gateway" (pref_Kind ref) = "Gateway" ∧
    InNamespace (pref_Namespace ref) (r_Namespace route) (nn_Namespace key) ∧ nn_Name key = pref_Name ref.

Lemma parentGateway_Some ns ref key :
  parentGateway ns ref = Some key ↔
  default "gateway.networking.k8s.io" (pref_Group ref) = "gateway.networking.k8s.io" ∧
  default "Gateway" (pref_Kind ref) = "Gateway" ∧ InNamespace (pref_Namespace ref) ns (nn_Namespace key) ∧
  nn_Name key = pref_Name ref.
Proof.
  unfold parentGateway, InNamespace. destruct key as [kns name], ref as [g k n nm sn p]; simpl.
  destruct g as [g|]; simpl; [destruct (str_eqb g _) eqn:Hg; str_simpl; simpl; [|naive_solver]|];
    (destruct k as [k|]; simpl; [destruct (str_eqb k _) eqn:Hk; str_simpl; simpl; [|naive_solver]|]);
    destruct n as [[]|]; simpl; naive_solver.
Qed.

Lemma parentGateways_ParentsOf route : ParentsOf route (parentGateways route).
Proof.
  split; [apply NoDup_collect_once|]. intros key. unfold parentGateways. rewrite elem_of_collect_once.
  by setoid_rewrite parentGateway_Some.
Qed.

(** What one reconciliation of a route asked for, and returns. *)
Inductive Reported (features : Features) (req : NamespacedName) : list (event RouteE) → Result → Prop :=
  | route_missing err : missing err → Reported features req [Ev (GetRoute req) (inr err)] done_
  | route_fails err : ¬ missing err → Reported features req [Ev (GetRoute req) (inr err)] (failed err)
  | route_deleted obj : is_Some (om_DeletionTimestamp (r_ObjectMeta (routeOf (rws_Object obj)))) →
      Reported features req [Ev (GetRoute req) (inl obj)] done_
  | parent_fails obj keys before key after found t err :
      om_DeletionTimestamp (r_ObjectMeta (routeOf (rws_Object obj))) = None → ParentsOf (routeOf (rws_Object obj)) keys →
      keys = before ++ key :: after → Forall2 (EntriesFor features (routeOf (rws_Object obj))) before found →
      ParentFails features key t err →
      Reported features req ([Ev (GetRoute req) (inl obj)] ++ concat found.*1 ++ t) (failed err)
  | status_kept obj keys found :
      om_DeletionTimestamp (r_ObjectMeta (routeOf (rws_Object obj))) = None → ParentsOf (routeOf (rws_Object obj)) keys →
      Forall2 (EntriesFor features (routeOf (rws_Object obj))) keys found →
      Merged (rws_Parents obj) (concat found.*2) (om_Generation (r_ObjectMeta (routeOf (rws_Object obj)))) (rws_Parents obj) →
      Reported features req ([Ev (GetRoute req) (inl obj)] ++ concat found.*1) done_
  | status_written obj keys found parents err :
      om_DeletionTimestamp (r_ObjectMeta (routeOf (rws_Object obj))) = None → ParentsOf (routeOf (rws_Object obj)) keys →
      Forall2 (EntriesFor features (routeOf (rws_Object obj))) keys found →
      Merged (rws_Parents obj) (concat found.*2) (om_Generation (r_ObjectMeta (routeOf (rws_Object obj)))) parents →
      parents ≠ rws_Parents obj →
      Reported features req ([Ev (GetRoute req) (inl obj)] ++ concat found.*1 ++ [Ev (PatchParents obj parents) err])
        {| requeueAfter := 0; result_err := err |}.

(** C28. A route's reconciliation writes at most its status, and only to change it.
    It builds each Gateway the route names, once, from what is loaded for it in
    this run, and reports nothing for one that is gone or of a class that is not
    ours; for another, under each parentRef of the route that names it, whether
    its listeners take the route and whether the backends resolve, and so for no
    route of another kind, namespace or name. What it writes leaves other
    controllers' entries as they are and replaces ours by these, as of the
    generation read, each condition keeping its transition time while its status
    stays. When something cannot be read nothing is written and the error is
    returned. *)
Theorem Reconcile_parents features req tr res :
  exec (Reconcile features req) tr res → Reported features req tr res.
Proof.
  intros (t1 & t2 & o & -> & ->%exec_call & Hx)%exec_bind.
  destruct o as [obj|err].
  2:{ apply exec_Ret_inv in Hx as [-> <-]. destruct (k8s_IsNotFound err) eqn:E.
      - unfold k8s_IgnoreNotFound, ignoreErr. rewrite E. by apply route_missing, missing_iff.
      - unfold k8s_IgnoreNotFound, ignoreErr. rewrite E. apply route_fails. intros ?%missing_iff. congruence. }
  cbv zeta in Hx. destruct (bool_decide _) eqn:Ed.
  { apply exec_Ret_inv in Hx as [-> <-]. apply bool_decide_eq_true in Ed. by apply route_deleted. }
  apply bool_decide_eq_false, eq_None_not_Some in Ed. apply exec_bind in Hx as (t3 & t4 & r & -> & Hd & Hx).
  pose proof (parentGateways_ParentsOf (routeOf (rws_Object obj))) as Hk. apply desiredParents_exec in Hd.
  destruct r as [desired|err].
  2:{ apply exec_Ret_inv in Hx as [-> <-]. destruct Hd as (before & key & after & found & t & Hks & -> & Hf & Hp).
      rewrite app_nil_r. by eapply parent_fails. }
  destruct Hd as (found & -> & -> & Hall).
  assert (Merged (rws_Parents obj) (concat found.*2) (om_Generation (r_ObjectMeta (routeOf (rws_Object obj))))
    (mergeParents (rws_Parents obj) (concat found.*2) (om_Generation (r_ObjectMeta (routeOf (rws_Object obj)))))) as Hm.
  { apply mergeParents_Merged. intros d Hin. apply list_elem_of_In, in_concat in Hin as (ps & Hps & Hin).
    apply list_elem_of_In, list_elem_of_fmap in Hps as (f & -> & Hf). apply list_elem_of_lookup in Hf as [i Hi].
    destruct (Forall2_lookup_r _ _ _ _ _ Hall Hi) as (key & _ & He).
    eapply EntriesFor_types; [exact He|]. by apply list_elem_of_In. }
  destruct (bool_decide _) eqn:Ep.
  - apply bool_decide_eq_true in Ep. apply exec_Ret_inv in Hx as [-> <-]. rewrite <- Ep in Hm. rewrite app_nil_r.
    by eapply status_kept.
  - apply bool_decide_eq_false in Ep. apply exec_bind in Hx as (t5 & t6 & err & -> & ->%exec_call & [-> <-]%exec_Ret_inv).
    eapply status_written; [exact Ed|exact Hk|exact Hall|exact Hm|]. by apply not_eq_sym.
Qed.
End reconcile_props.

(** ** Samples *)

(** Another controller's entry. *)
Definition otherEntry : RouteParentStatus :=
  {| rps_ParentRef := sampleParent "gw"; rps_ControllerName := "example.com/other"; rps_Conditions := [] |}.

Definition routeAnswers (R : Type) (e : RouteE R) : option R :=
  match e in RouteE R return option R with
  | RouteReads R e => loadAnswers (sampleClass (Some sampleParams)) (sampleGatewayConfig None) R e
  | GetRoute _ => Some (inl {| rws_Object := HTTPRouteObject (sampleHTTPRoute "r1" "gw" "web"); rws_Parents := [otherEntry] |})
  | GetParentGateway _ => Some (inl servedGateway)
  | PatchParents _ _ => Some None
  end.

Definition sampleRouteReconcile : prog RouteE Result :=
  @Reconcile sampleX509 sampleSelectors sampleHelpers sampleFeatures {| nn_Namespace := "default"; nn_Name := "r1" |}.

(** Two entries are written. *)
Definition entriesWritten (tr : list (event RouteE)) (res : Result) : bool :=
  match omap parentsPatched tr with [(_, [_; _])] => true | _ => false end.

Lemma Reconcile_parents_witness :
  ∃ tr res obj parents, exec sampleRouteReconcile tr res ∧ omap parentsPatched tr = [(obj, parents)] ∧ length parents = 2 ∧
    @Reported sampleX509 sampleSelectors sampleFeatures {| nn_Namespace := "default"; nn_Name := "r1" |} tr res.
Proof.
  destruct (runTrace_such routeAnswers sampleRouteReconcile entriesWritten) as (tr & res & Hx & Ht); [by vm_compute|].
  unfold entriesWritten in Ht.
  assert (∃ obj p1 p2, omap parentsPatched tr = [(obj, [p1; p2])]) as (obj & p1 & p2 & Hp).
  { destruct (omap parentsPatched tr) as [|[obj [|p1 [|p2 [|? ?]]]] [|? ?]]; try done. by exists obj, p1, p2. }
  exists tr, res, obj, [p1; p2]. split_and!; [exact Hx|exact Hp|done|].
  exact (@Reconcile_parents _ _ _ sample_laws _ _ _ _ Hx).
Defined.
