(* ===== verification/ClassCtl.v ===== *)
(** * The GatewayClass controller (internal/controller/gatewayclass_controller.go,
      gatewayclass_handler.go, gateway_watch.go)

    Whether a class is accepted, the finalizer that holds a class while Gateways
    name it, and the mappings from the objects watched to the classes and Gateways
    reconciled for them. *)
From S2P Require Import Prelude GatewayAPI Samples Effects Helpers Access Refs Routes Envoy Listeners Hosts Model API GatewayLoad GatewayStatus EnvoyDeploy GatewayCtl RouteCtl.

(** ** Requests *)

(** Lists of the cluster that the watches are mapped with. *)
Inductive ListE : Type → Type :=
  | ListGatewayClasses : ListE (list GatewayClass + Err)
  | ListGateways : ListE (list Gateway + Err).

Inductive ClassE : Type → Type :=
  | ClassReads (R : Type) (e : LoadE R) : ClassE R
  | ClassLists (R : Type) (e : ListE R) : ClassE R
  | UpdateClass (class : GatewayClass) : ClassE (GatewayClass + Err)
  | PatchClassStatus (original : GatewayClass) (conditions : list Condition) : ClassE (option Err).

(** ** gatewayclass_controller.go *)

Definition gatewayClassFinalizer := "gatewayclass.cloudflare.unmango.dev/finalizer".

Definition gc_Name (class : GatewayClass) : string := om_Name (gc_ObjectMeta class).

Definition withClassFinalizers (class : GatewayClass) (fs : list string) : GatewayClass :=
  let m := gc_ObjectMeta class in
  {| gc_ObjectMeta :=
       {| om_Name := om_Name m; om_Namespace := om_Namespace m; om_UID := om_UID m;
          om_ResourceVersion := om_ResourceVersion m; om_Generation := om_Generation m;
          om_CreationTimestamp := om_CreationTimestamp m; om_DeletionTimestamp := om_DeletionTimestamp m;
          om_Labels := om_Labels m; om_Annotations := om_Annotations m;
          om_OwnerReferences := om_OwnerReferences m; om_Finalizers := fs |};
     gc_ControllerName := gc_ControllerName class; gc_ParametersRef := gc_ParametersRef class;
     gc_StatusConditions := gc_StatusConditions class |}.

Section controller.
Context `{ObjectHelpers}.

(** [finalize]. *)
Definition finalize (class : GatewayClass) : prog ClassE Result :=
  do gateways <- call (ClassLists _ ListGateways);
  match gateways with
  | inr err => Ret (failed err)
  | inl gateways =>
    if existsb (λ gw, str_eqb (gw_GatewayClassName gw) (gc_Name class)) gateways then Ret (requeue (seconds 5))
    else if ContainsFinalizer (om_Finalizers (gc_ObjectMeta class)) gatewayClassFinalizer then
      do updated <- call (UpdateClass (withClassFinalizers class
        (RemoveFinalizer (om_Finalizers (gc_ObjectMeta class)) gatewayClassFinalizer)));
      Ret {| requeueAfter := 0; result_err := match updated with inl _ => None | inr err => Some err end |}
    else Ret done_
  end.

Definition supportedVersion : Condition :=
  mkCondition "SupportedVersion" ConditionTrue "SupportedVersion" "Gateway API v1 is supported".

(** What [patchStatus] makes of the conditions of a class. *)
Definition classConditions (class : GatewayClass) (conditions : list Condition) : list Condition :=
  let generation := om_Generation (gc_ObjectMeta class) in
  setObserved generation (foldl (setObserved generation) (gc_StatusConditions class) conditions) supportedVersion.

(** [patchStatus]. *)
Definition patchStatus (class : GatewayClass) (conditions : list Condition) : prog ClassE (option Err) :=
  call (PatchClassStatus class (classConditions class conditions)).

(** The Accepted condition of a class whose parameters resolve, or do not. *)
Definition acceptedClass : Condition := mkCondition "Accepted" ConditionTrue "Accepted" "Parameters resolved".
Definition rejectedClass (message : string) : Condition :=
  mkCondition "Accepted" ConditionFalse reasonInvalidParameters message.

(** The finalizer a class gets before anything is reported of it. *)
Definition holdClass (class : GatewayClass) : prog ClassE (GatewayClass + Err) :=
  if ContainsFinalizer (om_Finalizers (gc_ObjectMeta class)) gatewayClassFinalizer then Ret (inl class)
  else call (UpdateClass (withClassFinalizers class
         (AddFinalizer (om_Finalizers (gc_ObjectMeta class)) gatewayClassFinalizer))).

(** [Reconcile]; the request names a class, which has no namespace. *)
Definition Reconcile (name : string) : prog ClassE Result :=
  do class <- call (ClassReads _ (GetGatewayClass name));
  match class with
  | inr err => Ret {| requeueAfter := 0; result_err := k8s_IgnoreNotFound (Some err) |}
  | inl class =>
    if negb (str_eqb (gc_ControllerName class) ControllerName) then Ret done_
    else if bool_decide (is_Some (om_DeletionTimestamp (gc_ObjectMeta class))) then finalize class
    else
      do held <- holdClass class;
      match held with
      | inr err => Ret (failed err)
      | inl class =>
        do config <- lift ClassReads (Resolve class);
        match config with
        | inr (ReadFailed err) => Ret (failed err)
        | inr (Parameters _ message) =>
          do err <- patchStatus class [rejectedClass message];
          Ret {| requeueAfter := 0; result_err := err |}
        | inl _ =>
          do err <- patchStatus class [acceptedClass];
          Ret {| requeueAfter := 0; result_err := err |}
        end
      end
  end.
End controller.

(** ** gatewayclass_handler.go and gateway_watch.go *)

(** [gatewayClassHandler]: the class enqueued for a Gateway. *)
Definition gatewayClassHandler (gw : Gateway) : list string := [gw_GatewayClassName gw].

(** The classes whose parametersRef names an object. *)
Definition parametersName (obj : ObjectMeta) (class : GatewayClass) : bool :=
  match gc_ParametersRef class with
  | None => false
  | Some ref =>
    str_eqb (pr_Group ref) ParametersGroup && str_eqb (pr_Kind ref) ParametersKind &&
    str_eqb (pr_Name ref) (om_Name obj) &&
    match pr_Namespace ref with Some ns => str_eqb ns (om_Namespace obj) | None => false end
  end.

(** [gatewayClassesForConfig]. *)
Definition gatewayClassesForConfig (obj : ObjectMeta) : prog ListE (list string) :=
  do classes <- call ListGatewayClasses;
  Ret (match classes with
       | inr _ => []
       | inl classes => gc_Name <$> List.filter (parametersName obj) classes
       end).

(** [gatewaysForClasses]. *)
Definition gatewaysForClasses (classes : list string) : prog ListE (list NamespacedName) :=
  match classes with
  | [] => Ret []
  | _ =>
    do gateways <- call ListGateways;
    Ret (match gateways with
         | inr _ => []
         | inl gateways => gw_key <$> List.filter (λ gw, bool_decide (gw_GatewayClassName gw ∈ classes)) gateways
         end)
  end.

(** The mappings of [gatewaysForClassHandler] and [gatewaysForConfigHandler]. *)
Definition gatewaysForClass (obj : ObjectMeta) : prog ListE (list NamespacedName) := gatewaysForClasses [om_Name obj].

Definition gatewaysForConfig (obj : ObjectMeta) : prog ListE (list NamespacedName) :=
  do classes <- gatewayClassesForConfig obj;
  gatewaysForClasses classes.

(** [ourGateways]. *)
Definition ourGateways : prog ListE (list NamespacedName) :=
  do classes <- call ListGatewayClasses;
  match classes with
  | inr _ => Ret []
  | inl classes =>
    gatewaysForClasses (gc_Name <$> List.filter (λ class, str_eqb (gc_ControllerName class) ControllerName) classes)
  end.

(** ** What a run did *)

Inductive ClassWrite := ClassUpdated (class : GatewayClass) | ClassStatus (class : GatewayClass) (conditions : list Condition).

Definition classWrite (ev : event ClassE) : option ClassWrite :=
  let 'Ev e a := ev in
  match e in ClassE R return R → option ClassWrite with
  | UpdateClass class => λ _, Some (ClassUpdated class)
  | PatchClassStatus class conditions => λ _, Some (ClassStatus class conditions)
  | _ => λ _, None
  end a.

Section class_props.
Context `{ObjectHelpers, !ConditionLaws}.

(** What [patchStatus] says of a class. *)
Lemma classConditions_spec class a :
  c_Type a ≠ "SupportedVersion" → let cs := classConditions class [a] in
  let generation := om_Generation (gc_ObjectMeta class) in
  (∃ c, conditionOf cs (c_Type a) = Some c ∧ Says generation a c) ∧
  (∃ c, conditionOf cs "SupportedVersion" = Some c ∧ Says generation supportedVersion c) ∧
  ∀ t, t ≠ c_Type a → t ≠ "SupportedVersion" → conditionOf cs t = conditionOf (gc_StatusConditions class) t.
Proof.
  intros Ha. cbv zeta. unfold classConditions. simpl. split_and!.
  - rewrite setObserved_other by done. apply setObserved_same.
  - apply (setObserved_same _ _ supportedVersion).
  - intros t H1 H2. by rewrite !setObserved_other.
Qed.

(** The conditions a class is left with: whether its parameters are accepted, that
    the version of the Gateway API is supported, as of the generation, and every
    other condition as it was. *)
Definition ClassSays (class : GatewayClass) (accepted : Condition) (cs : list Condition) : Prop :=
  let generation := om_Generation (gc_ObjectMeta class) in
  (∃ c, conditionOf cs "Accepted" = Some c ∧ Says generation accepted c) ∧
  (∃ c, conditionOf cs "SupportedVersion" = Some c ∧
     Says generation (mkCondition "SupportedVersion" ConditionTrue "SupportedVersion" "Gateway API v1 is supported") c) ∧
  ∀ t, t ≠ "Accepted" → t ≠ "SupportedVersion" → conditionOf cs t = conditionOf (gc_StatusConditions class) t.

(** The class is one of ours. *)
Definition Ours (class : GatewayClass) : Prop := gc_ControllerName class = "cloudflare.unmango.dev/gateway-controller".

(** The finalization of a class: held while a Gateway that was listed names it, and
    then released of the finalizer. *)
Inductive Finalizes (class : GatewayClass) : list (event ClassE) → Result → Prop :=
  | gateways_unread err : Finalizes class [Ev (ClassLists _ ListGateways) (inr err)] (failed err)
  | still_named gws gw : gw ∈ gws → gw_GatewayClassName gw = gc_Name class →
      Finalizes class [Ev (ClassLists _ ListGateways) (inl gws)] {| requeueAfter := 5 * 10 ^ 9; result_err := None |}
  | nothing_to_release gws : (∀ gw, gw ∈ gws → gw_GatewayClassName gw ≠ gc_Name class) →
      ContainsFinalizer (om_Finalizers (gc_ObjectMeta class)) gatewayClassFinalizer = false →
      Finalizes class [Ev (ClassLists _ ListGateways) (inl gws)] done_
  | class_released gws u : (∀ gw, gw ∈ gws → gw_GatewayClassName gw ≠ gc_Name class) →
      ContainsFinalizer (om_Finalizers (gc_ObjectMeta class)) gatewayClassFinalizer = true →
      Finalizes class [Ev (ClassLists _ ListGateways) (inl gws);
          Ev (UpdateClass (withClassFinalizers class
                (RemoveFinalizer (om_Finalizers (gc_ObjectMeta class)) "gatewayclass.cloudflare.unmango.dev/finalizer"))) u]
        {| requeueAfter := 0; result_err := match u with inl _ => None | inr err => Some err end |}.

(** The class has the finalizer, or is given it and is as the server answers. *)
Inductive Holds (class : GatewayClass) : list (event ClassE) → GatewayClass + Err → Prop :=
  | already_held : ContainsFinalizer (om_Finalizers (gc_ObjectMeta class)) gatewayClassFinalizer = true →
      Holds class [] (inl class)
  | now_held r : ContainsFinalizer (om_Finalizers (gc_ObjectMeta class)) gatewayClassFinalizer = false →
      Holds class [Ev (UpdateClass (withClassFinalizers class
        (AddFinalizer (om_Finalizers (gc_ObjectMeta class)) "gatewayclass.cloudflare.unmango.dev/finalizer"))) r] r.

(** What became of its parameters, after these requests: resolved, not to be
    resolved, with a message, or not read. *)
Inductive ParametersOf (class : GatewayClass) : list (event LoadE) → Condition + Err → Prop :=
  | parameters_resolve tr config : Configures class tr config →
      ParametersOf class tr (inl (mkCondition "Accepted" ConditionTrue "Accepted" "Parameters resolved"))
  | parameters_invalid tr e message : Misconfigured class tr →
      (∀ key err, tr = [Ev (GetGatewayConfig key) (inr err)] → missing err) →
      exec (Resolve class) tr (inr (Parameters e message)) →
      ParametersOf class tr (inl (mkCondition "Accepted" ConditionFalse "InvalidParameters" message))
  | parameters_unread key err : ParametersAt class key → ¬ missing err →
      ParametersOf class [Ev (GetGatewayConfig key) (inr err)] (inr err).

(** What one reconciliation of the class [name] asked for, and returns. *)
Inductive Reconciled (name : string) : list (event ClassE) → Result → Prop :=
  | class_missing err : missing err → Reconciled name [Ev (ClassReads _ (GetGatewayClass name)) (inr err)] done_
  | class_unread err : ¬ missing err → Reconciled name [Ev (ClassReads _ (GetGatewayClass name)) (inr err)] (failed err)
  | class_foreign class : ¬ Ours class → Reconciled name [Ev (ClassReads _ (GetGatewayClass name)) (inl class)] done_
  | class_deleted class t res : Ours class → is_Some (om_DeletionTimestamp (gc_ObjectMeta class)) →
      Finalizes class t res → Reconciled name ([Ev (ClassReads _ (GetGatewayClass name)) (inl class)] ++ t) res
  | class_unheld class t err : Ours class → om_DeletionTimestamp (gc_ObjectMeta class) = None →
      Holds class t (inr err) → Reconciled name ([Ev (ClassReads _ (GetGatewayClass name)) (inl class)] ++ t) (failed err)
  | class_unresolved class t held tp err : Ours class → om_DeletionTimestamp (gc_ObjectMeta class) = None →
      Holds class t (inl held) → ParametersOf held tp (inr err) →
      Reconciled name ([Ev (ClassReads _ (GetGatewayClass name)) (inl class)] ++ t ++ (liftEvent ClassReads <$> tp)) (failed err)
  | class_reported class t held tp accepted cs err : Ours class → om_DeletionTimestamp (gc_ObjectMeta class) = None →
      Holds class t (inl held) → ParametersOf held tp (inl accepted) → ClassSays held accepted cs →
      Reconciled name ([Ev (ClassReads _ (GetGatewayClass name)) (inl class)] ++ t ++ (liftEvent ClassReads <$> tp) ++
          [Ev (PatchClassStatus held cs) err]) {| requeueAfter := 0; result_err := err |}.

Lemma Resolve_ParametersOf class tr r :
  exec (Resolve class) tr r →
  ParametersOf class tr match r with
    | inl _ => inl acceptedClass
    | inr (Parameters _ message) => inl (rejectedClass message)
    | inr (ReadFailed err) => inr err
    end.
Proof.
  intros Hx. pose proof (Resolve_reads _ _ _ Hx) as Hr. destruct r as [config|r].
  { by eapply parameters_resolve. }
  assert (∀ key a, tr = [Ev (GetGatewayConfig key) a] →
    match a with inl _ => ∃ e m, r = Parameters e m
    | inr err => (missing err ∧ ∃ m, r = Parameters ErrNotFound m) ∨ (¬ missing err ∧ r = ReadFailed err) end) as Ha.
  { intros key a Htr. unfold Resolve in Hx. destruct (gc_ParametersRef class) as [ref|].
    2: { apply exec_Ret_inv in Hx as [-> _]. done. }
    destruct (negb _ || _); [by apply exec_Ret_inv in Hx as [-> _]|].
    destruct (str_eqb _ _); [by apply exec_Ret_inv in Hx as [-> _]|].
    apply exec_Vis_inv in Hx as (c & t & -> & [-> Hc]%exec_Ret_inv).
    apply (f_equal (omap configGot)) in Htr. injection Htr as _ ->. destruct a as [config|err].
    - destruct (gcs_Template (gcf_Spec config)), (gcs_TunnelRef (gcf_Spec config)); simplify_eq; by eexists _, _.
    - destruct (k8s_IsNotFound err) eqn:E; injection Hc as <-.
      + left. split; [by apply missing_iff|by eexists].
      + right. split; [|done]. intros ?%missing_iff. congruence. }
  destruct r as [e message|err].
  - eapply parameters_invalid; [exact Hr| |exact Hx]. intros key err Htr. by destruct (Ha key _ Htr) as [[? _]|[_ ?]].
  - destruct Hr as [Hno|key err' Hk|key config Hk Hc].
    + unfold Resolve in Hx. destruct (gc_ParametersRef class) as [ref|]; [|by apply exec_Ret_inv in Hx as [_ ?]].
      destruct (negb _ || _); [by apply exec_Ret_inv in Hx as [_ ?]|].
      destruct (str_eqb _ _); [by apply exec_Ret_inv in Hx as [_ ?]|].
      by apply exec_Vis_inv in Hx as (? & ? & ? & _).
    + destruct (Ha key _ eq_refl) as [[_ (? & ?)]|[Hm [= ->]]]; [done|]. by apply parameters_unread.
    + by destruct (Ha key _ eq_refl) as (? & ? & ?).
Qed.

Lemma finalize_Finalizes class tr res : exec (finalize class) tr res → Finalizes class tr res.
Proof.
  intros (t1 & t2 & gws & -> & ->%exec_call & Hx)%exec_bind.
  destruct gws as [gws|err]; [|apply exec_Ret_inv in Hx as [-> <-]; apply gateways_unread].
  destruct (existsb _ _) eqn:Ee.
  { apply exec_Ret_inv in Hx as [-> <-]. apply existsb_exists in Ee as (gw & Hgw & He%str_eqb_eq).
    eapply still_named; [by apply list_elem_of_In|done]. }
  assert (∀ gw, gw ∈ gws → gw_GatewayClassName gw ≠ gc_Name class) as Hno.
  { intros gw Hgw He. assert (existsb (λ gw, str_eqb (gw_GatewayClassName gw) (gc_Name class)) gws = true) as Hb; [|congruence].
    apply existsb_exists. exists gw. split; [by apply list_elem_of_In|by apply str_eqb_eq]. }
  destruct (ContainsFinalizer _ _) eqn:Ef; [|apply exec_Ret_inv in Hx as [-> <-]; by apply nothing_to_release].
  apply exec_bind in Hx as (t3 & t4 & u & -> & ->%exec_call & [-> <-]%exec_Ret_inv). by apply class_released.
Qed.

Lemma holdClass_Holds class tr r : exec (holdClass class) tr r → Holds class tr r.
Proof.
  unfold holdClass. destruct (ContainsFinalizer _ _) eqn:E; [intros [-> <-]%exec_Ret_inv; by apply already_held|].
  intros ->%exec_call. by apply now_held.
Qed.

Lemma classConditions_says class a : c_Type a = "Accepted" → ClassSays class a (classConditions class [a]).
Proof. intros Ht. destruct (classConditions_spec class a) as (Ha & Hs & Ho); [by rewrite Ht|]. rewrite Ht in *. by split_and!. Qed.

(** C37. A reconciliation of a GatewayClass writes to no class but one of ours. One
    being deleted keeps the finalizer, to be looked at again in five seconds,
    while a Gateway names it, and is released of it when none does. Any other gets
    the finalizer first and then, of parameters that could be read, a status:
    Accepted is true exactly when they name a config that reaches Cloudflare, and
    otherwise says why they do not; SupportedVersion is true; both are as of the
    generation seen, and conditions of every other type are left alone. When
    something cannot be read or written the error is returned, and nothing more is
    written. *)
Theorem Reconcile_accepts name tr res : exec (Reconcile name) tr res → Reconciled name tr res.
Proof.
  intros (t1 & t2 & o & -> & ->%exec_call & Hx)%exec_bind.
  destruct o as [class|err].
  2: { apply exec_Ret_inv in Hx as [-> <-]. unfold k8s_IgnoreNotFound, ignoreErr. destruct (k8s_IsNotFound err) eqn:E.
       - by apply class_missing, missing_iff.
       - apply class_unread. intros ?%missing_iff. congruence. }
  destruct (str_eqb (gc_ControllerName class) ControllerName) eqn:En; str_simpl; cbn [negb] in Hx.
  2: { apply exec_Ret_inv in Hx as [-> <-]. by apply class_foreign. }
  destruct (bool_decide _) eqn:Ed.
  { apply bool_decide_eq_true in Ed. by apply class_deleted; [| |apply finalize_Finalizes]. }
  apply bool_decide_eq_false, eq_None_not_Some in Ed.
  apply exec_bind in Hx as (t3 & t4 & held & -> & Hh%holdClass_Holds & Hx).
  destruct held as [held|err]; [|apply exec_Ret_inv in Hx as [-> <-]; rewrite app_nil_r; by apply class_unheld].
  apply exec_bind in Hx as (t5 & t6 & r & -> & Hr & Hx). apply exec_lift in Hr as (tp & -> & Hr%Resolve_ParametersOf).
  destruct r as [config|[e m|err]].
  3: { apply exec_Ret_inv in Hx as [-> <-]. rewrite app_nil_r. by eapply class_unresolved. }
  all: apply exec_bind in Hx as (t7 & t8 & err & -> & ->%exec_call & [-> <-]%exec_Ret_inv);
    eapply class_reported; [done|done|exact Hh|exact Hr|by apply classConditions_says].
Qed.
End class_props.

(** ** The mappings *)

Definition classesListed (ev : event ListE) : option (list GatewayClass) :=
  let 'Ev e a := ev in
  match e in ListE R return R → option (list GatewayClass) with
  | ListGatewayClasses => λ a, match a with inl classes => Some classes | inr _ => None end
  | _ => λ _, None
  end a.

Definition gatewaysListed (ev : event ListE) : option (list Gateway) :=
  let 'Ev e a := ev in
  match e in ListE R return R → option (list Gateway) with
  | ListGateways => λ a, match a with inl gws => Some gws | inr _ => None end
  | _ => λ _, None
  end a.

(** Resolving the parameters of a class reads a config. *)
Definition ReadsConfig (class : GatewayClass) (key : NamespacedName) : Prop :=
  ∃ tr r a, exec (Resolve class) tr r ∧ Ev (GetGatewayConfig key) a ∈ tr.

Lemma parametersName_reads obj class :
  om_Namespace obj ≠ "" →
  parametersName obj class = true ↔ ReadsConfig class {| nn_Namespace := om_Namespace obj; nn_Name := om_Name obj |}.
Proof.
  intros Hne. unfold parametersName, ReadsConfig, Resolve. destruct (gc_ParametersRef class) as [ref|].
  2: { split; [done|]. intros (tr & r & a & [-> _]%exec_Ret_inv & Hin). by apply elem_of_nil in Hin. }
  destruct (str_eqb (pr_Group ref) ParametersGroup), (str_eqb (pr_Kind ref) ParametersKind); simpl;
    try (split; [done|]; intros (tr & r & a & [-> _]%exec_Ret_inv & Hin); by apply elem_of_nil in Hin).
  rewrite andb_true_iff, str_eqb_eq. split.
  - intros [<- Hns]. destruct (pr_Namespace ref) as [ns|]; [|done]. apply str_eqb_eq in Hns as ->. simpl.
    rewrite (proj2 (str_eqb_neq _ _) Hne). eexists _, _, (inr (plainErr "")). split; [repeat constructor|]. by left.
  - intros (tr & r & a & Hx & Hin). destruct (str_eqb (default "" (pr_Namespace ref)) "") eqn:E.
    { apply exec_Ret_inv in Hx as [-> _]. by apply elem_of_nil in Hin. }
    apply exec_Vis_inv in Hx as (r' & t' & -> & [-> _]%exec_Ret_inv). apply list_elem_of_singleton in Hin.
    assert (nn_Namespace {| nn_Namespace := om_Namespace obj; nn_Name := om_Name obj |} = default "" (pr_Namespace ref) ∧
      nn_Name {| nn_Namespace := om_Namespace obj; nn_Name := om_Name obj |} = pr_Name ref) as [Hn1 Hn2].
    { pose (f := λ ev : event LoadE, let 'Ev e _ := ev in match e with GetGatewayConfig key => key | _ => {| nn_Namespace := ""; nn_Name := "" |} end).
      apply (f_equal f) in Hin. simpl in Hin. by injection Hin as -> ->. }
    simpl in Hn1, Hn2. split; [done|]. destruct (pr_Namespace ref) as [ns|]; [by apply str_eqb_eq|done].
Qed.

Lemma filter_In {A} (f : A → bool) l x : x ∈ List.filter f l ↔ x ∈ l ∧ f x = true.
Proof. rewrite !list_elem_of_In. apply List.filter_In. Qed.

(** The classes and the Gateways a run of one of the mappings made of its lists. *)
Lemma gatewaysForClasses_exec names tr keys :
  exec (gatewaysForClasses names) tr keys →
  omap classesListed tr = [] ∧
  (∀ gws, gws ∈ omap gatewaysListed tr → ∀ k, k ∈ keys ↔ ∃ gw, gw ∈ gws ∧ k = gw_key gw ∧ gw_GatewayClassName gw ∈ names) ∧
  (tr = [] → names = []).
Proof.
  unfold gatewaysForClasses. intros Hx. destruct names as [|n names].
  { apply exec_Ret_inv in Hx as [-> <-]. split; [done|]. split; [|done]. intros gws Hin. by apply elem_of_nil in Hin. }
  apply exec_bind in Hx as (t1 & t2 & a & -> & ->%exec_call & [-> <-]%exec_Ret_inv). split; [done|]. split; [|done].
  intros gws Hin k. destruct a as [gws'|err]; [|by apply elem_of_nil in Hin]. apply list_elem_of_singleton in Hin as ->.
  rewrite list_elem_of_fmap. setoid_rewrite filter_In. setoid_rewrite bool_decide_eq_true. split.
  - intros (gw & -> & Hgw & Hc). by exists gw.
  - intros (gw & Hgw & -> & Hc). by exists gw.
Qed.

(** The events of a config reach what depends on it: with the lists read,
    the classes reconciled are those whose parameters are read from it, and the
    Gateways rebuilt are those of such a class. When no Gateways are listed, no
    class reads it. *)
Theorem gatewaysForConfig_complete obj tr keys classes :
  om_Namespace obj ≠ "" → exec (gatewaysForConfig obj) tr keys → classes ∈ omap classesListed tr →
  let config := {| nn_Namespace := om_Namespace obj; nn_Name := om_Name obj |} in
  (∃ t names, exec (gatewayClassesForConfig obj) t names ∧ ∃ post, tr = t ++ post ∧
     ∀ n, n ∈ names ↔ ∃ class, class ∈ classes ∧ gc_Name class = n ∧ ReadsConfig class config) ∧
  (∀ gws, gws ∈ omap gatewaysListed tr → ∀ k,
     k ∈ keys ↔ ∃ gw class, gw ∈ gws ∧ class ∈ classes ∧ k = gw_key gw ∧ gw_GatewayClassName gw = gc_Name class ∧ ReadsConfig class config) ∧
  (length tr = 1 → ∀ class, class ∈ classes → ¬ ReadsConfig class config).
Proof.
  intros Hne (t1 & t2 & names & -> & Hc & Hx)%exec_bind Hin. cbv zeta.
  pose proof Hc as (t3 & t4 & a & -> & ->%exec_call & [-> <-]%exec_Ret_inv)%exec_bind.
  destruct (gatewaysForClasses_exec _ _ _ Hx) as (E & Hkeys & Hnone).
  rewrite omap_app, E in Hin. destruct a as [classes'|err]; [|by apply elem_of_nil in Hin].
  apply list_elem_of_singleton in Hin as ->. set (config := {| nn_Namespace := _ |}).
  assert (∀ n, n ∈ gc_Name <$> List.filter (parametersName obj) classes' ↔
    ∃ class, class ∈ classes' ∧ gc_Name class = n ∧ ReadsConfig class config) as Hn.
  { intros n. rewrite list_elem_of_fmap. setoid_rewrite filter_In. setoid_rewrite (parametersName_reads obj _ Hne). fold config.
    split; intros (class & H1 & H2 & H3); exists class; by split_and!. }
  split; [eexists _, _; split; [exact Hc|]; by eexists|]. split.
  - intros gws Hg k. rewrite omap_app in Hg. rewrite (Hkeys gws Hg). setoid_rewrite Hn. split.
    + intros (gw & Hgw & -> & class & H1 & H2 & H3). exists gw, class. by split_and!.
    + intros (gw & class & Hgw & H1 & -> & H2 & H3). exists gw. split_and!; [done..|]. by exists class.
  - intros Hl class Hclass Hr. destruct t2; [|done]. specialize (Hnone eq_refl).
    assert (gc_Name class ∈ gc_Name <$> List.filter (parametersName obj) classes') as Hm by (apply Hn; by exists class).
    rewrite Hnone in Hm. by apply elem_of_nil in Hm.
Qed.

(** [ourGateways] is every Gateway of a class of ours. *)
Theorem ourGateways_spec tr keys classes gws :
  exec ourGateways tr keys → classes ∈ omap classesListed tr → gws ∈ omap gatewaysListed tr →
  ∀ k, k ∈ keys ↔ ∃ gw class, gw ∈ gws ∧ class ∈ classes ∧ k = gw_key gw ∧ gw_GatewayClassName gw = gc_Name class ∧
    gc_ControllerName class = ControllerName.
Proof.
  intros (t1 & t2 & a & -> & ->%exec_call & Hx)%exec_bind Hc Hg k. cbn [app] in Hc, Hg. rewrite omap_cons_eq in Hc. rewrite omap_cons_eq in Hg.
  destruct a as [classes'|err]; [|by apply exec_Ret_inv in Hx as [-> _]; apply elem_of_nil in Hg].
  destruct (gatewaysForClasses_exec _ _ _ Hx) as (E & Hkeys & _). rewrite E in Hc.
  apply list_elem_of_singleton in Hc as ->. rewrite (Hkeys gws Hg).
  setoid_rewrite list_elem_of_fmap. setoid_rewrite filter_In. setoid_rewrite str_eqb_eq. split.
  - intros (gw & Hgw & -> & class & H1 & H2 & H3). exists gw, class. by split_and!.
  - intros (gw & class & Hgw & H1 & -> & H2 & H3). exists gw. split_and!; [done..|]. by exists class.
Qed.

(** ** Samples *)

(** The answers of a cluster with given classes and Gateways. *)
Definition listAnswers (classes : list GatewayClass) (gws : list Gateway) (R : Type) (e : ListE R) : option R :=
  match e in ListE R return option R with
  | ListGatewayClasses => Some (inl classes)
  | ListGateways => Some (inl gws)
  end.

Definition classAnswers (class : GatewayClass) (gws : list Gateway) (R : Type) (e : ClassE R) : option R :=
  match e in ClassE R return option R with
  | ClassReads R e => loadAnswers class (sampleGatewayConfig None) R e
  | ClassLists R e => listAnswers [class] gws R e
  | UpdateClass class => Some (inl class)
  | PatchClassStatus _ _ => Some None
  end.

(** The class gets the finalizer, and is rejected: its config reaches nothing. *)
Lemma Reconcile_accepts_witness :
  ∃ tr res held cs, exec (@Reconcile sampleHelpers "cloudflare") tr res ∧ ClassStatus held cs ∈ omap classWrite tr ∧
    @Reconciled sampleHelpers "cloudflare" tr res.
Proof.
  destruct (runTrace_such (classAnswers (sampleClass (Some sampleParams)) []) (@Reconcile sampleHelpers "cloudflare")
    (λ tr _, match omap classWrite tr with [ClassUpdated _; ClassStatus _ _] => true | _ => false end)) as (tr & res & Hx & Ht);
    [by vm_compute|].
  assert (∃ held cs, ClassStatus held cs ∈ omap classWrite tr) as (held & cs & Hin).
  { destruct (omap classWrite tr) as [|[c|] [|[|held cs] [|]]]; try done. exists held, cs. right. by left. }
  exists tr, res, held, cs. split; [exact Hx|]. split; [exact Hin|].
  exact (@Reconcile_accepts sampleHelpers sample_laws _ _ _ Hx).
Defined.

Lemma gatewaysForConfig_complete_witness :
  ∃ tr keys, exec (gatewaysForConfig (sampleMeta "infra" "config")) tr keys ∧
    gw_key (sampleGateway "default" "gw" []) ∈ keys ∧ ¬ gw_key (sampleGateway "default" "other" []) ∈ keys.
Proof.
  set (class := sampleClass (Some sampleParams)). set (gw := sampleGateway "default" "gw" []).
  exists [Ev ListGatewayClasses (inl [class]); Ev ListGateways (inl [gw])], [gw_key gw].
  assert (exec (gatewaysForConfig (sampleMeta "infra" "config"))
    [Ev ListGatewayClasses (inl [class]); Ev ListGateways (inl [gw])] [gw_key gw]) as Hx by repeat constructor.
  destruct (gatewaysForConfig_complete (sampleMeta "infra" "config") _ _ [class] ltac:(done) Hx ltac:(by left)) as (_ & Hk & _).
  specialize (Hk [gw] ltac:(by left)). split; [exact Hx|]. rewrite !Hk. split.
  - exists gw, class. split_and!; [by left|by left|done|done|].
    by apply (parametersName_reads (sampleMeta "infra" "config") class).
  - by intros (g & c & ->%list_elem_of_singleton & _ & He & _).
Defined.
