(* ===== verification/SecretsCtl.v ===== *)
(** * The controllers of the operator's access to TLS Secrets
      (internal/controller/gateway_secrets_controller.go)

    Which namespaces the Gateways of our classes may take certificates from; the
    controller that points [Access] at them; and the controller that binds the
    role to read Secrets in them, and in no other. The cluster the second runs in
    is modelled too: its RoleBindings, and what the API server answers. *)
From S2P Require Import Prelude GatewayAPI Samples Effects Helpers Access Refs Routes Envoy Listeners Hosts Model API GatewayLoad GatewayStatus EnvoyDeploy GatewayCtl RouteCtl ClassCtl.

(** ** rbacv1 *)

Record RoleRef := { rr_APIGroup : string; rr_Kind : string; rr_Name : string }.
Record Subject := { su_APIGroup : string; su_Kind : string; su_Name : string; su_Namespace : string }.

Record RoleBinding := {
  rb_ObjectMeta : ObjectMeta;
  rb_Subjects : list Subject;
  rb_RoleRef : RoleRef;
}.

(** The metadata of the ClusterRole bound. *)
Record ClusterRole := { cr_Name : string; cr_UID : string }.

#[export] Instance RoleRef_eq_dec : EqDecision RoleRef.
Proof. solve_decision. Defined.
#[export] Instance Subject_eq_dec : EqDecision Subject.
Proof. solve_decision. Defined.

Definition rb_key (b : RoleBinding) : NamespacedName :=
  {| nn_Namespace := om_Namespace (rb_ObjectMeta b); nn_Name := om_Name (rb_ObjectMeta b) |}.

Definition SecretAccessLabel := "cloudflare.unmango.dev/gateway-tls-secrets".

(** ** Requests *)

Inductive SecretsE : Type → Type :=
  | SecretReads (R : Type) (e : LoadE R) : SecretsE R
  | SecretLists (R : Type) (e : ListE R) : SecretsE R
  | SetAccessNamespaces (want : gset string) : SecretsE (option Err)
  | ListBindings (role : string) : SecretsE (list RoleBinding + Err)
  | GetBinding (key : NamespacedName) : SecretsE (RoleBinding + Err)
  | CreateBinding (b : RoleBinding) : SecretsE (option Err)
  | UpdateBinding (b : RoleBinding) : SecretsE (option Err)
  | DeleteBinding (b : RoleBinding) : SecretsE (option Err).

(** ** Namespaces *)

Definition grantsOnly (grants : list ReferenceGrant) : References :=
  {| Namespaces := ∅; Grants := grants; Services := ∅; Endpoints := ∅; Secrets := ∅; Unreadable := ∅; WarpRouting := false |}.

Definition ourClassNames (classes : list GatewayClass) : gset string :=
  list_to_set (gc_Name <$> List.filter (λ class, str_eqb (gc_ControllerName class) ControllerName) classes).

(** The loop over the Gateways. *)
Definition gatewayNamespaces (refs : References) (ours : gset string) (namespaces : gset string) (gw : Gateway) : gset string :=
  if negb (bool_decide (gw_GatewayClassName gw ∈ ours)) || bool_decide (is_Some (om_DeletionTimestamp (gw_ObjectMeta gw)))
  then namespaces
  else namespaces ∪ CertificateNamespaces gw refs.

(** [certificateNamespaces]. *)
Definition certificateNamespaces : prog SecretsE (gset string + Err) :=
  do grants <- call (SecretReads _ ListReferenceGrants);
  match match grants with
        | inl grants => inl grants
        | inr err => if IsNoMatchError err then inl [] else inr err
        end with
  | inr err => Ret (inr err)
  | inl grants =>
    do? classes <- call (SecretLists _ ListGatewayClasses);
    do? gateways <- call (SecretLists _ ListGateways);
    Ret (inl (foldl (gatewayNamespaces (grantsOnly grants) (ourClassNames classes)) ∅ gateways))
  end.

(** [GatewaySecretWatchReconciler.Reconcile]. *)
Definition watchReconcile : prog SecretsE Result :=
  do namespaces <- certificateNamespaces;
  match namespaces with
  | inr err => Ret (failed err)
  | inl namespaces =>
    do err <- call (SetAccessNamespaces namespaces);
    Ret {| requeueAfter := 0; result_err := err |}
  end.

(** ** Bindings *)

Section bindings.
Variables (Role : ClusterRole) (TheSubject : Subject).

(** The order a set of namespaces is ranged over. *)
Variable rangeOver : gset string → list string.

Definition roleRef : RoleRef := {| rr_APIGroup := "rbac.authorization.k8s.io"; rr_Kind := "ClusterRole"; rr_Name := cr_Name Role |}.

Definition newBinding (ns : string) : RoleBinding :=
  {| rb_ObjectMeta := newObjectMeta ns (cr_Name Role); rb_Subjects := [];
     rb_RoleRef := {| rr_APIGroup := ""; rr_Kind := ""; rr_Name := "" |} |}.

(** What [bind] makes of a binding. The apiVersion of the owner is not part of the
    owner references modelled. *)
Definition grantBinding (b : RoleBinding) : RoleBinding :=
  let m := rb_ObjectMeta b in
  {| rb_ObjectMeta :=
       {| om_Name := om_Name m; om_Namespace := om_Namespace m; om_UID := om_UID m;
          om_ResourceVersion := om_ResourceVersion m; om_Generation := om_Generation m;
          om_CreationTimestamp := om_CreationTimestamp m; om_DeletionTimestamp := om_DeletionTimestamp m;
          om_Labels := <[SecretAccessLabel := cr_Name Role]> (om_Labels m); om_Annotations := om_Annotations m;
          om_OwnerReferences := [{| or_Kind := "ClusterRole"; or_Name := cr_Name Role; or_UID := cr_UID Role; or_Controller := false |}];
          om_Finalizers := om_Finalizers m |};
     rb_Subjects := [TheSubject]; rb_RoleRef := roleRef |}.

Definition bindingNotFound : Err :=
  {| err_message := "rolebindings.rbac.authorization.k8s.io " +:+ fmt_q (cr_Name Role) +:+ " not found";
     err_status := None; err_k8s := Some K8sNotFound |}.

(** The binding [bind] starts from, once one to another role is deleted. *)
Definition replaceOther (ns : string) (got : RoleBinding + Err) : prog SecretsE ((RoleBinding + Err) + Err) :=
  match got with
  | inr err => Ret (inl (inr err))
  | inl b =>
    if bool_decide (rb_RoleRef b = roleRef) then Ret (inl (inl b))
    else
      do err <- call (DeleteBinding b);
      Ret (match k8s_IgnoreNotFound err with
           | Some err => inr err
           | None => inl (inr bindingNotFound)
           end)
  end.

(** [bind]. *)
Definition bindNamespace (ns : string) : prog SecretsE (option Err) :=
  do got <- call (GetBinding {| nn_Namespace := ns; nn_Name := cr_Name Role |});
  do replaced <- replaceOther ns got;
  match replaced with
  | inr err => Ret (Some err)
  | inl (inl b) => call (UpdateBinding (grantBinding b))
  | inl (inr err) =>
    if k8s_IsNotFound err then call (CreateBinding (grantBinding (newBinding ns))) else Ret (Some err)
  end.

Fixpoint bindAll (nss : list string) : prog SecretsE (option Err) :=
  match nss with
  | [] => Ret None
  | ns :: nss =>
    do err <- bindNamespace ns;
    match err with
    | Some err => Ret (Some err)
    | None => bindAll nss
    end
  end.

(** The loop over the labelled bindings. *)
Definition unwanted (want : gset string) (b : RoleBinding) : bool :=
  negb (bool_decide (om_Namespace (rb_ObjectMeta b) ∈ want) && str_eqb (om_Name (rb_ObjectMeta b)) (cr_Name Role)).

Fixpoint revokeAll (want : gset string) (bs : list RoleBinding) : prog SecretsE (option Err) :=
  match bs with
  | [] => Ret None
  | b :: bs =>
    if unwanted want b then
      do err <- call (DeleteBinding b);
      match k8s_IgnoreNotFound err with
      | Some err => Ret (Some err)
      | None => revokeAll want bs
      end
    else revokeAll want bs
  end.

(** [GatewaySecretAccessReconciler.Reconcile]. *)
Definition accessReconcile : prog SecretsE Result :=
  do namespaces <- certificateNamespaces;
  match namespaces with
  | inr err => Ret (failed err)
  | inl namespaces =>
    do bindings <- call (ListBindings (cr_Name Role));
    match bindings with
    | inr err => Ret (failed err)
    | inl bindings =>
      do err <- revokeAll namespaces bindings;
      match err with
      | Some err => Ret (failed err)
      | None =>
        do err <- bindAll (rangeOver namespaces);
        Ret {| requeueAfter := 0; result_err := err |}
      end
    end
  end.

(** The request a RoleBinding's event makes: the one request there is, of a
    labelled binding. *)
Definition bindingEnqueues (obj : ObjectMeta) : bool :=
  str_eqb (default "" (om_Labels obj !! SecretAccessLabel)) (cr_Name Role).
End bindings.

(** ** Which namespaces *)

(** A Gateway of a class of ours names a Secret of the namespace that it may. *)
Definition TakesFrom (grants : list ReferenceGrant) (classes : list GatewayClass) (gws : list Gateway) (ns : string) : Prop :=
  ∃ gw class name, gw ∈ gws ∧ class ∈ classes ∧
    gc_ControllerName class = "cloudflare.unmango.dev/gateway-controller" ∧ gw_GatewayClassName gw = gc_Name class ∧
    om_DeletionTimestamp (gw_ObjectMeta gw) = None ∧ NamesSecret gw grants {| nn_Namespace := ns; nn_Name := name |}.

Lemma CertificateNamespaces_NamesSecret gw refs ns :
  ns ∈ CertificateNamespaces gw refs ↔ ∃ name, NamesSecret gw (Grants refs) {| nn_Namespace := ns; nn_Name := name |}.
Proof.
  split; [|by intros (name & Hn%NamesSecret_namespace)].
  intros (l & Hl & tls & Ht & ref & Hr & Hs & -> & Hp)%CertificateNamespaces_iff. exists (sor_Name ref).
  apply usable_NamesSecret. exists ref. split; [|split; [|done]].
  - unfold certificateRefs. apply list_elem_of_bind. exists l. by rewrite Ht.
  - split; [done|]. intros refs' Hg. simpl. by rewrite (Permitted_grants refs refs').
Qed.

Lemma ourClassNames_iff classes n :
  n ∈ ourClassNames classes ↔ ∃ class, class ∈ classes ∧ gc_ControllerName class = ControllerName ∧ n = gc_Name class.
Proof.
  unfold ourClassNames. rewrite elem_of_list_to_set, list_elem_of_fmap. setoid_rewrite filter_In. setoid_rewrite str_eqb_eq.
  split; intros (class & H1 & H2); exists class; by destruct_and?.
Qed.

Lemma gatewayNamespaces_iff grants classes gws ns :
  ns ∈ foldl (gatewayNamespaces (grantsOnly grants) (ourClassNames classes)) ∅ gws ↔ TakesFrom grants classes gws ns.
Proof.
  rewrite (elem_of_foldl_set _ (λ gw ns, gw_GatewayClassName gw ∈ ourClassNames classes ∧
    om_DeletionTimestamp (gw_ObjectMeta gw) = None ∧ ns ∈ CertificateNamespaces gw (grantsOnly grants))).
  2: { intros acc gw. unfold gatewayNamespaces. destruct (bool_decide (_ ∈ _)) eqn:E1; simpl.
    2: { apply bool_decide_eq_false in E1. split; [by left|]. by intros [?|(? & _)]. }
    apply bool_decide_eq_true in E1. destruct (om_DeletionTimestamp (gw_ObjectMeta gw)) as [d|] eqn:E2; simpl.
    - split; [by left|]. by intros [?|(_ & ? & _)].
    - rewrite elem_of_union. tauto. }
  unfold TakesFrom. setoid_rewrite ourClassNames_iff. setoid_rewrite CertificateNamespaces_NamesSecret. split.
  - intros [[]%elem_of_empty|(gw & Hgw & (class & H1 & H2 & H3) & Hd & name & Hn)]. by exists gw, class, name.
  - intros (gw & class & name & H1 & H2 & H3 & H4 & H5 & H6). right. exists gw.
    split; [done|]. split; [by exists class|]. split; [done|]. by exists name.
Qed.

(** The grants a cluster without the kind lists are none. *)
Definition GrantsAre (a : list ReferenceGrant + Err) (grants : list ReferenceGrant) : Prop :=
  a = inl grants ∨ grants = [] ∧ ∃ err, a = inr err ∧ IsNoMatchError err = true.

Lemma certificateNamespaces_exec tr r :
  exec certificateNamespaces tr r →
  match r with
  | inl namespaces => ∃ a grants classes gws, GrantsAre a grants ∧
      tr = [Ev (SecretReads _ ListReferenceGrants) a; Ev (SecretLists _ ListGatewayClasses) (inl classes);
            Ev (SecretLists _ ListGateways) (inl gws)] ∧
      ∀ ns, ns ∈ namespaces ↔ TakesFrom grants classes gws ns
  | inr err => Ev (SecretReads _ ListReferenceGrants) (inr err) ∈ tr ∧ IsNoMatchError err = false ∨
               Ev (SecretLists _ ListGatewayClasses) (inr err) ∈ tr ∨ Ev (SecretLists _ ListGateways) (inr err) ∈ tr
  end.
Proof.
  intros (t1 & t2 & a & -> & ->%exec_call & Hx)%exec_bind.
  assert ((∃ grants, GrantsAre a grants ∧ exec (do? classes <- call (SecretLists _ ListGatewayClasses);
      do? gateways <- call (SecretLists _ ListGateways);
      Ret (inl (foldl (gatewayNamespaces (grantsOnly grants) (ourClassNames classes)) ∅ gateways))) t2 r) ∨
    ∃ err, a = inr err ∧ IsNoMatchError err = false ∧ r = inr err) as [(grants & Hg & Hx')|(err & -> & He & ->)].
  { destruct a as [grants|err]; [left; exists grants; split; [by left|exact Hx]|].
    destruct (IsNoMatchError err) eqn:E; [left; exists []; split; [right; split; [done|by exists err]|exact Hx]|].
    right. exists err. apply exec_Ret_inv in Hx as [_ <-]. done. }
  2: { left. split; [by left|done]. }
  clear Hx. apply exec_bind in Hx' as (t3 & t4 & cs & -> & ->%exec_call & Hx).
  destruct cs as [classes|err]; [|apply exec_Ret_inv in Hx as [_ <-]; right; left; right; by left].
  apply exec_bind in Hx as (t5 & t6 & gs & -> & ->%exec_call & Hx).
  destruct gs as [gws|err]; apply exec_Ret_inv in Hx as [-> <-]; [|right; right; right; right; by left].
  exists a, grants, classes, gws. split; [done|]. split; [done|]. intros ns. apply gatewayNamespaces_iff.
Qed.

(** The namespaces [Access] is pointed at are exactly those that a Gateway of
    a class of ours, not being deleted, names a Secret of and may; and only once
    every list was read, so that a failed read is never taken for no Gateways.
    Then [Access] is left as it is. *)
Theorem watchReconcile_spec tr res :
  exec watchReconcile tr res →
  (∃ a grants classes gws want err, GrantsAre a grants ∧ (∀ ns, ns ∈ want ↔ TakesFrom grants classes gws ns) ∧
     tr = [Ev (SecretReads _ ListReferenceGrants) a; Ev (SecretLists _ ListGatewayClasses) (inl classes);
           Ev (SecretLists _ ListGateways) (inl gws); Ev (SetAccessNamespaces want) err] ∧
     res = {| requeueAfter := 0; result_err := err |}) ∨
  (∃ err, res = failed err ∧ exec certificateNamespaces tr (inr err) ∧
     (Ev (SecretReads _ ListReferenceGrants) (inr err) ∈ tr ∨ Ev (SecretLists _ ListGatewayClasses) (inr err) ∈ tr ∨
      Ev (SecretLists _ ListGateways) (inr err) ∈ tr)).
Proof.
  intros (t1 & t2 & r & -> & Hc & Hx)%exec_bind. pose proof (certificateNamespaces_exec _ _ Hc) as Hr.
  destruct r as [want|err].
  - left. destruct Hr as (a & grants & classes & gws & Hg & -> & Hw).
    apply exec_bind in Hx as (t3 & t4 & err & -> & ->%exec_call & [-> <-]%exec_Ret_inv).
    by exists a, grants, classes, gws, want, err.
  - right. exists err. apply exec_Ret_inv in Hx as [-> <-]. rewrite app_nil_r. split_and!; [done|done|tauto].
Qed.

(** ** Least privilege *)

Inductive BindingWrite := Granted (b : RoleBinding) | Revoked (b : RoleBinding).

Definition bindingWrite (ev : event SecretsE) : option BindingWrite :=
  let 'Ev e a := ev in
  match e in SecretsE R return R → option BindingWrite with
  | CreateBinding b | UpdateBinding b => λ _, Some (Granted b)
  | DeleteBinding b => λ _, Some (Revoked b)
  | _ => λ _, None
  end a.

Section privilege.
Variables (Role : ClusterRole) (TheSubject : Subject) (rangeOver : gset string → list string).

(** The write is one that binding the namespaces [want] may make, with these
    answers. *)
Definition Allowed (want : gset string) (tr : list (event SecretsE)) (w : BindingWrite) : Prop :=
  match w with
  | Granted b => ∃ b0 ns, b = grantBinding Role TheSubject b0 ∧ ns ∈ want ∧
      (b0 = newBinding Role ns ∨ Ev (GetBinding {| nn_Namespace := ns; nn_Name := cr_Name Role |}) (inl b0) ∈ tr)
  | Revoked b =>
      ∃ ns, ns ∈ want ∧ Ev (GetBinding {| nn_Namespace := ns; nn_Name := cr_Name Role |}) (inl b) ∈ tr ∧ rb_RoleRef b ≠ roleRef Role
  end.

Lemma Allowed_mono want tr tr' w : tr ⊆ tr' → Allowed want tr w → Allowed want tr' w.
Proof.
  intros Hs. destruct w as [b|b]; simpl.
  - intros (b0 & ns & Hb & Hn & [?|?]); exists b0, ns; (split; [done|]; split; [done|]); [by left|right; by apply Hs].
  - intros (ns & H1 & H2 & H3). exists ns. auto.
Qed.

Lemma bindNamespace_allowed want ns tr r w :
  exec (bindNamespace Role TheSubject ns) tr r → ns ∈ want → w ∈ omap bindingWrite tr → Allowed want tr w.
Proof.
  intros (t1 & t2 & got & -> & ->%exec_call & Hx)%exec_bind Hn Hw.
  apply exec_bind in Hx as (t3 & t4 & rep & -> & Hrep & Hx). cbn [app omap list_omap bindingWrite] in Hw.
  rewrite omap_app in Hw. apply elem_of_app in Hw as [Hw|Hw].
  - unfold replaceOther in Hrep. destruct got as [b|err]; [|by apply exec_Ret_inv in Hrep as [-> _]; apply elem_of_nil in Hw].
    destruct (bool_decide _) eqn:Eb; [by apply exec_Ret_inv in Hrep as [-> _]; apply elem_of_nil in Hw|].
    apply exec_bind in Hrep as (t5 & t6 & err & -> & ->%exec_call & [-> _]%exec_Ret_inv).
    apply list_elem_of_singleton in Hw as ->. exists ns. split; [done|]. split; [by left|by apply bool_decide_eq_false in Eb].
  - assert (∀ b, rep = inl (inl b) → got = inl b) as Hgot.
    { intros b ->. unfold replaceOther in Hrep. destruct got as [b'|err]; [|by exec_inv].
      destruct (bool_decide _); [by apply exec_Ret_inv in Hrep as [_ [= ->]]|].
      apply exec_bind in Hrep as (t5 & t6 & err & -> & _ & [_ He]%exec_Ret_inv). by destruct (k8s_IgnoreNotFound err). }
    destruct rep as [[b|err]|err].
    + apply exec_call in Hx as ->. apply list_elem_of_singleton in Hw as ->. exists b, ns. rewrite (Hgot b eq_refl).
      split; [done|]. split; [done|]. right. by left.
    + destruct (k8s_IsNotFound err); [|by apply exec_Ret_inv in Hx as [-> _]; apply elem_of_nil in Hw].
      apply exec_call in Hx as ->. apply list_elem_of_singleton in Hw as ->. exists (newBinding Role ns), ns.
      split; [done|]. split; [done|]. by left.
    + by apply exec_Ret_inv in Hx as [-> _]; apply elem_of_nil in Hw.
Qed.

Lemma bindAll_allowed want nss tr r w :
  exec (bindAll Role TheSubject nss) tr r → (∀ ns, ns ∈ nss → ns ∈ want) → w ∈ omap bindingWrite tr → Allowed want tr w.
Proof.
  revert tr. induction nss as [|ns nss IH]; intros tr; cbn [bindAll]; intros Hx Hin Hw.
  { apply exec_Ret_inv in Hx as [-> _]. by apply elem_of_nil in Hw. }
  apply exec_bind in Hx as (t1 & t2 & err & -> & Hb & Hx). rewrite omap_app in Hw. apply elem_of_app in Hw as [Hw|Hw].
  - eapply Allowed_mono, bindNamespace_allowed; [|exact Hb| |exact Hw]; [|apply Hin; by left].
    intros x Hx'. apply elem_of_app. by left.
  - destruct err; [by apply exec_Ret_inv in Hx as [-> _]; apply elem_of_nil in Hw|].
    eapply Allowed_mono, IH; [|exact Hx| |exact Hw]; [intros x Hx'; apply elem_of_app; by right|].
    intros ns' Hns'. apply Hin. by right.
Qed.

Lemma revokeAll_allowed want bs tr r w :
  exec (revokeAll Role want bs) tr r → w ∈ omap bindingWrite tr →
  ∃ b, w = Revoked b ∧ b ∈ bs ∧ (om_Namespace (rb_ObjectMeta b) ∉ want ∨ om_Name (rb_ObjectMeta b) ≠ cr_Name Role).
Proof.
  revert tr. induction bs as [|b bs IH]; intros tr; cbn [revokeAll]; intros Hx Hw.
  { apply exec_Ret_inv in Hx as [-> _]. by apply elem_of_nil in Hw. }
  assert (∀ tr, exec (revokeAll Role want bs) tr r → w ∈ omap bindingWrite tr → ∃ b', w = Revoked b' ∧ b' ∈ b :: bs ∧
    (om_Namespace (rb_ObjectMeta b') ∉ want ∨ om_Name (rb_ObjectMeta b') ≠ cr_Name Role)) as Hrest.
  { intros tr' Hx' Hw'. destruct (IH tr' Hx' Hw') as (b' & H1 & H2 & H3). exists b'. split_and!; [done|by right|done]. }
  destruct (unwanted Role want b) eqn:Eu; [|by apply (Hrest tr)].
  apply exec_bind in Hx as (t1 & t2 & err & -> & ->%exec_call & Hx). rewrite omap_app in Hw. apply elem_of_app in Hw as [Hw|Hw].
  - apply list_elem_of_singleton in Hw as ->. exists b. split_and!; [done|by left|].
    unfold unwanted in Eu. apply negb_true_iff, andb_false_iff in Eu as [Eu|Eu];
      [left; by apply bool_decide_eq_false in Eu|right; by apply str_eqb_neq].
  - destruct (k8s_IgnoreNotFound err); [by apply exec_Ret_inv in Hx as [-> _]; apply elem_of_nil in Hw|].
    by apply (Hrest t2).
Qed.

(** C30. Least privilege, whatever the API server answers. Nothing is written unless
    the ReferenceGrants, the classes, the Gateways and the labelled RoleBindings
    were all listed, before the first write. Every RoleBinding a reconciliation
    creates or updates binds exactly the role to exactly the operator, under the
    role's name, in a namespace a Gateway takes certificates from; every one it
    deletes is a labelled one in none of them or of another name, or one to
    another role in its way. *)
Theorem accessReconcile_least tr res w :
  (∀ s ns, ns ∈ rangeOver s → ns ∈ s) →
  exec (accessReconcile Role TheSubject rangeOver) tr res → w ∈ omap bindingWrite tr →
  ∃ a grants classes gws bs (want : gset string) post, GrantsAre a grants ∧ (∀ ns, ns ∈ want ↔ TakesFrom grants classes gws ns) ∧
    tr = [Ev (SecretReads _ ListReferenceGrants) a; Ev (SecretLists _ ListGatewayClasses) (inl classes);
          Ev (SecretLists _ ListGateways) (inl gws); Ev (ListBindings (cr_Name Role)) (inl bs)] ++ post ∧
    match w with
    | Granted b => rb_RoleRef b = roleRef Role ∧ rb_Subjects b = [TheSubject] ∧
        om_Labels (rb_ObjectMeta b) !! SecretAccessLabel = Some (cr_Name Role) ∧
        ∃ b0 ns, b = grantBinding Role TheSubject b0 ∧ ns ∈ want ∧
          (b0 = newBinding Role ns ∨ Ev (GetBinding {| nn_Namespace := ns; nn_Name := cr_Name Role |}) (inl b0) ∈ post)
    | Revoked b =>
        (b ∈ bs ∧ (om_Namespace (rb_ObjectMeta b) ∉ want ∨ om_Name (rb_ObjectMeta b) ≠ cr_Name Role)) ∨
        (∃ ns, ns ∈ want ∧ Ev (GetBinding {| nn_Namespace := ns; nn_Name := cr_Name Role |}) (inl b) ∈ post ∧
           rb_RoleRef b ≠ roleRef Role)
    end.
Proof.
  intros Hrange (t1 & t2 & r & -> & Hc & Hx)%exec_bind Hw. pose proof (certificateNamespaces_exec _ _ Hc) as Hr.
  assert (omap bindingWrite t1 = []) as E1.
  { apply (emits_omap (λ _ e, match e with SecretReads _ _ | SecretLists _ _ => True | _ => False end) bindingWrite certificateNamespaces t1 r);
      [by intros R []| |done]. unfold certificateNamespaces. repeat (emits_step; try done). }
  rewrite omap_app, E1 in Hw. cbn [app] in Hw.
  destruct r as [want|err]; [|by apply exec_Ret_inv in Hx as [-> _]; apply elem_of_nil in Hw].
  destruct Hr as (a & grants & classes & gws & Hg & -> & Hwant).
  apply exec_bind in Hx as (t3 & t4 & lb & -> & ->%exec_call & Hx). cbn [app omap list_omap bindingWrite] in Hw.
  destruct lb as [bs|err]; [|by apply exec_Ret_inv in Hx as [-> _]; apply elem_of_nil in Hw].
  exists a, grants, classes, gws, bs, want, t4. split; [done|]. split; [done|]. split; [done|].
  apply exec_bind in Hx as (t5 & t6 & err & -> & Hd & Hx). rewrite omap_app in Hw. apply elem_of_app in Hw as [Hw|Hw].
  - destruct (revokeAll_allowed _ _ _ _ _ Hd Hw) as (b & -> & Hb & Hno). by left.
  - destruct err as [err|]; [by apply exec_Ret_inv in Hx as [-> _]; apply elem_of_nil in Hw|].
    apply exec_bind in Hx as (t7 & t8 & err & -> & Hb & [-> _]%exec_Ret_inv). rewrite app_nil_r in Hw |- *.
    eapply bindAll_allowed in Hb; [|apply Hrange|exact Hw].
    apply (Allowed_mono _ _ (t5 ++ t7)) in Hb; [|intros x Hx; apply elem_of_app; by right].
    destruct w as [b|b]; [|right; exact Hb]. destruct Hb as (b0 & ns & -> & Hb). split_and!; try done.
    + simpl. by rewrite lookup_insert_eq.
    + by exists b0, ns.
Qed.
End privilege.

(** ** The cluster *)

Section cluster.
Variables (grants : list ReferenceGrant) (classes : list GatewayClass) (gws : list Gateway).

(** The RoleBindings there are; everything else stays as it is. *)
Local Notation Bindings := (gmap NamespacedName RoleBinding).

Definition otherRole : Err := {| err_message := "cannot change roleRef"; err_status := None; err_k8s := Some K8sOther |}.
Definition bindingExists : Err := {| err_message := "already exists"; err_status := None; err_k8s := Some K8sAlreadyExists |}.

Definition labelled (role : string) (b : RoleBinding) : bool :=
  bool_decide (om_Labels (rb_ObjectMeta b) !! SecretAccessLabel = Some role).

Variables (Role : ClusterRole) (TheSubject : Subject) (rangeOver : gset string → list string).

(** The admission policy of the chart (dist/chart/templates/rbac/
    gateway-tls-secret-reader.yaml), where it is installed, with the namespace and
    name of the service account it holds to the role: that account writes only
    bindings of the role to itself, and deletes only bindings of the role. *)
Variable policy : option (string * string).

Definition managed (b : RoleBinding) : bool :=
  str_eqb (rr_Kind (rb_RoleRef b)) "ClusterRole" && str_eqb (rr_Name (rb_RoleRef b)) (cr_Name Role).

Definition bindsAccount (sa : string * string) (b : RoleBinding) : bool :=
  match rb_Subjects b with
  | [s] => str_eqb (su_Kind s) "ServiceAccount" && str_eqb (su_Name s) sa.2 && str_eqb (su_Namespace s) sa.1
  | _ => false
  end.

Definition mayWrite (b : RoleBinding) : bool := match policy with None => true | Some sa => managed b && bindsAccount sa b end.
Definition mayDelete (b : RoleBinding) : bool := match policy with None => true | Some _ => managed b end.

Definition refused : Err :=
  {| err_message := "The operator may only manage RoleBindings to " +:+ cr_Name Role; err_status := None; err_k8s := Some K8sOther |}.

(** What the API server answers and does. A roleRef is immutable, and the policy
    is asked first. *)
Definition serve (R : Type) (e : SecretsE R) (w : Bindings) : option (R * Bindings) :=
  match e in SecretsE R return option (R * Bindings) with
  | SecretReads R e =>
    match e in LoadE R return option (R * Bindings) with
    | ListReferenceGrants => Some (inl grants, w)
    | _ => None
    end
  | SecretLists R e => match listAnswers classes gws R e with Some r => Some (r, w) | None => None end
  | SetAccessNamespaces _ => Some (None, w)
  | ListBindings role => Some (inl (List.filter (labelled role) (snd <$> map_to_list w)), w)
  | GetBinding key => Some (match w !! key with Some b => inl b | None => inr k8sNotFoundErr end, w)
  | CreateBinding b =>
    Some (if negb (mayWrite b) then (Some refused, w)
          else match w !! rb_key b with Some _ => (Some bindingExists, w) | None => (None, <[rb_key b := b]> w) end)
  | UpdateBinding b =>
    Some (match w !! rb_key b with
          | None => (Some k8sNotFoundErr, w)
          | Some b0 =>
            if negb (mayWrite b) then (Some refused, w)
            else if bool_decide (rb_RoleRef b0 = rb_RoleRef b) then (None, <[rb_key b := b]> w) else (Some otherRole, w)
          end)
  | DeleteBinding b =>
    Some (match w !! rb_key b with
          | None => (Some k8sNotFoundErr, w)
          | Some b0 => if negb (mayDelete b0) then (Some refused, w) else (None, delete (rb_key b) w)
          end)
  end.

Definition Keyed (w : Bindings) : Prop := ∀ k b, w !! k = Some b → rb_key b = k.

Hypothesis range_perm : ∀ s, rangeOver s ≡ₚ elements s.

(** The operator runs as the account the policy holds to the role. *)
Hypothesis subject_account : ∀ sa, policy = Some sa →
  su_Kind TheSubject = "ServiceAccount" ∧ su_Name TheSubject = sa.2 ∧ su_Namespace TheSubject = sa.1.

(** A binding as [bind] leaves it. *)
Definition Grants_role (b : RoleBinding) : Prop :=
  rb_RoleRef b = roleRef Role ∧ rb_Subjects b = [TheSubject] ∧
  om_Labels (rb_ObjectMeta b) !! SecretAccessLabel = Some (cr_Name Role) ∧
  om_OwnerReferences (rb_ObjectMeta b) =
    [{| or_Kind := "ClusterRole"; or_Name := cr_Name Role; or_UID := cr_UID Role; or_Controller := false |}].

Definition bindingKey (ns : string) : NamespacedName := {| nn_Namespace := ns; nn_Name := cr_Name Role |}.

Lemma grantBinding_grants b : Grants_role (grantBinding Role TheSubject b).
Proof. split_and!; try done. simpl. by rewrite lookup_insert_eq. Qed.

Lemma grantBinding_id b : Grants_role b → grantBinding Role TheSubject b = b.
Proof.
  intros (Hr & Hs & Hl & Ho). destruct b as [[] ss rr]. unfold grantBinding. simpl in *. subst.
  by rewrite insert_id.
Qed.

Lemma grantBinding_mayWrite b : mayWrite (grantBinding Role TheSubject b) = true.
Proof.
  unfold mayWrite. destruct policy as [sa|] eqn:Ep; [|done]. destruct (subject_account sa eq_refl) as (Hk & Hn & Hns).
  unfold managed, bindsAccount. simpl. by rewrite Hk, Hn, Hns, !str_eqb_refl.
Qed.

Lemma mayDelete_role b : rb_RoleRef b = roleRef Role → mayDelete b = true.
Proof. unfold mayDelete, managed. intros ->. simpl. rewrite !str_eqb_refl. by destruct policy. Qed.

Lemma refused_kept : k8s_IgnoreNotFound (Some refused) = Some refused.
Proof. done. Qed.

(** Binding one namespace: it is bound, unless the policy protects what is there. *)
Lemma run_bindNamespace w ns :
  Keyed w →
  (∃ b, run serve (bindNamespace Role TheSubject ns) w = Some (None, <[bindingKey ns := b]> w) ∧
     rb_key b = bindingKey ns ∧ Grants_role b ∧ ∀ b0, w !! bindingKey ns = Some b0 → Grants_role b0 → b = b0) ∨
  (run serve (bindNamespace Role TheSubject ns) w = Some (Some refused, w) ∧
   ∃ b0, w !! bindingKey ns = Some b0 ∧ mayDelete b0 = false).
Proof.
  intros Hk. unfold bindNamespace. cbn [bind call run serve]. fold (bindingKey ns).
  destruct (w !! bindingKey ns) as [b0|] eqn:E.
  - pose proof (Hk _ _ E) as Hkey. unfold replaceOther. cbn [bind]. destruct (bool_decide (rb_RoleRef b0 = roleRef Role)) eqn:Er.
    + apply bool_decide_eq_true in Er. left. exists (grantBinding Role TheSubject b0). cbn [bind call run serve].
      change (rb_key (grantBinding Role TheSubject b0)) with (rb_key b0). rewrite Hkey, E, grantBinding_mayWrite. cbn [negb].
      rewrite bool_decide_eq_true_2 by (by rewrite Er). split; [done|]. split; [done|]. split; [apply grantBinding_grants|].
      intros b1 [= <-]. apply grantBinding_id.
    + apply bool_decide_eq_false in Er. cbn [bind call run serve]. rewrite Hkey, E.
      destruct (mayDelete b0) eqn:Ed; cbn [negb].
      2: { right. cbn [run bind]. rewrite refused_kept. split; [done|]. by exists b0. }
      left. exists (grantBinding Role TheSubject (newBinding Role ns)).
      cbn [bind call run serve k8s_IgnoreNotFound ignoreErr k8s_IsNotFound].
      change (k8s_IsNotFound (bindingNotFound Role)) with true. cbn [bind call run serve].
      rewrite grantBinding_mayWrite. cbn [negb].
      change (rb_key (grantBinding Role TheSubject (newBinding Role ns))) with (bindingKey ns).
      rewrite lookup_delete_eq, insert_delete_eq. split; [done|]. split; [done|]. split; [apply grantBinding_grants|].
      intros b1 [= <-] (Hr & _). done.
  - left. exists (grantBinding Role TheSubject (newBinding Role ns)). unfold replaceOther. cbn [bind call run serve].
    unfold k8s_IsNotFound. rewrite bool_decide_eq_true_2 by done. cbn [bind call run serve].
    rewrite grantBinding_mayWrite. cbn [negb].
    change (rb_key (grantBinding Role TheSubject (newBinding Role ns))) with (bindingKey ns). rewrite E.
    split; [done|]. split; [done|]. split; [apply grantBinding_grants|]. done.
Qed.

Lemma bindingKey_inj ns ns' : bindingKey ns = bindingKey ns' → ns = ns'.
Proof. by intros [=]. Qed.

Lemma Keyed_insert w k b : Keyed w → rb_key b = k → Keyed (<[k := b]> w).
Proof. intros Hk Hb k' b' [[<- <-]|[_ Hl]]%lookup_insert_Some; [done|by apply Hk]. Qed.

(** Binding all of them. *)
Lemma run_bindAll nss w :
  Keyed w →
  (∃ w', run serve (bindAll Role TheSubject nss) w = Some (None, w') ∧ Keyed w' ∧
    (∀ ns, ns ∈ nss → ∃ b, w' !! bindingKey ns = Some b ∧ Grants_role b) ∧
    (∀ k, (∀ ns, ns ∈ nss → k ≠ bindingKey ns) → w' !! k = w !! k) ∧
    ((∀ ns, ns ∈ nss → ∃ b, w !! bindingKey ns = Some b ∧ Grants_role b) → w' = w)) ∨
  (∃ w' ns b0, run serve (bindAll Role TheSubject nss) w = Some (Some refused, w') ∧
    ns ∈ nss ∧ w !! bindingKey ns = Some b0 ∧ mayDelete b0 = false).
Proof.
  revert w. induction nss as [|ns nss IH]; intros w Hk; cbn [bindAll].
  { left. exists w. split_and!; [done|done|by intros ? ?%elem_of_nil|done|done]. }
  rewrite run_bind. destruct (run_bindNamespace w ns Hk) as [(b & Hr & Hkb & Hg & Hid)|(Hr & b0 & Hb0 & Hd)]; rewrite Hr.
  2: { right. exists w, ns, b0. split_and!; [done|by left|done|done]. }
  destruct (IH (<[bindingKey ns := b]> w)) as [(w' & Hr' & Hk' & Hall & Hframe & Hsame)|(w' & ns' & b0 & Hr' & Hin & Hb0 & Hd)];
    [by apply Keyed_insert| |right].
  2: { exists w', ns', b0. split; [done|]. split; [by right|]. split; [|done].
       apply lookup_insert_Some in Hb0 as [[_ <-]|[_ ?]]; [|done]. destruct Hg as [Hg _].
       by rewrite (mayDelete_role _ Hg) in Hd. }
  left. exists w'. split; [exact Hr'|]. split; [done|]. split; [|split].
  - intros n [->|Hin]%elem_of_cons; [|by apply Hall]. destruct (decide (ns ∈ nss)) as [Hin|Hin]; [by apply Hall|].
    exists b. split; [|done]. rewrite Hframe; [apply lookup_insert_eq|]. intros n' Hn' He%bindingKey_inj. by subst.
  - intros k Hne. rewrite Hframe by (intros n Hn; apply Hne; by right). apply lookup_insert_ne.
    apply not_eq_sym, Hne. by left.
  - intros Hg'. destruct (Hg' ns) as (b0 & Hl & Hg0); [by left|]. rewrite (Hid _ Hl Hg0), (insert_id _ _ _ Hl) in Hsame.
    apply Hsame. intros n Hn. apply Hg'. by right.
Qed.

(** Revoking. *)
Definition revoked (want : gset string) (bs : list RoleBinding) (w : Bindings) : Bindings :=
  foldl (λ w b, if unwanted Role want b then delete (rb_key b) w else w) w bs.

Lemma run_revokeAll want bs w :
  run serve (revokeAll Role want bs) w = Some (None, revoked want bs w) ∨
  ∃ w' b b0, run serve (revokeAll Role want bs) w = Some (Some refused, w') ∧
    b ∈ bs ∧ unwanted Role want b = true ∧ w !! rb_key b = Some b0 ∧ mayDelete b0 = false.
Proof.
  revert w. induction bs as [|b bs IH]; intros w; cbn [revokeAll]; [by left|].
  unfold revoked. cbn [foldl]. fold (revoked want bs).
  assert (∀ w1, (∀ k b0, w1 !! k = Some b0 → w !! k = Some b0) →
    run serve (revokeAll Role want bs) w1 = Some (None, revoked want bs w1) ∨
    ∃ w' b' b0, run serve (revokeAll Role want bs) w1 = Some (Some refused, w') ∧
      b' ∈ b :: bs ∧ unwanted Role want b' = true ∧ w !! rb_key b' = Some b0 ∧ mayDelete b0 = false) as Hrest.
  { intros w1 Hsub. destruct (IH w1) as [?|(w' & b' & b0 & Hr & Hin & Hu & Hl & Hd)]; [by left|right].
    exists w', b', b0. split_and!; [done|by right|done|by apply Hsub|done]. }
  destruct (unwanted Role want b) eqn:Eu; [|by apply Hrest].
  cbn [bind call run serve]. destruct (w !! rb_key b) as [b0|] eqn:E.
  - destruct (mayDelete b0) eqn:Ed; cbn [negb].
    + cbn [k8s_IgnoreNotFound ignoreErr]. apply Hrest. intros k b1 [_ ?]%lookup_delete_Some. done.
    + right. rewrite refused_kept. exists w, b, b0. split_and!; [done|by left|done..].
  - unfold k8s_IgnoreNotFound, ignoreErr, k8s_IsNotFound. rewrite bool_decide_eq_true_2 by done.
    rewrite (delete_id _ _ E). by apply Hrest.
Qed.

Lemma revoked_lookup want bs w k b :
  revoked want bs w !! k = Some b ↔ w !! k = Some b ∧ ∀ b', b' ∈ bs → unwanted Role want b' = true → rb_key b' ≠ k.
Proof.
  revert w. induction bs as [|b0 bs IH]; intros w.
  { unfold revoked. cbn [foldl]. split; [intros ?; split; [done|by intros ? ?%elem_of_nil]|by intros [? _]]. }
  change (revoked want (b0 :: bs) w) with (revoked want bs (if unwanted Role want b0 then delete (rb_key b0) w else w)).
  rewrite IH. setoid_rewrite elem_of_cons. destruct (unwanted Role want b0) eqn:E.
  - rewrite lookup_delete_Some. split.
    + intros [[Hne Hl] Hr]. split; [done|]. intros b' [->|Hb'] Hu; [done|by apply Hr].
    + intros [Hl Hr]. split; [split; [apply Hr; [by left|done]|done]|]. intros b' Hb' Hu. apply Hr; [by right|done].
  - split; intros [Hl Hr]; (split; [done|]).
    + intros b' [->|Hb'] Hu; [congruence|by apply Hr].
    + intros b' Hb' Hu. apply Hr; [by right|done].
Qed.

(** Which bindings the loop over the labelled ones leaves. *)
Lemma revoked_labelled want w k b :
  Keyed w →
  revoked want (List.filter (labelled (cr_Name Role)) (snd <$> map_to_list w)) w !! k = Some b ↔
  w !! k = Some b ∧ (labelled (cr_Name Role) b = true → nn_Name k = cr_Name Role ∧ nn_Namespace k ∈ want).
Proof.
  intros Hk. rewrite revoked_lookup. setoid_rewrite filter_In. setoid_rewrite list_elem_of_fmap.
  assert (∀ b k, w !! k = Some b → unwanted Role want b = false ↔ nn_Name k = cr_Name Role ∧ nn_Namespace k ∈ want) as Hu.
  { intros b' k' Hl. rewrite <- (Hk _ _ Hl). unfold unwanted. rewrite negb_false_iff, andb_true_iff, bool_decide_eq_true, str_eqb_eq.
    simpl. tauto. }
  split; intros [Hl Hr]; (split; [done|]).
  - intros Hlab. apply (Hu b k Hl). apply not_true_iff_false. intros Hn. apply (Hr b); [|done|by apply Hk].
    split; [|done]. exists (k, b). split; [done|]. by apply elem_of_map_to_list.
  - intros b' [((k' & b'') & -> & Hin) Hlab] Hun He. apply elem_of_map_to_list in Hin. simpl in *.
    rewrite (Hk _ _ Hin) in He. subst k'. rewrite Hl in Hin. injection Hin as ->.
    apply (Hu b'' k Hl) in Hr; [congruence|done].
Qed.

Definition wantedNamespaces : gset string :=
  foldl (gatewayNamespaces (grantsOnly grants) (ourClassNames classes)) ∅ gws.

(** A binding the reconciliation has to be rid of, and may not delete: it is to
    another role, and labelled as ours where none of ours belongs, or of our name
    where ours belongs. *)
Definition InTheWay (w : Bindings) (k : NamespacedName) (b : RoleBinding) : Prop :=
  w !! k = Some b ∧ policy ≠ None ∧
  ¬ (rr_Kind (rb_RoleRef b) = "ClusterRole" ∧ rr_Name (rb_RoleRef b) = cr_Name Role) ∧
  let ours := nn_Name k = cr_Name Role ∧ TakesFrom grants classes gws (nn_Namespace k) in
  (om_Labels (rb_ObjectMeta b) !! SecretAccessLabel = Some (cr_Name Role) ∨ ours).

Lemma mayDelete_false b :
  mayDelete b = false ↔
  policy ≠ None ∧ ¬ (rr_Kind (rb_RoleRef b) = "ClusterRole" ∧ rr_Name (rb_RoleRef b) = cr_Name Role).
Proof.
  unfold mayDelete, managed. rewrite <- !str_eqb_eq, <- andb_true_iff, not_true_iff_false. destruct policy; naive_solver.
Qed.

(** What the cluster is brought to. *)
Record Converged (w w' : Bindings) : Prop := {
  cv_granted ns : TakesFrom grants classes gws ns → ∃ b, w' !! bindingKey ns = Some b ∧ Grants_role b;
  cv_labelled k b : w' !! k = Some b → om_Labels (rb_ObjectMeta b) !! SecretAccessLabel = Some (cr_Name Role) →
    nn_Name k = cr_Name Role ∧ TakesFrom grants classes gws (nn_Namespace k);
  cv_others k : (∀ b, w !! k = Some b → om_Labels (rb_ObjectMeta b) !! SecretAccessLabel ≠ Some (cr_Name Role)) →
    ¬ (nn_Name k = cr_Name Role ∧ TakesFrom grants classes gws (nn_Namespace k)) → w' !! k = w !! k;
}.

Lemma wanted_takes ns : ns ∈ wantedNamespaces ↔ TakesFrom grants classes gws ns.
Proof. apply gatewayNamespaces_iff. Qed.

Lemma range_takes ns : ns ∈ rangeOver wantedNamespaces ↔ TakesFrom grants classes gws ns.
Proof. by rewrite range_perm, elem_of_elements, wanted_takes. Qed.

Lemma labelled_iff b : labelled (cr_Name Role) b = true ↔ om_Labels (rb_ObjectMeta b) !! SecretAccessLabel = Some (cr_Name Role).
Proof. apply bool_decide_eq_true. Qed.

(** The cluster after the loop over the labelled bindings, when it is completed. *)
Definition revokedIn (w : Bindings) : Bindings :=
  revoked wantedNamespaces (List.filter (labelled (cr_Name Role)) (snd <$> map_to_list w)) w.

Lemma revokedIn_lookup w k b :
  Keyed w → revokedIn w !! k = Some b ↔ w !! k = Some b ∧
    (om_Labels (rb_ObjectMeta b) !! SecretAccessLabel = Some (cr_Name Role) →
     nn_Name k = cr_Name Role ∧ TakesFrom grants classes gws (nn_Namespace k)).
Proof. intros Hk. unfold revokedIn. by rewrite revoked_labelled, labelled_iff, wanted_takes. Qed.

(** A reconciliation revokes, then binds, and is stopped by what is in its way. *)
Lemma run_accessReconcile w :
  Keyed w →
  (∃ w', run serve (accessReconcile Role TheSubject rangeOver) w = Some (done_, w') ∧ Keyed w' ∧ Converged w w' ∧
     ((∀ ns, TakesFrom grants classes gws ns → ∃ b, w !! bindingKey ns = Some b ∧ Grants_role b) → w' = revokedIn w)) ∨
  (∃ w' k b, run serve (accessReconcile Role TheSubject rangeOver) w = Some (failed refused, w') ∧ InTheWay w k b).
Proof.
  intros Hk. unfold accessReconcile, certificateNamespaces. cbn [bind call run serve listAnswers]. fold wantedNamespaces.
  rewrite run_bind. set (bs := List.filter _ _).
  destruct (run_revokeAll wantedNamespaces bs w) as [Hr|(w' & b & b0 & Hr & Hin & Hu & Hl & Hd)]; rewrite Hr.
  2: { right. apply filter_In in Hin as [Hin Hlab%labelled_iff].
       apply list_elem_of_fmap in Hin as ((k & b') & -> & Hin%elem_of_map_to_list). simpl in *.
       rewrite (Hk _ _ Hin), Hin in Hl. injection Hl as ->. apply mayDelete_false in Hd as [? ?].
       exists w', k, b0. split; [done|]. split_and!; try done. by left. }
  change (revoked wantedNamespaces bs w) with (revokedIn w). rewrite run_bind.
  destruct (run_bindAll (rangeOver wantedNamespaces) (revokedIn w)) as
    [(w' & Hr' & Hk' & Hall & Hframe & Hsame)|(w' & ns & b0 & Hr' & Hin & Hb0 & Hd)].
  { intros k b [Hl _]%revokedIn_lookup; [by apply Hk|done]. }
  2: { right. rewrite Hr'. apply revokedIn_lookup in Hb0 as [Hb0 _]; [|done]. apply mayDelete_false in Hd as [? ?].
       exists w', (bindingKey ns), b0. split; [done|]. split_and!; try done. right. split; [done|]. by apply range_takes. }
  left. exists w'. rewrite Hr'. split; [done|]. split; [done|].
  assert (∀ k, ¬ (nn_Name k = cr_Name Role ∧ TakesFrom grants classes gws (nn_Namespace k)) → w' !! k = revokedIn w !! k) as Hframe'.
  { intros k Hne. apply Hframe. intros ns Hn%range_takes ->. by apply Hne. }
  split; [split|].
  - intros ns Hn. by apply Hall, range_takes.
  - intros k b Hl Hlb. destruct (decide (nn_Name k = cr_Name Role ∧ nn_Namespace k ∈ wantedNamespaces)) as [Hw|Hw];
      rewrite wanted_takes in Hw; [done|]. rewrite (Hframe' k Hw) in Hl. apply revokedIn_lookup in Hl as [_ Hl]; [by apply Hl|done].
  - intros k Hn Hne. rewrite Hframe' by done. apply option_eq. intros b. rewrite revokedIn_lookup by done.
    split; [by intros [? _]|]. intros Hl. split; [done|]. intros Hlab. by destruct (Hn b Hl).
  - intros Hg. apply Hsame. intros ns Hn%range_takes. destruct (Hg ns Hn) as (b & Hl & Hgr). exists b. split; [|done].
    apply revokedIn_lookup; [done|]. split; [done|]. by intros _.
Qed.

(** Nothing is done to a binding the policy protects. *)
Lemma serve_keeps R (e : SecretsE R) r w w' k b :
  serve R e w = Some (r, w') → w !! k = Some b → mayDelete b = false → w' !! k = Some b.
Proof.
  intros Hs Hl Hd. destruct e as [R e|R e| | | |b'|b'|b']; simpl in Hs; simplify_eq; try done.
  - by destruct e; simplify_eq.
  - destruct (listAnswers _ _ _ e); by simplify_eq.
  - destruct (mayWrite b'); simpl in Hs; [|by simplify_eq]. destruct (w !! rb_key b') eqn:E; simplify_eq; [done|].
    rewrite lookup_insert_ne; [done|]. intros <-. congruence.
  - destruct (w !! rb_key b') as [b0|] eqn:E; [|by simplify_eq]. destruct (mayWrite b') eqn:Em; simpl in Hs; [|by simplify_eq].
    destruct (bool_decide _) eqn:Er; simplify_eq; [|done]. apply bool_decide_eq_true in Er.
    rewrite lookup_insert_ne; [done|]. intros <-. rewrite E in Hl. injection Hl as <-.
    revert Em Hd. unfold mayWrite, mayDelete, managed. rewrite Er.
    destruct policy; [|done]. intros [Hm _]%andb_true_iff Hm'. congruence.
  - destruct (w !! rb_key b') as [b0|] eqn:E; [|by simplify_eq]. destruct (mayDelete b0) eqn:Em; simpl in Hs; [|by simplify_eq].
    simplify_eq. rewrite lookup_delete_ne; [done|]. intros <-. congruence.
Qed.

Lemma run_keeps {A} (p : prog SecretsE A) r w w' k b :
  run serve p w = Some (r, w') → w !! k = Some b → mayDelete b = false → w' !! k = Some b.
Proof.
  induction p as [a|R e f IH] in w |- *; simpl; [by intros [= _ <-]|].
  destruct (serve R e w) as [[r1 w1]|] eqn:E; [|done]. intros Hr Hl Hd. apply (IH r1 w1); [done| |done]. by eapply serve_keeps.
Qed.

(** A converged cluster has nothing in the way. *)
Lemma Converged_clear w w' k b : Converged w w' → ¬ InTheWay w' k b.
Proof.
  intros [Hg Hl _] (Hb & _ & Hrole & Hw). destruct Hrole.
  assert (nn_Name k = cr_Name Role ∧ TakesFrom grants classes gws (nn_Namespace k)) as [Hn Ht]
    by (destruct Hw as [Hlab|?]; [by apply (Hl k b)|done]).
  destruct (Hg _ Ht) as (b' & Hb' & (Hrole & _)). destruct k as [ns n]; simpl in *. subst n. unfold bindingKey in Hb'.
  rewrite Hb in Hb'. injection Hb' as <-. by rewrite Hrole.
Qed.

(** C29. A reconciliation brings the cluster to what it is for. When no binding is
    in its way that the chart's admission policy keeps it from deleting, it
    succeeds: then each namespace Gateways take certificates from has a binding of
    the role to the operator, no other labelled binding is left, and every other
    binding is as it was; and another reconciliation changes nothing. When there
    is such a binding, one to another role that is labelled as ours or has the
    name ours should have, the reconciliation returns the refusal as its error,
    and is retried. *)
Theorem accessReconcile_converges w :
  Keyed w →
  ((∀ k b, ¬ InTheWay w k b) → ∃ w', run serve (accessReconcile Role TheSubject rangeOver) w = Some (done_, w') ∧
     Converged w w' ∧ run serve (accessReconcile Role TheSubject rangeOver) w' = Some (done_, w')) ∧
  (∀ k b, InTheWay w k b → ∃ w', run serve (accessReconcile Role TheSubject rangeOver) w = Some (failed refused, w')).
Proof.
  intros Hk. split.
  - intros Hno. destruct (run_accessReconcile w Hk) as [(w' & Hr & Hk' & Hc & _)|(w' & k & b & _ & Hw)]; [|by destruct (Hno k b)].
    exists w'. split; [done|]. split; [done|].
    destruct (run_accessReconcile w' Hk') as [(w2 & Hr2 & _ & _ & Hsame)|(w2 & k & b & _ & Hb)];
      [|by apply (Converged_clear w) in Hb].
    destruct Hc as [Hg Hl _]. rewrite Hr2, (Hsame Hg). do 2 f_equal. apply map_eq. intros k. apply option_eq. intros b.
    rewrite revokedIn_lookup by done. split; [by intros [? _]|]. intros Hb. split; [done|]. by apply Hl.
  - intros k b (Hl & Hp & Hrole & Hw).
    destruct (run_accessReconcile w Hk) as [(w' & Hr & _ & Hc & _)|(w' & _ & _ & Hr & _)]; [|by exists w'].
    destruct (Converged_clear w w' k b Hc). split_and!; try done. eapply run_keeps; [exact Hr|exact Hl|].
    by apply mayDelete_false.
Qed.
End cluster.

(** ** A sample cluster *)

(** A Gateway that takes a certificate from its own namespace, and a binding left
    over in another. *)
Definition sampleRole : ClusterRole := {| cr_Name := "tls-reader"; cr_UID := "uid-role" |}.
Definition operator : Subject :=
  {| su_APIGroup := ""; su_Kind := "ServiceAccount"; su_Name := "operator"; su_Namespace := "system" |}.
Definition staleBinding : RoleBinding := grantBinding sampleRole operator (newBinding sampleRole "old").
Definition staleCluster : gmap NamespacedName RoleBinding := {[ rb_key staleBinding := staleBinding ]}.
Definition sampleClasses : list GatewayClass := [sampleClass (Some sampleParams)].
Definition rangeElements (s : gset string) : list string := elements s.

Lemma sample_takes : TakesFrom [] sampleClasses [sampleTLSGateway] "default".
Proof. apply (gatewayNamespaces_iff [] sampleClasses [sampleTLSGateway]). by vm_compute. Qed.

Lemma staleCluster_keyed : Keyed staleCluster.
Proof. unfold staleCluster. intros k b [<- <-]%lookup_singleton_Some. reflexivity. Qed.

(** The cluster, with a binding to another role where one is to be made. *)
Definition foreignBinding : RoleBinding :=
  {| rb_ObjectMeta := newObjectMeta "default" "tls-reader"; rb_Subjects := [operator];
     rb_RoleRef := {| rr_APIGroup := "rbac.authorization.k8s.io"; rr_Kind := "ClusterRole"; rr_Name := "admin" |} |}.
Definition blockedCluster : gmap NamespacedName RoleBinding := <[rb_key foreignBinding := foreignBinding]> staleCluster.

Definition samplePolicy : option (string * string) := Some ("system", "operator").

Lemma samplePolicy_operator sa :
  samplePolicy = Some sa → su_Kind operator = "ServiceAccount" ∧ su_Name operator = sa.2 ∧ su_Namespace operator = sa.1.
Proof. by intros [= <-]. Qed.

Lemma blockedCluster_keyed : Keyed blockedCluster.
Proof. unfold blockedCluster. intros k b [[<- <-]|[_ Hl]]%lookup_insert_Some; [done|by apply staleCluster_keyed]. Qed.

Lemma staleCluster_clear k b :
  ¬ InTheWay [] sampleClasses [sampleTLSGateway] sampleRole samplePolicy staleCluster k b.
Proof. unfold staleCluster. intros ([<- <-]%lookup_singleton_Some & _ & Hrole & _). by destruct Hrole. Qed.

Definition sampleServe := serve [] sampleClasses [sampleTLSGateway] sampleRole samplePolicy.

Lemma accessReconcile_converges_witness :
  (∃ w', run sampleServe (accessReconcile sampleRole operator rangeElements) staleCluster = Some (done_, w') ∧
     is_Some (w' !! bindingKey sampleRole "default")) ∧
  ∃ w' e, run sampleServe (accessReconcile sampleRole operator rangeElements) blockedCluster = Some (failed e, w').
Proof.
  destruct (accessReconcile_converges [] sampleClasses [sampleTLSGateway] sampleRole operator rangeElements samplePolicy
    (λ s, reflexivity _) samplePolicy_operator staleCluster staleCluster_keyed) as [Hok _].
  destruct (accessReconcile_converges [] sampleClasses [sampleTLSGateway] sampleRole operator rangeElements samplePolicy
    (λ s, reflexivity _) samplePolicy_operator blockedCluster blockedCluster_keyed) as [_ Hno]. split.
  - destruct (Hok staleCluster_clear) as (w' & Hr & [Hg _ _] & _). exists w'. split; [exact Hr|].
    destruct (Hg "default" sample_takes) as (b & Hb & _). by exists b.
  - destruct (Hno (rb_key foreignBinding) foreignBinding) as (w' & Hr); [|by eexists _, _].
    split_and!; [done|done|by intros [_ ?]|]. right. split; [done|exact sample_takes].
Defined.

Definition secretsAnswers (R : Type) (e : SecretsE R) : option R := fst <$> sampleServe R e staleCluster.

Lemma watchReconcile_spec_witness :
  ∃ tr res want err, exec watchReconcile tr res ∧ Ev (SetAccessNamespaces want) err ∈ tr ∧ "default" ∈ want.
Proof.
  set (want := foldl (gatewayNamespaces (grantsOnly []) (ourClassNames sampleClasses)) ∅ [sampleTLSGateway]).
  assert (exec watchReconcile [Ev (SecretReads _ ListReferenceGrants) (inl []); Ev (SecretLists _ ListGatewayClasses) (inl sampleClasses);
    Ev (SecretLists _ ListGateways) (inl [sampleTLSGateway]); Ev (SetAccessNamespaces want) None]
    {| requeueAfter := 0; result_err := None |}) as Hx by repeat constructor.
  eexists _, _, want, None. split; [exact Hx|]. split; [by right; right; right; left|].
  destruct (watchReconcile_spec _ _ Hx) as [(a & grants & classes & gws & want' & err & _ & _ & _ & _)|(err & He & _)]; [by vm_compute|done].
Defined.

Lemma accessReconcile_least_witness :
  ∃ tr res b, exec (accessReconcile sampleRole operator rangeElements) tr res ∧ Granted b ∈ omap bindingWrite tr ∧
    rb_Subjects b = [operator].
Proof.
  destruct (runTrace_such secretsAnswers (accessReconcile sampleRole operator rangeElements)
    (λ tr _, match omap bindingWrite tr with [Revoked _; Granted _] => true | _ => false end)) as (tr & res & Hx & Ht); [by vm_compute|].
  assert (∃ b, Granted b ∈ omap bindingWrite tr) as (b & Hb).
  { destruct (omap bindingWrite tr) as [|[?|?] [|[b|?] [|]]]; try done. exists b. right. by left. }
  destruct (accessReconcile_least sampleRole operator rangeElements tr res (Granted b)) as (_ & _ & _ & _ & _ & _ & _ & _ & _ & _ & _ & Hs & _);
    [by intros s ns Hn%elem_of_elements|done|done|].
  by exists tr, res, b.
Defined.
