(* ===== verification/IngressCtl.v ===== *)
(** * The Ingress controller (internal/controller/ingress_controller.go,
      internal/ingress, internal/annotation)

    The tunnel an Ingress of the operator's class gets, described by annotations
    of the Ingress, and when one is created. YAML is decoded by sigs.k8s.io/yaml,
    the class [Yaml]. *)
From S2P Require Import Prelude GatewayAPI Samples Effects Helpers Access Refs Routes Envoy Listeners Hosts Model API GatewayLoad GatewayStatus EnvoyDeploy GatewayCtl.

(** ** internal/annotation *)

Record Annotation := { an_prefix : string; an_name : string }.

Definition annotation_String (a : Annotation) : string := an_prefix a +:+ an_name a.

(** [Annotation.Lookup], and [Value], which is what [Annotation.Get] answers. *)
Definition Lookup (a : Annotation) (obj : ObjectMeta) : option string := om_Annotations obj !! annotation_String a.

(** [Value.UnmarshalYAML], with the decoder of the type asked for: [ErrNotFound]
    and the errors of the decoder are told apart by no caller. *)
Definition UnmarshalYAML {A} (decode : string → option A) (v : option string) : option A :=
  match v with
  | None => None
  | Some value => decode value
  end.

Definition Kubernetes := "kubernetes.io/".

(** ** internal/ingress and internal/ingress/annotation *)

Definition DefaultClassName := "cloudflare".
Definition ControllerName := "cloudflare.unmango.dev/ingress-controller".

Record Configuration (T : Type) := {
  AccountId : T;
  ConfigSource : T;
  Cloudflared : T;
  Name : T;
  TunnelSecret : T;
}.
Arguments AccountId {T} _.
Arguments ConfigSource {T} _.
Arguments Cloudflared {T} _.
Arguments Name {T} _.
Arguments TunnelSecret {T} _.

Definition Prefix := "ingress.cloudflare.unmango.dev/".

Definition Definitions : Configuration Annotation :=
  {| AccountId := {| an_prefix := Prefix; an_name := "accountId" |};
     ConfigSource := {| an_prefix := Prefix; an_name := "configSource" |};
     Cloudflared := {| an_prefix := Prefix; an_name := "cloudflared" |};
     Name := {| an_prefix := Prefix; an_name := "name" |};
     TunnelSecret := {| an_prefix := Prefix; an_name := "tunnelSecret" |} |}.

(** [Parse]. *)
Definition Parse (obj : ObjectMeta) : Configuration (option string) :=
  {| AccountId := Lookup (AccountId Definitions) obj;
     ConfigSource := Lookup (ConfigSource Definitions) obj;
     Cloudflared := Lookup (Cloudflared Definitions) obj;
     Name := Lookup (Name Definitions) obj;
     TunnelSecret := Lookup (TunnelSecret Definitions) obj |}.

(** ** internal/controller/ingress_controller.go *)

(** [networkingv1.Ingress], as far as it is read. *)
Record Ingress := { ing_ObjectMeta : ObjectMeta; ing_IngressClassName : option string }.

(** What the annotations hold when they are YAML of a type. *)
Class Yaml := {
  decodeCloudflared : string → option CloudflareTunnelCloudflared;
  decodeSecret : string → option CloudflareTunnelSecret;
}.

Inductive IngressE : Type → Type :=
  | GetIngress (key : NamespacedName) : IngressE (Ingress + Err)
  | GetIngressTunnel (key : NamespacedName) : IngressE (CloudflareTunnel + Err)
  | CreateIngressTunnel (tunnel : CloudflareTunnel) : IngressE (option Err).

(** [ingressClassName]. *)
Definition ingressClassName (ingress : Ingress) : option string :=
  match ing_IngressClassName ingress with
  | Some class => Some class
  | None => Lookup {| an_prefix := Kubernetes; an_name := "ingress.class" |} (ing_ObjectMeta ingress)
  end.

Section controller.
Context `{ObjectHelpers, Yaml}.

(** The secret an annotation holds: a serialized one, or a bare value. *)
Definition annotatedSecret (v : option string) : option CloudflareTunnelSecret :=
  match UnmarshalYAML decodeSecret v with
  | Some secret => Some secret
  | None => (λ value, {| ts_Value := Some value; ts_ValueFrom := None |}) <$> v
  end.

(** The spec [createTunnel] fills in. *)
Definition annotatedSpec (accountId : string) (annotations : Configuration (option string)) : CloudflareTunnelSpec :=
  {| t_AccountId := accountId;
     t_Cloudflared := UnmarshalYAML decodeCloudflared (Cloudflared annotations);
     t_Config := None;
     t_ConfigSource := default "" (ConfigSource annotations);
     t_Dns := None;
     t_Name := default "" (Name annotations);
     t_Routes := [];
     t_TunnelSecret := annotatedSecret (TunnelSecret annotations) |}.

(** [createTunnel]. *)
Definition createTunnel (ingress : Ingress) : prog IngressE Result :=
  let tunnel := emptyTunnel (om_Namespace (ing_ObjectMeta ingress)) (om_Name (ing_ObjectMeta ingress)) in
  match SetControllerReference (ing_ObjectMeta ingress) (tun_ObjectMeta tunnel) with
  | inr err => Ret (failed err)
  | inl m =>
    let annotations := Parse (ing_ObjectMeta ingress) in
    match AccountId annotations with
    | None => Ret done_
    | Some accountId =>
      do err <- call (CreateIngressTunnel
        {| tun_ObjectMeta := m; tun_Spec := annotatedSpec accountId annotations; tun_Status := tun_Status tunnel |});
      Ret (match err with
           | Some err => failed err
           | None => requeue (seconds 5)
           end)
    end
  end.

(** [Reconcile]. *)
Definition Reconcile (req : NamespacedName) : prog IngressE Result :=
  do ingress <- call (GetIngress req);
  match ingress with
  | inr err => Ret {| requeueAfter := 0; result_err := k8s_IgnoreNotFound (Some err) |}
  | inl ingress =>
    if match ingressClassName ingress with Some class => negb (str_eqb class DefaultClassName) | None => false end
    then Ret done_
    else
      do tunnel <- call (GetIngressTunnel req);
      match tunnel with
      | inr err => if k8s_IsNotFound err then createTunnel ingress else Ret (failed err)
      | inl _ => Ret done_
      end
  end.
End controller.

(** ** Properties *)

Definition tunnelCreated (ev : event IngressE) : option CloudflareTunnel :=
  let 'Ev e a := ev in
  match e in IngressE R return R → option CloudflareTunnel with
  | CreateIngressTunnel tunnel => λ _, Some tunnel
  | _ => λ _, None
  end a.

(** The Ingress read, and what was answered of its tunnel. *)
Definition ingressGot (ev : event IngressE) : option Ingress :=
  let 'Ev e a := ev in
  match e in IngressE R return R → option Ingress with
  | GetIngress _ => λ a, match a with inl ingress => Some ingress | inr _ => None end
  | _ => λ _, None
  end a.

Definition tunnelGot (ev : event IngressE) : option (CloudflareTunnel + Err) :=
  let 'Ev e a := ev in
  match e in IngressE R return R → option (CloudflareTunnel + Err) with
  | GetIngressTunnel _ => λ a, Some a
  | _ => λ _, None
  end a.

(** The operator takes an Ingress of its class, or of none. *)
Definition OurIngress (ingress : Ingress) : Prop :=
  match ing_IngressClassName ingress with
  | Some class => class = DefaultClassName
  | None => ∀ class, om_Annotations (ing_ObjectMeta ingress) !! "kubernetes.io/ingress.class" = Some class → class = DefaultClassName
  end.

Lemma ourIngress_spec ingress :
  match ingressClassName ingress with Some class => negb (str_eqb class DefaultClassName) | None => false end = false ↔ OurIngress ingress.
Proof.
  unfold OurIngress, ingressClassName, Lookup, annotation_String. simpl.
  destruct (ing_IngressClassName ingress) as [class|]; [by rewrite negb_false_iff, str_eqb_eq|].
  destruct (om_Annotations _ !! _) as [class|]; [|done]. rewrite negb_false_iff, str_eqb_eq.
  split; [by intros -> ? [= <-]|auto].
Qed.

Section props.
Context `{ObjectHelpers, !OwnerLaws, Yaml}.

(** What a tunnel made for an Ingress is. *)
Definition TunnelOf (ingress : Ingress) (t : CloudflareTunnel) : Prop :=
  let m := ing_ObjectMeta ingress in
  let annotation name := om_Annotations m !! ("ingress.cloudflare.unmango.dev/" +:+ name) in
  om_Name (tun_ObjectMeta t) = om_Name m ∧ om_Namespace (tun_ObjectMeta t) = om_Namespace m ∧
  IsControlledBy (tun_ObjectMeta t) m = true ∧
  annotation "accountId" = Some (t_AccountId (tun_Spec t)) ∧
  t_ConfigSource (tun_Spec t) = default "" (annotation "configSource") ∧
  t_Name (tun_Spec t) = default "" (annotation "name") ∧
  t_Cloudflared (tun_Spec t) = annotation "cloudflared" ≫= decodeCloudflared ∧
  match annotation "tunnelSecret" with
  | None => t_TunnelSecret (tun_Spec t) = None
  | Some value => t_TunnelSecret (tun_Spec t) =
      Some (default {| ts_Value := Some value; ts_ValueFrom := None |} (decodeSecret value))
  end ∧
  t_Config (tun_Spec t) = None ∧ t_Dns (tun_Spec t) = None ∧ t_Routes (tun_Spec t) = [].

Lemma createTunnel_exec ingress tr res :
  exec (createTunnel ingress) tr res →
  (omap tunnelCreated tr = [] ∧ omap ingressGot tr = [] ∧ requeueAfter res = 0%Z ∧
    (AccountId (Parse (ing_ObjectMeta ingress)) ≠ None → is_Some (result_err res))) ∨
  ∃ t err, tr = [Ev (CreateIngressTunnel t) err] ∧ TunnelOf ingress t ∧
    res = match err with Some err => failed err | None => requeue (seconds 5) end.
Proof.
  unfold createTunnel. cbv zeta. destruct (SetControllerReference _ _) as [m|err] eqn:Eo.
  2: { intros [-> <-]%exec_Ret_inv. left. split_and!; [done|done|done|by eexists]. }
  destruct (AccountId (Parse (ing_ObjectMeta ingress))) as [accountId|] eqn:Ea; [|intros [-> <-]%exec_Ret_inv; by left].
  intros (t1 & t2 & err & -> & ->%exec_call & [-> <-]%exec_Ret_inv)%exec_bind. right. eexists _, err. split; [done|]. split; [|done].
  destruct (set_controller_refs _ _ _ Eo) as [refs ->]. unfold TunnelOf. cbv zeta. simpl.
  split; [done|]. split; [done|]. split; [by apply (set_controller_controls _ _ _ Eo)|]. split; [exact Ea|].
  split; [done|]. split; [done|]. split_and!; try done; unfold annotatedSecret, Lookup, UnmarshalYAML, annotation_String; simpl.
  unfold Prefix. destruct (om_Annotations (ing_ObjectMeta ingress) !! _) as [v|]; [|done]. simpl. by destruct (decodeSecret v).
Qed.

(** A reconciliation of an Ingress makes at most one write: the creation of
    the tunnel its annotations describe, under its name, controlled by it. That
    is tried when the Ingress is of the operator's class or of none, names an
    account and no tunnel of the name exists, and then only; it is looked at again
    after five seconds once that succeeds. *)
Theorem Reconcile_creates req tr res :
  exec (Reconcile req) tr res →
  (∀ t, t ∈ omap tunnelCreated tr → ∃ ingress err e, tr = [Ev (GetIngress req) (inl ingress); Ev (GetIngressTunnel req) (inr e);
       Ev (CreateIngressTunnel t) err] ∧ k8s_IsNotFound e = true ∧ OurIngress ingress ∧ TunnelOf ingress t ∧
     res = match err with Some err => failed err | None => requeue (5 * 10 ^ 9) end) ∧
  (∀ ingress e, ingress ∈ omap ingressGot tr → inr e ∈ omap tunnelGot tr → k8s_IsNotFound e = true → omap tunnelCreated tr = [] →
     om_Annotations (ing_ObjectMeta ingress) !! "ingress.cloudflare.unmango.dev/accountId" = None ∨ is_Some (result_err res)) ∧
  (∀ ingress, ingress ∈ omap ingressGot tr → omap tunnelGot tr = [] → ¬ OurIngress ingress ∧ res = done_) ∧
  (res = requeue (5 * 10 ^ 9) → ∃ t, omap tunnelCreated tr = [t]).
Proof.
  intros (t1 & t2 & g & -> & ->%exec_call & Hx)%exec_bind.
  destruct g as [ingress|err]; cbn [app omap list_omap ingressGot tunnelGot tunnelCreated].
  2: { apply exec_Ret_inv in Hx as [-> <-]. split_and!; [by intros ? ?%elem_of_nil|by intros ? ? ?%elem_of_nil|by intros ? ?%elem_of_nil|done]. }
  destruct (match ingressClassName ingress with Some _ => _ | None => _ end) eqn:Ec.
  { apply exec_Ret_inv in Hx as [-> <-]. split_and!; [by intros ? ?%elem_of_nil|by intros ? ? _ ?%elem_of_nil| |done].
    intros i ->%list_elem_of_singleton _. split; [|done]. intros Ho%ourIngress_spec. congruence. }
  apply ourIngress_spec in Ec. apply exec_bind in Hx as (t3 & t4 & g & -> & ->%exec_call & Hx).
  cbn [app omap list_omap ingressGot tunnelGot tunnelCreated]. destruct g as [t|e].
  { apply exec_Ret_inv in Hx as [-> <-]. split_and!; [by intros ? ?%elem_of_nil|by intros ? ? _ ?%list_elem_of_singleton|done|done]. }
  destruct (k8s_IsNotFound e) eqn:Ee.
  2: { apply exec_Ret_inv in Hx as [-> <-]. split_and!; [by intros ? ?%elem_of_nil| |done|done].
    intros i e' _ [= ->]%list_elem_of_singleton. congruence. }
  apply createTunnel_exec in Hx as [(Hno & Hg & Hz & Ha)|(t & err & -> & Ht & ->)].
  - rewrite Hno, Hg. split_and!; [by intros ? ?%elem_of_nil| |done|by intros ->].
    intros i e' ->%list_elem_of_singleton _ _ _. unfold Parse, Lookup, annotation_String in Ha. simpl in Ha. unfold Prefix in Ha.
    destruct (om_Annotations (ing_ObjectMeta ingress) !! _); [right; by apply Ha|by left].
  - split_and!; [|done|done|by exists t]. intros t' ->%list_elem_of_singleton. by exists ingress, err, e.
Qed.
End props.

(** ** A sample Ingress *)

Definition sampleIngress : Ingress :=
  let m := sampleMeta "default" "web" in
  {| ing_ObjectMeta :=
       {| om_Name := om_Name m; om_Namespace := om_Namespace m; om_UID := om_UID m;
          om_ResourceVersion := om_ResourceVersion m; om_Generation := om_Generation m;
          om_CreationTimestamp := om_CreationTimestamp m; om_DeletionTimestamp := om_DeletionTimestamp m;
          om_Labels := om_Labels m;
          om_Annotations := {[ "ingress.cloudflare.unmango.dev/accountId" := "account"; "ingress.cloudflare.unmango.dev/tunnelSecret" := "c2VjcmV0" ]};
          om_OwnerReferences := om_OwnerReferences m; om_Finalizers := om_Finalizers m |};
     ing_IngressClassName := Some "cloudflare" |}.

Definition noYaml : Yaml := {| decodeCloudflared _ := None; decodeSecret _ := None |}.

Definition ingressAnswers (R : Type) (e : IngressE R) : option R :=
  match e in IngressE R return option R with
  | GetIngress _ => Some (inl sampleIngress)
  | GetIngressTunnel _ => Some (inr k8sNotFoundErr)
  | CreateIngressTunnel _ => Some None
  end.

Lemma Reconcile_creates_witness :
  ∃ tr res t, exec (@Reconcile sampleHelpers noYaml {| nn_Namespace := "default"; nn_Name := "web" |}) tr res ∧
    tunnelCreated <$> tr = [None; None; Some t] ∧ t_AccountId (tun_Spec t) = "account".
Proof.
  destruct (runTrace_such ingressAnswers (@Reconcile sampleHelpers noYaml {| nn_Namespace := "default"; nn_Name := "web" |})
    (λ tr res, match omap tunnelCreated tr with [t] => str_eqb (t_AccountId (tun_Spec t)) "account" | _ => false end))
    as (tr & res & Hx & Ht); [by vm_compute|].
  destruct (omap tunnelCreated tr) as [|t [|]] eqn:Et; try done. apply str_eqb_eq in Ht.
  destruct (@Reconcile_creates sampleHelpers sample_owner_laws noYaml _ _ _ Hx) as (Hc & _).
  destruct (Hc t) as (ingress & err & e & -> & _); [rewrite Et; by left|]. eexists _, res, t.
  split; [exact Hx|]. split; [done|exact Ht].
Defined.
