(* ===== verification/XdsServer.v ===== *)
(** * The xDS server (internal/xds/server.go)

    The gRPC server that streams the snapshots to the Envoys, and the goroutine
    that stops it when its context is done. The two run beside each other, so a run
    is a sequence of their steps. gRPC's server and go-control-plane's are behind
    the requests; what gRPC documents of them is in [answers]. *)
From S2P Require Import Prelude Effects.

Definition DefaultPort : Z := 18000.

Definition keepaliveTime : Z := 30.
Definition keepaliveMinTime : Z := 15.

(** The server: of its fields, the address decides what it does; its cache is the
    one the controller of snapshots fills. *)
Record Server := { sv_Address : string }.

(** The options of a gRPC server, in seconds. *)
Record GrpcOptions := { go_Time : Z; go_MinTime : Z; go_PermitWithoutStream : bool }.

Definition grpcOptions : GrpcOptions :=
  {| go_Time := keepaliveTime; go_MinTime := keepaliveMinTime; go_PermitWithoutStream := true |}.

Inductive ServerE : Type → Type :=
  | Listen (network address : string) : ServerE (string + Err)
  | NewGrpcServer (opts : GrpcOptions) : ServerE unit
  | RegisterADS : ServerE unit
  | StopWhenDone : ServerE unit
  | Serve (lis : string) : ServerE (option Err).

(** What [Start] does with a listener. [StopWhenDone] starts the goroutine. *)
Definition serve (lis : string) : prog ServerE (option Err) :=
  do err <- call (Serve lis);
  Ret (match err with Some err => Some (wrapErr "serving xDS" err) | None => None end).

Definition serveUntilDone (lis : string) : prog ServerE (option Err) :=
  do _ <- call StopWhenDone;
  serve lis.

Definition registerNew (lis : string) : prog ServerE (option Err) :=
  do _ <- call RegisterADS;
  serveUntilDone lis.

Definition serveNew (lis : string) : prog ServerE (option Err) :=
  do _ <- call (NewGrpcServer grpcOptions);
  registerNew lis.

Definition Start (s : Server) : prog ServerE (option Err) :=
  do lis <- call (Listen "tcp" (sv_Address s));
  match lis with
  | inr err => Ret (Some (wrapErr ("listening for xDS on " +:+ sv_Address s) err))
  | inl lis =>
    serveNew lis
  end.

Definition Server_NeedLeaderElection (s : Server) : bool := false.

(** ** The server and its goroutine *)

(** The gRPC server. *)
Record Grpc := { gr_Options : GrpcOptions; gr_ADS : bool; gr_Stopped : bool }.

(** The goroutine waits for the context, or has stopped the server. *)
Inductive Stopper := NotStarted | Waiting | Finished.

Record World := {
  wd_Main : prog ServerE (option Err);
  wd_Done : bool;
  wd_Grpc : option Grpc;
  wd_Stopper : Stopper;
}.

Definition starting (s : Server) : World :=
  {| wd_Main := Start s; wd_Done := false; wd_Grpc := None; wd_Stopper := NotStarted |}.

Definition stopServer (g : Grpc) : Grpc := {| gr_Options := gr_Options g; gr_ADS := gr_ADS g; gr_Stopped := true |}.

(** What a request of [Start] does to the server. [Serve] blocks until the server
    fails or was stopped; gRPC documents that it returns no error then, also when
    the server was stopped before it was to serve. *)
Definition answers (ev : event ServerE) (g : option Grpc) (st : Stopper) (g' : option Grpc) (st' : Stopper) : Prop :=
  let 'Ev e a := ev in
  match e in ServerE R return R → Prop with
  | Listen _ _ => λ _, g' = g ∧ st' = st
  | NewGrpcServer opts => λ _, g' = Some {| gr_Options := opts; gr_ADS := false; gr_Stopped := false |} ∧ st' = st
  | RegisterADS => λ _, g' = (λ g, {| gr_Options := gr_Options g; gr_ADS := true; gr_Stopped := gr_Stopped g |}) <$> g ∧ st' = st
  | StopWhenDone => λ _, g' = g ∧ st' = Waiting
  | Serve _ => λ err,
    st' = st ∧
    match err with
    | None => gr_Stopped <$> g = Some true ∧ g' = g
    | Some _ => gr_Stopped <$> g = Some false ∧ g' = stopServer <$> g
    end
  end a.

(** A program takes a step with an answer. *)
Inductive taken {E A} : prog E A → event E → prog E A → Prop :=
  | taken_Vis R (e : E R) k a : taken (Vis e k) (Ev e a) (k a).

(** A step of the context, of [Start] or of the goroutine. *)
Inductive step : World → World → Prop :=
  | step_cancel w :
      wd_Done w = false →
      step w {| wd_Main := wd_Main w; wd_Done := true; wd_Grpc := wd_Grpc w; wd_Stopper := wd_Stopper w |}
  | step_main w ev p g st :
      taken (wd_Main w) ev p → answers ev (wd_Grpc w) (wd_Stopper w) g st →
      step w {| wd_Main := p; wd_Done := wd_Done w; wd_Grpc := g; wd_Stopper := st |}
  | step_stop w :
      wd_Stopper w = Waiting → wd_Done w = true →
      step w {| wd_Main := wd_Main w; wd_Done := wd_Done w; wd_Grpc := stopServer <$> wd_Grpc w; wd_Stopper := Finished |}.

(** ** Properties *)

Lemma taken_Vis_inv {E A R} (e : E R) (k : R → prog E A) ev p :
  taken (Vis e k) ev p → ∃ a, ev = Ev e a ∧ p = k a.
Proof.
  remember (Vis e k) as q eqn:Hq. intros Hx. destruct Hx as [R' e' k' a].
  refine (match Hq in _ = q return
    match q with
    | Ret _ => True
    | @Vis _ _ R0 e0 k0 => ∃ a0, Ev e' a = Ev e0 a0 ∧ k' a = k0 a0
    end with eq_refl => _ end).
  by exists a.
Qed.

Lemma taken_Ret_inv {E A} (a : A) (ev : event E) p : ¬ taken (Ret a) ev p.
Proof. inversion 1. Qed.

(** The server that was made. *)
Definition fresh (ads stopped : bool) : option Grpc := Some {| gr_Options := grpcOptions; gr_ADS := ads; gr_Stopped := stopped |}.

(** Where [Start] is. The server serves the discovery service, and stops serving
    when the context is done. *)
Inductive Phase (s : Server) : nat → World → Prop :=
  | ph_start d : Phase s 5 {| wd_Main := Start s; wd_Done := d; wd_Grpc := None; wd_Stopper := NotStarted |}
  | ph_listening lis d : Phase s 4 {| wd_Main := serveNew lis; wd_Done := d; wd_Grpc := None; wd_Stopper := NotStarted |}
  | ph_created lis d :
      Phase s 3 {| wd_Main := registerNew lis; wd_Done := d; wd_Grpc := fresh false false; wd_Stopper := NotStarted |}
  | ph_registered lis d :
      Phase s 2 {| wd_Main := serveUntilDone lis; wd_Done := d; wd_Grpc := fresh true false; wd_Stopper := NotStarted |}
  | ph_serving lis d : Phase s 1 {| wd_Main := serve lis; wd_Done := d; wd_Grpc := fresh true false; wd_Stopper := Waiting |}
  | ph_stopping lis : Phase s 1 {| wd_Main := serve lis; wd_Done := true; wd_Grpc := fresh true true; wd_Stopper := Finished |}
  | ph_returned r d g st : (r = None → d = true ∧ st = Finished) →
      Phase s 0 {| wd_Main := Ret r; wd_Done := d; wd_Grpc := g; wd_Stopper := st |}.

(** How many steps are left, at most: those of [Start], of the context and of the
    goroutine. *)
Definition left (k : nat) (w : World) : nat :=
  k + (if wd_Done w then 0 else 1) + match wd_Stopper w with Finished => 0 | _ => 1 end.

Lemma Phase_step s k w w' : Phase s k w → step w w' → ∃ k', Phase s k' w' ∧ left k' w' < left k w.
Proof.
  intros HP HS. destruct HS as [w Hd|w ev p g st Ht Ha|w Hst Hd].
  - exists k. destruct HP as [| | | | | |r d g st Hr]; simpl in Hd; subst; unfold left; simpl; (split; [|lia]); constructor.
    intros Hn. by destruct (Hr Hn).
  - destruct HP as [d|lis d|lis d|lis d|lis d|lis|r d g0 st0 Hr]; cbn [wd_Main wd_Grpc wd_Stopper wd_Done] in *;
      [apply taken_Vis_inv in Ht as (a & -> & ->)..|by apply taken_Ret_inv in Ht]; simpl in Ha.
    + destruct Ha as [-> ->]. destruct a as [lis|err]; [exists 4|exists 0]; unfold left; simpl; (split; [|lia]); by constructor.
    + destruct Ha as [-> ->]. exists 3. unfold left; simpl; (split; [|lia]); by constructor.
    + destruct Ha as [-> ->]. exists 2. unfold left; simpl; (split; [|lia]); by constructor.
    + destruct Ha as [-> ->]. exists 1. unfold left; simpl; (split; [|lia]); by constructor.
    + destruct Ha as [-> Ha]. destruct a as [err|]; destruct Ha as [Hb ->]; [|done].
      exists 0. unfold left; simpl; (split; [|lia]); by constructor.
    + destruct Ha as [-> Ha]. destruct a as [err|]; destruct Ha as [Hb ->]; [done|].
      exists 0. unfold left; simpl; (split; [|lia]); by constructor.
  - destruct HP as [d|lis d|lis d|lis d|lis d|lis|r d g0 st0 Hr]; cbn [wd_Main wd_Grpc wd_Stopper wd_Done] in *; subst; try done.
    + exists 1. unfold left; simpl; (split; [|lia]); by constructor.
    + exists 0. unfold left; simpl; (split; [|lia]). constructor. done.
Qed.

Lemma Phase_steps s n w : nsteps step n (starting s) w → ∃ k, Phase s k w ∧ n + left k w ≤ 7.
Proof.
  assert (∀ k w0, Phase s k w0 → nsteps step n w0 w → ∃ k', Phase s k' w ∧ n + left k' w ≤ left k w0) as Hn.
  { induction n as [|n IH]; intros k w0 HP Hs; inversion Hs as [|? ? ? ? H1 H2]; subst; [by exists k|].
    destruct (Phase_step _ _ _ _ HP H1) as (k1 & HP1 & Hl). destruct (IH _ _ HP1 H2) as (k2 & HP2 & Hl2). exists k2. split; [done|lia]. }
  intros Hs. exact (Hn 5 (starting s) (ph_start s false) Hs).
Qed.

(** [Start] waits for the server. *)
Definition atServe (p : prog ServerE (option Err)) : bool :=
  match p with Vis e _ => match e with Serve _ => true | _ => false end | Ret _ => false end.

Lemma request_step R (e : ServerE R) k a d g st g' st' :
  answers (Ev e a) g st g' st' →
  step {| wd_Main := Vis e k; wd_Done := d; wd_Grpc := g; wd_Stopper := st |}
    {| wd_Main := k a; wd_Done := d; wd_Grpc := g'; wd_Stopper := st' |}.
Proof. intros Ha. by apply (step_main {| wd_Main := Vis e k; wd_Done := d; wd_Grpc := g; wd_Stopper := st |} (Ev e a)). Qed.

(** A server that is asked to serve has the discovery service, and the goroutine
    that stops it. Whatever happens, [Start] is over after a few steps once its
    context is done, and it returns no error only when the server was stopped for
    that. *)
Theorem Start_stops s n w :
  nsteps step n (starting s) w →
  n ≤ 7 ∧
  (atServe (wd_Main w) = true → gr_ADS <$> wd_Grpc w = Some true ∧ wd_Stopper w ≠ NotStarted) ∧
  (wd_Done w = true → (∀ w', ¬ step w w') → ∃ r, wd_Main w = Ret r) ∧
  (wd_Main w = Ret None → wd_Done w = true ∧ wd_Stopper w = Finished).
Proof.
  intros (k & HP & Hl)%Phase_steps. split; [lia|].
  destruct HP as [d|lis d|lis d|lis d|lis d|lis|r d g st Hr]; cbn [wd_Main wd_Done wd_Grpc wd_Stopper];
    (split; [try done; by split|split; [|try done; by intros [= ->]; apply Hr]]); intros Hd Hno; try (by exists r); exfalso.
  - eapply Hno, (request_step _ (Listen "tcp" (sv_Address s)) _ (inl "")). by split.
  - eapply Hno, (request_step _ (NewGrpcServer grpcOptions) _ tt). by split.
  - eapply Hno, (request_step _ RegisterADS _ tt). by split.
  - eapply Hno, (request_step _ StopWhenDone _ tt). by split.
  - by eapply Hno, step_stop.
  - eapply Hno, (request_step _ (Serve lis) _ None). by split_and!.
Qed.
