(* ===== verification/Flags.v ===== *)
(** * The manager's flags (cmd/main.go)

    The flags of the command line, as package flag parses them, and the options
    of the manager, of its metrics server and of its webhook server, that they
    set. The flags that other packages add (zap's, and the kubeconfig's) are a
    parameter. *)
From S2P Require Import Prelude Effects XdsServer.

(** ** Values *)

(** A flag of main, or one of a package: whether it takes no argument, and what it
    was set to. *)
Inductive FlagValue := StringFlag (v : string) | BoolFlag (v : bool) | VarFlag (isBool : bool) (v : option string).

Notation FlagMap := (gmap string FlagValue).

(** The flags packages add to those of main, each with whether it needs no value,
    and the error setting one to a value makes, if any. *)
Class PackageFlags := { packageFlags : list (string * bool); packageSet : string → string → option string }.

(** The flags main defines, with their defaults. *)
Definition mainFlags : list (string * FlagValue) :=
  [("metrics-bind-address", StringFlag "0"); ("health-probe-bind-address", StringFlag ":8081");
   ("leader-elect", BoolFlag false); ("metrics-secure", BoolFlag true);
   ("webhook-cert-path", StringFlag ""); ("webhook-cert-name", StringFlag "tls.crt"); ("webhook-cert-key", StringFlag "tls.key");
   ("metrics-cert-path", StringFlag ""); ("metrics-cert-name", StringFlag "tls.crt"); ("metrics-cert-key", StringFlag "tls.key");
   ("enable-http2", BoolFlag false); ("xds-bind-address", StringFlag (":" +:+ fmt_d DefaultPort)); ("xds-address", StringFlag "")].

Section flags.
Context `{PackageFlags}.

Definition flagSet : FlagMap := list_to_map (mainFlags ++ ((λ '(name, isBool), (name, VarFlag isBool None)) <$> packageFlags)).

(** ** Package flag *)

Definition dash : Ascii.ascii := Ascii.ascii_of_nat 45.
Definition equals : Ascii.ascii := Ascii.ascii_of_nat 61.

(** The text before the first equals sign, and the one after it if there is one. *)
Fixpoint splitEquals (s : string) : string * option string :=
  match s with
  | EmptyString => ("", None)
  | String a s => if Ascii.eqb a equals then ("", Some s) else let '(n, v) := splitEquals s in (String a n, v)
  end.

(** What an argument is: none of a flag's, where the flags end; a flag with bad
    syntax; or a flag, with a value or without. *)
Inductive Arg := NoFlag | BadFlag | FlagArg (name : string) (value : option string).

Definition flagArg (name : string) : Arg :=
  match name with
  | EmptyString => BadFlag
  | String a _ =>
    if Ascii.eqb a dash || Ascii.eqb a equals then BadFlag
    else let '(n, v) := splitEquals name in FlagArg n v
  end.

Definition readArg (s : string) : Arg :=
  match s with
  | String a (String b rest) =>
    if negb (Ascii.eqb a dash) then NoFlag
    else if Ascii.eqb b dash then match rest with EmptyString => NoFlag | _ => flagArg rest end
    else flagArg (String b rest)
  | _ => NoFlag
  end.

(** [strconv.ParseBool]. *)
Definition ParseBool (s : string) : option bool :=
  if bool_decide (s ∈ ["1"; "t"; "T"; "TRUE"; "true"; "True"]) then Some true
  else if bool_decide (s ∈ ["0"; "f"; "F"; "FALSE"; "false"; "False"]) then Some false
  else None.

Definition isBoolFlag (f : FlagValue) : bool :=
  match f with StringFlag _ => false | BoolFlag _ => true | VarFlag isBool _ => isBool end.

(** What a value makes of a flag, or what is wrong with it. *)
Definition setValue (name : string) (f : FlagValue) (v : string) : FlagValue + string :=
  match f with
  | StringFlag _ => inl (StringFlag v)
  | BoolFlag _ => match ParseBool v with Some b => inl (BoolFlag b) | None => inr "parse error" end
  | VarFlag isBool _ => match packageSet name v with None => inl (VarFlag isBool (Some v)) | Some msg => inr msg end
  end.

Definition invalid (f : FlagValue) (name : string) (value : option string) (msg : string) : Err :=
  plainErr (match value with
            | Some v => (if isBoolFlag f then "invalid boolean value " +:+ fmt_q v +:+ " for -" else "invalid value " +:+ fmt_q v +:+ " for flag -") +:+ name
            | None => "invalid boolean flag " +:+ name
            end +:+ ": " +:+ msg).

(** A flag that is set. One without a value that needs none is true. *)
Definition setFlag (flags : FlagMap) (name : string) (f : FlagValue) (value : option string) : FlagMap + Err :=
  match setValue name f (default "true" value) with
  | inl f => inl (<[name := f]> flags)
  | inr msg => inr (invalid f name value msg)
  end.

(** The flag of a name. *)
Definition lookupFlag (flags : FlagMap) (name : string) : FlagValue + Err :=
  match flags !! name with
  | Some f => inl f
  | None => inr (plainErr (if str_eqb name "help" || str_eqb name "h" then "flag: help requested"
                           else "flag provided but not defined: -" +:+ name))
  end.

(** [flag.Parse]; an error ends the program. *)
Fixpoint Parse (flags : FlagMap) (args : list string) : FlagMap + Err :=
  match args with
  | [] => inl flags
  | s :: args =>
    match readArg s with
    | NoFlag => inl flags
    | BadFlag => inr (plainErr ("bad flag syntax: " +:+ s))
    | FlagArg name value =>
      match lookupFlag flags name with
      | inr err => inr err
      | inl f =>
        match value, isBoolFlag f, args with
        | None, false, [] => inr (plainErr ("flag needs an argument: -" +:+ name))
        | None, false, v :: args =>
          match setFlag flags name f (Some v) with inl flags => Parse flags args | inr err => inr err end
        | _, _, _ =>
          match setFlag flags name f value with inl flags => Parse flags args | inr err => inr err end
        end
      end
    end
  end.
End flags.

(** ** What the flags set *)

Definition stringFlag (flags : FlagMap) (name : string) : string :=
  match flags !! name with Some (StringFlag v) => v | _ => "" end.

Definition boolFlag (flags : FlagMap) (name : string) : bool :=
  match flags !! name with Some (BoolFlag v) => v | _ => false end.

Definition xdsBindAddr (flags : FlagMap) : string := stringFlag flags "xds-bind-address".
Definition xdsAddress (flags : FlagMap) : string := stringFlag flags "xds-address".
Definition enableHTTP2 (flags : FlagMap) : bool := boolFlag flags "enable-http2".
Definition secureMetrics (flags : FlagMap) : bool := boolFlag flags "metrics-secure".

(** [tls.Config], of which only the protocols are set. *)
Record TLSConfig := { NextProtos : list string }.

Definition disableHTTP2 (c : TLSConfig) : TLSConfig := {| NextProtos := ["http/1.1"] |}.

Definition tlsOpts (flags : FlagMap) : list (TLSConfig → TLSConfig) :=
  if negb (enableHTTP2 flags) then [disableHTTP2] else [].

(** The directory and names of a server's certificate, when one is given. *)
Record CertOptions := { CertDir : string; CertName : string; KeyName : string }.

Definition certOptions (path name key : string) : CertOptions :=
  if negb (str_eqb path "") then {| CertDir := path; CertName := name; KeyName := key |}
  else {| CertDir := ""; CertName := ""; KeyName := "" |}.

Record WebhookOptions := { wo_TLSOpts : list (TLSConfig → TLSConfig); wo_Cert : CertOptions }.

Definition webhookServerOptions (flags : FlagMap) : WebhookOptions :=
  {| wo_TLSOpts := tlsOpts flags;
     wo_Cert := certOptions (stringFlag flags "webhook-cert-path") (stringFlag flags "webhook-cert-name")
                  (stringFlag flags "webhook-cert-key") |}.

(** The metrics server, with a filter of authentication and authorization or
    without. *)
Record MetricsOptions := {
  mo_BindAddress : string;
  mo_SecureServing : bool;
  mo_TLSOpts : list (TLSConfig → TLSConfig);
  mo_WithAuthenticationAndAuthorization : bool;
  mo_Cert : CertOptions;
}.

Definition metricsServerOptions (flags : FlagMap) : MetricsOptions :=
  {| mo_BindAddress := stringFlag flags "metrics-bind-address"; mo_SecureServing := secureMetrics flags;
     mo_TLSOpts := tlsOpts flags; mo_WithAuthenticationAndAuthorization := secureMetrics flags;
     mo_Cert := certOptions (stringFlag flags "metrics-cert-path") (stringFlag flags "metrics-cert-name")
                  (stringFlag flags "metrics-cert-key") |}.

(** [ctrl.Options]. The cache holds the RoleBindings that have a label. *)
Record ManagerOptions := {
  mg_RoleBindingLabel : string;
  mg_Metrics : MetricsOptions;
  mg_WebhookServer : WebhookOptions;
  mg_HealthProbeBindAddress : string;
  mg_LeaderElection : bool;
  mg_LeaderElectionID : string;
}.

Definition managerOptions (roleBindingLabel : string) (flags : FlagMap) : ManagerOptions :=
  {| mg_RoleBindingLabel := roleBindingLabel; mg_Metrics := metricsServerOptions flags;
     mg_WebhookServer := webhookServerOptions flags;
     mg_HealthProbeBindAddress := stringFlag flags "health-probe-bind-address";
     mg_LeaderElection := boolFlag flags "leader-elect"; mg_LeaderElectionID := "aacdaab8.cloudflare.unmango.dev" |}.

(** ** What a command line means *)

(** The flag an argument names. *)
Definition argName (s : string) : option string := match readArg s with FlagArg n _ => Some n | _ => None end.

(** A name an argument can give. *)
Definition flagName (n : string) : bool :=
  match n with EmptyString => false | String a _ => negb (Ascii.eqb a dash || Ascii.eqb a equals) && lacks equals n end.

Definition renderFlag (setting : string * string) : string := "--" +:+ setting.1 +:+ "=" +:+ setting.2.

(** The protocols a server offers that starts from a configuration. *)
Definition protocols (opts : list (TLSConfig → TLSConfig)) (c : TLSConfig) : list string :=
  NextProtos (foldl (λ c f, f c) c opts).

Section properties.
Context `{PackageFlags}.

Lemma splitEquals_app n v : lacks equals n = true → splitEquals (n +:+ "=" +:+ v) = (n, Some v).
Proof.
  induction n as [|a n IH]; simpl; [done|]. destruct (Ascii.eqb a equals) eqn:E; [done|]. simpl. intros Hl.
  specialize (IH Hl). simpl in IH. by rewrite IH.
Qed.

Lemma readArg_render n v : flagName n = true → readArg (renderFlag (n, v)) = FlagArg n (Some v).
Proof.
  destruct n as [|a n]; [done|]. cbn [flagName]. intros [Ha Hl]%andb_prop.
  assert (readArg (renderFlag (String a n, v)) = flagArg (String a n +:+ "=" +:+ v)) as -> by done.
  apply negb_true_iff in Ha. pose proof (splitEquals_app (String a n) v Hl) as Hsp. simpl in *. by rewrite Ha, Hsp.
Qed.

(** The settings of a command line, one after the other. *)
Fixpoint setAll (flags : FlagMap) (settings : list (string * string)) : FlagMap + Err :=
  match settings with
  | [] => inl flags
  | (name, v) :: settings =>
    match lookupFlag flags name with
    | inr err => inr err
    | inl f => match setFlag flags name f (Some v) with inl flags => setAll flags settings | inr err => inr err end
    end
  end.

(** Settings written as arguments are read back. *)
Theorem Parse_render flags settings :
  Forall (λ s, flagName s.1 = true) settings → Parse flags (renderFlag <$> settings) = setAll flags settings.
Proof.
  intros Hs. revert flags. induction Hs as [|[n v] settings Hn _ IH]; intros flags; [done|]. simpl in Hn.
  rewrite fmap_cons. cbn [Parse setAll]. rewrite readArg_render by done.
  destruct (lookupFlag flags n) as [f|]; [|done]. destruct (isBoolFlag f), (renderFlag <$> settings), (setFlag flags n f (Some v)); auto.
Qed.

Lemma setFlag_other flags name f value flags' n :
  setFlag flags name f value = inl flags' → n ≠ name → flags' !! n = flags !! n.
Proof. unfold setFlag. destruct (setValue _ _ _); [|done]. intros [= <-] Hn. by rewrite lookup_insert_ne. Qed.

(** Parsing one argument: the flags end, or one is set and the rest parsed. *)
Lemma Parse_cons flags s args flags' :
  Parse flags (s :: args) = inl flags' →
  flags' = flags ∨
  ∃ name f value flags1 rest, argName s = Some name ∧ setFlag flags name f value = inl flags1 ∧
    rest `suffix_of` args ∧ Parse flags1 rest = inl flags'.
Proof.
  unfold argName. cbn [Parse]. destruct (readArg s) as [| |name value] eqn:Er; [intros [= <-]; by left|done|].
  destruct (lookupFlag flags name) as [f|]; [|done]. intros Hx. right.
  assert (∀ v rest, match setFlag flags name f v with inl flags => Parse flags rest | inr err => inr err end = inl flags' →
    rest `suffix_of` args → ∃ name0 f0 value0 flags1 rest0, Some name = Some name0 ∧ setFlag flags name0 f0 value0 = inl flags1 ∧
      rest0 `suffix_of` args ∧ Parse flags1 rest0 = inl flags') as Hset.
  { intros v rest Hs Hsuf. destruct (setFlag flags name f v) as [flags1|] eqn:E; [|done]. by exists name, f, v, flags1, rest. }
  destruct value as [v|]; [by eapply Hset|]. destruct (isBoolFlag f); [by eapply Hset|].
  destruct args as [|v args]; [done|]. eapply Hset; [exact Hx|by apply suffix_cons_r].
Qed.

(** A flag no argument names keeps its value. *)
Lemma Parse_keeps n flags args flags' :
  Parse flags args = inl flags' → Forall (λ s, argName s ≠ Some n) args → flags' !! n = flags !! n.
Proof.
  remember (length args) as k eqn:Hk. revert flags args Hk.
  induction k as [k IH] using lt_wf_ind. intros flags [|s args] -> Hp Hn; [by injection Hp as <-|].
  apply Parse_cons in Hp as [->|(name & f & value & flags1 & rest & Hname & Hset & [pre ->] & Hp)]; [done|].
  apply Forall_cons in Hn as [Hs [_ Hn]%Forall_app].
  assert (length rest < length (s :: pre ++ rest))%nat as Hlt by (simpl; rewrite length_app; lia).
  rewrite (IH _ Hlt flags1 rest eq_refl Hp Hn).
  eapply setFlag_other; [exact Hset|]. intros ->. by apply Hs.
Qed.

(** What the servers are protected by when the command line does not say
    otherwise: HTTP/1.1 alone, and a metrics server that is off, and is one of HTTPS
    with authentication and authorization when it is on. *)
Definition Hardened (args : list string) (opts : ManagerOptions) : Prop :=
  (Forall (λ s, argName s ≠ Some "enable-http2") args → ∀ c,
     protocols (wo_TLSOpts (mg_WebhookServer opts)) c = ["http/1.1"] ∧ protocols (mo_TLSOpts (mg_Metrics opts)) c = ["http/1.1"]) ∧
  (Forall (λ s, argName s ≠ Some "metrics-bind-address") args → mo_BindAddress (mg_Metrics opts) = "0") ∧
  (Forall (λ s, argName s ≠ Some "metrics-secure") args → mo_SecureServing (mg_Metrics opts) = true) ∧
  mo_WithAuthenticationAndAuthorization (mg_Metrics opts) = mo_SecureServing (mg_Metrics opts).

(** main's flags and their defaults. *)
Lemma flagSet_main n f : list_to_map (M := FlagMap) mainFlags !! n = Some f → flagSet !! n = Some f.
Proof. intros Hin. unfold flagSet. rewrite list_to_map_app. by apply lookup_union_Some_l. Qed.

Lemma Parse_hardened label args flags : Parse flagSet args = inl flags → Hardened args (managerOptions label flags).
Proof.
  intros Hp.
  assert (∀ n f, list_to_map (M := FlagMap) mainFlags !! n = Some f → Forall (λ s, argName s ≠ Some n) args → flags !! n = Some f) as Hkeep.
  { intros n f Hin Hn. rewrite (Parse_keeps _ _ _ _ Hp Hn). by apply flagSet_main. }
  unfold Hardened, protocols. simpl. unfold tlsOpts, enableHTTP2, secureMetrics, boolFlag, stringFlag. split_and!; [| | |done].
  - intros Hn c. by rewrite (Hkeep "enable-http2" (BoolFlag false) eq_refl Hn).
  - intros Hn. by rewrite (Hkeep "metrics-bind-address" (StringFlag "0") eq_refl Hn).
  - intros Hn. by rewrite (Hkeep "metrics-secure" (BoolFlag true) eq_refl Hn).
Qed.
End properties.
