(* ===== verification/Startup.v ===== *)
(** * The manager (cmd/main.go)

    What the manager finds of the cluster when it starts (which kinds of the
    Gateway API it serves, and the role and identity to read TLS Secrets with), and
    which controllers and servers it sets up for that, with the options its flags
    set. *)
From S2P Require Import Prelude GatewayAPI Effects Helpers Access Address Refs Routes Envoy Listeners Hosts Model API GatewayLoad SecretsCtl XdsServer Flags.

(** What is set up: the controllers, and what else the manager runs. *)
Inductive Component :=
  | CloudflaredController
  | TunnelController
  | DnsRecordController
  | IngressController
  | SecretWatcher
  | SecretWatchController
  | SecretAccessController (Role : ClusterRole) (TheSubject : Subject)
  | GatewayClassController
  | GatewayController (static : option Address) (features : Features)
  | GatewayXDSController (features : Features)
  | RouteController (kind : GroupKind) (features : Features)
  | XDSServer (server : Server)
  | Healthz
  | Readyz.

(** ** Requests *)

Inductive StartE : Type → Type :=
  | NewDiscoveryClient : StartE (option Err)
  | ServerResources : StartE (list string + Err)
  | NewClientset : StartE (option Err)
  | ListClusterRoles (label value : string) : StartE (list ClusterRole + Err)
  | SelfSubjectReview : StartE (string + Err)
  | NewManager (opts : ManagerOptions) : StartE (option Err)
  | Setup (c : Component) : StartE (option Err)
  | StartManager : StartE (option Err).

(** ** Discovery *)

Definition noFeatures : Features :=
  {| ft_GRPCRoutes := false; ft_TLSRoutes := false; ft_TCPRoutes := false; ft_UDPRoutes := false; ft_Secrets := false |}.

(** One resource the API server serves. *)
Definition addResource (features : Features) (name : string) : Features :=
  let set g t c u := {| ft_GRPCRoutes := g; ft_TLSRoutes := t; ft_TCPRoutes := c; ft_UDPRoutes := u; ft_Secrets := ft_Secrets features |} in
  if str_eqb name "grpcroutes" then set true (ft_TLSRoutes features) (ft_TCPRoutes features) (ft_UDPRoutes features)
  else if str_eqb name "tlsroutes" then set (ft_GRPCRoutes features) true (ft_TCPRoutes features) (ft_UDPRoutes features)
  else if str_eqb name "tcproutes" then set (ft_GRPCRoutes features) (ft_TLSRoutes features) true (ft_UDPRoutes features)
  else if str_eqb name "udproutes" then set (ft_GRPCRoutes features) (ft_TLSRoutes features) (ft_TCPRoutes features) true
  else features.

(** A step that fails with an error. *)
Definition check (p : prog StartE (option Err)) : prog StartE (unit + Err) :=
  do err <- p;
  Ret (match err with Some err => inr err | None => inl () end).

(** [discoverGatewayAPI]. *)
Definition discoverGatewayAPI : prog StartE ((Features * bool) + Err) :=
  do? _ <- check (call NewDiscoveryClient);
  do resources <- call ServerResources;
  Ret (match resources with
       | inr err => if k8s_IsNotFound err then inl (noFeatures, false) else inr err
       | inl resources => inl (foldl addResource noFeatures resources, true)
       end).

Definition secretReaderLabel := "app.kubernetes.io/component".
Definition secretReaderValue := "gateway-tls-secret-reader".

(** [strings.Split] at a character. *)
Fixpoint Split (sep : Ascii.ascii) (s : string) : list string :=
  match s with
  | EmptyString => [""]
  | String a s =>
    if Ascii.eqb a sep then "" :: Split sep s
    else match Split sep s with
         | [] => [String a ""]
         | p :: ps => String a p :: ps
         end
  end.

(** The subject a user name stands for. *)
Definition subjectOf (username : string) : Subject :=
  match Split colon username with
  | [system; serviceaccount; ns; name] =>
    if str_eqb system "system" && str_eqb serviceaccount "serviceaccount" then
      {| su_APIGroup := ""; su_Kind := "ServiceAccount"; su_Name := name; su_Namespace := ns |}
    else {| su_APIGroup := "rbac.authorization.k8s.io"; su_Kind := "User"; su_Name := username; su_Namespace := "" |}
  | _ => {| su_APIGroup := "rbac.authorization.k8s.io"; su_Kind := "User"; su_Name := username; su_Namespace := "" |}
  end.

(** [discoverSecretAccess]. *)
Definition discoverSecretAccess : prog StartE (option (ClusterRole * Subject) + Err) :=
  do? _ <- check (call NewClientset);
  do roles <- call (ListClusterRoles secretReaderLabel secretReaderValue);
  match roles with
  | inr err => Ret (if k8s_IsForbidden err then inl None else inr err)
  | inl [] => Ret (inl None)
  | inl [role] =>
    do username <- call SelfSubjectReview;
    Ret (match username with
         | inr err => inr (wrapErr "finding the operator's own identity" err)
         | inl username => inl (Some (role, subjectOf username))
         end)
  | inl roles =>
    Ret (inr (plainErr ("found " +:+ fmt_d (Z.of_nat (length roles)) +:+ " ClusterRoles labelled " +:+
      secretReaderLabel +:+ "=" +:+ secretReaderValue +:+ ", expected at most one")))
  end.

(** ** main *)

Fixpoint setupAll (cs : list Component) : prog StartE (unit + Err) :=
  match cs with
  | [] => Ret (inl ())
  | c :: cs =>
    do? _ <- check (call (Setup c));
    setupAll cs
  end.

Definition withSecrets (features : Features) : Features :=
  {| ft_GRPCRoutes := ft_GRPCRoutes features; ft_TLSRoutes := ft_TLSRoutes features; ft_TCPRoutes := ft_TCPRoutes features;
     ft_UDPRoutes := ft_UDPRoutes features; ft_Secrets := true |}.

(** The controllers of the Secrets' role, when there is one. *)
Definition secretControllers (secret : option (ClusterRole * Subject)) : list Component :=
  match secret with
  | None => []
  | Some (role, subject) => [SecretWatcher; SecretWatchController; SecretAccessController role subject]
  end.

Definition secretFeatures (features : Features) (secret : option (ClusterRole * Subject)) : Features :=
  match secret with None => features | Some _ => withSecrets features end.

(** [--xds-address]. *)
Definition staticAddress (xdsAddr : string) : option Address + Err :=
  if str_eqb xdsAddr "" then inl None
  else match ParseAddress xdsAddr with inl a => inl (Some a) | inr err => inr err end.

(** What serves Gateways, besides the controllers above. *)
Definition gatewayControllers (bindAddr : string) (static : option Address) (features : Features) : list Component :=
  [GatewayController static features; GatewayXDSController features; RouteController HTTPRouteKind features] ++
  (if ft_GRPCRoutes features then [RouteController GRPCRouteKind features] else []) ++
  (if ft_TLSRoutes features then [RouteController TLSRouteKind features] else []) ++
  (if ft_TCPRoutes features then [RouteController TCPRouteKind features] else []) ++
  (if ft_UDPRoutes features then [RouteController UDPRouteKind features] else []) ++
  [XDSServer {| sv_Address := bindAddr |}].

(** The part of [main] for a cluster that serves the Gateway API. *)
Definition setupGateway (flags : FlagMap) (features : Features) (secret : option (ClusterRole * Subject))
    : prog StartE (unit + Err) :=
  do? _ <- setupAll (secretControllers secret);
  let features := secretFeatures features secret in
  do? _ <- setupAll [GatewayClassController];
  match staticAddress (xdsAddress flags) with
  | inr err => Ret (inr err)
  | inl static => setupAll (gatewayControllers (xdsBindAddr flags) static features)
  end.

(** [main] once the flags are parsed. *)
Definition mainWith (flags : FlagMap) : prog StartE (unit + Err) :=
  do? (features, gatewayAPI) <- discoverGatewayAPI;
  do? secret <- (if gatewayAPI then discoverSecretAccess else Ret (inl None));
  do? _ <- check (call (NewManager (managerOptions SecretAccessLabel flags)));
  do? _ <- setupAll [CloudflaredController; TunnelController; DnsRecordController; IngressController];
  do? _ <- (if gatewayAPI then setupGateway flags features secret else Ret (inl ()));
  do? _ <- setupAll [Healthz; Readyz];
  check (call StartManager).

Section main.
Context `{PackageFlags}.

(** [main], for the arguments of the command line; an error exits with a status
    that is not 0, except that of a request for help. *)
Definition main (args : list string) : prog StartE (unit + Err) :=
  match Parse flagSet args with
  | inr err => Ret (inr err)
  | inl flags => mainWith flags
  end.
End main.

(** ** What a run did *)

Definition setUp (ev : event StartE) : option (Component * option Err) :=
  let 'Ev e a := ev in
  match e in StartE R return R → option (Component * option Err) with
  | Setup c => λ a, Some (c, a)
  | _ => λ _, None
  end a.

Definition managerMade (ev : event StartE) : option ManagerOptions :=
  let 'Ev e a := ev in match e with NewManager opts => Some opts | _ => None end.

Definition managerStarted (ev : event StartE) : option (option Err) :=
  let 'Ev e a := ev in
  match e in StartE R return R → option (option Err) with
  | StartManager => λ a, Some a
  | _ => λ _, None
  end a.

Definition resourcesServed (ev : event StartE) : option (list string + Err) :=
  let 'Ev e a := ev in
  match e in StartE R return R → option (list string + Err) with
  | ServerResources => λ a, Some a
  | _ => λ _, None
  end a.

(** The label the ClusterRoles listed have, its value, and the answer. *)
Definition rolesListed (ev : event StartE) : option (string * string * (list ClusterRole + Err)) :=
  let 'Ev e a := ev in
  match e in StartE R return R → option (string * string * (list ClusterRole + Err)) with
  | ListClusterRoles label value => λ a, Some (label, value, a)
  | _ => λ _, None
  end a.

Definition identity (ev : event StartE) : option (string + Err) :=
  let 'Ev e a := ev in
  match e in StartE R return R → option (string + Err) with
  | SelfSubjectReview => λ a, Some a
  | _ => λ _, None
  end a.

(** ** Properties *)

Lemma addResources_spec names features :
  let f := foldl addResource features names in
  ft_Secrets f = ft_Secrets features ∧
  (ft_GRPCRoutes f = true ↔ ft_GRPCRoutes features = true ∨ "grpcroutes" ∈ names) ∧
  (ft_TLSRoutes f = true ↔ ft_TLSRoutes features = true ∨ "tlsroutes" ∈ names) ∧
  (ft_TCPRoutes f = true ↔ ft_TCPRoutes features = true ∨ "tcproutes" ∈ names) ∧
  (ft_UDPRoutes f = true ↔ ft_UDPRoutes features = true ∨ "udproutes" ∈ names).
Proof.
  revert features. induction names as [|n names IH]; intros features; cbv zeta; cbn [foldl].
  { assert (∀ x : string, x ∈ (@nil string) ↔ False) as Hn by (intros x; by rewrite elem_of_nil). rewrite !Hn. tauto. }
  destruct (IH (addResource features n)) as (-> & -> & -> & -> & ->). rewrite !elem_of_cons. unfold addResource.
  destruct (str_eqb n "grpcroutes") eqn:E1; [apply str_eqb_eq in E1 as ->; simpl; intuition congruence|].
  destruct (str_eqb n "tlsroutes") eqn:E2; [apply str_eqb_eq in E2 as ->; simpl; intuition congruence|].
  destruct (str_eqb n "tcproutes") eqn:E3; [apply str_eqb_eq in E3 as ->; simpl; intuition congruence|].
  destruct (str_eqb n "udproutes") eqn:E4; [apply str_eqb_eq in E4 as ->; simpl; intuition congruence|].
  apply str_eqb_neq in E1, E2, E3, E4. intuition congruence.
Qed.

(** A user name read back from its parts. *)
Lemma Split_lacks sep s : lacks sep s = true → Split sep s = [s].
Proof.
  induction s as [|a s IH]; simpl; [done|]. destruct (Ascii.eqb a sep); [done|]. simpl. intros Hl. by rewrite IH.
Qed.

Lemma Split_app sep s rest : lacks sep s = true → Split sep (s +:+ String sep rest) = s :: Split sep rest.
Proof.
  induction s as [|a s IH]; simpl; [by rewrite Ascii.eqb_refl|].
  destruct (Ascii.eqb a sep); [done|]. simpl. intros Hl. by rewrite IH.
Qed.

Lemma subjectOf_serviceaccount ns name :
  lacks colon ns = true → lacks colon name = true →
  subjectOf ("system:serviceaccount:" +:+ ns +:+ ":" +:+ name) =
    {| su_APIGroup := ""; su_Kind := "ServiceAccount"; su_Name := name; su_Namespace := ns |}.
Proof.
  intros Hns Hname. unfold subjectOf.
  change ("system:serviceaccount:" +:+ ns +:+ ":" +:+ name)
    with ("system" +:+ String colon ("serviceaccount" +:+ String colon (ns +:+ String colon name))).
  by rewrite (Split_app colon "system"), (Split_app colon "serviceaccount"), Split_app, Split_lacks.
Qed.

Lemma setupAll_exec cs tr r :
  exec (setupAll cs) tr r →
  omap managerMade tr = [] ∧ omap managerStarted tr = [] ∧ omap resourcesServed tr = [] ∧ omap rolesListed tr = [] ∧ omap identity tr = [] ∧
  (r = inl () → omap setUp tr = (λ c, (c, None)) <$> cs).
Proof.
  revert tr. induction cs as [|c cs IH]; intros tr; cbn [setupAll]; [by intros [-> <-]%exec_Ret_inv|].
  intros (t1 & t2 & o & -> & Hs & Hx)%exec_bind. unfold check in Hs.
  apply exec_bind in Hs as (t3 & t4 & err & -> & ->%exec_call & [-> <-]%exec_Ret_inv). rewrite app_nil_r.
  destruct err as [err|]; [by apply exec_Ret_inv in Hx as [-> <-]|].
  destruct (IH t2 Hx) as (E0 & E1 & E2 & E3 & E4 & Hr). rewrite !omap_app, E0, E1, E2, E3, E4. split_and!; [done..|].
  intros Hin. rewrite (Hr Hin). done.
Qed.

Fixpoint joins (sep : Ascii.ascii) (ps : list string) : string :=
  match ps with
  | [] => ""
  | [p] => p
  | p :: ps => p +:+ String sep (joins sep ps)
  end.

Lemma Split_joins sep s : Split sep s ≠ [] ∧ joins sep (Split sep s) = s ∧ Forall (λ p, lacks sep p = true) (Split sep s).
Proof.
  induction s as [|a s (Hne & Hj & Hl)]; simpl; [split_and!; [done|done|by repeat constructor]|].
  destruct (Ascii.eqb_spec a sep) as [->|Ha].
  - destruct (Split sep s) as [|p ps]; [done|]. split_and!; [done| |by constructor].
    change (joins sep ("" :: p :: ps)) with (String sep (joins sep (p :: ps))). by rewrite Hj.
  - destruct (Split sep s) as [|p ps]; [done|]. apply Forall_cons in Hl as [Hp Hps]. split_and!; [done| |].
    + rewrite <- Hj. by destruct ps.
    + constructor; [|done]. simpl. apply Ascii.eqb_neq in Ha. by rewrite Ha.
Qed.

(** The subject of a user name: the service account that such a name is of, and
    the user otherwise. *)
Definition SubjectOf (username : string) (subject : Subject) : Prop :=
  (∃ ns name, lacks colon ns = true ∧ lacks colon name = true ∧
     username = "system:serviceaccount:" +:+ ns +:+ ":" +:+ name ∧
     subject = {| su_APIGroup := ""; su_Kind := "ServiceAccount"; su_Name := name; su_Namespace := ns |}) ∨
  ((∀ ns name, lacks colon ns = true → lacks colon name = true → username ≠ "system:serviceaccount:" +:+ ns +:+ ":" +:+ name) ∧
   subject = {| su_APIGroup := "rbac.authorization.k8s.io"; su_Kind := "User"; su_Name := username; su_Namespace := "" |}).

Lemma subjectOf_SubjectOf username : SubjectOf username (subjectOf username).
Proof.
  assert ((∃ ns name, lacks colon ns = true ∧ lacks colon name = true ∧
      username = "system:serviceaccount:" +:+ ns +:+ ":" +:+ name) ∨
    subjectOf username = {| su_APIGroup := "rbac.authorization.k8s.io"; su_Kind := "User"; su_Name := username; su_Namespace := "" |})
    as [(ns & name & Hns & Hname & ->)|Hu].
  - destruct (Split_joins colon username) as (_ & Hj & Hl). unfold subjectOf.
    destruct (Split colon username) as [|p1 [|p2 [|p3 [|p4 [|]]]]]; try by right.
    destruct (str_eqb p1 "system" && str_eqb p2 "serviceaccount") eqn:E; [left|by right].
    apply andb_true_iff in E as [->%str_eqb_eq ->%str_eqb_eq]. rewrite !Forall_cons in Hl. destruct Hl as (_ & _ & H3 & H4 & _).
    exists p3, p4. split_and!; [done|done|]. by rewrite <- Hj.
  - left. exists ns, name. split_and!; try done. by apply subjectOf_serviceaccount.
  - right. split; [|done]. intros ns name Hns Hname ->. by rewrite subjectOf_serviceaccount in Hu.
Qed.

(** Which role and identity were found: the one ClusterRole of the label, and the
    identity the API server says the manager has; or no role, or none to be
    listed. *)
Definition SecretAccessIs (tr : list (event StartE)) (secret : option (ClusterRole * Subject)) : Prop :=
  match secret with
  | None => ∃ a, omap rolesListed tr = [("app.kubernetes.io/component", "gateway-tls-secret-reader", a)] ∧
      (a = inl [] ∨ ∃ err, a = inr err ∧ err_k8s err = Some K8sForbidden)
  | Some (role, subject) =>
      omap rolesListed tr = [("app.kubernetes.io/component", "gateway-tls-secret-reader", inl [role])] ∧
      ∃ u, omap identity tr = [inl u] ∧ SubjectOf u subject
  end.

Lemma discoverSecretAccess_exec tr r :
  exec discoverSecretAccess tr r →
  omap managerMade tr = [] ∧ omap setUp tr = [] ∧ omap managerStarted tr = [] ∧ omap resourcesServed tr = [] ∧
  ∀ secret, r = inl secret → SecretAccessIs tr secret.
Proof.
  unfold discoverSecretAccess, check. intros (t1 & t2 & o & -> & Hs & Hx)%exec_bind.
  apply exec_bind in Hs as (t3 & t4 & err & -> & ->%exec_call & [-> <-]%exec_Ret_inv).
  destruct err as [err|]; [by apply exec_Ret_inv in Hx as [-> <-]|].
  apply exec_bind in Hx as (t5 & t6 & roles & -> & ->%exec_call & Hx).
  destruct roles as [[|role [|role' roles]]|err].
  - apply exec_Ret_inv in Hx as [-> <-]. split_and!; [done..|]. intros secret [= <-]. exists (inl []). split; [done|]. by left.
  - apply exec_bind in Hx as (t7 & t8 & u & -> & ->%exec_call & [-> <-]%exec_Ret_inv). split_and!; [done..|].
    intros secret. destruct u as [u|err]; [|done]. intros [= <-]. split; [done|]. exists u. split; [done|]. apply subjectOf_SubjectOf.
  - by apply exec_Ret_inv in Hx as [-> <-].
  - apply exec_Ret_inv in Hx as [-> <-]. split_and!; [done..|]. intros secret. destruct (k8s_IsForbidden err) eqn:Ef; [|done].
    apply bool_decide_eq_true in Ef. intros [= <-]. exists (inr err). split; [done|]. right. by exists err.
Qed.

(** The components a cluster gets. *)
Definition coreControllers : list Component := [CloudflaredController; TunnelController; DnsRecordController; IngressController].

Lemma setupGateway_exec flags features secret tr r :
  exec (setupGateway flags features secret) tr r →
  omap managerMade tr = [] ∧ omap managerStarted tr = [] ∧ omap resourcesServed tr = [] ∧ omap rolesListed tr = [] ∧ omap identity tr = [] ∧
  (r = inl () → ∃ static, staticAddress (xdsAddress flags) = inl static ∧
     omap setUp tr = (λ c, (c, None)) <$>
       (secretControllers secret ++ GatewayClassController :: gatewayControllers (xdsBindAddr flags) static (secretFeatures features secret))).
Proof.
  unfold setupGateway. cbv zeta. intros (t1 & t2 & o & -> & Hs & Hx)%exec_bind.
  destruct (setupAll_exec _ _ _ Hs) as (E0 & E1 & E2 & E3 & E4 & Hr1). rewrite !omap_app, E0, E1, E2, E3, E4. cbn [app].
  destruct o as [[]|err]; [|by apply exec_Ret_inv in Hx as [-> <-]].
  apply exec_bind in Hx as (t3 & t4 & o & -> & Hs2 & Hx).
  destruct (setupAll_exec _ _ _ Hs2) as (F0 & F1 & F2 & F3 & F4 & Hr2). rewrite !omap_app, F0, F1, F2, F3, F4. cbn [app].
  destruct o as [[]|err]; [|by apply exec_Ret_inv in Hx as [-> <-]].
  destruct (staticAddress (xdsAddress flags)) as [static|err]; [|by apply exec_Ret_inv in Hx as [-> <-]].
  destruct (setupAll_exec _ _ _ Hx) as (G0 & G1 & G2 & G3 & G4 & Hr3). split_and!; [done..|]. intros Hr. exists static. split; [done|].
  by rewrite (Hr1 eq_refl), (Hr2 eq_refl), (Hr3 Hr), fmap_app.
Qed.

Lemma discoverGatewayAPI_exec tr r :
  exec discoverGatewayAPI tr r →
  omap managerMade tr = [] ∧ omap setUp tr = [] ∧ omap managerStarted tr = [] ∧ omap rolesListed tr = [] ∧ omap identity tr = [] ∧
  ∀ features served, r = inl (features, served) →
    served = false ∧ features = noFeatures ∧ (∃ err, omap resourcesServed tr = [inr err] ∧ k8s_IsNotFound err = true) ∨
    served = true ∧ ∃ names, omap resourcesServed tr = [inl names] ∧ features = foldl addResource noFeatures names.
Proof.
  unfold discoverGatewayAPI, check. intros (t1 & t2 & o & -> & Hs & Hx)%exec_bind.
  apply exec_bind in Hs as (t3 & t4 & err & -> & ->%exec_call & [-> <-]%exec_Ret_inv).
  destruct err as [err|]; [by apply exec_Ret_inv in Hx as [-> <-]|].
  apply exec_bind in Hx as (t5 & t6 & res & -> & ->%exec_call & [-> <-]%exec_Ret_inv). split_and!; [done..|].
  intros features served. destruct res as [names|err].
  - intros [= <- <-]. right. split; [done|]. by exists names.
  - destruct (k8s_IsNotFound err) eqn:En; [|done]. intros [= <- <-]. left. split_and!; [done|done|]. by exists err.
Qed.

(** The route kinds besides HTTPRoute among the resources served. *)
Definition servedKinds (names : list string) : list GroupKind :=
  omap (λ '(name, kind), if bool_decide (name ∈ names) then Some kind else None)
    [("grpcroutes", GRPCRouteKind); ("tlsroutes", TLSRouteKind); ("tcproutes", TCPRouteKind); ("udproutes", UDPRouteKind)].

(** What the answers of discovery ask for. *)
Definition Wanted (flags : FlagMap) (tr : list (event StartE)) (cs : list Component) : Prop :=
  (∃ err, omap resourcesServed tr = [inr err] ∧ k8s_IsNotFound err = true ∧ cs = coreControllers ++ [Healthz; Readyz]) ∨
  ∃ names features secret static, omap resourcesServed tr = [inl names] ∧
    (ft_GRPCRoutes features = true ↔ "grpcroutes" ∈ names) ∧ (ft_TLSRoutes features = true ↔ "tlsroutes" ∈ names) ∧
    (ft_TCPRoutes features = true ↔ "tcproutes" ∈ names) ∧ (ft_UDPRoutes features = true ↔ "udproutes" ∈ names) ∧
    (ft_Secrets features = true ↔ is_Some secret) ∧
    SecretAccessIs tr secret ∧ (if str_eqb (xdsAddress flags) "" then static = None else ∃ a, ParseAddress (xdsAddress flags) = inl a ∧ static = Some a) ∧
    cs = coreControllers ++
      match secret with
      | Some (role, subject) => [SecretWatcher; SecretWatchController; SecretAccessController role subject]
      | None => []
      end ++
      [GatewayClassController; GatewayController static features; GatewayXDSController features] ++
      ((λ kind, RouteController kind features) <$> HTTPRouteKind :: servedKinds names) ++
      [XDSServer {| sv_Address := xdsBindAddr flags |}; Healthz; Readyz].

Lemma gatewayControllers_served bindAddr static names features :
  (ft_GRPCRoutes features = true ↔ "grpcroutes" ∈ names) → (ft_TLSRoutes features = true ↔ "tlsroutes" ∈ names) →
  (ft_TCPRoutes features = true ↔ "tcproutes" ∈ names) → (ft_UDPRoutes features = true ↔ "udproutes" ∈ names) →
  gatewayControllers bindAddr static features = [GatewayController static features; GatewayXDSController features] ++
    ((λ kind, RouteController kind features) <$> HTTPRouteKind :: servedKinds names) ++ [XDSServer {| sv_Address := bindAddr |}].
Proof.
  assert (∀ b (x : string), (b = true ↔ x ∈ names) → bool_decide (x ∈ names) = b) as Hb.
  { intros b x HP. destruct b; [apply bool_decide_eq_true_2|apply bool_decide_eq_false_2]; rewrite <- HP; done. }
  intros H1%Hb H2%Hb H3%Hb H4%Hb. unfold gatewayControllers, servedKinds. simpl. rewrite H1, H2, H3, H4.
  by destruct (ft_GRPCRoutes features), (ft_TLSRoutes features), (ft_TCPRoutes features), (ft_UDPRoutes features).
Qed.

(** A step that does not start the manager succeeds in a run that does. *)
Lemma step_started {A B} (p : prog StartE (A + Err)) (f : A → prog StartE (B + Err)) tr res started :
  (∀ t a, exec p t a → omap managerStarted t = []) →
  exec (bind p (λ r, match r with inl x => f x | inr err => Ret (inr err) end)) tr res → started ∈ omap managerStarted tr →
  ∃ t1 t2 x, tr = t1 ++ t2 ∧ exec p t1 (inl x) ∧ exec (f x) t2 res ∧ started ∈ omap managerStarted t2.
Proof.
  intros Hp (t1 & t2 & o & -> & H1 & Hx)%exec_bind Hin. rewrite omap_app, (Hp _ _ H1) in Hin. cbn [app] in Hin.
  destruct o as [x|err]; [by exists t1, t2, x|]. apply exec_Ret_inv in Hx as [-> _]. by apply elem_of_nil in Hin.
Qed.

Lemma check_exec {R : StartE (option Err)} tr r : exec (check (call R)) tr r →
  ∃ err, tr = [Ev R err] ∧ r = match err with Some err => inr err | None => inl () end.
Proof.
  unfold check. intros (t1 & t2 & err & -> & ->%exec_call & [-> <-]%exec_Ret_inv)%exec_bind. by exists err.
Qed.

(** The phases of a run that starts the manager. *)
Lemma main_phases flags tr res started :
  exec (mainWith flags) tr res → started ∈ omap managerStarted tr →
  ∃ t1 t2 a t3 t4 t5 features served secret,
    tr = t1 ++ t2 ++ [Ev (NewManager (managerOptions SecretAccessLabel flags)) a] ++ t3 ++ t4 ++ t5 ++ [Ev StartManager started] ∧
    exec discoverGatewayAPI t1 (inl (features, served)) ∧
    exec (if served then discoverSecretAccess else Ret (inl None)) t2 (inl secret) ∧
    exec (setupAll coreControllers) t3 (inl ()) ∧
    exec (if served then setupGateway flags features secret else Ret (inl ())) t4 (inl ()) ∧
    exec (setupAll [Healthz; Readyz]) t5 (inl ()) ∧
    res = match started with Some err => inr err | None => inl () end.
Proof.
  intros Hx Hin. unfold mainWith in Hx.
  eapply (step_started _ (λ '(features, gatewayAPI), _)) in Hx as (t1 & tr1 & [features served] & -> & H1 & Hx & Hin1);
    [|intros t a Ht; by destruct (discoverGatewayAPI_exec _ _ Ht) as (_ & _ & ? & _)|exact Hin].
  eapply step_started in Hx as (t2 & tr2 & secret & -> & H2 & Hx & Hin2);
    [|intros t a Ht; destruct served; [by destruct (discoverSecretAccess_exec _ _ Ht) as (_ & _ & ? & _)|by apply exec_Ret_inv in Ht as [-> _]]|exact Hin1].
  eapply step_started in Hx as (t & tr3 & [] & -> & Hm & Hx & Hin3);
    [|intros t a Ht; by apply check_exec in Ht as (e & -> & _)|exact Hin2].
  apply check_exec in Hm as (a & -> & _).
  eapply step_started in Hx as (t3 & tr4 & [] & -> & H3 & Hx & Hin4); [|intros t b Ht; by destruct (setupAll_exec _ _ _ Ht) as (_ & ? & _)|exact Hin3].
  eapply step_started in Hx as (t4 & tr5 & [] & -> & H4 & Hx & Hin5);
    [|intros t b Ht; destruct served; [by destruct (setupGateway_exec _ _ _ _ _ Ht) as (_ & ? & _)|by apply exec_Ret_inv in Ht as [-> _]]|exact Hin4].
  eapply step_started in Hx as (t5 & tr6 & [] & -> & H5 & Hx & Hin6); [|intros t b Ht; by destruct (setupAll_exec _ _ _ Ht) as (_ & ? & _)|exact Hin5].
  apply check_exec in Hx as (err & -> & ->). apply list_elem_of_singleton in Hin6 as ->.
  by exists t1, t2, a, t3, t4, t5, features, served, secret.
Qed.

(** What is set up in a run that starts the manager. *)
Lemma mainWith_setup flags tr res started :
  exec (mainWith flags) tr res → started ∈ omap managerStarted tr →
  res = match started with Some err => inr err | None => inl () end ∧
  omap managerMade tr = [managerOptions SecretAccessLabel flags] ∧
  ∃ cs, Wanted flags tr cs ∧ omap setUp tr = (λ c, (c, None)) <$> cs.
Proof.
  intros Hx Hin. destruct (main_phases _ _ _ _ Hx Hin) as
    (t1 & t2 & a & t3 & t4 & t5 & features & served & secret & -> & H1 & H2 & H3 & H4 & H5 & Hres).
  split; [exact Hres|]. clear Hx Hin.
  destruct (discoverGatewayAPI_exec _ _ H1) as (A0 & A1 & _ & A3 & A4 & Hd). specialize (Hd _ _ eq_refl).
  destruct (setupAll_exec _ _ _ H3) as (C0 & _ & C2 & C3 & C4 & C5). destruct (setupAll_exec _ _ _ H5) as (D0 & _ & D2 & D3 & D4 & D5).
  specialize (C5 eq_refl). specialize (D5 eq_refl).
  destruct Hd as [(-> & -> & err & Hr & He)|(-> & names & Hr & ->)].
  - apply exec_Ret_inv in H2 as [-> _], H4 as [-> _]. split; [by rewrite !omap_app, A0, C0, D0|].
    exists (coreControllers ++ [Healthz; Readyz]). split.
    + left. exists err. by rewrite !omap_app, Hr, C2, D2.
    + by rewrite !omap_app, A1, C5, D5.
  - destruct (discoverSecretAccess_exec _ _ H2) as (B0 & B1 & _ & B3 & Hs). specialize (Hs _ eq_refl).
    destruct (setupGateway_exec _ _ _ _ _ H4) as (E0 & _ & E2 & E3 & E4 & E5). split; [by rewrite !omap_app, A0, B0, C0, E0, D0|].
    destruct (E5 eq_refl) as (static & Hst & E6).
    destruct (addResources_spec names noFeatures) as (F0 & F1 & F2 & F3 & F4).
    assert (∀ b (P : Prop), (b = true ↔ false = true ∨ P) → b = true ↔ P) as Hor by (intros [] P HP; intuition congruence).
    apply Hor in F1, F2, F3, F4.
    eexists. split; [right; exists names, (secretFeatures (foldl addResource noFeatures names) secret), secret, static|].
    + rewrite !omap_app, Hr, B3, C2, E2, D2.
      assert (SecretAccessIs (t1 ++ t2 ++ [Ev (NewManager (managerOptions SecretAccessLabel flags)) a] ++ t3 ++ t4 ++ t5 ++ [Ev StartManager started]) secret) as Hsec.
      { unfold SecretAccessIs in *. rewrite !omap_app, A3, A4, C3, C4, E3, E4, D3, D4. cbn [app omap list_omap rolesListed identity].
        by rewrite !app_nil_r. }
      split; [done|].
      assert (ft_Secrets (secretFeatures (foldl addResource noFeatures names) secret) = true ↔ is_Some secret) as Hsf.
      { destruct secret; simpl; [split; [by eexists|done]|]. rewrite F0. split; [done|by intros [? ?]]. }
      split; [by destruct secret|]. split; [by destruct secret|]. split; [by destruct secret|]. split; [by destruct secret|].
      split; [exact Hsf|]. split; [exact Hsec|]. split; [|reflexivity].
      unfold staticAddress in Hst. destruct (str_eqb (xdsAddress flags) ""); [by injection Hst as <-|].
      destruct (ParseAddress (xdsAddress flags)) as [addr|]; [|done]. injection Hst as <-. by exists addr.
    + rewrite !omap_app, A1, B1, C5, E6, D5. cbn [app omap list_omap setUp].
      rewrite (gatewayControllers_served (xdsBindAddr flags) static names) by (by destruct secret).
      destruct secret as [[]|]; cbn [secretControllers app fmap list_fmap coreControllers]; rewrite ?fmap_app, <- ?app_assoc; cbn [app fmap list_fmap]; done.
Qed.

Section properties.
Context `{PackageFlags}.

Lemma main_setup args tr res started :
  exec (main args) tr res → started ∈ omap managerStarted tr →
  res = match started with Some err => inr err | None => inl () end ∧
  ∃ flags, Parse flagSet args = inl flags ∧
  omap managerMade tr = [managerOptions SecretAccessLabel flags] ∧
  ∃ cs, Wanted flags tr cs ∧ omap setUp tr = (λ c, (c, None)) <$> cs.
Proof.
  unfold main. destruct (Parse flagSet args) as [flags|err]; [|by intros [-> _]%exec_Ret_inv ?%elem_of_nil].
  intros Hx Hin. destruct (mainWith_setup _ _ _ _ Hx Hin) as (Hr & Hm & Hc). split; [done|]. by exists flags.
Qed.

(** C33. The manager starts only when its command line can be read, and only with
    everything set up that the cluster it found asks for, in order and without an
    error: without the Gateway API, the controllers that do not need it; with it,
    the Gateway controllers too, the controller of each route kind besides HTTPRoute
    exactly when that kind is served, and the controllers of TLS Secrets exactly
    when the one ClusterRole labelled as the reader of Gateway TLS Secrets was
    found, to bind to the identity the operator runs as: the service account its
    user name is of, or else that user. One manager is made, and what the command line does not turn on is
    off: its servers speak HTTP/1.1 only, and its metrics are not served, and only
    to whom is authenticated and authorized over HTTPS when they are. *)
Theorem main_starts args tr res started :
  exec (main args) tr res → started ∈ omap managerStarted tr →
  res = match started with Some err => inr err | None => inl () end ∧
  ∃ flags opts cs, Parse flagSet args = inl flags ∧ omap managerMade tr = [opts] ∧ Hardened args opts ∧
    Wanted flags tr cs ∧ omap setUp tr = (λ c, (c, None)) <$> cs.
Proof.
  intros Hx Hin. destruct (main_setup _ _ _ _ Hx Hin) as (Hr & flags & Hp & Hm & cs & Hw & Hs). split; [done|].
  exists flags, (managerOptions SecretAccessLabel flags), cs. split_and!; [done|done|by apply Parse_hardened|done|done].
Qed.
End properties.

(** ** A sample cluster *)

Definition startAnswers (R : Type) (e : StartE R) : option R :=
  match e in StartE R return option R with
  | NewDiscoveryClient => Some None
  | ServerResources => Some (inl ["gateways"; "httproutes"; "grpcroutes"])
  | NewClientset => Some None
  | ListClusterRoles _ _ => Some (inl [sampleRole])
  | SelfSubjectReview => Some (inl "system:serviceaccount:system:operator")
  | NewManager _ => Some None
  | Setup _ => Some None
  | StartManager => Some None
  end.

(** The flags of zap and of the kubeconfig. *)
Definition samplePackages : PackageFlags :=
  {| packageFlags := [("zap-devel", true); ("zap-log-level", false); ("kubeconfig", false)]; packageSet := λ _ _, None |}.

Definition sampleArgs := ["--leader-elect"; "-zap-log-level"; "info"; "--xds-address=xds:18000"].

Lemma main_starts_witness :
  ∃ flags tr cs, exec (main (H := samplePackages) sampleArgs) tr (inl ()) ∧ omap setUp tr = (λ c, (c, None)) <$> cs ∧
    xdsAddress flags = "xds:18000" ∧ Wanted flags tr cs.
Proof.
  destruct (runTrace_such startAnswers (main (H := samplePackages) sampleArgs)
    (λ tr _, match omap managerStarted tr with [None] => true | _ => false end)) as (tr & res & Hx & Ht); [by vm_compute|].
  assert (None ∈ omap managerStarted tr) as Hin by (destruct (omap managerStarted tr) as [|[|] [|]]; try done; by left).
  destruct (main_starts _ _ _ _ Hx Hin) as (-> & flags & opts & cs & Hp & _ & _ & Hw & Hs).
  exists flags, tr, cs. split_and!; [done|done| |done].
  assert (match Parse (H := samplePackages) (flagSet (H := samplePackages)) sampleArgs with
          | inl flags => xdsAddress flags = "xds:18000" | inr _ => False end) as Hf by (by vm_compute).
  by rewrite Hp in Hf.
Defined.
