(* ===== verification/Watches.v ===== *)
(** * What the controllers watch (the SetupWithManager methods of
      internal/controller, gateway_watch.go and gatewayclass_handler.go)

    Each controller as it is registered: its name, whether only the leader runs
    it, and the kinds it watches, with the handler that maps an event of each to
    the objects reconciled. How events are delivered is controller-runtime's, a
    parameter; Freshness shows that the handlers leave out no object an event
    matters to. *)
From S2P Require Import XdsServer Flags IngressCtl Startup Prelude GatewayAPI Samples Effects Logic Helpers Access Refs Routes Envoy Listeners Hosts Model API TunnelApi RecordCtl GatewayLoad GatewayStatus EnvoyDeploy GatewayCtl CloudflaredCtl RouteCtl ClassCtl SecretsCtl.

(** ** Objects and events *)

(** The objects watched. A slice comes with its namespace and the Service it is
    of; an event of the Secrets' source names a namespace. *)
Inductive Object :=
  | GatewayObj (gw : Gateway)
  | ClassObj (class : GatewayClass)
  | ConfigObj (config : CloudflareGatewayConfig)
  | RouteObj (r : RouteWithStatus)
  | GrantObj (grant : ReferenceGrant)
  | NamespaceObj (ns : ObjectMeta)
  | ServiceObj (svc : Service)
  | SliceObj (ns service : string) (slice : EndpointSlice)
  | SecretObj (ns : string)
  | DeploymentObj (d : Deployment)
  | DaemonSetObj (d : DaemonSet)
  | TunnelObj (tunnel : CloudflareTunnel)
  | RecordObj (record : DnsRecord)
  | CloudflaredObj (c : Cloudflared)
  | BindingObj (b : RoleBinding)
  | IngressObj (ing : Ingress).

Inductive Kind :=
  | GatewayK | ClassK | ConfigK | RouteK (kind : GroupKind) | GrantK | NamespaceK | ServiceK | SliceK | SecretK
  | DeploymentK | DaemonSetK | TunnelK | RecordK | CloudflaredK | BindingK | IngressK.

#[export] Instance Kind_eq_dec : EqDecision Kind.
Proof. solve_decision. Defined.

Definition routeKind (r : RouteWithStatus) : GroupKind := r_Kind (routeOf (rws_Object r)).

Definition kindOf (o : Object) : Kind :=
  match o with
  | GatewayObj _ => GatewayK
  | ClassObj _ => ClassK
  | ConfigObj _ => ConfigK
  | RouteObj r => RouteK (routeKind r)
  | GrantObj _ => GrantK
  | NamespaceObj _ => NamespaceK
  | ServiceObj _ => ServiceK
  | SliceObj _ _ _ => SliceK
  | SecretObj _ => SecretK
  | DeploymentObj _ => DeploymentK
  | DaemonSetObj _ => DaemonSetK
  | TunnelObj _ => TunnelK
  | RecordObj _ => RecordK
  | CloudflaredObj _ => CloudflaredK
  | BindingObj _ => BindingK
  | IngressObj _ => IngressK
  end.

(** The metadata of the kinds that are reconciled, owned or mapped by it. *)
Definition objMeta (o : Object) : ObjectMeta :=
  match o with
  | GatewayObj gw => gw_ObjectMeta gw
  | ClassObj class => gc_ObjectMeta class
  | ConfigObj config => gcf_ObjectMeta config
  | RouteObj r => r_ObjectMeta (routeOf (rws_Object r))
  | GrantObj grant => newObjectMeta (rg_Namespace grant) ""
  | NamespaceObj ns => ns
  | ServiceObj svc => svc_ObjectMeta svc
  | SliceObj ns _ _ => newObjectMeta ns ""
  | SecretObj ns => newObjectMeta ns ""
  | DeploymentObj d => dep_ObjectMeta d
  | DaemonSetObj d => dms_ObjectMeta d
  | TunnelObj tunnel => tun_ObjectMeta tunnel
  | RecordObj record => dns_ObjectMeta record
  | CloudflaredObj c => cfd_ObjectMeta c
  | BindingObj b => rb_ObjectMeta b
  | IngressObj ing => ing_ObjectMeta ing
  end.

Definition objKey (o : Object) : NamespacedName :=
  {| nn_Namespace := om_Namespace (objMeta o); nn_Name := om_Name (objMeta o) |}.

(** An event: an object created, updated or deleted. *)
Record WatchEvent := { ev_Old : option Object; ev_New : option Object }.
Definition objects (ev : WatchEvent) : list Object := option_list (ev_Old ev) ++ option_list (ev_New ev).

(** ** Handlers *)

(** What the mappings read: lists of classes and Gateways, of routes, of records
    and of Cloudflareds. *)
Inductive WatchE : Type → Type :=
  | WatchLists (R : Type) (e : ListE R) : WatchE R
  | WatchLoads (R : Type) (e : LoadE R) : WatchE R
  | WatchRecords (R : Type) (e : RecordListE R) : WatchE R
  | WatchCloudflareds (R : Type) (e : CloudflaredE R) : WatchE R.

Definition Mapping := Object → prog WatchE (list NamespacedName).

(** controller-runtime's handlers: the object itself, the controller that owns it,
    a mapping of each object of an event, or functions of an event. *)
Inductive Handler :=
  | EnqueueRequestForObject
  | EnqueueRequestForOwner (owner : Kind)
  | EnqueueRequestsFromMapFunc (f : Mapping)
  | Funcs (f : WatchEvent → list NamespacedName).

Record Watch := { w_Kind : Kind; w_Handler : Handler }.

Definition For (k : Kind) : Watch := {| w_Kind := k; w_Handler := EnqueueRequestForObject |}.
Definition Owns (owner k : Kind) : Watch := {| w_Kind := k; w_Handler := EnqueueRequestForOwner owner |}.
Definition Watches (k : Kind) (h : Handler) : Watch := {| w_Kind := k; w_Handler := h |}.

(** A controller: its name, what it watches, and whether only the leader runs it. *)
Record Controller := { ct_Name : string; ct_Watches : list Watch; ct_NeedLeaderElection : bool }.

Definition clusterKey (name : string) : NamespacedName := {| nn_Namespace := ""; nn_Name := name |}.

(** ** gatewayclass_handler.go *)

Definition classHandler : Handler :=
  EnqueueRequestsFromMapFunc (λ o, Ret (match o with
    | GatewayObj gw => clusterKey <$> ClassCtl.gatewayClassHandler gw
    | _ => []
    end)).

Definition gatewayConfigHandler : Handler :=
  EnqueueRequestsFromMapFunc (λ o,
    do classes <- lift WatchLists (gatewayClassesForConfig (objMeta o));
    Ret (clusterKey <$> classes)).

Definition gatewaysForClassHandler : Handler :=
  EnqueueRequestsFromMapFunc (λ o, lift WatchLists (gatewaysForClass (objMeta o))).

Definition gatewaysForConfigHandler : Handler :=
  EnqueueRequestsFromMapFunc (λ o, lift WatchLists (gatewaysForConfig (objMeta o))).

(** ** gateway_watch.go *)

(** The event of a route; an object of another kind is skipped. *)
Definition routeEvent (ev : WatchEvent) : option RouteEvent :=
  match ev_Old ev, ev_New ev with
  | None, Some (RouteObj r) => Some (CreateEvent (rws_Object r))
  | Some (RouteObj old), Some (RouteObj new) => Some (UpdateEvent (rws_Object old) (rws_Object new))
  | Some (RouteObj r), None => Some (DeleteEvent (rws_Object r))
  | _, _ => None
  end.

Definition parentsHandler : Handler :=
  Funcs (λ ev, match routeEvent ev with Some ev => RouteCtl.routeParentsHandler ev | None => [] end).

Definition allGateways : Handler := EnqueueRequestsFromMapFunc (λ _, lift WatchLists ourGateways).

Definition watchGatewayInputs (features : Features) (backends : bool) : list Watch :=
  let routes := parentsHandler in
  let all := allGateways in
  [Watches (RouteK HTTPRouteKind) routes; Watches GrantK all; Watches NamespaceK all] ++
  (if backends then [Watches ServiceK all; Watches SliceK all] else []) ++
  (if ft_GRPCRoutes features then [Watches (RouteK GRPCRouteKind) routes] else []) ++
  (if ft_TLSRoutes features then [Watches (RouteK TLSRouteKind) routes] else []) ++
  (if ft_TCPRoutes features then [Watches (RouteK TCPRouteKind) routes] else []) ++
  (if ft_UDPRoutes features then [Watches (RouteK UDPRouteKind) routes] else []) ++
  (if ft_Secrets features then [Watches SecretK all] else []).

(** ** The controllers *)

(** [GatewayReconciler.SetupWithManager]. *)
Definition gatewayController (features : Features) : Controller :=
  {| ct_Name := "gateway";
     ct_Watches :=
       [For GatewayK; Owns GatewayK DeploymentK; Owns GatewayK ServiceK; Owns GatewayK TunnelK;
        Watches ClassK gatewaysForClassHandler; Watches ConfigK gatewaysForConfigHandler] ++
       watchGatewayInputs features false;
     ct_NeedLeaderElection := true |}.

(** [GatewayXDSReconciler.SetupWithManager]. *)
Definition gatewayXDSController (features : Features) : Controller :=
  {| ct_Name := "gateway-xds";
     ct_Watches :=
       [For GatewayK; Watches ClassK gatewaysForClassHandler; Watches ConfigK gatewaysForConfigHandler] ++
       watchGatewayInputs features true;
     ct_NeedLeaderElection := false |}.

(** [GatewayClassReconciler.SetupWithManager]. *)
Definition gatewayClassController : Controller :=
  {| ct_Name := "gatewayclass";
     ct_Watches := [For ClassK; Watches GatewayK classHandler; Watches ConfigK gatewayConfigHandler];
     ct_NeedLeaderElection := true |}.

(** The mapping of every object the routes' controllers watch but Gateways. *)
Definition allRoutesHandler (features : Features) (kind : GroupKind) : Handler :=
  EnqueueRequestsFromMapFunc (λ _, lift WatchLoads (allRoutes features kind None)).

(** [RouteReconciler.SetupWithManager]. *)
Definition routeController (features : Features) (kind : GroupKind) (name : string) : Controller :=
  let all := allRoutesHandler features kind in
  {| ct_Name := name;
     ct_Watches :=
       [For (RouteK kind);
        Watches GatewayK (EnqueueRequestsFromMapFunc (λ o, lift WatchLoads (routesOfGateway features kind (objKey o))));
        Watches ClassK all; Watches ConfigK all; Watches GrantK all; Watches NamespaceK all; Watches ServiceK all];
     ct_NeedLeaderElection := true |}.

Definition secretAccessRequest : NamespacedName := clusterKey "gateway-tls-secrets".

Definition watchCertificateNamespaces : list Watch :=
  let enqueue := EnqueueRequestsFromMapFunc (λ _, Ret [secretAccessRequest]) in
  [Watches GatewayK enqueue; Watches ClassK enqueue; Watches GrantK enqueue].

(** [GatewaySecretWatchReconciler.SetupWithManager]. *)
Definition secretWatchController : Controller :=
  {| ct_Name := "gateway-secret-watch"; ct_Watches := watchCertificateNamespaces; ct_NeedLeaderElection := false |}.

(** [GatewaySecretAccessReconciler.SetupWithManager]; a label that is not set
    reads as the empty string. *)
Definition secretAccessController (Role : ClusterRole) : Controller :=
  {| ct_Name := "gateway-secret-access";
     ct_Watches := watchCertificateNamespaces ++
       [Watches BindingK (EnqueueRequestsFromMapFunc (λ o, Ret (
          if str_eqb (default "" (om_Labels (objMeta o) !! SecretAccessLabel)) (cr_Name Role)
          then [secretAccessRequest] else [])))];
     ct_NeedLeaderElection := true |}.

(** The index of Cloudflareds by the tunnel they name. *)
Definition tunnelRefNames (c : Cloudflared) : list string :=
  match cd_Config (cfd_Spec c) with
  | Some config => match dc_TunnelRef config with Some ref => [ctr_Name ref] | None => [] end
  | None => []
  end.

(** [CloudflaredReconciler.SetupWithManager]. *)
Definition cloudflaredController : Controller :=
  {| ct_Name := "cloudflared";
     ct_Watches :=
       [For CloudflaredK; Owns CloudflaredK DaemonSetK; Owns CloudflaredK DeploymentK;
        Watches TunnelK (EnqueueRequestsFromMapFunc (λ o,
          lift WatchCloudflareds (cloudflaredsForTunnel (om_Namespace (objMeta o)) (om_Name (objMeta o)))))];
     ct_NeedLeaderElection := true |}.

(** [CloudflareTunnelReconciler.SetupWithManager]. *)
Definition tunnelController : Controller :=
  {| ct_Name := "cloudflaretunnel"; ct_Watches := [For TunnelK; Owns TunnelK RecordK]; ct_NeedLeaderElection := true |}.

(** [DnsRecordReconciler.SetupWithManager]. *)
Definition dnsRecordController : Controller :=
  {| ct_Name := "dnsrecord";
     ct_Watches := [For RecordK; Watches TunnelK (EnqueueRequestsFromMapFunc (λ o, lift WatchRecords (recordsForTunnel (objMeta o))))];
     ct_NeedLeaderElection := true |}.

(** [IngressReconciler.SetupWithManager]. *)
Definition ingressController : Controller :=
  {| ct_Name := "ingress"; ct_Watches := [For IngressK]; ct_NeedLeaderElection := true |}.

(** ** Delivery *)

(** controller-runtime's handlers: what an event adds to a controller's queue. *)
Class Runtime := { requests : Handler → WatchEvent → prog WatchE (list NamespacedName) }.

(** The kind an owner reference names an owner with. *)
Definition ownerKindName (k : Kind) : string :=
  match k with
  | GatewayK => "Gateway" | CloudflaredK => "Cloudflared" | TunnelK => "CloudflareTunnel" | _ => ""
  end.

(** What they document: the object of an event is enqueued, or the controller
    that owns it, and whatever a mapping makes of one of its objects; functions of
    an event are called with it. *)
Class RuntimeLaws `{Runtime} := {
  requests_object answer ev o : o ∈ objects ev → objKey o ∈ outcome answer (requests EnqueueRequestForObject ev);
  requests_owner answer owner ev o r :
    o ∈ objects ev → r ∈ om_OwnerReferences (objMeta o) → or_Controller r = true → or_Kind r = ownerKindName owner →
    {| nn_Namespace := om_Namespace (objMeta o); nn_Name := or_Name r |} ∈ outcome answer (requests (EnqueueRequestForOwner owner) ev);
  requests_map answer f ev o k :
    o ∈ objects ev → k ∈ outcome answer (f o) → k ∈ outcome answer (requests (EnqueueRequestsFromMapFunc f) ev);
  requests_funcs answer f ev : outcome answer (requests (Funcs f) ev) = f ev;
}.

(** What an event enqueues: the requests of every watch of its kind. *)
Definition enqueued `{Runtime} (answer : ∀ R, WatchE R → R) (c : Controller) (ev : WatchEvent) : list NamespacedName :=
  ct_Watches c ≫= λ w,
    if existsb (λ o, bool_decide (kindOf o = w_Kind w)) (objects ev) then outcome answer (requests (w_Handler w) ev) else [].

Section delivery.
Context `{RuntimeLaws} (answer : ∀ R, WatchE R → R) (c : Controller) (ev : WatchEvent) (o : Object).
Hypothesis Ho : o ∈ objects ev.

Lemma enqueued_watch h k :
  {| w_Kind := kindOf o; w_Handler := h |} ∈ ct_Watches c → k ∈ outcome answer (requests h ev) → k ∈ enqueued answer c ev.
Proof.
  intros Hw Hk. unfold enqueued. apply list_elem_of_bind. eexists. split; [|exact Hw]. simpl.
  assert (existsb (λ o', bool_decide (kindOf o' = kindOf o)) (objects ev) = true) as ->; [|exact Hk].
  apply existsb_spec. exists o. split; [exact Ho|]. by apply bool_decide_eq_true.
Qed.

Lemma enqueued_for : For (kindOf o) ∈ ct_Watches c → objKey o ∈ enqueued answer c ev.
Proof. intros Hw. apply (enqueued_watch _ _ Hw). by apply requests_object. Qed.

Lemma enqueued_owner owner r :
  Owns owner (kindOf o) ∈ ct_Watches c → r ∈ om_OwnerReferences (objMeta o) → or_Controller r = true →
  or_Kind r = ownerKindName owner → {| nn_Namespace := om_Namespace (objMeta o); nn_Name := or_Name r |} ∈ enqueued answer c ev.
Proof. intros Hw Hr Hc Hk. apply (enqueued_watch _ _ Hw). by apply requests_owner. Qed.

Lemma enqueued_map f k :
  Watches (kindOf o) (EnqueueRequestsFromMapFunc f) ∈ ct_Watches c → k ∈ outcome answer (f o) → k ∈ enqueued answer c ev.
Proof. intros Hw Hk. apply (enqueued_watch _ _ Hw). by eapply requests_map. Qed.

Lemma enqueued_funcs f k :
  Watches (kindOf o) (Funcs f) ∈ ct_Watches c → k ∈ f ev → k ∈ enqueued answer c ev.
Proof. intros Hw Hk. apply (enqueued_watch _ _ Hw). by rewrite requests_funcs. Qed.
End delivery.

(** The tunnel controller lists the Cloudflareds a tunnel selects, and creates the
    one its template asks for, but an event of a Cloudflared enqueues no tunnel:
    one that is created, or deleted by hand, is not noticed. *)
Theorem cloudflareds_missed `{Runtime} answer ev :
  (∀ o, o ∈ objects ev → kindOf o = CloudflaredK) → enqueued answer tunnelController ev = [].
Proof.
  intros Hev. unfold enqueued, tunnelController. simpl.
  assert (∀ K, K ≠ CloudflaredK → existsb (λ o, bool_decide (kindOf o = K)) (objects ev) = false) as Hno.
  { intros K HK. apply not_true_iff_false. intros (o & Ho & Hk%bool_decide_eq_true)%existsb_spec. rewrite (Hev o Ho) in Hk. congruence. }
  by rewrite !Hno.
Qed.

(** A cluster's answer to a list by the index. *)
Definition byTunnel (cs : list Cloudflared) (ns tunnel : string) : list Cloudflared :=
  List.filter (λ c, str_eqb (om_Namespace (cfd_ObjectMeta c)) ns && bool_decide (tunnel ∈ tunnelRefNames c)) cs.

(** A change of a tunnel enqueues the Cloudflareds of its namespace that refer to
    it. *)
Theorem cloudflareds_told `{RuntimeLaws} (answer : ∀ R, WatchE R → R) cs ev tunnel c ref :
  (∀ ns name, answer _ (WatchCloudflareds _ (ListCloudflaredsOf ns name)) = inl (byTunnel cs ns name)) →
  TunnelObj tunnel ∈ objects ev → c ∈ cs → cd_Config (cfd_Spec c) ≫= dc_TunnelRef = Some ref →
  om_Namespace (cfd_ObjectMeta c) = om_Namespace (tun_ObjectMeta tunnel) → ctr_Name ref = om_Name (tun_ObjectMeta tunnel) →
  cfd_key c ∈ enqueued answer cloudflaredController ev.
Proof.
  intros Ha Ho Hc Href Hns Hname.
  eapply (enqueued_map _ _ _ (TunnelObj tunnel) Ho); [do 3 right; by left|].
  cbv beta. rewrite outcome_lift. unfold cloudflaredsForTunnel. rewrite outcome_bind. cbn [outcome call objMeta]. rewrite Ha.
  apply list_elem_of_fmap. exists c. split; [done|]. apply list_elem_of_In, List.filter_In. split; [by apply list_elem_of_In|].
  rewrite Hns, str_eqb_refl. simpl. apply bool_decide_eq_true. unfold tunnelRefNames.
  destruct (cd_Config (cfd_Spec c)) as [config|]; [|done]. simpl in Href. rewrite Href, Hname. by left.
Qed.

(** A runtime: the requests of each object of an event, one after another. *)
Definition ownerRequests (owner : string) (m : ObjectMeta) : list NamespacedName :=
  omap (λ r, if or_Controller r && str_eqb (or_Kind r) owner
             then Some {| nn_Namespace := om_Namespace m; nn_Name := or_Name r |} else None) (om_OwnerReferences m).

Fixpoint mapObjects (f : Mapping) (os : list Object) : prog WatchE (list NamespacedName) :=
  match os with
  | [] => Ret []
  | o :: os => do ks <- f o; do rest <- mapObjects f os; Ret (ks ++ rest)
  end.

Definition sampleRuntime : Runtime :=
  {| requests := λ h ev,
       match h with
       | EnqueueRequestForObject => Ret (objKey <$> objects ev)
       | EnqueueRequestForOwner owner => Ret (objects ev ≫= λ o, ownerRequests (ownerKindName owner) (objMeta o))
       | EnqueueRequestsFromMapFunc f => mapObjects f (objects ev)
       | Funcs f => Ret (f ev)
       end |}.

Lemma sample_runtime_laws : RuntimeLaws (H := sampleRuntime).
Proof.
  split; cbn [requests sampleRuntime].
  - intros answer ev o Ho. by apply list_elem_of_fmap; eexists.
  - intros answer owner ev o r Ho Hr Hc Hk. apply list_elem_of_bind. exists o. split; [|exact Ho].
    apply list_elem_of_omap. exists r. split; [exact Hr|]. by rewrite Hc, Hk, str_eqb_refl.
  - intros answer f ev o k Ho Hk. induction (objects ev) as [|o' os IH]; [by apply elem_of_nil in Ho|].
    cbn [mapObjects]. rewrite !outcome_bind. cbn [outcome]. apply elem_of_app.
    apply elem_of_cons in Ho as [<-|Ho]; [by left|]. right. by apply IH.
  - done.
Qed.

(** ** What the manager sets up *)

Definition routeControllers : list (GroupKind * string) :=
  [(HTTPRouteKind, "httproute"); (GRPCRouteKind, "grpcroute"); (TLSRouteKind, "tlsroute"); (TCPRouteKind, "tcproute");
   (UDPRouteKind, "udproute")].

Definition routeControllerName (kind : GroupKind) : string :=
  from_option snd "" (List.find (λ p, bool_decide (p.1 = kind)) routeControllers).

(** The controller a component of the manager is, if it is one. *)
Definition controllerOf (c : Component) : option Controller :=
  match c with
  | CloudflaredController => Some cloudflaredController
  | TunnelController => Some tunnelController
  | DnsRecordController => Some dnsRecordController
  | IngressController => Some ingressController
  | SecretWatchController => Some secretWatchController
  | SecretAccessController Role _ => Some (secretAccessController Role)
  | GatewayClassController => Some gatewayClassController
  | GatewayController _ features => Some (gatewayController features)
  | GatewayXDSController features => Some (gatewayXDSController features)
  | RouteController kind features => Some (routeController features kind (routeControllerName kind))
  | SecretWatcher | XDSServer _ | Healthz | Readyz => None
  end.

(** What runs on every replica of the manager, not only on the one that leads. The
    health checks are the manager's own, which every replica answers. *)
Definition onEveryReplica (c : Component) : bool :=
  negb match c with
  | SecretWatcher => Access_NeedLeaderElection initial
  | XDSServer s => Server_NeedLeaderElection s
  | Healthz | Readyz => false
  | c => match controllerOf c with Some ct => ct_NeedLeaderElection ct | None => true end
  end.

(** The names of the controllers of a manager that starts are distinct, which
    controller-runtime asks of them. *)
Theorem controllers_named `{PackageFlags} args tr res started :
  exec (main args) tr res → started ∈ omap managerStarted tr →
  NoDup (ct_Name <$> omap (controllerOf ∘ fst) (omap setUp tr)).
Proof.
  intros Hx Hin. destruct (main_setup _ _ _ _ Hx Hin) as (_ & flags & _ & _ & cs & Hw & ->).
  assert (omap (controllerOf ∘ fst) ((λ c, (c, None (A := Err))) <$> cs) = omap controllerOf cs) as ->.
  { clear. induction cs as [|c cs IH]; [done|]. rewrite fmap_cons, !omap_cons_eq. simpl. by rewrite IH. }
  destruct Hw as [(_ & _ & _ & ->)|(names & features & secret & static & _ & _ & _ & _ & _ & _ & _ & _ & ->)];
    [by apply (bool_decide_unpack _); vm_compute|].
  rewrite !omap_app, !fmap_app. unfold servedKinds. destruct secret as [[role subject]|]; simpl;
    repeat case_bool_decide; simpl; apply (bool_decide_unpack _); by vm_compute.
Qed.

(** Every replica of a manager that starts serves the Envoys, when there are
    Gateways to serve: it runs the xDS server, the controller that fills the cache
    the server reads, and, when TLS Secrets are read, the caches of them and the
    controller that chooses their namespaces. Nothing else runs on a replica that
    does not lead, so what writes to the cluster or to Cloudflare runs on the leader
    only. *)
Theorem replicas_serve `{PackageFlags} args tr res started :
  exec (main args) tr res → started ∈ omap managerStarted tr →
  ∃ flags, Flags.Parse flagSet args = inl flags ∧
  let everywhere := filter (λ c, onEveryReplica c = true) (omap setUp tr).*1 in
  everywhere = [Healthz; Readyz] ∨
  ∃ features, everywhere = (if ft_Secrets features then [SecretWatcher; SecretWatchController] else []) ++
    [GatewayXDSController features; XDSServer {| sv_Address := xdsBindAddr flags |}; Healthz; Readyz].
Proof.
  intros Hx Hin. destruct (main_setup _ _ _ _ Hx Hin) as (_ & flags & Hp & _ & cs & Hw & ->). exists flags. split; [done|]. cbv zeta.
  assert (((λ c, (c, None (A := Err))) <$> cs).*1 = cs) as -> by (rewrite <- list_fmap_compose; by apply list_fmap_id).
  destruct Hw as [(_ & _ & _ & ->)|(names & features & secret & static & _ & _ & _ & _ & _ & Hs & _ & _ & ->)]; [by left|right].
  exists features. unfold servedKinds. destruct secret as [[role subject]|].
  - rewrite (proj2 Hs) by (by eexists). simpl. by repeat case_bool_decide.
  - destruct (ft_Secrets features); [by destruct (proj1 Hs eq_refl)|]. simpl. by repeat case_bool_decide.
Qed.
