(* ===== verification/Freshness.v ===== *)
(** * No event that matters is missed

    A controller reconciles an object when an event enqueues it, and not
    otherwise: what it wrote stays as it is until then. Here is the cluster the
    controllers read, with the events of its changes, and the theorem for each
    controller that a change after which a reconciliation would do something else
    enqueues the object: the watches (Watches) cover what the controllers read. *)
From S2P Require Import IngressCtl Startup Prelude GatewayAPI Samples Effects Logic Helpers Access Refs Routes Envoy Listeners Hosts Model API TunnelApi RecordCtl EnvoyAPI XdsRoutes Xds GatewayLoad GatewayStatus EnvoyDeploy GatewayCtl CloudflaredCtl XdsCtl RouteCtl ClassCtl SecretsCtl Watches.

(** ** The cluster *)

(** What the API server holds of each kind, in the order it lists it; a slice with
    the Service it is of; and what reading a TLS Secret yields, which depends on
    the namespaces the operator watches too. *)
Record Store := {
  st_Gateways : list Gateway;
  st_Classes : list GatewayClass;
  st_Configs : list CloudflareGatewayConfig;
  st_Routes : list RouteWithStatus;
  st_Grants : list ReferenceGrant;
  st_Namespaces : list ObjectMeta;
  st_Services : list Service;
  st_Slices : list (NamespacedName * EndpointSlice);
  st_Secrets : NamespacedName → Secret + GetErr;
}.

Definition fetch {A K} `{EqDecision K} (keyOf : A → K) (k : K) (l : list A) : A + Err :=
  match List.find (λ a, bool_decide (keyOf a = k)) l with Some a => inl a | None => inr k8sNotFoundErr end.

Definition configKey (c : CloudflareGatewayConfig) : NamespacedName :=
  {| nn_Namespace := om_Namespace (gcf_ObjectMeta c); nn_Name := om_Name (gcf_ObjectMeta c) |}.
Definition serviceKeyOf (svc : Service) : NamespacedName :=
  {| nn_Namespace := om_Namespace (svc_ObjectMeta svc); nn_Name := om_Name (svc_ObjectMeta svc) |}.
Definition routeObjKey (r : RouteWithStatus) : GroupKind * NamespacedName := (routeKind r, objKey (RouteObj r)).

Definition httpOf (r : RouteWithStatus) := match rws_Object r with HTTPRouteObject r => Some r | _ => None end.
Definition grpcOf (r : RouteWithStatus) := match rws_Object r with GRPCRouteObject r => Some r | _ => None end.
Definition tlsOf (r : RouteWithStatus) := match rws_Object r with TLSRouteObject r => Some r | _ => None end.
Definition tcpOf (r : RouteWithStatus) := match rws_Object r with TCPRouteObject r => Some r | _ => None end.
Definition udpOf (r : RouteWithStatus) := match rws_Object r with UDPRouteObject r => Some r | _ => None end.

Definition serve (s : Store) (R : Type) (e : LoadE R) : R :=
  match e in LoadE R return R with
  | ListHTTPRoutes => inl (omap httpOf (st_Routes s))
  | ListGRPCRoutes => inl (omap grpcOf (st_Routes s))
  | ListTLSRoutes => inl (omap tlsOf (st_Routes s))
  | ListTCPRoutes => inl (omap tcpOf (st_Routes s))
  | ListUDPRoutes => inl (omap udpOf (st_Routes s))
  | ListNamespaces => inl (st_Namespaces s)
  | ListReferenceGrants => inl (st_Grants s)
  | GetGatewayClass name => fetch gc_Name name (st_Classes s)
  | GetGatewayConfig key => fetch configKey key (st_Configs s)
  | GetService key => fetch serviceKeyOf key (st_Services s)
  | ListEndpointSlices ns service =>
    inl (omap (λ '(k, slice), if bool_decide (k = {| nn_Namespace := ns; nn_Name := service |}) then Some slice else None)
           (st_Slices s))
  | GetTLSSecret key => st_Secrets s key
  end.

Definition serveLists (s : Store) (R : Type) (e : ListE R) : R :=
  match e in ListE R return R with
  | ListGatewayClasses => inl (st_Classes s)
  | ListGateways => inl (st_Gateways s)
  end.

(** ** Events *)

(** An object of a list is created, updated, which keeps its key, or deleted. *)
Definition Changes {A K} (keyOf : A → K) (l : list A) (old new : option A) (l' : list A) : Prop :=
  (∃ l1 l2, l = l1 ++ option_list old ++ l2 ∧ l' = l1 ++ option_list new ++ l2) ∧
  (∀ a b, old = Some a → new = Some b → keyOf a = keyOf b) ∧ (is_Some old ∨ is_Some new).

Definition change {A} (C : A → Object) (old new : option A) : WatchEvent := {| ev_Old := C <$> old; ev_New := C <$> new |}.

Definition sliceObj (p : NamespacedName * EndpointSlice) : Object := SliceObj (nn_Namespace p.1) (nn_Name p.1) p.2.

(** Two clusters that differ in the objects of one kind at most. *)
Definition isRouteK (k : Kind) : bool := match k with RouteK _ => true | _ => false end.

Definition SameBut (k : Kind) (s s' : Store) : Prop :=
  (k ≠ GatewayK → st_Gateways s' = st_Gateways s) ∧ (k ≠ ClassK → st_Classes s' = st_Classes s) ∧
  (k ≠ ConfigK → st_Configs s' = st_Configs s) ∧ (isRouteK k = false → st_Routes s' = st_Routes s) ∧
  (k ≠ GrantK → st_Grants s' = st_Grants s) ∧ (k ≠ NamespaceK → st_Namespaces s' = st_Namespaces s) ∧
  (k ≠ ServiceK → st_Services s' = st_Services s) ∧ (k ≠ SliceK → st_Slices s' = st_Slices s) ∧
  (k ≠ SecretK → st_Secrets s' = st_Secrets s).

(** A change of the cluster, and its event. An update of a slice may change the
    Service it is of. *)
Inductive Step (s s' : Store) : WatchEvent → Prop :=
  | step_gateways old new : SameBut GatewayK s s' →
      Changes gw_key (st_Gateways s) old new (st_Gateways s') → Step s s' (change GatewayObj old new)
  | step_classes old new : SameBut ClassK s s' →
      Changes gc_Name (st_Classes s) old new (st_Classes s') → Step s s' (change ClassObj old new)
  | step_configs old new : SameBut ConfigK s s' →
      Changes configKey (st_Configs s) old new (st_Configs s') → Step s s' (change ConfigObj old new)
  | step_routes kind old new : SameBut (RouteK kind) s s' →
      Changes routeObjKey (st_Routes s) old new (st_Routes s') → Step s s' (change RouteObj old new)
  | step_grants old new : SameBut GrantK s s' →
      Changes rg_Namespace (st_Grants s) old new (st_Grants s') → Step s s' (change GrantObj old new)
  | step_namespaces old new : SameBut NamespaceK s s' →
      Changes om_Name (st_Namespaces s) old new (st_Namespaces s') → Step s s' (change NamespaceObj old new)
  | step_services old new : SameBut ServiceK s s' →
      Changes serviceKeyOf (st_Services s) old new (st_Services s') → Step s s' (change ServiceObj old new)
  | step_slices old new : SameBut SliceK s s' →
      Changes (nn_Namespace ∘ fst) (st_Slices s) old new (st_Slices s') → Step s s' (change sliceObj old new)
  | step_secrets ns : SameBut SecretK s s' → Step s s' (change SecretObj None (Some ns)).

(** What the watches' mappings read; records and Cloudflareds are no part of this
    cluster. *)
Definition cloudflaredAnswer (R : Type) (e : CloudflaredE R) : R :=
  match e in CloudflaredE R return R with
  | GetCloudflared _ => inr k8sNotFoundErr
  | PatchCloudflaredStatus _ _ => inr k8sNotFoundErr
  | GetDaemonSet _ => inr k8sNotFoundErr
  | GetDeployment _ => inr k8sNotFoundErr
  | CreateApp _ => None
  | PatchApp _ _ => None
  | DeleteApp _ => None
  | GetTunnelRef _ => inr k8sNotFoundErr
  | GetTunnelToken _ _ => inr k8sNotFoundErr
  | ListCloudflaredsOf _ _ => inl []
  end.

Definition serveWatch (s : Store) (R : Type) (e : WatchE R) : R :=
  match e in WatchE R return R with
  | WatchLists R e => serveLists s R e
  | WatchLoads R e => serve s R e
  | WatchRecords R e => match e in RecordListE R return R with ListDnsRecordsIn _ => inl [] end
  | WatchCloudflareds R e => cloudflaredAnswer R e
  end.

(** ** Lists that changed *)

Lemma change_objects {A} (C : A → Object) old new o :
  o ∈ objects (change C old new) ↔ ∃ a, (old = Some a ∨ new = Some a) ∧ o = C a.
Proof. unfold objects, change. destruct old, new; set_solver. Qed.

Lemma find_app {A} (f : A → bool) l1 l2 :
  List.find f (l1 ++ l2) = match List.find f l1 with Some a => Some a | None => List.find f l2 end.
Proof. induction l1 as [|a l1 IH]; [done|]. simpl. by destruct (f a). Qed.

Section changes.
Context {A K : Type} `{EqDecision K} (keyOf : A → K) (l : list A) (old new : option A) (l' : list A).
Hypothesis HC : Changes keyOf l old new l'.

Lemma changes_fetch k : (∀ a, old = Some a ∨ new = Some a → keyOf a ≠ k) → fetch keyOf k l' = fetch keyOf k l.
Proof.
  intros Hk. destruct HC as [(l1 & l2 & -> & ->) _]. unfold fetch. rewrite !find_app.
  assert (∀ o : option A, (∀ a, o = Some a → keyOf a ≠ k) → List.find (λ a, bool_decide (keyOf a = k)) (option_list o) = None) as Hno.
  { intros [a|] Ha; [|done]. simpl. rewrite bool_decide_eq_false_2; [done|]. by apply Ha. }
  rewrite (Hno old), (Hno new); [done|intros a ->; apply Hk; by right|intros a ->; apply Hk; by left].
Qed.

Lemma changes_omap {B} (f : A → option B) : (∀ a, old = Some a ∨ new = Some a → f a = None) → omap f l' = omap f l.
Proof.
  intros Hf. destruct HC as [(l1 & l2 & -> & ->) _]. rewrite !omap_app. f_equal.
  assert (∀ o : option A, (∀ a, o = Some a → f a = None) → omap f (option_list o) = []) as Hno.
  { intros [a|] Ha; [|done]. simpl. by rewrite (Ha a). }
  rewrite (Hno old), (Hno new); [done|intros a ->; apply Hf; by right|intros a ->; apply Hf; by left].
Qed.
End changes.

Lemma changes_object {A K} (keyOf : A → K) l old new l' : Changes keyOf l old new l' → ∃ a, old = Some a ∨ new = Some a.
Proof. intros (_ & _ & [[a ->]|[a ->]]); exists a; [by left|by right]. Qed.

Lemma fetch_inl {A K} `{EqDecision K} (keyOf : A → K) k l a : fetch keyOf k l = inl a → a ∈ l ∧ keyOf a = k.
Proof.
  unfold fetch. destruct (List.find _ l) as [b|] eqn:Ef; [|done]. intros [= ->].
  apply List.find_some in Ef as [Hin Hk]. apply bool_decide_eq_true in Hk. by apply list_elem_of_In in Hin.
Qed.

(** ** What loading a Gateway asks *)

(** The Gateway's class is ours. *)
Definition classOf (s : Store) (gw : Gateway) : GatewayClass + Err := fetch gc_Name (gw_GatewayClassName gw) (st_Classes s).
Definition Ours (s : Store) (gw : Gateway) : Prop := ∃ class, classOf s gw = inl class ∧ gc_ControllerName class = ControllerName.

(** The config the class of a Gateway names. *)
Definition ConfigOf (class : GatewayClass) (key : NamespacedName) : Prop :=
  ∃ ref, gc_ParametersRef class = Some ref ∧ pr_Group ref = ParametersGroup ∧ pr_Kind ref = ParametersKind ∧
    pr_Namespace ref = Some (nn_Namespace key) ∧ pr_Name ref = nn_Name key.

(** The requests that may be made for a Gateway. *)
Definition Needs (s : Store) (features : Features) (gw : Gateway) (R : Type) (e : LoadE R) : Prop :=
  match e with
  | ListGRPCRoutes => ft_GRPCRoutes features = true
  | ListTLSRoutes => ft_TLSRoutes features = true
  | ListTCPRoutes => ft_TCPRoutes features = true
  | ListUDPRoutes => ft_UDPRoutes features = true
  | GetGatewayClass name => name = gw_GatewayClassName gw
  | GetGatewayConfig key => ∃ class, classOf s gw = inl class ∧ ConfigOf class key
  | GetTLSSecret _ => ft_Secrets features = true
  | _ => True
  end.

Lemma emits_Resolve (P : ∀ R, LoadE R → Prop) class :
  (∀ key, ConfigOf class key → P _ (GetGatewayConfig key)) → emits P (Resolve class).
Proof.
  intros HP. unfold Resolve. destruct (gc_ParametersRef class) as [ref|] eqn:Er; [|done].
  destruct (negb (str_eqb (pr_Group ref) _) || _) eqn:Eg; [done|]. str_simpl.
  destruct (str_eqb _ "") eqn:En; [done|]. str_simpl. split; [|done]. apply HP. exists ref.
  destruct (pr_Namespace ref) as [ns|]; [|done]. by rewrite Er.
Qed.

Definition isClassGet {R} (e : LoadE R) : bool := match e with GetGatewayClass _ => true | _ => false end.
Definition isConfigGet {R} (e : LoadE R) : bool := match e with GetGatewayConfig _ => true | _ => false end.
Definition isBackendGet {R} (e : LoadE R) : bool := match e with GetService _ | ListEndpointSlices _ _ => true | _ => false end.

(** [Load] after the lists of routes. *)
Definition loadFrom (gw : Gateway) (features : Features) (routes : list Route) : prog LoadE ((list Route * References) + Err) :=
  do? namespaces <- call ListNamespaces;
  do grants <- call ListReferenceGrants;
  match match grants with
        | inl grants => inl grants
        | inr err => if IsNoMatchError err then inl [] else inr err
        end with
  | inr err => Ret (inr err)
  | inl grants =>
    do? warp <- loadWarpRouting gw;
    let refs := {| Namespaces := namespaceMap namespaces; Grants := grants; Services := ∅; Endpoints := ∅;
                   Secrets := ∅; Unreadable := ∅; WarpRouting := warp |} in
    do? refs <- loadServices refs (serviceKeys routes);
    do? refs <- loadSecrets gw features refs (certificateRefs gw);
    Ret (inl (routes, refs))
  end.

Lemma Load_eq gw features :
  Load gw features =
  bind (ListRoutes features)
    (λ r, match r with inl routes => loadFrom gw features (filterRoutes routes gw) | inr err => Ret (inr err) end).
Proof. reflexivity. Qed.

Section asked.
Context (P : ∀ R, LoadE R → Prop).

Lemma emits_services_of refs keys :
  (∀ key, P _ (GetService key)) → (∀ ns service, P _ (ListEndpointSlices ns service)) → emits P (loadServices refs keys).
Proof.
  intros H1 H2. induction keys as [|k keys IH] in refs |- *; [done|]. simpl. apply emits_bind.
  - unfold loadService. repeat first [by apply H1|by apply H2|emits_step].
  - intros [refs'|err]; [apply IH|done].
Qed.

Lemma emits_secrets_of gw features refs certs :
  (ft_Secrets features = true → ∀ key, P _ (GetTLSSecret key)) → emits P (loadSecrets gw features refs certs).
Proof.
  intros HP. induction certs as [|ref certs IH] in refs |- *; [done|]. simpl. apply emits_bind.
  - unfold loadSecret. destruct (negb (refersToSecret ref)); [done|]. cbv zeta. destruct (negb (Permitted _ _ _ _ _ _)); [done|].
    destruct (ft_Secrets features) eqn:Ef; [|done]. cbn [negb]. repeat first [by apply HP|emits_step].
  - intros [refs'|err]; [apply IH|done].
Qed.
End asked.

(** The lists of routes. *)
Definition isRouteList {R} (e : LoadE R) : bool :=
  match e with
  | ListHTTPRoutes | ListGRPCRoutes | ListTLSRoutes | ListTCPRoutes | ListUDPRoutes => true
  | _ => false
  end.

Lemma emits_ListRoutes_features features (P : ∀ R, LoadE R → Prop) :
  P _ ListHTTPRoutes → (ft_GRPCRoutes features = true → P _ ListGRPCRoutes) → (ft_TLSRoutes features = true → P _ ListTLSRoutes) →
  (ft_TCPRoutes features = true → P _ ListTCPRoutes) → (ft_UDPRoutes features = true → P _ ListUDPRoutes) →
  emits P (ListRoutes features).
Proof.
  intros H1 H2 H3 H4 H5.
  assert (∀ A b (e : LoadE (list A + Err)) from routes, (b = true → P _ e) → emits P (listKind b e from routes)) as Hl.
  { intros A [] e from routes He; unfold listKind; [|done]. repeat first [emits_step|apply He|done]. }
  unfold ListRoutes. repeat first [by apply Hl|emits_step].
Qed.

Lemma loadWarpRouting_asks s features gw (P : ∀ R, LoadE R → Prop) :
  (∀ R e, isClassGet e = true ∨ isConfigGet e = true → Needs s features gw R e → P R e) →
  asks (serve s) P (loadWarpRouting gw).
Proof.
  intros HP. unfold loadWarpRouting. rewrite asks_bind. split; [split; [by apply HP; [left|]|done]|]. cbn [outcome call serve].
  destruct (fetch _ _ _) as [class|err] eqn:Ef; [|done]. rewrite asks_bind. split; [|done].
  apply emits_asks, emits_Resolve. intros key Hk. apply HP; [by right|]. by exists class.
Qed.

Lemma loadFrom_asks s features gw routes (P : ∀ R, LoadE R → Prop) :
  (∀ R e, isRouteList e = false → Needs s features gw R e → P R e) →
  asks (serve s) P (loadFrom gw features routes).
Proof.
  intros HP. unfold loadFrom. rewrite asks_bind. split; [split; [by apply HP|done]|].
  cbn [outcome call serve]. rewrite asks_bind. split; [split; [by apply HP|done]|]. cbn [outcome call serve].
  rewrite asks_bind. split.
  - apply (loadWarpRouting_asks s features). intros R e He. apply HP. by destruct e, He.
  - destruct (outcome _ (loadWarpRouting gw)) as [warp|err]; [|done]. apply emits_asks.
    apply emits_bind; [apply emits_services_of; intros; by apply HP|]. intros [refs|err]; [|done].
    apply emits_bind; [apply emits_secrets_of; intros; by apply HP|]. by intros [refs'|err].
Qed.

Lemma Load_asks s features gw : asks (serve s) (Needs s features gw) (Load gw features).
Proof.
  rewrite Load_eq, asks_bind. split; [by apply emits_asks, emits_ListRoutes_features|].
  destruct (outcome _ _) as [routes|err]; [|done]. by apply loadFrom_asks.
Qed.

(** The routes the cluster lists. *)
Definition routesOf (s : Store) (features : Features) : list Route :=
  (FromHTTPRoute <$> omap httpOf (st_Routes s)) ++
  (if ft_GRPCRoutes features then FromGRPCRoute <$> omap grpcOf (st_Routes s) else []) ++
  (if ft_TLSRoutes features then FromTLSRoute <$> omap tlsOf (st_Routes s) else []) ++
  (if ft_TCPRoutes features then FromTCPRoute <$> omap tcpOf (st_Routes s) else []) ++
  (if ft_UDPRoutes features then FromUDPRoute <$> omap udpOf (st_Routes s) else []).

Lemma ListRoutes_outcome s features : outcome (serve s) (ListRoutes features) = inl (routesOf s features).
Proof.
  unfold ListRoutes, routesOf, listKind.
  repeat (rewrite outcome_bind; cbn [outcome call serve bind]).
  destruct (ft_GRPCRoutes features), (ft_TLSRoutes features), (ft_TCPRoutes features), (ft_UDPRoutes features);
    cbn [outcome call serve bind app]; by rewrite ?app_nil_r, <- ?app_assoc.
Qed.

(** Whether routes of an object's kind are listed. *)
Definition served (features : Features) (r : RouteWithStatus) : bool :=
  match rws_Object r with
  | HTTPRouteObject _ => true
  | GRPCRouteObject _ => ft_GRPCRoutes features
  | TLSRouteObject _ => ft_TLSRoutes features
  | TCPRouteObject _ => ft_TCPRoutes features
  | UDPRouteObject _ => ft_UDPRoutes features
  end.

Lemma filter_omap {A B C} (f : C → bool) (from : B → C) (g : A → option B) (l : list A) :
  List.filter f (from <$> omap g l) =
  omap (λ a, match g a with Some b => if f (from b) then Some (from b) else None | None => None end) l.
Proof.
  induction l as [|a l IH]; [done|]. rewrite !omap_cons_eq. destruct (g a) as [b|]; [|done].
  simpl. rewrite <- IH. by destruct (f (from b)).
Qed.

(** A change of a route of a kind that is not listed, or that a filter drops,
    leaves what the filter keeps. *)
Lemma changes_routesOf s s' features old new (f : Route → bool) :
  Changes routeObjKey (st_Routes s) old new (st_Routes s') →
  (∀ r, old = Some r ∨ new = Some r → served features r = true → f (routeOf (rws_Object r)) = false) →
  List.filter f (routesOf s' features) = List.filter f (routesOf s features).
Proof.
  intros HC Hr. unfold routesOf. rewrite !List.filter_app.
  repeat apply (f_equal2 app);
    try (destruct (ft_GRPCRoutes features) eqn:?); try (destruct (ft_TLSRoutes features) eqn:?);
    try (destruct (ft_TCPRoutes features) eqn:?); try (destruct (ft_UDPRoutes features) eqn:?); try done;
    rewrite !filter_omap; apply (changes_omap _ _ _ _ _ HC); intros r Ho; specialize (Hr r Ho);
    unfold served, httpOf, grpcOf, tlsOf, tcpOf, udpOf in *; destruct (rws_Object r); try done; simpl in Hr |- *; by rewrite Hr.
Qed.

(** In particular one that does not name a Gateway. *)
Lemma changes_filterRoutes s s' features old new gw :
  Changes routeObjKey (st_Routes s) old new (st_Routes s') →
  (∀ r, old = Some r ∨ new = Some r → served features r = true → RefersTo (routeOf (rws_Object r)) gw = false) →
  filterRoutes (routesOf s' features) gw = filterRoutes (routesOf s features) gw.
Proof. intros HC Hr. apply (changes_routesOf _ _ _ _ _ _ HC). intros r Ho Hs. by rewrite Hr. Qed.

(** The routes' watches tell every Gateway a route names, or named. *)
Lemma watch_routes features backends r :
  served features r = true → Watches (kindOf (RouteObj r)) parentsHandler ∈ watchGatewayInputs features backends.
Proof.
  unfold served, kindOf, routeKind, watchGatewayInputs. intros Hs. rewrite !elem_of_app.
  destruct (rws_Object r); simpl; rewrite ?Hs; rewrite ?list_elem_of_singleton; set_solver.
Qed.

Lemma watch_always features (backends : bool) k :
  k ∈ [GrantK; NamespaceK] ++ (if backends then [ServiceK; SliceK] else []) →
  Watches k allGateways ∈ watchGatewayInputs features backends.
Proof. unfold watchGatewayInputs. destruct backends; set_solver. Qed.

Lemma watch_secrets features backends :
  ft_Secrets features = true → Watches SecretK allGateways ∈ watchGatewayInputs features backends.
Proof. unfold watchGatewayInputs. intros ->. set_solver. Qed.

Lemma parents_told old new r gw : old = Some r ∨ new = Some r → RefersTo (routeOf (rws_Object r)) gw = true →
  gw_key gw ∈ match routeEvent (change RouteObj old new) with Some ev => RouteCtl.routeParentsHandler ev | None => [] end.
Proof.
  intros Ho Hr%RefersTo_parentGateways. unfold change, routeEvent.
  destruct Ho as [-> | ->]; [destruct new|destruct old]; simpl; unfold enqueueParents; simpl; set_solver.
Qed.

(** ** The xDS controller *)

Lemma gatewayClassFor_outcome s gw :
  outcome (serve s) (gatewayClassFor gw) =
  inl match classOf s gw with inl class => (Some class, str_eqb (gc_ControllerName class) ControllerName) | inr _ => (None, false) end.
Proof.
  unfold gatewayClassFor. rewrite outcome_bind. cbn [outcome call serve]. fold (classOf s gw).
  unfold classOf, fetch. by destruct (List.find _ _).
Qed.

Lemma gatewaysForClasses_in s classes gw :
  gw ∈ st_Gateways s → gw_GatewayClassName gw ∈ classes → gw_key gw ∈ outcome (serveLists s) (gatewaysForClasses classes).
Proof.
  intros Hg Hc. destruct classes as [|c classes]; [by apply elem_of_nil in Hc|]. simpl.
  apply list_elem_of_fmap. exists gw. split; [done|].
  apply list_elem_of_In, List.filter_In. split; [by apply list_elem_of_In|]. by apply bool_decide_eq_true.
Qed.

(** The mappings of a Gateway that the cluster holds. *)
Section mapped.
Context (s : Store) (gw : Gateway) (key : NamespacedName).
Hypothesis Hgw : fetch gw_key key (st_Gateways s) = inl gw.

Lemma mapped_class o : om_Name (objMeta o) = gw_GatewayClassName gw →
  key ∈ outcome (serveWatch s) (lift WatchLists (gatewaysForClass (objMeta o))).
Proof.
  intros Hn. apply fetch_inl in Hgw as [Hin <-]. rewrite outcome_lift. apply gatewaysForClasses_in; [done|]. rewrite Hn. by left.
Qed.

Lemma mapped_config o class : classOf s gw = inl class → ConfigOf class (objKey o) →
  key ∈ outcome (serveWatch s) (lift WatchLists (gatewaysForConfig (objMeta o))).
Proof.
  intros Hc (ref & Hr & Hg & Hk & Hns & Hnm). apply fetch_inl in Hgw as [Hin <-]. rewrite outcome_lift.
  unfold gatewaysForConfig. rewrite outcome_bind. apply gatewaysForClasses_in; [done|]. simpl.
  apply fetch_inl in Hc as [Hin' <-]. apply list_elem_of_fmap. exists class. split; [done|].
  apply list_elem_of_In, List.filter_In. split; [by apply list_elem_of_In|].
  unfold parametersName. rewrite Hr, Hg, Hk, Hns, Hnm. simpl. by rewrite !str_eqb_refl.
Qed.

Lemma mapped_ours : Ours s gw → key ∈ outcome (serveWatch s) (lift WatchLists ourGateways).
Proof.
  intros (class & Hc & Ho). apply fetch_inl in Hgw as [Hin <-]. apply fetch_inl in Hc as [Hin' Hn]. rewrite outcome_lift.
  unfold ourGateways. rewrite outcome_bind. simpl. apply gatewaysForClasses_in; [done|].
  apply list_elem_of_fmap. exists class. split; [done|].
  apply list_elem_of_In, List.filter_In. split; [by apply list_elem_of_In|]. rewrite Ho. apply str_eqb_refl.
Qed.
End mapped.

(** ** What the watches of a Gateway's inputs cover *)

Section inputs.
Context `{RuntimeLaws}.
Context (features : Features) (backends : bool) (c : Controller).

(** A controller of Gateways watches what their configuration is built from. *)
Record WatchesInputs : Prop := {
  watches_gateways : For GatewayK ∈ ct_Watches c;
  watches_classes : Watches ClassK gatewaysForClassHandler ∈ ct_Watches c;
  watches_configs : Watches ConfigK gatewaysForConfigHandler ∈ ct_Watches c;
  watches_inputs : ∀ w, w ∈ watchGatewayInputs features backends → w ∈ ct_Watches c;
}.

(** What a Gateway is built from is the same in two clusters; of Services and
    slices, when they are watched. *)
Record Kept (s s' : Store) (key : NamespacedName) : Prop := {
  kept_gateway : fetch gw_key key (st_Gateways s') = fetch gw_key key (st_Gateways s);
  kept_reads gw R (e : LoadE R) : fetch gw_key key (st_Gateways s) = inl gw → Needs s features gw R e →
    isClassGet e = true ∨ Ours s gw → isRouteList e = false → backends = true ∨ isBackendGet e = false →
    serve s' R e = serve s R e;
  kept_routes gw : fetch gw_key key (st_Gateways s) = inl gw →
    filterRoutes (routesOf s' features) gw = filterRoutes (routesOf s features) gw;
}.

Hypothesis HW : WatchesInputs.

Section step.
Context (s s' : Store) (key : NamespacedName).

(** A kind whose every event enqueues every Gateway of ours. *)
Lemma kept_all ev o (K : Kind) :
  SameBut K s s' → isRouteK K = false → K ≠ GatewayK → K ≠ ClassK → K ≠ ConfigK → o ∈ objects ev → kindOf o = K →
  (∀ gw, Ours s gw → Watches K allGateways ∈ watchGatewayInputs features backends ∨
     ∀ R (e : LoadE R), Needs s features gw R e → backends = true ∨ isBackendGet e = false → serve s' R e = serve s R e) →
  key ∉ enqueued (serveWatch s') c ev → Kept s s' key.
Proof.
  intros (E1 & E2 & E3 & E4 & _) HR N1 N2 N3 Ho HK Hall Hn. split; [by rewrite E1| |intros gw _; unfold routesOf; by rewrite E4].
  intros gw R e Hgw He [Hc|Hours] _ Hb; [destruct e; try done; simpl; by rewrite E2|].
  destruct (Hall gw Hours) as [Hw|Hsame]; [|by apply Hsame]. exfalso. apply Hn. subst K.
  apply (enqueued_map _ _ _ _ Ho _ _ (watches_inputs HW _ Hw)). apply (mapped_ours s' gw key); [by rewrite E1|].
  unfold Ours, classOf. by rewrite E2.
Qed.

Lemma kept_gateways old new :
  SameBut GatewayK s s' → Changes gw_key (st_Gateways s) old new (st_Gateways s') →
  key ∉ enqueued (serveWatch s') c (change GatewayObj old new) → Kept s s' key.
Proof.
  intros (_ & E2 & E3 & E4 & E5 & E6 & E7 & E8 & E9) HC Hn. split; [|intros gw R e; destruct e; simpl; by rewrite ?E2, ?E3, ?E4, ?E5, ?E6, ?E7, ?E8, ?E9|
    intros gw _; unfold routesOf; by rewrite E4].
  apply (changes_fetch _ _ _ _ _ HC). intros a Ha <-. apply Hn.
  apply (enqueued_for _ _ _ (GatewayObj a)); [apply change_objects; by exists a|apply (watches_gateways HW)].
Qed.

Lemma kept_classes old new :
  SameBut ClassK s s' → Changes gc_Name (st_Classes s) old new (st_Classes s') →
  key ∉ enqueued (serveWatch s') c (change ClassObj old new) → Kept s s' key.
Proof.
  intros (E1 & _ & E3 & E4 & E5 & E6 & E7 & E8 & E9) HC Hn. split; [by rewrite E1| |intros gw _; unfold routesOf; by rewrite E4].
  intros gw R e Hgw He _ _ _. destruct e; simpl in *; rewrite ?E3, ?E4, ?E5, ?E6, ?E7, ?E8, ?E9; try done. subst.
  apply (changes_fetch _ _ _ _ _ HC). intros a Ha Hk. apply Hn.
  eapply (enqueued_map _ _ _ (ClassObj a)); [apply change_objects; by exists a|apply (watches_classes HW)|].
  apply (mapped_class s' gw); [by rewrite E1|done].
Qed.

Lemma kept_configs old new :
  SameBut ConfigK s s' → Changes configKey (st_Configs s) old new (st_Configs s') →
  key ∉ enqueued (serveWatch s') c (change ConfigObj old new) → Kept s s' key.
Proof.
  intros (E1 & E2 & _ & E4 & E5 & E6 & E7 & E8 & E9) HC Hn. split; [by rewrite E1| |intros gw _; unfold routesOf; by rewrite E4].
  intros gw R e Hgw He _ _ _. destruct e; simpl in *; rewrite ?E2, ?E4, ?E5, ?E6, ?E7, ?E8, ?E9; try done.
  destruct He as (class & Hc & Hconf). apply (changes_fetch _ _ _ _ _ HC). intros a Ha Hk. apply Hn.
  eapply (enqueued_map _ _ _ (ConfigObj a)); [apply change_objects; by exists a|apply (watches_configs HW)|].
  apply (mapped_config s' gw key) with class; [by rewrite E1|unfold classOf; by rewrite E2|]. by rewrite <- Hk in Hconf.
Qed.

Lemma kept_route_events kind old new :
  SameBut (RouteK kind) s s' → Changes routeObjKey (st_Routes s) old new (st_Routes s') →
  key ∉ enqueued (serveWatch s') c (change RouteObj old new) → Kept s s' key.
Proof.
  intros (E1 & E2 & E3 & _ & E5 & E6 & E7 & E8 & E9) HC Hn. split; [by rewrite E1| |].
  { intros gw R e _ _ _ Hr _. destruct e; try done; simpl; by rewrite ?E2, ?E3, ?E5, ?E6, ?E7, ?E8, ?E9. }
  intros gw Hgw. apply (changes_filterRoutes _ _ _ _ _ _ HC). intros r Ho Hs. apply not_true_iff_false. intros Href. apply Hn.
  apply fetch_inl in Hgw as [_ <-].
  assert (RouteObj r ∈ objects (change RouteObj old new)) as Hin by (apply change_objects; by exists r).
  apply (enqueued_watch _ _ _ _ Hin parentsHandler); [by apply (watches_inputs HW), watch_routes|].
  unfold parentsHandler. rewrite requests_funcs. by apply (parents_told _ _ r).
Qed.

(** Services and their slices. *)
Lemma kept_backends {A} (old new : option A) (C : A → Object) (K : Kind) :
  K = ServiceK ∨ K = SliceK → (∀ a, kindOf (C a) = K) → SameBut K s s' → is_Some old ∨ is_Some new →
  key ∉ enqueued (serveWatch s') c (change C old new) → Kept s s' key.
Proof.
  intros HK HC HB Ha Hn. assert (∃ a, old = Some a ∨ new = Some a) as [a Ha'] by (destruct Ha as [[a ->]|[a ->]]; exists a; [by left|by right]).
  apply (kept_all (change C old new) (C a) K); try done; try by destruct HK as [-> | ->].
  { apply change_objects. by exists a. }
  intros gw _. destruct backends eqn:Eb; [left; apply watch_always; destruct HK as [-> | ->]; set_solver|]. right.
  destruct HB as (E1 & E2 & E3 & E4 & E5 & E6 & _ & _ & E9).
  intros R e _ [?|Hb]; [done|]. destruct HK as [-> | ->]; destruct e; try done; simpl; by rewrite ?E2, ?E3, ?E4, ?E5, ?E6, ?E9.
Qed.
End step.

(** An event that does not enqueue a Gateway leaves what it is built from. *)
Lemma inputs_kept s s' ev key : Step s s' ev → key ∉ enqueued (serveWatch s') c ev → Kept s s' key.
Proof.
  intros [old new HB HC|old new HB HC|old new HB HC|kind old new HB HC|old new HB HC|old new HB HC|old new HB HC|old new HB HC|ns HB] Hn.
  - by eapply kept_gateways.
  - by eapply kept_classes.
  - by eapply kept_configs.
  - by eapply kept_route_events.
  - destruct (changes_object _ _ _ _ _ HC) as [a Ha].
    apply (kept_all _ _ _ (change GrantObj old new) (GrantObj a) GrantK); try done; [apply change_objects; by exists a|].
    intros gw _. left. apply watch_always. set_solver.
  - destruct (changes_object _ _ _ _ _ HC) as [a Ha].
    apply (kept_all _ _ _ (change NamespaceObj old new) (NamespaceObj a) NamespaceK); try done; [apply change_objects; by exists a|].
    intros gw _. left. apply watch_always. set_solver.
  - apply (kept_backends _ _ _ old new ServiceObj ServiceK); [by left|done|done|apply HC|done].
  - apply (kept_backends _ _ _ old new sliceObj SliceK); [by right|done|done|apply HC|done].
  - apply (kept_all _ _ _ (change SecretObj None (Some ns)) (SecretObj ns) SecretK); try done;
      [apply change_objects; exists ns; split; [by right|done]|].
    destruct HB as (E1 & E2 & E3 & E4 & E5 & E6 & E7 & E8 & _). intros gw _. destruct (ft_Secrets features) eqn:Ef.
    + left. by apply watch_secrets.
    + right. intros R e He _. destruct e; simpl; rewrite ?E2, ?E3, ?E4, ?E5, ?E6, ?E7, ?E8; try done. simpl in He. congruence.
Qed.
End inputs.

Lemma kept_class features backends s s' key gw :
  Kept features backends s s' key → fetch gw_key key (st_Gateways s) = inl gw → classOf s' gw = classOf s gw.
Proof.
  intros HK Hgw. apply (kept_reads _ _ _ _ _ HK gw _ (GetGatewayClass (gw_GatewayClassName gw)) Hgw); [done|by left|done|by right].
Qed.

(** When backends are watched, what loading yields is the same. *)
Lemma kept_Load features s s' key gw :
  Kept features true s s' key → fetch gw_key key (st_Gateways s) = inl gw → Ours s gw →
  outcome (serve s') (Load gw features) = outcome (serve s) (Load gw features).
Proof.
  intros HK Hgw Ho. rewrite !Load_eq, !outcome_bind, !ListRoutes_outcome, (kept_routes _ _ _ _ _ HK gw Hgw). symmetry.
  eapply (answered_ext (B := unit) _ _ (λ R e, isRouteList e = false ∧ Needs s features gw R e) (λ _ _, None)).
  - apply loadFrom_asks. by intros R e Hr He.
  - intros R e [Hr He]. symmetry. apply (kept_reads _ _ _ _ _ HK gw); auto.
Qed.

(** ** The xDS controller *)

Section xds.
Context `{Sha256, Anypb, MapOrder, SnapshotLib, X509, LabelSelectors}.

(** The cluster answers the reads; the cache takes every snapshot. *)
Definition xdsAnswer (s : Store) (R : Type) (e : XdsE R) : R :=
  match e in XdsE R return R with
  | XReads R e => serve s R e
  | XGetGateway key => fetch gw_key key (st_Gateways s)
  | ClearSnapshot _ => tt
  | SetSnapshot _ _ => None
  end.

(** What is done to the cache: the snapshot set for a node, or none. *)
Definition cacheWrite (R : Type) (e : XdsE R) : option (string * option SnapshotT) :=
  match e with
  | XReads _ _ | XGetGateway _ => None
  | ClearSnapshot node => Some (node, None)
  | SetSnapshot node snapshot => Some (node, Some snapshot)
  end.

(** What a reconciliation of a Gateway returns and does in a cluster. *)
Definition xdsDone (s : Store) (features : Features) (key : NamespacedName) : Result * list (string * option SnapshotT) :=
  (outcome (xdsAnswer s) (XdsCtl.Reconcile features key), made (xdsAnswer s) cacheWrite (XdsCtl.Reconcile features key)).

(** The reconciliation, of the Gateway, its class and what loading it yields. *)
Lemma xdsDone_eq s features key :
  xdsDone s features key =
  let node := NodeID (nn_Namespace key) (nn_Name key) in
  match fetch gw_key key (st_Gateways s) with
  | inr _ => (done_, [(node, None)])
  | inl gw =>
    match classOf s gw with
    | inr _ => (done_, [(node, None)])
    | inl class =>
      if negb (str_eqb (gc_ControllerName class) ControllerName) || bool_decide (is_Some (om_DeletionTimestamp (gw_ObjectMeta gw)))
      then (done_, [(node, None)])
      else match outcome (serve s) (Load gw features) with
           | inr err => (failed err, [])
           | inl (routes, refs) =>
             match Snapshot (Build gw routes (Some refs)) refs with
             | inr err => (failed (plainErr err), [])
             | inl snapshot => (done_, [(node, Some snapshot)])
             end
           end
    end
  end.
Proof.
  unfold xdsDone, XdsCtl.Reconcile. cbv zeta. rewrite outcome_bind, made_bind. cbn [outcome made call xdsAnswer cacheWrite option_list app].
  destruct (fetch gw_key _ _) as [gw|err] eqn:Eg.
  2: { assert (k8s_IsNotFound err = true) as ->; [|done]. revert Eg. unfold fetch. destruct (List.find _ _); [done|]. by intros [= <-]. }
  rewrite outcome_bind, made_bind, !outcome_lift, made_lift, (made_none _ (λ R e, cacheWrite R (XReads R e))) by done.
  change (λ R e, xdsAnswer s R (XReads R e)) with (serve s). rewrite gatewayClassFor_outcome. cbv beta iota.
  destruct (classOf s gw) as [class|err]; [|done]. destruct (str_eqb _ ControllerName); [|done]. cbn [negb orb].
  destruct (bool_decide _); [done|].
  rewrite outcome_bind, made_bind, !outcome_lift, made_lift, (made_none _ (λ R e, cacheWrite R (XReads R e))) by done.
  change (λ R e, xdsAnswer s R (XReads R e)) with (serve s). unfold buildGateway. rewrite outcome_bind. cbv beta iota.
  destruct (outcome (serve s) (Load gw features)) as [[routes refs]|err]; [|done]. cbn [outcome].
  by destruct (Snapshot _ refs).
Qed.

Context `{RuntimeLaws}.

(** C24. Envoy is never left with a configuration of the past: when a change of the
    cluster (of a Gateway, a class, a config, a route of any kind, a ReferenceGrant,
    a namespace, a Service, an EndpointSlice or what is readable of the Secrets)
    makes the xDS controller do anything else for a Gateway, the change's event
    enqueues that Gateway. *)
Theorem xds_fresh s s' ev features key :
  Step s s' ev → xdsDone s features key ≠ xdsDone s' features key →
  key ∈ enqueued (serveWatch s') (gatewayXDSController features) ev.
Proof.
  intros HS Hd. destruct (decide (key ∈ enqueued (serveWatch s') (gatewayXDSController features) ev)) as [|Hn]; [done|].
  destruct Hd.
  assert (WatchesInputs features true (gatewayXDSController features)) as HW.
  { split; [by left|by right; left|by right; right; left|]. intros w Hw. apply elem_of_app. by right. }
  pose proof (inputs_kept _ _ _ HW _ _ _ _ HS Hn) as HK. rewrite !xdsDone_eq, (kept_gateway _ _ _ _ _ HK).
  destruct (fetch gw_key key (st_Gateways s)) as [gw|err] eqn:Eg; [|done]. rewrite (kept_class _ _ _ _ _ _ HK Eg).
  destruct (classOf s gw) as [class|err] eqn:Ec; [|done]. destruct (str_eqb _ _) eqn:En; [|done]. apply str_eqb_eq in En.
  cbv zeta. rewrite (kept_Load _ _ _ _ _ HK Eg); [done|]. by exists class.
Qed.
End xds.

(** ** A sample cluster *)

Definition sampleRouteObj (name gateway service : string) : RouteWithStatus :=
  {| rws_Object := HTTPRouteObject (sampleHTTPRoute name gateway service); rws_Parents := [] |}.

Definition sampleStore (routes : list RouteWithStatus) (services : list Service) : Store :=
  {| st_Gateways := [servedGateway]; st_Classes := [sampleClass (Some sampleParams)]; st_Configs := [sampleGatewayConfig (Some (sampleTunnelSpec [] []))];
     st_Routes := routes; st_Grants := []; st_Namespaces := [sampleMeta "" "default"]; st_Services := services; st_Slices := [];
     st_Secrets := λ _, inr (ReadErr k8sNotFoundErr) |}.

Definition webService : Service := sampleService "default" "web" [sampleServicePort "http" "TCP" 80 8080].

Definition gwKey : NamespacedName := {| nn_Namespace := "default"; nn_Name := "gw" |}.

(** The Service of a route's backend is created. *)
Lemma service_created routes :
  Step (sampleStore routes []) (sampleStore routes [webService]) (change ServiceObj None (Some webService)).
Proof.
  apply step_services; [by split_and!|]. split; [by exists [], []|]. split; [done|]. right. by eexists.
Qed.

(** The endpoints of a result's snapshot. *)
Definition snapshotEndpoints (r : Result * list (string * option (string * Resources))) : list nat :=
  match r.2 with [(_, Some (_, rs))] => [length (rs_Clusters rs); length (rs_Endpoints rs)] | _ => [] end.

Lemma xds_fresh_witness :
  gwKey ∈ enqueued (H := sampleRuntime) (serveWatch (sampleStore [sampleRouteObj "r1" "gw" "web"] [webService]))
    (gatewayXDSController sampleFeatures) (change ServiceObj None (Some webService)).
Proof.
  apply (@xds_fresh sampleSha256 sampleAnypb sampleOrder sampleSnapshots sampleX509 sampleSelectors sampleRuntime sample_runtime_laws
    (sampleStore [sampleRouteObj "r1" "gw" "web"] [])); [apply service_created|].
  intros Heq. apply (f_equal snapshotEndpoints) in Heq. by vm_compute in Heq.
Defined.
