(* ===== verification/FreshRoutes.v ===== *)
(** * No event that matters to a route is missed

    The route controllers watch less than the models they build are made of:
    neither other routes, nor EndpointSlices, nor TLS Secrets. What a route's
    status says depends on none of these, so the watches they have suffice. *)
From S2P Require Import IngressCtl Startup Prelude GatewayAPI Samples Effects Logic Helpers Access Refs Routes Envoy Listeners Hosts Model API TunnelApi RecordCtl EnvoyAPI XdsRoutes Xds GatewayLoad GatewayStatus EnvoyDeploy GatewayCtl CloudflaredCtl XdsCtl RouteCtl ClassCtl SecretsCtl Watches Freshness.

Lemma filter_comm {A} (f g : A → bool) (l : list A) : List.filter f (List.filter g l) = List.filter g (List.filter f l).
Proof. induction l as [|a l IH]; [done|]. simpl. destruct (f a) eqn:Ef, (g a) eqn:Eg; simpl; rewrite ?Ef, ?Eg, IH; done. Qed.

Lemma bind_ext {A B} (f g : A → list B) (l : list A) : (∀ a, a ∈ l → f a = g a) → l ≫= f = l ≫= g.
Proof.
  induction l as [|a l IH]; [done|]. intros Hl. rewrite !bind_cons, (Hl a) by (by left). f_equal. apply IH.
  intros b Hb. apply Hl. by right.
Qed.

(** ** What loading a Gateway yields *)

(** Secrets that cannot be read do not exist, or are known to be unreadable. *)
Definition Readable (s : Store) : Prop := ∀ key err, st_Secrets s key = inr (ReadErr err) → k8s_IsNotFound err = true.

Definition serviceAt (s : Store) (key : NamespacedName) : option Service :=
  match fetch serviceKeyOf key (st_Services s) with inl svc => Some svc | inr _ => None end.

(** Services loaded so far are those of the cluster, and all of some keys are. *)
Definition Loaded (s : Store) (refs : References) (keys : list NamespacedName) : Prop :=
  (∀ k svc, Services refs !! k = Some svc → serviceAt s k = Some svc) ∧ ∀ k, k ∈ keys → Services refs !! k = serviceAt s k.

Lemma fetch_NotFound {A K} `{EqDecision K} (keyOf : A → K) k l err : fetch keyOf k l = inr err → k8s_IsNotFound err = true.
Proof. unfold fetch. destruct (List.find _ _); [done|]. by intros [= <-]. Qed.

Lemma loadService_outcome s refs key done_ :
  Loaded s refs done_ → ∃ refs', outcome (serve s) (loadService refs key) = inl refs' ∧ SameButServices refs refs' ∧
    Loaded s refs' (key :: done_).
Proof.
  intros [HL HD]. unfold loadService. destruct (Services refs !! key) as [svc|] eqn:Ek.
  { exists refs. split_and!; [done..|]. split; [done|]. intros k [->|Hk]%elem_of_cons; [|by apply HD]. by rewrite (HL _ _ Ek). }
  rewrite outcome_bind. cbn [outcome call serve]. destruct (fetch _ _ _) as [svc|err] eqn:Ef.
  - eexists. split; [reflexivity|]. split; [done|]. split; cbn [Services setServices setEndpoints].
    + intros k svc'. rewrite lookup_insert_Some. intros [[<- <-]|[_ Hk]]; [unfold serviceAt; by rewrite Ef|by apply HL].
    + intros k [->|Hk]%elem_of_cons; [rewrite lookup_insert_eq; unfold serviceAt; by rewrite Ef|].
      destruct (decide (k = key)) as [->|Hne]; [rewrite lookup_insert_eq; unfold serviceAt; by rewrite Ef|].
      rewrite lookup_insert_ne by done. by apply HD.
  - exists refs. rewrite (fetch_NotFound _ _ _ _ Ef). split_and!; [done..|]. split; [done|].
    intros k [->|Hk]%elem_of_cons; [|by apply HD]. rewrite Ek. unfold serviceAt. by rewrite Ef.
Qed.

Lemma loadServices_outcome s refs keys done_ :
  Loaded s refs done_ → ∃ refs', outcome (serve s) (loadServices refs keys) = inl refs' ∧ SameButServices refs refs' ∧
    Loaded s refs' (keys ++ done_).
Proof.
  induction keys as [|key keys IH] in refs, done_ |- *; intros HL; [by exists refs|].
  destruct (loadService_outcome _ _ key _ HL) as (refs1 & H1 & (S1 & S2 & S3 & S4 & S5) & HL1).
  destruct (IH _ _ HL1) as (refs2 & H2 & (T1 & T2 & T3 & T4 & T5) & [HL2 HD2]). exists refs2. simpl.
  rewrite outcome_bind, H1. split_and!; [done|split_and!; congruence|]. split; [done|].
  intros k Hk. apply HD2. set_solver.
Qed.

(** Everything but the Secrets, and which are unreadable. *)
Definition SameButSecrets (refs refs' : References) : Prop :=
  Namespaces refs' = Namespaces refs ∧ Grants refs' = Grants refs ∧ Services refs' = Services refs ∧
  WarpRouting refs' = WarpRouting refs.

Lemma loadSecrets_outcome s gw features refs certs :
  Readable s → ∃ refs', outcome (serve s) (loadSecrets gw features refs certs) = inl refs' ∧ SameButSecrets refs refs'.
Proof.
  intros HR. induction certs as [|cert certs IH] in refs |- *; [by exists refs|]. simpl.
  assert (∃ refs1, outcome (serve s) (loadSecret gw features refs cert) = inl refs1 ∧ SameButSecrets refs refs1) as (refs1 & H1 & S1 & S2 & S3 & S4).
  { unfold loadSecret. destruct (negb (refersToSecret cert)); [by exists refs|]. cbv zeta.
    destruct (negb (Permitted _ _ _ _ _ _)); [by exists refs|]. destruct (negb (ft_Secrets features)); [by eexists|].
    rewrite outcome_bind. cbn [outcome call serve].
    destruct (st_Secrets s _) as [secret|[ns reason|err]] eqn:Es; [by eexists|by eexists|].
    rewrite (HR _ _ Es). by eexists. }
  destruct (IH refs1) as (refs2 & H2 & T1 & T2 & T3 & T4). exists refs2. rewrite outcome_bind, H1.
  split; [done|]. split_and!; congruence.
Qed.

Lemma loadWarpRouting_outcome s gw : ∃ b, outcome (serve s) (loadWarpRouting gw) = inl b.
Proof.
  unfold loadWarpRouting. rewrite outcome_bind. cbn [outcome call serve].
  destruct (fetch _ _ _) as [class|err] eqn:Ef; [|rewrite (fetch_NotFound _ _ _ _ Ef); by eexists].
  rewrite outcome_bind. unfold Resolve. destruct (gc_ParametersRef class) as [ref|]; [|by eexists].
  destruct (negb (str_eqb (pr_Group ref) _) || _); [by eexists|]. destruct (str_eqb _ ""); [by eexists|]. cbv zeta.
  rewrite outcome_bind. cbn [outcome call serve]. destruct (fetch configKey _ _) as [config|err] eqn:Ec.
  - destruct (gcs_Template (gcf_Spec config)), (gcs_TunnelRef (gcf_Spec config)); by eexists.
  - rewrite (fetch_NotFound _ _ _ _ Ec). by eexists.
Qed.

(** The references of a Gateway but for slices and Secrets. *)
Definition RefsOf (s : Store) (gw : Gateway) (keys : list NamespacedName) (refs : References) : Prop :=
  Namespaces refs = namespaceMap (st_Namespaces s) ∧ Grants refs = st_Grants s ∧
  outcome (serve s) (loadWarpRouting gw) = inl (WarpRouting refs) ∧ ∀ k, k ∈ keys → Services refs !! k = serviceAt s k.

Lemma Load_outcome s features gw :
  Readable s → ∃ refs, let routes := filterRoutes (routesOf s features) gw in
    outcome (serve s) (Load gw features) = inl (routes, refs) ∧ RefsOf s gw (serviceKeys routes) refs.
Proof.
  intros HR. cbv zeta. rewrite Load_eq, outcome_bind, ListRoutes_outcome. set (routes := filterRoutes _ gw). unfold loadFrom.
  rewrite outcome_bind. cbn [outcome call serve]. rewrite outcome_bind. cbn [outcome call serve].
  destruct (loadWarpRouting_outcome s gw) as [warp Hw]. rewrite outcome_bind, Hw. cbv zeta.
  match goal with |- context [loadServices ?r _] => destruct (loadServices_outcome s r (serviceKeys routes) []) as (refs1 & H1 & (S1 & S2 & S3 & S4 & S5) & HL) end.
  { split; [|intros k Hk; by apply elem_of_nil in Hk]. intros k svc. cbn [Services]. by rewrite lookup_empty. }
  rewrite outcome_bind, H1.
  destruct (loadSecrets_outcome s gw features refs1 (certificateRefs gw) HR) as (refs2 & H2 & T1 & T2 & T3 & T4).
  rewrite outcome_bind, H2. exists refs2. split; [done|]. simpl in S1, S2, S5. split_and!; [congruence|congruence|by rewrite T4, S5|].
  intros k Hk. rewrite T3. apply HL. apply elem_of_app. by left.
Qed.

(** ** What a route's entries depend on *)

(** References that agree on what attaching a route reads. *)
Definition AgreeFor (refs refs' : References) (keys : list NamespacedName) : Prop :=
  Namespaces refs' = Namespaces refs ∧ Grants refs' = Grants refs ∧ WarpRouting refs' = WarpRouting refs ∧
  ∀ k, k ∈ keys → Services refs' !! k = Services refs !! k.

Section agree.
Context `{X509, LabelSelectors} (refs refs' : References) (keys : list NamespacedName).
Hypothesis HA : AgreeFor refs refs' keys.

(** A listener but for its conditions and certificates. *)
Definition shape (l : Listener) : ListenerSpec * list RouteGroupKind := (l_Spec l, l_SupportedKinds l).

Lemma shape_Listeners gw r : shape <$> Listeners gw (Some r) =
  (λ l, (l, supportedKindsOf l (default [] (kindsOf r (ls_Protocol l))))) <$> gw_Listeners gw.
Proof.
  unfold Listeners, markUnavailablePorts, markConflicts. cbn [default from_option id]. rewrite <- !list_fmap_compose.
  rewrite fmap_imap. apply list_eq. intros i. rewrite list_lookup_imap, !list_lookup_fmap.
  destruct (gw_Listeners gw !! i) as [l|]; [|done]. simpl. f_equal.
  by destruct (portProblem _ _).
Qed.

Lemma shapes_agree gw : shape <$> Listeners gw (Some refs') = shape <$> Listeners gw (Some refs).
Proof. destruct HA as (_ & _ & Hw & _). rewrite !shape_Listeners. unfold kindsOf. by rewrite Hw. Qed.

Lemma attachStep_agree gwNs route ref i l l' st :
  shape l' = shape l → attachStep gwNs route ref refs' i l' st = attachStep gwNs route ref refs i l st.
Proof.
  intros [= Hs Hk]. destruct HA as (Hn & _). unfold attachStep, candidate, allowsKind, allowsNamespace, namespaceLabels, l_Name, l_Port, l_Protocol, l_Hostname.
  by rewrite Hs, Hk, Hn.
Qed.

Lemma attachLoop_agree gwNs route ref i ls ls' st :
  shape <$> ls' = shape <$> ls → attachLoop gwNs route ref refs' i ls' st = attachLoop gwNs route ref refs i ls st.
Proof.
  induction ls as [|l ls IH] in i, ls', st |- *; destruct ls' as [|l' ls']; try done. rewrite !fmap_cons.
  intros [= H1 H2 H3]. simpl. rewrite (attachStep_agree _ _ _ _ l) by (unfold shape; congruence). by apply IH.
Qed.

Lemma attach_agree gwNs gw route ref :
  attach gwNs (Listeners gw (Some refs')) route ref refs' = attach gwNs (Listeners gw (Some refs)) route ref refs.
Proof. unfold attach. by rewrite (attachLoop_agree _ _ _ _ (Listeners gw (Some refs))) by apply shapes_agree. Qed.

Lemma resolveBackend_agree route rule ref :
  (refersToService ref = true → serviceKey route ref ∈ keys) →
  resolveBackend route rule ref refs' = resolveBackend route rule ref refs.
Proof.
  intros Hk. destruct HA as (_ & Hg & _ & Hs). unfold resolveBackend, Permitted. rewrite Hg. cbv zeta.
  unfold refersToService in Hk.
  destruct (str_eqb (group (br_Group ref) CoreGroupName) (gk_Group ServiceKind)),
    (str_eqb (kind (br_Kind ref) (gk_Kind ServiceKind)) (gk_Kind ServiceKind)); cbn [negb orb andb] in *; try done.
  destruct (negb _); [done|].
  change {| nn_Namespace := _; nn_Name := br_Name ref |} with (serviceKey route ref). rewrite Hs; [done|]. by apply Hk.
Qed.

Lemma resolveRules_agree route rules resolved :
  (∀ rule ref, rule ∈ rules → ref ∈ ru_Backends rule → refersToService ref = true → serviceKey route ref ∈ keys) →
  resolveRules route refs' rules resolved = resolveRules route refs rules resolved.
Proof.
  induction rules as [|rule rules IH] in resolved |- *; [done|]. intros Hk. simpl.
  assert (∀ st, foldl (resolveStep route rule refs') st (ru_Backends rule) = foldl (resolveStep route rule refs) st (ru_Backends rule)) as ->.
  { assert (∀ ref, ref ∈ ru_Backends rule → refersToService ref = true → serviceKey route ref ∈ keys) as Hr
      by (intros ref; apply Hk; by left).
    revert Hr. generalize (ru_Backends rule) as bs. induction bs as [|ref bs IHb]; [done|]. intros Hr st. simpl.
    unfold resolveStep at 2 4. rewrite resolveBackend_agree by (apply Hr; by left). apply IHb. intros ref' Hin. apply Hr. by right. }
  destruct (foldl _ _ _) as [bs resolved']. rewrite IH; [done|]. intros rule' ref Hin. apply Hk. by right.
Qed.

Lemma attachRoute_agree gw route :
  (∀ k, k ∈ serviceKeys [route] → k ∈ keys) →
  attachRoute gw (Listeners gw (Some refs')) refs' route = attachRoute gw (Listeners gw (Some refs)) refs route.
Proof.
  intros Hk. unfold attachRoute, resolveBackends. rewrite resolveRules_agree.
  - destruct (resolveRules route refs (r_Rules route) _). f_equal. apply list_fmap_ext. intros i ref _. apply attach_agree.
  - intros rule ref Hr Hb Hs. apply Hk. unfold serviceKeys. simpl. rewrite app_nil_r. apply list_elem_of_bind.
    exists rule. split; [|done]. apply list_elem_of_fmap. exists ref. split; [done|].
    apply list_elem_of_In, List.filter_In. split; [by apply list_elem_of_In|done].
Qed.
End agree.

(** ** A reconciliation of a route *)

(** A route of a kind that is listed is. *)
Lemma routesOf_in s features obj : obj ∈ st_Routes s → served features obj = true → routeOf (rws_Object obj) ∈ routesOf s features.
Proof.
  intros Hin Hs. unfold routesOf, served in *. rewrite !elem_of_app.
  destruct (rws_Object obj) as [r|r|r|r|r] eqn:Eo; rewrite ?Hs; [left|right; left|do 2 right; left|do 3 right; left|do 4 right];
    apply list_elem_of_fmap; exists r; (split; [done|]); apply list_elem_of_omap; exists obj;
    unfold httpOf, grpcOf, tlsOf, tcpOf, udpOf; by rewrite Eo.
Qed.

Section routes.
Context `{X509, LabelSelectors, ObjectHelpers}.
Context (features : Features) (kind : GroupKind).

(** The cluster answers the controller of a kind; its patches succeed. *)
Definition routeAnswer (s : Store) (R : Type) (e : RouteE R) : R :=
  match e in RouteE R return R with
  | RouteReads R e => serve s R e
  | GetRoute key => fetch routeObjKey (kind, key) (st_Routes s)
  | GetParentGateway key => fetch gw_key key (st_Gateways s)
  | PatchParents _ _ => None
  end.

Definition parentsWrite (R : Type) (e : RouteE R) : option (RouteWithStatus * list RouteParentStatus) :=
  match e with PatchParents original parents => Some (original, parents) | _ => None end.

(** What a reconciliation of a route returns and writes in a cluster. *)
Definition routeDone (s : Store) (key : NamespacedName) : Result * list (RouteWithStatus * list RouteParentStatus) :=
  (outcome (routeAnswer s) (RouteCtl.Reconcile features key), made (routeAnswer s) parentsWrite (RouteCtl.Reconcile features key)).

(** The entries of a route for one parent. *)
Definition entriesFor (s : Store) (route : Route) (key : NamespacedName) : list RouteParentStatus :=
  match fetch gw_key key (st_Gateways s) with
  | inr _ => []
  | inl gw =>
    match classOf s gw with
    | inr _ => []
    | inl class =>
      if str_eqb (gc_ControllerName class) ControllerName then
        match outcome (serve s) (Load gw features) with
        | inl (routes, refs) => attachedEntries (Build gw routes (Some refs)) route
        | inr _ => []
        end
      else []
    end
  end.

Lemma parentStatuses_outcome s route key : Readable s →
  outcome (routeAnswer s) (parentStatuses features route key) = inl (entriesFor s route key).
Proof.
  intros HR. unfold parentStatuses, entriesFor. rewrite outcome_bind. cbn [outcome call routeAnswer].
  destruct (fetch gw_key _ _) as [gw|err] eqn:Eg; [|by rewrite (fetch_NotFound _ _ _ _ Eg)].
  rewrite outcome_bind, outcome_lift. change (λ R e, routeAnswer s R (RouteReads R e)) with (serve s).
  rewrite gatewayClassFor_outcome. cbv beta iota. destruct (classOf s gw) as [class|err]; [|done].
  destruct (str_eqb _ ControllerName); [|done]. cbn [negb].
  rewrite outcome_bind, outcome_lift. change (λ R e, routeAnswer s R (RouteReads R e)) with (serve s).
  unfold buildGateway. rewrite outcome_bind. destruct (Load_outcome s features gw HR) as (refs & -> & _). done.
Qed.

Lemma desiredParents_outcome s route keys : Readable s →
  outcome (routeAnswer s) (desiredParents features route keys) = inl (concat (entriesFor s route <$> keys)).
Proof.
  intros HR. induction keys as [|key keys IH]; [done|]. cbn [desiredParents].
  rewrite outcome_bind, parentStatuses_outcome, outcome_bind, IH by done. done.
Qed.

Lemma parents_silent route keys : emits (λ R e, parentsWrite R e = None) (desiredParents features route keys).
Proof.
  assert (∀ A (p : prog LoadE A), emits (λ R e, parentsWrite R e = None) (lift RouteReads p)) as Hl by (intros; by apply emits_lift).
  induction keys as [|key keys IH]; [done|]. cbn [desiredParents]. unfold parentStatuses.
  repeat first [exact IH|apply Hl|done|emits_step].
Qed.

Lemma routeDone_eq s key : Readable s →
  routeDone s key =
  match fetch routeObjKey (kind, key) (st_Routes s) with
  | inr _ => (done_, [])
  | inl obj =>
    let route := routeOf (rws_Object obj) in
    if bool_decide (is_Some (om_DeletionTimestamp (r_ObjectMeta route))) then (done_, [])
    else
      let parents := mergeParents (rws_Parents obj) (concat (entriesFor s route <$> parentGateways route))
                       (om_Generation (r_ObjectMeta route)) in
      if bool_decide (rws_Parents obj = parents) then (done_, []) else (done_, [(obj, parents)])
  end.
Proof.
  intros HR. unfold routeDone, RouteCtl.Reconcile. rewrite outcome_bind, made_bind. cbn [outcome made call routeAnswer parentsWrite option_list app].
  destruct (fetch routeObjKey _ _) as [obj|err] eqn:Eo.
  2: { unfold k8s_IgnoreNotFound, ignoreErr. by rewrite (fetch_NotFound _ _ _ _ Eo). }
  cbv zeta. destruct (bool_decide (is_Some _)); [done|].
  rewrite outcome_bind, made_bind, (made_silent _ _ _ (parents_silent _ _)), desiredParents_outcome by done.
  cbn [app]. by destruct (bool_decide _).
Qed.

(** Clusters with the same route and the same entries for its parents do alike. *)
Lemma route_same s s' key :
  Readable s → Readable s' → fetch routeObjKey (kind, key) (st_Routes s') = fetch routeObjKey (kind, key) (st_Routes s) →
  (∀ obj gwKey, fetch routeObjKey (kind, key) (st_Routes s) = inl obj → gwKey ∈ parentGateways (routeOf (rws_Object obj)) →
     entriesFor s' (routeOf (rws_Object obj)) gwKey = entriesFor s (routeOf (rws_Object obj)) gwKey) →
  routeDone s key = routeDone s' key.
Proof.
  intros HR HR' Hf He. rewrite !routeDone_eq, Hf by done. clear Hf. destruct (fetch routeObjKey _ _) as [obj|err]; [|done]. cbv zeta.
  destruct (bool_decide (is_Some _)); [done|].
  assert (entriesFor s' (routeOf (rws_Object obj)) <$> parentGateways (routeOf (rws_Object obj)) =
          entriesFor s (routeOf (rws_Object obj)) <$> parentGateways (routeOf (rws_Object obj))) as ->; [|done].
  apply list_fmap_ext. intros i k Hk. apply (He obj); [done|]. by eapply list_elem_of_lookup_2.
Qed.

(** The entries a Gateway's model makes for a route depend on no other route, nor
    on slices or Secrets. *)
Lemma entries_same s s' route gwKey :
  Readable s → Readable s' → fetch gw_key gwKey (st_Gateways s') = fetch gw_key gwKey (st_Gateways s) →
  st_Classes s' = st_Classes s → st_Configs s' = st_Configs s → st_Grants s' = st_Grants s →
  st_Namespaces s' = st_Namespaces s → st_Services s' = st_Services s →
  List.filter (sameRoute route) (routesOf s' features) = List.filter (sameRoute route) (routesOf s features) →
  entriesFor s' route gwKey = entriesFor s route gwKey.
Proof.
  intros HR HR' E1 E2 E3 E4 E5 E6 Hf. unfold entriesFor, classOf. rewrite E1, E2. clear E1.
  destruct (fetch gw_key _ _) as [gw|]; [|done]. destruct (fetch gc_Name _ _) as [class|]; [|done].
  destruct (str_eqb _ _); [|done].
  destruct (Load_outcome s features gw HR) as (refs & -> & N1 & G1 & W1 & S1).
  destruct (Load_outcome s' features gw HR') as (refs' & -> & N2 & G2 & W2 & S2).
  rewrite !attachedEntries_buildFrom.
  set (F := List.filter (sameRoute route) (filterRoutes (routesOf s features) gw)).
  assert (List.filter (sameRoute route) (filterRoutes (routesOf s' features) gw) = F) as HF
    by (unfold F, filterRoutes; rewrite !(filter_comm (sameRoute route)); by rewrite Hf).
  assert (∀ st, List.filter (sameRoute route) (filterRoutes (routesOf st features) gw) = F →
    ∀ k, k ∈ serviceKeys F → k ∈ serviceKeys (filterRoutes (routesOf st features) gw)) as Hkeys.
  { intros st <- k. unfold serviceKeys. rewrite !list_elem_of_bind. intros (r & Hk & Hr). exists r. split; [done|].
    apply list_elem_of_In, List.filter_In in Hr as [Hr _]. by apply list_elem_of_In. }
  assert (outcome (serve s) (loadWarpRouting gw) = outcome (serve s') (loadWarpRouting gw)) as Hw.
  { eapply (answered_ext (B := unit) _ _ (λ R e, isClassGet e = true ∨ isConfigGet e = true) (λ _ _, None)).
    - apply emits_asks. unfold loadWarpRouting, Resolve. repeat first [by left|by right|emits_step].
    - intros R e He. destruct e; try by destruct He; simpl; by rewrite ?E2, ?E3. }
  assert (AgreeFor refs refs' (serviceKeys F)) as HA.
  { split_and!; [congruence|congruence|congruence|]. intros k Hk.
    rewrite S1, S2 by (apply Hkeys; done). unfold serviceAt. by rewrite E6. }
  rewrite HF. apply bind_ext. intros r Hr. destruct (RefersTo r gw); [|done].
  rewrite (attachRoute_agree refs refs' (serviceKeys F) HA); [done|]. intros k. unfold serviceKeys. rewrite !list_elem_of_bind.
  intros (r' & Hk & ->%list_elem_of_singleton). by exists r.
Qed.

(** The kind is one that is listed. *)
Definition Listed : Prop := ∀ r, routeKind r = kind → served features r = true.

Context `{RuntimeLaws}.

Definition ours_ : Controller := routeController features kind (routeControllerName kind).

(** The mappings of a route that the cluster holds. *)
Lemma mapped_route (s : Store) key obj keep :
  Listed → fetch routeObjKey (kind, key) (st_Routes s) = inl obj →
  match keep with Some keep => keep (routeOf (rws_Object obj)) = true | None => True end →
  key ∈ outcome (serveWatch s) (lift WatchLoads (allRoutes features kind keep)).
Proof.
  intros HL Hf Hkeep. apply fetch_inl in Hf as [Hin Hk]. injection Hk as Hk <-.
  rewrite outcome_lift. change (λ R e, serveWatch s R (WatchLoads R e)) with (serve s).
  unfold allRoutes. rewrite outcome_bind, ListRoutes_outcome. cbn [outcome].
  apply list_elem_of_omap. exists (routeOf (rws_Object obj)). split; [by apply routesOf_in, HL|].
  unfold routeKind in Hk. rewrite Hk, bool_decide_eq_true_2 by done. destruct keep as [keep|]; [by rewrite Hkeep|done].
Qed.

(** Finds an element of a list that is written out. *)
Ltac in_list := repeat first [exact (list_elem_of_here _ _)|apply list_elem_of_further].

(** A watch of every route covers any change. *)
Lemma route_all (s' : Store) ev o key obj :
  Listed → o ∈ objects ev → fetch routeObjKey (kind, key) (st_Routes s') = inl obj →
  Watches (kindOf o) (allRoutesHandler features kind) ∈ ct_Watches ours_ → key ∈ enqueued (serveWatch s') ours_ ev.
Proof. intros HL Ho Hf Hw. apply (enqueued_map _ _ _ _ Ho _ _ Hw). by apply (mapped_route _ _ obj). Qed.

Lemma route_fetched (s s' : Store) ev key :
  Step s s' ev → key ∉ enqueued (serveWatch s') ours_ ev →
  fetch routeObjKey (kind, key) (st_Routes s') = fetch routeObjKey (kind, key) (st_Routes s).
Proof.
  intros HS Hn. destruct HS as [? ? HB|? ? HB|? ? HB|k old new HB HC|? ? HB|? ? HB|? ? HB|? ? HB|ns HB];
    try (destruct HB as (_ & _ & _ & E4 & _); by rewrite E4).
  apply (changes_fetch _ _ _ _ _ HC). intros a Ha Hk. injection Hk as Hk <-. apply Hn.
  apply (enqueued_for _ _ _ (RouteObj a)); [apply change_objects; by exists a|]. simpl. rewrite Hk. by left.
Qed.

Lemma route_entries s s' ev key obj gwKey :
  Listed → Readable s → Readable s' → Step s s' ev → key ∉ enqueued (serveWatch s') ours_ ev →
  fetch routeObjKey (kind, key) (st_Routes s') = inl obj → gwKey ∈ parentGateways (routeOf (rws_Object obj)) →
  entriesFor s' (routeOf (rws_Object obj)) gwKey = entriesFor s (routeOf (rws_Object obj)) gwKey.
Proof.
  intros HL HR HR' HS Hn Hf Hp.
  destruct HS as [old new HB HC|old new HB HC|old new HB HC|k old new HB HC|old new HB HC|old new HB HC|old new HB HC|old new HB HC|ns HB];
    destruct HB as (E1 & E2 & E3 & E4 & E5 & E6 & E7 & E8 & E9).
  all: try (exfalso; destruct (changes_object _ _ _ _ _ HC) as [a Ha]; apply Hn;
    eapply route_all; [exact HL|apply change_objects; by exists a|exact Hf|do 2 right; solve [in_list]]).
  - apply entries_same; auto; [|unfold routesOf; by rewrite E4]. apply (changes_fetch _ _ _ _ _ HC). intros a Ha <-. apply Hn.
    eapply (enqueued_map _ _ _ (GatewayObj a)); [apply change_objects; by exists a|by right; left|].
    apply (mapped_route _ _ obj); [done|done|]. by apply bool_decide_eq_true.
  - apply entries_same; auto; [by rewrite E1|]. apply (changes_routesOf _ _ _ _ _ _ HC). intros r Ho _.
    apply not_true_iff_false. unfold sameRoute. intros [[Hk%bool_decide_eq_true Hns]%andb_true_iff Hnm]%andb_true_iff. str_simpl.
    apply fetch_inl in Hf as [_ Hkey]. apply Hn. injection Hkey as Hkind <-.
    assert (objKey (RouteObj obj) = objKey (RouteObj r)) as -> by (unfold objKey; simpl; f_equal; done).
    apply (enqueued_for _ _ _ (RouteObj r)); [apply change_objects; by exists r|]. simpl. unfold routeKind in *. rewrite Hk, Hkind. by left.
  - apply entries_same; auto; [by rewrite E1|]. unfold routesOf. by rewrite E4.
  - apply entries_same; auto; [by rewrite E1|]. unfold routesOf. by rewrite E4.
Qed.
End routes.

(** The kinds the manager sets a controller up for are listed. *)
Lemma controllers_listed bindAddr static features kind :
  RouteController kind features ∈ gatewayControllers bindAddr static features → Listed features kind.
Proof.
  unfold gatewayControllers, Listed, served, routeKind. intros Hin r <-.
  destruct (rws_Object r); [done|..]; destruct (ft_GRPCRoutes features), (ft_TLSRoutes features), (ft_TCPRoutes features), (ft_UDPRoutes features);
    try done; exfalso; simpl in Hin; repeat (apply elem_of_cons in Hin as [Hin|Hin]; [discriminate Hin|]); by apply elem_of_nil in Hin.
Qed.

Section fresh.
Context `{X509, LabelSelectors, ObjectHelpers, RuntimeLaws}.

(** C26. Nor is the status of a route: when a change of the cluster makes the
    controller of the route's kind write another status for it, the change's event
    enqueues the route, although the controller watches neither the other routes of
    its Gateways nor EndpointSlices nor TLS Secrets, provided a TLS Secret that
    cannot be read does not exist or is unavailable, before and after. The kind is
    one the manager has set the controller up for. *)
Theorem route_fresh bindAddr static features kind s s' ev key :
  RouteController kind features ∈ gatewayControllers bindAddr static features → Readable s → Readable s' → Step s s' ev →
  routeDone features kind s key ≠ routeDone features kind s' key →
  key ∈ enqueued (serveWatch s') (routeController features kind (routeControllerName kind)) ev.
Proof.
  intros HL%controllers_listed HR HR' HS Hd.
  destruct (decide (key ∈ enqueued (serveWatch s') (ours_ features kind) ev)) as [|Hn]; [done|]. destruct Hd.
  pose proof (route_fetched _ _ _ _ _ _ HS Hn) as Hf. apply route_same; [done|done|exact Hf|].
  intros obj gwKey Ho Hp. rewrite <- Hf in Ho. by apply (route_entries features kind s s' ev key).
Qed.
End fresh.

Lemma sample_readable routes services : Readable (sampleStore routes services).
Proof. by intros key err [= <-]. Qed.

(** The statuses of the conditions written. *)
Definition writtenStatuses (r : Result * list (RouteWithStatus * list RouteParentStatus)) : list ConditionStatus :=
  r.2 ≫= λ w, w.2 ≫= λ p, c_Status <$> rps_Conditions p.

Lemma route_fresh_witness :
  {| nn_Namespace := "default"; nn_Name := "r1" |} ∈
    enqueued (H := sampleRuntime) (serveWatch (sampleStore [sampleRouteObj "r1" "gw" "web"] [webService]))
      (routeController sampleFeatures HTTPRouteKind "httproute") (change ServiceObj None (Some webService)).
Proof.
  apply (@route_fresh sampleX509 sampleSelectors sampleHelpers sampleRuntime sample_runtime_laws ":18000" None sampleFeatures HTTPRouteKind
    (sampleStore [sampleRouteObj "r1" "gw" "web"] [])); [|apply sample_readable|apply sample_readable|apply service_created|].
  - right; right; by left.
  - intros Heq. apply (f_equal writtenStatuses) in Heq. by vm_compute in Heq.
Defined.
