(* ===== verification/FreshGateways.v ===== *)
(** * No event that matters to a Gateway is missed

    The Gateway controller watches neither the Services routes send traffic to nor
    their EndpointSlices: what it writes depends on a Gateway's listeners and on
    how many routes attach to each, which no backend changes. *)
From S2P Require Import IngressCtl Startup Prelude GatewayAPI Samples Effects Logic Helpers Access Address Refs Routes Envoy Listeners Hosts Model API Tunnel TunnelApi RecordCtl EnvoyAPI XdsRoutes Xds GatewayLoad GatewayStatus EnvoyDeploy Bootstrap GatewayCtl CloudflaredCtl XdsCtl RouteCtl ClassCtl SecretsCtl Watches Freshness FreshRoutes.

(** ** What backends leave alone *)

(** What loading yields, the same but for Services and slices. *)
Definition AlikeButServices (r r' : (list Route * References) + Err) : Prop :=
  match r, r' with
  | inl (routes, refs), inl (routes', refs') => routes' = routes ∧ SameButServices refs refs'
  | inr err, inr err' => err' = err
  | _, _ => False
  end.

Section load.
Context (s s' : Store) (features : Features) (gw : Gateway).
Hypothesis Hserve : ∀ R (e : LoadE R), Needs s features gw R e → isRouteList e = false → isBackendGet e = false → serve s' R e = serve s R e.

Lemma loadSecrets_alike refs refs' certs :
  SameButServices refs refs' →
  match outcome (serve s) (loadSecrets gw features refs certs), outcome (serve s') (loadSecrets gw features refs' certs) with
  | inl r, inl r' => SameButServices r r'
  | inr err, inr err' => err' = err
  | _, _ => False
  end.
Proof.
  induction certs as [|cert certs IH] in refs, refs' |- *; [done|]. intros HS. cbn [loadSecrets]. rewrite !outcome_bind.
  assert (match outcome (serve s) (loadSecret gw features refs cert), outcome (serve s') (loadSecret gw features refs' cert) with
    | inl r, inl r' => SameButServices r r' | inr err, inr err' => err' = err | _, _ => False end) as H1.
  { destruct HS as (S1 & S2 & S3 & S4 & S5). unfold loadSecret, Permitted. rewrite S2. cbv zeta.
    destruct (negb (refersToSecret cert)); [by split_and!|]. destruct (negb _); [by split_and!|].
    destruct (ft_Secrets features) eqn:Ef; cbn [negb]; [|split_and!; simpl; congruence].
    rewrite !outcome_bind. cbn [outcome call]. rewrite (Hserve _ (GetTLSSecret _)) by done.
    destruct (serve s _ _) as [secret|[ns reason|err]]; simpl; [split_and!; simpl; congruence..|].
    destruct (k8s_IsNotFound err); [by split_and!|done]. }
  destruct (outcome (serve s) _) as [r|err], (outcome (serve s') _) as [r'|err']; try done. by apply IH.
Qed.

Lemma Load_alike :
  filterRoutes (routesOf s' features) gw = filterRoutes (routesOf s features) gw →
  AlikeButServices (outcome (serve s) (Load gw features)) (outcome (serve s') (Load gw features)).
Proof.
  intros Hf. rewrite !Load_eq, !outcome_bind, !ListRoutes_outcome, Hf.
  set (routes := filterRoutes _ gw). unfold loadFrom. rewrite !outcome_bind. cbn [outcome call].
  rewrite (Hserve _ ListNamespaces) by done. cbn [serve]. rewrite !outcome_bind. cbn [outcome call].
  rewrite (Hserve _ ListReferenceGrants) by done. cbn [serve]. rewrite !outcome_bind.
  assert (outcome (serve s) (loadWarpRouting gw) = outcome (serve s') (loadWarpRouting gw)) as <-.
  { eapply (answered_ext (B := unit) _ _ (λ R e, (isClassGet e = true ∨ isConfigGet e = true) ∧ Needs s features gw R e) (λ _ _, None)).
    - by apply (loadWarpRouting_asks s features).
    - intros R e [Hc He]. symmetry. apply Hserve; [done|by destruct e, Hc..]. }
  destruct (outcome (serve s) (loadWarpRouting gw)) as [warp|err]; [|done]. cbv zeta.
  set (refs := {| Namespaces := _ |}).
  assert (∀ st, Loaded st refs []) as HL.
  { split; [|intros k Hk; by apply elem_of_nil in Hk]. intros k svc. cbn [Services refs]. by rewrite lookup_empty. }
  destruct (loadServices_outcome s refs (serviceKeys routes) [] (HL s)) as (r1 & H1 & (S1 & S2 & S3 & S4 & S5) & _).
  destruct (loadServices_outcome s' refs (serviceKeys routes) [] (HL s')) as (r2 & H2 & (T1 & T2 & T3 & T4 & T5) & _).
  rewrite !outcome_bind, H1, H2, !outcome_bind.
  assert (SameButServices r1 r2) as HS by (split_and!; congruence).
  pose proof (loadSecrets_alike r1 r2 (certificateRefs gw) HS) as Hs.
  revert Hs. by destruct (outcome (serve s) (loadSecrets _ _ _ _)), (outcome (serve s') (loadSecrets _ _ _ _)).
Qed.
End load.

Section status.
Context `{X509, LabelSelectors}.

Lemma Listeners_alike gw refs refs' : SameButServices refs refs' → Listeners gw (Some refs') = Listeners gw (Some refs).
Proof.
  intros (S1 & S2 & S3 & S4 & S5). unfold Listeners. cbn [default from_option id].
  assert ((λ l, validate (gw_Namespace gw) l refs') <$> gw_Listeners gw = (λ l, validate (gw_Namespace gw) l refs) <$> gw_Listeners gw) as ->; [|done].
  apply list_fmap_ext. intros i l _.
  assert (∀ ref, resolveCertificate (gw_Namespace gw) refs' ref = resolveCertificate (gw_Namespace gw) refs ref) as Hc.
  { intros ref. unfold resolveCertificate, Permitted. by rewrite S2, S3, S4. }
  assert (∀ certs, resolveCertificateList (gw_Namespace gw) refs' certs = resolveCertificateList (gw_Namespace gw) refs certs) as Hl.
  { induction certs as [|ref certs IH]; [done|]. simpl. by rewrite Hc, IH. }
  assert (∀ kinds, resolveListener (gw_Namespace gw) l refs' kinds = resolveListener (gw_Namespace gw) l refs kinds) as Hr.
  { intros kinds. unfold resolveListener, resolveCertificates. cbv zeta. destruct (Terminates l && _); [|done].
    destruct (ls_TLS l); [|done]. by rewrite Hl. }
  unfold validate, acceptedCondition, kindsOf. by rewrite S5, Hr.
Qed.

(** The status a Gateway starts with says nothing of backends. *)
Lemma status_alike gw routes refs refs' : SameButServices refs refs' →
  newGatewayStatus (Build gw routes (Some refs')) = newGatewayStatus (Build gw routes (Some refs)).
Proof.
  intros HS. rewrite !Build_eq. cbn [default from_option id]. unfold newGatewayStatus, buildFrom. cbn [md_Listeners md_AttachedRoutes].
  assert (AgreeFor refs refs' []) as HA.
  { destruct HS as (S1 & S2 & S3 & S4 & S5). split_and!; [done..|]. intros k Hk. by apply elem_of_nil in Hk. }
  assert (∀ i r, attachedAt gw refs' (Listeners gw (Some refs')) i r = attachedAt gw refs (Listeners gw (Some refs)) i r) as Ha.
  { intros i r. unfold attachedAt. induction (r_ParentRefs r) as [|ref l IH]; [done|]. simpl.
    by rewrite (attach_agree refs refs' [] HA), IH. }
  rewrite (Listeners_alike _ _ _ HS) in *. f_equal. apply imap_ext. intros i n _. do 4 f_equal.
  apply list_filter_iff. intros r. by rewrite Ha.
Qed.
End status.

(** ** A reconciliation of a Gateway *)

Section gateways.
Context `{X509, LabelSelectors, Validation, Sha256, ObjectHelpers, Netip, Anypb, BootstrapCodec}.
Context (features : Features).

(** The cluster answers what is read; the address of the xDS server, and the writes
    of Envoy's objects, the tunnel and the status, are left. *)
Definition gatewayAnswer (s : Store) (R : Type) (e : GatewayE R) : option R :=
  match e in GatewayE R return option R with
  | Reads R e => Some (serve s R e)
  | GetGateway key => Some (fetch gw_key key (st_Gateways s))
  | _ => None
  end.

(** What a reconciliation of a Gateway writes, and does with the answers. *)
Definition plan (s : Store) (key : NamespacedName) : prog GatewayE Result :=
  supply (gatewayAnswer s) (GatewayCtl.Reconcile features key).

Definition envoyKey (gw : Gateway) : NamespacedName :=
  {| nn_Namespace := gw_Namespace gw; nn_Name := EnvoyObjectName gw |}.

(** What is read of a Gateway once its model is built. *)
Definition Reads_after (gw : Gateway) (R : Type) (e : LoadE R) : Prop :=
  match e with GetGatewayConfig _ => True | GetService key => key = envoyKey gw | _ => False end.

(** The part of [Reconcile] after the model. *)
Definition afterModel (gw : Gateway) (class : GatewayClass) (status : gatewayStatus) : prog GatewayE Result :=
  do (status, config) <- reads (GatewayCtl.accept gw class status);
  match config with
  | None =>
    do err <- GatewayCtl.patchStatus gw status;
    Ret {| requeueAfter := 0; result_err := err |}
  | Some config => provision gw config status
  end.

Lemma emits_reads (P : ∀ R, GatewayE R → Prop) {A} (p : prog LoadE A) :
  emits (λ R e, P _ (Reads R e)) p → emits P (reads p).
Proof. induction p as [|R e k IH]; [done|]. intros [He Hk]. split; [done|]. intros r. by apply IH. Qed.

Lemma afterModel_emits s gw class status (P : ∀ R, GatewayE R → Prop) :
  (∀ key, ConfigOf class key → P _ (Reads _ (GetGatewayConfig key))) → P _ (Reads _ (GetService (envoyKey gw))) →
  emits (λ R e, is_Some (gatewayAnswer s R e) → P R e) (afterModel gw class status).
Proof.
  intros H1' H2'. assert (∀ st, emits (λ R e, is_Some (gatewayAnswer s R e) → P R e) (GatewayCtl.patchStatus gw st)) as Hp.
  { intros st. unfold GatewayCtl.patchStatus. destruct (apply st gw); [by split; [intros [? ?]|]|]. by split; [intros [? ?]|]. }
  unfold afterModel. apply emits_bind.
  - apply emits_reads. unfold GatewayCtl.accept. destruct (negb _); [done|]. apply emits_bind; [|done].
    apply emits_Resolve. intros key Hk _. by apply H1'.
  - intros [st [config|]]; [|apply emits_bind; [apply Hp|done]]. unfold provision, envoyStep, provisionEnvoy, provisionTunnel.
    repeat first [apply Hp|by intros [? ?]|apply emits_reads; split; [by intros _|done]|emits_step].
Qed.

(** The reconciliation, of the Gateway, its class and what loading it yields. *)
Lemma plan_eq s key :
  same (plan s key)
  match fetch gw_key key (st_Gateways s) with
  | inr _ => Ret done_
  | inl gw =>
    match classOf s gw with
    | inr _ => Ret done_
    | inl class =>
      if negb (str_eqb (gc_ControllerName class) ControllerName) || bool_decide (is_Some (om_DeletionTimestamp (gw_ObjectMeta gw)))
      then Ret done_
      else match outcome (serve s) (Load gw features) with
           | inr err => Ret (failed err)
           | inl (routes, refs) =>
             supply (gatewayAnswer s) (afterModel gw class (newGatewayStatus (Build gw routes (Some refs))))
           end
    end
  end.
Proof.
  unfold plan, GatewayCtl.Reconcile. rewrite supply_bind. cbn [supply call gatewayAnswer bind].
  destruct (fetch gw_key _ _) as [gw|err] eqn:Eg.
  2: { unfold k8s_IgnoreNotFound, ignoreErr. by rewrite (fetch_NotFound _ _ _ _ Eg). }
  rewrite supply_bind. unfold reads at 1. rewrite (supply_lift _ _ (serve s)) by done. cbn [bind].
  rewrite gatewayClassFor_outcome. destruct (classOf s gw) as [class|err]; [|done].
  destruct (str_eqb _ ControllerName); [|done]. cbn [negb orb]. destruct (bool_decide _); [done|].
  rewrite supply_bind. unfold reads at 1. rewrite (supply_lift _ _ (serve s)) by done. cbn [bind].
  unfold buildGateway. rewrite outcome_bind. destruct (outcome (serve s) (Load gw features)) as [[routes refs]|err]; [|done].
  cbn [outcome]. done.
Qed.

Lemma afterModel_same s s' gw class status :
  (∀ key, ConfigOf class key → fetch configKey key (st_Configs s') = fetch configKey key (st_Configs s)) →
  fetch serviceKeyOf (envoyKey gw) (st_Services s') = fetch serviceKeyOf (envoyKey gw) (st_Services s) →
  same (supply (gatewayAnswer s) (afterModel gw class status)) (supply (gatewayAnswer s') (afterModel gw class status)).
Proof.
  intros Ec Es.
  apply (supply_ext _ _ (λ R e, match e with
    | Reads R e => match e with GetGatewayConfig key => ConfigOf class key | GetService k => k = envoyKey gw | _ => False end
    | _ => False end)).
  - apply emits_supplied. by apply (afterModel_emits s gw class status).
  - intros R e [He|He]; [by destruct e|]. destruct e as [R e|k| | | | | |]; try done. destruct e; try done; simpl; [by rewrite Ec|].
    by subst; rewrite Es.
Qed.

(** A Service is controlled by a Gateway. *)
Definition ControlledBy (gw : Gateway) (svc : Service) : Prop :=
  om_Namespace (svc_ObjectMeta svc) = gw_Namespace gw ∧
  ∃ r, r ∈ om_OwnerReferences (svc_ObjectMeta svc) ∧ or_Controller r = true ∧ or_Kind r = "Gateway" ∧ or_Name r = gw_Name gw.

Context `{RuntimeLaws}.

(** Envoy's own Service is watched as one the Gateway owns. *)
Lemma envoy_kept s s' ev key gw :
  Step s s' ev → fetch gw_key key (st_Gateways s) = inl gw →
  (∀ svc, ServiceObj svc ∈ objects ev → serviceKeyOf svc = envoyKey gw → ControlledBy gw svc) →
  key ∉ enqueued (serveWatch s') (gatewayController features) ev →
  fetch serviceKeyOf (envoyKey gw) (st_Services s') = fetch serviceKeyOf (envoyKey gw) (st_Services s).
Proof.
  intros HS Hgw Hsvc Hn. destruct HS as [? ? HB|? ? HB|? ? HB|? ? ? HB|? ? HB|? ? HB|old new _ HC|? ? HB|? HB];
    try by (destruct HB as (_ & _ & _ & _ & _ & _ & E7 & _); rewrite E7).
  apply (changes_fetch _ _ _ _ _ HC). intros a Ha Hk. apply Hn.
  assert (ServiceObj a ∈ objects (change ServiceObj old new)) as Hin by (apply change_objects; by exists a).
  destruct (Hsvc a Hin Hk) as (Hns & r & Hr & Hc & Hkind & Hname). apply fetch_inl in Hgw as [_ <-].
  pose proof (enqueued_owner (serveWatch s') (gatewayController features) _ _ Hin GatewayK r) as Ho.
  simpl in Ho. rewrite Hns, Hname in Ho. apply Ho; [|done|done|done]. apply list_elem_of_lookup. by exists 2.
Qed.

(** C25. Nor is a Gateway: when a change of the cluster makes the Gateway controller
    write anything else for it, whatever the writes are answered, the change's event
    enqueues it, although the controller watches no backend. A Service of the name
    of the Gateway's own Envoy is taken to be controlled by the Gateway. *)
Theorem gateway_fresh s s' ev key :
  Step s s' ev →
  (∀ gw svc, fetch gw_key key (st_Gateways s) = inl gw → ServiceObj svc ∈ objects ev → serviceKeyOf svc = envoyKey gw →
     ControlledBy gw svc) →
  ¬ same (plan s key) (plan s' key) →
  key ∈ enqueued (serveWatch s') (gatewayController features) ev.
Proof.
  intros HS Hsvc Hd. destruct (decide (key ∈ enqueued (serveWatch s') (gatewayController features) ev)) as [|Hn]; [done|].
  destruct Hd.
  assert (WatchesInputs features false (gatewayController features)) as HW.
  { split; [apply list_elem_of_lookup; by exists 0|apply list_elem_of_lookup; by exists 4|apply list_elem_of_lookup; by exists 5|].
    intros w Hw. apply elem_of_app. by right. }
  pose proof (inputs_kept _ _ _ HW _ _ _ _ HS Hn) as HK. rewrite !plan_eq, (kept_gateway _ _ _ _ _ HK).
  destruct (fetch gw_key key (st_Gateways s)) as [gw|err] eqn:Eg; [|done]. rewrite (kept_class _ _ _ _ _ _ HK Eg).
  destruct (classOf s gw) as [class|err] eqn:Ec; [|done]. destruct (str_eqb _ _) eqn:En; [|done]. apply str_eqb_eq in En.
  destruct (negb _ || _); [done|]. assert (Ours s gw) as Ho by (by exists class).
  assert (AlikeButServices (outcome (serve s) (Load gw features)) (outcome (serve s') (Load gw features))) as HL.
  { apply Load_alike; [|by apply (kept_routes _ _ _ _ _ HK)].
    intros R e He Hr Hb. apply (kept_reads _ _ _ _ _ HK gw); auto. }
  unfold AlikeButServices in HL.
  destruct (outcome (serve s) (Load gw features)) as [[routes refs]|err],
    (outcome (serve s') (Load gw features)) as [[routes' refs']|err']; try done; [|by subst].
  destruct HL as [-> HL]. rewrite (status_alike _ _ _ _ HL).
  apply afterModel_same; [|apply (envoy_kept s s' ev key); [done|done|intros svc; by apply Hsvc|done]].
  intros k Hk. apply (kept_reads _ _ _ _ _ HK gw _ (GetGatewayConfig k)); auto. by exists class.
Qed.
End gateways.

(** ** What is not watched *)

Lemma inputs_not_services features w : w ∈ watchGatewayInputs features false → w_Kind w ≠ ServiceK.
Proof.
  unfold watchGatewayInputs. rewrite !elem_of_app. intros Hw.
  assert (∀ (b : bool) (w' : Watch), w_Kind w' ≠ ServiceK → w ∈ (if b then [w'] else []) → w_Kind w ≠ ServiceK) as Hif.
  { intros [] w' Hne Hin; [by apply list_elem_of_singleton in Hin as ->|by apply elem_of_nil in Hin]. }
  destruct Hw as [Hw|[Hw|[Hw|[Hw|[Hw|[Hw|Hw]]]]]]; [|by apply elem_of_nil in Hw|by eapply Hif; [|exact Hw]..].
  by repeat (apply elem_of_cons in Hw as [->|Hw]; [done|]); apply elem_of_nil in Hw.
Qed.

(** An event of a Service that no Gateway controls enqueues nothing: a Gateway that
    waits for the name of its Envoy's Service, which such a Service has, is not
    reconciled when that Service is deleted. *)
Theorem foreign_service_missed answer features ev :
  (∀ o, o ∈ objects ev → ∃ svc, o = ServiceObj svc ∧
     ∀ r, r ∈ om_OwnerReferences (svc_ObjectMeta svc) → or_Controller r = true → or_Kind r ≠ "Gateway") →
  enqueued (H := sampleRuntime) answer (gatewayController features) ev = [].
Proof.
  intros Hev. apply elem_of_nil_inv. intros k Hk. unfold enqueued in Hk. apply list_elem_of_bind in Hk as (w & Hk & Hw).
  destruct (existsb _ (objects ev)) eqn:Ek; [|by apply elem_of_nil in Hk].
  apply existsb_spec in Ek as (o & Ho & Hkind%bool_decide_eq_true). destruct (Hev o Ho) as (svc & -> & _). simpl in Hkind.
  assert (w = Owns GatewayK ServiceK) as ->.
  { symmetry in Hkind. apply elem_of_app in Hw as [Hw|Hw].
    - repeat (apply elem_of_cons in Hw as [->|Hw]; [first [done|discriminate Hkind]|]). by apply elem_of_nil in Hw.
    - by destruct (inputs_not_services _ _ Hw). }
  simpl in Hk. apply list_elem_of_bind in Hk as (o' & Hk & Ho'). destruct (Hev o' Ho') as (svc' & -> & Hno).
  unfold ownerRequests in Hk. apply list_elem_of_omap in Hk as (r & Hr & Hk).
  destruct (or_Controller r) eqn:Ec; [|done]. simpl in Hk. destruct (str_eqb (or_Kind r) "Gateway") eqn:En; [|done].
  apply str_eqb_eq in En. by destruct (Hno r Hr Ec).
Qed.

(** ** A sample cluster *)

Definition samplePlan (s : Store) : prog GatewayE Result :=
  @plan sampleX509 sampleSelectors sampleValidation sampleSha256 sampleHelpers
    {| hostPrefix := λ ip, Some (ip +:+ "/32") |} sampleAnypb sampleCodec sampleFeatures s gwKey.

(** How many routes are attached to each listener in the status that is written. *)
Definition attachedWritten (r : option (list (event GatewayE) * Result)) : list (list Z) :=
  match r with
  | Some (tr, _) => (λ '(_, gw'), lst_AttachedRoutes <$> gw_StatusListeners gw') <$> omap statusWritten tr
  | None => []
  end.

Lemma gateway_fresh_witness :
  gwKey ∈ enqueued (H := sampleRuntime) (serveWatch (sampleStore [sampleRouteObj "r1" "gw" "web"] [webService]))
    (gatewayController sampleFeatures) (change RouteObj None (Some (sampleRouteObj "r1" "gw" "web"))).
Proof.
  apply (@gateway_fresh sampleX509 sampleSelectors sampleValidation sampleSha256 sampleHelpers
    {| hostPrefix := λ ip, Some (ip +:+ "/32") |} sampleAnypb sampleCodec sampleFeatures sampleRuntime sample_runtime_laws
    (sampleStore [] [webService])).
  - apply (step_routes _ _ HTTPRouteKind); [by split_and!|]. split; [by exists [], []|]. split; [done|]. right. by eexists.
  - intros gw svc _ [a [_ [= <-]]]%change_objects.
  - intros Hs. apply (same_runTrace gatewayAnswers) in Hs.
    + apply (f_equal attachedWritten) in Hs. by vm_compute in Hs.
    + assert (attachedWritten (runTrace gatewayAnswers (samplePlan (sampleStore [] [webService]))) = [[0%Z]]) as Hr by by vm_compute.
      unfold samplePlan in Hr. destruct (runTrace gatewayAnswers _) as [r|]; [by exists r|done].
Defined.
