(* ===== verification/FreshClasses.v ===== *)
(** * No event that matters to a class, or to the namespaces of Secrets, is missed

    The GatewayClass controller and the controllers of the operator's access to
    TLS Secrets. *)
From S2P Require Import IngressCtl Startup Prelude GatewayAPI Samples Effects Logic Helpers Access Refs Routes Envoy Listeners Hosts Model API TunnelApi RecordCtl EnvoyAPI GatewayLoad GatewayStatus EnvoyDeploy GatewayCtl CloudflaredCtl RouteCtl ClassCtl SecretsCtl Watches Freshness FreshRoutes.

(** ** GatewayClasses *)

Section classes.
Context `{ObjectHelpers}.

(** The cluster answers; a class is updated as it is asked to be. *)
Definition classAnswer (s : Store) (R : Type) (e : ClassE R) : R :=
  match e in ClassE R return R with
  | ClassReads R e => serve s R e
  | ClassLists R e => serveLists s R e
  | UpdateClass class => inl class
  | PatchClassStatus _ _ => None
  end.

Definition classWrites (R : Type) (e : ClassE R) : option ClassWrite :=
  match e with
  | UpdateClass class => Some (ClassUpdated class)
  | PatchClassStatus class conditions => Some (ClassStatus class conditions)
  | _ => None
  end.

(** What a reconciliation of a class returns and writes in a cluster. *)
Definition classDone (s : Store) (name : string) : Result * list ClassWrite :=
  (outcome (classAnswer s) (ClassCtl.Reconcile name), made (classAnswer s) classWrites (ClassCtl.Reconcile name)).

Definition named (name : string) (gw : Gateway) : bool := str_eqb (gw_GatewayClassName gw) name.

(** The reconciliation depends on the class, on whether a Gateway names it, and on
    the config its parameters name. *)
Lemma class_same s s' name :
  fetch gc_Name name (st_Classes s') = fetch gc_Name name (st_Classes s) →
  existsb (named name) (st_Gateways s') = existsb (named name) (st_Gateways s) →
  (∀ class key, fetch gc_Name name (st_Classes s) = inl class → ConfigOf class key →
     fetch configKey key (st_Configs s') = fetch configKey key (st_Configs s)) →
  classDone s name = classDone s' name.
Proof.
  intros Hc Hg Hk. unfold classDone, ClassCtl.Reconcile. rewrite !outcome_bind, !made_bind.
  cbn [outcome made call classAnswer serve classWrites option_list app]. rewrite Hc. clear Hc.
  destruct (fetch gc_Name _ _) as [class|err] eqn:Ec; [|done]. apply fetch_inl in Ec as [_ Hn].
  destruct (negb _); [done|]. destruct (bool_decide _).
  { unfold ClassCtl.finalize. rewrite !outcome_bind, !made_bind. cbn [outcome made call classAnswer serveLists classWrites option_list app].
    unfold named in Hg. rewrite <- Hn in Hg. rewrite Hg. clear Hg. destruct (existsb _ _); [done|].
    by destruct (ContainsFinalizer _ _). }
  assert (∀ held, gc_ParametersRef held = gc_ParametersRef class →
    outcome (classAnswer s) (lift ClassReads (Resolve held)) = outcome (classAnswer s') (lift ClassReads (Resolve held))) as Hr.
  { intros held Hp. rewrite !outcome_lift.
    eapply (answered_ext (B := unit) _ _ (λ R e, match e with GetGatewayConfig key => ConfigOf class key | _ => False end) (λ _ _, None)).
    - apply emits_asks, emits_Resolve. intros key (ref & Hr & Hx). exists ref. by rewrite <- Hp.
    - intros R e He. destruct e; try done. simpl. by rewrite (Hk class). }
  rewrite !outcome_bind, !made_bind. unfold holdClass.
  destruct (ContainsFinalizer _ _); cbn [outcome made call classAnswer classWrites option_list app];
    rewrite !outcome_bind, !made_bind, Hr, !made_lift, !(made_none _ (λ R e, classWrites R (ClassReads R e))) by done;
    by destruct (outcome (classAnswer s') _) as [config|[e m|err]].
Qed.

Context `{RuntimeLaws}.

Lemma existsb_changes {A K} (keyOf : A → K) l old new l' (f : A → bool) :
  Changes keyOf l old new l' → (∀ a, old = Some a ∨ new = Some a → f a = false) → existsb f l' = existsb f l.
Proof.
  intros [(l1 & l2 & -> & ->) _] Hf. rewrite !existsb_app.
  assert (∀ o : option A, (∀ a, o = Some a → f a = false) → existsb f (option_list o) = false) as Hno.
  { intros [a|] Ha; [|done]. simpl. by rewrite (Ha a). }
  rewrite (Hno old), (Hno new); [done|intros a ->; apply Hf; by right|intros a ->; apply Hf; by left].
Qed.

(** Nor is a GatewayClass: when a change of the cluster makes its controller do
    anything else, the event enqueues the class. *)
Theorem class_fresh s s' ev name :
  Step s s' ev → classDone s name ≠ classDone s' name →
  ∃ ns, {| nn_Namespace := ns; nn_Name := name |} ∈ enqueued (serveWatch s') gatewayClassController ev.
Proof.
  intros HS Hd.
  assert (∀ k, nn_Name k = name → k ∈ enqueued (serveWatch s') gatewayClassController ev →
    ∃ ns, {| nn_Namespace := ns; nn_Name := name |} ∈ enqueued (serveWatch s') gatewayClassController ev) as Hex.
  { intros [ns n] <-. by exists ns. }
  assert (¬ (∃ k, nn_Name k = name ∧ k ∈ enqueued (serveWatch s') gatewayClassController ev) → classDone s name = classDone s' name) as Hn.
  2: { destruct (decide (Exists (λ k, nn_Name k = name) (enqueued (serveWatch s') gatewayClassController ev))) as [He|He].
       - apply Exists_exists in He as (k & Hin & Hk). by apply (Hex k).
       - destruct Hd. apply Hn. intros (k & Hk & Hin). apply He, Exists_exists. by exists k. }
  clear Hex Hd. intros Hn.
  assert (∀ k, nn_Name k = name → k ∉ enqueued (serveWatch s') gatewayClassController ev) as Hno by (intros k Hk Hin; apply Hn; by exists k).
  clear Hn.
  destruct HS as [old new HB HC|old new HB HC|old new HB HC|kind old new HB|old new HB|old new HB|old new HB|old new HB|ns HB];
    destruct HB as (E1 & E2 & E3 & _); apply class_same; try (by rewrite ?E1, ?E2, ?E3); try (intros class key _ _; by rewrite E3).
  - apply (existsb_changes _ _ _ _ _ _ HC). intros a Ha. apply not_true_iff_false. intros Hname%str_eqb_eq.
    apply (Hno (clusterKey name)); [done|].
    eapply (enqueued_map _ _ _ (GatewayObj a)); [apply change_objects; by exists a|by right; left|]. simpl. rewrite Hname. by left.
  - apply (changes_fetch _ _ _ _ _ HC). intros a Ha Hk. apply (Hno (objKey (ClassObj a))); [done|].
    apply (enqueued_for _ _ _ (ClassObj a)); [apply change_objects; by exists a|by left].
  - intros class key Hc (ref & Hr & Hg & Hkd & Hns & Hnm). apply (changes_fetch _ _ _ _ _ HC). intros a Ha Hk.
    apply (Hno (clusterKey name)); [done|].
    eapply (enqueued_map _ _ _ (ConfigObj a)); [apply change_objects; by exists a|by right; right; left|].
    cbv beta. rewrite outcome_bind, outcome_lift. simpl. apply list_elem_of_fmap. exists name. split; [done|].
    apply fetch_inl in Hc as [Hin <-]. apply list_elem_of_fmap. exists class. split; [done|].
    apply list_elem_of_In, List.filter_In. rewrite E2 by done. split; [by apply list_elem_of_In|].
    unfold parametersName. rewrite Hr, Hg, Hkd, Hns, Hnm. simpl. subst key. by rewrite !str_eqb_refl.
Qed.
End classes.

(** ** The namespaces of Secrets *)

Section secrets.
Context `{RuntimeLaws}.

Definition secretsAnswer (s : Store) (R : Type) (e : SecretsE R) : R :=
  match e in SecretsE R return R with
  | SecretReads R e => serve s R e
  | SecretLists R e => serveLists s R e
  | SetAccessNamespaces _ => None
  | ListBindings _ => inl []
  | GetBinding _ => inr k8sNotFoundErr
  | CreateBinding _ | UpdateBinding _ | DeleteBinding _ => None
  end.

(** The list of grants. *)
Definition isGrantList {R} (e : LoadE R) : bool := match e with ListReferenceGrants => true | _ => false end.

Lemma namespaces_emits : emits (λ R e, match e with
  | SecretReads R e => isGrantList e = true | SecretLists _ _ => True | _ => False end) certificateNamespaces.
Proof. unfold certificateNamespaces. repeat first [done|emits_step]. Qed.

(** Nor are the namespaces the operator reads Secrets in: a change of what they are
    enqueues the request of both controllers that follow them. *)
Theorem namespaces_fresh Role s s' ev :
  Step s s' ev →
  outcome (secretsAnswer s) certificateNamespaces ≠ outcome (secretsAnswer s') certificateNamespaces →
  secretAccessRequest ∈ enqueued (serveWatch s') secretWatchController ev ∧
  secretAccessRequest ∈ enqueued (serveWatch s') (secretAccessController Role) ev.
Proof.
  intros HS Hd.
  assert (∀ o, o ∈ objects ev → kindOf o ∈ [GatewayK; ClassK; GrantK] →
    secretAccessRequest ∈ enqueued (serveWatch s') secretWatchController ev ∧
    secretAccessRequest ∈ enqueued (serveWatch s') (secretAccessController Role) ev) as Hall.
  { intros o Ho Hk. assert (Watches (kindOf o) (EnqueueRequestsFromMapFunc (λ _, Ret [secretAccessRequest])) ∈ watchCertificateNamespaces) as Hw.
    { unfold watchCertificateNamespaces. cbv zeta. rewrite !elem_of_cons in Hk. destruct Hk as [-> |[-> |[-> |Hk]]];
        [by left|by right; left|by right; right; left|by apply elem_of_nil in Hk]. }
    split; (apply (enqueued_map _ _ _ o Ho (λ _, Ret [secretAccessRequest])); [|by left]); [exact Hw|apply elem_of_app; by left]. }
  destruct HS as [old new HB HC|old new HB HC|old new HB HC|kind old new HB HC|old new HB HC|old new HB HC|old new HB HC|old new HB HC|ns HB].
  1, 2, 5: destruct (changes_object _ _ _ _ _ HC) as [a Ha]; eapply Hall; [apply change_objects; by exists a|];
    first [by left|by right; left|by right; right; left].
  all: destruct Hd, HB as (E1 & E2 & _ & _ & E5 & _);
    eapply (answered_ext (B := unit) _ _ _ (λ _ _, None)); [apply emits_asks, namespaces_emits|];
    intros R e He; destruct e as [R e|R e| | | | | |]; try done; destruct e; try done; simpl; by rewrite ?E1, ?E2, ?E5.
Qed.
End secrets.
